(* ===== verification/_CoqProject ===== *)
-Q . S2P
Prelude.v
Hash.v
Varint.v
Batch.v
SegName.v
LogSegment.v
BinSearch.v
OffsetIndex.v
TimeIndex.v
BatchLog.v
Segment.v
Recovery.v
Storage.v
StorageOpen.v
StorageCut.v
StorageExamples.v
Keys.v
StorageDebug.v
Json.v
Metadata.v
Rebalance.v
MetadataInv.v
RangeAssign.v
Prog.v
GroupCoord.v
Base64.v
MetaJson.v
MetaSnap.v
GroupSem.v
GroupRun.v
GroupLive.v
GroupFailover.v
Partition.v
Sidecar.v
DataCoord.v
ClusterCoord.v
Bootstrap.v
Placement.v
ClusterPlace.v
ApiData.v
DataRun.v
StorageTime.v
ClusterRun.v
RaftHost.v
ClusterServe.v
ApiMgmt.v
ClientCodec.v
Config.v
BrokerConfig.v
StorageHistory.v
StorageMetrics.v
RaftMetrics.v
Replicas.v
ClientNet.v
ClientWorld.v
Producer.v
ProducerRun.v
Consumer.v
ConsumerRun.v
Auth.v
Interceptors.v
Broker.v
Admin.v
ClientRun.v
ClientServe.v
ClientGroup.v
GroupServe.v
AdminRun.v
Cli.v
CliTrace.v
CliRun.v
ClientExamples.v
CliExamples.v
ConsumerRace.v
