(* ===== verification/Prelude.v ===== *)
(** * BunnyMQ: a verified model of the broker

    BunnyMQ is a replicated log broker. Producers encode records into batches; the data API of
    a node validates them; the data coordinator routes them to the raft shard of a partition;
    the partition state machine appends them to a storage of log segments; consumers fetch by
    offset and commit their progress in consumer groups. The metadata state machine, replicated
    too, holds topics, partitions, nodes and groups; the cluster coordinator creates topics, places
    their replicas and starts their shards, and the group coordinator proposes the commands that
    change the groups. Producers, consumers and administrators use a client library that finds
    leaders, retries, and keeps a consumer's membership alive.

    The files, from the bottom up:

    - [Prelude]: machine integers with their wrap-around, Go errors and panics as outcomes, slices
      with their bounds, big-endian bytes, tactics and hint databases.
    - [Hash], [Varint], [Batch]: CRC-32C, varints and the batch codec (internal/storage/batch.go).
      Encoding then decoding gives the records back; a changed byte is detected; decoding ends on
      every input. The fuel of the decoder loops is the length of the data, because every
      iteration consumes a byte.
    - [SegName], [LogSegment], [BinSearch], [OffsetIndex], [TimeIndex]: file names and their order,
      log files (log_segment.go) and the preallocated index files (offset_index.go, time_index.go).
      A directory is a finite map from names to contents; [frame] says which names an operation
      touches.
    - [BatchLog]: the abstract log, a list of batches with consecutive offsets, and what a fetch of
      it returns. [Segment], [Recovery], [Storage], [StorageOpen], [StorageCut]: one segment
      (segment_storage.go), reopening (recovery.go) and the storage (storage.go, retention.go).
      [represents] relates a storage to the abstract log; appending, reading, closing and
      reopening, crashing at any byte, truncating and retention are refinements of operations on
      it. [StorageExamples] composes codec and storage and evaluates concrete storages.
    - [Keys], [Metadata]: the metadata state machine (internal/metadata), all commands and queries.
      [Rebalance]: its own division of partitions among members. [MetadataInv]: the invariant of
      the topic and partition tables, and histories: shard ids are never reused, leader epochs
      only grow.
    - [Json], [MetaJson], [MetaSnap]: encoding/json on values, the JSON of commands and of the state
      by the struct tags of types.go, snapshots; a replica restored from a snapshot is one that
      replayed the log.
    - [RangeAssign]: the coordinators' assignment (assignment.go, groupcoord.go): exact, even,
      independent of the order of its inputs.
    - [Prog]: calls that make requests to an environment, run by a handler or executed among
      other processes, with a rule for invariants. [GroupCoord]: the group coordinator
      (groupcoord.go) as such calls. [GroupSem]: no partition has two owners under any
      interleaving. [GroupRun], [GroupLive]: what each call does, on every branch; the session
      sweep; the rebalance signal. [GroupFailover]: the sweep loop removes silent members in time,
      and what a newly elected coordinator does with the heartbeats it never heard.
    - [Partition]: the partition state machine (internal/partition): updates, the sidecar, exactly
      once across crashes. [Sidecar]: the files of the sidecar and a crash while it is replaced.
      [StorageHistory]: the storage simulates an abstract log on every history of operations, if no time
      limit is in force or timestamps do not go back; otherwise retention can leave a hole.
      [Replicas]: the lives of the replicas of a shard, with chunks, ticks, restarts and crashes, as
      a step relation; two replicas agree wherever both hold an offset. One crash is left out,
      that of the first update before there is a sidecar, which stores batches twice
      ([first_update_duplicates] in [Partition]).
    - [StorageMetrics], [RaftMetrics]: the metrics (internal/storage/metrics.go, internal/cluster and
      what records them): recording changes nothing else, and on every history the series say what
      the storages did and whom the coordinator knows as leader; where they do not (the segment
      count, the latest offset after a cut at opening) the theorem says so.
    - [DataCoord], [ApiData]: the data coordinator (coordinator/data/data.go) and the data API
      (internal/api/data) over classes that stand for the coordinator interfaces. [DataRun]: the
      path of a record from the producer's request to the consumer's fetch, leadership errors,
      the wake-up of long polls, and what validation lets through. [StorageTime]: which batch a
      lookup by time finds, and which it skips.
    - [ClusterCoord]: the cluster coordinator (coordinator/cluster/cluster.go), its calls,
      loops and goroutines. [Bootstrap]: the bootstrap of a node returns. [Placement]:
      replica placement is even and total. [ClusterPlace]: placement under any interleaving
      with other nodes. [ClusterRun], [ClusterServe]: reconciliation converges, a leader
      sweep records what raft reports, a new topic comes into service. [ApiMgmt]: the
      management API (internal/api/management).
    - [RaftHost]: the raft host (internal/raft/host.go) and the broker's wrapper of it. The requests
      of the coordinators, made through it, do what the other files say they do, given that the
      raft library behaves as documented (the class [NodeHost]): proposals with time left are
      committed and applied, proposals without fail, shards start with a valid configuration and members.
    - [Config], [BrokerConfig]: the configuration (internal/config) and the wiring of main.go; what
      the defaults do to retention. [Auth]: authentication (internal/api/auth). [Interceptors]: the
      chain of authentication, logging and metrics before the handlers (internal/api).
    - [ClientCodec], [ClientNet]: the batch codec, connection pool, metadata cache and back-off of
      the clients (internal/client), and the requests clients make. [Producer], [Consumer],
      [Admin]: pkg/client. [ProducerRun], [ConsumerRun], [ConsumerRace]: a producer and a deposed
      leader, a consumer in a group, and a poll beside a rebalance.
    - [ClientWorld], [ClientRun], [ClientServe], [AdminRun]: clients and brokers in one world, where
      the requests of the clients are answered by the API servers over the coordinators, the state
      machines and the storage: sending, polling and creating topics, end to end. [ClientGroup]:
      the group requests, through the API, the coordinator and the metadata; [GroupServe]: members
      of a group that read a partition one after the other.
      [ClientExamples] applies these theorems to a concrete cluster.
    - [Base64], [Cli], [CliTrace], [CliRun], [CliExamples]: the command line client (cmd/bunnymq-cli):
      what the consume command prints and commits on every path, a record from one terminal to
      another, and what --count loses. [StorageDebug]: the tool for storage directories
      (cmd/storage-debug); its dump and recovery agree on every file, and what it appends it reads
      back. [Broker]: the process (cmd/bunnymq/main.go and the servers of internal/api): on every
      path of replies the APIs are served only while all behind them runs, and what is left
      running when it fails.

    How the code is modelled.

    A Go function is a function here, with its name; early returns are branches in the same
    order. An operation that mutates an object returns the new object, also when it fails. The
    result of a call is an [outcome]: a value, an error, a panic, or [OutOfFuel], a value of the
    model for a loop whose bound was too small; theorems that say an operation succeeds exclude
    it. Integers are [Z] with the conversions of the code written out ([i32], [u64], ...). Maps are
    stdpp's [gmap]; where the order of a Go map iteration matters it is a request with any
    permutation as its answer. Mutexes make an operation one step; where the code goes on after it
    has released a lock the file says so. The metadata lookup copies a
    group but shares its members map; the sweep, which iterates over that map while its own
    proposals change it, reads the shared map at every iteration.

    Bounds.

    A batch is at most 2^29 bytes (the API refuses more than 4 MiB) and a segment is configured to
    at most 2^30 ([cfg_ok]), so that positions fit the int32 fields of the indexes. Offsets and
    shard ids stay below 2^63 and 2^64, histories below 2^32 entries. A long poll takes a bound on
    its wake-ups as an argument.

    What is not modelled.

    The raft library (its calls are requests with the documented answers), the text form of JSON
    (values are modelled, member names as they are written), gRPC transport and TLS, failing system
    calls (the sidecar's crash apart, a file that is written is there), log lines other than those
    of the requests, the timing of most tickers (their bodies are operations that may happen at any
    time; the session sweep has its interval), the Prometheus client (a vector is a map from label
    values to numbers, exact below 2^53), and the parsing of command lines. The generated protocol
    code is not modelled; its messages are the arguments and results of the handlers.
    [ConsumerRun] answers group requests with fixed replies, so that they can also fail; in
    [ClientGroup] the coordinator answers them. *)

From coqutil Require Export Byte.
From stdpp Require Export base tactics list gmap strings numbers sorting.

#[export] Set Default Goal Selector "!".

Local Open Scope Z_scope.

(** ** Machine integers

    A Go integer of width [w] is a [Z] in its range; the conversions below are the
    wrap-around of Go's integer conversions and arithmetic. [int] is 64 bits wide. *)

Definition u8 (z : Z) : Z := z mod 2 ^ 8.
Definition u16 (z : Z) : Z := z mod 2 ^ 16.
Definition u32 (z : Z) : Z := z mod 2 ^ 32.
Definition u64 (z : Z) : Z := z mod 2 ^ 64.
Definition i16 (z : Z) : Z := (z + 2 ^ 15) mod 2 ^ 16 - 2 ^ 15.
Definition i32 (z : Z) : Z := (z + 2 ^ 31) mod 2 ^ 32 - 2 ^ 31.
Definition i64 (z : Z) : Z := (z + 2 ^ 63) mod 2 ^ 64 - 2 ^ 63.

Definition in_u32 (z : Z) : Prop := 0 <= z < 2 ^ 32.
Definition in_u64 (z : Z) : Prop := 0 <= z < 2 ^ 64.
Definition in_i32 (z : Z) : Prop := - 2 ^ 31 <= z < 2 ^ 31.
Definition in_i64 (z : Z) : Prop := - 2 ^ 63 <= z < 2 ^ 63.

Ltac unfold_ints :=
  unfold in_u32, in_u64, in_i32, in_i64, u8, u16, u32, u64, i16, i32, i64 in *.

(** Arithmetic on wrapped integers: unfold the wrappers, turn [mod] into equations. *)
Ltac wrap_lia := unfold_ints; Z.div_mod_to_equations; lia.

Lemma u32_id z : in_u32 z -> u32 z = z.
Proof. unfold_ints. apply Z.mod_small. Qed.
Lemma u64_id z : in_u64 z -> u64 z = z.
Proof. unfold_ints. apply Z.mod_small. Qed.
Lemma i32_id z : in_i32 z -> i32 z = z.
Proof. wrap_lia. Qed.
Lemma i64_id z : in_i64 z -> i64 z = z.
Proof. wrap_lia. Qed.
Lemma u32_range z : in_u32 (u32 z).
Proof. wrap_lia. Qed.
Lemma u64_range z : in_u64 (u64 z).
Proof. wrap_lia. Qed.
Lemma i32_range z : in_i32 (i32 z).
Proof. wrap_lia. Qed.
Lemma i64_range z : in_i64 (i64 z).
Proof. wrap_lia. Qed.
Lemma i64_u64 z : i64 (u64 z) = i64 z.
Proof. wrap_lia. Qed.
Lemma i32_u32 z : i32 (u32 z) = i32 z.
Proof. wrap_lia. Qed.

(** Subtracting and adding back a base is exact even when the difference overflows. *)
Lemma i64_add_sub a b : in_i64 a -> i64 (b + i64 (a - b)) = a.
Proof. wrap_lia. Qed.

Create HintDb ints.
#[export] Hint Resolve u32_range u64_range i32_range i64_range : ints.

(** ** Errors and outcomes

    A Go [error] is compared by identity: a package-level [errors.New] variable is a
    [ErrSentinel], an error made in place is [ErrNew], and [fmt.Errorf] with [%w] is
    [ErrWrap]. *)

Record sentinel := Sentinel { sent_pkg : string; sent_name : string }.

#[export] Instance sentinel_eq_dec : EqDecision sentinel.
Proof. solve_decision. Defined.

(** The details of the API that a gRPC status can carry (errors.proto). *)
Inductive status_detail :=
| BunnyErrorDetail (code : Z)
| NotLeaderDetail (node : Z) (address : string).

#[export] Instance status_detail_eq_dec : EqDecision status_detail.
Proof. solve_decision. Defined.

Inductive error :=
| ErrSentinel (s : sentinel)
| ErrNew (msg : string)
| ErrWrap (msg : string) (e : error)
| ErrNotLeader (node : Z) (address : string)  (** a [*NotLeaderError] of coordinator/data *)
| ErrStatus (code : Z) (details : list status_detail).  (** a gRPC status, as a client sees it *)

#[export] Instance error_eq_dec : EqDecision error.
Proof. solve_decision. Defined.

(** [errors.Is]: some error of the chain is the target sentinel. *)
Fixpoint errors_is (e : error) (target : sentinel) : bool :=
  match e with
  | ErrSentinel s => bool_decide (s = target)
  | ErrNew _ => false
  | ErrWrap _ e' => errors_is e' target
  | ErrNotLeader _ _ => false
  | ErrStatus _ _ => false
  end.

(** [errors.As] with a [*NotLeaderError]. *)
Fixpoint errors_as_notLeader (e : error) : option (Z * string) :=
  match e with
  | ErrWrap _ e' => errors_as_notLeader e'
  | ErrNotLeader n a => Some (n, a)
  | _ => None
  end.

Inductive panic :=
| PanicBounds      (** index or slice bounds out of range *)
| PanicMakeSlice   (** [make] with a length that is negative or too large *)
| PanicNil         (** nil map write or nil dereference *)
| PanicDivide      (** integer division by zero *)
| PanicMsg (msg : string).

#[export] Instance panic_eq_dec : EqDecision panic.
Proof. solve_decision. Defined.

(** What a call does: return, return an error, panic; [OutOfFuel] is the model's own
    value for a loop whose iteration bound was too small. *)
Inductive outcome (A : Type) : Type :=
| Ok (a : A)
| Err (e : error)
| Panic (p : panic)
| OutOfFuel.
Arguments Ok {A} _.
Arguments Err {A} _.
Arguments Panic {A} _.
Arguments OutOfFuel {A}.

#[export] Instance outcome_eq_dec {A} `{EqDecision A} : EqDecision (outcome A).
Proof. solve_decision. Defined.

#[export] Instance outcome_ret : MRet outcome := fun A a => Ok a.
#[export] Instance outcome_bind : MBind outcome := fun A B f m =>
  match m with
  | Ok a => f a
  | Err e => Err e
  | Panic p => Panic p
  | OutOfFuel => OutOfFuel
  end.
#[export] Instance outcome_fmap : FMap outcome := fun A B f m =>
  match m with
  | Ok a => Ok (f a)
  | Err e => Err e
  | Panic p => Panic p
  | OutOfFuel => OutOfFuel
  end.

Lemma bind_Ok {A B} (m : outcome A) (f : A -> outcome B) (b : B) :
  (m ≫= f) = Ok b <-> exists a, m = Ok a /\ f a = Ok b.
Proof. 
  destruct m; simpl; (split; [intros ?; try discriminate; eauto | intros (?&?&?); congruence]). Qed.

(** [injection] without its simplification of the values. *)
Lemma Ok_inj {A} (a b : A) : Ok a = Ok b -> a = b.
Proof. congruence. Qed.

Definition is_ok {A} (m : outcome A) : bool :=
  match m with Ok _ => true | _ => false end.

(** ** Lists indexed by integers *)

Definition len {A} (l : list A) : Z := Z.of_nat (length l).

Arguments len {A} l : simpl never.

Lemma len_nonneg {A} (l : list A) : 0 <= len l.
Proof. unfold len. lia. Qed.
Lemma len_nil {A} : len (@nil A) = 0.
Proof. reflexivity. Qed.
Lemma len_cons {A} (x : A) l : len (x :: l) = 1 + len l.
Proof. unfold len. cbn [length]. lia. Qed.
Lemma len_app {A} (l1 l2 : list A) : len (l1 ++ l2) = len l1 + len l2.
Proof. unfold len. rewrite length_app. lia. Qed.
Lemma len_map {A B} (f : A -> B) l : len (f <$> l) = len l.
Proof. unfold len. by rewrite length_fmap. Qed.

(** [l[i:j]] for indices in range. *)
Definition sub {A} (l : list A) (i j : Z) : list A :=
  take (Z.to_nat (j - i)) (drop (Z.to_nat i) l).

(** Go's [l[i:j]]: it panics unless [0 <= i <= j <= len(l)]. *)
Definition slice {A} (l : list A) (i j : Z) : outcome (list A) :=
  if (0 <=? i) && (i <=? j) && (j <=? len l) then Ok (sub l i j) else Panic PanicBounds.

(** Go's [l[i]]. *)
Definition index {A} (l : list A) (i : Z) : outcome A :=
  if 0 <=? i then
    match l !! Z.to_nat i with Some x => Ok x | None => Panic PanicBounds end
  else Panic PanicBounds.

(** [copy(l[i:], new)] when [new] fits: the bytes from [i] on are overwritten. *)
Definition splice {A} (l : list A) (i : Z) (new : list A) : list A :=
  take (Z.to_nat i) l ++ new ++ drop (Z.to_nat i + length new) l.

(** A store through [l[i:i+len(new)]], bounds checked like the slice expression. *)
Definition store {A} (l : list A) (i : Z) (new : list A) : outcome (list A) :=
  if (0 <=? i) && (i + len new <=? len l) then Ok (splice l i new) else Panic PanicBounds.

Arguments sub {A} l i j : simpl never.
Arguments slice {A} l i j : simpl never.
Arguments index {A} l i : simpl never.
Arguments splice {A} l i new : simpl never.
Arguments store {A} l i new : simpl never.

Lemma len_sub {A} (l : list A) i j :
  0 <= i -> i <= j -> j <= len l -> len (sub l i j) = j - i.
Proof. unfold len, sub. intros. rewrite length_take, length_drop. lia. Qed.

Lemma slice_Ok {A} (l : list A) i j :
  0 <= i -> i <= j -> j <= len l -> slice l i j = Ok (sub l i j).
Proof. intros. unfold slice. by rewrite !(proj2 (Z.leb_le _ _)) by lia. Qed.

Lemma slice_panics {A} (l : list A) i j :
  ~ (0 <= i /\ i <= j /\ j <= len l) -> slice l i j = Panic PanicBounds.
Proof.
  intros. unfold slice.
  destruct (Z.leb_spec 0 i), (Z.leb_spec i j), (Z.leb_spec j (len l)); simpl; try done; lia.
Qed.

Lemma store_Ok {A} (l : list A) i new :
  0 <= i -> i + len new <= len l -> store l i new = Ok (splice l i new).
Proof. intros. unfold store. by rewrite !(proj2 (Z.leb_le _ _)) by lia. Qed.

Lemma sub_all {A} (l : list A) : sub l 0 (len l) = l.
Proof. unfold sub, len. rewrite Z.sub_0_r, Nat2Z.id. apply firstn_all. Qed.

(** Slicing a concatenation: inside the left part, past it, or exactly the middle. *)
Lemma sub_app_l {A} (l1 l2 : list A) i j :
  0 <= i -> i <= j -> j <= len l1 -> sub (l1 ++ l2) i j = sub l1 i j.
Proof.
  unfold sub, len. intros. rewrite drop_app_le by lia.
  rewrite take_app_le; [done|]. rewrite length_drop. lia.
Qed.

Lemma sub_app_r {A} (l1 l2 : list A) i j :
  len l1 <= i -> i <= j -> sub (l1 ++ l2) i j = sub l2 (i - len l1) (j - len l1).
Proof.
  unfold sub, len. intros. rewrite drop_app_ge by lia. f_equal; [lia|]. f_equal. lia.
Qed.

Lemma sub_mid {A} (l1 l2 l3 : list A) :
  sub (l1 ++ l2 ++ l3) (len l1) (len l1 + len l2) = l2.
Proof.
  rewrite sub_app_r by (pose proof (len_nonneg l2); lia).
  rewrite Z.sub_diag. replace (len l1 + len l2 - len l1) with (len l2) by lia.
  rewrite sub_app_l by (pose proof (len_nonneg l2); lia). apply sub_all.
Qed.

(** The form of [sub_mid] used on parsers: the bounds are given up to equality. *)
Lemma sub_mid_eq {A} (l1 l2 l3 : list A) i j :
  i = len l1 -> j = len l1 + len l2 -> sub (l1 ++ l2 ++ l3) i j = l2.
Proof. intros -> ->. apply sub_mid. Qed.

Lemma sub_tail {A} (l1 l2 : list A) i j :
  i = len l1 -> j = len l1 + len l2 -> sub (l1 ++ l2) i j = l2.
Proof. intros. rewrite <- (app_nil_r l2) at 1. by apply sub_mid_eq. Qed.

Lemma slice_mid {A} (l1 l2 l3 : list A) i j :
  i = len l1 -> j = len l1 + len l2 -> slice (l1 ++ l2 ++ l3) i j = Ok l2.
Proof.
  intros -> ->. pose proof (len_nonneg l1). pose proof (len_nonneg l2). pose proof (len_nonneg l3).
  rewrite slice_Ok by (rewrite ?len_app; lia). by rewrite sub_mid.
Qed.

Lemma sub_sub {A} (l : list A) i j a b :
  0 <= i -> 0 <= a -> a <= b -> b <= j - i -> sub (sub l i j) a b = sub l (i + a) (i + b).
Proof.
  unfold sub. intros. rewrite skipn_firstn_comm, drop_drop, take_take.
  f_equal; [lia|]. f_equal. lia.
Qed.

Lemma index_mid {A} (l1 : list A) x l2 i :
  i = len l1 -> index (l1 ++ x :: l2) i = Ok x.
Proof.
  intros ->. unfold index, len. rewrite (proj2 (Z.leb_le _ _)) by lia.
  rewrite Nat2Z.id. by rewrite list_lookup_middle.
Qed.

Lemma index_is_Ok {A} (l : list A) i :
  0 <= i < len l -> exists x, l !! Z.to_nat i = Some x /\ index l i = Ok x.
Proof.
  intros [H1 H2]. unfold index. rewrite (proj2 (Z.leb_le _ _)) by lia.
  destruct (l !! Z.to_nat i) as [x|] eqn:E; [eauto|].
  apply lookup_ge_None in E. unfold len in H2. lia.
Qed.

Lemma len_splice {A} (l : list A) i new :
  0 <= i -> i + len new <= len l -> len (splice l i new) = len l.
Proof.
  unfold len, splice. intros. rewrite !length_app, length_take, length_drop. lia.
Qed.

Lemma splice_app {A} (l1 l2 l3 new : list A) i :
  i = len l1 -> length new = length l2 -> splice (l1 ++ l2 ++ l3) i new = l1 ++ new ++ l3.
Proof.
  intros -> Hn. unfold splice, len. rewrite Nat2Z.id.
  rewrite take_app_length, Hn, drop_app_ge by lia.
  replace (length l1 + length l2 - length l1)%nat with (length l2) by lia.
  by rewrite drop_app_length.
Qed.

Lemma split3 {A} (l : list A) i n :
  0 <= i -> 0 <= n -> i + n <= len l ->
  exists l1 l2 l3, l = l1 ++ l2 ++ l3 /\ i = len l1 /\ n = len l2.
Proof.
  unfold len. intros. exists (take (Z.to_nat i) l), (take (Z.to_nat n) (drop (Z.to_nat i) l)),
    (drop (Z.to_nat n) (drop (Z.to_nat i) l)).
  rewrite !take_drop, !length_take, length_drop. split; [done|lia].
Qed.

(** Two adjacent stores are one. *)
Lemma splice_splice {A} (l a b : list A) i j :
  0 <= i -> j = i + len a -> j + len b <= len l -> splice (splice l i a) j b = splice l i (a ++ b).
Proof.
  intros Hi -> Hl. pose proof (len_nonneg a). pose proof (len_nonneg b).
  destruct (split3 l i (len a + len b)) as (l1 & l2 & l3 & -> & -> & H2); [lia..|].
  destruct (split3 l2 0 (len a)) as (l0 & l21 & l22 & -> & E0 & E1); [lia..|].
  destruct l0; [|unfold len in E0; simpl in E0; lia]. cbn [app] in *. rewrite len_app in H2.
  unfold len in *.
  rewrite (splice_app l1 (l21 ++ l22) l3 (a ++ b)) by (rewrite ?length_app; unfold len; lia).
  rewrite <- app_assoc, (splice_app l1 l21) by (unfold len; lia). rewrite (app_assoc l1 a).
  rewrite (splice_app (l1 ++ a) l22) by (unfold len; rewrite ?length_app; lia).
  by rewrite <- !app_assoc.
Qed.

Create Rewrite HintDb len.
#[export] Hint Rewrite @len_nil @len_cons @len_app @len_map : len.

(** Arithmetic on lengths: push [len] through the list constructors, then [lia]. *)
Ltac len_pos :=
  repeat match goal with
  | |- context [len ?l] =>
      lazymatch goal with H : 0 <= len l |- _ => fail | _ => pose proof (len_nonneg l) end
  | H : context [len ?l] |- _ =>
      lazymatch goal with H' : 0 <= len l |- _ => fail | _ => pose proof (len_nonneg l) end
  end.
Ltac len_lia := autorewrite with len in *; len_pos; lia.

(** ** Filters *)

Section filters.
Context {A : Type} (P : A -> Prop) `{forall x, Decision (P x)}.

Lemma filter_all l : Forall P l -> filter P l = l.
Proof. induction 1; [done|]. rewrite filter_cons_True by done. by f_equal. Qed.

Lemma filter_none l : Forall (fun x => ~ P x) l -> filter P l = [].
Proof. induction 1; [done|]. by rewrite filter_cons_False. Qed.

Lemma filter_app_split l1 l2 :
  Forall P l1 -> Forall (fun x => ~ P x) l2 -> filter P (l1 ++ l2) = l1.
Proof. intros. by rewrite filter_app, filter_all, filter_none, app_nil_r. Qed.

Lemma filter_app_split_r l1 l2 :
  Forall (fun x => ~ P x) l1 -> Forall P l2 -> filter P (l1 ++ l2) = l2.
Proof. intros. by rewrite filter_app, filter_none, filter_all. Qed.
End filters.

(** ** Bytes and big-endian integers (package [encoding/binary]) *)

#[export] Instance byte_eq_dec : EqDecision byte := Byte.byte_eq_dec.

Definition bytes := list byte.

(** [binary.BigEndian.UintN] on the bytes of the integer. *)
Definition be_Z (l : list byte) : Z :=
  fold_left (fun acc b => acc * 256 + byte.unsigned b) l 0.

(** [binary.BigEndian.PutUintN]: the [n] bytes of [z], most significant first. *)
Fixpoint be_bytes (n : nat) (z : Z) : list byte :=
  match n with
  | O => []
  | S n' => be_bytes n' (z / 256) ++ [byte.of_Z z]
  end.

Lemma length_be_bytes n z : length (be_bytes n z) = n.
Proof. revert z. induction n; intros; simpl; [done|]. rewrite length_app, IHn. simpl. lia. Qed.

Lemma len_be_bytes n z : len (be_bytes n z) = Z.of_nat n.
Proof. unfold len. by rewrite length_be_bytes. Qed.
#[export] Hint Rewrite len_be_bytes : len.

Lemma be_Z_snoc l b : be_Z (l ++ [b]) = be_Z l * 256 + byte.unsigned b.
Proof. unfold be_Z. by rewrite fold_left_app. Qed.

Lemma be_Z_be_bytes n z : be_Z (be_bytes n z) = z mod 256 ^ Z.of_nat n.
Proof.
  revert z. induction n as [|n IH]; intros z; [by rewrite Z.mod_1_r|].
  cbn [be_bytes]. rewrite be_Z_snoc, IH, byte.unsigned_of_Z. unfold byte.wrap.
  rewrite Nat2Z.inj_succ, Z.pow_succ_r by lia.
  change (2 ^ 8) with 256. rewrite Z.rem_mul_r by (try apply Z.pow_nonzero; lia). lia.
Qed.

Lemma be_Z_range l : 0 <= be_Z l < 256 ^ len l.
Proof.
  induction l as [|b l IH] using rev_ind; [split; vm_compute; congruence|].
  rewrite be_Z_snoc, len_app. change (len [b]) with 1. pose proof (byte.unsigned_range b) as Hb.
  change (2 ^ 8) with 256 in Hb. pose proof (len_nonneg l).
  rewrite Z.pow_add_r, Z.pow_1_r by lia. lia.
Qed.

Lemma be_bytes_be_Z n l : length l = n -> be_bytes n (be_Z l) = l.
Proof.
  revert n. induction l as [|b l IH] using rev_ind; intros n Hn; simpl in *; [by subst|].
  rewrite length_app in Hn. simpl in Hn. destruct n as [|n]; [lia|].
  cbn [be_bytes]. rewrite be_Z_snoc. pose proof (byte.unsigned_range b) as Hb.
  change (2 ^ 8) with 256 in Hb. f_equal.
  - rewrite <- (IH n) at 2 by lia. f_equal. rewrite Z.add_comm, Z.div_add by lia.
    rewrite Z.div_small; lia.
  - f_equal. apply byte.unsigned_inj. rewrite byte.unsigned_of_Z. unfold byte.wrap.
    change (2 ^ 8) with 256. rewrite Z.add_comm, Z.mod_add by lia. by apply Z.mod_small.
Qed.

Arguments be_bytes n z : simpl never.
Arguments be_Z l : simpl never.

Lemma be_Z_4 z : be_Z (be_bytes 4 z) = u32 z.
Proof. by rewrite be_Z_be_bytes. Qed.
Lemma be_Z_8 z : be_Z (be_bytes 8 z) = u64 z.
Proof. by rewrite be_Z_be_bytes. Qed.

Definition getUint16 (l : list byte) (i : Z) : outcome Z := be_Z <$> slice l i (i + 2).
Definition getUint32 (l : list byte) (i : Z) : outcome Z := be_Z <$> slice l i (i + 4).
Definition getUint64 (l : list byte) (i : Z) : outcome Z := be_Z <$> slice l i (i + 8).
Definition putUint32 (l : list byte) (i z : Z) : outcome (list byte) := store l i (be_bytes 4 z).
Definition putUint64 (l : list byte) (i z : Z) : outcome (list byte) := store l i (be_bytes 8 z).

(** ** Go's [sort.Strings]: byte-wise order *)

#[export] Instance string_le_dec' : forall x y, Decision (String.le x y).
Proof. intros x y. unfold String.le. apply _. Defined.

Definition sort_strings (l : list string) : list string := merge_sort String.le l.

(** ** Maps filled entry by entry *)

Lemma fold_insert {K A} `{Countable K} (l : list (K * A)) (m : gmap K A) :
  NoDup l.*1 -> fold_left (fun m kv => <[kv.1 := kv.2]> m) l m = list_to_map l ∪ m.
Proof.
  revert m. induction l as [|[k v] l IH]; intros m Hd; cbn; [by rewrite map_empty_union|].
  inversion_clear Hd. rewrite IH by done. rewrite <- insert_union_r, insert_union_l; [done|by apply not_elem_of_list_to_map].
Qed.

(** The entry of a key when all elements with that key agree on the value. *)
Lemma fold_insert_lookup {A K V} `{Countable K} (f : A -> K) (g : A -> V) (l : list A) (m : gmap K V) k v :
  (forall x, x ∈ l -> f x = k -> g x = v) -> m !! k = Some v \/ (exists x, x ∈ l /\ f x = k) ->
  fold_left (fun m x => <[f x := g x]> m) l m !! k = Some v.
Proof.
  revert m. induction l as [|x l IH]; intros m Hg Hk; cbn [fold_left].
  - destruct Hk as [Hk|(x & Hx & _)]; [done|by apply not_elem_of_nil in Hx].
  - apply IH; [intros y Hy; apply Hg; by right|]. destruct (decide (f x = k)) as [E|E].
    + left. rewrite E, lookup_insert_eq. f_equal. apply Hg; [by left|done].
    + destruct Hk as [Hk|(y & [->|Hy]%elem_of_cons & Hy')]; [left; by rewrite lookup_insert_ne|done|right; eauto].
Qed.

(** ** Text *)

(** What a [Printf] writes, part by part. *)
Definition sprint (parts : list string) : string := foldr String.append "" parts.
