(* ===== verification/Hash.v ===== *)
(** * Checksums and hashes the broker relies on

    The two standard-library hashes the source calls: CRC-32C ([hash/crc32] with the
    Castagnoli table, which guards every batch) and FNV-1a ([hash/fnv], which places
    replicas and keyed records). The theorems are the range of the checksum and that it
    detects every corruption of one byte. *)

From S2P Require Import Prelude.
Local Open Scope Z_scope.

Module Crc32.

(** [crc32.Castagnoli], in the reversed form the package uses. *)
Definition Castagnoli : Z := 0x82f63b78.

(** One bit of the table entry: [if crc&1 == 1 { crc = (crc >> 1) ^ poly } else { crc >>= 1 }]. *)
Definition bit_step (poly crc : Z) : Z :=
  if Z.odd crc then Z.lxor (Z.shiftr crc 1) poly else Z.shiftr crc 1.

Definition table_entry (poly i : Z) : Z := Nat.iter 8 (bit_step poly) i.

(** [crc32.MakeTable]. *)
Definition MakeTable (poly : Z) : list Z := (fun i => table_entry poly (Z.of_nat i)) <$> seq 0 256.

Definition crcTable : list Z := Eval vm_compute in MakeTable Castagnoli.

(** [crc = tab[byte(crc)^v] ^ (crc >> 8)]. *)
Definition update_byte (tab : list Z) (crc : Z) (v : byte) : Z :=
  Z.lxor (nth (Z.to_nat (Z.lxor (Z.land crc 255) (byte.unsigned v))) tab 0) (Z.shiftr crc 8).

(** [crc32.Checksum]: the register starts and ends complemented. *)
Definition Checksum (data : list byte) (tab : list Z) : Z :=
  Z.lxor (fold_left (update_byte tab) data 0xffffffff) 0xffffffff.

Lemma crcTable_eq : crcTable = MakeTable Castagnoli.
Proof. by vm_compute. Qed.

(** ** Range *)

Lemma lxor_range n a b :
  0 <= n -> 0 <= a < 2 ^ n -> 0 <= b < 2 ^ n -> 0 <= Z.lxor a b < 2 ^ n.
Proof.
  intros Hn Ha Hb.
  enough (Z.lxor a b = Z.lxor a b mod 2 ^ n) as -> by (apply Z.mod_pos_bound; lia).
  apply Z.bits_inj'. intros k Hk. destruct (decide (k < n)).
  - by rewrite Z.mod_pow2_bits_low.
  - rewrite Z.mod_pow2_bits_high, Z.lxor_spec by lia.
    rewrite <- (Z.mod_small a (2 ^ n)), <- (Z.mod_small b (2 ^ n)) by done.
    by rewrite !Z.mod_pow2_bits_high by lia.
Qed.

Definition byte_index (crc : Z) (v : byte) : Z := Z.lxor (Z.land crc 255) (byte.unsigned v).

Lemma byte_index_range crc v : 0 <= byte_index crc v < 2 ^ 8.
Proof.
  apply lxor_range; [lia| |apply byte.unsigned_range].
  change 255 with (Z.ones 8). rewrite Z.land_ones by lia. by apply Z.mod_pos_bound.
Qed.

(** The facts about the 256 table entries that the proofs use are checked by computation. *)
Definition entry (i : Z) : Z := nth (Z.to_nat i) crcTable 0.

Lemma entries_checked (P : Z -> bool) :
  forallb P (Z.of_nat <$> seq 0 256) = true -> forall i, 0 <= i < 2 ^ 8 -> P i = true.
Proof.
  intros H i Hi. rewrite forallb_forall in H. apply H. apply list_elem_of_In.
  apply list_elem_of_fmap. exists (Z.to_nat i). rewrite elem_of_seq. lia.
Qed.

Lemma entry_range i : 0 <= i < 2 ^ 8 -> 0 <= entry i < 2 ^ 32.
Proof.
  intros Hi.
  pose proof (entries_checked (fun i => (0 <=? entry i) && (entry i <? 2 ^ 32)) eq_refl i Hi) as H.
  simpl in H. lia.
Qed.

(** The top bytes of the table entries are a permutation: an entry determines its index. *)
Definition index_of_top (t : Z) : Z :=
  match list_find (fun e => Z.shiftr e 24 = t) crcTable with
  | Some (i, _) => Z.of_nat i
  | None => 0
  end.

Definition top_index : list Z :=
  Eval vm_compute in (fun t => index_of_top (Z.of_nat t)) <$> seq 0 256.

Lemma entry_top i :
  0 <= i < 2 ^ 8 -> nth (Z.to_nat (Z.shiftr (entry i) 24)) top_index 0 = i.
Proof.
  intros Hi.
  pose proof (entries_checked
    (fun i => nth (Z.to_nat (Z.shiftr (entry i) 24)) top_index 0 =? i) eq_refl i Hi) as H.
  by apply Z.eqb_eq in H.
Qed.

Lemma update_byte_range crc v :
  0 <= crc < 2 ^ 32 -> 0 <= update_byte crcTable crc v < 2 ^ 32.
Proof.
  intros Hc. apply lxor_range; [lia|apply entry_range, byte_index_range|].
  rewrite Z.shiftr_div_pow2 by lia. split; [apply Z.div_pos; lia|].
  apply Z.div_lt_upper_bound; lia.
Qed.

Lemma register_range data crc :
  0 <= crc < 2 ^ 32 -> 0 <= fold_left (update_byte crcTable) data crc < 2 ^ 32.
Proof.
  revert crc. induction data as [|v data IH]; intros crc Hc; [done|].
  apply IH. by apply update_byte_range.
Qed.

Lemma Checksum_range data : in_u32 (Checksum data crcTable).
Proof. apply lxor_range; [lia|apply register_range; lia|lia]. Qed.

(** ** Detection *)

Lemma lxor_cancel_r a b c : Z.lxor a c = Z.lxor b c -> a = b.
Proof.
  intros H. apply (f_equal (fun z => Z.lxor z c)) in H.
  by rewrite !Z.lxor_assoc, Z.lxor_nilpotent, !Z.lxor_0_r in H.
Qed.

Lemma lxor_cancel_l a b c : Z.lxor c a = Z.lxor c b -> a = b.
Proof. rewrite !(Z.lxor_comm c). apply lxor_cancel_r. Qed.

(** The new register's top byte is the table entry's, so it determines the table index. *)
Lemma update_byte_top crc v :
  0 <= crc < 2 ^ 32 ->
  Z.shiftr (update_byte crcTable crc v) 24 = Z.shiftr (entry (byte_index crc v)) 24.
Proof.
  intros Hc. unfold update_byte. rewrite Z.shiftr_lxor.
  rewrite (Z.shiftr_shiftr crc 8 24) by lia.
  replace (Z.shiftr crc (8 + 24)) with 0; [apply Z.lxor_0_r|].
  rewrite Z.shiftr_div_pow2 by lia. symmetry. apply Z.div_small. lia.
Qed.

Lemma update_byte_inj c1 c2 v1 v2 :
  0 <= c1 < 2 ^ 32 -> 0 <= c2 < 2 ^ 32 ->
  update_byte crcTable c1 v1 = update_byte crcTable c2 v2 ->
  byte_index c1 v1 = byte_index c2 v2 /\ Z.shiftr c1 8 = Z.shiftr c2 8.
Proof.
  intros H1 H2 H.
  assert (byte_index c1 v1 = byte_index c2 v2) as Hi.
  { rewrite <- (entry_top (byte_index c1 v1)), <- (entry_top (byte_index c2 v2))
      by apply byte_index_range.
    by rewrite <- !update_byte_top, H. }
  split; [done|]. unfold update_byte in H. fold (byte_index c1 v1) (byte_index c2 v2) in H.
  rewrite Hi in H. by apply lxor_cancel_l in H.
Qed.

Lemma update_byte_inj_crc c1 c2 v :
  0 <= c1 < 2 ^ 32 -> 0 <= c2 < 2 ^ 32 ->
  update_byte crcTable c1 v = update_byte crcTable c2 v -> c1 = c2.
Proof.
  intros H1 H2 [Hi Hs]%update_byte_inj; [|done|done]. apply lxor_cancel_r in Hi.
  change 255 with (Z.ones 8) in Hi. rewrite !Z.land_ones in Hi by lia.
  rewrite !Z.shiftr_div_pow2 in Hs by lia.
  rewrite (Z.div_mod c1 (2 ^ 8)), (Z.div_mod c2 (2 ^ 8)) by lia. congruence.
Qed.

Lemma update_byte_inj_v c v1 v2 :
  0 <= c < 2 ^ 32 -> update_byte crcTable c v1 = update_byte crcTable c v2 -> v1 = v2.
Proof.
  intros Hc [Hi _]%update_byte_inj; [|done|done].
  apply lxor_cancel_l in Hi. by apply byte.unsigned_inj.
Qed.

Lemma register_inj data c1 c2 :
  0 <= c1 < 2 ^ 32 -> 0 <= c2 < 2 ^ 32 ->
  fold_left (update_byte crcTable) data c1 = fold_left (update_byte crcTable) data c2 -> c1 = c2.
Proof.
  revert c1 c2. induction data as [|v data IH]; intros c1 c2 H1 H2 H; [done|].
  apply (update_byte_inj_crc c1 c2 v); [done|done|].
  apply IH; [by apply update_byte_range..|done].
Qed.

(** Two payloads that differ in exactly one byte have different checksums. *)
Lemma Checksum_byte_flip pre v1 v2 post :
  v1 <> v2 -> Checksum (pre ++ v1 :: post) crcTable <> Checksum (pre ++ v2 :: post) crcTable.
Proof.
  intros Hv H. apply Hv. unfold Checksum in H. apply lxor_cancel_r in H.
  rewrite !fold_left_app in H. simpl in H.
  pose proof (register_range pre 0xffffffff ltac:(lia)) as Hr.
  apply register_inj in H; [|by apply update_byte_range..].
  by apply update_byte_inj_v in H.
Qed.

(** The check value of the CRC-32C standard, for the ASCII digits 1 to 9. *)
Example Checksum_check_value :
  Checksum (byte.of_Z <$> [49; 50; 51; 52; 53; 54; 55; 56; 57]) crcTable = 0xe3069283.
Proof. by vm_compute. Qed.

End Crc32.

Module Fnv.

(** [fnv.New32a] and [Write]: [hash ^= b; hash *= prime32]. *)
Definition offset32 : Z := 2166136261.
Definition prime32 : Z := 16777619.

Definition write_byte (h : Z) (b : byte) : Z := u32 (Z.lxor h (byte.unsigned b) * prime32).

Definition Sum32a (data : list byte) : Z := fold_left write_byte data offset32.

Lemma Sum32a_range data : in_u32 (Sum32a data).
Proof.
  unfold Sum32a. destruct data as [|b data] using rev_ind; [by vm_compute|].
  rewrite fold_left_app. apply u32_range.
Qed.

(** FNV-1a of the ASCII letter a. *)
Example Sum32a_a : Sum32a [byte.of_Z 97] = 0xe40c292c.
Proof. by vm_compute. Qed.

End Fnv.
