(* ===== verification/Varint.v ===== *)
(** * Variable-length integers of the batch format

    [appendUvarint], [appendZigzagVarint], [zigzag], [unzigzag] and [decodeUvarint] of
    internal/storage/batch.go, with their round trips. *)

From S2P Require Import Prelude.
Local Open Scope Z_scope.

Module Varint.

(** [for v >= 0x80 { b = append(b, byte(v)|0x80); v >>= 7 }; return append(b, byte(v))].
    Nine iterations bring a 64-bit value below 0x80 ([appendUvarint_fuel]). *)
Fixpoint appendUvarint_loop (fuel : nat) (b : list byte) (v : Z) : list byte :=
  match fuel with
  | O => b ++ [byte.of_Z v]
  | S fuel' =>
      if 0x80 <=? v
      then appendUvarint_loop fuel' (b ++ [byte.of_Z (Z.lor (u8 v) 0x80)]) (Z.shiftr v 7)
      else b ++ [byte.of_Z v]
  end.

Definition appendUvarint (b : list byte) (v : Z) : list byte := appendUvarint_loop 9 b v.

(** [uint64((n << 1) ^ (n >> 63))] on an int64. *)
Definition zigzag (n : Z) : Z := u64 (Z.lxor (i64 (Z.shiftl n 1)) (Z.shiftr n 63)).

(** [int64((n >> 1) ^ -(n & 1))] on a uint64. *)
Definition unzigzag (n : Z) : Z := i64 (Z.lxor (Z.shiftr n 1) (u64 (- Z.land n 1))).

Definition appendZigzagVarint (b : list byte) (n : Z) : list byte := appendUvarint b (zigzag n).

(** The loop of [decodeUvarint]: at most ten bytes are read before the shift reaches 64. *)
Fixpoint decodeUvarint_loop (fuel : nat) (data : list byte) (pos v shift : Z) : outcome (Z * Z) :=
  match fuel with
  | O => OutOfFuel
  | S fuel' =>
      if len data <=? pos then Err (ErrNew "truncated varint") else
      b ← index data pos;
      let pos := pos + 1 in
      let v := Z.lor v (u64 (Z.shiftl (Z.land (byte.unsigned b) 0x7f) shift)) in
      if byte.unsigned b <? 0x80 then Ok (v, pos) else
      let shift := shift + 7 in
      if 64 <=? shift then Err (ErrNew "varint overflow")
      else decodeUvarint_loop fuel' data pos v shift
  end.

Definition decodeUvarint (data : list byte) (pos : Z) : outcome (Z * Z) :=
  decodeUvarint_loop 10 data pos 0 0.

(** ** Zigzag *)

Lemma lxor_m1 x : Z.lxor x (-1) = - x - 1.
Proof. rewrite Z.lxor_m1_r. unfold Z.lnot. lia. Qed.

Lemma lxor_ones n x : 0 <= n -> 0 <= x < 2 ^ n -> Z.lxor x (2 ^ n - 1) = 2 ^ n - 1 - x.
Proof.
  intros Hn Hx. replace (2 ^ n - 1) with (Z.ones n) by (rewrite Z.ones_equiv; lia).
  assert (Z.land x (Z.lxor x (Z.ones n)) = 0) as H.
  { apply Z.bits_inj'. intros k Hk. rewrite Z.land_spec, Z.lxor_spec, Z.bits_0.
    destruct (decide (k < n)).
    - rewrite Z.ones_spec_low by lia. by destruct (Z.testbit x k).
    - rewrite <- (Z.mod_small x (2 ^ n)) at 1 by done.
      by rewrite Z.mod_pow2_bits_high by lia. }
  apply Z.add_nocarry_lxor in H. rewrite <- Z.lxor_assoc, Z.lxor_nilpotent, Z.lxor_0_l in H. lia.
Qed.

Lemma zigzag_eq n : in_i64 n -> zigzag n = if 0 <=? n then 2 * n else - 2 * n - 1.
Proof.
  intros Hn. unfold zigzag. rewrite Z.shiftl_mul_pow2, Z.shiftr_div_pow2 by lia.
  destruct (Z.leb_spec 0 n).
  - rewrite Z.div_small by (unfold_ints; lia). rewrite Z.lxor_0_r. wrap_lia.
  - replace (n / 2 ^ 63) with (-1) by wrap_lia. rewrite lxor_m1. wrap_lia.
Qed.

Lemma zigzag_range n : in_u64 (zigzag n).
Proof. apply u64_range. Qed.

Lemma unzigzag_zigzag n : in_i64 n -> unzigzag (zigzag n) = n.
Proof.
  intros Hn. rewrite zigzag_eq by done. unfold unzigzag.
  rewrite Z.shiftr_div_pow2 by lia. change (2 ^ 1) with 2.
  rewrite (Z.land_ones _ 1) by lia. change (2 ^ 1) with 2.
  destruct (Z.leb_spec 0 n).
  - replace ((2 * n) mod 2) with 0 by wrap_lia. change (u64 (- 0)) with 0. rewrite Z.lxor_0_r. wrap_lia.
  - replace ((-2 * n - 1) mod 2) with 1 by wrap_lia. change (u64 (- (1))) with (2 ^ 64 - 1).
    rewrite lxor_ones by wrap_lia. wrap_lia.
Qed.

(** ** Unsigned varints *)

Lemma appendUvarint_loop_app fuel b v :
  appendUvarint_loop fuel b v = b ++ appendUvarint_loop fuel [] v.
Proof.
  revert b v. induction fuel as [|fuel IH]; intros b v; [done|].
  simpl. destruct (0x80 <=? v); [|done].
  rewrite (IH (b ++ _)), (IH [_]). by rewrite <- app_assoc.
Qed.

Lemma appendUvarint_app b v : appendUvarint b v = b ++ appendUvarint [] v.
Proof. apply appendUvarint_loop_app. Qed.

Lemma appendUvarint_fuel b v n : in_u64 v -> appendUvarint b v = appendUvarint_loop (9 + n) b v.
Proof.
  intros Hv. unfold appendUvarint.
  assert (forall m b v, 0 <= v < 2 ^ (7 * Z.of_nat m + 7) ->
    appendUvarint_loop m b v = appendUvarint_loop (m + n) b v) as H.
  { clear. intros m. induction m as [|m IH]; intros b v Hv.
    - change (2 ^ (7 * Z.of_nat 0 + 7)) with 128 in Hv. destruct n; [done|]. simpl.
      by destruct (Z.leb_spec 128 v); [lia|].
    - simpl. destruct (0x80 <=? v); [|done]. apply IH.
      rewrite Z.shiftr_div_pow2 by lia. split; [apply Z.div_pos; lia|].
      apply Z.div_lt_upper_bound; [lia|]. rewrite <- Z.pow_add_r by lia.
      replace (7 + (7 * Z.of_nat m + 7)) with (7 * Z.of_nat (S m) + 7) by lia. lia. }
  apply (H 9%nat). unfold_ints. change (2 ^ (7 * Z.of_nat 9 + 7)) with (2 ^ 70). lia.
Qed.

Lemma appendUvarint_nonempty v : 1 <= len (appendUvarint [] v).
Proof.
  unfold appendUvarint. assert (forall n b, 1 <= len (appendUvarint_loop n b v)) as H; [|apply H].
  intros n. generalize v. induction n as [|n IH]; intros w b; simpl.
  - len_lia.
  - destruct (0x80 <=? w); [apply IH|len_lia].
Qed.

Lemma lor_disjoint a b k : 0 <= k -> 0 <= a < 2 ^ k -> 0 <= b -> Z.lor a (b * 2 ^ k) = a + b * 2 ^ k.
Proof.
  intros Hk Ha Hb. symmetry. rewrite <- Z.shiftl_mul_pow2 by done.
  assert (Z.land a (Z.shiftl b k) = 0) as H.
  { apply Z.bits_inj'. intros i Hi. rewrite Z.land_spec, Z.bits_0. destruct (decide (i < k)).
    - rewrite Z.shiftl_spec_low by lia. apply andb_false_r.
    - rewrite <- (Z.mod_small a (2 ^ k)), Z.mod_pow2_bits_high by lia. done. }
  rewrite Z.add_nocarry_lxor by done. by rewrite Z.lxor_lor by done.
Qed.

Lemma byte_low7 v : Z.land (byte.unsigned (byte.of_Z (Z.lor (u8 v) 0x80))) 0x7f = v mod 128.
Proof.
  rewrite byte.unsigned_of_Z. unfold byte.wrap. change 0x7f with (Z.ones 7).
  rewrite Z.land_ones by lia. apply Z.bits_inj'. intros k Hk.
  destruct (decide (k < 7)).
  - change 128 with (2 ^ 7). unfold u8. rewrite !Z.mod_pow2_bits_low by lia. rewrite Z.lor_spec.
    rewrite Z.mod_pow2_bits_low, Z.pow2_bits_false by lia. apply orb_false_r.
  - change 128 with (2 ^ 7). by rewrite !Z.mod_pow2_bits_high by lia.
Qed.

Lemma byte_high_bit v : 0x80 <= byte.unsigned (byte.of_Z (Z.lor (u8 v) 0x80)).
Proof.
  rewrite byte.unsigned_of_Z. unfold byte.wrap.
  destruct (Z.le_gt_cases 0x80 (Z.lor (u8 v) 0x80 mod 2 ^ 8)) as [H|H]; [done|]. exfalso.
  pose proof (Z.mod_pos_bound (Z.lor (u8 v) 0x80) (2 ^ 8) ltac:(lia)).
  assert (Z.testbit (Z.lor (u8 v) 0x80 mod 2 ^ 8) 7 = true) as Hb.
  { rewrite Z.mod_pow2_bits_low, Z.lor_spec by lia. change (Z.testbit 128 7) with true.
    apply orb_true_r. }
  rewrite <- (Z.mod_small (Z.lor (u8 v) 0x80 mod 2 ^ 8) (2 ^ 7)) in Hb by lia.
  by rewrite Z.mod_pow2_bits_high in Hb by lia.
Qed.

(** One iteration that reads the byte after [pre]. *)
Lemma decodeUvarint_loop_step fuel pre b post v shift :
  decodeUvarint_loop (S fuel) (pre ++ b :: post) (len pre) v shift =
    let v := Z.lor v (u64 (Z.shiftl (Z.land (byte.unsigned b) 0x7f) shift)) in
    if byte.unsigned b <? 0x80 then Ok (v, len pre + 1)
    else if 64 <=? shift + 7 then Err (ErrNew "varint overflow")
    else decodeUvarint_loop fuel ((pre ++ [b]) ++ post) (len (pre ++ [b])) v (shift + 7).
Proof.
  cbn [decodeUvarint_loop]. rewrite (proj2 (Z.leb_gt _ _)) by len_lia.
  rewrite index_mid by done. rewrite <- app_assoc, len_app. done.
Qed.

(** Decoding what [appendUvarint] wrote, from inside the loop: [acc] holds the bits already
    read, below [shift]. *)
Lemma decodeUvarint_loop_spec n pre post v acc shift :
  0 <= v -> v < 2 ^ (7 * Z.of_nat n + 7) -> 0 <= acc < 2 ^ shift -> 0 <= shift ->
  shift = 63 - 7 * Z.of_nat n -> acc + v * 2 ^ shift < 2 ^ 64 ->
  decodeUvarint_loop (S n) (pre ++ appendUvarint_loop n [] v ++ post) (len pre) acc shift =
    Ok (acc + v * 2 ^ shift, len pre + len (appendUvarint_loop n [] v)).
Proof.
  revert pre v acc shift. induction n as [|n IH]; intros pre v acc shift Hv Hv' Hacc Hsh Hn Hlt.
  all: assert (forall x, 0 <= x <= v -> u64 (Z.shiftl x shift) = x * 2 ^ shift) as Hfit
    by (intros x Hx; rewrite Z.shiftl_mul_pow2 by lia; apply u64_id; unfold_ints; nia).
  all: assert (v < 128 -> forall f, decodeUvarint_loop (S f) (pre ++ [byte.of_Z v] ++ post)
      (len pre) acc shift = Ok (acc + v * 2 ^ shift, len pre + 1)) as Hlast.
  1, 3: intros Hv128 f; change ([byte.of_Z v] ++ post) with (byte.of_Z v :: post);
    rewrite decodeUvarint_loop_step; cbv zeta; rewrite byte.unsigned_of_Z; unfold byte.wrap;
    rewrite (Z.mod_small v (2 ^ 8)), (proj2 (Z.ltb_lt _ _)) by lia;
    change 0x7f with (Z.ones 7); rewrite Z.land_ones, (Z.mod_small v (2 ^ 7)) by lia;
    rewrite Hfit by lia; by rewrite lor_disjoint by lia.
  - change (2 ^ (7 * Z.of_nat 0 + 7)) with 128 in Hv'. by apply Hlast.
  - cbn [appendUvarint_loop]. destruct (Z.leb_spec 0x80 v); [|by apply Hlast].
    rewrite appendUvarint_loop_app, <- app_assoc. cbn [app]. rewrite (decodeUvarint_loop_step (S n)). cbv zeta.
    rewrite (proj2 (Z.ltb_ge _ _)) by apply byte_high_bit.
    rewrite (proj2 (Z.leb_gt _ _)) by lia. rewrite byte_low7.
    pose proof (Z.mod_pos_bound v 128 ltac:(lia)). pose proof (Z.div_mod v 128 ltac:(lia)).
    rewrite Hfit by (split; [lia|]; apply Z.mod_le; lia). rewrite lor_disjoint by lia.
    rewrite Z.shiftr_div_pow2 by lia. change (2 ^ 7) with 128.
    assert (2 ^ (shift + 7) = 2 ^ shift * 128) as Hpow by (rewrite Z.pow_add_r; lia).
    rewrite IH; [|apply Z.div_pos; lia| |rewrite Hpow; nia|lia|lia|rewrite Hpow; nia].
    + rewrite Hpow. f_equal. f_equal; [nia|]. len_lia.
    + apply Z.div_lt_upper_bound; [lia|]. change 128 with (2 ^ 7). rewrite <- Z.pow_add_r by lia.
      replace (7 + (7 * Z.of_nat n + 7)) with (7 * Z.of_nat (S n) + 7) by lia. lia.
Qed.

(** Unsigned varints round trip inside any buffer. *)
Lemma decodeUvarint_append pre post v :
  in_u64 v ->
  decodeUvarint (pre ++ appendUvarint [] v ++ post) (len pre) =
    Ok (v, len pre + len (appendUvarint [] v)).
Proof.
  intros Hv. unfold decodeUvarint, appendUvarint. unfold_ints.
  rewrite decodeUvarint_loop_spec; try lia. by rewrite Z.add_0_l, Z.mul_1_r.
Qed.

Lemma decodeUvarint_loop_total fuel data pos v shift :
  0 <= pos -> 63 - 7 * (Z.of_nat fuel - 1) <= shift ->
  match decodeUvarint_loop fuel data pos v shift with
  | Ok (_, p) => pos < p <= len data
  | Err _ => True
  | _ => fuel = O
  end.
Proof.
  revert pos v shift. induction fuel as [|fuel IH]; intros pos v shift Hp Hs; [done|].
  cbn [decodeUvarint_loop]. destruct (Z.leb_spec (len data) pos); [done|].
  destruct (index_is_Ok data pos ltac:(lia)) as (b & _ & ->). simpl. destruct (byte.unsigned b <? 128); [simpl; lia|].
  destruct (Z.leb_spec 64 (shift + 7)); [done|].
  match goal with |- context [decodeUvarint_loop fuel data ?p ?v' ?s] =>
    specialize (IH p v' s ltac:(lia) ltac:(lia)); destruct (decodeUvarint_loop fuel data p v' s)
      as [[]| | |] end; try lia; try done.
Qed.

(** [decodeUvarint] always returns: a value with a later position inside the data, or an error. *)
Lemma decodeUvarint_total data pos :
  0 <= pos ->
  match decodeUvarint data pos with
  | Ok (_, p) => pos < p <= len data
  | Err _ => True
  | _ => False
  end.
Proof.
  intros Hp. pose proof (decodeUvarint_loop_total 10 data pos 0 0 Hp ltac:(lia)) as H.
  unfold decodeUvarint. by destruct (decodeUvarint_loop 10 data pos 0 0) as [[]| | |].
Qed.

Lemma decodeUvarint_loop_range fuel data pos v shift w p :
  in_u64 v -> decodeUvarint_loop fuel data pos v shift = Ok (w, p) -> in_u64 w.
Proof.
  revert pos v shift. induction fuel as [|fuel IH]; intros pos v shift Hv; [done|].
  cbn [decodeUvarint_loop]. destruct (_ <=? _); [done|].
  destruct (index data pos) as [b| | |]; simpl; try done.
  assert (in_u64 (Z.lor v (u64 (Z.shiftl (Z.land (byte.unsigned b) 127) shift)))) as Hr.
  { pose proof (u64_range (Z.shiftl (Z.land (byte.unsigned b) 127) shift)) as Hx.
    unfold in_u64 in *. split; [apply Z.lor_nonneg; lia|].
    apply Z.log2_lt_cancel. rewrite Z.log2_lor by lia. change (Z.log2 (2 ^ 64)) with 64.
    apply Z.max_lub_lt; (destruct (Z.eq_dec v 0), (Z.eq_dec (u64 (Z.shiftl (Z.land (byte.unsigned b) 127) shift)) 0);
      first [by subst | by (rewrite e; vm_compute) | by (rewrite e0; vm_compute) | apply Z.log2_lt_pow2; lia]). }
  destruct (_ <? _); [by intros [= <- <-]|]. destruct (64 <=? _); [done|]. by apply IH.
Qed.

End Varint.
