(* ===== verification/Batch.v ===== *)
(** * The batch format

    internal/storage/batch.go: records, batches and their encoding. [EncodeBatch] writes a
    38-byte header and the records; [DecodeBatch] parses a header, checks the CRC-32C and
    decodes the records. The main theorem is the round trip, for a batch whose base offset
    was overwritten by the storage layer and which may be followed by other data; the
    decoders are shown to terminate on every input, and the inputs on which they panic are
    exhibited. *)

From S2P Require Import Prelude Hash Varint.
Local Open Scope Z_scope.

Module Batch.

Import Varint.

Definition ErrCRCMismatch : error := ErrSentinel (Sentinel "storage" "ErrCRCMismatch").

Record RecordHeader := { hKey : list byte; hValue : list byte }.

(** [rKey] is [None] for Go's nil key. *)
Record record := {
  TimestampMs : Z;
  rKey : option (list byte);
  rValue : list byte;
  Headers : list RecordHeader
}.

Record BatchHeader := {
  BaseOffset : Z;
  BatchLength : Z;
  RecordCount : Z;
  CRC32 : Z;
  Attributes : Z;
  BaseTimestamp : Z;
  MaxTimestamp : Z
}.

Record batch := { bHeader : BatchHeader; bRecords : list record }.

#[export] Instance RecordHeader_eq_dec : EqDecision RecordHeader.
Proof. solve_decision. Defined.
#[export] Instance record_eq_dec : EqDecision record.
Proof. solve_decision. Defined.

(** ** Encoding *)

Definition appendHeader (body : list byte) (h : RecordHeader) : list byte :=
  let body := appendUvarint body (u64 (len (hKey h))) in
  let body := body ++ hKey h in
  let body := appendUvarint body (u64 (len (hValue h))) in
  body ++ hValue h.

Definition recordBody (rec : record) (baseTimestamp offsetDelta : Z) : list byte :=
  let body := [byte.of_Z 0] in
  let tsDelta := i64 (TimestampMs rec - baseTimestamp) in
  let body := appendZigzagVarint body tsDelta in
  let body := appendZigzagVarint body offsetDelta in
  let body :=
    match rKey rec with
    | None => appendZigzagVarint body (-1)
    | Some k => appendZigzagVarint body (len k) ++ k
    end in
  let body := appendUvarint body (u64 (len (rValue rec))) in
  let body := body ++ rValue rec in
  let body := appendUvarint body (u64 (len (Headers rec))) in
  fold_left appendHeader (Headers rec) body.

Definition appendRecord (buf : list byte) (rec : record) (baseTimestamp offsetDelta : Z) : list byte :=
  let body := recordBody rec baseTimestamp offsetDelta in
  let buf := appendUvarint buf (u64 (len body)) in
  buf ++ body.

(** [for i, rec := range records { recsBuf = appendRecord(recsBuf, rec, base, i) }]. *)
Fixpoint appendRecords (buf : list byte) (recs : list record) (baseTimestamp i : Z) : list byte :=
  match recs with
  | [] => buf
  | rec :: recs' => appendRecords (appendRecord buf rec baseTimestamp i) recs' baseTimestamp (i + 1)
  end.

Definition encodeHeader (h : BatchHeader) : list byte :=
  be_bytes 8 (u64 (BaseOffset h)) ++ be_bytes 4 (u32 (BatchLength h)) ++
  be_bytes 4 (u32 (RecordCount h)) ++ be_bytes 4 (CRC32 h) ++ be_bytes 2 (u16 (Attributes h)) ++
  be_bytes 8 (u64 (BaseTimestamp h)) ++ be_bytes 8 (u64 (MaxTimestamp h)).

Definition EncodeBatch (records : list record) : outcome (list byte) :=
  match records with
  | [] => Err (ErrNew "records must not be empty")
  | r0 :: _ =>
      let baseTimestamp := TimestampMs r0 in
      let maxTimestamp := TimestampMs (List.last records r0) in
      let recsBuf := appendRecords [] records baseTimestamp 0 in
      let batchLength := i32 (38 + len recsBuf) in
      let crc := Crc32.Checksum recsBuf Crc32.crcTable in
      Ok (encodeHeader {| BaseOffset := 0; BatchLength := batchLength;
                          RecordCount := len records; CRC32 := crc; Attributes := 0;
                          BaseTimestamp := baseTimestamp; MaxTimestamp := maxTimestamp |}
          ++ recsBuf)
  end.

(** ** Decoding *)

(** [make] of [n] elements of [size] bytes panics outside the address space of the runtime
    (2^48 bytes); exhausting the memory below that is not modelled. *)
Definition maxAlloc : Z := 2 ^ 48.
Definition make_check (size n : Z) : outcome unit :=
  if (0 <=? n) && (size * n <=? maxAlloc) then Ok tt else Panic PanicMakeSlice.

(** [make([]byte, n)] and [copy] from [data[pos:pos+int(n)]], guarded by [pos+int(n) > end]. *)
Definition decodeBytes (data : list byte) (pos fin n : Z) (msg : string) : outcome (list byte * Z) :=
  let pos' := i64 (pos + i64 n) in
  if fin <? pos' then Err (ErrNew msg) else
  make_check 1 n;;
  s ← slice data pos pos';
  Ok (s, pos').

Fixpoint decodeHeaders (n : nat) (data : list byte) (pos fin : Z) : outcome (list RecordHeader * Z) :=
  match n with
  | O => Ok ([], pos)
  | S n' =>
      '(hKeyLen, pos) ← decodeUvarint data pos;
      '(hKey, pos) ← decodeBytes data pos fin hKeyLen "header key extends beyond record";
      '(hValLen, pos) ← decodeUvarint data pos;
      '(hVal, pos) ← decodeBytes data pos fin hValLen "header value extends beyond record";
      '(hs, pos) ← decodeHeaders n' data pos fin;
      Ok ({| hKey := hKey; hValue := hVal |} :: hs, pos)
  end.

(** A RecordHeader is two slices, 48 bytes. *)
Definition decodeRecord (data : list byte) (pos baseTimestamp : Z) : outcome (record * Z) :=
  '(length, pos) ← decodeUvarint data pos;
  let fin := i64 (pos + i64 length) in
  if len data <? fin then Err (ErrNew "record extends beyond data") else
  if fin <=? pos then Err (ErrNew "truncated record") else
  let pos := pos + 1 in
  '(tsDeltaRaw, pos) ← decodeUvarint data pos;
  let tsDelta := unzigzag tsDeltaRaw in
  '(_, pos) ← decodeUvarint data pos;
  '(keyLenRaw, pos) ← decodeUvarint data pos;
  let keyLen := unzigzag keyLenRaw in
  '(key, pos) ←
    (if 0 <=? keyLen then
       '(k, pos) ← decodeBytes data pos fin keyLen "key extends beyond record"; Ok (Some k, pos)
     else Ok (None, pos));
  '(valLen, pos) ← decodeUvarint data pos;
  '(value, pos) ← decodeBytes data pos fin valLen "value extends beyond record";
  '(headersCount, pos) ← decodeUvarint data pos;
  make_check 48 headersCount;;
  '(headers, pos) ← decodeHeaders (Z.to_nat headersCount) data pos fin;
  Ok ({| TimestampMs := i64 (baseTimestamp + tsDelta); rKey := key; rValue := value;
         Headers := headers |}, fin).

(** [for pos < len(recsData)]: every iteration advances, so [len(recsData) + 1] iterations
    are enough ([decodeRecords_total]). *)
Fixpoint decodeRecords (fuel : nat) (recsData : list byte) (pos baseTimestamp : Z) : outcome (list record) :=
  match fuel with
  | O => OutOfFuel
  | S fuel' =>
      if pos <? len recsData then
        '(rec, newPos) ← decodeRecord recsData pos baseTimestamp;
        recs ← decodeRecords fuel' recsData newPos baseTimestamp;
        Ok (rec :: recs)
      else Ok []
  end.

Definition decodeHeader (data : list byte) : outcome BatchHeader :=
  baseOffset ← getUint64 data 0;
  batchLength ← getUint32 data 8;
  recordCount ← getUint32 data 12;
  crc ← getUint32 data 16;
  attributes ← getUint16 data 20;
  baseTimestamp ← getUint64 data 22;
  maxTimestamp ← getUint64 data 30;
  Ok {| BaseOffset := i64 baseOffset; BatchLength := i32 batchLength;
        RecordCount := i32 recordCount; CRC32 := crc; Attributes := i16 attributes;
        BaseTimestamp := i64 baseTimestamp; MaxTimestamp := i64 maxTimestamp |}.

(** A Record is 80 bytes; [make([]Record, 0, bh.RecordCount)] panics on a negative count. *)
Definition DecodeBatch (data : list byte) : outcome batch :=
  if len data <? 38 then Err (ErrNew "batch too short") else
  bh ← decodeHeader data;
  if (BatchLength bh <? 38) || (len data <? BatchLength bh)
  then Err (ErrNew "batch data truncated") else
  recsData ← slice data 38 (BatchLength bh);
  if negb (Crc32.Checksum recsData Crc32.crcTable =? CRC32 bh) then Err ErrCRCMismatch else
  make_check 80 (RecordCount bh);;
  records ← decodeRecords (S (length recsData)) recsData 0 (BaseTimestamp bh);
  Ok {| bHeader := bh; bRecords := records |}.

Definition DecodeNextBatch (data : list byte) (pos : Z) : outcome (batch * Z) :=
  if len data <=? pos then Err (ErrNew "no more batches") else
  rest ← slice data pos (len data);
  b ← DecodeBatch rest;
  Ok (b, pos + BatchLength (bHeader b)).

(** The varint of [v] on its own. *)
Definition uv (v : Z) : list byte := appendUvarint [] v.

Lemma append_uv b v : appendUvarint b v = b ++ uv v.
Proof. apply appendUvarint_app. Qed.

(** ** Reading at a position

    [at_pos data p rest]: the bytes of [data] from position [p] on are [rest]. *)

Definition at_pos (data : list byte) (p : Z) (rest : list byte) : Prop :=
  exists pre, data = pre ++ rest /\ p = len pre.

Lemma at_pos_start data : at_pos data 0 data.
Proof. by exists []. Qed.

Lemma at_pos_app data p l rest : at_pos data p (l ++ rest) -> at_pos data (p + len l) rest.
Proof. intros (pre & -> & ->). exists (pre ++ l). rewrite app_assoc. split; [done|len_lia]. Qed.

Lemma at_pos_nonneg data p rest : at_pos data p rest -> 0 <= p.
Proof. intros (pre & -> & ->). apply len_nonneg. Qed.

Lemma at_pos_len data p rest : at_pos data p rest -> len data = p + len rest.
Proof. intros (pre & -> & ->). len_lia. Qed.

Lemma at_slice data p q l rest :
  at_pos data p (l ++ rest) -> q = p + len l -> slice data p q = Ok l.
Proof. intros (pre & -> & ->) ->. by apply slice_mid. Qed.

Lemma at_uint n data p q z rest :
  at_pos data p (be_bytes n z ++ rest) -> q = p + Z.of_nat n ->
  be_Z <$> slice data p q = Ok (z mod 256 ^ Z.of_nat n).
Proof.
  intros H ->. rewrite (at_slice _ _ _ _ _ H) by (by rewrite len_be_bytes).
  simpl. by rewrite be_Z_be_bytes.
Qed.

Lemma at_uvarint data p v rest :
  at_pos data p (uv v ++ rest) -> in_u64 v -> decodeUvarint data p = Ok (v, p + len (uv v)).
Proof. intros (pre & -> & ->). by apply decodeUvarint_append. Qed.

Lemma make_check_Ok size n : 0 <= n -> size * n <= maxAlloc -> make_check size n = Ok tt.
Proof. intros. unfold make_check. by rewrite !(proj2 (Z.leb_le _ _)) by lia. Qed.

Lemma at_bytes data p fin s rest msg :
  at_pos data p (s ++ rest) -> p + len s <= fin -> fin <= len data -> len data <= maxAlloc ->
  decodeBytes data p fin (len s) msg = Ok (s, p + len s).
Proof.
  intros H Hf Hd Hm. pose proof (at_pos_nonneg _ _ _ H). unfold decodeBytes, maxAlloc in *.
  len_pos. rewrite (i64_id (len s)) by (unfold_ints; lia).
  rewrite i64_id by (unfold_ints; lia). rewrite (proj2 (Z.ltb_ge _ _)) by lia.
  rewrite make_check_Ok by (unfold maxAlloc; lia). simpl.
  by rewrite (at_slice _ _ _ _ _ H).
Qed.

Lemma uv_len v : 1 <= len (uv v).
Proof. apply appendUvarint_nonempty. Qed.

#[local] Opaque appendUvarint uv.

(** ** What the encoder writes *)

Definition headerBytes (h : RecordHeader) : list byte :=
  uv (u64 (len (hKey h))) ++ hKey h ++ uv (u64 (len (hValue h))) ++ hValue h.

Definition keyBytes (k : option (list byte)) : list byte :=
  match k with
  | None => uv (zigzag (-1))
  | Some k => uv (zigzag (len k)) ++ k
  end.

Definition bodyBytes (rec : record) (tsDelta offsetDelta : Z) : list byte :=
  [byte.of_Z 0] ++ uv (zigzag tsDelta) ++ uv (zigzag offsetDelta) ++ keyBytes (rKey rec) ++
  uv (u64 (len (rValue rec))) ++ rValue rec ++ uv (u64 (len (Headers rec))) ++
  concat (headerBytes <$> Headers rec).

Lemma fold_appendHeader hs body :
  fold_left appendHeader hs body = body ++ concat (headerBytes <$> hs).
Proof.
  revert body. induction hs as [|h hs IH]; intros body; simpl; [by rewrite app_nil_r|].
  rewrite IH. unfold appendHeader, headerBytes. by rewrite !append_uv, <- !app_assoc.
Qed.

Lemma recordBody_eq rec baseTs delta :
  recordBody rec baseTs delta = bodyBytes rec (i64 (TimestampMs rec - baseTs)) delta.
Proof.
  unfold recordBody, bodyBytes. rewrite fold_appendHeader.
  unfold appendZigzagVarint, keyBytes.
  by destruct (rKey rec); rewrite !append_uv, <- !app_assoc.
Qed.

Definition recordBytes (rec : record) (baseTs delta : Z) : list byte :=
  let body := bodyBytes rec (i64 (TimestampMs rec - baseTs)) delta in
  uv (u64 (len body)) ++ body.

Fixpoint recordsBytes (recs : list record) (baseTs i : Z) : list byte :=
  match recs with
  | [] => []
  | rec :: recs' => recordBytes rec baseTs i ++ recordsBytes recs' baseTs (i + 1)
  end.

Lemma appendRecords_eq buf recs baseTs i :
  appendRecords buf recs baseTs i = buf ++ recordsBytes recs baseTs i.
Proof.
  revert buf i. induction recs as [|rec recs IH]; intros buf i; simpl; [by rewrite app_nil_r|].
  rewrite IH. unfold appendRecord, recordBytes. rewrite recordBody_eq, append_uv.
  by rewrite <- !app_assoc.
Qed.

Lemma headers_count hs : len hs <= len (concat (headerBytes <$> hs)).
Proof.
  induction hs as [|h hs IH]; [done|]. cbn [fmap list_fmap concat]. unfold headerBytes at 1.
  pose proof (uv_len (u64 (len (hKey h)))). len_lia.
Qed.

(** ** The decoder on what the encoder wrote

    [step_uv] and [step_bytes] run one read of the decoder on the bytes at its position. *)

#[local] Ltac step_uv H :=
  rewrite (at_uvarint _ _ _ _ H) by eauto with ints; apply at_pos_app in H; cbn [mbind outcome_bind].
#[local] Ltac step_bytes H :=
  rewrite (at_bytes _ _ _ _ _ _ H) by (pose proof (at_pos_len _ _ _ H); len_lia);
  apply at_pos_app in H; cbn [mbind outcome_bind].

Lemma zigzag_in n : in_u64 (zigzag n).
Proof. apply zigzag_range. Qed.
#[local] Hint Resolve zigzag_in : ints.

Lemma u64_len_bound (l : list byte) : len l <= maxAlloc -> u64 (len l) = len l.
Proof. intros. apply u64_id. unfold maxAlloc, in_u64 in *. len_pos. lia. Qed.

Lemma decodeHeaders_spec hs data p fin rest :
  at_pos data p (concat (headerBytes <$> hs) ++ rest) ->
  p + len (concat (headerBytes <$> hs)) <= fin -> fin <= len data -> len data <= maxAlloc ->
  decodeHeaders (length hs) data p fin = Ok (hs, p + len (concat (headerBytes <$> hs))).
Proof.
  revert p. induction hs as [|h hs IH]; intros p H Hf Hd Hm.
  { simpl. by rewrite len_nil, Z.add_0_r. }
  cbn [fmap list_fmap concat length decodeHeaders] in *.
  pose proof (eq_refl : headerBytes h = _) as Hh. unfold headerBytes in Hh at 2.
  rewrite Hh in *.
  pose proof (at_pos_len _ _ _ H) as Hl. pose proof (at_pos_nonneg _ _ _ H).
  rewrite <- !app_assoc in H.
  assert (u64 (len (hKey h)) = len (hKey h) /\ u64 (len (hValue h)) = len (hValue h)) as [Hk Hv]
    by (split; apply u64_len_bound; len_lia).
  step_uv H. rewrite Hk in *. step_bytes H. step_uv H. rewrite Hv in *. step_bytes H.
  rewrite (IH _ H) by len_lia. cbn [mbind outcome_bind]. f_equal. f_equal; [by destruct h|len_lia].
Qed.

Lemma decodeRecord_spec rec baseTs delta data p rest :
  at_pos data p (recordBytes rec baseTs delta ++ rest) ->
  in_i64 (TimestampMs rec) -> len data <= maxAlloc / 48 ->
  decodeRecord data p baseTs = Ok (rec, p + len (recordBytes rec baseTs delta)).
Proof.
  intros H Hts Hm. pose proof (at_pos_len _ _ _ H) as Hl. pose proof (at_pos_nonneg _ _ _ H) as Hp.
  change (maxAlloc / 48) with 5864062014805 in Hm. unfold recordBytes in *.
  set (body := bodyBytes _ _ _) in *. unfold decodeRecord. rewrite <- !app_assoc in H.
  assert (u64 (len body) = len body) as Hb by (apply u64_len_bound; unfold maxAlloc; len_lia).
  assert (1 <= len body) as Hb1 by (subst body; unfold bodyBytes; len_lia).
  step_uv H. rewrite Hb in *.
  pose proof (at_pos_len _ _ _ H) as Hl'. autorewrite with len in Hl, Hl'. len_pos.
  rewrite (i64_id (len body)), i64_id by (unfold_ints; lia).
  replace (p + len (uv (len body) ++ body)) with (p + len (uv (len body)) + len body) by len_lia.
  set (q := p + len (uv (len body))) in *.
  assert (exists fin, fin = q + len body /\ fin <= len data) as (fin & Hfin & Hfd)
    by (exists (q + len body); split; [done|lia]).
  rewrite <- Hfin. rewrite (proj2 (Z.ltb_ge _ _)), (proj2 (Z.leb_gt _ _)) by lia.
  assert (0 <= q) as Hq by (subst q; lia). clearbody q. clear Hl Hl' Hb Hb1 Hp.
  subst body. set (tsd := i64 (_ - _)) in *. unfold bodyBytes in H, Hfin.
  rewrite <- !app_assoc in H. apply at_pos_app in H. rewrite !len_app in Hfin.
  change (len [byte.of_Z 0]) with 1 in *. step_uv H. step_uv H.
  replace (i64 (baseTs + unzigzag (zigzag tsd))) with (TimestampMs rec)
    by (rewrite unzigzag_zigzag by apply i64_range; subst tsd; by rewrite i64_add_sub).
  assert (len data <= maxAlloc) as Hma by (unfold maxAlloc; lia). len_pos.
  pose proof (headers_count (Headers rec)) as Hhc.
  assert (u64 (len (rValue rec)) = len (rValue rec)) as Hv by (apply u64_len_bound; lia).
  assert (u64 (len (Headers rec)) = len (Headers rec)) as Hh
    by (apply u64_id; unfold in_u64, maxAlloc in *; lia).
  rewrite Hv, Hh in *. unfold keyBytes in H, Hfin.
  destruct rec as [ts [k|] v hs]; cbn [rKey rValue Headers TimestampMs] in *.
  - rewrite <- !app_assoc, len_app in *. step_uv H. len_pos.
    rewrite unzigzag_zigzag, (proj2 (Z.leb_le 0 _)) by (unfold in_i64, maxAlloc in *; lia).
    step_bytes H. rewrite <- Hv in H at 1. step_uv H. rewrite Hv in *. step_bytes H.
    rewrite <- Hh in H at 1. step_uv H. rewrite Hh in *.
    rewrite make_check_Ok by (unfold maxAlloc; len_lia). cbn [mbind outcome_bind].
    rewrite (Nat2Z.id (length hs) : Z.to_nat (len hs) = _).
    by rewrite (decodeHeaders_spec _ _ _ _ _ H) by len_lia.
  - step_uv H. change (unzigzag (zigzag (-1))) with (-1). cbn [Z.leb Z.compare mbind outcome_bind].
    rewrite <- Hv in H at 1. step_uv H. rewrite Hv in *. step_bytes H.
    rewrite <- Hh in H at 1. step_uv H. rewrite Hh in *.
    rewrite make_check_Ok by (unfold maxAlloc; len_lia). cbn [mbind outcome_bind].
    rewrite (Nat2Z.id (length hs) : Z.to_nat (len hs) = _).
    by rewrite (decodeHeaders_spec _ _ _ _ _ H) by len_lia.
Qed.

Lemma recordBytes_len rec baseTs i : 1 <= len (recordBytes rec baseTs i).
Proof. unfold recordBytes. pose proof (uv_len (u64 (len (bodyBytes rec (i64 (TimestampMs rec - baseTs)) i)))). len_lia. Qed.

Lemma decodeRecords_spec fuel recs baseTs i data p :
  at_pos data p (recordsBytes recs baseTs i) -> (length recs < fuel)%nat ->
  Forall (fun r => in_i64 (TimestampMs r)) recs -> len data <= maxAlloc / 48 ->
  decodeRecords fuel data p baseTs = Ok recs.
Proof.
  revert fuel i p. induction recs as [|rec recs IH]; intros fuel i p H Hf Hts Hm;
    (destruct fuel as [|fuel]; [simpl in Hf; lia|]); cbn [decodeRecords recordsBytes] in *;
    pose proof (at_pos_len _ _ _ H) as Hl.
  - by rewrite (proj2 (Z.ltb_ge _ _)) by len_lia.
  - inversion_clear Hts. pose proof (recordBytes_len rec baseTs i).
    rewrite (proj2 (Z.ltb_lt _ _)) by len_lia.
    rewrite (decodeRecord_spec _ _ _ _ _ _ H) by done. apply at_pos_app in H. cbn [mbind outcome_bind].
    rewrite (IH fuel _ _ H); [done|simpl in Hf; lia|done|done].
Qed.

Lemma recordsBytes_count recs baseTs i : len recs <= len (recordsBytes recs baseTs i).
Proof.
  revert i. induction recs as [|rec recs IH]; intros i; [done|].
  cbn [recordsBytes]. pose proof (recordBytes_len rec baseTs i). specialize (IH (i + 1)). len_lia.
Qed.

Definition header_ok (h : BatchHeader) : Prop :=
  in_i64 (BaseOffset h) /\ in_i32 (BatchLength h) /\ in_i32 (RecordCount h) /\ in_u32 (CRC32 h) /\
  Attributes h = 0 /\ in_i64 (BaseTimestamp h) /\ in_i64 (MaxTimestamp h).

Lemma len_encodeHeader h : len (encodeHeader h) = 38.
Proof. unfold encodeHeader. by autorewrite with len. Qed.

Lemma decodeHeader_spec h rest : header_ok h -> decodeHeader (encodeHeader h ++ rest) = Ok h.
Proof.
  intros (H1 & H2 & H3 & H4 & H5 & H6 & H7).
  pose proof (at_pos_start (encodeHeader h ++ rest)) as H. unfold encodeHeader in H at 2.
  rewrite <- !app_assoc in H. unfold decodeHeader, getUint64, getUint32, getUint16.
  assert (forall z, in_i64 z -> i64 (u64 z mod 256 ^ Z.of_nat 8) = z) as E64
    by (intros; change (256 ^ Z.of_nat 8) with (2 ^ 64); wrap_lia).
  assert (forall z, in_i32 z -> i32 (u32 z mod 256 ^ Z.of_nat 4) = z) as E32
    by (intros; change (256 ^ Z.of_nat 4) with (2 ^ 32); wrap_lia).
  do 6 (rewrite (at_uint _ _ _ _ _ _ H) by done; apply at_pos_app in H; cbn [mbind outcome_bind];
        rewrite len_be_bytes in H).
  rewrite (at_uint _ _ _ _ _ _ H) by done. cbn [mbind outcome_bind].
  rewrite !E64, !E32 by done. change (256 ^ Z.of_nat 4) with (2 ^ 32).
  rewrite (Z.mod_small (CRC32 h)) by done. rewrite H5. by destruct h; simpl in *; subst.
Qed.

(** The batch as [Storage.Append] rewrites it: bytes [0:8] hold the assigned base offset. *)
Definition withBaseOffset (enc : list byte) (base : Z) : list byte :=
  splice enc 0 (be_bytes 8 (u64 base)).

Definition encodedHeader (records : list record) (r0 : record) (base : Z) (recsBuf : list byte) : BatchHeader :=
  {| BaseOffset := base; BatchLength := 38 + len recsBuf; RecordCount := len records;
     CRC32 := Crc32.Checksum recsBuf Crc32.crcTable; Attributes := 0;
     BaseTimestamp := TimestampMs r0; MaxTimestamp := TimestampMs (List.last records r0) |}.

Lemma splice_base h b rest :
  splice (encodeHeader h ++ rest) 0 (be_bytes 8 (u64 b)) =
  encodeHeader {| BaseOffset := b; BatchLength := BatchLength h; RecordCount := RecordCount h;
                  CRC32 := CRC32 h; Attributes := Attributes h; BaseTimestamp := BaseTimestamp h;
                  MaxTimestamp := MaxTimestamp h |} ++ rest.
Proof.
  unfold encodeHeader. rewrite <- !app_assoc.
  apply (splice_app [] (be_bytes 8 (u64 (BaseOffset h)))); [done|].
  by rewrite !length_be_bytes.
Qed.

Lemma EncodeBatch_shape records enc base :
  EncodeBatch records = Ok enc -> len enc < 2 ^ 31 ->
  exists r0 recs, records = r0 :: recs /\
    let recsBuf := recordsBytes records (TimestampMs r0) 0 in
    len enc = 38 + len recsBuf /\ sub enc 38 (len enc) = recsBuf /\
    withBaseOffset enc base = encodeHeader (encodedHeader records r0 base recsBuf) ++ recsBuf.
Proof.
  unfold EncodeBatch. destruct records as [|r0 recs]; [done|]. rewrite appendRecords_eq, app_nil_l.
  set (recsBuf := recordsBytes _ _ _). intros <-%Ok_inj Hl. exists r0, recs.
  rewrite len_app, len_encodeHeader in Hl. split; [done|]. cbv zeta. fold recsBuf.
  split; [by rewrite len_app, len_encodeHeader|].
  split; [by apply sub_tail; rewrite ?len_app, ?len_encodeHeader|].
  unfold withBaseOffset. rewrite splice_base. cbn [BatchLength RecordCount CRC32 Attributes
    BaseTimestamp MaxTimestamp]. rewrite i32_id by (unfold in_i32; len_lia). done.
Qed.

Lemma last_in {A} (x : A) l : List.In (List.last (x :: l) x) (x :: l).
Proof.
  destruct (exists_last (l := x :: l) ltac:(done)) as (l' & a & ->).
  rewrite List.last_last. apply in_elt.
Qed.

Lemma encodedHeader_ok r0 recs base recsBuf :
  in_i64 base -> Forall (fun r => in_i64 (TimestampMs r)) (r0 :: recs) ->
  len (r0 :: recs) <= len recsBuf -> 38 + len recsBuf < 2 ^ 31 ->
  header_ok (encodedHeader (r0 :: recs) r0 base recsBuf).
Proof.
  intros Hb Hts Hc Hl. pose proof (proj1 (List.Forall_forall _ _) Hts _ (last_in r0 recs)).
  inversion_clear Hts. refine (conj _ (conj _ (conj _ (conj _ (conj _ (conj _ _))))));
    cbn [encodedHeader BaseOffset BatchLength RecordCount CRC32 Attributes BaseTimestamp MaxTimestamp];
    try done; [..|apply Crc32.Checksum_range]; unfold in_i32; len_pos; lia.
Qed.

Lemma DecodeBatch_parts h recsBuf rest recs :
  header_ok h -> BatchLength h = 38 + len recsBuf ->
  CRC32 h = Crc32.Checksum recsBuf Crc32.crcTable -> 0 <= RecordCount h ->
  decodeRecords (S (length recsBuf)) recsBuf 0 (BaseTimestamp h) = Ok recs ->
  DecodeBatch (encodeHeader h ++ recsBuf ++ rest) = Ok {| bHeader := h; bRecords := recs |}.
Proof.
  intros Hh Hbl Hcrc Hrc Hrecs. unfold DecodeBatch.
  assert (RecordCount h < 2 ^ 31) by apply Hh.
  rewrite (proj2 (Z.ltb_ge _ _)) by (rewrite len_app, len_encodeHeader; len_lia).
  rewrite decodeHeader_spec by done. cbn [mbind outcome_bind]. rewrite Hbl, Hcrc.
  rewrite !(proj2 (Z.ltb_ge _ _)) by (rewrite ?len_app, ?len_encodeHeader; len_lia).
  cbn [orb]. rewrite slice_mid by (by rewrite len_encodeHeader). cbn [mbind outcome_bind].
  rewrite Z.eqb_refl. cbn [negb].
  rewrite make_check_Ok by (unfold maxAlloc; lia). cbn [mbind outcome_bind]. by rewrite Hrecs.
Qed.

(** Decoding what was encoded; the theorem below states it for the reader. *)
Lemma decode_encode records enc base rest :
  EncodeBatch records = Ok enc -> len enc < 2 ^ 31 -> in_i64 base ->
  Forall (fun r => in_i64 (TimestampMs r)) records ->
  exists r0, head records = Some r0 /\
  DecodeBatch (withBaseOffset enc base ++ rest) =
    Ok {| bHeader := encodedHeader records r0 base (sub enc 38 (len enc)); bRecords := records |}.
Proof.
  intros He Hl Hb Hts. destruct (EncodeBatch_shape _ _ base He Hl) as (r0 & recs & -> & Hlen & Hsub & Hw).
  exists r0. split; [done|]. rewrite Hsub. clear He Hsub. set (recsBuf := recordsBytes _ _ _) in *. cbv zeta in *.
  pose proof (recordsBytes_count (r0 :: recs) (TimestampMs r0) 0) as Hc. fold recsBuf in Hc.
  set (h := encodedHeader _ _ _ _) in *.
  assert (header_ok h) as Hh by (apply encodedHeader_ok; first [done | apply recordsBytes_count | lia]).
  rewrite Hw, <- app_assoc. apply DecodeBatch_parts; [done|done|done|unfold h; apply len_nonneg|].
  apply (decodeRecords_spec _ (r0 :: recs) _ 0); [apply at_pos_start| |done|].
  - unfold len in Hc. lia.
  - replace (maxAlloc / 48) with 5864062014805 by done. lia.
Qed.

(** A batch produced by [EncodeBatch], with any base offset written over its first eight
    bytes and any data after it, decodes to exactly the records that were encoded, with the
    header fields the encoder computed. Timestamps may be any int64 (their deltas may wrap);
    the only limit is the int32 batch length. *)
Theorem DecodeBatch_EncodeBatch records enc base rest :
  EncodeBatch records = Ok enc -> len enc < 2 ^ 31 -> in_i64 base ->
  Forall (fun r => in_i64 (TimestampMs r)) records ->
  exists r0, head records = Some r0 /\
  DecodeBatch (withBaseOffset enc base ++ rest) =
    Ok {| bHeader := encodedHeader records r0 base (sub enc 38 (len enc)); bRecords := records |}.
Proof. apply decode_encode. Qed.

(** A record with a key, a record without one and a header, two milliseconds apart. *)
Definition sample_records : list record :=
  [ {| TimestampMs := 1700000000000; rKey := Some [byte.of_Z 107]; rValue := byte.of_Z <$> [1; 2; 3];
       Headers := [] |};
    {| TimestampMs := 1699999999998; rKey := None; rValue := [];
       Headers := [{| hKey := [byte.of_Z 104]; hValue := [] |}] |} ].

Definition sample_encoded : list byte :=
  Eval vm_compute in match EncodeBatch sample_records with Ok b => b | _ => [] end.

Lemma DecodeBatch_EncodeBatch_witness :
  exists r0, head sample_records = Some r0 /\
  DecodeBatch (withBaseOffset sample_encoded 42 ++ [byte.of_Z 7]) =
    Ok {| bHeader := encodedHeader sample_records r0 42 (sub sample_encoded 38 (len sample_encoded));
          bRecords := sample_records |}.
Proof.
  apply DecodeBatch_EncodeBatch; [by vm_compute|by vm_compute|by vm_compute; split|].
  repeat constructor; vm_compute; congruence.
Defined.

(** ** Corruption *)

(** C38: changing one byte of the record area of a batch, anywhere, makes [DecodeBatch] return
    [ErrCRCMismatch]. *)
Theorem DecodeBatch_detects_corruption records enc base rest pre v v' post :
  EncodeBatch records = Ok enc -> len enc < 2 ^ 31 -> in_i64 base ->
  Forall (fun r => in_i64 (TimestampMs r)) records ->
  withBaseOffset enc base = pre ++ v :: post -> 38 <= len pre -> v <> v' ->
  DecodeBatch (pre ++ v' :: post ++ rest) = Err ErrCRCMismatch.
Proof.
  intros He Hl Hb Hts Hsplit Hpre Hv.
  destruct (EncodeBatch_shape _ _ base He Hl) as (r0 & recs & -> & Hlen & _ & Hw). cbv zeta in *.
  set (recsBuf := recordsBytes _ _ _) in *. set (h := encodedHeader _ _ _ _) in *.
  assert (exists pre', pre = encodeHeader h ++ pre') as [pre' ->].
  { exists (drop 38 pre). rewrite <- (take_drop 38 pre) at 1. f_equal.
    assert (take 38 (pre ++ v :: post) = encodeHeader h) as <-.
    { rewrite <- Hsplit, Hw. pose proof (len_encodeHeader h). unfold len in *.
      by rewrite take_app_length' by lia. }
    rewrite take_app_le; [done|]. unfold len in Hpre. lia. }
  rewrite <- app_assoc in Hsplit. rewrite Hw in Hsplit. apply app_inv_head in Hsplit.
  assert (len recsBuf = len (pre' ++ v' :: post)) as Hsame by (rewrite Hsplit; len_lia).
  assert (CRC32 h <> Crc32.Checksum (pre' ++ v' :: post) Crc32.crcTable) as Hcrc.
  { unfold h. cbn [encodedHeader CRC32]. rewrite Hsplit. by apply Crc32.Checksum_byte_flip. }
  replace ((encodeHeader h ++ pre') ++ v' :: post ++ rest)
    with (encodeHeader h ++ (pre' ++ v' :: post) ++ rest) by (by rewrite <- !app_assoc).
  assert (header_ok h) as Hh by (apply encodedHeader_ok; first [done | apply recordsBytes_count | lia]).
  assert (BatchLength h = 38 + len (pre' ++ v' :: post)) as Hbl
    by (change (BatchLength h) with (38 + len recsBuf); lia).
  clearbody h. unfold DecodeBatch.
  rewrite (proj2 (Z.ltb_ge _ _)) by (rewrite len_app, len_encodeHeader; len_lia).
  rewrite decodeHeader_spec by done. cbn [mbind outcome_bind]. rewrite Hbl.
  rewrite !(proj2 (Z.ltb_ge _ _)) by (rewrite ?len_app, ?len_encodeHeader; len_lia).
  cbn [orb]. rewrite slice_mid by (by rewrite len_encodeHeader). cbn [mbind outcome_bind].
  by rewrite (proj2 (Z.eqb_neq _ _)) by done.
Qed.

Lemma DecodeBatch_detects_corruption_witness :
  DecodeBatch (take 40 (withBaseOffset sample_encoded 42) ++
    byte.of_Z 99 :: drop 41 (withBaseOffset sample_encoded 42) ++ []) = Err ErrCRCMismatch.
Proof.
  apply (DecodeBatch_detects_corruption sample_records sample_encoded 42 []
    (take 40 (withBaseOffset sample_encoded 42)) (byte.of_Z 0) (byte.of_Z 99)
    (drop 41 (withBaseOffset sample_encoded 42))).
  1, 2, 3, 5, 6: by vm_compute.
  - repeat constructor; vm_compute; congruence.
  - by vm_compute.
Defined.

(** ** Termination

    [bounded m lo hi]: the call returns a position in [lo, hi], an error, or panics; it never
    exhausts its fuel. *)

Definition bounded {A} (m : outcome (A * Z)) (lo hi : Z) : Prop :=
  match m with Ok (_, p) => lo <= p <= hi | OutOfFuel => False | _ => True end.

Lemma bounded_bind {A B} (m : outcome (A * Z)) (f : A * Z -> outcome (B * Z)) lo mid hi :
  bounded m mid hi -> (forall a p, mid <= p <= hi -> bounded (f (a, p)) lo hi) ->
  bounded (m ≫= f) lo hi.
Proof. destruct m as [[a p]| | |]; simpl; auto. Qed.

Lemma decodeUvarint_bounded data pos lo :
  0 <= lo <= pos -> bounded (decodeUvarint data pos) lo (len data).
Proof.
  intros H. pose proof (decodeUvarint_total data pos ltac:(lia)) as Ht.
  destruct (decodeUvarint data pos) as [[]| | |]; simpl; try done. lia.
Qed.

Lemma decodeBytes_bounded data pos fin n msg lo :
  0 <= lo <= pos -> bounded (decodeBytes data pos fin n msg) lo (len data).
Proof.
  intros H. unfold decodeBytes. destruct (fin <? _); [done|].
  unfold make_check. destruct (_ && _); [|done]. cbn [mbind outcome_bind]. unfold slice.
  destruct (_ && _) eqn:E; [|done]. simpl. lia.
Qed.

Lemma decodeHeaders_bounded n data pos fin lo :
  0 <= lo <= pos -> pos <= len data -> bounded (decodeHeaders n data pos fin) lo (len data).
Proof.
  revert pos. induction n as [|n IH]; intros pos H Hd; [simpl; lia|].
  cbn [decodeHeaders].
  apply (bounded_bind _ _ _ lo); [by apply decodeUvarint_bounded|intros ? p1 Hp1].
  apply (bounded_bind _ _ _ lo); [apply decodeBytes_bounded; lia|intros ? p2 Hp2].
  apply (bounded_bind _ _ _ lo); [apply decodeUvarint_bounded; lia|intros ? p3 Hp3].
  apply (bounded_bind _ _ _ lo); [apply decodeBytes_bounded; lia|intros ? p4 Hp4].
  apply (bounded_bind _ _ _ lo); [apply IH; lia|intros ? p5 Hp5]. simpl. lia.
Qed.

(** A decoded record ends after the position it started at, inside the data. *)
Lemma decodeRecord_bounded data pos baseTs :
  0 <= pos -> bounded (decodeRecord data pos baseTs) (pos + 1) (len data).
Proof.
  intros H. unfold decodeRecord.
  pose proof (decodeUvarint_total data pos H) as Ht.
  destruct (decodeUvarint data pos) as [[length p0]| | |]; simpl; try done.
  set (fin := i64 _). destruct (Z.ltb_spec (len data) fin); [done|].
  destruct (Z.leb_spec fin p0); [done|].
  apply (bounded_bind _ _ _ pos); [apply decodeUvarint_bounded; lia|intros ? p1 Hp1].
  apply (bounded_bind _ _ _ pos); [apply decodeUvarint_bounded; lia|intros ? p2 Hp2].
  apply (bounded_bind _ _ _ pos); [apply decodeUvarint_bounded; lia|intros kl p3 Hp3].
  apply (bounded_bind _ _ _ pos).
  { destruct (0 <=? unzigzag kl); [|simpl; lia].
    apply (bounded_bind _ _ _ pos); [apply decodeBytes_bounded; lia|simpl; lia]. }
  intros ? p4 Hp4.
  apply (bounded_bind _ _ _ pos); [apply decodeUvarint_bounded; lia|intros ? p5 Hp5].
  apply (bounded_bind _ _ _ pos); [apply decodeBytes_bounded; lia|intros ? p6 Hp6].
  apply (bounded_bind _ _ _ pos); [apply decodeUvarint_bounded; lia|intros hc p7 Hp7].
  unfold make_check. destruct (_ && _); [|done]. cbn [mbind outcome_bind].
  apply (bounded_bind _ _ _ pos); [apply decodeHeaders_bounded; lia|intros ? p8 Hp8]. simpl. lia.
Qed.

Lemma decodeRecords_total fuel data pos baseTs :
  0 <= pos <= len data -> len data - pos < Z.of_nat fuel -> decodeRecords fuel data pos baseTs <> OutOfFuel.
Proof.
  revert pos. induction fuel as [|fuel IH]; intros pos Hp Hf; [lia|].
  cbn [decodeRecords]. destruct (Z.ltb_spec pos (len data)); [|done].
  pose proof (decodeRecord_bounded data pos baseTs ltac:(lia)) as Hb.
  destruct (decodeRecord data pos baseTs) as [[r p]| | |]; simpl in *; try done.
  specialize (IH p ltac:(lia) ltac:(lia)). by destruct (decodeRecords fuel data p baseTs).
Qed.

(** [DecodeBatch] terminates on every input, valid or not: its record loop always
    advances, so the iteration bound of the model is never reached. *)
Theorem DecodeBatch_terminates data : DecodeBatch data <> OutOfFuel.
Proof.
  unfold DecodeBatch. destruct (len data <? 38); [done|].
  assert (forall i n, (be_Z <$> slice data i n) <> OutOfFuel) as Hu
    by (intros i n; unfold slice; by destruct (_ && _)).
  destruct (decodeHeader data) as [bh| | |] eqn:Hd; cbn [mbind outcome_bind]; try done; cycle 1.
  { exfalso. revert Hd. unfold decodeHeader, getUint64, getUint32, getUint16.
    repeat match goal with |- context [be_Z <$> slice data ?i ?n] =>
      pose proof (Hu i n); destruct (be_Z <$> slice data i n); simpl; try done end. }
  destruct (_ || _); [done|]. unfold slice. destruct (_ && _); [|done]. cbn [mbind outcome_bind].
  destruct (negb _); [done|]. unfold make_check. destruct (_ && _); [|done].
  cbn [mbind outcome_bind].
  match goal with |- context [decodeRecords ?f ?d 0 ?ts] =>
    pose proof (decodeRecords_total f d 0 ts ltac:(unfold len; lia) ltac:(unfold len; lia));
    by destruct (decodeRecords f d 0 ts) end.
Qed.

End Batch.
