(* ===== verification/SegName.v ===== *)
(** * Segment file names

    [segmentBasePath] of internal/storage/segment_storage.go names the three files of a
    segment by its base offset, zero-padded to twenty digits; crash recovery lists the
    [.log] files, sorts the names as strings and parses the offset back. The theorems show
    that this is sound: names are distinct, sort in offset order and parse to their offset. *)

From S2P Require Import Prelude.
From Stdlib Require Import Ascii.
Local Open Scope Z_scope.

Module SegName.

#[local] Arguments String.append (s1 s2)%_string_scope : simpl nomatch.

Definition digit_char (d : Z) : ascii := ascii_of_N (Z.to_N (48 + d)).

(** The [n] low decimal digits of [z], most significant first. *)
Fixpoint digits (n : nat) (z : Z) : string :=
  match n with
  | O => EmptyString
  | S n' => String (digit_char (z / 10 ^ Z.of_nat n' mod 10)) (digits n' z)
  end.

(** [fmt.Sprintf("%020d", z)] for an int64. *)
Definition fmt020d (z : Z) : string :=
  if z <? 0 then String "-" (digits 19 (- z)) else digits 20 z.

(** The file names below the storage directory; the directory itself is fixed. *)
Definition segmentBasePath (baseOffset : Z) : string := fmt020d baseOffset.
Definition logName (baseOffset : Z) : string := String.append (segmentBasePath baseOffset) ".log".
Definition indexName (baseOffset : Z) : string := String.append (segmentBasePath baseOffset) ".index".
Definition timeName (baseOffset : Z) : string := String.append (segmentBasePath baseOffset) ".timeindex".

(** [strconv.ParseInt(s, 10, 64)]. *)
Definition char_digit (c : ascii) : option Z :=
  let n := Z.of_N (N_of_ascii c) in
  if (48 <=? n) && (n <=? 57) then Some (n - 48) else None.

Fixpoint parse_digits (s : string) (acc : Z) : option Z :=
  match s with
  | EmptyString => Some acc
  | String c s' =>
      match char_digit c with
      | Some d => parse_digits s' (acc * 10 + d)
      | None => None
      end
  end.

Definition parse_unsigned (s : string) : option Z :=
  match s with EmptyString => None | _ => parse_digits s 0 end.

Definition parse_signed (s : string) : option Z :=
  match s with
  | EmptyString => None
  | String c s' =>
      if Ascii.eqb c "-" then Z.opp <$> parse_unsigned s'
      else if Ascii.eqb c "+" then parse_unsigned s'
      else parse_unsigned s
  end.

Definition ParseInt64 (s : string) : outcome Z :=
  match parse_signed s with
  | None => Err (ErrSentinel (Sentinel "strconv" "ErrSyntax"))
  | Some v =>
      if (- 2 ^ 63 <=? v) && (v <? 2 ^ 63) then Ok v
      else Err (ErrSentinel (Sentinel "strconv" "ErrRange"))
  end.

(** [strings.HasSuffix(name, ".log")], as the glob pattern [*.log] selects, and
    [base[:len(base)-4]]. *)
Fixpoint strip_suffix (suffix s : string) : option string :=
  if String.eqb s suffix then Some EmptyString
  else match s with
       | EmptyString => None
       | String c s' => String c <$> strip_suffix suffix s'
       end.

(** ** Decimal digits *)

Lemma digit_char_N d : 0 <= d < 10 -> N_of_ascii (digit_char d) = Z.to_N (48 + d).
Proof. intros Hd. unfold digit_char. apply N_ascii_embedding. lia. Qed.

Lemma char_digit_char d : 0 <= d < 10 -> char_digit (digit_char d) = Some d.
Proof.
  intros Hd. unfold char_digit. rewrite digit_char_N, Z2N.id by lia.
  destruct (Z.leb_spec 48 (48 + d)), (Z.leb_spec (48 + d) 57); simpl; try lia. f_equal. lia.
Qed.

Lemma digit_range z n : 0 <= z / 10 ^ n mod 10 < 10.
Proof. apply Z.mod_pos_bound. lia. Qed.

Lemma parse_digits_digits n z rest acc :
  parse_digits (String.append (digits n z) rest) acc =
  parse_digits rest (acc * 10 ^ Z.of_nat n + z mod 10 ^ Z.of_nat n).
Proof.
  revert acc. induction n as [|n IH]; intros acc.
  { simpl. rewrite Z.mod_1_r. f_equal. lia. }
  cbn [digits String.append parse_digits]. rewrite char_digit_char, IH by apply digit_range.
  f_equal. rewrite Nat2Z.inj_succ, Z.pow_succ_r by lia.
  rewrite (Z.mul_comm 10 (10 ^ _)), (Z.rem_mul_r z) by lia. ring.
Qed.

Lemma parse_unsigned_digits n z rest :
  parse_unsigned (String.append (digits (S n) z) rest) = parse_digits (String.append (digits (S n) z) rest) 0.
Proof. done. Qed.

Lemma digit_not_sign d rest :
  0 <= d < 10 -> parse_signed (String (digit_char d) rest) = parse_unsigned (String (digit_char d) rest).
Proof.
  intros Hd. unfold parse_signed.
  assert (forall c, (N_of_ascii c < 48)%N -> Ascii.eqb (digit_char d) c = false) as H.
  { intros c Hc. apply Ascii.eqb_neq. intros E. apply (f_equal N_of_ascii) in E.
    rewrite digit_char_N in E by done. lia. }
  by rewrite !H by done.
Qed.

Lemma app_empty_r s : String.append s "" = s.
Proof. induction s as [|c s IH]; simpl; [done|]. by rewrite IH. Qed.

(** A segment's name parses back to its base offset. *)
Lemma ParseInt64_fmt z : 0 <= z < 2 ^ 63 -> ParseInt64 (fmt020d z) = Ok z.
Proof.
  intros Hz. unfold fmt020d. rewrite (proj2 (Z.ltb_ge _ _)) by lia.
  unfold ParseInt64. change (digits 20 z) with
    (String (digit_char (z / 10 ^ Z.of_nat 19 mod 10)) (digits 19 z)).
  rewrite digit_not_sign by apply digit_range.
  change (String (digit_char (z / 10 ^ Z.of_nat 19 mod 10)) (digits 19 z)) with (digits 20 z).
  rewrite <- (app_empty_r (digits 20 z)), parse_unsigned_digits, parse_digits_digits.
  cbn [parse_digits]. rewrite Z.mod_small by (change (Z.of_nat 20) with 20; lia).
  by destruct (Z.leb_spec (- 2 ^ 63) (0 * 10 ^ Z.of_nat 20 + z)),
    (Z.ltb_spec (0 * 10 ^ Z.of_nat 20 + z) (2 ^ 63)); simpl; try lia.
Qed.

(** ** Order *)

Lemma digit_char_compare a b :
  0 <= a < 10 -> 0 <= b < 10 -> Ascii.compare (digit_char a) (digit_char b) = (a ?= b).
Proof.
  intros Ha Hb. unfold Ascii.compare. rewrite !digit_char_N by done.
  rewrite (Z2N.inj_compare (48 + a)) by lia. apply Z.add_compare_mono_l.
Qed.

Lemma digits_compare n a b s t :
  0 <= a -> 0 <= b ->
  String.compare (String.append (digits n a) s) (String.append (digits n b) t) =
  match (a mod 10 ^ Z.of_nat n ?= b mod 10 ^ Z.of_nat n) with
  | Eq => String.compare s t
  | c => c
  end.
Proof.
  intros Ha Hb. induction n as [|n IH].
  { change (10 ^ Z.of_nat 0) with 1. by rewrite !Z.mod_1_r. }
  cbn [digits String.append String.compare]. rewrite digit_char_compare, IH by apply digit_range.
  rewrite Nat2Z.inj_succ, Z.pow_succ_r, (Z.mul_comm 10) by lia.
  rewrite (Z.rem_mul_r a), (Z.rem_mul_r b) by lia. set (P := 10 ^ Z.of_nat n).
  assert (0 < P) as HP by (unfold P; lia).
  pose proof (Z.mod_pos_bound a P HP). pose proof (Z.mod_pos_bound b P HP).
  destruct (Z.compare_spec (a / P mod 10) (b / P mod 10)) as [->| |].
  - rewrite !(Z.add_comm _ (P * _)), Z.add_compare_mono_l. done.
  - by rewrite (proj2 (Z.compare_lt_iff _ _)) by nia.
  - by rewrite (proj2 (Z.compare_gt_iff _ _)) by nia.
Qed.

Lemma fmt_compare a b s t :
  0 <= a < 2 ^ 63 -> 0 <= b < 2 ^ 63 ->
  String.compare (String.append (fmt020d a) s) (String.append (fmt020d b) t) =
  match (a ?= b) with Eq => String.compare s t | c => c end.
Proof.
  intros Ha Hb. unfold fmt020d. rewrite !(proj2 (Z.ltb_ge _ _)) by lia.
  rewrite digits_compare by lia. change (Z.of_nat 20) with 20. by rewrite !Z.mod_small by lia.
Qed.

Lemma string_compare_refl s : String.compare s s = Eq.
Proof.
  induction s as [|c s IH]; simpl; [done|]. unfold Ascii.compare. by rewrite N.compare_refl.
Qed.

Definition offset_ok (z : Z) : Prop := 0 <= z < 2 ^ 63.

(** Names of [.log] files are ordered as their base offsets. *)
Lemma logName_le a b : offset_ok a -> offset_ok b -> String.le (logName a) (logName b) <-> a <= b.
Proof.
  intros Ha Hb. unfold String.le, logName, segmentBasePath, String.leb.
  rewrite fmt_compare, string_compare_refl by done.
  destruct (Z.compare_spec a b); simpl; split; intros; try done; lia.
Qed.

Lemma fmt_app_inj a b s t :
  offset_ok a -> offset_ok b -> String.append (fmt020d a) s = String.append (fmt020d b) t -> a = b /\ s = t.
Proof.
  intros Ha Hb Heq. pose proof (fmt_compare a b s t Ha Hb) as Hc.
  rewrite Heq, string_compare_refl in Hc. destruct (Z.compare_spec a b); try done. subst b.
  split; [done|]. revert Heq. generalize (fmt020d a). intros u. clear.
  induction u as [|c u IH]; simpl; [done|]. intros [= H]. auto.
Qed.

Lemma logName_inj a b : offset_ok a -> offset_ok b -> logName a = logName b -> a = b.
Proof. intros Ha Hb H. by apply fmt_app_inj in H as [? _]. Qed.
Lemma indexName_inj a b : offset_ok a -> offset_ok b -> indexName a = indexName b -> a = b.
Proof. intros Ha Hb H. by apply fmt_app_inj in H as [? _]. Qed.
Lemma timeName_inj a b : offset_ok a -> offset_ok b -> timeName a = timeName b -> a = b.
Proof. intros Ha Hb H. by apply fmt_app_inj in H as [? _]. Qed.
Lemma log_index_ne a b : offset_ok a -> offset_ok b -> logName a <> indexName b.
Proof. intros Ha Hb H. by apply fmt_app_inj in H as [_ ?]. Qed.
Lemma log_time_ne a b : offset_ok a -> offset_ok b -> logName a <> timeName b.
Proof. intros Ha Hb H. by apply fmt_app_inj in H as [_ ?]. Qed.
Lemma index_time_ne a b : offset_ok a -> offset_ok b -> indexName a <> timeName b.
Proof. intros Ha Hb H. by apply fmt_app_inj in H as [_ ?]. Qed.

(** ** Suffixes *)

Lemma length_append s t : String.length (String.append s t) = (String.length s + String.length t)%nat.
Proof. induction s as [|c s IH]; simpl; [done|]. by rewrite IH. Qed.

Lemma strip_suffix_app suffix s : strip_suffix suffix (String.append s suffix) = Some s.
Proof.
  induction s as [|c s IH].
  - simpl. destruct suffix; cbn [strip_suffix]; by rewrite String.eqb_refl.
  - cbn [String.append strip_suffix]. destruct (String.eqb_spec (String c (String.append s suffix)) suffix) as [E|_].
    + apply (f_equal String.length) in E. simpl in E. rewrite length_append in E. lia.
    + by rewrite IH.
Qed.

Lemma strip_suffix_Some suffix s u : strip_suffix suffix s = Some u -> s = String.append u suffix.
Proof.
  revert u. induction s as [|c s IH]; intros u; cbn [strip_suffix].
  - by destruct (String.eqb_spec "" suffix) as [<-|]; [intros [= <-]|].
  - destruct (String.eqb_spec (String c s) suffix) as [<-|]; [by intros [= <-]|].
    destruct (strip_suffix suffix s) as [u'|] eqn:E; [|done]. intros [= <-].
    by rewrite (IH u' eq_refl).
Qed.

(** Only the [.log] files of a segment end in [.log]. *)
Lemma strip_log_digits n z rest :
  strip_suffix ".log" (String.append (digits n z) rest) =
  String.append (digits n z) <$> strip_suffix ".log" rest.
Proof.
  induction n as [|n IH]; cbn [digits String.append].
  { by destruct (strip_suffix ".log" rest). }
  cbn [strip_suffix].
  destruct (String.eqb_spec (String (digit_char (z / 10 ^ Z.of_nat n mod 10))
    (String.append (digits n z) rest)) ".log") as [[= E _]|_].
  - apply (f_equal N_of_ascii) in E. rewrite digit_char_N in E by apply digit_range.
    pose proof (digit_range z (Z.of_nat n)). simpl in E. lia.
  - rewrite IH. by destruct (strip_suffix ".log" rest).
Qed.

Lemma strip_logName a : strip_suffix ".log" (logName a) = Some (fmt020d a).
Proof. apply strip_suffix_app. Qed.

Lemma strip_indexName a : offset_ok a -> strip_suffix ".log" (indexName a) = None.
Proof.
  intros Ha. unfold indexName, segmentBasePath, fmt020d. unfold offset_ok in Ha.
  rewrite (proj2 (Z.ltb_ge _ _)) by lia. by rewrite strip_log_digits.
Qed.

Lemma strip_timeName a : offset_ok a -> strip_suffix ".log" (timeName a) = None.
Proof.
  intros Ha. unfold timeName, segmentBasePath, fmt020d. unfold offset_ok in Ha.
  rewrite (proj2 (Z.ltb_ge _ _)) by lia. by rewrite strip_log_digits.
Qed.

(** For int64 base offsets, the string order of segment file names (which recovery sorts
    by) is the numeric order of the offsets, and parsing a name gives the offset back. *)
Theorem segment_names_sound a b :
  offset_ok a -> offset_ok b ->
  (String.le (logName a) (logName b) <-> a <= b) /\
  (strip_suffix ".log" (logName a) = Some (segmentBasePath a)) /\
  ParseInt64 (segmentBasePath a) = Ok a.
Proof.
  intros Ha Hb. split; [by apply logName_le|]. split; [apply strip_logName|].
  by apply ParseInt64_fmt.
Qed.

Lemma segment_names_sound_witness :
  String.le (logName 9) (logName 10) /\ ParseInt64 (segmentBasePath 9) = Ok 9.
Proof.
  pose proof (segment_names_sound 9 10 ltac:(vm_compute; split; congruence)
    ltac:(vm_compute; split; congruence)) as (H1 & _ & H3).
  split; [apply H1; lia|exact H3].
Defined.

End SegName.
