(* ===== verification/LogSegment.v ===== *)
(** * The log file of a segment

    internal/storage/log_segment.go. The files of a storage directory are a map from names to
    contents; a [LogSegment] is a handle on one of them with the cached size the code keeps in
    an atomic. Opening a missing file for reading is the only I/O failure modelled: the other
    system calls succeed. No operation is applied to a segment after its files are removed.

    [ScanFrom_batches] says what the scan loop does on a file of well-framed batches; every
    reader of the log (fetch, index rebuild, recovery) is proved through it. *)

From S2P Require Import Prelude.
Local Open Scope Z_scope.

(** The storage directory: file name to contents. *)
Abbreviation files := (gmap string (list byte)).

Definition contents (fs : files) (name : string) : list byte := default [] (fs !! name).

Lemma contents_insert fs name c : contents (<[name := c]> fs) name = c.
Proof. unfold contents. by rewrite lookup_insert_eq. Qed.

Lemma contents_insert_ne fs name name' c :
  name <> name' -> contents (<[name := c]> fs) name' = contents fs name'.
Proof. intros. unfold contents. by rewrite lookup_insert_ne. Qed.

(** [frame X fs fs']: only the files of [X] may differ. *)
Definition frame (X : gset string) (fs fs' : files) : Prop := forall n, n ∉ X -> fs' !! n = fs !! n.

Lemma frame_refl X fs : frame X fs fs.
Proof. done. Qed.
Lemma frame_trans X fs1 fs2 fs3 : frame X fs1 fs2 -> frame X fs2 fs3 -> frame X fs1 fs3.
Proof. intros H1 H2 n Hn. by rewrite H2, H1. Qed.
Lemma frame_mono X Y fs fs' : X ⊆ Y -> frame X fs fs' -> frame Y fs fs'.
Proof. intros HXY H n Hn. apply H. set_solver. Qed.
Lemma frame_insert name c fs : frame {[name]} fs (<[name := c]> fs).
Proof. intros n Hn. apply lookup_insert_ne. set_solver. Qed.
Lemma frame_delete name fs : frame {[name]} fs (delete name fs).
Proof. intros n Hn. apply lookup_delete_ne. set_solver. Qed.
Lemma frame_contents X fs fs' n : frame X fs fs' -> n ∉ X -> contents fs' n = contents fs n.
Proof. intros H Hn. unfold contents. by rewrite H. Qed.

(** [set_solver] on goals about sets of file names, with only the facts about names kept. *)
Ltac names_solver :=
  repeat match goal with
  | H : ?T |- _ =>
      lazymatch T with
      | context [@elem_of] => fail
      | context [@disjoint] => fail
      | @eq string _ _ -> False => fail
      | ~ (@eq string _ _) => fail
      | _ => clear H
      end
  end; set_solver.

Create HintDb frame.
#[export] Hint Resolve frame_refl frame_insert frame_delete : frame.

(** [ftruncate]: shorten, or extend with zero bytes. *)
Definition truncate_bytes (c : list byte) (n : Z) : list byte :=
  take (Z.to_nat n) c ++ replicate (Z.to_nat n - length c) (byte.of_Z 0).

Lemma truncate_bytes_le c n : 0 <= n <= len c -> truncate_bytes c n = take (Z.to_nat n) c.
Proof.
  unfold truncate_bytes, len. intros Hn. replace (Z.to_nat n - length c)%nat with 0%nat by lia.
  apply app_nil_r.
Qed.

Lemma len_truncate c n : 0 <= n -> len (truncate_bytes c n) = n.
Proof.
  unfold truncate_bytes, len. intros Hn. rewrite length_app, length_take, length_replicate. lia.
Qed.

Module LogSeg.

Definition ErrSegmentReadOnly : error := ErrSentinel (Sentinel "storage" "ErrSegmentReadOnly").
Definition sErrUnexpectedEOF : sentinel := Sentinel "io" "ErrUnexpectedEOF".
Definition ErrNotExist : error := ErrSentinel (Sentinel "os" "ErrNotExist").

Record LogSegment := {
  ls_file : string;
  logSizeVal : Z;
  ls_baseOffset : Z;
  ls_readonly : bool
}.

(** [create] opens for append and creates the file; otherwise the file must exist. *)
Definition OpenLogSegment (fs : files) (path : string) (baseOffset : Z) (create : bool)
  : outcome (files * LogSegment) :=
  let mk fs c := (fs, {| ls_file := path; logSizeVal := len c; ls_baseOffset := baseOffset;
                         ls_readonly := negb create |}) in
  match fs !! path with
  | Some c => Ok (mk fs c)
  | None => if create then Ok (mk (<[path := []]> fs) []) else Err ErrNotExist
  end.

(** The write goes to the end of the file ([O_APPEND]); the position returned is the cached
    size before it. *)
Definition Append (fs : files) (s : LogSegment) (batch : list byte)
  : outcome (files * LogSegment * Z) :=
  if ls_readonly s then Err ErrSegmentReadOnly else
  let startPos := logSizeVal s in
  let fs := <[ls_file s := contents fs (ls_file s) ++ batch]> fs in
  Ok (fs, {| ls_file := ls_file s; logSizeVal := logSizeVal s + len batch;
             ls_baseOffset := ls_baseOffset s; ls_readonly := ls_readonly s |}, startPos).

(** [pread] of exactly [length] bytes; a short read is [io.ErrUnexpectedEOF]. *)
Definition ReadAt (file : list byte) (pos length : Z) : outcome (list byte) :=
  if pos <? 0 then Err (ErrNew "negative offset") else
  if pos + length <=? len file then Ok (sub file pos (pos + length))
  else Err (ErrSentinel sErrUnexpectedEOF).

(** The scan loop. The callback's captured variables are the state [St]; they keep their
    values when the scan itself returns an error, which is the [option error]. *)
Fixpoint ScanFrom_loop {St} (fuel : nat) (file : list byte) (logSize pos : Z)
    (callback : St -> list byte -> Z -> outcome (St * bool)) (st : St)
  : outcome (St * option error) :=
  match fuel with
  | O => OutOfFuel
  | S fuel' =>
      if pos <? logSize then
        match ReadAt file pos 12 with
        | Ok header =>
            batchLen ← getUint32 header 8;
            if (batchLen <? 12) || (logSize <? pos + batchLen) then Ok (st, None) else
            match ReadAt file pos batchLen with
            | Ok batch =>
                '(st, continue) ← callback st batch pos;
                if (continue : bool) then
                  ScanFrom_loop fuel' file logSize (pos + batchLen) callback st
                else Ok (st, None)
            | Err e => Ok (st, Some e)
            | Panic p => Panic p
            | OutOfFuel => OutOfFuel
            end
        | Err e => if errors_is e sErrUnexpectedEOF then Ok (st, None) else Ok (st, Some e)
        | Panic p => Panic p
        | OutOfFuel => OutOfFuel
        end
      else Ok (st, None)
  end.

(** Every iteration consumes at least twelve bytes of the log size ([ScanFrom_total]). *)
Definition ScanFrom {St} (fs : files) (s : LogSegment) (startPos : Z)
    (callback : St -> list byte -> Z -> outcome (St * bool)) (st : St)
  : outcome (St * option error) :=
  let logSize := logSizeVal s in
  ScanFrom_loop (S (Z.to_nat (logSize - startPos))) (contents fs (ls_file s)) logSize startPos callback st.

Definition Truncate (fs : files) (s : LogSegment) (pos : Z) : files * LogSegment :=
  (<[ls_file s := truncate_bytes (contents fs (ls_file s)) pos]> fs,
   {| ls_file := ls_file s; logSizeVal := pos; ls_baseOffset := ls_baseOffset s;
      ls_readonly := ls_readonly s |}).

(** ** Scanning well-framed batches *)

(** A byte string whose length field says how long it is. *)
Definition framed (b : list byte) : Prop := 12 <= len b < 2 ^ 32 /\ be_Z (sub b 8 12) = len b.

(** What the scan computes on a list of batches starting at [pos]. *)
Fixpoint scan_batches {St} (callback : St -> list byte -> Z -> outcome (St * bool))
    (bs : list (list byte)) (pos : Z) (st : St) : outcome St :=
  match bs with
  | [] => Ok st
  | b :: bs' =>
      '(st, continue) ← callback st b pos;
      if (continue : bool) then scan_batches callback bs' (pos + len b) st else Ok st
  end.

Lemma ReadAt_mid pre b post n : n = len b -> ReadAt (pre ++ b ++ post) (len pre) n = Ok b.
Proof.
  intros ->. unfold ReadAt. rewrite (proj2 (Z.ltb_ge _ _)), (proj2 (Z.leb_le _ _)) by len_lia.
  by rewrite sub_mid.
Qed.

Lemma ReadAt_prefix pre b post n :
  0 <= n <= len b -> ReadAt (pre ++ b ++ post) (len pre) n = Ok (sub b 0 n).
Proof.
  intros Hn. unfold ReadAt. rewrite (proj2 (Z.ltb_ge _ _)), (proj2 (Z.leb_le _ _)) by len_lia.
  rewrite sub_app_r by lia. rewrite sub_app_l by len_lia. do 2 f_equal; lia.
Qed.

Lemma framed_header pre b post :
  framed b ->
  exists header, ReadAt (pre ++ b ++ post) (len pre) 12 = Ok header /\ getUint32 header 8 = Ok (len b).
Proof.
  intros [Hl Hf]. exists (sub b 0 12). split; [apply ReadAt_prefix; lia|].
  unfold getUint32. rewrite slice_Ok by (rewrite ?len_sub; lia). simpl.
  rewrite sub_sub by lia. f_equal. exact Hf.
Qed.

Lemma ScanFrom_loop_batches {St} fuel pre bs callback (st : St) :
  Forall framed bs -> len (concat bs) < Z.of_nat fuel ->
  ScanFrom_loop fuel (pre ++ concat bs) (len (pre ++ concat bs)) (len pre) callback st =
  (fun st => (st, None)) <$> scan_batches callback bs (len pre) st.
Proof.
  revert fuel pre st. induction bs as [|b bs IH]; intros fuel pre st Hbs Hf;
    (destruct fuel as [|fuel]; [len_pos; lia|]); cbn [ScanFrom_loop scan_batches concat].
  - rewrite (proj2 (Z.ltb_ge _ _)) by (cbn; len_lia). done.
  - cbn [concat] in Hf. inversion_clear Hbs as [|? ? Hb Hbs']. pose proof Hb as [[Hl _] _].
    rewrite (proj2 (Z.ltb_lt _ _)) by len_lia.
    destruct (framed_header pre b (concat bs) Hb) as (header & -> & Hg).
    cbn [mbind outcome_bind]. rewrite Hg. cbn [mbind outcome_bind].
    rewrite (proj2 (Z.ltb_ge _ _)), (proj2 (Z.ltb_ge _ _)) by len_lia. cbn [orb].
    rewrite ReadAt_mid by done. destruct (callback st b (len pre)) as [[st' []]| | |]; simpl; try done.
    replace (len pre + len b) with (len (pre ++ b)) by len_lia.
    rewrite app_assoc. apply IH; [done|len_lia].
Qed.

(** Scanning a file of framed batches from the boundary after [pre] runs the callback on the
    batches in order, until it asks to stop. *)
Lemma ScanFrom_batches {St} fs s pre bs callback (st : St) :
  contents fs (ls_file s) = pre ++ concat bs -> logSizeVal s = len (pre ++ concat bs) ->
  Forall framed bs ->
  ScanFrom fs s (len pre) callback st =
  (fun st => (st, None)) <$> scan_batches callback bs (len pre) st.
Proof.
  intros Hc Hs Hbs. unfold ScanFrom. rewrite Hc, Hs. apply ScanFrom_loop_batches; [done|len_lia].
Qed.

(** The scan terminates on every file: a callback that always returns makes it return. *)
Lemma ScanFrom_loop_total {St} fuel file logSize pos callback (st : St) :
  (forall st b p, callback st b p <> OutOfFuel) -> logSize - pos < Z.of_nat fuel -> (0 < fuel)%nat ->
  ScanFrom_loop fuel file logSize pos callback st <> OutOfFuel.
Proof.
  intros Hcb. revert pos st. induction fuel as [|fuel IH]; intros pos st Hf H0; [lia|].
  cbn [ScanFrom_loop]. destruct (Z.ltb_spec pos logSize); [|done].
  unfold ReadAt. destruct (pos <? 0); [done|]. destruct (pos + 12 <=? len file); [|done].
  unfold getUint32, slice. destruct (_ && _); simpl; [|done].
  set (n := be_Z _). destruct (Z.ltb_spec n 12); [done|].
  destruct (Z.ltb_spec logSize (pos + n)); [done|]. simpl. destruct (pos + n <=? len file); [|done].
  pose proof (Hcb st (sub file pos (pos + n)) pos) as Hc.
  destruct (callback st _ pos) as [[st' []]| | |]; simpl; try done. apply IH; lia.
Qed.

Lemma ScanFrom_total {St} fs s startPos callback (st : St) :
  (forall st b p, callback st b p <> OutOfFuel) -> ScanFrom fs s startPos callback st <> OutOfFuel.
Proof. intros Hcb. apply ScanFrom_loop_total; [done|lia|lia]. Qed.

(** Appending then opening: the new batch is at the returned position. *)
Lemma Append_contents fs s batch fs' s' p :
  Append fs s batch = Ok (fs', s', p) -> logSizeVal s = len (contents fs (ls_file s)) ->
  contents fs' (ls_file s') = contents fs (ls_file s) ++ batch /\
  logSizeVal s' = len (contents fs' (ls_file s')) /\
  ReadAt (contents fs' (ls_file s')) p (len batch) = Ok batch.
Proof.
  unfold Append. destruct (ls_readonly s); [done|]. intros [= <- <- <-] Hs. cbn [ls_file logSizeVal].
  rewrite !contents_insert. split; [done|]. split; [len_lia|].
  rewrite Hs, <- (app_nil_r batch) at 1. by apply ReadAt_mid.
Qed.

End LogSeg.
