(* ===== verification/BinSearch.v ===== *)
(** * The three binary searches of the storage layer

    [OffsetIndexSegment.Lookup] looks for the last entry that passes a test (floor),
    [TimeIndexSegment.Lookup] for the first one (ceiling) and [storageImpl.Read] for the last
    segment that passes. Each loop is given here over the test it makes at an index; on a test
    that is monotone, with the threshold at [n1], the result is determined. *)

From S2P Require Import Prelude.
Local Open Scope Z_scope.

(** [for lo <= hi { mid := (lo+hi)/2; if test(mid) { result = mid; lo = mid+1 } else { hi = mid-1 } }] *)
Fixpoint floor_search (fuel : nat) (test : Z -> outcome bool) (lo hi result : Z) : outcome Z :=
  match fuel with
  | O => OutOfFuel
  | S fuel' =>
      if lo <=? hi then
        let mid := Z.quot (lo + hi) 2 in
        b ← test mid;
        if (b : bool) then floor_search fuel' test (mid + 1) hi mid
        else floor_search fuel' test lo (mid - 1) result
      else Ok result
  end.

(** [for lo <= hi { mid := (lo+hi)/2; if test(mid) { result = mid; hi = mid-1 } else { lo = mid+1 } }] *)
Fixpoint ceil_search (fuel : nat) (test : Z -> outcome bool) (lo hi result : Z) : outcome Z :=
  match fuel with
  | O => OutOfFuel
  | S fuel' =>
      if lo <=? hi then
        let mid := Z.quot (lo + hi) 2 in
        b ← test mid;
        if (b : bool) then ceil_search fuel' test lo (mid - 1) mid
        else ceil_search fuel' test (mid + 1) hi result
      else Ok result
  end.

(** [for lo < hi { mid := (lo+hi+1)/2; if test(mid) { lo = mid } else { hi = mid-1 } }] *)
Fixpoint last_search (fuel : nat) (test : Z -> outcome bool) (lo hi : Z) : outcome Z :=
  match fuel with
  | O => OutOfFuel
  | S fuel' =>
      if lo <? hi then
        let mid := Z.quot (lo + hi + 1) 2 in
        b ← test mid;
        if (b : bool) then last_search fuel' test mid hi
        else last_search fuel' test lo (mid - 1)
      else Ok lo
  end.

Lemma mid_range lo hi : 0 <= lo -> lo <= hi -> lo <= Z.quot (lo + hi) 2 <= hi.
Proof. intros. rewrite Z.quot_div_nonneg by lia. Z.div_mod_to_equations. lia. Qed.

Section spec.
Context (n n1 : Z) (test : Z -> outcome bool).

Lemma floor_search_spec fuel lo hi result :
  (forall i, 0 <= i < n -> test i = Ok (i <? n1)) ->
  0 <= lo <= n1 -> n1 - 1 <= hi < n -> result = lo - 1 -> hi - lo + 1 < Z.of_nat fuel ->
  floor_search fuel test lo hi result = Ok (n1 - 1).
Proof.
  intros Ht. revert lo hi result.
  induction fuel as [|fuel IH]; intros lo hi result Hlo Hhi -> Hf; [lia|].
  cbn [floor_search]. destruct (Z.leb_spec lo hi); [|f_equal; lia].
  pose proof (mid_range lo hi ltac:(lia) ltac:(lia)). cbv zeta. rewrite Ht by lia. simpl.
  destruct (Z.ltb_spec (Z.quot (lo + hi) 2) n1); apply IH; lia.
Qed.

Lemma ceil_search_spec fuel lo hi result :
  (forall i, 0 <= i < n -> test i = Ok (n1 <=? i)) ->
  0 <= lo <= n1 -> n1 - 1 <= hi < n ->
  result = (if decide (hi + 1 < n) then hi + 1 else -1) -> hi - lo + 1 < Z.of_nat fuel ->
  ceil_search fuel test lo hi result = Ok (if decide (n1 < n) then n1 else -1).
Proof.
  intros Ht. revert lo hi result.
  induction fuel as [|fuel IH]; intros lo hi result Hlo Hhi -> Hf; [lia|].
  cbn [ceil_search]. destruct (Z.leb_spec lo hi); [|f_equal; repeat case_decide; lia].
  pose proof (mid_range lo hi ltac:(lia) ltac:(lia)). cbv zeta. rewrite Ht by lia. simpl.
  destruct (Z.leb_spec n1 (Z.quot (lo + hi) 2)); apply IH; try lia; repeat case_decide; lia.
Qed.

Lemma last_search_spec fuel lo hi :
  (forall i, 0 <= i < n -> test i = Ok (i <? n1)) ->
  0 <= lo < n1 -> n1 - 1 <= hi < n -> hi - lo < Z.of_nat fuel ->
  last_search fuel test lo hi = Ok (n1 - 1).
Proof.
  intros Ht. revert lo hi. induction fuel as [|fuel IH]; intros lo hi Hlo Hhi Hf; [lia|].
  cbn [last_search]. destruct (Z.ltb_spec lo hi); [|f_equal; lia].
  assert (lo < Z.quot (lo + hi + 1) 2 <= hi) as Hm
    by (rewrite Z.quot_div_nonneg by lia; Z.div_mod_to_equations; lia).
  cbv zeta. rewrite Ht by lia. simpl.
  destruct (Z.ltb_spec (Z.quot (lo + hi + 1) 2) n1); apply IH; lia.
Qed.
End spec.

(** A list sorted by a key splits at any threshold. *)
Lemma sorted_split {A} (key : A -> Z) (l : list A) (t : Z) :
  StronglySorted (fun x y => key x <= key y) l ->
  exists l1 l2, l = l1 ++ l2 /\ Forall (fun x => key x <= t) l1 /\ Forall (fun x => t < key x) l2.
Proof.
  induction 1 as [|x l _ IH Hx]; [by exists [], []|].
  destruct (decide (key x <= t)) as [Hle|Hgt].
  - destruct IH as (l1 & l2 & -> & H1 & H2). exists (x :: l1), l2. by repeat constructor.
  - exists [], (x :: l). repeat split; constructor; [lia|].
    eapply Forall_impl; [exact Hx|]. simpl. lia.
Qed.
