(* ===== verification/OffsetIndex.v ===== *)
(** * The sparse offset index of a segment

    internal/storage/offset_index.go and offset_index_linux.go, with the read-only open of
    segment_storage.go. The file is memory-mapped shared, so the mapped bytes are the bytes of
    the file: a handle keeps the length of its mapping and reads and writes the file itself.
    The index is shown to behave as the list of its entries: [Append] adds one at the end,
    [Rebuild] replaces them, sealing and reopening preserves them, and [Lookup] returns the
    position of the last entry at or below the offset looked for. *)

From S2P Require Import Prelude LogSegment BinSearch.
Local Open Scope Z_scope.

(** ** Arrays of fixed-width entries *)

Section entries.
Context {A : Type} (w : Z) (enc : A -> list byte).
Hypothesis len_enc : forall a, len (enc a) = w.

(** The array starts with the encoded entries; what follows is unused space. *)
Definition holds (data : list byte) (es : list A) : Prop :=
  exists tail, data = concat (enc <$> es) ++ tail.

Lemma len_concat_enc es : len (concat (enc <$> es)) = w * len es.
Proof using len_enc.
  induction es as [|e es IH]; [cbn [fmap list_fmap concat]; len_lia|].
  cbn [fmap list_fmap concat]. rewrite len_app, len_enc, IH. len_lia.
Qed.

(** Reading inside entry [i]. *)
Lemma holds_slice data es1 e es2 a b :
  holds data (es1 ++ e :: es2) -> 0 <= a -> a <= b -> b <= w ->
  slice data (w * len es1 + a) (w * len es1 + b) = Ok (sub (enc e) a b).
Proof using len_enc.
  intros [tail ->] Ha Hab Hb. pose proof (len_concat_enc es1) as H1. pose proof (len_enc e).
  rewrite fmap_app, concat_app. cbn [fmap list_fmap concat]. rewrite <- !app_assoc.
  rewrite slice_Ok by (rewrite ?len_app; len_pos; lia). f_equal.
  rewrite sub_app_r by lia. rewrite sub_app_l by lia. f_equal; lia.
Qed.

Lemma holds_len data es : holds data es -> w * len es <= len data.
Proof using len_enc. intros [tail ->]. rewrite len_app, len_concat_enc. len_pos. lia. Qed.

Lemma holds_prefix data es : holds data es -> take (Z.to_nat (w * len es)) data = concat (enc <$> es).
Proof using len_enc.
  intros [tail ->]. apply take_app_length'. pose proof (len_concat_enc es). unfold len in *. lia.
Qed.

(** Storing the next entry. *)
Lemma holds_splice data es e :
  holds data es -> w * len es + w <= len data -> holds (splice data (w * len es) (enc e)) (es ++ [e]).
Proof using len_enc.
  intros [tail ->] Hl. rewrite len_app, len_concat_enc in Hl.
  exists (drop (length (enc e)) tail). rewrite fmap_app, concat_app. cbn [fmap list_fmap concat].
  rewrite app_nil_r, <- app_assoc. rewrite <- (take_drop (length (enc e)) tail) at 1.
  apply splice_app; [by rewrite len_concat_enc|].
  rewrite length_take. pose proof (len_enc e). unfold len in *. lia.
Qed.
End entries.

Module OffsetIdx.

Definition ErrIndexFull : error := ErrSentinel (Sentinel "storage" "ErrIndexFull").

(** [os.Getpagesize()] on the supported platforms. *)
Definition pageSize : Z := 4096.

Record offsetEntry := { relativeOffset : Z; position : Z }.

Record OffsetIndexSegment := {
  oi_file : string;
  oi_mapped : Z;        (** length of [data]; 0 when it is nil *)
  oi_entryCount : Z;
  oi_baseOffset : Z;
  oi_maxEntries : Z
}.

Definition data (fs : files) (s : OffsetIndexSegment) : list byte :=
  take (Z.to_nat (oi_mapped s)) (contents fs (oi_file s)).

(** [preallocateIndex]: [Truncate(size)]; the [Fallocate] call only reserves blocks. *)
Definition preallocateIndex (c : list byte) (size : Z) : list byte := truncate_bytes c size.

(** Number of entries and mapped bytes for a segment; Go's division panics on a zero sample. *)
Definition index_geometry (entryBytes segMaxBytes indexSampleBytes : Z) : outcome (Z * Z) :=
  if indexSampleBytes =? 0 then Panic PanicDivide else
  let maxEntries := Z.quot (segMaxBytes + indexSampleBytes - 1) indexSampleBytes in
  let bytes := maxEntries * entryBytes in
  Ok (maxEntries, Z.quot (bytes + pageSize - 1) pageSize * pageSize).

(** [mmap] of an empty range is [EINVAL]. *)
Definition ErrMmap : error := ErrNew "invalid argument".

Definition OpenOffsetIndex (fs : files) (path : string) (baseOffset segMaxBytes indexSampleBytes : Z)
  : outcome (files * OffsetIndexSegment) :=
  let c := contents fs path in
  let existingSize := len c in
  '(maxEntries, allocSize) ← index_geometry 8 segMaxBytes indexSampleBytes;
  let c := if existingSize <? allocSize then preallocateIndex c allocSize else c in
  if allocSize <=? 0 then Err ErrMmap else
  Ok (<[path := c]> fs,
      {| oi_file := path; oi_mapped := allocSize; oi_entryCount := Z.quot existingSize 8;
         oi_baseOffset := baseOffset; oi_maxEntries := maxEntries |}).

Definition openOffsetIndexReadOnly (fs : files) (path : string) (baseOffset : Z)
  : outcome OffsetIndexSegment :=
  match fs !! path with
  | None => Err LogSeg.ErrNotExist
  | Some c =>
      let size := len c in
      Ok {| oi_file := path; oi_mapped := size; oi_entryCount := Z.quot size 8;
            oi_baseOffset := baseOffset; oi_maxEntries := Z.quot size 8 |}
  end.

(** The two stores of an entry at byte [off] of the mapping. *)
Definition put_entry (fs : files) (s : OffsetIndexSegment) (off relativeOffset position : Z)
  : outcome files :=
  if oi_mapped s <? off + 8 then Panic PanicBounds else
  c ← putUint32 (contents fs (oi_file s)) off (u32 relativeOffset);
  c ← putUint32 c (off + 4) (u32 position);
  Ok (<[oi_file s := c]> fs).

Definition set_count (s : OffsetIndexSegment) (n : Z) : OffsetIndexSegment :=
  {| oi_file := oi_file s; oi_mapped := oi_mapped s; oi_entryCount := n;
     oi_baseOffset := oi_baseOffset s; oi_maxEntries := oi_maxEntries s |}.

Definition Append (fs : files) (s : OffsetIndexSegment) (relativeOffset position : Z)
  : outcome (files * OffsetIndexSegment) :=
  let count := oi_entryCount s in
  if oi_maxEntries s <=? count then Err ErrIndexFull else
  fs ← put_entry fs s (count * 8) relativeOffset position;
  Ok (fs, set_count s (count + 1)).

(** [Lookup]: the position, and whether an entry was found. *)
Definition Lookup (fs : files) (s : OffsetIndexSegment) (relativeOffset : Z) : outcome (Z * bool) :=
  let data := data fs s in
  let count := oi_entryCount s in
  if count =? 0 then Ok (0, false) else
  result ← floor_search (S (Z.to_nat count))
    (fun mid => v ← getUint32 data (mid * 8); Ok (i32 v <=? relativeOffset)) 0 (count - 1) (-1);
  if result <? 0 then Ok (0, false) else
  v ← getUint32 data (result * 8 + 4);
  Ok (i32 v, true).

(** [Seal] truncates the file to the entries, syncs and remaps it read-only. *)
Definition Seal (fs : files) (s : OffsetIndexSegment) : files * OffsetIndexSegment :=
  let count := oi_entryCount s in
  let actualSize := count * 8 in
  (<[oi_file s := truncate_bytes (contents fs (oi_file s)) actualSize]> fs,
   {| oi_file := oi_file s; oi_mapped := actualSize; oi_entryCount := count;
      oi_baseOffset := oi_baseOffset s; oi_maxEntries := count |}).

(** The loop of [Rebuild]; it does not check [maxEntries], only the bounds of the mapping. *)
Fixpoint Rebuild_loop (fs : files) (s : OffsetIndexSegment) (i : Z) (entries : list offsetEntry)
  : outcome files :=
  match entries with
  | [] => Ok fs
  | e :: es =>
      fs ← put_entry fs s (i * 8) (relativeOffset e) (position e);
      Rebuild_loop fs s (i + 1) es
  end.

Definition Rebuild (fs : files) (s : OffsetIndexSegment) (entries : list offsetEntry)
  : outcome (files * OffsetIndexSegment) :=
  fs ← Rebuild_loop fs s 0 entries;
  Ok (fs, set_count s (len entries)).

(** ** The index as a list of entries *)

Definition enc (e : offsetEntry) : list byte :=
  be_bytes 4 (u32 (relativeOffset e)) ++ be_bytes 4 (u32 (position e)).

Lemma len_enc e : len (enc e) = 8.
Proof. unfold enc. by autorewrite with len. Qed.

Definition entry_ok (e : offsetEntry) : Prop := in_i32 (relativeOffset e) /\ in_i32 (position e).

(** [repr fs s es]: the handle [s] holds the entries [es]. *)
Record repr (fs : files) (s : OffsetIndexSegment) (es : list offsetEntry) : Prop := {
  repr_count : oi_entryCount s = len es;
  repr_data : holds enc (contents fs (oi_file s)) es;
  repr_ok : Forall entry_ok es;
  repr_mapped : 8 * len es <= oi_mapped s <= len (contents fs (oi_file s));
  repr_room : 8 * oi_maxEntries s <= oi_mapped s
}.

Lemma enc_split e : sub (enc e) 0 4 = be_bytes 4 (u32 (relativeOffset e)) /\
  sub (enc e) 4 8 = be_bytes 4 (u32 (position e)).
Proof. split; [by apply (sub_mid_eq [])|by apply sub_tail]. Qed.

Lemma data_holds fs s es : repr fs s es -> holds enc (data fs s) es.
Proof.
  intros [_ [tail Ht] _ [Hm _] _]. unfold data. rewrite Ht.
  pose proof (len_concat_enc 8 enc len_enc es) as Hl. rewrite take_app_ge by (unfold len in *; lia).
  by eexists.
Qed.

Lemma read_entry fs s es1 e es2 :
  repr fs s (es1 ++ e :: es2) ->
  getUint32 (data fs s) (len es1 * 8) = Ok (u32 (relativeOffset e)) /\
  getUint32 (data fs s) (len es1 * 8 + 4) = Ok (u32 (position e)).
Proof.
  intros Hr. pose proof (data_holds _ _ _ Hr) as Hd. destruct (enc_split e) as [E1 E2].
  pose proof (holds_slice 8 enc len_enc _ _ _ _ 0 4 Hd) as S1.
  pose proof (holds_slice 8 enc len_enc _ _ _ _ 4 8 Hd) as S2.
  rewrite E1 in S1. rewrite E2 in S2. unfold getUint32. split.
  - replace (len es1 * 8) with (8 * len es1 + 0) by lia.
    replace (8 * len es1 + 0 + 4) with (8 * len es1 + 4) by lia. rewrite S1 by lia. simpl.
    rewrite be_Z_4. unfold u32. by rewrite Z.mod_mod.
  - replace (len es1 * 8 + 4) with (8 * len es1 + 4) by lia.
    replace (8 * len es1 + 4 + 4) with (8 * len es1 + 8) by lia. rewrite S2 by lia. simpl.
    rewrite be_Z_4. unfold u32. by rewrite Z.mod_mod.
Qed.

(** The position of the last entry at or below [t]. *)
Definition floor_position (es : list offsetEntry) (t : Z) : option Z :=
  position <$> last (filter (fun e => relativeOffset e <= t) es).

Definition index_sorted (es : list offsetEntry) : Prop :=
  StronglySorted (fun e1 e2 => relativeOffset e1 <= relativeOffset e2) es.

Lemma Lookup_repr fs s es t :
  repr fs s es -> index_sorted es ->
  Lookup fs s t = Ok (match floor_position es t with Some p => (p, true) | None => (0, false) end).
Proof.
  intros Hr Hs. destruct (sorted_split relativeOffset es t Hs) as (l1 & l2 & -> & H1 & H2).
  unfold floor_position. rewrite filter_app_split; [|done|eapply Forall_impl; [exact H2|simpl; lia]].
  unfold Lookup. rewrite (repr_count _ _ _ Hr).
  destruct (Z.eqb_spec (len (l1 ++ l2)) 0) as [E|E].
  { destruct l1; [done|]. len_lia. }
  rewrite (floor_search_spec (len (l1 ++ l2)) (len l1)); [| |len_lia..].
  - cbn [mbind outcome_bind]. destruct l1 as [|e l1 _] using rev_ind; [done|].
    rewrite (proj2 (Z.ltb_ge _ _)) by len_lia. rewrite <- app_assoc in Hr.
    replace (len (l1 ++ [e]) - 1) with (len l1) by len_lia.
    rewrite (proj2 (read_entry _ _ _ _ _ Hr)). cbn [mbind outcome_bind].
    rewrite last_snoc. simpl. rewrite i32_u32, i32_id; [done|].
    pose proof (repr_ok _ _ _ Hr) as Hok. rewrite !Forall_app, Forall_singleton in Hok. apply Hok.
  - intros i Hi. destruct (index_is_Ok (l1 ++ l2) i Hi) as (e & He & _).
    pose proof (repr_ok _ _ _ Hr) as Hok. pose proof (Forall_lookup_1 _ _ _ _ Hok He) as [Hrel _].
    pose proof (take_drop_middle _ _ _ He) as Hsplit. rewrite <- Hsplit in Hr.
    assert (len (take (Z.to_nat i) (l1 ++ l2)) = i) as Hlen
      by (unfold len in *; rewrite length_take; lia).
    pose proof (proj1 (read_entry _ _ _ _ _ Hr)) as Hread. rewrite Hlen in Hread.
    rewrite Hread. cbn [mbind outcome_bind]. rewrite i32_u32, i32_id by done. f_equal.
    destruct (Z.ltb_spec i (len l1)) as [Hlt|Hge].
    + rewrite lookup_app_l in He by (unfold len in *; lia).
      apply Z.leb_le. by apply (Forall_lookup_1 _ _ _ _ H1 He).
    + rewrite lookup_app_r in He by (unfold len in *; lia).
      apply Z.leb_gt. by apply (Forall_lookup_1 _ _ _ _ H2 He).
Qed.

Lemma put_entry_eq fs s off e :
  0 <= off -> off + 8 <= oi_mapped s -> oi_mapped s <= len (contents fs (oi_file s)) ->
  put_entry fs s off (relativeOffset e) (position e) =
  Ok (<[oi_file s := splice (contents fs (oi_file s)) off (enc e)]> fs).
Proof.
  intros Ho Hm Hl. unfold put_entry. rewrite (proj2 (Z.ltb_ge _ _)) by lia. unfold putUint32.
  rewrite store_Ok by (rewrite ?len_be_bytes; lia). cbn [mbind outcome_bind].
  rewrite store_Ok by (rewrite ?len_splice; rewrite ?len_be_bytes; lia). cbn [mbind outcome_bind].
  by rewrite splice_splice by (rewrite ?len_be_bytes; lia).
Qed.

(** Appending to an index with room adds the entry at the end. *)
Lemma Append_repr fs s es e :
  repr fs s es -> entry_ok e -> len es < oi_maxEntries s ->
  exists fs', Append fs s (relativeOffset e) (position e) = Ok (fs', set_count s (len es + 1)) /\
    frame {[oi_file s]} fs fs' /\ repr fs' (set_count s (len es + 1)) (es ++ [e]).
Proof.
  intros [Hc Hd Hok Hm Hr] He Hlt. unfold Append. rewrite Hc.
  rewrite (proj2 (Z.leb_gt _ _)) by lia. pose proof (len_nonneg es).
  rewrite put_entry_eq by lia. cbn [mbind outcome_bind]. eexists. split; [done|].
  split; [apply frame_insert|].
  constructor; cbn [set_count oi_entryCount oi_file oi_mapped oi_maxEntries].
  - len_lia.
  - rewrite contents_insert, Z.mul_comm. apply (holds_splice 8 enc len_enc); [done|lia].
  - by apply Forall_app_2; [|constructor].
  - rewrite contents_insert, len_splice by (rewrite ?len_enc; lia). len_lia.
  - done.
Qed.

(** A full index refuses the entry. *)
Lemma Append_full fs s r p : oi_maxEntries s <= oi_entryCount s -> Append fs s r p = Err ErrIndexFull.
Proof. intros H. unfold Append. by rewrite (proj2 (Z.leb_le _ _)). Qed.

Lemma Rebuild_loop_holds fs s es0 es :
  holds enc (contents fs (oi_file s)) es0 ->
  8 * (len es0 + len es) <= oi_mapped s -> oi_mapped s <= len (contents fs (oi_file s)) ->
  exists fs', Rebuild_loop fs s (len es0) es = Ok fs' /\ frame {[oi_file s]} fs fs' /\
    holds enc (contents fs' (oi_file s)) (es0 ++ es) /\
    len (contents fs' (oi_file s)) = len (contents fs (oi_file s)).
Proof.
  revert fs es0. induction es as [|e es IH]; intros fs es0 Hd Hm Hl; cbn [Rebuild_loop].
  - exists fs. rewrite app_nil_r. auto with frame.
  - rewrite len_cons in Hm. pose proof (len_nonneg es0). pose proof (len_nonneg es).
    rewrite put_entry_eq by lia. cbn [mbind outcome_bind].
    replace (len es0 + 1) with (len (es0 ++ [e])) by len_lia.
    destruct (IH (<[oi_file s := splice (contents fs (oi_file s)) (len es0 * 8) (enc e)]> fs) (es0 ++ [e]))
      as (fs' & -> & Hf & Hh & Hlen);
      rewrite ?contents_insert, ?len_splice in * by (rewrite ?len_enc; lia); [| |lia|].
    + rewrite Z.mul_comm. apply (holds_splice 8 enc len_enc); [done|lia].
    + len_lia.
    + exists fs'. rewrite <- app_assoc in Hh. split; [done|]. split; [|done].
      eapply frame_trans; [apply frame_insert|done].
Qed.

(** [Rebuild] makes the index hold exactly the given entries, whatever it held. *)
Lemma Rebuild_repr fs s es :
  oi_mapped s <= len (contents fs (oi_file s)) -> 8 * oi_maxEntries s <= oi_mapped s ->
  8 * len es <= oi_mapped s -> Forall entry_ok es ->
  exists fs', Rebuild fs s es = Ok (fs', set_count s (len es)) /\ frame {[oi_file s]} fs fs' /\
    repr fs' (set_count s (len es)) es.
Proof.
  intros Hl Hr Hm Hok. destruct (Rebuild_loop_holds fs s [] es) as (fs' & E & Hf & Hd & Hlen).
  - by eexists.
  - len_lia.
  - done.
  - exists fs'. unfold Rebuild. change 0 with (len (@nil offsetEntry)). rewrite E.
    split; [done|]. split; [done|].
    by constructor; cbn [set_count oi_entryCount oi_file oi_mapped oi_maxEntries]; try lia.
Qed.

Lemma index_geometry_ok w segMax sample :
  0 < w -> 0 < segMax -> 0 < sample ->
  exists m a, index_geometry w segMax sample = Ok (m, a) /\ segMax <= m * sample /\ 0 < m /\ w * m <= a.
Proof.
  intros Hw Hs Hp. unfold index_geometry. rewrite (proj2 (Z.eqb_neq _ _)) by lia. unfold pageSize.
  do 2 eexists. split; [done|]. set (m := Z.quot _ sample).
  assert (segMax <= m * sample /\ 0 < m) as [H1 H2].
  { unfold m. rewrite Z.quot_div_nonneg by lia.
    pose proof (Z.div_mod (segMax + sample - 1) sample). pose proof (Z.mod_pos_bound (segMax + sample - 1) sample).
    split; [lia|]. apply Z.div_str_pos. lia. }
  assert (0 < m * w) by lia. split; [done|]. split; [done|].
  rewrite Z.quot_div_nonneg by lia. set (k := m * w) in *. replace (w * m) with k by lia.
  clearbody k. Z.div_mod_to_equations. lia.
Qed.

(** Opening a missing file creates an empty index with room for a sample of the segment. *)
Lemma OpenOffsetIndex_fresh fs path base segMax sample :
  0 < segMax -> 0 < sample -> fs !! path = None ->
  exists fs' s, OpenOffsetIndex fs path base segMax sample = Ok (fs', s) /\
    frame {[path]} fs fs' /\ repr fs' s [] /\ oi_file s = path /\ segMax <= oi_maxEntries s * sample.
Proof.
  intros Hs Hp Hn. unfold OpenOffsetIndex.
  assert (contents fs path = []) as -> by (unfold contents; by rewrite Hn).
  destruct (index_geometry_ok 8 segMax sample) as (m & a & -> & H1 & H2 & H3); [lia..|].
  cbn [mbind outcome_bind]. rewrite (proj2 (Z.leb_gt a 0)) by lia.
  rewrite (proj2 (Z.ltb_lt (len []) a)) by (rewrite len_nil; lia).
  do 2 eexists. split; [done|]. split; [apply frame_insert|]. split; [|done].
  constructor; cbn [oi_entryCount oi_file oi_mapped oi_maxEntries]; [done| |done| |lia].
  - by eexists.
  - rewrite contents_insert. unfold preallocateIndex. rewrite len_truncate by lia. len_lia.
Qed.

(** Sealing leaves exactly the entries in the file, and closes the index to appends. *)
Lemma Seal_repr fs s es fs' s' :
  repr fs s es -> Seal fs s = (fs', s') ->
  frame {[oi_file s]} fs fs' /\ repr fs' s' es /\ oi_file s' = oi_file s /\
  contents fs' (oi_file s) = concat (enc <$> es) /\ fs' !! oi_file s <> None /\
  oi_maxEntries s' = oi_entryCount s'.
Proof.
  intros [Hc Hd Hok Hm Hr] [= <- <-]. pose proof (len_nonneg es). pose proof (len_concat_enc 8 enc len_enc es).
  cbn [oi_entryCount oi_file oi_mapped oi_maxEntries].
  assert (truncate_bytes (contents fs (oi_file s)) (oi_entryCount s * 8) = concat (enc <$> es)) as Ht.
  { rewrite Hc, truncate_bytes_le, Z.mul_comm by lia. by apply (holds_prefix 8 enc len_enc). }
  rewrite contents_insert, lookup_insert_eq, Ht. split; [apply frame_insert|].
  split; [|done].
  constructor; cbn [oi_entryCount oi_file oi_mapped oi_maxEntries]; rewrite ?contents_insert; try done; try lia.
  exists []. by rewrite app_nil_r.
Qed.

(** Opening a sealed file read-only gives back the entries that were sealed. *)
Lemma openOffsetIndexReadOnly_repr fs path base es :
  fs !! path = Some (concat (enc <$> es)) -> Forall entry_ok es ->
  exists s, openOffsetIndexReadOnly fs path base = Ok s /\ repr fs s es /\ oi_file s = path.
Proof.
  intros Hf Hok. unfold openOffsetIndexReadOnly. rewrite Hf. eexists. split; [done|]. split; [|done].
  pose proof (len_concat_enc 8 enc len_enc es) as Hl. pose proof (len_nonneg es).
  assert (Z.quot (len (concat (enc <$> es))) 8 = len es) as Hq
    by (rewrite Hl, Z.mul_comm; by apply Z.quot_mul).
  constructor; cbn [oi_entryCount oi_file oi_mapped oi_maxEntries]; unfold contents; rewrite ?Hf, ?Hq; simpl;
    try done; try lia.
  exists []. by rewrite app_nil_r.
Qed.

End OffsetIdx.
