(* ===== verification/TimeIndex.v ===== *)
(** * The sparse time index of a segment

    internal/storage/time_index.go, with the read-only open of segment_storage.go: the offset
    index with 12-byte entries and a ceiling search. It behaves as the list of its entries, and
    on a list sorted by time [Lookup] returns the offset of the first entry at or after the
    timestamp looked for. Whatever the order of the timestamps, [Lookup] returns one of the
    entries or none ([TimeLookup_total]). *)

From S2P Require Import Prelude LogSegment BinSearch OffsetIndex.
Import OffsetIdx (ErrIndexFull, pageSize, preallocateIndex, index_geometry, ErrMmap, index_geometry_ok).
Local Open Scope Z_scope.

Module TimeIdx.

Record timeEntry := { timestampMs : Z; relativeOffset : Z }.

Record TimeIndexSegment := {
  ti_file : string;
  ti_mapped : Z;        (** length of [data]; 0 when it is nil *)
  ti_entryCount : Z;
  ti_baseOffset : Z;
  ti_maxEntries : Z
}.

Definition data (fs : files) (s : TimeIndexSegment) : list byte :=
  take (Z.to_nat (ti_mapped s)) (contents fs (ti_file s)).

Definition OpenTimeIndex (fs : files) (path : string) (baseOffset segMaxBytes indexSampleBytes : Z)
  : outcome (files * TimeIndexSegment) :=
  let c := contents fs path in
  let existingSize := len c in
  '(maxEntries, allocSize) ← index_geometry 12 segMaxBytes indexSampleBytes;
  let c := if existingSize <? allocSize then preallocateIndex c allocSize else c in
  if allocSize <=? 0 then Err ErrMmap else
  Ok (<[path := c]> fs,
      {| ti_file := path; ti_mapped := allocSize; ti_entryCount := Z.quot existingSize 12;
         ti_baseOffset := baseOffset; ti_maxEntries := maxEntries |}).

Definition openTimeIndexReadOnly (fs : files) (path : string) (baseOffset : Z)
  : outcome TimeIndexSegment :=
  match fs !! path with
  | None => Err LogSeg.ErrNotExist
  | Some c =>
      let size := len c in
      Ok {| ti_file := path; ti_mapped := size; ti_entryCount := Z.quot size 12;
            ti_baseOffset := baseOffset; ti_maxEntries := Z.quot size 12 |}
  end.

(** The two stores of an entry at byte [off] of the mapping. *)
Definition put_entry (fs : files) (s : TimeIndexSegment) (off timestampMs relativeOffset : Z)
  : outcome files :=
  if ti_mapped s <? off + 12 then Panic PanicBounds else
  c ← putUint64 (contents fs (ti_file s)) off (u64 timestampMs);
  c ← putUint32 c (off + 8) (u32 relativeOffset);
  Ok (<[ti_file s := c]> fs).

Definition set_count (s : TimeIndexSegment) (n : Z) : TimeIndexSegment :=
  {| ti_file := ti_file s; ti_mapped := ti_mapped s; ti_entryCount := n;
     ti_baseOffset := ti_baseOffset s; ti_maxEntries := ti_maxEntries s |}.

Definition Append (fs : files) (s : TimeIndexSegment) (timestampMs relativeOffset : Z)
  : outcome (files * TimeIndexSegment) :=
  let count := ti_entryCount s in
  if ti_maxEntries s <=? count then Err ErrIndexFull else
  fs ← put_entry fs s (count * 12) timestampMs relativeOffset;
  Ok (fs, set_count s (count + 1)).

(** [Lookup]: the relative offset, and whether an entry was found. *)
Definition Lookup (fs : files) (s : TimeIndexSegment) (timestampMs : Z) : outcome (Z * bool) :=
  let data := data fs s in
  let count := ti_entryCount s in
  if count =? 0 then Ok (0, false) else
  result ← ceil_search (S (Z.to_nat count))
    (fun mid => v ← getUint64 data (mid * 12); Ok (timestampMs <=? i64 v)) 0 (count - 1) (-1);
  if result <? 0 then Ok (0, false) else
  v ← getUint32 data (result * 12 + 8);
  Ok (i32 v, true).

(** [Seal] truncates the file to the entries, syncs and remaps it read-only. *)
Definition Seal (fs : files) (s : TimeIndexSegment) : files * TimeIndexSegment :=
  let count := ti_entryCount s in
  let actualSize := count * 12 in
  (<[ti_file s := truncate_bytes (contents fs (ti_file s)) actualSize]> fs,
   {| ti_file := ti_file s; ti_mapped := actualSize; ti_entryCount := count;
      ti_baseOffset := ti_baseOffset s; ti_maxEntries := count |}).

(** The loop of [Rebuild]; it does not check [maxEntries], only the bounds of the mapping. *)
Fixpoint Rebuild_loop (fs : files) (s : TimeIndexSegment) (i : Z) (entries : list timeEntry)
  : outcome files :=
  match entries with
  | [] => Ok fs
  | e :: es =>
      fs ← put_entry fs s (i * 12) (timestampMs e) (relativeOffset e);
      Rebuild_loop fs s (i + 1) es
  end.

Definition Rebuild (fs : files) (s : TimeIndexSegment) (entries : list timeEntry)
  : outcome (files * TimeIndexSegment) :=
  fs ← Rebuild_loop fs s 0 entries;
  Ok (fs, set_count s (len entries)).

(** ** The index as a list of entries *)

Definition enc (e : timeEntry) : list byte :=
  be_bytes 8 (u64 (timestampMs e)) ++ be_bytes 4 (u32 (relativeOffset e)).

Lemma len_time_enc e : len (enc e) = 12.
Proof. unfold enc. by autorewrite with len. Qed.

Definition entry_ok (e : timeEntry) : Prop := in_i64 (timestampMs e) /\ in_i32 (relativeOffset e).

(** [repr fs s es]: the handle [s] holds the entries [es]. *)
Record repr (fs : files) (s : TimeIndexSegment) (es : list timeEntry) : Prop := {
  repr_count : ti_entryCount s = len es;
  repr_data : holds enc (contents fs (ti_file s)) es;
  repr_ok : Forall entry_ok es;
  repr_mapped : 12 * len es <= ti_mapped s <= len (contents fs (ti_file s));
  repr_room : 12 * ti_maxEntries s <= ti_mapped s
}.

Lemma time_enc_split e : sub (enc e) 0 8 = be_bytes 8 (u64 (timestampMs e)) /\
  sub (enc e) 8 12 = be_bytes 4 (u32 (relativeOffset e)).
Proof. split; [by apply (sub_mid_eq [])|by apply sub_tail]. Qed.

Lemma time_data_holds fs s es : repr fs s es -> holds enc (data fs s) es.
Proof.
  intros [_ [tail Ht] _ [Hm _] _]. unfold data. rewrite Ht.
  pose proof (len_concat_enc 12 enc len_time_enc es) as Hl. rewrite take_app_ge by (unfold len in *; lia).
  by eexists.
Qed.

Lemma read_time_entry fs s es1 e es2 :
  repr fs s (es1 ++ e :: es2) ->
  getUint64 (data fs s) (len es1 * 12) = Ok (u64 (timestampMs e)) /\
  getUint32 (data fs s) (len es1 * 12 + 8) = Ok (u32 (relativeOffset e)).
Proof.
  intros Hr. pose proof (time_data_holds _ _ _ Hr) as Hd. destruct (time_enc_split e) as [E1 E2].
  pose proof (holds_slice 12 enc len_time_enc _ _ _ _ 0 8 Hd) as S1.
  pose proof (holds_slice 12 enc len_time_enc _ _ _ _ 8 12 Hd) as S2.
  rewrite E1 in S1. rewrite E2 in S2. unfold getUint32, getUint64. split.
  - replace (len es1 * 12) with (12 * len es1 + 0) by lia.
    replace (12 * len es1 + 0 + 8) with (12 * len es1 + 8) by lia. rewrite S1 by lia. simpl.
    rewrite be_Z_8. unfold u64. by rewrite Z.mod_mod.
  - replace (len es1 * 12 + 8) with (12 * len es1 + 8) by lia.
    replace (12 * len es1 + 8 + 4) with (12 * len es1 + 12) by lia. rewrite S2 by lia. simpl.
    rewrite be_Z_4. unfold u32. by rewrite Z.mod_mod.
Qed.

Lemma read_timestamp fs s es i :
  repr fs s es -> 0 <= i < len es ->
  exists e, es !! Z.to_nat i = Some e /\ getUint64 (data fs s) (i * 12) = Ok (u64 (timestampMs e)) /\
    getUint32 (data fs s) (i * 12 + 8) = Ok (u32 (relativeOffset e)) /\ entry_ok e.
Proof.
  intros Hr Hi. destruct (index_is_Ok es i Hi) as (e & He & _). exists e.
  pose proof (Forall_lookup_1 _ _ _ _ (repr_ok _ _ _ Hr) He) as Hok.
  pose proof (take_drop_middle _ _ _ He) as Hsplit. rewrite <- Hsplit in Hr.
  assert (len (take (Z.to_nat i) es) = i) as Hlen by (unfold len in *; rewrite length_take; lia).
  pose proof (read_time_entry _ _ _ _ _ Hr) as Hread. rewrite Hlen in Hread.
  by destruct Hread.
Qed.

(** The offset of the first entry at or after [t]. *)
Definition ceil_offset (es : list timeEntry) (t : Z) : option Z :=
  relativeOffset <$> head (filter (fun e => t <= timestampMs e) es).

Definition time_sorted (es : list timeEntry) : Prop :=
  StronglySorted (fun e1 e2 => timestampMs e1 <= timestampMs e2) es.

Lemma TimeLookup_repr fs s es t :
  repr fs s es -> time_sorted es ->
  Lookup fs s t = Ok (match ceil_offset es t with Some p => (p, true) | None => (0, false) end).
Proof.
  intros Hr Hs. destruct (sorted_split timestampMs es (t - 1) Hs) as (l1 & l2 & -> & H1 & H2).
  unfold ceil_offset.
  rewrite filter_app_split_r by (eapply Forall_impl; [eassumption|simpl; lia]). unfold Lookup. rewrite (repr_count _ _ _ Hr).
  destruct (Z.eqb_spec (len (l1 ++ l2)) 0) as [E|E].
  { destruct l2; [done|]. len_lia. }
  rewrite (ceil_search_spec (len (l1 ++ l2)) (len l1)); [| |len_lia|len_lia| |len_lia].
  - cbn [mbind outcome_bind]. destruct l2 as [|e l2].
    { rewrite app_nil_r. by rewrite decide_False by lia. }
    rewrite decide_True by len_lia. rewrite (proj2 (Z.ltb_ge _ _)) by len_lia.
    rewrite (proj2 (read_time_entry _ _ _ _ _ Hr)). cbn [mbind outcome_bind head fmap option_fmap option_map].
    rewrite i32_u32, i32_id; [done|]. pose proof (repr_ok _ _ _ Hr) as Hok.
    rewrite Forall_app, Forall_cons in Hok. apply Hok.
  - intros i Hi. destruct (read_timestamp _ _ _ _ Hr Hi) as (e & He & -> & _ & Hok).
    cbn [mbind outcome_bind]. rewrite i64_u64, i64_id by apply Hok. f_equal.
    destruct (Z.leb_spec (len l1) i) as [Hge|Hlt].
    + rewrite lookup_app_r in He by (unfold len in *; lia).
      apply Z.leb_le. pose proof (Forall_lookup_1 _ _ _ _ H2 He). simpl in *. lia.
    + rewrite lookup_app_l in He by (unfold len in *; lia).
      apply Z.leb_gt. pose proof (Forall_lookup_1 _ _ _ _ H1 He). simpl in *. lia.
  - rewrite decide_False by lia. done.
Qed.

(** On entries in any order the search ends, at an entry that passes or nowhere. *)
Lemma ceil_search_total n (test : Z -> outcome bool) fuel lo hi result :
  (forall i, 0 <= i < n -> exists b, test i = Ok b) -> 0 <= lo -> lo - 1 <= hi < n -> hi - lo + 1 < Z.of_nat fuel ->
  exists r, ceil_search fuel test lo hi result = Ok r /\ (r = result \/ (0 <= r < n /\ test r = Ok true)).
Proof.
  intros Ht. revert lo hi result. induction fuel as [|fuel IH]; intros lo hi result Hlo Hhi Hf.
  { exfalso. lia. }
  cbn [ceil_search]. destruct (Z.leb_spec lo hi); [|by eauto].
  pose proof (mid_range lo hi Hlo ltac:(lia)). cbv zeta. set (mid := Z.quot _ _) in *.
  destruct (Ht mid) as [[] Hb]; [lia| |]; rewrite Hb; cbn [mbind outcome_bind].
  - destruct (IH lo (mid - 1) mid) as (r & -> & Hr); [lia..|]. exists r. split; [done|].
    destruct Hr as [->|Hr]; right; [split; [lia|done]|done].
  - destruct (IH (mid + 1) hi result) as (r & -> & Hr); [lia..|]. by exists r.
Qed.

Lemma TimeLookup_total fs s es t :
  repr fs s es ->
  Lookup fs s t = Ok (0, false) \/
  exists e, e ∈ es /\ t <= timestampMs e /\ Lookup fs s t = Ok (relativeOffset e, true).
Proof.
  intros Hr. unfold Lookup. rewrite (repr_count _ _ _ Hr). pose proof (len_nonneg es).
  destruct (Z.eqb_spec (len es) 0); [by left|].
  set (test := fun mid => v ← getUint64 (data fs s) (mid * 12); Ok (t <=? i64 v)).
  destruct (ceil_search_total (len es) test (S (Z.to_nat (len es))) 0 (len es - 1) (-1))
    as (r & -> & [->|[Hi Hr']]); [|lia|lia|lia|by left|].
  - intros i Hi. destruct (read_timestamp _ _ _ _ Hr Hi) as (e & _ & E & _). unfold test. rewrite E.
    cbn [mbind outcome_bind]. eauto.
  - right. destruct (read_timestamp _ _ _ _ Hr Hi) as (e & He & E1 & E2 & Hok1 & Hok2). exists e.
    cbn [mbind outcome_bind]. rewrite (proj2 (Z.ltb_ge _ _)), E2 by lia. cbn [mbind outcome_bind].
    rewrite i32_u32, i32_id by done. split; [by eapply list_elem_of_lookup_2|]. split; [|done].
    unfold test in Hr'. rewrite E1 in Hr'. cbn [mbind outcome_bind] in Hr'.
    rewrite i64_u64, i64_id in Hr' by done. apply Ok_inj, Z.leb_le in Hr'. done.
Qed.

Lemma put_time_entry_eq fs s off e :
  0 <= off -> off + 12 <= ti_mapped s -> ti_mapped s <= len (contents fs (ti_file s)) ->
  put_entry fs s off (timestampMs e) (relativeOffset e) =
  Ok (<[ti_file s := splice (contents fs (ti_file s)) off (enc e)]> fs).
Proof.
  intros Ho Hm Hl. unfold put_entry. rewrite (proj2 (Z.ltb_ge _ _)) by lia. unfold putUint64, putUint32.
  rewrite store_Ok by (rewrite ?len_be_bytes; lia). cbn [mbind outcome_bind].
  rewrite store_Ok by (rewrite ?len_splice; rewrite ?len_be_bytes; lia). cbn [mbind outcome_bind].
  by rewrite splice_splice by (rewrite ?len_be_bytes; lia).
Qed.

(** Appending to an index with room adds the entry at the end. *)
Lemma TimeAppend_repr fs s es e :
  repr fs s es -> entry_ok e -> len es < ti_maxEntries s ->
  exists fs', Append fs s (timestampMs e) (relativeOffset e) = Ok (fs', set_count s (len es + 1)) /\
    frame {[ti_file s]} fs fs' /\ repr fs' (set_count s (len es + 1)) (es ++ [e]).
Proof.
  intros [Hc Hd Hok Hm Hr] He Hlt. unfold Append. rewrite Hc.
  rewrite (proj2 (Z.leb_gt _ _)) by lia. pose proof (len_nonneg es).
  rewrite put_time_entry_eq by lia. cbn [mbind outcome_bind]. eexists. split; [done|].
  split; [apply frame_insert|].
  constructor; cbn [set_count ti_entryCount ti_file ti_mapped ti_maxEntries].
  - len_lia.
  - rewrite contents_insert, Z.mul_comm. apply (holds_splice 12 enc len_time_enc); [done|lia].
  - by apply Forall_app_2; [|constructor].
  - rewrite contents_insert, len_splice by (rewrite ?len_time_enc; lia). len_lia.
  - done.
Qed.

(** A full index refuses the entry. *)
Lemma TimeAppend_full fs s r p : ti_maxEntries s <= ti_entryCount s -> Append fs s r p = Err ErrIndexFull.
Proof. intros H. unfold Append. by rewrite (proj2 (Z.leb_le _ _)). Qed.

Lemma TimeRebuild_loop_holds fs s es0 es :
  holds enc (contents fs (ti_file s)) es0 ->
  12 * (len es0 + len es) <= ti_mapped s -> ti_mapped s <= len (contents fs (ti_file s)) ->
  exists fs', Rebuild_loop fs s (len es0) es = Ok fs' /\ frame {[ti_file s]} fs fs' /\
    holds enc (contents fs' (ti_file s)) (es0 ++ es) /\
    len (contents fs' (ti_file s)) = len (contents fs (ti_file s)).
Proof.
  revert fs es0. induction es as [|e es IH]; intros fs es0 Hd Hm Hl; cbn [Rebuild_loop].
  - exists fs. rewrite app_nil_r. auto with frame.
  - rewrite len_cons in Hm. pose proof (len_nonneg es0). pose proof (len_nonneg es).
    rewrite put_time_entry_eq by lia. cbn [mbind outcome_bind].
    replace (len es0 + 1) with (len (es0 ++ [e])) by len_lia.
    destruct (IH (<[ti_file s := splice (contents fs (ti_file s)) (len es0 * 12) (enc e)]> fs) (es0 ++ [e]))
      as (fs' & -> & Hf & Hh & Hlen);
      rewrite ?contents_insert, ?len_splice in * by (rewrite ?len_time_enc; lia); [| |lia|].
    + rewrite Z.mul_comm. apply (holds_splice 12 enc len_time_enc); [done|lia].
    + len_lia.
    + exists fs'. rewrite <- app_assoc in Hh. split; [done|]. split; [|done].
      eapply frame_trans; [apply frame_insert|done].
Qed.

(** [Rebuild] makes the index hold exactly the given entries, whatever it held. *)
Lemma TimeRebuild_repr fs s es :
  ti_mapped s <= len (contents fs (ti_file s)) -> 12 * ti_maxEntries s <= ti_mapped s ->
  12 * len es <= ti_mapped s -> Forall entry_ok es ->
  exists fs', Rebuild fs s es = Ok (fs', set_count s (len es)) /\ frame {[ti_file s]} fs fs' /\
    repr fs' (set_count s (len es)) es.
Proof.
  intros Hl Hr Hm Hok. destruct (TimeRebuild_loop_holds fs s [] es) as (fs' & E & Hf & Hd & Hlen).
  - by eexists.
  - len_lia.
  - done.
  - exists fs'. unfold Rebuild. change 0 with (len (@nil timeEntry)). rewrite E.
    split; [done|]. split; [done|].
    by constructor; cbn [set_count ti_entryCount ti_file ti_mapped ti_maxEntries]; try lia.
Qed.

(** Opening a missing file creates an empty index. *)
Lemma OpenTimeIndex_fresh fs path base segMax sample :
  0 < segMax -> 0 < sample -> fs !! path = None ->
  exists fs' s, OpenTimeIndex fs path base segMax sample = Ok (fs', s) /\
    frame {[path]} fs fs' /\ repr fs' s [] /\ ti_file s = path /\ segMax <= ti_maxEntries s * sample.
Proof.
  intros Hs Hp Hn. unfold OpenTimeIndex.
  assert (contents fs path = []) as -> by (unfold contents; by rewrite Hn).
  destruct (index_geometry_ok 12 segMax sample) as (m & a & -> & H1 & H2 & H3); [lia..|].
  cbn [mbind outcome_bind]. rewrite (proj2 (Z.leb_gt a 0)) by lia.
  rewrite (proj2 (Z.ltb_lt (len []) a)) by (rewrite len_nil; lia).
  do 2 eexists. split; [done|]. split; [apply frame_insert|]. split; [|done].
  constructor; cbn [ti_entryCount ti_file ti_mapped ti_maxEntries]; [done| |done| |lia].
  - by eexists.
  - rewrite contents_insert. unfold preallocateIndex. rewrite len_truncate by lia. len_lia.
Qed.

(** Sealing leaves exactly the entries in the file, and closes the index to appends. *)
Lemma TimeSeal_repr fs s es fs' s' :
  repr fs s es -> Seal fs s = (fs', s') ->
  frame {[ti_file s]} fs fs' /\ repr fs' s' es /\ ti_file s' = ti_file s /\
  contents fs' (ti_file s) = concat (enc <$> es) /\ fs' !! ti_file s <> None /\
  ti_maxEntries s' = ti_entryCount s'.
Proof.
  intros [Hc Hd Hok Hm Hr] [= <- <-]. pose proof (len_nonneg es). pose proof (len_concat_enc 12 enc len_time_enc es).
  cbn [ti_entryCount ti_file ti_mapped ti_maxEntries].
  assert (truncate_bytes (contents fs (ti_file s)) (ti_entryCount s * 12) = concat (enc <$> es)) as Ht.
  { rewrite Hc, truncate_bytes_le, Z.mul_comm by lia. by apply (holds_prefix 12 enc len_time_enc). }
  rewrite contents_insert, lookup_insert_eq, Ht. split; [apply frame_insert|].
  split; [|done].
  constructor; cbn [ti_entryCount ti_file ti_mapped ti_maxEntries]; rewrite ?contents_insert; try done; try lia.
  exists []. by rewrite app_nil_r.
Qed.

(** Opening a sealed file read-only gives back the entries that were sealed. *)
Lemma openTimeIndexReadOnly_repr fs path base es :
  fs !! path = Some (concat (enc <$> es)) -> Forall entry_ok es ->
  exists s, openTimeIndexReadOnly fs path base = Ok s /\ repr fs s es /\ ti_file s = path.
Proof.
  intros Hf Hok. unfold openTimeIndexReadOnly. rewrite Hf. eexists. split; [done|]. split; [|done].
  pose proof (len_concat_enc 12 enc len_time_enc es) as Hl. pose proof (len_nonneg es).
  assert (Z.quot (len (concat (enc <$> es))) 12 = len es) as Hq
    by (rewrite Hl, Z.mul_comm; by apply Z.quot_mul).
  constructor; cbn [ti_entryCount ti_file ti_mapped ti_maxEntries]; unfold contents; rewrite ?Hf, ?Hq; simpl;
    try done; try lia.
  exists []. by rewrite app_nil_r.
Qed.

End TimeIdx.
