(* ===== verification/BatchLog.v ===== *)
(** * Logs as sequences of batches

    The storage layer never decodes records: it reads the fixed header fields of a batch
    (base offset [0:8], length [8:12], record count [12:16], CRC [16:20], base timestamp
    [22:30], max timestamp [30:38]) and copies the bytes. This file is the abstract
    side of the storage refinement: a log is a list of such byte strings with consecutive
    offsets, and [fetch] says what a read of it returns. *)

From S2P Require Import Prelude Hash Batch LogSegment.
Local Open Scope Z_scope.

Module BatchLog.

Definition batch_base (b : list byte) : Z := i64 (be_Z (sub b 0 8)).
Definition batch_count (b : list byte) : Z := be_Z (sub b 12 16).
Definition batch_crc (b : list byte) : Z := be_Z (sub b 16 20).
Definition batch_base_ts (b : list byte) : Z := i64 (be_Z (sub b 22 30)).
Definition batch_max_ts (b : list byte) : Z := i64 (be_Z (sub b 30 38)).
Definition batch_end (b : list byte) : Z := batch_base b + batch_count b.

(** Bound on the size of one batch; the data API refuses batches over 4 MiB. With the bound on [SegmentMaxBytes] it keeps positions and relative offsets
    within int32. *)
Definition maxBatchBytes : Z := 2 ^ 29.

Definition crc_ok (b : list byte) : Prop :=
  batch_crc b = Crc32.Checksum (sub b 38 (len b)) Crc32.crcTable.

(** A batch as a producer encodes it ([EncodeBatch_wf]): framed, with a header, at least one
    record and no more records than bytes after the header, and a valid checksum. *)
Definition wf_batch (b : list byte) : Prop :=
  LogSeg.framed b /\ 38 <= len b <= maxBatchBytes /\ 1 <= batch_count b <= len b - 38 /\ crc_ok b.

#[export] Instance crc_ok_dec b : Decision (crc_ok b).
Proof. unfold crc_ok. apply _. Defined.
#[export] Instance framed_dec b : Decision (LogSeg.framed b).
Proof. unfold LogSeg.framed. apply _. Defined.
#[export] Instance wf_batch_dec b : Decision (wf_batch b).
Proof. unfold wf_batch. apply _. Defined.

(** Batches with consecutive offsets from [off]. *)
Fixpoint chain (off : Z) (bs : list (list byte)) : Prop :=
  match bs with
  | [] => True
  | b :: bs' => wf_batch b /\ batch_base b = off /\ chain (off + batch_count b) bs'
  end.

(** The offset after the last batch. *)
Fixpoint end_off (off : Z) (bs : list (list byte)) : Z :=
  match bs with
  | [] => off
  | b :: bs' => end_off (off + batch_count b) bs'
  end.

(** ** What a read returns *)

(** The longest prefix that fits in [budget] bytes. *)
Fixpoint fit (budget : Z) (bs : list (list byte)) : list (list byte) :=
  match bs with
  | [] => []
  | b :: bs' => if len b <=? budget then b :: fit (budget - len b) bs' else []
  end.

(** Batches that end after [offset]. *)
Definition visible (offset : Z) (bs : list (list byte)) : list (list byte) :=
  filter (fun b => offset < batch_end b) bs.

(** The batches a read of at most [maxBytes] starting at [offset] returns: always the first
    visible one, then as many as fit. *)
Definition fetched (bs : list (list byte)) (offset maxBytes : Z) : list (list byte) :=
  match visible offset bs with
  | [] => []
  | b :: rest => b :: fit (maxBytes - len b) rest
  end.

Definition fetch (bs : list (list byte)) (offset maxBytes : Z) : list byte * Z :=
  let taken := fetched bs offset maxBytes in
  (concat taken, default offset (batch_end <$> last taken)).

(** ** Header fields *)

Lemma batch_count_range b : 0 <= batch_count b.
Proof. apply be_Z_range. Qed.

Lemma get_base b : 8 <= len b -> getUint64 b 0 = Ok (be_Z (sub b 0 8)).
Proof. intros. unfold getUint64. by rewrite slice_Ok by lia. Qed.
Lemma get_len b : 12 <= len b -> getUint32 b 8 = Ok (be_Z (sub b 8 12)).
Proof. intros. unfold getUint32. by rewrite slice_Ok by lia. Qed.
Lemma get_count b : 16 <= len b -> getUint32 b 12 = Ok (batch_count b).
Proof. intros. unfold getUint32. by rewrite slice_Ok by lia. Qed.
Lemma get_crc b : 20 <= len b -> getUint32 b 16 = Ok (batch_crc b).
Proof. intros. unfold getUint32. by rewrite slice_Ok by lia. Qed.
Lemma get_base_ts b : 30 <= len b -> getUint64 b 22 = Ok (be_Z (sub b 22 30)).
Proof. intros. unfold getUint64. by rewrite slice_Ok by lia. Qed.
Lemma get_max_ts b : 38 <= len b -> getUint64 b 30 = Ok (be_Z (sub b 30 38)).
Proof. intros. unfold getUint64. by rewrite slice_Ok by lia. Qed.

Lemma wf_len b : wf_batch b -> 38 <= len b <= maxBatchBytes.
Proof. by intros (_ & ? & _). Qed.

(** ** Writing the base offset *)

Lemma len_withBase b off : 8 <= len b -> len (Batch.withBaseOffset b off) = len b.
Proof. intros. apply len_splice; [lia|]. by rewrite len_be_bytes. Qed.

Lemma withBase_split b off : 8 <= len b -> Batch.withBaseOffset b off = be_bytes 8 (u64 off) ++ drop 8 b.
Proof. intros. unfold Batch.withBaseOffset, splice. by rewrite length_be_bytes. Qed.

Lemma sub_withBase b off i j :
  8 <= len b -> 8 <= i -> i <= j -> j <= len b -> sub (Batch.withBaseOffset b off) i j = sub b i j.
Proof.
  intros. rewrite withBase_split by done. rewrite sub_app_r by (rewrite ?len_be_bytes; lia).
  rewrite len_be_bytes. unfold sub. rewrite drop_drop. f_equal; [lia|]. f_equal. lia.
Qed.

Lemma withBase_base b off : 8 <= len b -> in_i64 off -> batch_base (Batch.withBaseOffset b off) = off.
Proof.
  intros Hb Ho. unfold batch_base. rewrite withBase_split by done.
  rewrite sub_app_l by (rewrite ?len_be_bytes; lia).
  change 8 with (len (be_bytes 8 (u64 off))) at 1. rewrite sub_all.
  rewrite be_Z_8, i64_u64. rewrite i64_u64. by apply i64_id.
Qed.

Lemma withBase_wf_iff b off : 38 <= len b -> wf_batch (Batch.withBaseOffset b off) <-> wf_batch b.
Proof.
  intros Hl. unfold wf_batch, LogSeg.framed, batch_count, crc_ok, batch_crc.
  rewrite len_withBase by lia. by rewrite !sub_withBase by lia.
Qed.

Lemma withBase_wf b off : wf_batch b -> wf_batch (Batch.withBaseOffset b off).
Proof. intros Hwf. pose proof (wf_len _ Hwf). by apply withBase_wf_iff; [lia|]. Qed.

Lemma withBase_count b off : 38 <= len b -> batch_count (Batch.withBaseOffset b off) = batch_count b.
Proof. intros. unfold batch_count. by rewrite sub_withBase by lia. Qed.

Lemma withBase_idem b o1 o2 :
  8 <= len b -> Batch.withBaseOffset (Batch.withBaseOffset b o1) o2 = Batch.withBaseOffset b o2.
Proof.
  intros. rewrite (withBase_split (Batch.withBaseOffset b o1)) by (by rewrite len_withBase).
  rewrite !withBase_split by done. done.
Qed.

(** Reading a field of an encoded header. *)
Ltac header_field :=
  unfold Batch.encodeHeader; rewrite <- !app_assoc;
  repeat (rewrite sub_app_r by (rewrite ?len_be_bytes; lia); rewrite len_be_bytes);
  rewrite sub_app_l by (rewrite ?len_be_bytes; lia).

Lemma header_fields h rest :
  sub (Batch.encodeHeader h ++ rest) 8 12 = be_bytes 4 (u32 (Batch.BatchLength h)) /\
  sub (Batch.encodeHeader h ++ rest) 12 16 = be_bytes 4 (u32 (Batch.RecordCount h)) /\
  sub (Batch.encodeHeader h ++ rest) 16 20 = be_bytes 4 (Batch.CRC32 h).
Proof.
  split_and!; header_field; match goal with |- sub ?l _ _ = _ => exact (sub_all l) end.
Qed.

(** What [EncodeBatch] produces is well formed. *)
Lemma EncodeBatch_wf records enc :
  Batch.EncodeBatch records = Ok enc -> len enc <= maxBatchBytes -> wf_batch enc.
Proof.
  intros He Hl. unfold maxBatchBytes in *.
  destruct (Batch.EncodeBatch_shape _ _ 0 He ltac:(lia)) as (r0 & recs & -> & Hlen & Hsub & Hw). cbv zeta in *.
  set (buf := Batch.recordsBytes _ _ _) in *. set (h := Batch.encodedHeader _ _ _ _) in *.
  pose proof (Batch.recordsBytes_count (r0 :: recs) (Batch.TimestampMs r0) 0) as Hc. fold buf in Hc.
  apply (withBase_wf_iff enc 0); [len_lia|]. rewrite Hw.
  destruct (header_fields h buf) as (F1 & F2 & F3). pose proof (Crc32.Checksum_range buf) as Hr.
  unfold wf_batch, LogSeg.framed, crc_ok, batch_crc, batch_count, maxBatchBytes.
  rewrite F1, F2, F3, !be_Z_4. rewrite (sub_tail _ buf 38) by (rewrite ?len_app, Batch.len_encodeHeader; lia).
  rewrite len_app, Batch.len_encodeHeader.
  cbn [h Batch.encodedHeader Batch.BatchLength Batch.RecordCount Batch.CRC32].
  assert (1 <= len (r0 :: recs)) by (rewrite len_cons; pose proof (len_nonneg recs); lia).
  rewrite !(u32_id (u32 _)) by apply u32_range. rewrite !u32_id by (done || (unfold in_u32; lia)). lia.
Qed.

(** ** Chains *)

Lemma chain_app off bs1 bs2 : chain off (bs1 ++ bs2) <-> chain off bs1 /\ chain (end_off off bs1) bs2.
Proof.
  revert off. induction bs1 as [|b bs1 IH]; intros off; simpl; [tauto|]. rewrite IH. tauto.
Qed.

Lemma end_off_app off bs1 bs2 : end_off off (bs1 ++ bs2) = end_off (end_off off bs1) bs2.
Proof. revert off. induction bs1 as [|b bs1 IH]; intros off; simpl; [done|]. apply IH. Qed.

Lemma end_off_mono off bs : off <= end_off off bs.
Proof.
  revert off. induction bs as [|b bs IH]; intros off; simpl; [lia|].
  specialize (IH (off + batch_count b)). pose proof (batch_count_range b). lia.
Qed.

Lemma chain_wf off bs : chain off bs -> Forall wf_batch bs.
Proof. revert off. induction bs as [|b bs IH]; intros off; simpl; [done|]. intros (?&?&?). constructor; eauto. Qed.

Lemma chain_framed off bs : chain off bs -> Forall LogSeg.framed bs.
Proof. intros H%chain_wf. eapply Forall_impl; [exact H|]. by intros b []. Qed.

(** Offsets advance no faster than bytes. *)
Lemma chain_end_bound off bs : chain off bs -> end_off off bs <= off + len (concat bs).
Proof.
  revert off. induction bs as [|b bs IH]; intros off; simpl; [intros; len_lia|].
  intros ((_ & _ & Hc & _) & _ & Hch). specialize (IH _ Hch). len_lia.
Qed.

(** Every batch of a chain lies between its ends. *)
Lemma chain_ends off bs b :
  chain off bs -> b ∈ bs -> off <= batch_base b /\ batch_end b <= end_off off bs.
Proof.
  revert off. induction bs as [|b' bs IH]; intros off Hc Hb; [by apply not_elem_of_nil in Hb|].
  destruct Hc as (_ & <- & Hc). pose proof (batch_count_range b'). apply elem_of_cons in Hb as [->|Hb].
  - simpl. split; [lia|]. apply end_off_mono.
  - specialize (IH _ Hc Hb). simpl. lia.
Qed.

Lemma chain_last_end off bs b : chain off (bs ++ [b]) -> batch_end b = end_off off (bs ++ [b]).
Proof.
  intros Hc. rewrite end_off_app. apply chain_app in Hc as [_ (_ & <- & _)]. done.
Qed.

(** ** Visible batches *)

Lemma visible_skip off pre post offset :
  chain off pre -> end_off off pre <= offset -> visible offset (pre ++ post) = visible offset post.
Proof.
  intros Hc He. unfold visible. rewrite filter_app.
  enough (filter (fun b => offset < batch_end b) pre = []) as -> by done.
  apply filter_none, Forall_forall. intros b Hb. pose proof (chain_ends _ _ _ Hc Hb). lia.
Qed.
(** In a chain the visible batches are a suffix. *)
Lemma visible_suffix off bs offset :
  chain off bs -> exists pre, bs = pre ++ visible offset bs /\ Forall (fun b => batch_end b <= offset) pre.
Proof.
  revert off. induction bs as [|b bs IH]; intros off Hc; [by exists []|].
  destruct Hc as (_ & Hb & Hc). unfold visible. destruct (decide (offset < batch_end b)) as [Hlt|Hge].
  - exists []. split; [|done]. rewrite filter_cons_True by done. cbn [app]. f_equal. symmetry.
    apply filter_all, Forall_forall. intros b' Hb'. pose proof (chain_ends _ _ _ Hc Hb').
    unfold batch_end in *. pose proof (batch_count_range b'). lia.
  - destruct (IH _ Hc) as (pre & E & Hp). exists (b :: pre). rewrite filter_cons_False by done.
    cbn [app]. split; [by f_equal|]. constructor; [lia|done].
Qed.

(** ** What a read returns, in terms of the log *)

Lemma fit_prefix budget bs :
  exists post, bs = fit budget bs ++ post /\ (fit budget bs = [] \/ len (concat (fit budget bs)) <= budget).
Proof.
  revert budget. induction bs as [|b bs IH]; intros budget; [exists []; auto|]. cbn [fit].
  destruct (Z.leb_spec (len b) budget); [|exists (b :: bs); auto].
  destruct (IH (budget - len b)) as (post & E & H'). exists post. cbn [app]. rewrite <- E. split; [done|].
  right. cbn [concat]. rewrite len_app. destruct H' as [->|H']; [cbn; len_lia|lia].
Qed.

(** The batches returned are consecutive, the first one holds [offset], and together they fit
    unless it is alone. *)
Lemma fetched_spec off bs offset maxBytes :
  chain off bs -> off <= offset < end_off off bs ->
  exists pre b rest post, bs = pre ++ (b :: rest) ++ post /\ fetched bs offset maxBytes = b :: rest /\
    Forall (fun b => batch_end b <= offset) pre /\ batch_base b <= offset < batch_end b /\
    (rest = [] \/ len (concat (b :: rest)) <= maxBytes).
Proof.
  intros Hc [Hlo Hhi]. destruct (visible_suffix off bs offset Hc) as (pre & E & Hpre). unfold fetched.
  destruct (visible offset bs) as [|b rest] eqn:Ev.
  { exfalso. rewrite app_nil_r in E. subst pre. destruct bs as [|b bs _] using rev_ind; [cbn in Hhi; lia|].
    rewrite <- (chain_last_end _ _ _ Hc) in Hhi. apply Forall_app in Hpre as [_ Hb].
    rewrite Forall_singleton in Hb. lia. }
  destruct (fit_prefix (maxBytes - len b) rest) as (post & Er & Hfit).
  exists pre, b, (fit (maxBytes - len b) rest), post. cbn [app]. rewrite <- Er. split_and!; try done.
  - assert (end_off off pre <= offset) as Hp.
    { destruct pre as [|p pre _] using rev_ind; [done|]. rewrite E in Hc. apply chain_app in Hc as [Hc _].
      rewrite <- (chain_last_end _ _ _ Hc). apply Forall_app in Hpre as [_ Hp]. by rewrite Forall_singleton in Hp. }
    rewrite E in Hc. apply chain_app in Hc as [_ (_ & Hb & _)]. lia.
  - assert (b ∈ visible offset bs) as Hin by (rewrite Ev; apply elem_of_cons; auto).
    by apply list_elem_of_filter in Hin as [? _].
  - destruct Hfit as [->|Hfit]; [auto|]. right. cbn [concat]. rewrite len_app. lia.
Qed.

End BatchLog.
