(* ===== verification/Segment.v ===== *)
(** * One segment: log, offset index and time index

    internal/storage/segment_storage.go. [seg_ok] relates a segment to the list of batches
    it holds: the log file is their concatenation and the two indexes hold exactly the
    entries that sampling the batches gives. [Append] preserves it and cannot find an index
    full, sealing and reopening preserve it, and [Read] returns [BatchLog.fetch]. *)

From S2P Require Import Prelude Batch SegName LogSegment BinSearch OffsetIndex TimeIndex BatchLog.
Local Open Scope Z_scope.

(** [config.StorageConfig]. *)
Record StorageConfig := {
  SegmentMaxBytes : Z;
  IndexSampleBytes : Z;
  RetentionCheckIntervalMs : Z;
  DefaultRetentionMs : Z;
  DefaultRetentionBytes : Z
}.

Module Seg.
Import LogSeg OffsetIdx TimeIdx SegName BatchLog.

Definition sErrTimestampNotFound : sentinel := Sentinel "storage" "ErrTimestampNotFound".
Definition ErrTimestampNotFound : error := ErrSentinel sErrTimestampNotFound.

Record SegmentStorage := {
  log : LogSegment;
  offsetIdx : OffsetIndexSegment;
  timeIdx : TimeIndexSegment;
  baseOffset : Z;
  sealed : bool;
  bytesSinceLastIndex : Z
}.

Definition set_log (s : SegmentStorage) (l : LogSegment) : SegmentStorage :=
  {| log := l; offsetIdx := offsetIdx s; timeIdx := timeIdx s; baseOffset := baseOffset s;
     sealed := sealed s; bytesSinceLastIndex := bytesSinceLastIndex s |}.
Definition set_offsetIdx (s : SegmentStorage) (o : OffsetIndexSegment) : SegmentStorage :=
  {| log := log s; offsetIdx := o; timeIdx := timeIdx s; baseOffset := baseOffset s;
     sealed := sealed s; bytesSinceLastIndex := bytesSinceLastIndex s |}.
Definition set_timeIdx (s : SegmentStorage) (t : TimeIndexSegment) : SegmentStorage :=
  {| log := log s; offsetIdx := offsetIdx s; timeIdx := t; baseOffset := baseOffset s;
     sealed := sealed s; bytesSinceLastIndex := bytesSinceLastIndex s |}.
Definition set_sealed (s : SegmentStorage) (b : bool) : SegmentStorage :=
  {| log := log s; offsetIdx := offsetIdx s; timeIdx := timeIdx s; baseOffset := baseOffset s;
     sealed := b; bytesSinceLastIndex := bytesSinceLastIndex s |}.
Definition set_since (s : SegmentStorage) (n : Z) : SegmentStorage :=
  {| log := log s; offsetIdx := offsetIdx s; timeIdx := timeIdx s; baseOffset := baseOffset s;
     sealed := sealed s; bytesSinceLastIndex := n |}.

Definition NewSegmentStorage (fs : files) (base : Z) (cfg : StorageConfig)
  : outcome (files * SegmentStorage) :=
  '(fs, log) ← OpenLogSegment fs (logName base) base true;
  '(fs, offsetIdx) ← OpenOffsetIndex fs (indexName base) base (SegmentMaxBytes cfg) (IndexSampleBytes cfg);
  '(fs, timeIdx) ← OpenTimeIndex fs (timeName base) base (SegmentMaxBytes cfg) (IndexSampleBytes cfg);
  Ok (fs, {| log := log; offsetIdx := offsetIdx; timeIdx := timeIdx; baseOffset := base;
             sealed := false; bytesSinceLastIndex := 0 |}).

Definition OpenSegmentStorage (fs : files) (base : Z) (cfg : StorageConfig) (readonly : bool)
  : outcome (files * SegmentStorage) :=
  '(fs, log) ← OpenLogSegment fs (logName base) base (negb readonly);
  '(fs, offsetIdx, timeIdx) ←
    (if readonly then
       offsetIdx ← openOffsetIndexReadOnly fs (indexName base) base;
       timeIdx ← openTimeIndexReadOnly fs (timeName base) base;
       Ok (fs, offsetIdx, timeIdx)
     else
       '(fs, offsetIdx) ← OpenOffsetIndex fs (indexName base) base (SegmentMaxBytes cfg) (IndexSampleBytes cfg);
       '(fs, timeIdx) ← OpenTimeIndex fs (timeName base) base (SegmentMaxBytes cfg) (IndexSampleBytes cfg);
       Ok (fs, offsetIdx, timeIdx));
  Ok (fs, {| log := log; offsetIdx := offsetIdx; timeIdx := timeIdx; baseOffset := base;
             sealed := readonly; bytesSinceLastIndex := 0 |}).

(** What is left of [m] when it does not return a value. *)
Definition failure {A B} (m : outcome A) : outcome B :=
  match m with Ok _ | OutOfFuel => OutOfFuel | Err e => Err e | Panic p => Panic p end.

(** [Append]: the state after the call is returned also when the call fails, because the log
    write is not undone when an index append fails. *)
Definition Append (cfg : StorageConfig) (fs : files) (s : SegmentStorage) (batch : list byte)
  : files * SegmentStorage * outcome Z :=
  match LogSeg.Append fs (log s) batch with
  | Ok (fs, l, startPos) =>
      let s := set_log s l in
      match (v ← getUint64 batch 0; m ← getUint64 batch 30; Ok (i64 v, i64 m)) with
      | Ok (batchBaseOffset, maxTimestamp) =>
          let relativeOffset := i32 (batchBaseOffset - baseOffset s) in
          if IndexSampleBytes cfg <=? bytesSinceLastIndex s then
            match OffsetIdx.Append fs (offsetIdx s) relativeOffset (i32 startPos) with
            | Ok (fs, o) =>
                let s := set_offsetIdx s o in
                match TimeIdx.Append fs (timeIdx s) maxTimestamp relativeOffset with
                | Ok (fs, t) => (fs, set_since (set_timeIdx s t) 0, Ok startPos)
                | m => (fs, s, failure m)
                end
            | m => (fs, s, failure m)
            end
          else (fs, set_since s (bytesSinceLastIndex s + len batch), Ok startPos)
      | m => (fs, s, failure m)
      end
  | m => (fs, s, failure m)
  end.

(** The variables captured by [Read]'s callback. *)
Definition read_callback (offset maxBytes : Z) (st : list byte * Z) (batchBytes : list byte) (_ : Z)
  : outcome ((list byte * Z) * bool) :=
  let '(result, nextOffset) := st in
  v ← getUint64 batchBytes 0;
  recordCount ← getUint32 batchBytes 12;
  let batchBaseOffset := i64 v in
  let batchEndOffset := i64 (batchBaseOffset + recordCount) in
  if batchEndOffset <=? offset then Ok (st, true) else
  if (0 <? len result) && (maxBytes <? len result + len batchBytes) then Ok (st, false) else
  Ok ((result ++ batchBytes, batchEndOffset), true).

Definition Read (fs : files) (s : SegmentStorage) (offset maxBytes : Z) : outcome (list byte * Z) :=
  let relOffset := i32 (offset - baseOffset s) in
  '(pos, found) ← OffsetIdx.Lookup fs (offsetIdx s) relOffset;
  let scanPos := if (found : bool) then pos else 0 in
  '(st, _) ← ScanFrom fs (log s) scanPos (read_callback offset maxBytes) ([], offset);
  Ok st.

Definition ReadByTime (fs : files) (s : SegmentStorage) (timestampMs maxBytes : Z)
  : outcome (list byte * Z) :=
  '(relOffset, found) ← TimeIdx.Lookup fs (timeIdx s) timestampMs;
  if negb found then Err ErrTimestampNotFound else
  let absoluteOffset := i64 (baseOffset s + relOffset) in
  Read fs s absoluteOffset maxBytes.

Definition Seal (fs : files) (s : SegmentStorage) : files * SegmentStorage :=
  let '(fs, o) := OffsetIdx.Seal fs (offsetIdx s) in
  let '(fs, t) := TimeIdx.Seal fs (timeIdx s) in
  (fs, set_sealed (set_timeIdx (set_offsetIdx s o) t) true).

Definition LogSize (s : SegmentStorage) : Z := logSizeVal (log s).

(** ** Sampling: the index entries of a list of batches *)

Record sampling := { offEntries : list offsetEntry; tEntries : list timeEntry; bytesSince : Z }.

(** The callback of the index rebuild scans of recovery.go, which [Append] agrees with. *)
Definition sample_step (sample base : Z) (st : sampling) (batchBytes : list byte) (pos : Z)
  : outcome (sampling * bool) :=
  v ← getUint64 batchBytes 0;
  m ← getUint64 batchBytes 30;
  let relOff := i32 (i64 v - base) in
  if sample <=? bytesSince st then
    Ok ({| offEntries := offEntries st ++ [{| OffsetIdx.relativeOffset := relOff; position := i32 pos |}];
           tEntries := tEntries st ++ [{| timestampMs := i64 m; relativeOffset := relOff |}];
           bytesSince := 0 |}, true)
  else Ok ({| offEntries := offEntries st; tEntries := tEntries st;
              bytesSince := bytesSince st + len batchBytes |}, true).

Definition sampling0 : sampling := {| offEntries := []; tEntries := []; bytesSince := 0 |}.

(** The same on the abstract side: the batches that get an entry, with their positions, and
    the bytes since the last one. *)
Definition mark (sample : Z) (st : list (Z * list byte) * Z) (b : list byte) (pos : Z)
  : list (Z * list byte) * Z :=
  let '(ms, since) := st in
  if sample <=? since then (ms ++ [(pos, b)], 0) else (ms, since + len b).

Fixpoint mark_all (sample : Z) (st : list (Z * list byte) * Z) (bs : list (list byte)) (pos : Z)
  : list (Z * list byte) * Z :=
  match bs with
  | [] => st
  | b :: bs' => mark_all sample (mark sample st b pos) bs' (pos + len b)
  end.

Definition marks (sample : Z) (bs : list (list byte)) : list (Z * list byte) * Z :=
  mark_all sample ([], 0) bs 0.

Definition off_entry (base : Z) (m : Z * list byte) : offsetEntry :=
  {| OffsetIdx.relativeOffset := batch_base m.2 - base; position := m.1 |}.
Definition time_entry (base : Z) (m : Z * list byte) : timeEntry :=
  {| timestampMs := batch_max_ts m.2; relativeOffset := batch_base m.2 - base |}.

Definition sampling_of (base : Z) (st : list (Z * list byte) * Z) : sampling :=
  {| offEntries := off_entry base <$> st.1; tEntries := time_entry base <$> st.1; bytesSince := st.2 |}.

Lemma sample_step_eq sample base st b pos :
  38 <= len b -> in_i32 (batch_base b - base) -> in_i32 pos ->
  sample_step sample base (sampling_of base st) b pos = Ok (sampling_of base (mark sample st b pos), true).
Proof.
  intros Hb Hr Hp. unfold sample_step. rewrite get_base, get_max_ts by lia.
  cbn [mbind outcome_bind]. fold (batch_base b) (batch_max_ts b). rewrite !i32_id by done.
  destruct st as [ms since]. cbn [sampling_of bytesSince snd fst mark].
  destruct (sample <=? since); [|done]. unfold sampling_of. cbn [fst snd offEntries tEntries].
  by rewrite !fmap_app.
Qed.

Lemma mark_all_app sample st bs1 bs2 pos :
  mark_all sample st (bs1 ++ bs2) pos =
  mark_all sample (mark_all sample st bs1 pos) bs2 (pos + len (concat bs1)).
Proof.
  revert st pos. induction bs1 as [|b bs1 IH]; intros st pos; cbn [app mark_all concat].
  - f_equal. len_lia.
  - rewrite IH. f_equal. len_lia.
Qed.

Lemma marks_snoc sample bs b : marks sample (bs ++ [b]) = mark sample (marks sample bs) b (len (concat bs)).
Proof. unfold marks. by rewrite mark_all_app. Qed.

(** The rebuild scan computes the marks of the log. *)
Lemma sample_scan sample base off bs pos st :
  chain off bs -> 0 <= pos -> base <= off -> off - base <= pos -> pos + len (concat bs) < 2 ^ 31 ->
  scan_batches (sample_step sample base) bs pos (sampling_of base st) =
  Ok (sampling_of base (mark_all sample st bs pos)).
Proof.
  revert off pos st. induction bs as [|b bs IH]; intros off pos st Hc Hp Hb Ho Hl; [done|].
  destruct Hc as (Hwf & Hbase & Hc). cbn [scan_batches mark_all concat] in *. rewrite len_app in Hl.
  pose proof (wf_len b Hwf). pose proof (len_nonneg (concat bs)). destruct Hwf as (_ & _ & Hcnt & _).
  rewrite sample_step_eq by (unfold in_i32; lia).
  cbn [mbind outcome_bind]. pose proof (batch_count_range b). apply (IH (off + batch_count b)); [done|lia..].
Qed.

(** ** Properties of the marks *)

(** A mark is a batch of the log with its position. *)
Definition mark_of (bs : list (list byte)) (m : Z * list byte) : Prop :=
  exists pre post, bs = pre ++ m.2 :: post /\ m.1 = len (concat pre).

Lemma mark_of_app bs bs' m : mark_of bs m -> mark_of (bs ++ bs') m.
Proof. intros (pre & post & -> & Hm). exists pre, (post ++ bs'). by rewrite <- app_assoc. Qed.

Lemma marks_spec sample base bs :
  0 < sample -> chain base bs ->
  Forall (mark_of bs) (marks sample bs).1 /\
  StronglySorted (fun m1 m2 => batch_base m1.2 <= batch_base m2.2) (marks sample bs).1 /\
  0 <= (marks sample bs).2 /\
  sample * len (marks sample bs).1 + (marks sample bs).2 <= len (concat bs).
Proof.
  intros Hs. induction bs as [|b bs IH] using rev_ind; intros Hc.
  { repeat split; [constructor|constructor|done|]. unfold marks. cbn. len_lia. }
  pose proof Hc as Hc'. apply chain_app in Hc as [Hc (Hwf & Hb & _)]. destruct (IH Hc) as (H1 & H2 & H3 & H4).
  rewrite marks_snoc. destruct (marks sample bs) as [ms since] eqn:E. cbn [fst snd mark] in *.
  assert (Forall (mark_of (bs ++ [b])) ms) as H1'
    by (eapply Forall_impl; [exact H1|]; intros; by apply mark_of_app).
  rewrite concat_app, len_app. cbn [concat]. rewrite app_nil_r. pose proof (len_nonneg b).
  destruct (Z.leb_spec sample since); cbn [fst snd]; [|repeat split; [done..|lia|lia]].
  split; [|split; [|split; [lia|rewrite len_app; change (len [(len (concat bs), b)]) with 1; lia]]].
  - apply Forall_app_2; [done|]. constructor; [|done]. by exists bs, [].
  - apply StronglySorted_app_2; [|done|repeat constructor].
    intros m1 m2 Hm1 ->%list_elem_of_singleton. cbn [snd]. rewrite Hb.
    rewrite Forall_forall in H1. destruct (H1 _ Hm1) as (pre & post & -> & _).
    assert (m1.2 ∈ pre ++ m1.2 :: post) as Hin by (rewrite elem_of_app, elem_of_cons; auto).
    pose proof (chain_ends _ _ _ Hc Hin). unfold batch_end in *. pose proof (batch_count_range m1.2). lia.
Qed.

(** A log in which every batch starts below [M]. *)
Definition starts_below (M : Z) (bs : list (list byte)) : Prop :=
  forall pre b, bs = pre ++ [b] -> len (concat pre) < M.

(** In such a log the index never needs more than [M / sample] entries. *)
Lemma marks_count sample base bs M :
  0 < sample -> 0 < M -> chain base bs -> starts_below M bs -> sample * len (marks sample bs).1 < M.
Proof.
  intros Hs HM Hc Hb. destruct bs as [|b bs _] using rev_ind; [unfold marks; cbn; len_lia|].
  specialize (Hb bs b eq_refl). apply chain_app in Hc as [Hc _].
  destruct (marks_spec sample base bs Hs Hc) as (_ & _ & H3 & H4). rewrite marks_snoc.
  destruct (marks sample bs) as [ms since]. cbn [fst snd mark] in *.
  destruct (Z.leb_spec sample since); cbn [fst]; [|lia].
  rewrite len_app. change (len [_]) with 1. lia.
Qed.

(** ** The segment invariant *)

Record cfg_ok (cfg : StorageConfig) : Prop := {
  cfg_max : 0 < SegmentMaxBytes cfg <= 2 ^ 30;
  cfg_sample : 0 < IndexSampleBytes cfg
}.

Definition seg_files (base : Z) : gset string := {[logName base; indexName base; timeName base]}.

Definition off_entries cfg base bs := off_entry base <$> (marks (IndexSampleBytes cfg) bs).1.
Definition time_entries cfg base bs := time_entry base <$> (marks (IndexSampleBytes cfg) bs).1.

(** The batches of a segment: consecutive, with offsets and sizes in range. *)
Record batches_ok (base : Z) (bs : list (list byte)) : Prop := {
  bo_chain : chain base bs;
  bo_base : 0 <= base;
  bo_end : end_off base bs < 2 ^ 63;
  bo_size : len (concat bs) < 2 ^ 31
}.

(** The indexes of the segment hold the entries of the sampled batches. *)
Record indexes_ok (cfg : StorageConfig) (fs : files) (s : SegmentStorage) (bs : list (list byte)) : Prop := {
  ix_off : OffsetIdx.repr fs (offsetIdx s) (off_entries cfg (baseOffset s) bs);
  ix_off_file : oi_file (offsetIdx s) = indexName (baseOffset s);
  ix_time : TimeIdx.repr fs (timeIdx s) (time_entries cfg (baseOffset s) bs);
  ix_time_file : ti_file (timeIdx s) = timeName (baseOffset s)
}.

(** The segment [s] holds the batches [bs]. *)
Record seg_ok (cfg : StorageConfig) (fs : files) (s : SegmentStorage) (bs : list (list byte)) : Prop := {
  ok_batches : batches_ok (baseOffset s) bs;
  ok_log_file : ls_file (log s) = logName (baseOffset s);
  ok_log : fs !! logName (baseOffset s) = Some (concat bs);
  ok_log_size : logSizeVal (log s) = len (concat bs);
  ok_indexes : indexes_ok cfg fs s bs
}.

(** An active segment accepts writes and its indexes have room. *)
Record active_ok (cfg : StorageConfig) (s : SegmentStorage) (bs : list (list byte)) : Prop := {
  act_sealed : sealed s = false;
  act_writable : ls_readonly (log s) = false;
  act_since : bytesSinceLastIndex s = (marks (IndexSampleBytes cfg) bs).2;
  act_off_room : SegmentMaxBytes cfg <= oi_maxEntries (offsetIdx s) * IndexSampleBytes cfg;
  act_time_room : SegmentMaxBytes cfg <= ti_maxEntries (timeIdx s) * IndexSampleBytes cfg;
  act_starts : starts_below (SegmentMaxBytes cfg) bs
}.

(** The files of a sealed segment: what reopening it finds. *)
Record sealed_files (cfg : StorageConfig) (fs : files) (base : Z) (bs : list (list byte)) : Prop := {
  sf_batches : batches_ok base bs;
  sf_log : fs !! logName base = Some (concat bs);
  sf_off : fs !! indexName base = Some (concat (OffsetIdx.enc <$> off_entries cfg base bs));
  sf_time : fs !! timeName base = Some (concat (TimeIdx.enc <$> time_entries cfg base bs))
}.

Lemma base_offset_ok base bs : batches_ok base bs -> offset_ok base.
Proof. intros [_ Hb He _]. pose proof (end_off_mono base bs). unfold offset_ok. lia. Qed.

Lemma mark_bounds base bs m :
  batches_ok base bs -> mark_of bs m ->
  0 <= m.1 < 2 ^ 31 /\ 0 <= batch_base m.2 - base < 2 ^ 31 /\ 38 <= len m.2.
Proof.
  intros [Hc Hb He Hs] (pre & post & -> & Hm). rewrite concat_app, len_app in Hs. cbn [concat] in Hs.
  apply chain_app in Hc as [Hc (Hwf & Hbase & _)]. pose proof (wf_len _ Hwf).
  pose proof (chain_end_bound _ _ Hc). pose proof (end_off_mono base pre). len_lia.
Qed.

Lemma marks_ok cfg base bs :
  cfg_ok cfg -> batches_ok base bs -> Forall (mark_of bs) (marks (IndexSampleBytes cfg) bs).1.
Proof. intros Hcfg Hb. by eapply marks_spec; [apply Hcfg|apply Hb]. Qed.

Lemma off_entries_ok cfg base bs :
  cfg_ok cfg -> batches_ok base bs -> Forall OffsetIdx.entry_ok (off_entries cfg base bs).
Proof.
  intros Hcfg Hb. apply Forall_fmap. eapply Forall_impl; [by eapply marks_ok|].
  intros m Hm. pose proof (mark_bounds _ _ _ Hb Hm). split; unfold in_i32; simpl; lia.
Qed.

Lemma batch_max_ts_range b : in_i64 (batch_max_ts b).
Proof. apply i64_range. Qed.

Lemma time_entries_ok cfg base bs :
  cfg_ok cfg -> batches_ok base bs -> Forall TimeIdx.entry_ok (time_entries cfg base bs).
Proof.
  intros Hcfg Hb. apply Forall_fmap. eapply Forall_impl; [by eapply marks_ok|].
  intros m Hm. pose proof (mark_bounds _ _ _ Hb Hm).
  split; [apply batch_max_ts_range|unfold in_i32; simpl; lia].
Qed.

Lemma StronglySorted_fmap' {A B} (R : A -> A -> Prop) (R' : B -> B -> Prop) (f : A -> B) l :
  (forall x y, R x y -> R' (f x) (f y)) -> StronglySorted R l -> StronglySorted R' (f <$> l).
Proof.
  intros Hf. induction 1 as [|x l _ IH Hx]; [constructor|]. constructor; [done|].
  apply Forall_fmap. eapply Forall_impl; [exact Hx|]. intros y. apply Hf.
Qed.

Lemma off_entries_sorted cfg base bs :
  cfg_ok cfg -> batches_ok base bs -> index_sorted (off_entries cfg base bs).
Proof.
  intros Hcfg Hb. eapply StronglySorted_fmap'; [|eapply marks_spec; [apply Hcfg|apply Hb]].
  intros m1 m2 H. cbn in H. cbn [off_entry OffsetIdx.relativeOffset]. lia.
Qed.

(** A file-system change outside the segment's files keeps the invariant. *)
Lemma repr_frame_off X fs fs' s es :
  OffsetIdx.repr fs s es -> frame X fs fs' -> oi_file s ∉ X -> OffsetIdx.repr fs' s es.
Proof.
  intros [H1 H2 H3 H4 H5] Hf Hn. pose proof (frame_contents _ _ _ _ Hf Hn) as E.
  constructor; rewrite ?E; done.
Qed.

Lemma repr_frame_time X fs fs' s es :
  TimeIdx.repr fs s es -> frame X fs fs' -> ti_file s ∉ X -> TimeIdx.repr fs' s es.
Proof.
  intros [H1 H2 H3 H4 H5] Hf Hn. pose proof (frame_contents _ _ _ _ Hf Hn) as E.
  constructor; rewrite ?E; done.
Qed.

Lemma indexes_ok_frame cfg X fs fs' s bs :
  indexes_ok cfg fs s bs -> frame X fs fs' -> {[indexName (baseOffset s); timeName (baseOffset s)]} ## X ->
  indexes_ok cfg fs' s bs.
Proof.
  intros [Ho Hof Ht Htf] Hf Hd. constructor; try done.
  - eapply repr_frame_off; [done..|]. rewrite Hof. names_solver.
  - eapply repr_frame_time; [done..|]. rewrite Htf. names_solver.
Qed.

Lemma seg_ok_frame cfg X fs fs' s bs :
  seg_ok cfg fs s bs -> frame X fs fs' -> seg_files (baseOffset s) ## X -> seg_ok cfg fs' s bs.
Proof.
  intros [Hb Hlf Hl Hs Hi] Hf Hd. unfold seg_files in Hd. constructor; try done.
  - rewrite Hf; [done|names_solver].
  - eapply indexes_ok_frame; [done..|names_solver].
Qed.

Lemma sealed_files_frame cfg X fs fs' base bs :
  sealed_files cfg fs base bs -> frame X fs fs' -> seg_files base ## X -> sealed_files cfg fs' base bs.
Proof. intros [] Hf Hd. unfold seg_files in Hd. constructor; try done; rewrite Hf; try done; names_solver. Qed.

(** ** Read *)

Lemma last_cons_default {A B} (f : A -> B) (d : B) (a : A) l :
  default d (f <$> last (a :: l)) = default (f a) (f <$> last l).
Proof.
  destruct l as [|a' l]; [done|]. rewrite last_cons_cons. destruct (last (a' :: l)) eqn:E; [done|].
  by apply last_None in E.
Qed.

(** The callback of [Read], on batches past the first one returned. *)
Lemma read_scan_rest offset maxBytes off bs pos acc next :
  chain off bs -> 0 <= off -> end_off off bs < 2 ^ 63 -> offset < off -> 0 < len acc ->
  scan_batches (read_callback offset maxBytes) bs pos (acc, next) =
  Ok (acc ++ concat (fit (maxBytes - len acc) bs),
      default next (batch_end <$> last (fit (maxBytes - len acc) bs))).
Proof.
  revert off pos acc next. induction bs as [|b bs IH]; intros off pos acc next Hc H0 He Ho Ha.
  { cbn. by rewrite app_nil_r. }
  destruct Hc as (Hwf & Hb & Hc). pose proof (wf_len b Hwf) as [Hl _]. pose proof (batch_count_range b).
  cbn [end_off] in He. pose proof (end_off_mono (off + batch_count b) bs).
  cbn [scan_batches read_callback fit]. rewrite get_base, get_count by lia. cbn [mbind outcome_bind].
  fold (batch_base b). rewrite Hb, i64_id by (unfold in_i64; lia).
  rewrite (proj2 (Z.leb_gt _ _)), (proj2 (Z.ltb_lt 0 _)) by lia. cbn [andb].
  destruct (Z.leb_spec (len b) (maxBytes - len acc)).
  - rewrite (proj2 (Z.ltb_ge maxBytes _)) by lia. cbn [mbind outcome_bind].
    rewrite (IH (off + batch_count b)); [|done|lia|lia|lia|len_lia].
    replace (maxBytes - len (acc ++ b)) with (maxBytes - len acc - len b) by len_lia.
    cbn [concat]. rewrite <- app_assoc. do 2 f_equal.
    rewrite last_cons_default. unfold batch_end at 2. by rewrite Hb.
  - rewrite (proj2 (Z.ltb_lt maxBytes _)) by lia. cbn. by rewrite app_nil_r.
Qed.

Lemma read_scan offset maxBytes off bs pos :
  chain off bs -> 0 <= off -> end_off off bs < 2 ^ 63 ->
  scan_batches (read_callback offset maxBytes) bs pos ([], offset) = Ok (fetch bs offset maxBytes).
Proof.
  revert off pos. induction bs as [|b bs IH]; intros off pos Hc H0 He; [done|].
  destruct Hc as (Hwf & Hb & Hc). pose proof (wf_len b Hwf) as [Hl _]. pose proof (batch_count_range b).
  cbn [end_off] in He. pose proof (end_off_mono (off + batch_count b) bs).
  cbn [scan_batches read_callback]. rewrite get_base, get_count by lia. cbn [mbind outcome_bind].
  fold (batch_base b). rewrite Hb, i64_id by (unfold in_i64; lia).
  unfold fetch, fetched, visible. destruct (Z.leb_spec (off + batch_count b) offset).
  - rewrite filter_cons_False by (unfold batch_end; lia). apply (IH (off + batch_count b)); [done|lia|lia].
  - rewrite filter_cons_True by (unfold batch_end; lia).
    change (0 <? len (@nil byte)) with false. cbn [andb].
    cbn [mbind outcome_bind app].
    rewrite (read_scan_rest _ _ (off + batch_count b)); [|done|lia|lia|lia|lia].
    rewrite (filter_all _ bs).
    2:{ apply Forall_forall. intros b' Hb'. pose proof (chain_ends _ _ _ Hc Hb').
        unfold batch_end in *. pose proof (batch_count_range b'). lia. }
    cbn [concat]. do 2 f_equal.
    rewrite last_cons_default. unfold batch_end at 2. by rewrite Hb.
Qed.

(** The index leads to a batch boundary below which nothing is visible. *)
Lemma Lookup_boundary cfg fs s bs offset :
  cfg_ok cfg -> seg_ok cfg fs s bs -> baseOffset s <= offset -> offset - baseOffset s < 2 ^ 31 ->
  exists pos found pre post,
    OffsetIdx.Lookup fs (offsetIdx s) (i32 (offset - baseOffset s)) = Ok (pos, found) /\
    bs = pre ++ post /\ (if (found : bool) then pos else 0) = len (concat pre) /\
    end_off (baseOffset s) pre <= offset.
Proof.
  intros Hcfg Hok Hlo Hhi. pose proof (ok_batches _ _ _ _ Hok) as Hb.
  rewrite i32_id by (unfold in_i32; lia).
  rewrite (OffsetIdx.Lookup_repr _ _ _ _ (ix_off _ _ _ _ (ok_indexes _ _ _ _ Hok))) by (by apply off_entries_sorted).
  unfold floor_position. destruct (last (filter _ _)) as [e|] eqn:E.
  2:{ exists 0, false, [], bs. repeat split; done. }
  exists (position e), true. apply last_Some in E as [l' E].
  assert (e ∈ filter (fun e => OffsetIdx.relativeOffset e <= offset - baseOffset s)
    (off_entries cfg (baseOffset s) bs)) as Hin
    by (rewrite E, elem_of_app, list_elem_of_singleton; auto).
  apply list_elem_of_filter in Hin as [Hle Hin]. apply list_elem_of_fmap in Hin as (m & -> & Hm).
  pose proof (marks_ok _ _ _ Hcfg Hb) as Hms. rewrite Forall_forall in Hms.
  destruct (Hms _ Hm) as (pre & post & Hbs & Hpos). exists pre, (m.2 :: post).
  cbn [off_entry OffsetIdx.relativeOffset position] in *. repeat split; [done|done|].
  destruct Hb as [Hc _ _ _]. rewrite Hbs in Hc. apply chain_app in Hc as [_ (_ & Hbase & _)]. lia.
Qed.

(** [Read] returns the batches from [offset] on that fit. *)
Lemma Read_fetch cfg fs s bs offset maxBytes :
  cfg_ok cfg -> seg_ok cfg fs s bs -> baseOffset s <= offset -> offset - baseOffset s < 2 ^ 31 ->
  Read fs s offset maxBytes = Ok (fetch bs offset maxBytes).
Proof.
  intros Hcfg Hok Hlo Hhi. pose proof (ok_batches _ _ _ _ Hok) as [Hc Hb He Hs].
  destruct (Lookup_boundary _ _ _ _ _ Hcfg Hok Hlo Hhi) as (pos & found & pre & post & HL & -> & Hpos & Hpre).
  unfold Read. rewrite HL. cbn [mbind outcome_bind]. rewrite Hpos.
  apply chain_app in Hc as [Hc1 Hc2]. rewrite end_off_app in He.
  rewrite (ScanFrom_batches _ _ (concat pre) post).
  - rewrite (read_scan _ _ (end_off (baseOffset s) pre)); [|done| |done].
    + cbn. unfold fetch, fetched. by rewrite (visible_skip _ pre post _ Hc1 Hpre).
    + pose proof (end_off_mono (baseOffset s) pre). lia.
  - unfold contents. rewrite (ok_log_file _ _ _ _ Hok), (ok_log _ _ _ _ Hok). cbn. by rewrite concat_app.
  - rewrite (ok_log_size _ _ _ _ Hok). by rewrite concat_app.
  - by eapply chain_framed.
Qed.

(** [ReadByTime] gives the batches from a sampled batch whose max timestamp is not before the
    time asked for, or reports that there is none. *)
Lemma ReadByTime_cases cfg fs s bs t maxBytes :
  cfg_ok cfg -> seg_ok cfg fs s bs ->
  ReadByTime fs s t maxBytes = Err ErrTimestampNotFound \/
  exists b, b ∈ bs /\ t <= batch_max_ts b /\
    ReadByTime fs s t maxBytes = Ok (fetch bs (batch_base b) maxBytes).
Proof.
  intros Hcfg Hok. pose proof (ok_batches _ _ _ _ Hok) as Hb. unfold ReadByTime.
  destruct (TimeIdx.TimeLookup_total _ _ _ t (ix_time _ _ _ _ (ok_indexes _ _ _ _ Hok))) as [->|(e & He & Ht & ->)]; [by left|].
  right. apply list_elem_of_fmap in He as (m & -> & Hm). cbn [mbind outcome_bind negb].
  pose proof (marks_ok _ _ _ Hcfg Hb) as Hms. rewrite Forall_forall in Hms. specialize (Hms _ Hm).
  pose proof (mark_bounds _ _ _ Hb Hms) as (_ & Hrel & _). destruct Hms as (pre & post & Hbs & _).
  assert (m.2 ∈ bs) as Hin by (rewrite Hbs, elem_of_app, elem_of_cons; auto).
  exists m.2. split; [done|]. split; [done|]. cbn [time_entry relativeOffset].
  replace (baseOffset s + (batch_base m.2 - baseOffset s)) with (batch_base m.2) by lia.
  rewrite i64_id by apply i64_range. apply (Read_fetch cfg); [done|done|lia|lia].
Qed.

(** ** Append *)

Lemma names_disjoint base : offset_ok base ->
  logName base <> indexName base /\ logName base <> timeName base /\ indexName base <> timeName base.
Proof. intros. by split_and!; [apply log_index_ne|apply log_time_ne|apply index_time_ne]. Qed.

Lemma batches_ok_snoc base bs b :
  batches_ok base bs -> wf_batch b -> batch_base b = end_off base bs ->
  end_off base bs + batch_count b < 2 ^ 63 -> len (concat bs) + len b < 2 ^ 31 ->
  batches_ok base (bs ++ [b]).
Proof.
  intros [Hc H0 He Hs] Hwf Hb He' Hl. constructor; [|done| |].
  - apply chain_app. split; [done|]. by split.
  - by rewrite end_off_app.
  - rewrite concat_app, len_app. cbn [concat]. by rewrite app_nil_r.
Qed.

Lemma starts_below_size M bs :
  0 < M -> Forall wf_batch bs -> starts_below M bs -> len (concat bs) < M + maxBatchBytes.
Proof.
  intros HM Hwf Hs. destruct bs as [|b bs _] using rev_ind; [unfold maxBatchBytes; cbn; len_lia|].
  specialize (Hs bs b eq_refl). rewrite Forall_app, Forall_singleton in Hwf. destruct Hwf as [_ Hwf%wf_len].
  rewrite concat_app, len_app. cbn [concat]. rewrite app_nil_r. lia.
Qed.

(** The sampled and the unsampled case of [Append], on the abstract side. *)
Lemma marks_append cfg base bs b :
  (IndexSampleBytes cfg <= (marks (IndexSampleBytes cfg) bs).2 ->
   off_entries cfg base (bs ++ [b]) = off_entries cfg base bs ++ [off_entry base (len (concat bs), b)] /\
   time_entries cfg base (bs ++ [b]) = time_entries cfg base bs ++ [time_entry base (len (concat bs), b)] /\
   (marks (IndexSampleBytes cfg) (bs ++ [b])).2 = 0) /\
  ((marks (IndexSampleBytes cfg) bs).2 < IndexSampleBytes cfg ->
   off_entries cfg base (bs ++ [b]) = off_entries cfg base bs /\
   time_entries cfg base (bs ++ [b]) = time_entries cfg base bs /\
   (marks (IndexSampleBytes cfg) (bs ++ [b])).2 = (marks (IndexSampleBytes cfg) bs).2 + len b).
Proof.
  unfold off_entries, time_entries. rewrite marks_snoc. destruct (marks _ bs) as [ms since]. cbn [fst snd mark].
  split; intros H.
  - rewrite (proj2 (Z.leb_le _ _)) by done. cbn [fst snd]. by rewrite !fmap_app.
  - by rewrite (proj2 (Z.leb_gt _ _)) by done.
Qed.

(** The index part of [Append]: both indexes follow the sampling of the longer log. *)
Lemma Append_index cfg fs s bs b :
  cfg_ok cfg -> indexes_ok cfg fs s bs -> active_ok cfg s bs -> batches_ok (baseOffset s) bs ->
  batches_ok (baseOffset s) (bs ++ [b]) -> IndexSampleBytes cfg <= bytesSinceLastIndex s ->
  exists fs1 fs2 n1 n2,
    let base := baseOffset s in
    let e := off_entry base (len (concat bs), b) in let te := time_entry base (len (concat bs), b) in
    OffsetIdx.Append fs (offsetIdx s) (OffsetIdx.relativeOffset e) (position e) =
      Ok (fs1, OffsetIdx.set_count (offsetIdx s) n1) /\
    TimeIdx.Append fs1 (timeIdx s) (timestampMs te) (relativeOffset te) =
      Ok (fs2, TimeIdx.set_count (timeIdx s) n2) /\
    frame {[indexName base; timeName base]} fs fs2 /\
    OffsetIdx.repr fs2 (OffsetIdx.set_count (offsetIdx s) n1) (off_entries cfg base (bs ++ [b])) /\
    TimeIdx.repr fs2 (TimeIdx.set_count (timeIdx s) n2) (time_entries cfg base (bs ++ [b])).
Proof.
  intros Hcfg [Ho Hof Ht Htf] Hact Hb Hb' Hsince. rewrite (act_since _ _ _ Hact) in Hsince.
  pose proof (cfg_sample _ Hcfg).
  pose proof (names_disjoint _ (base_offset_ok _ _ Hb)) as (N1 & N2 & N3).
  pose proof (marks_count _ _ _ _ (cfg_sample _ Hcfg) (proj1 (cfg_max _ Hcfg)) (bo_chain _ _ Hb)
    (act_starts _ _ _ Hact)) as Hn.
  pose proof (off_entries_ok _ _ _ Hcfg Hb') as Hoe. pose proof (time_entries_ok _ _ _ Hcfg Hb') as Hte.
  destruct (proj1 (marks_append cfg (baseOffset s) bs b) Hsince) as (Eo & Et & _).
  rewrite Eo in *. rewrite Et in *. apply Forall_app in Hoe as [_ Hoe]; rewrite Forall_singleton in Hoe.
  apply Forall_app in Hte as [_ Hte]; rewrite Forall_singleton in Hte.
  destruct (OffsetIdx.Append_repr fs (offsetIdx s) _ _ Ho Hoe) as (fs1 & A1 & F1 & R1).
  { pose proof (act_off_room _ _ _ Hact). unfold off_entries. rewrite len_map. nia. }
  rewrite Hof in F1.
  destruct (TimeIdx.TimeAppend_repr fs1 (timeIdx s) (time_entries cfg (baseOffset s) bs)
    (time_entry (baseOffset s) (len (concat bs), b))) as (fs2 & A2 & F2 & R2); [|done| |].
  { eapply repr_frame_time; [exact Ht|done|]. rewrite Htf. names_solver. }
  { pose proof (act_time_room _ _ _ Hact). unfold time_entries. rewrite len_map. nia. }
  rewrite Htf in F2. do 4 eexists. cbv zeta. split; [exact A1|]. split; [exact A2|].
  rewrite Eo, Et. split; [|split; [|exact R2]].
  - eapply frame_trans; eapply frame_mono; [|exact F1| |exact F2]; names_solver.
  - eapply repr_frame_off; [exact R1|exact F2|]. cbn [OffsetIdx.set_count oi_file].
    rewrite Hof. names_solver.
Qed.

(** Appending the next batch to an active segment succeeds, wherever it lands relative to the
    sampling interval, and adds it to the log. *)
Lemma Append_ok cfg fs s bs b :
  cfg_ok cfg -> seg_ok cfg fs s bs -> active_ok cfg s bs ->
  wf_batch b -> batch_base b = end_off (baseOffset s) bs ->
  end_off (baseOffset s) bs + batch_count b < 2 ^ 63 ->
  exists fs' s', Append cfg fs s b = (fs', s', Ok (len (concat bs))) /\
    frame (seg_files (baseOffset s)) fs fs' /\ seg_ok cfg fs' s' (bs ++ [b]) /\
    baseOffset s' = baseOffset s /\
    (starts_below (SegmentMaxBytes cfg) (bs ++ [b]) -> active_ok cfg s' (bs ++ [b])).
Proof.
  intros Hcfg Hok Hact Hwf Hbase Hend. pose proof (ok_batches _ _ _ _ Hok) as Hb.
  pose proof (names_disjoint _ (base_offset_ok _ _ Hb)) as (N1 & N2 & N3).
  pose proof (starts_below_size _ _ (proj1 (cfg_max _ Hcfg)) (chain_wf _ _ (bo_chain _ _ Hb))
    (act_starts _ _ _ Hact)) as Hsize.
  pose proof (wf_len _ Hwf) as Hl. pose proof (cfg_max _ Hcfg) as Hmax. unfold maxBatchBytes in *.
  pose proof (batches_ok_snoc _ _ _ Hb Hwf Hbase Hend ltac:(lia)) as Hb'.
  pose proof (mark_bounds _ _ (len (concat bs), b) Hb' ltac:(by exists bs, [])) as (Hp & Hr & _).
  cbn [fst snd] in Hp, Hr.
  unfold Append, LogSeg.Append. rewrite (act_writable _ _ _ Hact), (ok_log_file _ _ _ _ Hok).
  unfold contents. rewrite (ok_log _ _ _ _ Hok), (ok_log_size _ _ _ _ Hok). cbn [default id from_option].
  rewrite get_base, get_max_ts by lia. cbn [mbind outcome_bind]. fold (batch_base b) (batch_max_ts b).
  set (fs1 := <[logName (baseOffset s) := concat bs ++ b]> fs). set (l := {| ls_file := _ |}).
  cbn [set_log baseOffset bytesSinceLastIndex offsetIdx timeIdx]. rewrite !i32_id by (unfold in_i32; lia).
  assert (frame {[logName (baseOffset s)]} fs fs1) as F1 by apply frame_insert.
  pose proof (indexes_ok_frame _ _ _ _ _ _ (ok_indexes _ _ _ _ Hok) F1 ltac:(names_solver)) as Hix.
  rewrite (act_since _ _ _ Hact).
  destruct (Z.leb_spec (IndexSampleBytes cfg) (marks (IndexSampleBytes cfg) bs).2) as [Hge|Hlt].
  - destruct (Append_index cfg fs1 s bs b) as (fs2 & fs3 & n1 & n2 & E1 & E2 & F2 & R1 & R2);
      try done; [by rewrite (act_since _ _ _ Hact)|].
    cbn [off_entry time_entry OffsetIdx.relativeOffset position timestampMs relativeOffset fst snd] in E1, E2.
    rewrite E1. cbn [set_offsetIdx set_log timeIdx]. rewrite E2. do 2 eexists. split; [done|].
    cbn [baseOffset set_since set_timeIdx set_offsetIdx set_log].
    split_and!; [| |done|].
    + unfold seg_files. eapply frame_trans; eapply frame_mono; [|exact F1| |exact F2]; names_solver.
    + constructor; try done.
      * cbn [baseOffset set_since set_timeIdx set_offsetIdx set_log].
        rewrite F2 by names_solver. unfold fs1. rewrite lookup_insert_eq, concat_app. cbn. by rewrite app_nil_r.
      * cbn. rewrite concat_app, len_app. cbn. by rewrite app_nil_r.
      * constructor; try done; apply Hix.
    + intros Hst. constructor; try done; cbn; try apply Hact.
      symmetry. by apply (proj1 (marks_append cfg (baseOffset s) bs b)).
  - do 2 eexists. split; [done|]. cbn [baseOffset set_since set_timeIdx set_offsetIdx set_log].
    destruct (proj2 (marks_append cfg (baseOffset s) bs b) Hlt) as (Eo & Et & Es).
    split_and!; [| |done|].
    + unfold seg_files. eapply frame_mono; [|exact F1]. names_solver.
    + constructor; try done.
      * cbn [baseOffset set_since set_timeIdx set_offsetIdx set_log].
        unfold fs1. rewrite lookup_insert_eq, concat_app. cbn. by rewrite app_nil_r.
      * cbn. rewrite concat_app, len_app. cbn. by rewrite app_nil_r.
      * constructor; cbn; rewrite ?Eo, ?Et; apply Hix.
    + intros Hst. constructor; try done; cbn; try apply Hact.
Qed.

(** ** Creating, sealing and reopening *)

Lemma batches_ok_nil base : offset_ok base -> batches_ok base [].
Proof. intros [H1 H2]. by constructor. Qed.

Lemma starts_below_nil M : starts_below M [].
Proof. intros pre b H. by destruct pre. Qed.

(** Fresh indexes, opened over missing files. *)
Lemma fresh_indexes cfg fs base :
  cfg_ok cfg -> offset_ok base -> fs !! indexName base = None -> fs !! timeName base = None ->
  exists fs1 fs2 o t,
    OpenOffsetIndex fs (indexName base) base (SegmentMaxBytes cfg) (IndexSampleBytes cfg) = Ok (fs1, o) /\
    OpenTimeIndex fs1 (timeName base) base (SegmentMaxBytes cfg) (IndexSampleBytes cfg) = Ok (fs2, t) /\
    frame {[indexName base; timeName base]} fs fs2 /\
    OffsetIdx.repr fs2 o [] /\ TimeIdx.repr fs2 t [] /\
    oi_file o = indexName base /\ ti_file t = timeName base /\
    SegmentMaxBytes cfg <= oi_maxEntries o * IndexSampleBytes cfg /\
    SegmentMaxBytes cfg <= ti_maxEntries t * IndexSampleBytes cfg.
Proof.
  intros Hcfg Hbase Ni Nt. pose proof (cfg_max _ Hcfg). pose proof (cfg_sample _ Hcfg).
  pose proof (names_disjoint _ Hbase) as (N1 & N2 & N3).
  destruct (OpenOffsetIndex_fresh fs (indexName base) base (SegmentMaxBytes cfg) (IndexSampleBytes cfg))
    as (fs1 & o & E1 & F1 & R1 & L1 & M1); [lia|done|done|].
  destruct (OpenTimeIndex_fresh fs1 (timeName base) base (SegmentMaxBytes cfg) (IndexSampleBytes cfg))
    as (fs2 & t & E2 & F2 & R2 & L2 & M2); [lia|done| |].
  { rewrite F1; [done|names_solver]. }
  exists fs1, fs2, o, t. split_and!; try done.
  - eapply frame_trans; eapply frame_mono; [|exact F1| |exact F2]; names_solver.
  - eapply repr_frame_off; [exact R1|exact F2|]. rewrite L1. names_solver.
Qed.

Lemma NewSegmentStorage_ok cfg fs base :
  cfg_ok cfg -> offset_ok base ->
  fs !! logName base = None -> fs !! indexName base = None -> fs !! timeName base = None ->
  exists fs' s, NewSegmentStorage fs base cfg = Ok (fs', s) /\ frame (seg_files base) fs fs' /\
    baseOffset s = base /\ seg_ok cfg fs' s [] /\ active_ok cfg s [].
Proof.
  intros Hcfg Hbase Nl Ni Nt. pose proof (names_disjoint _ Hbase) as (N1 & N2 & N3).
  unfold NewSegmentStorage, OpenLogSegment. rewrite Nl. cbn [mbind outcome_bind].
  set (fs0 := <[logName base := []]> fs).
  assert (frame {[logName base]} fs fs0) as F0 by apply frame_insert.
  destruct (fresh_indexes cfg fs0 base) as (fs1 & fs2 & o & t & E1 & E2 & F & R1 & R2 & L1 & L2 & M1 & M2);
    try done; [rewrite F0; [done|names_solver]..|].
  rewrite E1. cbn [mbind outcome_bind]. rewrite E2. cbn [mbind outcome_bind].
  do 2 eexists. split; [done|]. split_and!; [|done| |].
  - unfold seg_files. eapply frame_trans; eapply frame_mono; [|exact F0| |exact F]; names_solver.
  - constructor; [by apply batches_ok_nil|done| |done|done].
    cbn. rewrite F by names_solver. apply lookup_insert_eq.
  - constructor; try done. apply starts_below_nil.
Qed.

(** Sealing keeps the batches and leaves files that reopen to the same segment. *)
Lemma Seal_ok cfg fs s bs fs' s' :
  seg_ok cfg fs s bs -> Seal fs s = (fs', s') ->
  frame {[indexName (baseOffset s); timeName (baseOffset s)]} fs fs' /\ baseOffset s' = baseOffset s /\
  sealed s' = true /\ log s' = log s /\ seg_ok cfg fs' s' bs /\ sealed_files cfg fs' (baseOffset s) bs.
Proof.
  intros Hok. pose proof Hok as [Hb Hlf Hl Hls [Ho Hof Ht Htf]].
  pose proof (names_disjoint _ (base_offset_ok _ _ Hb)) as (N1 & N2 & N3). unfold Seal.
  destruct (OffsetIdx.Seal fs (offsetIdx s)) as [fs1 o] eqn:E1.
  destruct (OffsetIdx.Seal_repr _ _ _ _ _ Ho E1) as (F1 & R1 & L1 & C1 & X1 & _). rewrite Hof in *.
  destruct (TimeIdx.Seal fs1 (timeIdx s)) as [fs2 t] eqn:E2.
  assert (TimeIdx.repr fs1 (timeIdx s) (time_entries cfg (baseOffset s) bs)) as Ht1.
  { eapply repr_frame_time; [exact Ht|exact F1|]. rewrite Htf. names_solver. }
  destruct (TimeIdx.TimeSeal_repr _ _ _ _ _ Ht1 E2) as (F2 & R2 & L2 & C2 & X2 & _). rewrite Htf in *.
  intros [= <- <-].
  assert (frame {[indexName (baseOffset s); timeName (baseOffset s)]} fs fs2) as F.
  { eapply frame_trans; eapply frame_mono; [|exact F1| |exact F2]; names_solver. }
  assert (fs2 !! logName (baseOffset s) = Some (concat bs)) as Hl2 by (rewrite F; [done|names_solver]).
  split_and!; try done.
  - constructor; try done. constructor; try done. eapply repr_frame_off; [exact R1|exact F2|].
    cbn [set_sealed set_timeIdx set_offsetIdx offsetIdx]. rewrite L1. names_solver.
  - constructor; try done.
    + rewrite F2 by names_solver. unfold contents in C1. by destruct (fs1 !! _); [rewrite <- C1|].
    + unfold contents in C2. by destruct (fs2 !! _); [rewrite <- C2|].
Qed.

Lemma OpenSegmentStorage_readonly_ok cfg fs base bs :
  cfg_ok cfg -> sealed_files cfg fs base bs ->
  exists s, OpenSegmentStorage fs base cfg true = Ok (fs, s) /\ baseOffset s = base /\
    sealed s = true /\ seg_ok cfg fs s bs.
Proof.
  intros Hcfg [Hb Hl Ho Ht]. unfold OpenSegmentStorage, OpenLogSegment. rewrite Hl.
  cbn [negb mbind outcome_bind].
  destruct (openOffsetIndexReadOnly_repr fs _ base _ Ho) as (o & -> & R1 & L1); [by apply off_entries_ok|].
  destruct (openTimeIndexReadOnly_repr fs _ base _ Ht) as (t & E2 & R2 & L2); [by apply time_entries_ok|].
  cbn [mbind outcome_bind]. rewrite E2. cbn [mbind outcome_bind]. eexists. split; [done|].
  split_and!; try done.
Qed.

End Seg.
