(* ===== verification/Recovery.v ===== *)
(** * Crash recovery and index rebuild

    internal/storage/recovery.go. Opening a storage directory lists the [.log] files in name
    order, opens all but the last read-only and scans the last one batch by batch with
    checksum verification, cutting it at the first invalid byte and rebuilding its indexes.
    The theorems show that on any file that starts with well-formed batches and goes on with
    bytes that are not one, the scan stops exactly between them, and that the indexes rebuilt
    are the ones appending the same batches would have made. *)

From S2P Require Import Prelude Hash Batch SegName LogSegment BinSearch OffsetIndex TimeIndex BatchLog Segment.
Local Open Scope Z_scope.

Module Recovery.
Import LogSeg OffsetIdx TimeIdx SegName BatchLog Seg.

(** The loop of [scanActiveLog] over the contents of the file: the position of the first
    invalid byte, the next offset and the number of checksum errors (at most one: the loop
    stops at the first). *)
Fixpoint scanActiveLog_loop (fuel : nat) (f : list byte) (pos currOffset : Z) : outcome (Z * Z * Z) :=
  match fuel with
  | O => OutOfFuel
  | S fuel' =>
      let fileSize := len f in
      if pos <? fileSize then
        if fileSize <? pos + 38 then Ok (pos, currOffset, 0) else
        let hdr := sub f pos (pos + 38) in
        batchLen ← getUint32 hdr 8;
        if (batchLen <? 38) || (fileSize <? pos + batchLen) then Ok (pos, currOffset, 0) else
        let records := sub f (pos + 38) (pos + batchLen) in
        storedCRC ← getUint32 hdr 16;
        if negb (Crc32.Checksum records Crc32.crcTable =? storedCRC) then Ok (pos, currOffset, 1) else
        recCount ← getUint32 hdr 12;
        base ← getUint64 hdr 0;
        scanActiveLog_loop fuel' f (pos + batchLen) (i64 (i64 base + recCount))
      else Ok (pos, currOffset, 0)
  end.

(** Each iteration consumes at least 38 bytes, so the length of the file is fuel enough. *)
Definition scanActiveLog (f : list byte) (baseOffset : Z) : outcome (Z * Z * Z) :=
  scanActiveLog_loop (S (length f)) f 0 baseOffset.

(** Both index files removed and opened afresh. *)
Definition reset_indexes (fs : files) (base : Z) (cfg : StorageConfig)
  : outcome (files * OffsetIndexSegment * TimeIndexSegment) :=
  let fs := delete (timeName base) (delete (indexName base) fs) in
  '(fs, offsetIdx) ← OpenOffsetIndex fs (indexName base) base (SegmentMaxBytes cfg) (IndexSampleBytes cfg);
  '(fs, timeIdx) ← OpenTimeIndex fs (timeName base) base (SegmentMaxBytes cfg) (IndexSampleBytes cfg);
  Ok (fs, offsetIdx, timeIdx).

(** The indexes filled by scanning the log; the scan's own error is ignored. *)
Definition fill_indexes (fs : files) (base : Z) (logSeg : LogSegment) (cfg : StorageConfig)
    (o : OffsetIndexSegment) (t : TimeIndexSegment)
  : outcome (files * OffsetIndexSegment * TimeIndexSegment * Z) :=
  '(st, _) ← ScanFrom fs logSeg 0 (sample_step (IndexSampleBytes cfg) base) sampling0;
  '(fs, o) ← OffsetIdx.Rebuild fs o (offEntries st);
  '(fs, t) ← TimeIdx.Rebuild fs t (tEntries st);
  Ok (fs, o, t, bytesSince st).

Definition rebuildSegmentIndexes (fs : files) (seg : SegmentStorage) (cfg : StorageConfig)
  : outcome (files * SegmentStorage) :=
  '(fs, o, t) ← reset_indexes fs (baseOffset seg) cfg;
  '(fs, o, t, since) ← fill_indexes fs (baseOffset seg) (log seg) cfg o t;
  Ok (fs, set_since (set_timeIdx (set_offsetIdx seg o) t) since).

(** [filepath.Glob("*.log")], sorted: the names that end in [.log]. *)
Definition is_log (name : string) : bool :=
  match strip_suffix ".log" name with Some _ => true | None => false end.

Definition matches (fs : files) : list string :=
  sort_strings (filter (fun n => is_log n = true) (map_to_list fs).*1).

(** [strconv.ParseInt(base[:len(base)-4], 10, 64)], its error wrapped. *)
Definition parse_name (path : string) : outcome Z :=
  match strip_suffix ".log" path with
  | None => Panic PanicBounds
  | Some digits =>
      match ParseInt64 digits with
      | Err e => Err (ErrWrap "invalid segment filename" e)
      | m => m
      end
  end.

(** The sealed segments, opened in order. *)
Fixpoint open_sealed (fs : files) (cfg : StorageConfig) (paths : list string)
  : outcome (files * list SegmentStorage) :=
  match paths with
  | [] => Ok (fs, [])
  | path :: paths' =>
      offset ← parse_name path;
      '(fs, seg) ← OpenSegmentStorage fs offset cfg true;
      '(fs, segs) ← open_sealed fs cfg paths';
      Ok (fs, seg :: segs)
  end.

(** The active segment: scan, truncate, reopen, rebuild. *)
Definition recover_active (fs : files) (cfg : StorageConfig) (activePath : string)
  : outcome (files * SegmentStorage * Z * Z) :=
  activeOffset ← parse_name activePath;
  '(validPos, nextOffset, crcErrors) ← scanActiveLog (contents fs activePath) activeOffset;
  let fs := <[activePath := truncate_bytes (contents fs activePath) validPos]> fs in
  '(fs, o, t) ← reset_indexes fs activeOffset cfg;
  '(fs, logSeg) ← OpenLogSegment fs activePath activeOffset true;
  '(fs, o, t, since) ← fill_indexes fs activeOffset logSeg cfg o t;
  Ok (fs, {| log := logSeg; offsetIdx := o; timeIdx := t; baseOffset := activeOffset;
             sealed := false; bytesSinceLastIndex := since |}, nextOffset, crcErrors).

(** [recoverStorage]: the segments, the next offset and the number of checksum errors. *)
Definition recoverStorage (fs : files) (cfg : StorageConfig)
  : outcome (files * list SegmentStorage * Z * Z) :=
  match last (matches fs) with
  | None =>
      '(fs, seg) ← NewSegmentStorage fs 0 cfg;
      Ok (fs, [seg], 0, 0)
  | Some activePath =>
      '(fs, segments) ← open_sealed fs cfg (removelast (matches fs));
      '(fs, activeSeg, nextOffset, crcErrors) ← recover_active fs cfg activePath;
      Ok (fs, segments ++ [activeSeg], nextOffset, crcErrors)
  end.

(** [findBytePosForOffset]; a short header or a length below 12 ends the scan. *)
Fixpoint findBytePos_loop (fuel : nat) (f : list byte) (logSize pos offset : Z) : outcome Z :=
  match fuel with
  | O => OutOfFuel
  | S fuel' =>
      if pos <? logSize then
        match ReadAt f pos 12 with
        | Ok header =>
            v ← getUint64 header 0;
            if i64 v =? offset then Ok pos else
            batchLen ← getUint32 header 8;
            if batchLen <? 12 then Ok logSize else
            findBytePos_loop fuel' f logSize (pos + batchLen) offset
        | Err _ => Ok logSize
        | Panic p => Panic p
        | OutOfFuel => OutOfFuel
        end
      else Ok logSize
  end.

Definition findBytePosForOffset (fs : files) (seg : SegmentStorage) (offset : Z) : outcome Z :=
  if offset =? baseOffset seg then Ok 0 else
  let logSize := logSizeVal (log seg) in
  findBytePos_loop (S (Z.to_nat logSize)) (contents fs (ls_file (log seg))) logSize 0 offset.

(** ** The recovery scan *)

(** Bytes at which the scan stops: too short for a header or for the batch its header
    announces, a length field too small, or a checksum that does not match. *)
Definition torn (t : list byte) : Prop :=
  len t < 38 \/ be_Z (sub t 8 12) < 38 \/ len t < be_Z (sub t 8 12) \/
  be_Z (sub t 16 20) <> Crc32.Checksum (sub t 38 (be_Z (sub t 8 12))) Crc32.crcTable.

Lemma sub_past {A} (pre l : list A) i j :
  0 <= i -> i <= j -> sub (pre ++ l) (len pre + i) (len pre + j) = sub l i j.
Proof. intros. rewrite sub_app_r by lia. f_equal; lia. Qed.

(** The fields of the header read at [len pre]. *)
Lemma hdr_fields pre t (H : 38 <= len t) :
  let hdr := sub (pre ++ t) (len pre) (len pre + 38) in
  getUint32 hdr 8 = Ok (be_Z (sub t 8 12)) /\ getUint32 hdr 16 = Ok (be_Z (sub t 16 20)) /\
  getUint32 hdr 12 = Ok (be_Z (sub t 12 16)) /\ getUint64 hdr 0 = Ok (be_Z (sub t 0 8)).
Proof.
  cbv zeta. pose proof (sub_past pre t 0 38 ltac:(lia) ltac:(lia)) as E. rewrite Z.add_0_r in E. rewrite E.
  unfold getUint32, getUint64. rewrite !slice_Ok by (rewrite ?len_sub; lia).
  cbn [fmap outcome_fmap]. by rewrite !sub_sub by lia.
Qed.

Lemma scan_torn fuel pre t off :
  torn t -> (0 < fuel)%nat ->
  exists e, scanActiveLog_loop fuel (pre ++ t) (len pre) off = Ok (len pre, off, e) /\ 0 <= e <= 1.
Proof.
  intros Ht Hf. destruct fuel as [|fuel]; [lia|]. cbn [scanActiveLog_loop]. rewrite len_app.
  destruct (Z.ltb_spec (len pre) (len pre + len t)); [|by exists 0].
  destruct (Z.ltb_spec (len pre + len t) (len pre + 38)); [by exists 0|].
  destruct (hdr_fields pre t ltac:(lia)) as (E1 & E2 & E3 & E4). rewrite E1. cbn [mbind outcome_bind].
  destruct (Z.ltb_spec (be_Z (sub t 8 12)) 38); [by exists 0|].
  destruct (Z.ltb_spec (len pre + len t) (len pre + be_Z (sub t 8 12))); [by exists 0|].
  cbn [orb]. rewrite E2. cbn [mbind outcome_bind]. rewrite sub_past by lia.
  destruct Ht as [Ht|[Ht|[Ht|Ht]]]; [lia..|]. rewrite (proj2 (Z.eqb_neq _ _)) by done. by exists 1.
Qed.

Lemma scan_chain fuel pre bs t off0 off :
  chain off bs -> 0 <= off -> end_off off bs < 2 ^ 63 -> torn t -> len (concat bs) < Z.of_nat fuel ->
  (bs = [] -> off0 = off) ->
  exists e, scanActiveLog_loop fuel (pre ++ concat bs ++ t) (len pre) off0 =
    Ok (len (pre ++ concat bs), end_off off bs, e) /\ 0 <= e <= 1.
Proof.
  revert fuel pre off0 off. induction bs as [|b bs IH]; intros fuel pre off0 off Hc H0 He Ht Hf Hoff.
  { cbn [concat app]. rewrite app_nil_r, Hoff by done. apply scan_torn; [done|]. unfold len in Hf. cbn in Hf. lia. }
  destruct Hc as (Hwf & Hbase & Hc). destruct Hwf as ([Hfr1 Hfr2] & Hl & Hcnt & Hcrc).
  destruct fuel as [|fuel]; [len_pos; lia|]. cbn [scanActiveLog_loop concat end_off] in *.
  rewrite <- (app_assoc b). pose proof (len_nonneg (concat bs)). pose proof (len_nonneg t).
  rewrite !len_app in *. rewrite (proj2 (Z.ltb_lt (len pre) _)), (proj2 (Z.ltb_ge _ (len pre + 38))) by lia.
  destruct (hdr_fields pre (b ++ concat bs ++ t)) as (E1 & E2 & E3 & E4); [rewrite !len_app; lia|].
  rewrite (sub_app_l b) in E1, E2, E3, E4 by lia. rewrite E1. cbn [mbind outcome_bind]. rewrite Hfr2.
  rewrite (proj2 (Z.ltb_ge (len b) 38)), (proj2 (Z.ltb_ge _ (len pre + len b))) by lia. cbn [orb].
  rewrite E2. cbn [mbind outcome_bind]. rewrite sub_past by lia. rewrite sub_app_l by lia.
  rewrite (proj2 (Z.eqb_eq _ _)) by (symmetry; exact Hcrc). cbn [negb].
  rewrite E3. cbn [mbind outcome_bind]. rewrite E4. cbn [mbind outcome_bind].
  fold (batch_base b) (batch_count b). rewrite Hbase. pose proof (end_off_mono (off + batch_count b) bs).
  rewrite i64_id by (unfold in_i64; lia). rewrite (app_assoc pre b), <- (len_app pre b).
  destruct (IH fuel (pre ++ b) (off + batch_count b) (off + batch_count b)) as (e & -> & Hr); try done; [lia|lia|].
  exists e. split; [|done]. by rewrite !len_app, Z.add_assoc.
Qed.

(** On a file of consecutive batches followed by a torn tail, the scan returns the boundary
    between them and the offset after the last batch. *)
Lemma scanActiveLog_ok off bs t :
  chain off bs -> 0 <= off -> end_off off bs < 2 ^ 63 -> torn t ->
  exists e, scanActiveLog (concat bs ++ t) off = Ok (len (concat bs), end_off off bs, e) /\ 0 <= e <= 1.
Proof.
  intros Hc H0 He Ht. unfold scanActiveLog.
  apply (scan_chain _ [] bs t off off); try done. unfold len. rewrite length_app. lia.
Qed.

(** ** Index rebuild *)

Lemma fill_scan cfg fs base logSeg bs :
  batches_ok base bs -> fs !! logName base = Some (concat bs) ->
  ls_file logSeg = logName base -> logSizeVal logSeg = len (concat bs) ->
  ScanFrom fs logSeg 0 (sample_step (IndexSampleBytes cfg) base) sampling0 =
  Ok (sampling_of base (marks (IndexSampleBytes cfg) bs), None).
Proof.
  intros [Hc Hb He Hs] Hl Hf Hsz. change 0 with (len (@nil byte)) at 1.
  rewrite (ScanFrom_batches _ _ [] bs); [| |done|by eapply chain_framed].
  - change sampling0 with (sampling_of base ([], 0)). change (len (@nil byte)) with 0.
    rewrite (sample_scan _ _ base); [done|done|lia..].
  - unfold contents. by rewrite Hf, Hl.
Qed.

(** Rebuilt indexes hold what appending the batches would have put there. *)
Lemma rebuild_ok cfg fs base bs logSeg :
  cfg_ok cfg -> batches_ok base bs -> starts_below (SegmentMaxBytes cfg) bs ->
  fs !! logName base = Some (concat bs) -> ls_file logSeg = logName base ->
  logSizeVal logSeg = len (concat bs) ->
  exists fs1 fs2 o1 t1 o t,
    reset_indexes fs base cfg = Ok (fs1, o1, t1) /\
    frame {[indexName base; timeName base]} fs fs1 /\
    fill_indexes fs1 base logSeg cfg o1 t1 = Ok (fs2, o, t, (marks (IndexSampleBytes cfg) bs).2) /\
    frame {[indexName base; timeName base]} fs fs2 /\
    OffsetIdx.repr fs2 o (off_entries cfg base bs) /\ TimeIdx.repr fs2 t (time_entries cfg base bs) /\
    oi_file o = indexName base /\ ti_file t = timeName base /\
    SegmentMaxBytes cfg <= oi_maxEntries o * IndexSampleBytes cfg /\
    SegmentMaxBytes cfg <= ti_maxEntries t * IndexSampleBytes cfg.
Proof.
  intros Hcfg Hb Hst Hl Hf Hsz. pose proof (cfg_sample _ Hcfg).
  pose proof (names_disjoint _ (base_offset_ok _ _ Hb)) as (N1 & N2 & N3).
  pose proof (marks_count _ _ _ _ (cfg_sample _ Hcfg) (proj1 (cfg_max _ Hcfg)) (bo_chain _ _ Hb) Hst) as Hn.
  set (fs0 := delete (timeName base) (delete (indexName base) fs)).
  assert (frame {[indexName base; timeName base]} fs fs0) as F0.
  { eapply frame_trans; eapply frame_mono; [|apply frame_delete| |apply frame_delete]; names_solver. }
  destruct (fresh_indexes cfg fs0 base) as (fsa & fs1 & o1 & t1 & E1 & E2 & F1 & R1 & R2 & L1 & L2 & M1 & M2);
    [done|by eapply base_offset_ok|..].
  { unfold fs0. by rewrite lookup_delete_ne, lookup_delete_eq. }
  { unfold fs0. by rewrite lookup_delete_eq. }
  assert (fs1 !! logName base = Some (concat bs)) as Hl1.
  { rewrite F1, F0; [done|names_solver..]. }
  unfold reset_indexes. fold fs0. rewrite E1. cbn [mbind outcome_bind]. rewrite E2. cbn [mbind outcome_bind].
  unfold fill_indexes. pose proof (fill_scan cfg _ _ _ _ Hb Hl1 Hf Hsz) as Hscan.
  destruct (OffsetIdx.Rebuild_repr fs1 o1 (off_entries cfg base bs)) as (fs2 & E3 & F2 & R3);
    [apply R1|apply R1| |by apply off_entries_ok|].
  { pose proof (OffsetIdx.repr_room _ _ _ R1). unfold off_entries. rewrite len_map. nia. }
  rewrite L1 in F2.
  assert (TimeIdx.repr fs2 t1 []) as R2'.
  { eapply repr_frame_time; [exact R2|exact F2|]. rewrite L2. names_solver. }
  destruct (TimeIdx.TimeRebuild_repr fs2 t1 (time_entries cfg base bs)) as (fs3 & E4 & F3 & R4);
    [apply R2'|apply R2'| |by apply time_entries_ok|].
  { pose proof (TimeIdx.repr_room _ _ _ R2). unfold time_entries. rewrite len_map. nia. }
  rewrite L2 in F3. do 6 eexists. split; [done|]. split; [by eapply frame_trans|].
  rewrite Hscan. cbn [mbind outcome_bind sampling_of offEntries tEntries bytesSince].
  fold (off_entries cfg base bs) (time_entries cfg base bs). rewrite E3. cbn [mbind outcome_bind].
  rewrite E4. cbn [mbind outcome_bind]. split; [done|]. split_and!; try done.
  - eapply frame_trans; [by eapply frame_trans|].
    eapply frame_trans; eapply frame_mono; [|exact F2| |exact F3]; names_solver.
  - eapply repr_frame_off; [exact R3|exact F3|]. cbn [OffsetIdx.set_count oi_file]. rewrite L1. names_solver.
Qed.

(** Rebuilding the indexes of a writable segment makes it active. *)
Lemma rebuildSegmentIndexes_ok cfg fs seg bs :
  cfg_ok cfg -> batches_ok (baseOffset seg) bs -> starts_below (SegmentMaxBytes cfg) bs ->
  fs !! logName (baseOffset seg) = Some (concat bs) -> ls_file (log seg) = logName (baseOffset seg) ->
  logSizeVal (log seg) = len (concat bs) -> sealed seg = false -> ls_readonly (log seg) = false ->
  exists fs' seg', rebuildSegmentIndexes fs seg cfg = Ok (fs', seg') /\
    frame {[indexName (baseOffset seg); timeName (baseOffset seg)]} fs fs' /\
    baseOffset seg' = baseOffset seg /\ seg_ok cfg fs' seg' bs /\ active_ok cfg seg' bs.
Proof.
  intros Hcfg Hb Hst Hl Hf Hsz Hsl Hro. unfold rebuildSegmentIndexes.
  pose proof (names_disjoint _ (base_offset_ok _ _ Hb)) as (N1 & N2 & N3).
  destruct (rebuild_ok cfg fs _ bs (log seg) Hcfg Hb Hst Hl Hf Hsz)
    as (fs1 & fs2 & o1 & t1 & o & t & E1 & F1 & E2 & F2 & R1 & R2 & L1 & L2 & M1 & M2).
  rewrite E1. cbn [mbind outcome_bind]. rewrite E2. cbn [mbind outcome_bind].
  do 2 eexists. split; [done|]. split; [done|]. split; [done|]. split; constructor; try done.
  cbn [baseOffset set_since set_timeIdx set_offsetIdx]. by rewrite F2 by names_solver.
Qed.

(** ** The active segment after a crash *)

Lemma parse_logName base : offset_ok base -> parse_name (logName base) = Ok base.
Proof. intros Hb. unfold parse_name. rewrite strip_logName, ParseInt64_fmt; done. Qed.

(** Whatever the tail of the log and the index files hold, the active segment comes back with
    the batches that were whole. *)
Lemma recover_active_ok cfg fs base bs t :
  cfg_ok cfg -> batches_ok base bs -> starts_below (SegmentMaxBytes cfg) bs -> torn t ->
  fs !! logName base = Some (concat bs ++ t) ->
  exists fs' seg e, recover_active fs cfg (logName base) = Ok (fs', seg, end_off base bs, e) /\
    frame (seg_files base) fs fs' /\ baseOffset seg = base /\ seg_ok cfg fs' seg bs /\ active_ok cfg seg bs.
Proof.
  intros Hcfg Hb Hst Ht Hl. pose proof (base_offset_ok _ _ Hb) as Hbase.
  pose proof (names_disjoint _ Hbase) as (N1 & N2 & N3). unfold recover_active.
  rewrite parse_logName by done. cbn [mbind outcome_bind].
  assert (contents fs (logName base) = concat bs ++ t) as -> by (unfold contents; by rewrite Hl).
  destruct (scanActiveLog_ok base bs t) as (e & -> & _); [apply Hb|apply Hb|apply Hb|done|].
  cbn [mbind outcome_bind].
  assert (truncate_bytes (concat bs ++ t) (len (concat bs)) = concat bs) as ->.
  { rewrite truncate_bytes_le by len_lia. unfold len. rewrite Nat2Z.id. by apply take_app_length. }
  set (fs0 := <[logName base := concat bs]> fs).
  assert (frame {[logName base]} fs fs0) as F0 by apply frame_insert.
  assert (fs0 !! logName base = Some (concat bs)) as Hl0 by apply lookup_insert_eq.
  set (l := {| ls_file := logName base; logSizeVal := len (concat bs); ls_baseOffset := base;
               ls_readonly := false |}).
  destruct (rebuild_ok cfg fs0 base bs l Hcfg Hb Hst Hl0 eq_refl eq_refl)
    as (fs1 & fs2 & o1 & t1 & o & tt & E1 & F1 & E2 & F2 & R1 & R2 & L1 & L2 & M1 & M2).
  rewrite E1. cbn [mbind outcome_bind]. unfold OpenLogSegment.
  rewrite F1, Hl0 by names_solver. cbn [mbind outcome_bind negb]. fold l. rewrite E2.
  cbn [mbind outcome_bind]. do 3 eexists. split; [done|]. split; [|split; [done|]].
  - unfold seg_files. eapply frame_trans; eapply frame_mono; [|exact F0| |exact F2]; names_solver.
  - split; constructor; try done. cbn [baseOffset]. by rewrite F2 by names_solver.
Qed.

(** ** Finding a batch by its offset *)

Lemma findBytePos_loop_ok fuel pre bs1 b bs2 off :
  chain off (bs1 ++ b :: bs2) -> len (concat bs1) < Z.of_nat fuel ->
  findBytePos_loop fuel (pre ++ concat (bs1 ++ b :: bs2)) (len (pre ++ concat (bs1 ++ b :: bs2)))
    (len pre) (batch_base b) = Ok (len (pre ++ concat bs1)).
Proof.
  revert fuel pre off. induction bs1 as [|b1 bs1 IH]; intros fuel pre off Hc Hf;
    (destruct fuel as [|fuel]; [len_pos; lia|]); cbn [app concat findBytePos_loop] in *.
  - destruct Hc as (Hwf & _ & _). pose proof (wf_len _ Hwf) as [Hl _].
    rewrite (proj2 (Z.ltb_lt _ _)) by len_lia. rewrite ReadAt_prefix by lia.
    rewrite get_base by (rewrite len_sub; lia). cbn [mbind outcome_bind]. rewrite sub_sub by lia.
    fold (batch_base b). change (i64 (be_Z (sub b (0 + 0) (0 + 8)))) with (batch_base b).
    by rewrite Z.eqb_refl, app_nil_r.
  - destruct Hc as (Hwf & Hb & Hc). pose proof (wf_len _ Hwf) as [Hl _]. destruct Hwf as ([Hfr1 Hfr2] & _ & Hcnt & _).
    rewrite (proj2 (Z.ltb_lt _ _)) by len_lia. rewrite ReadAt_prefix by lia.
    rewrite get_base, get_len by (rewrite len_sub; lia). cbn [mbind outcome_bind]. rewrite !sub_sub by lia.
    change (i64 (be_Z (sub b1 (0 + 0) (0 + 8)))) with (batch_base b1).
    assert (b ∈ bs1 ++ b :: bs2) as Hin by (rewrite elem_of_app, elem_of_cons; auto).
    pose proof (chain_ends _ _ _ Hc Hin) as [Hlo _].
    rewrite (proj2 (Z.eqb_neq _ _)) by lia. cbn [mbind outcome_bind].
    change (sub b1 (0 + 8) (0 + 12)) with (sub b1 8 12). rewrite Hfr2.
    rewrite (proj2 (Z.ltb_ge _ _)) by lia. rewrite (app_assoc pre b1), <- (len_app pre b1).
    rewrite (IH fuel (pre ++ b1) (off + batch_count b1) Hc) by len_lia. by rewrite <- app_assoc.
Qed.

Lemma findBytePosForOffset_ok cfg fs seg bs1 b bs2 :
  seg_ok cfg fs seg (bs1 ++ b :: bs2) ->
  findBytePosForOffset fs seg (batch_base b) = Ok (len (concat bs1)).
Proof.
  intros Hok. pose proof (ok_batches _ _ _ _ Hok) as [Hc _ _ _]. unfold findBytePosForOffset.
  destruct (Z.eqb_spec (batch_base b) (baseOffset seg)) as [E|_].
  - destruct bs1 as [|b1 bs1]; [done|]. destruct Hc as ((_ & _ & Hcnt & _) & _ & Hc).
    assert (b ∈ bs1 ++ b :: bs2) as Hin by (rewrite elem_of_app, elem_of_cons; auto).
    pose proof (chain_ends _ _ _ Hc Hin). lia.
  - rewrite (ok_log_size _ _ _ _ Hok), (ok_log_file _ _ _ _ Hok). unfold contents.
    rewrite (ok_log _ _ _ _ Hok). cbn [default from_option id].
    apply (findBytePos_loop_ok _ [] bs1 b bs2 (baseOffset seg)); [done|].
    rewrite concat_app. cbn [concat]. len_lia.
Qed.

End Recovery.
