(* ===== verification/Storage.v ===== *)
(** * The partition storage

    internal/storage/storage.go and retention.go: a directory of segments, the last of which
    is active. [storage_ok] relates the state to an abstract log, a list of batches with
    consecutive offsets cut into segments. The theorems are the contract of the [Storage]
    interface: [Append] adds the batch at the next offset and nothing else changes, [Read]
    returns the batches from an offset on, closing or crashing and reopening gives the log
    back, [TruncateTo] cuts it at a batch boundary, and retention only drops old segments.

    Time ([EnforceRetention] compares with the clock) is an argument. Metrics are in
    [StorageMetrics]; logging is left out. Every operation is one step here, except that
    [EnforceRetention] takes the write lock once per deleted segment: it is split into those steps.
    In the code two operations go on after they have released the lock of the segments. [Append]
    replaces and closes the data channel afterwards; [no_lost_wakeup] in [DataRun] takes these steps
    apart. [Read] and [ReadByTime] copy the list of segments and the next offset under the lock and
    read the segment files after it: a segment that retention closes in between makes them fail
    with an error of the file, which is not modelled, and an append in between can make them return more
    of the active segment than was there when the lock was held. *)

From S2P Require Import Prelude Batch SegName LogSegment BinSearch OffsetIndex TimeIndex BatchLog Segment Recovery.
Local Open Scope Z_scope.

Module Storage.
Import LogSeg SegName BatchLog Seg Recovery.

Definition sErrOffsetOutOfRange : sentinel := Sentinel "storage" "ErrOffsetOutOfRange".
Definition ErrOffsetOutOfRange : error := ErrSentinel sErrOffsetOutOfRange.
Definition ErrStorageClosed : error := ErrSentinel (Sentinel "storage" "ErrStorageClosed").

(** The channels made for [newDataCh] are numbered; [dataCh] is the current one, and the ones
    with a smaller number are closed. *)
Record storageImpl := {
  dir : files;
  segments : list SegmentStorage;
  nextOffset : Z;
  dataCh : Z;
  retentionMs : Z;
  retentionBytes : Z;
  closed : bool
}.

Definition set_segments (s : storageImpl) (fs : files) (segs : list SegmentStorage) : storageImpl :=
  {| dir := fs; segments := segs; nextOffset := nextOffset s; dataCh := dataCh s;
     retentionMs := retentionMs s; retentionBytes := retentionBytes s; closed := closed s |}.
Definition set_nextOffset (s : storageImpl) (n : Z) : storageImpl :=
  {| dir := dir s; segments := segments s; nextOffset := n; dataCh := dataCh s;
     retentionMs := retentionMs s; retentionBytes := retentionBytes s; closed := closed s |}.
Definition set_dataCh (s : storageImpl) (n : Z) : storageImpl :=
  {| dir := dir s; segments := segments s; nextOffset := nextOffset s; dataCh := n;
     retentionMs := retentionMs s; retentionBytes := retentionBytes s; closed := closed s |}.
Definition set_closed (s : storageImpl) : storageImpl :=
  {| dir := dir s; segments := segments s; nextOffset := nextOffset s; dataCh := dataCh s;
     retentionMs := retentionMs s; retentionBytes := retentionBytes s; closed := true |}.

(** [Open]; the retention loop it starts is [EnforceRetention] at later times. *)
Definition Open (fs : files) (cfg : StorageConfig) : outcome storageImpl :=
  '(fs, segs, next, _) ← recoverStorage fs cfg;
  Ok {| dir := fs; segments := segs; nextOffset := next; dataCh := 0;
        retentionMs := DefaultRetentionMs cfg; retentionBytes := DefaultRetentionBytes cfg;
        closed := false |}.

(** [s.segments[len(s.segments)-1]]. *)
Definition active (s : storageImpl) : outcome SegmentStorage :=
  index (segments s) (len (segments s) - 1).

(** The active segment after a change made through its pointer. *)
Definition set_active (s : storageImpl) (fs : files) (seg : SegmentStorage) : storageImpl :=
  set_segments s fs (removelast (segments s) ++ [seg]).

Definition roll (cfg : StorageConfig) (s : storageImpl) : storageImpl * outcome unit :=
  match active s with
  | Ok seg =>
      let '(fs, seg) := Seg.Seal (dir s) seg in
      let s := set_active s fs seg in
      match NewSegmentStorage fs (nextOffset s) cfg with
      | Ok (fs, newSeg) => (set_segments s fs (segments s ++ [newSeg]), Ok tt)
      | m => (s, failure m)
      end
  | m => (s, failure m)
  end.

(** [Append]; the first eight bytes of the batch are overwritten with the assigned offset. The
    channel numbered [dataCh] is closed, and the next number stands for the new one. *)
Definition Append (cfg : StorageConfig) (s : storageImpl) (batch : list byte) : storageImpl * outcome Z :=
  if closed s then (s, Err ErrStorageClosed) else
  let baseOff := nextOffset s in
  match putUint64 batch 0 (u64 baseOff) with
  | Ok batch =>
      match active s with
      | Ok seg =>
          let '(fs, seg, r) := Seg.Append cfg (dir s) seg batch in
          let s := set_active s fs seg in
          match r with
          | Ok _ =>
              match getUint32 batch 12 with
              | Ok recordCount =>
                  let s := set_nextOffset s (i64 (nextOffset s + recordCount)) in
                  let '(s, r) := if SegmentMaxBytes cfg <=? LogSize seg then roll cfg s else (s, Ok tt) in
                  match r with
                  | Ok _ => (set_dataCh s (dataCh s + 1), Ok baseOff)
                  | m => (s, failure m)
                  end
              | m => (s, failure m)
              end
          | m => (s, failure m)
          end
      | m => (s, failure m)
      end
  | m => (s, failure m)
  end.

Definition Read (s : storageImpl) (offset maxBytes : Z) : outcome (list byte * Z) :=
  let segs := segments s in
  if len segs =? 0 then Ok ([], offset) else
  first ← index segs 0;
  if offset <? baseOffset first then Err ErrOffsetOutOfRange else
  if nextOffset s <=? offset then Ok ([], offset) else
  lo ← last_search (S (length segs))
    (fun mid => seg ← index segs mid; Ok (baseOffset seg <=? offset)) 0 (len segs - 1);
  seg ← index segs lo;
  Seg.Read (dir s) seg offset maxBytes.

Fixpoint ReadByTime_loop (fs : files) (segs : list SegmentStorage) (timestampMs maxBytes : Z)
  : outcome (list byte * Z) :=
  match segs with
  | [] => Err ErrTimestampNotFound
  | seg :: segs' =>
      match Seg.ReadByTime fs seg timestampMs maxBytes with
      | Ok (data, next) =>
          if len data =? 0 then ReadByTime_loop fs segs' timestampMs maxBytes else Ok (data, next)
      | Err e =>
          if bool_decide (e = ErrTimestampNotFound) then ReadByTime_loop fs segs' timestampMs maxBytes
          else Err e
      | Panic p => Panic p
      | OutOfFuel => OutOfFuel
      end
  end.

Definition ReadByTime (s : storageImpl) (timestampMs maxBytes : Z) : outcome (list byte * Z) :=
  ReadByTime_loop (dir s) (segments s) timestampMs maxBytes.

Definition EarliestOffset (s : storageImpl) : Z :=
  match segments s with [] => 0 | seg :: _ => baseOffset seg end.

Definition LatestOffset (s : storageImpl) : Z := nextOffset s.

Definition NewDataCh (s : storageImpl) : Z := dataCh s.

(** Whether a channel obtained earlier has been closed. *)
Definition ch_closed (s : storageImpl) (ch : Z) : bool := ch <? dataCh s.

Definition SetRetentionConfig (s : storageImpl) (ms bytes : Z) : storageImpl :=
  {| dir := dir s; segments := segments s; nextOffset := nextOffset s; dataCh := dataCh s;
     retentionMs := ms; retentionBytes := bytes; closed := closed s |}.

(** [os.Remove] of the three files of a segment, errors ignored. *)
Definition remove_files (fs : files) (base : Z) : files :=
  delete (timeName base) (delete (indexName base) (delete (logName base) fs)).

Definition remove_all (fs : files) (segs : list SegmentStorage) : files :=
  fold_left (fun fs seg => remove_files fs (baseOffset seg)) segs fs.

(** [lo := len(segs)-1; for lo > 0 && segs[lo].BaseOffset() > offset { lo-- }]. *)
Fixpoint trunc_lo (segs : list SegmentStorage) (lo : nat) (offset : Z) : outcome nat :=
  match lo with
  | O => Ok O
  | S lo' =>
      seg ← index segs (Z.of_nat lo);
      if offset <? baseOffset seg then trunc_lo segs lo' offset else Ok lo
  end.

(** The part of [TruncateTo] on the segment that becomes the last one: reopen a sealed log for
    writing, cut it, rebuild the indexes. *)
Definition truncate_segment (cfg : StorageConfig) (fs : files) (activeSeg : SegmentStorage) (offset : Z)
  : outcome (files * SegmentStorage) :=
  '(fs, activeSeg) ←
    (if sealed activeSeg then
       '(fs, newLog) ← OpenLogSegment fs (logName (baseOffset activeSeg)) (baseOffset activeSeg) true;
       Ok (fs, set_sealed (set_log activeSeg newLog) false)
     else Ok (fs, activeSeg));
  truncPos ← findBytePosForOffset fs activeSeg offset;
  let '(fs, l) := LogSeg.Truncate fs (log activeSeg) truncPos in
  rebuildSegmentIndexes fs (set_log activeSeg l) cfg.

Definition TruncateTo (cfg : StorageConfig) (s : storageImpl) (offset : Z) : outcome storageImpl :=
  if offset =? nextOffset s then Ok s else
  if nextOffset s <? offset then Err (ErrNew "TruncateTo > LatestOffset") else
  let segs := segments s in
  if len segs =? 0 then Ok s else
  lo ← trunc_lo segs (length segs - 1) offset;
  let fs := remove_all (dir s) (drop (lo + 1) segs) in
  activeSeg ← index segs (Z.of_nat lo);
  '(fs, activeSeg) ← truncate_segment cfg fs activeSeg offset;
  Ok (set_nextOffset (set_segments s fs (take lo segs ++ [activeSeg])) offset).

(** [Close] seals the active segment; a second call does nothing. *)
Definition Close (s : storageImpl) : outcome storageImpl :=
  if closed s then Ok s else
  let s := set_closed s in
  match last (segments s) with
  | None => Ok s
  | Some seg =>
      if sealed seg then Ok s else
      let '(fs, seg) := Seg.Seal (dir s) seg in
      Ok (set_active s fs seg)
  end.

(** ** Retention *)

Definition firstBatchTimestamp (fs : files) (seg : SegmentStorage) : outcome Z :=
  match ReadAt (contents fs (ls_file (log seg))) 0 38 with
  | Ok header => v ← getUint64 header 22; Ok (i64 v)
  | Err e => Err (ErrWrap "read batch header" e)
  | Panic p => Panic p
  | OutOfFuel => OutOfFuel
  end.

(** Bytes retention: mark the oldest sealed segments while the total is above the limit. *)
Fixpoint mark_bytes (sealedSegs : list SegmentStorage) (total limit : Z) : list bool :=
  match sealedSegs with
  | [] => []
  | seg :: segs =>
      if limit <? total then true :: mark_bytes segs (total - LogSize seg) limit
      else replicate (length sealedSegs) false
  end.

(** Time retention: mark [segs[i]] when the first batch of its successor is older than the
    cutoff; an unreadable successor is skipped. *)
Definition expired (fs : files) (next : SegmentStorage) (cutoff : Z) : bool :=
  match firstBatchTimestamp fs next with Ok ts => ts <? cutoff | _ => false end.

Definition total_size (segs : list SegmentStorage) : Z := fold_right (fun s t => LogSize s + t) 0 segs.

(** [reasons[i] <> ""], decided on the snapshot of the segment list. *)
Definition retention_marks (fs : files) (segs : list SegmentStorage) (retMs retBytes nowMs : Z) : list bool :=
  let sealedSegs := removelast segs in
  let by_bytes := if 0 <=? retBytes then mark_bytes sealedSegs (total_size segs) retBytes
                  else replicate (length sealedSegs) false in
  zip_with (fun (m : bool) (next : SegmentStorage) =>
              m || ((0 <? retMs) && expired fs next (i64 (nowMs - retMs))))
           by_bytes (tail segs).

(** One deletion, under the write lock: unlink the segment from the list, then remove its
    files. Segments are compared by pointer, here by their base offset. *)
Definition delete_segment (s : storageImpl) (base : Z) : storageImpl :=
  set_segments s (remove_files (dir s) base) (filter (fun seg => baseOffset seg <> base) (segments s)).

Definition marked (segs : list SegmentStorage) (marks : list bool) : list Z :=
  (fun p => baseOffset p.1) <$> filter (fun p => p.2 = true) (zip segs marks).

Definition EnforceRetention (s : storageImpl) (retMs retBytes nowMs : Z) : storageImpl * Z :=
  let segs := segments s in
  if len segs <=? 1 then (s, 0) else
  let bases := marked (removelast segs) (retention_marks (dir s) segs retMs retBytes nowMs) in
  (fold_left delete_segment bases s, len bases).

(** ** The storage invariant *)

(** Sealed segments [segs] hold the batches [bss], consecutively from offset [off]. *)
Fixpoint sealed_ok (cfg : StorageConfig) (fs : files) (off : Z)
    (segs : list SegmentStorage) (bss : list (list (list byte))) : Prop :=
  match segs, bss with
  | [], [] => True
  | seg :: segs', bs :: bss' =>
      baseOffset seg = off /\ sealed seg = true /\ seg_ok cfg fs seg bs /\ sealed_files cfg fs off bs /\
      bs <> [] /\ starts_below (SegmentMaxBytes cfg) (removelast bs) /\
      sealed_ok cfg fs (end_off off bs) segs' bss'
  | _, _ => False
  end.

(** Every file of the directory belongs to a segment. *)
Definition files_of (fs : files) (segs : list SegmentStorage) : Prop :=
  forall n c, fs !! n = Some c -> exists seg, seg ∈ segs /\ n ∈ seg_files (baseOffset seg).

Record storage_ok (cfg : StorageConfig) (s : storageImpl) (off : Z) (segs : list SegmentStorage)
    (bss : list (list (list byte))) (act : SegmentStorage) (bs : list (list byte)) : Prop := {
  so_segments : segments s = segs ++ [act];
  so_start : 0 <= off;
  so_sealed : sealed_ok cfg (dir s) off segs bss;
  so_act_base : baseOffset act = end_off off (concat bss);
  so_act : seg_ok cfg (dir s) act bs;
  so_active : active_ok cfg act bs;
  so_next : nextOffset s = end_off (baseOffset act) bs;
  so_files : files_of (dir s) (segments s);
  so_open : closed s = false
}.

(** The storage [s] holds the log [l], which starts at offset [off]. *)
Definition represents (cfg : StorageConfig) (s : storageImpl) (off : Z) (l : list (list byte)) : Prop :=
  exists segs bss act bs, storage_ok cfg s off segs bss act bs /\ l = concat bss ++ bs.

Lemma seg_files_disjoint a b : offset_ok a -> offset_ok b -> a <> b -> seg_files a ## seg_files b.
Proof.
  intros Ha Hb Hne. unfold seg_files.
  assert (logName a <> logName b) by (intros E%logName_inj; done).
  assert (indexName a <> indexName b) by (intros E%indexName_inj; done).
  assert (timeName a <> timeName b) by (intros E%timeName_inj; done).
  pose proof (log_index_ne a b Ha Hb). pose proof (log_index_ne b a Hb Ha).
  pose proof (log_time_ne a b Ha Hb). pose proof (log_time_ne b a Hb Ha).
  pose proof (index_time_ne a b Ha Hb). pose proof (index_time_ne b a Hb Ha). names_solver.
Qed.

Lemma chain_nonempty off bs : chain off bs -> bs <> [] -> off < end_off off bs.
Proof.
  destruct bs as [|b bs]; [done|]. intros ((_ & _ & Hc & _) & _ & _) _. cbn [end_off].
  pose proof (end_off_mono (off + batch_count b) bs). lia.
Qed.

Lemma sealed_ok_chain cfg fs off segs bss :
  sealed_ok cfg fs off segs bss -> chain off (concat bss).
Proof.
  revert off bss. induction segs as [|seg segs IH]; intros off [|bs bss] H; try done.
  destruct H as (_ & _ & _ & [Hb _ _ _] & _ & _ & H). cbn [concat]. apply chain_app.
  split; [apply Hb|by apply IH].
Qed.

(** The base offsets of sealed segments lie between the ends of their part of the log. *)
Lemma sealed_ok_bases cfg fs off segs bss seg :
  sealed_ok cfg fs off segs bss -> seg ∈ segs ->
  off <= baseOffset seg < end_off off (concat bss) /\ offset_ok (baseOffset seg).
Proof.
  revert off bss. induction segs as [|seg' segs IH]; intros off [|bs bss] H Hin;
    try (by apply not_elem_of_nil in Hin); try done.
  destruct H as (<- & _ & _ & [Hb _ _ _] & Hne & _ & H). cbn [concat]. rewrite end_off_app.
  pose proof (chain_nonempty _ _ (bo_chain _ _ Hb) Hne).
  pose proof (end_off_mono (end_off (baseOffset seg') bs) (concat bss)).
  apply elem_of_cons in Hin as [->|Hin].
  - split; [lia|]. by eapply base_offset_ok.
  - destruct (IH _ _ H Hin). split; [lia|done].
Qed.

(** Changes to the files of another segment do not matter. *)
Lemma sealed_ok_frame cfg fs fs' X off segs bss :
  sealed_ok cfg fs off segs bss -> frame X fs fs' ->
  (forall seg, seg ∈ segs -> seg_files (baseOffset seg) ## X) -> sealed_ok cfg fs' off segs bss.
Proof.
  revert off bss. induction segs as [|seg segs IH]; intros off [|bs bss] H Hf HX; try done.
  destruct H as (<- & Hs & Hok & Hsf & Hne & Hst & H).
  pose proof (HX seg ltac:(apply elem_of_cons; auto)) as Hd.
  split_and!; try done; [by eapply seg_ok_frame|by eapply sealed_files_frame|].
  apply IH; [done|done|]. intros seg' Hin. apply HX. apply elem_of_cons. auto.
Qed.

Lemma sealed_ok_frame_after cfg fs fs' off segs bss base :
  sealed_ok cfg fs off segs bss -> frame (seg_files base) fs fs' -> offset_ok base ->
  end_off off (concat bss) <= base -> sealed_ok cfg fs' off segs bss.
Proof.
  intros H Hf Hb He. eapply sealed_ok_frame; [done..|]. intros seg Hin.
  destruct (sealed_ok_bases _ _ _ _ _ _ H Hin) as [Hr Ho]. apply seg_files_disjoint; [done|done|lia].
Qed.

Lemma sealed_ok_snoc cfg fs off segs bss seg bs :
  sealed_ok cfg fs off segs bss -> baseOffset seg = end_off off (concat bss) -> sealed seg = true ->
  seg_ok cfg fs seg bs -> sealed_files cfg fs (baseOffset seg) bs -> bs <> [] ->
  starts_below (SegmentMaxBytes cfg) (removelast bs) ->
  sealed_ok cfg fs off (segs ++ [seg]) (bss ++ [bs]).
Proof.
  revert off bss. induction segs as [|seg' segs IH]; intros off [|bs' bss] H Hb Hs Hok Hsf Hne Hst; try done.
  - cbn [concat end_off] in Hb. cbn. by rewrite <- Hb.
  - destruct H as (H1 & H2 & H3 & H4 & H5 & H6 & H7). cbn [app concat] in *. rewrite end_off_app in Hb.
    cbn [sealed_ok]. split_and!; try done. by apply IH.
Qed.

Lemma storage_ok_range cfg s off segs bss act bs :
  storage_ok cfg s off segs bss act bs ->
  off <= baseOffset act <= nextOffset s /\ nextOffset s < 2 ^ 63 /\ offset_ok (baseOffset act).
Proof.
  intros []. pose proof (ok_batches _ _ _ _ so_act0) as Hb. pose proof (base_offset_ok _ _ Hb).
  destruct Hb as [_ _ He _]. pose proof (end_off_mono off (concat bss)).
  pose proof (end_off_mono (baseOffset act) bs). rewrite so_next0. split; [lia|]. split; [lia|done].
Qed.

(** The name of a segment that starts at or after the active one's end is free. *)
Lemma fresh_names cfg s off segs bss act bs base :
  storage_ok cfg s off segs bss act bs -> baseOffset act < base -> offset_ok base ->
  dir s !! logName base = None /\ dir s !! indexName base = None /\ dir s !! timeName base = None.
Proof.
  intros Hok Hlt Hbase. pose proof (storage_ok_range _ _ _ _ _ _ _ Hok) as (Hr & _ & Ha).
  assert (forall n, n ∈ seg_files base -> dir s !! n = None) as H.
  { intros n Hn. destruct (dir s !! n) as [c|] eqn:E; [|done].
    destruct (so_files _ _ _ _ _ _ _ Hok _ _ E) as (seg & Hin & Hn').
    rewrite (so_segments _ _ _ _ _ _ _ Hok), elem_of_app, list_elem_of_singleton in Hin.
    assert (offset_ok (baseOffset seg) /\ baseOffset seg < base) as [Ho Hl].
    { destruct Hin as [Hin| ->]; [|done].
      destruct (sealed_ok_bases _ _ _ _ _ _ (so_sealed _ _ _ _ _ _ _ Hok) Hin).
      rewrite <- (so_act_base _ _ _ _ _ _ _ Hok) in *. split; [done|lia]. }
    pose proof (seg_files_disjoint _ _ Ho Hbase ltac:(lia)) as Hd. by destruct (Hd n). }
  unfold seg_files in H. clear Hok Hr. split_and!; apply H; set_solver.
Qed.

(** ** Append *)

Lemma active_snoc s segs act : segments s = segs ++ [act] -> active s = Ok act.
Proof. intros H. unfold active. rewrite H. apply index_mid. len_lia. Qed.

Lemma removelast_snoc {A} (l : list A) x : removelast (l ++ [x]) = l.
Proof. apply removelast_last. Qed.

Lemma starts_below_prefix M bs1 bs2 : starts_below M (bs1 ++ bs2) -> starts_below M bs1.
Proof.
  intros H pre b ->. destruct bs2 as [|b2 bs2 _] using rev_ind.
  - apply (H pre b). by rewrite app_nil_r.
  - specialize (H ((pre ++ [b]) ++ bs2) b2 ltac:(by rewrite <- !app_assoc)).
    rewrite !concat_app, !len_app in H. len_pos. lia.
Qed.

Lemma files_of_frame fs fs' segs segs' X :
  files_of fs segs -> frame X fs fs' -> (forall n, n ∈ X -> exists seg, seg ∈ segs' /\ n ∈ seg_files (baseOffset seg)) ->
  (forall seg, seg ∈ segs -> exists seg', seg' ∈ segs' /\ baseOffset seg' = baseOffset seg) ->
  files_of fs' segs'.
Proof.
  intros Hfo Hf HX Hsegs n c Hn. destruct (decide (n ∈ X)) as [Hx|Hx]; [by apply HX|].
  rewrite Hf in Hn by done. destruct (Hfo _ _ Hn) as (seg & Hin & Hn').
  destruct (Hsegs _ Hin) as (seg' & Hin' & E). exists seg'. by rewrite E.
Qed.

(** The state just after the active segment took a batch. *)
Lemma append_step cfg s off segs bss act bs b :
  cfg_ok cfg -> storage_ok cfg s off segs bss act bs -> wf_batch b ->
  nextOffset s + batch_count b < 2 ^ 63 ->
  let b' := Batch.withBaseOffset b (nextOffset s) in
  exists fs' act', Seg.Append cfg (dir s) act b' = (fs', act', Ok (len (concat bs))) /\
    let s' := set_nextOffset (set_segments s fs' (segs ++ [act'])) (nextOffset s + batch_count b) in
    baseOffset act' = baseOffset act /\ seg_ok cfg fs' act' (bs ++ [b']) /\
    sealed_ok cfg fs' off segs bss /\ nextOffset s' = end_off (baseOffset act) (bs ++ [b']) /\
    files_of fs' (segs ++ [act']) /\
    (starts_below (SegmentMaxBytes cfg) (bs ++ [b']) -> active_ok cfg act' (bs ++ [b'])).
Proof.
  intros Hcfg Hok Hwf Hend b'. pose proof (storage_ok_range _ _ _ _ _ _ _ Hok) as (Hr & Hn & Ha).
  destruct Hok. pose proof (wf_len _ Hwf) as Hl.
  assert (batch_base b' = nextOffset s) as Eb by (apply withBase_base; unfold in_i64; lia).
  assert (batch_count b' = batch_count b) as Ec by (apply withBase_count; lia).
  destruct (Append_ok cfg (dir s) act bs b') as (fs' & act' & E & F & Hseg & Ebase & Hact); try done.
  { by apply withBase_wf. }
  { by rewrite Eb. }
  { by rewrite Ec, <- so_next0. }
  exists fs', act'. split; [done|]. cbv zeta. split_and!; try done.
  - eapply sealed_ok_frame_after; [done|exact F|done|lia].
  - cbn [nextOffset set_nextOffset]. rewrite end_off_app, so_next0. cbn [end_off]. by rewrite Ec.
  - eapply files_of_frame; [exact so_files0|exact F|..].
    + intros n Hn'. exists act'. rewrite elem_of_app, list_elem_of_singleton, Ebase. auto.
    + intros seg. rewrite so_segments0, !elem_of_app, list_elem_of_singleton. intros [Hin| ->].
      * exists seg. rewrite elem_of_app. auto.
      * exists act'. rewrite elem_of_app, list_elem_of_singleton. auto.
Qed.

(** Rolling seals the active segment and starts an empty one at the next offset. *)
Lemma roll_ok cfg s off segs bss act bs :
  cfg_ok cfg -> segments s = segs ++ [act] -> 0 <= off -> sealed_ok cfg (dir s) off segs bss ->
  baseOffset act = end_off off (concat bss) -> seg_ok cfg (dir s) act bs -> bs <> [] ->
  starts_below (SegmentMaxBytes cfg) (removelast bs) -> nextOffset s = end_off (baseOffset act) bs ->
  files_of (dir s) (segments s) -> closed s = false ->
  exists s' act' new, roll cfg s = (s', Ok tt) /\
    storage_ok cfg s' off (segs ++ [act']) (bss ++ [bs]) new [] /\ nextOffset s' = nextOffset s /\
    dataCh s' = dataCh s.
Proof.
  intros Hcfg Hsegs H0 Hsl Hab Hact Hne Hst Hnext Hfiles Hcl. unfold roll.
  rewrite (active_snoc _ _ _ Hsegs). destruct (Seg.Seal (dir s) act) as [fs1 act1] eqn:E.
  destruct (Seal_ok _ _ _ _ _ _ Hact E) as (F1 & B1 & S1 & _ & Hact1 & Hsf).
  pose proof (ok_batches _ _ _ _ Hact) as Hb. pose proof (base_offset_ok _ _ Hb) as Ho.
  pose proof (chain_nonempty _ _ (bo_chain _ _ Hb) Hne) as Hlt.
  assert (frame (seg_files (baseOffset act)) (dir s) fs1) as F1'
    by (eapply frame_mono; [|exact F1]; unfold seg_files; clear; set_solver).
  assert (sealed_ok cfg fs1 off segs bss) as Hsl1 by (eapply sealed_ok_frame_after; [done|done|done|lia]).
  assert (sealed_ok cfg fs1 off (segs ++ [act1]) (bss ++ [bs])) as Hsl2
    by (apply sealed_ok_snoc; rewrite ?B1; done).
  assert (files_of fs1 (segs ++ [act1])) as Hf1.
  { eapply files_of_frame; [exact Hfiles|exact F1'|..].
    - intros n Hn'. exists act1. rewrite elem_of_app, list_elem_of_singleton, B1. auto.
    - intros seg. rewrite Hsegs, !elem_of_app, list_elem_of_singleton. intros [Hin| ->].
      + exists seg. rewrite elem_of_app. auto.
      + exists act1. rewrite elem_of_app, list_elem_of_singleton. auto. }
  set (base := nextOffset s). assert (offset_ok base) as Hbase by (unfold base, offset_ok in *; destruct Hb; lia).
  assert (forall n, n ∈ seg_files base -> fs1 !! n = None) as Hfree.
  { intros n Hn. destruct (fs1 !! n) as [c|] eqn:En; [|done]. destruct (Hf1 _ _ En) as (seg & Hin & Hn').
    destruct (sealed_ok_bases _ _ _ _ _ _ Hsl2 Hin) as [Hr Hos].
    rewrite concat_app, end_off_app, <- Hab in Hr. cbn [concat] in Hr. rewrite app_nil_r, <- Hnext in Hr.
    pose proof (seg_files_disjoint _ _ Hos Hbase ltac:(unfold base; lia)) as Hd. by destruct (Hd n). }
  destruct (NewSegmentStorage_ok cfg fs1 base Hcfg Hbase) as (fs2 & new & E2 & F2 & B2 & Hnew & Hnact);
    [apply Hfree; unfold seg_files; clear; set_solver..|].
  cbn [set_active set_segments nextOffset segments]. fold base. rewrite E2.
  rewrite Hsegs, removelast_snoc. do 3 eexists. split; [done|]. split; [|done].
  constructor; cbn [set_segments segments dir nextOffset closed]; try done.
  - eapply sealed_ok_frame_after; [exact Hsl2|exact F2|done|].
    rewrite concat_app, end_off_app, <- Hab. cbn [concat]. rewrite app_nil_r, <- Hnext. unfold base. lia.
  - rewrite B2, concat_app, end_off_app, <- Hab. cbn [concat]. rewrite app_nil_r. by rewrite <- Hnext.
  - eapply files_of_frame; [exact Hf1|exact F2|..].
    + intros n Hn. exists new. rewrite elem_of_app, list_elem_of_singleton, B2. auto.
    + intros seg Hin. exists seg. rewrite elem_of_app. auto.
Qed.

Lemma putUint64_withBase b off : 8 <= len b -> putUint64 b 0 (u64 off) = Ok (Batch.withBaseOffset b off).
Proof. intros. unfold putUint64. by rewrite store_Ok by (rewrite ?len_be_bytes; lia). Qed.

Lemma append_represents cfg s off l b :
  cfg_ok cfg -> represents cfg s off l -> wf_batch b -> LatestOffset s + batch_count b < 2 ^ 63 ->
  exists s', Append cfg s b = (s', Ok (LatestOffset s)) /\
    represents cfg s' off (l ++ [Batch.withBaseOffset b (LatestOffset s)]) /\
    LatestOffset s' = LatestOffset s + batch_count b /\ dataCh s' = dataCh s + 1.
Proof.
  intros Hcfg (segs & bss & act & bs & Hok & ->) Hwf Hend. unfold LatestOffset in *.
  pose proof (storage_ok_range _ _ _ _ _ _ _ Hok) as (Hr & Hn & Ha).
  pose proof (wf_len _ Hwf) as Hl. destruct (append_step cfg s off segs bss act bs b Hcfg Hok Hwf Hend)
    as (fs' & act' & E & B' & Hseg & Hsl & Hnext & Hfiles & Hact). destruct Hok.
  set (b' := Batch.withBaseOffset b (nextOffset s)) in *. cbv zeta in Hnext.
  cbn [nextOffset set_nextOffset] in Hnext. unfold Append.
  rewrite so_open0, putUint64_withBase by lia. fold b'. rewrite (active_snoc _ _ _ so_segments0), E.
  rewrite get_count by (unfold b'; rewrite len_withBase; lia).
  assert (batch_count b' = batch_count b) as -> by (apply withBase_count; lia).
  unfold set_active. rewrite so_segments0, removelast_snoc.
  cbn [set_segments nextOffset]. rewrite i64_id by (unfold in_i64; pose proof (batch_count_range b); lia).
  set (s1 := set_nextOffset _ _).
  assert (closed s1 = false) as Hcl1 by done. assert (segments s1 = segs ++ [act']) as Hs1 by done.
  assert (dir s1 = fs') as Hd1 by done. assert (dataCh s1 = dataCh s) as Hch by done.
  assert (nextOffset s1 = nextOffset s + batch_count b) as Hn1 by done. clearbody s1.
  destruct (Z.leb_spec (SegmentMaxBytes cfg) (LogSize act')) as [Hroll|Hno].
  - destruct (roll_ok cfg s1 off segs bss act' (bs ++ [b'])) as (s2 & act2 & new & -> & Hok2 & Hn2 & Hc2);
      rewrite ?Hd1, ?B', ?Hn1, ?Hs1; try done.
    { by destruct bs. }
    { rewrite removelast_snoc. apply so_active0. }
    eexists. split; [done|]. cbn [set_dataCh nextOffset dataCh]. split; [|split; [congruence|lia]].
    exists (segs ++ [act2]), (bss ++ [bs ++ [b']]), new, []. split; [by destruct Hok2|].
    rewrite concat_app. cbn [concat]. by rewrite !app_nil_r, <- !app_assoc.
  - eexists. split; [done|]. cbn [set_dataCh nextOffset dataCh]. split; [|split; [done|lia]].
    exists segs, bss, act', (bs ++ [b']). split; [|by rewrite app_assoc].
    constructor; cbn [set_dataCh segments dir nextOffset closed]; rewrite ?Hd1, ?B', ?Hn1, ?Hs1; try done.
    apply Hact. intros pre x [-> ->]%app_inj_tail. unfold LogSize in Hno.
    rewrite (ok_log_size _ _ _ _ Hseg), concat_app, len_app in Hno. len_pos. lia.
Qed.

(** ** Read *)

(** The segments of the log, in order, sealed or not. *)
Fixpoint linked (cfg : StorageConfig) (fs : files) (off : Z)
    (segs : list SegmentStorage) (bss : list (list (list byte))) : Prop :=
  match segs, bss with
  | [], [] => True
  | seg :: segs', bs :: bss' =>
      baseOffset seg = off /\ seg_ok cfg fs seg bs /\ linked cfg fs (end_off off bs) segs' bss'
  | _, _ => False
  end.

Lemma sealed_linked cfg fs off segs bss act bs :
  sealed_ok cfg fs off segs bss -> baseOffset act = end_off off (concat bss) -> seg_ok cfg fs act bs ->
  linked cfg fs off (segs ++ [act]) (bss ++ [bs]).
Proof.
  revert off bss. induction segs as [|seg segs IH]; intros off [|bs' bss] H Hb Hok; try done.
  destruct H as (H1 & _ & H3 & _ & _ & _ & H7). cbn [concat] in Hb. rewrite end_off_app in Hb.
  split_and!; try done. by apply IH.
Qed.

Lemma linked_above cfg fs off segs bss offset :
  linked cfg fs off segs bss -> offset < off -> Forall (fun s => offset < baseOffset s) segs.
Proof.
  revert off bss. induction segs as [|seg segs IH]; intros off [|bs bss] H Hlt; try done.
  destruct H as (Hb & _ & H). constructor; [lia|]. apply (IH _ _ H).
  pose proof (end_off_mono off bs). lia.
Qed.

(** The segment that holds an offset. *)
Lemma locate cfg fs off segs bss offset :
  linked cfg fs off segs bss -> off <= offset < end_off off (concat bss) ->
  exists l1 seg l2 pre bs post, segs = l1 ++ seg :: l2 /\ concat bss = pre ++ bs ++ post /\
    Forall (fun s => baseOffset s <= offset) l1 /\ Forall (fun s => offset < baseOffset s) l2 /\
    seg_ok cfg fs seg bs /\ chain off pre /\ baseOffset seg = end_off off pre /\
    baseOffset seg <= offset < end_off (baseOffset seg) bs.
Proof.
  revert off bss. induction segs as [|seg segs IH]; intros off [|bs bss] H Ho; try done; [cbn in Ho; lia|].
  destruct H as (Hb & Hok & H). cbn [concat] in *. rewrite end_off_app in Ho.
  destruct (decide (offset < end_off off bs)) as [Hlt|Hge].
  - exists [], seg, segs, [], bs, (concat bss). rewrite Hb. split_and!; try done; [|lia].
    by eapply linked_above.
  - destruct (IH _ _ H) as (l1 & seg' & l2 & pre & bs' & post & -> & E & H1 & H2 & Hok' & Hc & Hb' & Hr); [lia|].
    exists (seg :: l1), seg', l2, (bs ++ pre), bs', post. rewrite E, <- app_assoc, end_off_app.
    pose proof (end_off_mono off bs). split_and!; try done; try lia; [constructor; [lia|done]|].
    apply chain_app. split; [rewrite <- Hb; apply Hok|done].
Qed.

(** The binary search of [Read] finds it. *)
Lemma search_segment l1 seg l2 offset :
  Forall (fun s => baseOffset s <= offset) l1 -> Forall (fun s => offset < baseOffset s) l2 ->
  baseOffset seg <= offset ->
  last_search (S (length (l1 ++ seg :: l2)))
    (fun mid => seg ← index (l1 ++ seg :: l2) mid; Ok (baseOffset seg <=? offset)) 0
    (len (l1 ++ seg :: l2) - 1) = Ok (len l1).
Proof.
  intros H1 H2 Hs. rewrite (last_search_spec (len (l1 ++ seg :: l2)) (len l1 + 1)); [f_equal; lia| |len_lia|len_lia|].
  - intros i Hi. destruct (index_is_Ok _ _ Hi) as (x & Hx & ->). cbn [mbind outcome_bind]. f_equal.
    change (l1 ++ seg :: l2) with (l1 ++ [seg] ++ l2) in Hx. rewrite app_assoc in Hx.
    destruct (Z.ltb_spec i (len l1 + 1)).
    + rewrite lookup_app_l in Hx by (rewrite length_app; unfold len in *; cbn; lia). apply Z.leb_le.
      assert (Forall (fun s => baseOffset s <= offset) (l1 ++ [seg])) as Hl by (apply Forall_app_2; [done|by constructor]).
      by apply (Forall_lookup_1 _ _ _ _ Hl Hx).
    + rewrite lookup_app_r in Hx by (rewrite length_app; unfold len in *; cbn; lia). apply Z.leb_gt.
      by apply (Forall_lookup_1 _ _ _ _ H2 Hx).
  - unfold len. lia.
Qed.

Lemma fetch_end off pre b rest :
  chain off (pre ++ b :: rest) -> default 0 (batch_end <$> last (b :: rest)) = end_off off (pre ++ b :: rest).
Proof.
  intros Hc. destruct (exists_last (l := b :: rest) ltac:(done)) as (l & x & E). rewrite E in *.
  rewrite last_snoc. cbn. rewrite app_assoc in *. by apply chain_last_end.
Qed.

Lemma linked_chain cfg fs off segs bss : linked cfg fs off segs bss -> chain off (concat bss).
Proof.
  revert off bss. induction segs as [|seg segs IH]; intros off [|bs bss] H; try done.
  destruct H as (<- & Hok & H). cbn [concat]. apply chain_app. split; [apply Hok|by apply IH].
Qed.

(** What [represents] says about the whole log. *)
Lemma represents_log cfg s off l :
  represents cfg s off l ->
  chain off l /\ LatestOffset s = end_off off l /\ EarliestOffset s = off /\ 0 <= off /\
  LatestOffset s < 2 ^ 63.
Proof.
  intros (segs & bss & act & bs & Hok & ->). pose proof (storage_ok_range _ _ _ _ _ _ _ Hok) as (_ & Hn & _).
  destruct Hok. pose proof (sealed_linked _ _ _ _ _ _ _ so_sealed0 so_act_base0 so_act0) as Hl.
  pose proof (linked_chain _ _ _ _ _ Hl) as Hc. rewrite concat_app in Hc. cbn [concat] in Hc. rewrite app_nil_r in Hc.
  split_and!; try done.
  - unfold LatestOffset. by rewrite so_next0, so_act_base0, end_off_app.
  - unfold EarliestOffset. rewrite so_segments0. destruct segs as [|seg segs].
    + cbn. destruct bss; [|done]. by rewrite so_act_base0.
    + cbn. destruct bss; [done|]. by destruct so_sealed0.
Qed.

Lemma read_inside cfg s off l offset maxBytes :
  cfg_ok cfg -> represents cfg s off l -> off <= offset < LatestOffset s ->
  exists pre b rest post, l = pre ++ (b :: rest) ++ post /\
    Storage.Read s offset maxBytes = Ok (concat (b :: rest), end_off off (pre ++ b :: rest)) /\
    batch_base b <= offset < batch_end b /\ (rest = [] \/ len (concat (b :: rest)) <= maxBytes).
Proof.
  intros Hcfg Hrep Ho. pose proof (represents_log _ _ _ _ Hrep) as (Hc & Hlat & Hear & H0 & Hmax).
  destruct Hrep as (segs & bss & act & bs & Hok & ->).
  destruct Hok. pose proof (sealed_linked _ _ _ _ _ _ _ so_sealed0 so_act_base0 so_act0) as Hl.
  destruct (locate _ _ _ _ _ offset Hl) as (l1 & seg & l2 & pre & bsi & post & Es & Eb & H1 & H2 & Hsok & Hpre & Hbase & Hr).
  { rewrite concat_app. cbn [concat]. rewrite app_nil_r, <- Hlat. exact Ho. }
  rewrite concat_app in Eb. cbn [concat] in Eb. rewrite app_nil_r in Eb. rewrite Eb in *.
  pose proof (ok_batches _ _ _ _ Hsok) as Hb.
  destruct (fetched_spec _ _ offset maxBytes (bo_chain _ _ Hb) Hr) as (p & b & rest & q & -> & Ef & Hp & Hbr & Hfit).
  exists (pre ++ p), b, rest, (q ++ post). split; [by rewrite <- !app_assoc|]. split; [|done].
  unfold Read. unfold EarliestOffset, LatestOffset in *. rewrite so_segments0, Es in *.
  rewrite (proj2 (Z.eqb_neq _ _)) by len_lia.
  assert (exists first, index (l1 ++ seg :: l2) 0 = Ok first /\ baseOffset first = off) as (first & -> & Hf)
    by (destruct l1; by eexists).
  cbn [mbind outcome_bind]. rewrite (proj2 (Z.ltb_ge _ _)), (proj2 (Z.leb_gt _ _)) by lia.
  rewrite (search_segment l1 seg l2) by (done || lia). cbn [mbind outcome_bind].
  rewrite index_mid by done. cbn [mbind outcome_bind]. rewrite (Seg.Read_fetch cfg _ _ _ _ _ Hcfg Hsok).
  - unfold fetch. rewrite Ef. do 2 f_equal. rewrite app_assoc in Hc. rewrite <- (app_assoc pre p).
    rewrite end_off_app, <- Hbase. destruct Hb as [Hcb _ _ _]. rewrite app_assoc in Hcb. apply chain_app in Hcb as [Hcb _].
    rewrite <- (fetch_end _ _ _ _ Hcb). by destruct (exists_last (l := b :: rest) ltac:(done)) as (x & y & ->); rewrite last_snoc.
  - lia.
  - pose proof (chain_end_bound _ _ (bo_chain _ _ Hb)). pose proof (bo_size _ _ Hb). lia.
Qed.

Lemma read_outside cfg s off l offset maxBytes :
  represents cfg s off l ->
  (offset < off -> Storage.Read s offset maxBytes = Err ErrOffsetOutOfRange) /\
  (off <= offset -> LatestOffset s <= offset -> Storage.Read s offset maxBytes = Ok ([], offset)).
Proof.
  intros Hrep. pose proof (represents_log _ _ _ _ Hrep) as (_ & _ & Hear & _ & _).
  destruct Hrep as (segs & bss & act & bs & Hok & ->). destruct Hok. unfold Read, EarliestOffset, LatestOffset in *.
  rewrite so_segments0 in *. rewrite (proj2 (Z.eqb_neq _ _)) by len_lia.
  assert (exists first, index (segs ++ [act]) 0 = Ok first /\ baseOffset first = off) as (first & -> & Hf)
    by (destruct segs; by eexists).
  cbn [mbind outcome_bind]. split; intros.
  - by rewrite (proj2 (Z.ltb_lt _ _)) by lia.
  - by rewrite (proj2 (Z.ltb_ge _ _)), (proj2 (Z.leb_le _ _)) by lia.
Qed.

(** A reader that follows the returned offsets until nothing is returned. *)
Fixpoint drain (fuel : nat) (s : storageImpl) (offset maxBytes : Z) : outcome (list byte) :=
  match fuel with
  | O => OutOfFuel
  | S fuel' =>
      '(data, next) ← Read s offset maxBytes;
      if len data =? 0 then Ok [] else
      rest ← drain fuel' s next maxBytes;
      Ok (data ++ rest)
  end.

(** In a chain, the prefix that ends where a batch begins is determined. *)
Lemma chain_split_unique off pre post pre' b post' :
  chain off (pre ++ post) -> pre ++ post = pre' ++ b :: post' ->
  end_off off pre' <= end_off off pre < end_off off pre' + batch_count b -> pre = pre' /\ post = b :: post'.
Proof.
  intros Hc E Hr. apply app_eq_app in E as (k & [[-> E]|[-> E]]).
  - destruct k as [|b' k]; [by rewrite app_nil_r|]. exfalso. cbn in E. injection E as -> ->.
    rewrite end_off_app in Hr. cbn [end_off] in Hr. pose proof (end_off_mono (end_off off pre' + batch_count b') k). lia.
  - destruct k as [|b' k]; [by rewrite app_nil_r|]. exfalso. subst post. rewrite end_off_app in Hr.
    rewrite app_assoc in Hc. apply chain_app in Hc as [Hc _].
    apply chain_app in Hc as [_ Hc]. pose proof (chain_nonempty _ _ Hc ltac:(done)). lia.
Qed.

Lemma drain_from cfg s off l maxBytes :
  cfg_ok cfg -> represents cfg s off l ->
  forall fuel pre post, l = pre ++ post -> (length post < fuel)%nat ->
  drain fuel s (end_off off pre) maxBytes = Ok (concat post).
Proof.
  intros Hcfg Hrep. pose proof (represents_log _ _ _ _ Hrep) as (Hc & Hlat & _ & _ & _).
  induction fuel as [|fuel IH]; intros pre post -> Hf; [lia|]. cbn [drain].
  pose proof (end_off_mono off pre). destruct post as [|b0 post].
  { rewrite app_nil_r in Hlat. destruct (read_outside cfg s off _ (end_off off pre) maxBytes Hrep) as [_ ->]; [done|lia|lia]. }
  pose proof Hc as Hc'. apply chain_app in Hc' as [_ Hc']. pose proof (chain_nonempty _ _ Hc' ltac:(done)).
  rewrite end_off_app in Hlat.
  destruct (read_inside cfg s off _ (end_off off pre) maxBytes Hcfg Hrep) as (p & b & rest & q & E & -> & Hb & _); [lia|].
  assert (chain off (p ++ (b :: rest) ++ q)) as Hc2 by (by rewrite <- E).
  pose proof Hc2 as Hc3. apply chain_app in Hc3 as [_ (Hwf & Hbase & _)].
  unfold batch_end in Hb. rewrite Hbase in Hb.
  destruct (chain_split_unique off pre (b0 :: post) p b (rest ++ q)) as [-> E2]; try done.
  cbn [mbind outcome_bind]. pose proof (wf_len _ Hwf). rewrite (proj2 (Z.eqb_neq _ _)) by (cbn [concat]; len_lia).
  rewrite (IH (p ++ b :: rest) q); [|by rewrite <- app_assoc|].
  - cbn [mbind outcome_bind]. by rewrite E2, <- concat_app.
  - apply (f_equal length) in E2. cbn [length] in *. rewrite length_app in E2. lia.
Qed.

(** ** The contract *)

(** Appending a well-formed batch to an open storage succeeds, returns the next offset,
    and leaves the log extended by that batch with the offset written into it; waiters on the
    data channel are woken. Whether the segment rolls is invisible. *)
Theorem Append_refines cfg s off l b :
  cfg_ok cfg -> represents cfg s off l -> wf_batch b -> LatestOffset s + batch_count b < 2 ^ 63 ->
  exists s', Append cfg s b = (s', Ok (LatestOffset s)) /\
    represents cfg s' off (l ++ [Batch.withBaseOffset b (LatestOffset s)]) /\
    LatestOffset s' = LatestOffset s + batch_count b /\ EarliestOffset s' = EarliestOffset s /\
    ch_closed s' (NewDataCh s) = true.
Proof.
  intros Hcfg Hrep Hwf He. destruct (append_represents _ _ _ _ _ Hcfg Hrep Hwf He) as (s' & E & Hrep' & Hl & Hch).
  exists s'. pose proof (represents_log _ _ _ _ Hrep) as (_ & _ & -> & _).
  pose proof (represents_log _ _ _ _ Hrep') as (_ & _ & -> & _). split_and!; try done.
  unfold ch_closed, NewDataCh. apply Z.ltb_lt. lia.
Qed.

(** A read inside the log returns whole consecutive batches: the first holds the offset
    asked for, later ones only while they fit in [maxBytes], and the next offset is the one
    after the last batch returned. An offset that was removed is out of range; at or past the
    end nothing is returned, without an error. *)
Theorem Read_refines cfg s off l offset maxBytes :
  cfg_ok cfg -> represents cfg s off l ->
  (offset < off -> Read s offset maxBytes = Err ErrOffsetOutOfRange) /\
  (off <= offset < LatestOffset s -> exists pre b rest post, l = pre ++ (b :: rest) ++ post /\
    Read s offset maxBytes = Ok (concat (b :: rest), end_off off (pre ++ b :: rest)) /\
    batch_base b <= offset < batch_end b /\ (rest = [] \/ len (concat (b :: rest)) <= maxBytes)) /\
  (off <= offset -> LatestOffset s <= offset -> Read s offset maxBytes = Ok ([], offset)).
Proof.
  intros Hcfg Hrep. destruct (read_outside cfg s off l offset maxBytes Hrep) as [H1 H2].
  split_and!; [done|by eapply read_inside|done].
Qed.

(** Reading from the start and following the returned offsets ends, after at most one
    read per batch and one more, with every byte of the log, whatever the fetch size. *)
Theorem drain_complete cfg s off l maxBytes :
  cfg_ok cfg -> represents cfg s off l ->
  drain (S (length l)) s (EarliestOffset s) maxBytes = Ok (concat l).
Proof.
  intros Hcfg Hrep. pose proof (represents_log _ _ _ _ Hrep) as (_ & _ & -> & _).
  apply (drain_from cfg s off l maxBytes Hcfg Hrep (S (length l)) [] l); [done|lia].
Qed.

End Storage.
