(* ===== verification/StorageOpen.v ===== *)
(** * Opening, closing and crashing

    [Open] of internal/storage/storage.go over every directory the storage can leave behind:
    an empty one, one that was closed, and one in which the process died at any point of an
    append, so that the active log is cut at an arbitrary byte and its index files hold
    anything. *)

From S2P Require Import Prelude Batch SegName LogSegment BinSearch OffsetIndex TimeIndex BatchLog Segment Recovery Storage.
Local Open Scope Z_scope.

Module StorageOpen.
Import LogSeg SegName BatchLog Seg Recovery Storage.

(** ** Directories on disk *)

(** Sealed segments on disk, consecutively from [off]. *)
Fixpoint sealed_disk (cfg : StorageConfig) (fs : files) (off : Z) (bss : list (list (list byte))) : Prop :=
  match bss with
  | [] => True
  | bs :: bss' =>
      sealed_files cfg fs off bs /\ bs <> [] /\ starts_below (SegmentMaxBytes cfg) (removelast bs) /\
      sealed_disk cfg fs (end_off off bs) bss'
  end.

(** The base offsets of the segments. *)
Fixpoint bases (off : Z) (bss : list (list (list byte))) : list Z :=
  match bss with
  | [] => []
  | bs :: bss' => off :: bases (end_off off bs) bss'
  end.

(** A directory whose last segment holds [bs] and a torn tail [t]. *)
Record disk_ok (cfg : StorageConfig) (fs : files) (off : Z) (bss : list (list (list byte)))
    (bs : list (list byte)) (t : list byte) : Prop := {
  dk_start : 0 <= off;
  dk_sealed : sealed_disk cfg fs off bss;
  dk_active : batches_ok (end_off off (concat bss)) bs;
  dk_room : starts_below (SegmentMaxBytes cfg) bs;
  dk_log : fs !! logName (end_off off (concat bss)) = Some (concat bs ++ t);
  dk_torn : torn t;
  dk_files : forall n c, fs !! n = Some c ->
    exists base, base ∈ bases off bss ++ [end_off off (concat bss)] /\ n ∈ seg_files base
}.

Lemma bases_range cfg fs off bss base :
  sealed_disk cfg fs off bss -> base ∈ bases off bss ->
  off <= base < end_off off (concat bss) /\ offset_ok base.
Proof.
  revert off. induction bss as [|bs bss IH]; intros off H Hin; [by apply not_elem_of_nil in Hin|].
  destruct H as ([Hb _ _ _] & Hne & _ & H). cbn [bases concat] in *. rewrite end_off_app.
  pose proof (chain_nonempty _ _ (bo_chain _ _ Hb) Hne).
  pose proof (end_off_mono (end_off off bs) (concat bss)).
  apply elem_of_cons in Hin as [->|Hin]; [split; [lia|by eapply base_offset_ok]|].
  destruct (IH _ H Hin). split; [lia|done].
Qed.

Lemma bases_sorted cfg fs off bss :
  sealed_disk cfg fs off bss -> StronglySorted Z.lt (bases off bss).
Proof.
  revert off. induction bss as [|bs bss IH]; intros off H; [constructor|].
  destruct H as ([Hb _ _ _] & Hne & _ & H). cbn [bases]. constructor; [by apply IH|].
  apply Forall_forall. intros b Hin. destruct (bases_range _ _ _ _ _ H Hin).
  pose proof (chain_nonempty _ _ (bo_chain _ _ Hb) Hne). lia.
Qed.

Section disk.
Context (cfg : StorageConfig) (fs : files) (off : Z) (bss : list (list (list byte)))
  (bs : list (list byte)) (t : list byte).
Context (Hdisk : disk_ok cfg fs off bss bs t).

Let actBase := end_off off (concat bss).
Let all := bases off bss ++ [actBase].

Lemma all_ok base : base ∈ all -> offset_ok base.
Proof using Hdisk.
  unfold all. rewrite elem_of_app, list_elem_of_singleton. intros [Hin| ->].
  - by apply (bases_range _ _ _ _ _ (dk_sealed _ _ _ _ _ _ Hdisk) Hin).
  - by eapply base_offset_ok, (dk_active _ _ _ _ _ _ Hdisk).
Qed.

Lemma all_sorted : StronglySorted Z.lt all.
Proof using Hdisk.
  apply StronglySorted_app_2.
  - intros a b Ha ->%list_elem_of_singleton.
    by apply (bases_range _ _ _ _ _ (dk_sealed _ _ _ _ _ _ Hdisk)) in Ha as [? _]; lia.
  - by eapply bases_sorted, (dk_sealed _ _ _ _ _ _ Hdisk).
  - repeat constructor.
Qed.

Lemma log_exists base : base ∈ all -> exists c, fs !! logName base = Some c.
Proof using Hdisk.
  unfold all. rewrite elem_of_app, list_elem_of_singleton. intros [Hin| ->].
  - pose proof (dk_sealed _ _ _ _ _ _ Hdisk) as H. clear -H Hin. revert off H Hin.
    induction bss as [|b bss' IH]; intros off H Hin; [by apply not_elem_of_nil in Hin|].
    destruct H as ([_ Hl _ _] & _ & _ & H). cbn [bases] in Hin.
    apply elem_of_cons in Hin as [->|Hin]; [eauto|by eapply IH].
  - eexists. apply (dk_log _ _ _ _ _ _ Hdisk).
Qed.

(** The listing, sorted by name, is the segments in offset order. *)
Lemma matches_eq : matches fs = logName <$> all.
Proof using Hdisk.
  unfold matches, sort_strings. apply (StronglySorted_unique String.le).
  - apply StronglySorted_merge_sort; apply _.
  - pose proof all_sorted as Hs. pose proof all_ok as Ho. revert Hs Ho. generalize all as l.
    induction 1 as [|b l _ IH Hb]; intros Ho; [constructor|]. rewrite fmap_cons. constructor.
    + apply IH. intros b' Hin. apply Ho. apply elem_of_cons. auto.
    + apply Forall_fmap. rewrite Forall_forall in *. intros b' Hin. specialize (Hb _ Hin).
      apply logName_le; [apply Ho; apply elem_of_cons; auto..|lia].
  - rewrite merge_sort_Permutation. apply NoDup_Permutation.
    + apply NoDup_filter. apply NoDup_fst_map_to_list.
    + pose proof all_sorted as Hs. pose proof all_ok as Ho. revert Hs Ho. generalize all as l.
      induction 1 as [|b l _ IH Hb]; intros Ho; [constructor|]. rewrite fmap_cons. constructor.
      * intros Hin. apply list_elem_of_fmap in Hin as (b' & E & Hin). rewrite Forall_forall in Hb.
        specialize (Hb _ Hin). apply logName_inj in E; [lia|apply Ho; apply elem_of_cons; auto..].
      * apply IH. intros b' Hin. apply Ho. apply elem_of_cons. auto.
    + intros n. rewrite list_elem_of_filter, !list_elem_of_fmap. split.
      * intros [Hlog ((n' & c) & -> & Hin)]. apply elem_of_map_to_list in Hin. cbn [fst] in *.
        destruct (dk_files _ _ _ _ _ _ Hdisk _ _ Hin) as (base & Hb & Hn). exists base. split; [|done].
        pose proof (all_ok base Hb) as Ho. unfold is_log in Hlog. unfold seg_files in Hn.
        rewrite !elem_of_union, !elem_of_singleton in Hn. destruct Hn as [[->|E]|E]; [done|..].
        { rewrite E, strip_indexName in Hlog; done. }
        { rewrite E, strip_timeName in Hlog; done. }
      * intros (base & -> & Hin). split; [unfold is_log; by rewrite strip_logName|].
        destruct (log_exists base Hin) as [c Hc]. exists (logName base, c). split; [done|].
        by apply elem_of_map_to_list.
Qed.
End disk.

(** Opening the sealed segments of a directory. *)
Lemma open_sealed_ok cfg fs off bss :
  cfg_ok cfg -> sealed_disk cfg fs off bss ->
  exists segs, open_sealed fs cfg (logName <$> bases off bss) = Ok (fs, segs) /\ sealed_ok cfg fs off segs bss.
Proof.
  intros Hcfg. revert off. induction bss as [|bs bss IH]; intros off H; [by exists []|].
  destruct H as (Hsf & Hne & Hst & H). cbn [bases open_sealed]. rewrite fmap_cons. cbn [open_sealed].
  rewrite parse_logName by (eapply base_offset_ok, Hsf). cbn [mbind outcome_bind].
  destruct (OpenSegmentStorage_readonly_ok cfg fs off bs Hcfg Hsf) as (seg & -> & Hb & Hs & Hok).
  cbn [mbind outcome_bind]. destruct (IH _ H) as (segs & -> & Hsegs). cbn [mbind outcome_bind].
  exists (seg :: segs). by split_and!.
Qed.

Lemma sealed_ok_length cfg fs off segs bss : sealed_ok cfg fs off segs bss -> length segs = length bss.
Proof.
  revert off bss. induction segs as [|seg segs IH]; intros off [|bs bss] H; try done. cbn [length].
  destruct H as (_ & _ & _ & _ & _ & _ & H). f_equal. by eapply IH.
Qed.

(** Recovery of a directory gives a storage that holds its whole batches. *)
Lemma Open_disk cfg fs off bss bs t :
  cfg_ok cfg -> disk_ok cfg fs off bss bs t ->
  exists s, Open fs cfg = Ok s /\ represents cfg s off (concat bss ++ bs) /\ dataCh s = 0 /\
    length (segments s) = S (length bss) /\ LogSize <$> last (segments s) = Some (len (concat bs)).
Proof.
  intros Hcfg Hdisk. unfold Open, recoverStorage. rewrite (matches_eq _ _ _ _ _ _ Hdisk).
  set (actBase := end_off off (concat bss)).
  rewrite fmap_app. cbn [fmap list_fmap]. rewrite last_snoc, removelast_snoc.
  change (list_fmap Z string logName (bases off bss)) with (logName <$> bases off bss).
  destruct (open_sealed_ok cfg fs off bss Hcfg (dk_sealed _ _ _ _ _ _ Hdisk)) as (segs & -> & Hsegs).
  cbn [mbind outcome_bind]. pose proof (dk_active _ _ _ _ _ _ Hdisk) as Hb. fold actBase in Hb.
  destruct (recover_active_ok cfg fs actBase bs t Hcfg Hb) as (fs' & act & e & -> & F & Eb & Hact & Hactive);
    [apply Hdisk..|].
  cbn [mbind outcome_bind]. eexists. split; [done|]. split; [|split; [done|]; cbn [segments]; split].
  2: { rewrite length_app, (sealed_ok_length _ _ _ _ _ Hsegs). cbn [length]. lia. }
  2: { rewrite last_snoc. cbn. unfold LogSize. by rewrite (ok_log_size _ _ _ _ Hact). }
  exists segs, bss, act, bs. split; [|done].
  constructor; cbn [segments dir nextOffset closed]; try done.
  - apply Hdisk.
  - eapply sealed_ok_frame_after; [exact Hsegs|exact F|by eapply base_offset_ok|unfold actBase; lia].
  - by rewrite Eb.
  - intros n c Hn. destruct (decide (n ∈ seg_files actBase)) as [Hin|Hnin].
    { exists act. rewrite elem_of_app, list_elem_of_singleton, Eb. auto. }
    rewrite F in Hn by done. destruct (dk_files _ _ _ _ _ _ Hdisk _ _ Hn) as (base & Hbase & Hnb).
    rewrite elem_of_app, list_elem_of_singleton in Hbase. destruct Hbase as [Hbase| ->]; [|done].
    assert (exists seg, seg ∈ segs /\ baseOffset seg = base) as (seg & Hin & E).
    { clear -Hsegs Hbase. revert off segs Hsegs Hbase.
      induction bss as [|b bss IH]; intros off [|seg segs] Hsegs Hbase; try done; [by apply not_elem_of_nil in Hbase|].
      destruct Hsegs as (Eb & _ & _ & _ & _ & _ & H). cbn [bases] in Hbase.
      apply elem_of_cons in Hbase as [->|Hbase]; [exists seg; by split; [apply elem_of_cons; auto|]|].
      destruct (IH _ _ H Hbase) as (seg' & Hin & E). exists seg'. split; [apply elem_of_cons; auto|done]. }
    exists seg. rewrite elem_of_app, E. auto.
Qed.

(** ** What a crash leaves *)

(** A batch cut short is torn. *)
Lemma torn_prefix b t rest : wf_batch b -> b = t ++ rest -> rest <> [] -> torn t.
Proof.
  intros ([_ Hf] & Hl & _) -> Hne. unfold torn. destruct (decide (len t < 38)); [by left|].
  right. right. left. rewrite sub_app_l in Hf by lia. rewrite Hf.
  destruct rest; [done|]. len_lia.
Qed.

(** Cutting a log at any byte leaves whole batches and a torn tail. *)
Lemma take_chain off bs k :
  chain off bs ->
  exists t, take k (concat bs) = concat (fit (Z.of_nat k) bs) ++ t /\ torn t.
Proof.
  revert off k. induction bs as [|b bs IH]; intros off k Hc; cbn [concat fit].
  { exists []. rewrite take_nil. split; [done|]. left. done. }
  destruct Hc as (Hwf & _ & Hc). destruct (Z.leb_spec (len b) (Z.of_nat k)) as [Hle|Hgt].
  - destruct (IH _ (k - length b)%nat Hc) as (t & E & Ht). exists t. split; [|done].
    rewrite take_app_ge by (unfold len in *; lia). rewrite E. cbn [concat]. rewrite <- app_assoc.
    do 2 f_equal. f_equal. unfold len in *. f_equal. lia.
  - exists (take k b). rewrite take_app_le by (unfold len in *; lia). split; [done|].
    apply (torn_prefix b _ (drop k b)); [done|by rewrite take_drop|].
    intros E%(f_equal length). rewrite length_drop in E. unfold len in *. cbn in E. lia.
Qed.

Lemma fit_lost budget bs post x rest :
  bs = fit budget bs ++ post -> post = x :: rest -> budget < len (concat bs) - len (concat rest).
Proof.
  revert budget. induction bs as [|b bs IH]; intros budget E ->; [by destruct (fit budget [])|].
  cbn [fit concat] in *. destruct (Z.leb_spec (len b) budget).
  - injection E as E. specialize (IH _ E eq_refl). len_lia.
  - injection E as <- <-. len_lia.
Qed.

Lemma batches_ok_prefix base bs1 bs2 : batches_ok base (bs1 ++ bs2) -> batches_ok base bs1.
Proof.
  intros [Hc H0 He Hs]. apply chain_app in Hc as [Hc _]. rewrite end_off_app in He.
  pose proof (end_off_mono (end_off base bs1) bs2). rewrite concat_app, len_app in Hs. len_pos.
  constructor; [done|done|lia|lia].
Qed.

Lemma sealed_disk_of cfg fs off segs bss : sealed_ok cfg fs off segs bss -> sealed_disk cfg fs off bss.
Proof.
  revert off bss. induction segs as [|seg segs IH]; intros off [|bs bss] H; try done.
  destruct H as (_ & _ & _ & H4 & H5 & H6 & H7). split_and!; try done. by apply IH.
Qed.

Lemma sealed_base_in cfg fs off segs bss seg :
  sealed_ok cfg fs off segs bss -> seg ∈ segs -> baseOffset seg ∈ bases off bss.
Proof.
  revert off bss. induction segs as [|seg' segs IH]; intros off [|bs bss] H Hin;
    try done; try (by apply not_elem_of_nil in Hin).
  destruct H as (E & _ & _ & _ & _ & _ & H). cbn [bases].
  apply elem_of_cons in Hin as [->|Hin]; rewrite elem_of_cons; [auto|right; by eapply IH].
Qed.

(** The directory of an open storage, with the active segment's files replaced. *)
Lemma disk_of_storage cfg s off segs bss act bs fs' bs' t :
  storage_ok cfg s off segs bss act bs -> frame (seg_files (baseOffset act)) (dir s) fs' ->
  batches_ok (baseOffset act) bs' -> starts_below (SegmentMaxBytes cfg) bs' -> torn t ->
  fs' !! logName (baseOffset act) = Some (concat bs' ++ t) -> disk_ok cfg fs' off bss bs' t.
Proof.
  intros Hok F Hb Hst Ht Hl. pose proof (storage_ok_range _ _ _ _ _ _ _ Hok) as (_ & _ & Ha). destruct Hok.
  rewrite so_act_base0 in *. constructor; try done.
  - eapply sealed_disk_of, sealed_ok_frame_after; [done|exact F|done|lia].
  - intros n c Hn. destruct (decide (n ∈ seg_files (end_off off (concat bss)))) as [Hin|Hnin].
    { eexists. rewrite elem_of_app, list_elem_of_singleton. auto. }
    rewrite F in Hn by done. destruct (so_files0 _ _ Hn) as (seg & Hin & Hn'). exists (baseOffset seg). split; [|done].
    rewrite so_segments0, elem_of_app, list_elem_of_singleton in Hin.
    rewrite elem_of_app, list_elem_of_singleton. destruct Hin as [Hin| ->]; [left; by eapply sealed_base_in|auto].
Qed.

Lemma last_segment cfg s off segs bss act bs act' :
  storage_ok cfg s off segs bss act bs -> last (segments s) = Some act' -> act' = act.
Proof. intros [-> _ _ _ _ _ _ _ _]. rewrite last_snoc. congruence. Qed.

(** Reopening after a crash during an append. *)
Lemma crash_reopen cfg s off l act b k fs' :
  cfg_ok cfg -> represents cfg s off l -> last (segments s) = Some act ->
  LogSize act < SegmentMaxBytes cfg -> wf_batch b -> LatestOffset s + batch_count b < 2 ^ 63 ->
  frame (seg_files (baseOffset act)) (dir s) fs' ->
  fs' !! logName (baseOffset act) =
    Some (take k (contents (dir s) (logName (baseOffset act)) ++ Batch.withBaseOffset b (LatestOffset s))) ->
  exists s' l' lost, Open fs' cfg = Ok s' /\ represents cfg s' off l' /\
    l ++ [Batch.withBaseOffset b (LatestOffset s)] = l' ++ lost /\
    forall x rest, lost = x :: rest -> Z.of_nat k < LogSize act + len b - len (concat rest).
Proof.
  intros Hcfg (segs & bss & act' & bs & Hok & ->) Hlast Hsize Hwf Hend F Hlog.
  rewrite (last_segment _ _ _ _ _ _ _ _ Hok Hlast) in *. clear Hlast act.
  pose proof (wf_len _ Hwf) as Hl. pose proof (storage_ok_range _ _ _ _ _ _ _ Hok) as (Hr & Hn & Ha).
  pose proof (so_act _ _ _ _ _ _ _ Hok) as Hact. pose proof (so_next _ _ _ _ _ _ _ Hok) as Hnext.
  pose proof (ok_batches _ _ _ _ Hact) as Hb. pose proof (so_start _ _ _ _ _ _ _ Hok).
  unfold LogSize, LatestOffset in *.
  rewrite (ok_log_size _ _ _ _ Hact) in *. unfold contents in Hlog. rewrite (ok_log _ _ _ _ Hact) in Hlog.
  cbn [default from_option id] in Hlog. set (b' := Batch.withBaseOffset b (nextOffset s)) in *.
  assert (len b' = len b) as Elen by (apply len_withBase; lia).
  assert (batches_ok (baseOffset act') (bs ++ [b'])) as Hb'.
  { apply batches_ok_snoc; [done|by apply withBase_wf| | |].
    - unfold b'. rewrite withBase_base by (unfold in_i64; lia). done.
    - unfold b'. rewrite withBase_count by lia. by rewrite <- Hnext.
    - rewrite Elen. pose proof (cfg_max _ Hcfg). unfold maxBatchBytes in *. lia. }
  assert (concat bs ++ b' = concat (bs ++ [b'])) as Ec by (rewrite concat_app; cbn; by rewrite app_nil_r).
  rewrite Ec in Hlog. destruct (take_chain _ _ k (bo_chain _ _ Hb')) as (t & Et & Ht). rewrite Et in Hlog.
  destruct (fit_prefix (Z.of_nat k) (bs ++ [b'])) as (post & Ep & _).
  assert (starts_below (SegmentMaxBytes cfg) (bs ++ [b'])) as Hst by (by intros pre x [-> ->]%app_inj_tail).
  set (kept := fit (Z.of_nat k) (bs ++ [b'])) in *.
  destruct (Open_disk cfg fs' off bss kept t Hcfg) as (s' & E & Hrep & _).
  { eapply disk_of_storage; try done.
    - rewrite Ep in Hb'. by eapply batches_ok_prefix.
    - rewrite Ep in Hst. by eapply starts_below_prefix. }
  exists s', (concat bss ++ kept), post. split_and!; try done.
  - by rewrite <- !app_assoc, <- Ep.
  - intros x rest Hpost. pose proof (fit_lost _ _ _ _ _ Ep Hpost) as Hlt.
    rewrite <- Ec, len_app, Elen in Hlt. lia.
Qed.

(** C3: if the process dies while batch [b] is being appended, so that the active log is cut
    at any byte [k] (writes that were not synced are lost too) and the active index files hold
    anything or are missing, reopening succeeds with a prefix of the log; the first batch lost,
    if any, is one that did not reach the disk whole. *)
Theorem crash_recovers cfg s off l act b k fs' :
  cfg_ok cfg -> represents cfg s off l -> last (segments s) = Some act ->
  LogSize act < SegmentMaxBytes cfg -> wf_batch b -> LatestOffset s + batch_count b < 2 ^ 63 ->
  frame (seg_files (baseOffset act)) (dir s) fs' ->
  fs' !! logName (baseOffset act) =
    Some (take k (contents (dir s) (logName (baseOffset act)) ++ Batch.withBaseOffset b (LatestOffset s))) ->
  exists s' l' lost, Open fs' cfg = Ok s' /\ represents cfg s' off l' /\
    l ++ [Batch.withBaseOffset b (LatestOffset s)] = l' ++ lost /\
    forall x rest, lost = x :: rest -> Z.of_nat k < LogSize act + len b - len (concat rest).
Proof. apply crash_reopen. Qed.

(** Closing and opening again keeps the log, the number of segments and the size of the last. *)
Lemma close_open cfg s off l :
  cfg_ok cfg -> represents cfg s off l ->
  exists s1 s2, Close s = Ok s1 /\ closed s1 = true /\ Open (dir s1) cfg = Ok s2 /\ represents cfg s2 off l /\
    LatestOffset s2 = LatestOffset s /\ len (segments s2) = len (segments s) /\
    LogSize <$> last (segments s2) = LogSize <$> last (segments s).
Proof.
  intros Hcfg Hrep. pose proof (represents_log _ _ _ _ Hrep) as (_ & Hlat & _).
  destruct Hrep as (segs & bss & act & bs & Hok & ->). pose proof Hok as Hok'. destruct Hok'.
  unfold Close. rewrite so_open0. change (segments (set_closed s)) with (segments s).
  change (dir (set_closed s)) with (dir s). rewrite so_segments0, last_snoc.
  rewrite (act_sealed _ _ _ so_active0). destruct (Seg.Seal (dir s) act) as [fs1 act1] eqn:E.
  destruct (Seal_ok _ _ _ _ _ _ so_act0 E) as (F1 & _ & _ & _ & _ & [Hb Hl _ _]).
  destruct (Open_disk cfg fs1 off bss bs [] Hcfg) as (s2 & E2 & Hrep2 & _ & Hn & Hsz).
  { eapply disk_of_storage; try done.
    - eapply frame_mono; [|exact F1]. unfold seg_files. clear. set_solver.
    - apply so_active0.
    - by left.
    - by rewrite app_nil_r. }
  do 2 eexists. split; [done|]. split; [done|]. split; [exact E2|]. split; [done|].
  pose proof (represents_log _ _ _ _ Hrep2) as (_ & -> & _). split; [done|]. split.
  - unfold len. rewrite Hn, length_app, (sealed_ok_length _ _ _ _ _ so_sealed0). cbn [length]. lia.
  - rewrite Hsz. cbn. unfold LogSize. by rewrite (ok_log_size _ _ _ _ so_act0).
Qed.

(** Closing seals the active segment and refuses further appends; opening the directory
    again gives a storage with the same log and the same offsets. *)
Theorem Close_Open cfg s off l batch :
  cfg_ok cfg -> represents cfg s off l ->
  exists s1 s2, Close s = Ok s1 /\ Append cfg s1 batch = (s1, Err ErrStorageClosed) /\
    Open (dir s1) cfg = Ok s2 /\ represents cfg s2 off l /\ LatestOffset s2 = LatestOffset s.
Proof.
  intros Hcfg Hrep. destruct (close_open cfg s off l Hcfg Hrep) as (s1 & s2 & Ec & Hcl & Eo & H2 & Hl & _).
  exists s1, s2. split_and!; try done. unfold Append. by rewrite Hcl.
Qed.

(** A crash between two operations loses nothing. *)
Lemma reopen_represents cfg s off l :
  cfg_ok cfg -> represents cfg s off l -> exists s', Open (dir s) cfg = Ok s' /\ represents cfg s' off l.
Proof.
  intros Hcfg (segs & bss & act & bs & Hok & ->). pose proof Hok as Hok'. destruct Hok'.
  destruct (Open_disk cfg (dir s) off bss bs [] Hcfg) as (s' & E & Hrep & _); [|by exists s'].
  eapply disk_of_storage; [exact Hok|by intros n Hn|apply so_act0|apply so_active0|by left|].
  rewrite app_nil_r. apply (ok_log _ _ _ _ so_act0).
Qed.

Lemma open_empty cfg :
  cfg_ok cfg -> exists s, Open ∅ cfg = Ok s /\ represents cfg s 0 [] /\ LatestOffset s = 0.
Proof.
  intros Hcfg. unfold Open, recoverStorage. change (matches ∅) with (@nil string). cbn [last].
  destruct (NewSegmentStorage_ok cfg ∅ 0) as (fs' & seg & -> & F & Eb & Hseg & Hact); try done.
  cbn [mbind outcome_bind]. eexists. split; [done|]. split; [|done].
  exists [], [], seg, []. split; [|done]. constructor; cbn [segments dir nextOffset closed]; try done.
  intros n c Hn. destruct (decide (n ∈ seg_files 0)) as [Hin|Hnin].
  - exists seg. rewrite Eb. split; [by apply list_elem_of_singleton|done].
  - by rewrite F, lookup_empty in Hn.
Qed.

End StorageOpen.
