(* ===== verification/StorageCut.v ===== *)
(** * Cutting the log: truncation and retention

    [TruncateTo] of internal/storage/storage.go, which the partition state machine calls after
    a restart to drop batches the raft log will apply again, and [EnforceRetention] of
    retention.go, which drops whole sealed segments from the old end. *)

From S2P Require Import Prelude Batch SegName LogSegment BinSearch OffsetIndex TimeIndex BatchLog Segment Recovery Storage.
Local Open Scope Z_scope.

Module StorageCut.
Import LogSeg SegName BatchLog Seg Recovery Storage.

(** ** Removing segments *)

Lemma remove_files_frame fs base : frame (seg_files base) fs (remove_files fs base).
Proof.
  unfold remove_files, seg_files.
  repeat (eapply frame_trans; [|eapply frame_mono; [|apply frame_delete]; clear; set_solver]). done.
Qed.

Lemma remove_files_gone fs base n : n ∈ seg_files base -> remove_files fs base !! n = None.
Proof.
  unfold seg_files, remove_files. rewrite !elem_of_union, !elem_of_singleton. intros [[-> | ->]| ->].
  - destruct (decide (timeName base = logName base)) as [->|]; [apply lookup_delete_eq|].
    rewrite lookup_delete_ne by done.
    destruct (decide (indexName base = logName base)) as [->|]; [apply lookup_delete_eq|].
    rewrite lookup_delete_ne by done. apply lookup_delete_eq.
  - destruct (decide (timeName base = indexName base)) as [->|]; [apply lookup_delete_eq|].
    rewrite lookup_delete_ne by done. apply lookup_delete_eq.
  - apply lookup_delete_eq.
Qed.

(** The files of a list of segments. *)
Definition all_files (segs : list SegmentStorage) : gset string := ⋃ ((fun seg => seg_files (baseOffset seg)) <$> segs).

Lemma elem_of_all_files n segs : n ∈ all_files segs <-> exists seg, seg ∈ segs /\ n ∈ seg_files (baseOffset seg).
Proof.
  unfold all_files. rewrite elem_of_union_list. split.
  - intros (X & HX & Hn). apply list_elem_of_fmap in HX as (seg & -> & Hin). eauto.
  - intros (seg & Hin & Hn). eexists. split; [|exact Hn]. apply list_elem_of_fmap. eauto.
Qed.

Lemma remove_all_spec segs fs :
  frame (all_files segs) fs (remove_all fs segs) /\ forall n, n ∈ all_files segs -> remove_all fs segs !! n = None.
Proof.
  revert fs. induction segs as [|seg segs IH]; intros fs.
  { split; [done|]. intros n Hn. apply elem_of_all_files in Hn as (x & Hx & _). by apply not_elem_of_nil in Hx. }
  unfold remove_all. cbn [fold_left]. fold (remove_all (remove_files fs (baseOffset seg)) segs).
  destruct (IH (remove_files fs (baseOffset seg))) as [F G]. split.
  - eapply frame_trans; eapply frame_mono; [|apply remove_files_frame| |exact F];
      intros n Hn; apply elem_of_all_files; [exists seg; rewrite elem_of_cons; auto|].
    apply elem_of_all_files in Hn as (x & Hx & Hn). exists x. rewrite elem_of_cons. auto.
  - intros n Hn. destruct (decide (n ∈ all_files segs)) as [Hin|Hnin]; [by apply G|].
    rewrite F by done. apply remove_files_gone. apply elem_of_all_files in Hn as (x & Hx & Hn).
    apply elem_of_cons in Hx as [->|Hx]; [done|]. exfalso. apply Hnin. apply elem_of_all_files. eauto.
Qed.

(** ** TruncateTo *)

(** The backward search ends at the segment that holds the offset. *)
Lemma trunc_lo_spec l1 seg l2 offset :
  Forall (fun s => offset < baseOffset s) l2 -> baseOffset seg <= offset ->
  trunc_lo (l1 ++ seg :: l2) (length (l1 ++ seg :: l2) - 1) offset = Ok (length l1).
Proof.
  intros H2 Hs. rewrite length_app. cbn [length].
  replace (length l1 + S (length l2) - 1)%nat with (length l1 + length l2)%nat by lia.
  enough (forall l2a l2b, l2 = l2a ++ l2b ->
    trunc_lo (l1 ++ seg :: l2) (length l1 + length l2a) offset = Ok (length l1)) as H
    by (apply (H l2 []); by rewrite app_nil_r).
  induction l2a as [|x l2a IH] using rev_ind; intros l2b ->.
  - rewrite Nat.add_0_r. destruct (length l1) as [|n] eqn:El; [done|]. cbn [trunc_lo].
    rewrite index_mid by (unfold len; lia). cbn [mbind outcome_bind].
    by rewrite (proj2 (Z.ltb_ge _ _)) by lia.
  - rewrite length_app. cbn [length]. rewrite Nat.add_assoc, Nat.add_1_r. cbn [trunc_lo].
    rewrite <- (app_assoc l2a). change (seg :: l2a ++ [x] ++ l2b) with ((seg :: l2a) ++ x :: l2b).
    rewrite app_assoc, index_mid by (unfold len; rewrite length_app; cbn [length]; lia). cbn [mbind outcome_bind].
    rewrite !Forall_app, Forall_singleton in H2. destruct H2 as [[_ Hx] _].
    rewrite (proj2 (Z.ltb_lt _ _)) by lia. rewrite <- app_assoc.
    specialize (IH ([x] ++ l2b) (eq_sym (app_assoc _ _ _))). rewrite <- app_assoc in IH. exact IH.
Qed.

Lemma truncate_segment_ok cfg fs seg c1 b c2 :
  cfg_ok cfg -> seg_ok cfg fs seg (c1 ++ b :: c2) -> starts_below (SegmentMaxBytes cfg) c1 ->
  (sealed seg = false -> ls_readonly (log seg) = false) ->
  exists fs' seg', truncate_segment cfg fs seg (batch_base b) = Ok (fs', seg') /\
    frame (seg_files (baseOffset seg)) fs fs' /\ baseOffset seg' = baseOffset seg /\
    seg_ok cfg fs' seg' c1 /\ active_ok cfg seg' c1.
Proof.
  intros Hcfg Hok Hst Hro. pose proof (ok_batches _ _ _ _ Hok) as Hb.
  pose proof (names_disjoint _ (base_offset_ok _ _ Hb)) as (N1 & N2 & N3). unfold truncate_segment.
  set (step := (if sealed seg then _ else _)).
  assert (exists seg1, step = Ok (fs, seg1) /\ seg_ok cfg fs seg1 (c1 ++ b :: c2) /\ sealed seg1 = false /\
    ls_readonly (log seg1) = false /\ baseOffset seg1 = baseOffset seg) as (seg1 & -> & Hok1 & Hs1 & Hr1 & Eb).
  { unfold step. destruct (sealed seg) eqn:Es; [|exists seg; split_and!; auto].
    unfold OpenLogSegment. rewrite (ok_log _ _ _ _ Hok). cbn [mbind outcome_bind].
    eexists. split; [done|]. split; [|done]. destruct Hok as [Hb' Hf Hl Hsz [Hi1 Hi2 Hi3 Hi4]].
    by constructor. }
  cbn [mbind outcome_bind].  rewrite (findBytePosForOffset_ok _ _ _ _ _ _ Hok1).
  cbn [mbind outcome_bind LogSeg.Truncate]. rewrite (ok_log_file _ _ _ _ Hok1).
  assert (contents fs (logName (baseOffset seg1)) = concat (c1 ++ b :: c2)) as ->
    by (unfold contents; by rewrite (ok_log _ _ _ _ Hok1)).
  assert (truncate_bytes (concat (c1 ++ b :: c2)) (len (concat c1)) = concat c1) as ->.
  { rewrite concat_app, truncate_bytes_le by len_lia. unfold len. rewrite Nat2Z.id. by apply take_app_length. }
  rewrite Eb. set (fs1 := <[logName (baseOffset seg) := concat c1]> fs).
  assert (frame {[logName (baseOffset seg)]} fs fs1) as F1 by apply frame_insert.
  set (l := {| ls_file := _ |}).
  assert (batches_ok (baseOffset seg) c1) as Hb1.
  { destruct Hb as [Hc H0 He Hsz]. apply chain_app in Hc as [Hc _]. rewrite end_off_app in He.
    pose proof (end_off_mono (end_off (baseOffset seg) c1) (b :: c2)). rewrite concat_app, len_app in Hsz. len_pos.
    constructor; [done|done|lia|lia]. }
  destruct (rebuildSegmentIndexes_ok cfg fs1 (set_log seg1 l) c1) as (fs2 & seg2 & E & F2 & E2 & Hok2 & Hact2);
    cbn [set_log baseOffset log sealed]; rewrite ?Eb; try done.
  { apply lookup_insert_eq. }
  cbn [set_log baseOffset] in F2, E2. rewrite Eb in F2, E2. exists fs2, seg2. split; [exact E|]. split; [|done].
  unfold seg_files. eapply frame_trans; eapply frame_mono; [|exact F1| |exact F2]; names_solver.
Qed.

Lemma sealed_ok_split cfg fs off s1 seg s2 bss :
  sealed_ok cfg fs off (s1 ++ seg :: s2) bss ->
  exists b1 bs b2, bss = b1 ++ bs :: b2 /\ sealed_ok cfg fs off s1 b1 /\
    baseOffset seg = end_off off (concat b1) /\ sealed seg = true /\ seg_ok cfg fs seg bs /\
    starts_below (SegmentMaxBytes cfg) (removelast bs) /\
    sealed_ok cfg fs (end_off (baseOffset seg) bs) s2 b2.
Proof.
  revert off bss. induction s1 as [|seg' s1 IH]; intros off [|bs' bss] H; try done.
  - destruct H as (E & H2 & H3 & H4 & H5 & H6 & H7). exists [], bs', bss. rewrite E. by split_and!.
  - destruct H as (E & H2 & H3 & H4 & H5 & H6 & H7).
    destruct (IH _ _ H7) as (b1 & bs & b2 & -> & Hs1 & Hb & Hr1 & Hr2 & Hr3 & Hr4).
    exists (bs' :: b1), bs, b2.
    cbn [concat]. rewrite end_off_app. by split_and!.
Qed.

(** The segment that holds an offset, with what is before it. *)
Lemma split_at cfg s off segs bss act bs offset :
  storage_ok cfg s off segs bss act bs -> off <= offset < nextOffset s ->
  exists s1 seg s2 b1 bsi post, segments s = s1 ++ seg :: s2 /\ concat bss ++ bs = concat b1 ++ bsi ++ post /\
    Forall (fun s => offset < baseOffset s) s2 /\ sealed_ok cfg (dir s) off s1 b1 /\
    baseOffset seg = end_off off (concat b1) /\ seg_ok cfg (dir s) seg bsi /\
    starts_below (SegmentMaxBytes cfg) (removelast bsi) /\
    (sealed seg = false -> ls_readonly (log seg) = false) /\
    baseOffset seg <= offset < end_off (baseOffset seg) bsi /\
    (forall x, x ∈ s2 -> offset_ok (baseOffset x)).
Proof.
  intros Hok Ho. pose proof (storage_ok_range _ _ _ _ _ _ _ Hok) as (Hr & Hn & Ha). destruct Hok.
  pose proof (sealed_linked _ _ _ _ _ _ _ so_sealed0 so_act_base0 so_act0) as Hl.
  destruct (decide (baseOffset act <= offset)) as [Hge|Hlt].
  - exists segs, act, [], bss, bs, []. rewrite app_nil_r, <- so_next0. split_and!; try done; try lia.
    + destruct bs as [|b bs _] using rev_ind; [apply starts_below_nil|]. rewrite removelast_snoc.
      eapply starts_below_prefix, so_active0.
    + intros _. apply so_active0.
    + intros x Hx. by apply not_elem_of_nil in Hx.
  - assert (off <= offset < end_off off (concat bss)) as Ho' by lia.
    assert (exists s1 seg s2, segs = s1 ++ seg :: s2 /\ baseOffset seg <= offset /\
      Forall (fun s => offset < baseOffset s) s2) as (s1 & seg & s2 & -> & Hle & H2).
    { rewrite so_act_base0 in Hlt. clear -so_sealed0 Ho Hlt. revert off bss so_sealed0 Ho Hlt.
      induction segs as [|seg segs IH]; intros off [|b bss] H Ho Hlt; try done; [cbn in Hlt; lia|].
      destruct H as (E & _ & _ & _ & _ & _ & H). cbn [concat] in Hlt. rewrite end_off_app in Hlt.
      destruct (decide (end_off off b <= offset)) as [Hge|Hlt2].
      - destruct (IH _ _ H) as (s1 & seg' & s2 & -> & Hle & H2); [lia..|].
        exists (seg :: s1), seg', s2. done.
      - exists [], seg, segs. split_and!; [done|lia|]. apply Forall_forall. intros x Hx.
        pose proof (sealed_ok_bases _ _ _ _ _ _ H Hx). lia. }
    destruct (sealed_ok_split _ _ _ _ _ _ _ so_sealed0) as (b1 & bsi & b2 & -> & Hs1 & Eb & Hsl & Hsok & Hst & Hs2).
    exists s1, seg, (s2 ++ [act]), b1, bsi, (concat b2 ++ bs).
    assert (offset < end_off (baseOffset seg) bsi) as Hhi.
    { destruct s2 as [|x s2]; [destruct b2; [|done]|].
      - rewrite concat_app, end_off_app, <- Eb in Ho'. cbn [concat] in Ho'. rewrite app_nil_r in Ho'. lia.
      - destruct b2; [done|]. destruct Hs2 as (<- & _). rewrite Forall_cons in H2. lia. }
    rewrite so_segments0. split_and!; try done; try lia.
    + by rewrite <- app_assoc.
    + rewrite concat_app. cbn [concat]. by rewrite <- !app_assoc.
    + apply Forall_app_2; [done|]. constructor; [lia|done].
    + congruence.
    + intros x Hx. rewrite elem_of_app, list_elem_of_singleton in Hx. destruct Hx as [Hx| ->]; [|done].
      by apply (sealed_ok_bases _ _ _ _ _ _ Hs2 Hx).
Qed.

(** A batch whose offset falls in the middle part of a log is in it. *)
Lemma chain_middle off P Q R l1 b l2 :
  P ++ Q ++ R = l1 ++ b :: l2 -> 1 <= batch_count b ->
  end_off off P <= end_off off l1 < end_off off (P ++ Q) ->
  exists c1 c2, Q = c1 ++ b :: c2 /\ l1 = P ++ c1.
Proof.
  intros E Hcnt Hr. apply app_eq_app in E as (k & [[-> E]|[-> E]]).
  - destruct k as [|b' k].
    + rewrite app_nil_r in *. cbn [app] in E. destruct Q as [|q Q]; [rewrite app_nil_r in Hr; lia|].
      cbn in E. injection E as -> _. exists [], Q. by rewrite app_nil_r.
    + cbn [app] in E. injection E as <- _. rewrite !end_off_app in Hr. cbn [end_off] in Hr.
      pose proof (end_off_mono (end_off off l1 + batch_count b) k). lia.
  - apply app_eq_app in E as (k' & [[-> E]|[-> E]]).
    + destruct k' as [|b' k']; [rewrite app_nil_r in Hr; lia|].
      cbn in E. injection E as <- _. by exists k, k'.
    + rewrite app_assoc, (end_off_app off (P ++ Q)) in Hr. pose proof (end_off_mono (end_off off (P ++ Q)) k'). lia.
Qed.

Lemma truncated_files fs fs1 fs2 s1 seg s2 seg' :
  files_of fs (s1 ++ seg :: s2) -> frame (all_files s2) fs fs1 ->
  (forall n, n ∈ all_files s2 -> fs1 !! n = None) -> frame (seg_files (baseOffset seg)) fs1 fs2 ->
  baseOffset seg' = baseOffset seg -> files_of fs2 (s1 ++ [seg']).
Proof.
  intros Hfo F1 G1 F2 E2 n c Hn. destruct (decide (n ∈ seg_files (baseOffset seg))) as [Hin|Hnin].
  { exists seg'. rewrite elem_of_app, list_elem_of_singleton, E2. auto. }
  rewrite F2 in Hn by done. destruct (decide (n ∈ all_files s2)) as [Hin2|Hnin2]; [by rewrite G1 in Hn|].
  rewrite F1 in Hn by done. destruct (Hfo _ _ Hn) as (x & Hx & Hnx).
  rewrite elem_of_app, elem_of_cons in Hx. destruct Hx as [Hx|[->|Hx]]; [|done|].
  - exists x. rewrite elem_of_app. auto.
  - exfalso. apply Hnin2. apply elem_of_all_files. eauto.
Qed.

(** Dropping the segments after [seg] and cutting [seg] at a batch. *)
Lemma truncate_at cfg s off s1 seg s2 b1 c1 b c2 :
  cfg_ok cfg -> segments s = s1 ++ seg :: s2 -> 0 <= off -> closed s = false -> batch_base b < nextOffset s ->
  Forall (fun x => batch_base b < baseOffset x) s2 -> (forall x, x ∈ s2 -> offset_ok (baseOffset x)) ->
  sealed_ok cfg (dir s) off s1 b1 -> baseOffset seg = end_off off (concat b1) ->
  seg_ok cfg (dir s) seg (c1 ++ b :: c2) -> starts_below (SegmentMaxBytes cfg) c1 ->
  (sealed seg = false -> ls_readonly (log seg) = false) -> baseOffset seg <= batch_base b ->
  files_of (dir s) (segments s) ->
  exists s' seg', TruncateTo cfg s (batch_base b) = Ok s' /\ nextOffset s' = batch_base b /\
    storage_ok cfg s' off s1 b1 seg' c1.
Proof.
  intros Hcfg Es H0 Hcl Hlt H2 Hno Hs1 Ebase Hsok Hst Hro Hle Hfiles. pose proof (ok_batches _ _ _ _ Hsok) as Hb.
  assert (batch_base b = end_off (baseOffset seg) c1) as Hbase
    by (pose proof (bo_chain _ _ Hb) as Hc; by apply chain_app in Hc as [_ (_ & ? & _)]).
  unfold TruncateTo. rewrite (proj2 (Z.eqb_neq _ _)), (proj2 (Z.ltb_ge _ _)) by lia. rewrite Es.
  rewrite (proj2 (Z.eqb_neq _ _)) by len_lia. rewrite trunc_lo_spec by (done || lia).
  cbn [mbind outcome_bind]. rewrite index_mid by done. cbn [mbind outcome_bind].
  rewrite (drop_app_ge s1) by lia. replace (length s1 + 1 - length s1)%nat with 1%nat by lia.
  change (drop 1 (seg :: s2)) with s2.
  destruct (remove_all_spec s2 (dir s)) as [F1 G1]. set (fs1 := remove_all (dir s) s2) in *.
  assert (forall base, offset_ok base -> base <= batch_base b -> seg_files base ## all_files s2) as Hdis.
  { intros base Hbo Hle' n Hn1 Hn2. apply elem_of_all_files in Hn2 as (x & Hx & Hn2). rewrite Forall_forall in H2.
    specialize (H2 _ Hx). by apply (seg_files_disjoint base (baseOffset x) Hbo (Hno _ Hx) ltac:(lia) n). }
  pose proof (base_offset_ok _ _ Hb) as Hseg.
  assert (seg_ok cfg fs1 seg (c1 ++ b :: c2)) as Hsok1 by (eapply seg_ok_frame; [done|exact F1|apply Hdis; [done|lia]]).
  assert (sealed_ok cfg fs1 off s1 b1) as Hs1'.
  { eapply sealed_ok_frame; [done|exact F1|]. intros x Hx. destruct (sealed_ok_bases _ _ _ _ _ _ Hs1 Hx).
    apply Hdis; [done|lia]. }
  destruct (truncate_segment_ok cfg fs1 seg c1 b c2) as (fs2 & seg' & -> & F2 & E2 & Hok2 & Hact2); try done.
  cbn [mbind outcome_bind]. rewrite take_app_length. exists (set_nextOffset (set_segments s fs2 (s1 ++ [seg'])) (batch_base b)), seg'.
  split; [done|]. split; [done|].
  constructor; cbn [set_nextOffset set_segments segments dir nextOffset closed]; rewrite ?E2; try done.
  - eapply sealed_ok_frame_after; [done|exact F2|done|lia].
  - rewrite Es in Hfiles. by eapply truncated_files.
Qed.

(** Truncation at a batch, at the end and past the end. *)
Lemma truncate_refines cfg s off l :
  cfg_ok cfg -> represents cfg s off l ->
  (forall l1 b l2, l = l1 ++ b :: l2 -> exists s', TruncateTo cfg s (batch_base b) = Ok s' /\
     represents cfg s' off l1 /\ LatestOffset s' = batch_base b) /\
  TruncateTo cfg s (LatestOffset s) = Ok s /\
  (forall offset, LatestOffset s < offset -> is_ok (TruncateTo cfg s offset) = false).
Proof.
  intros Hcfg Hrep. pose proof (represents_log _ _ _ _ Hrep) as (Hc & Hlat & _ & H0 & Hmax).
  unfold LatestOffset in *. split_and!.
  2:{ unfold TruncateTo. by rewrite Z.eqb_refl. }
  2:{ intros offset Ho. unfold TruncateTo. by rewrite (proj2 (Z.eqb_neq _ _)), (proj2 (Z.ltb_lt _ _)) by lia. }
  intros l1 b l2 ->. destruct Hrep as (segs & bss & act & bs & Hok & El).
  assert (chain off l1 /\ batch_base b = end_off off l1 /\ 1 <= batch_count b) as (Hc1 & Hbase & Hcnt)
    by (apply chain_app in Hc as [? ((_ & _ & ? & _) & ? & _)]; split_and!; [done|done|lia]).
  rewrite end_off_app in Hlat. cbn [end_off] in Hlat. pose proof (end_off_mono off l1).
  pose proof (end_off_mono (end_off off l1 + batch_count b) l2).
  destruct (split_at _ _ _ _ _ _ _ (batch_base b) Hok) as
    (s1 & seg & s2 & b1 & bsi & post & Es & Eb & H2 & Hs1 & Ebase & Hsok & Hst & Hro & Hr & Hno); [lia|].
  rewrite <- El in Eb. pose proof Hok as [].
  assert (exists c1 c2, bsi = c1 ++ b :: c2 /\ l1 = concat b1 ++ c1) as (c1 & c2 & -> & ->).
  { apply (chain_middle off _ _ post l1 b l2); [done|lia|]. rewrite end_off_app, <- Hbase, <- Ebase. done. }
  assert (starts_below (SegmentMaxBytes cfg) c1) as Hst1.
  { destruct (exists_last (l := b :: c2) ltac:(done)) as (c & x & E). rewrite E, app_assoc, removelast_snoc in Hst.
    by eapply starts_below_prefix. }
  destruct (truncate_at cfg s off s1 seg s2 b1 c1 b c2) as (s' & seg' & E & Hn & Hok'); try done; [lia|lia|].
  exists s'. split; [exact E|]. split; [|done]. by exists s1, b1, seg', c1.
Qed.

(** Truncating at the offset of any batch keeps exactly the batches before it; at the
    end of the log nothing changes, and past the end the call fails. *)
Theorem TruncateTo_refines cfg s off l :
  cfg_ok cfg -> represents cfg s off l ->
  (forall l1 b l2, l = l1 ++ b :: l2 -> exists s', TruncateTo cfg s (batch_base b) = Ok s' /\
     represents cfg s' off l1 /\ LatestOffset s' = batch_base b) /\
  TruncateTo cfg s (LatestOffset s) = Ok s /\
  (forall offset, LatestOffset s < offset -> is_ok (TruncateTo cfg s offset) = false).
Proof. apply truncate_refines. Qed.

(** ** Retention *)

(** Deleting the oldest sealed segment drops its batches from the front of the log. *)
Lemma delete_oldest cfg s off seg segs bs bss act abs :
  storage_ok cfg s off (seg :: segs) (bs :: bss) act abs ->
  storage_ok cfg (delete_segment s (baseOffset seg)) (end_off off bs) segs bss act abs.
Proof.
  intros Hok. pose proof (storage_ok_range _ _ _ _ _ _ _ Hok) as (Hr & _ & Ha). destruct Hok.
  pose proof so_sealed0 as (Eb & _ & Hsok & [Hb _ _ _] & Hne & _ & Hs). pose proof (base_offset_ok _ _ Hb) as Ho.
  pose proof (chain_nonempty _ _ (bo_chain _ _ Hb) Hne) as Hlt. cbn [concat] in so_act_base0.
  rewrite end_off_app in so_act_base0. pose proof (end_off_mono (end_off off bs) (concat bss)).
  pose proof (remove_files_frame (dir s) (baseOffset seg)) as F. rewrite Eb in *.
  assert (filter (fun x => baseOffset x <> off) (segments s) = segs ++ [act]) as Ef.
  { rewrite so_segments0. cbn [app]. rewrite filter_cons_False by (rewrite Eb; tauto). apply filter_all.
    apply Forall_app_2; [|constructor; [lia|done]]. apply Forall_forall. intros x Hx.
    pose proof (sealed_ok_bases _ _ _ _ _ _ Hs Hx). lia. }
  constructor; cbn [delete_segment set_segments segments dir nextOffset closed]; rewrite ?Ef; try done.
  - lia.
  - eapply sealed_ok_frame; [exact Hs|exact F|]. intros x Hx. destruct (sealed_ok_bases _ _ _ _ _ _ Hs Hx).
    apply seg_files_disjoint; [done|done|lia].
  - eapply seg_ok_frame; [done|exact F|]. apply seg_files_disjoint; [done|done|lia].
  - intros n c Hn. destruct (decide (n ∈ seg_files off)) as [Hin|Hnin].
    { by rewrite remove_files_gone in Hn. }
    rewrite F in Hn by done. destruct (so_files0 _ _ Hn) as (x & Hx & Hnx). exists x. split; [|done].
    rewrite so_segments0 in Hx. cbn [app] in Hx. apply elem_of_cons in Hx as [->|Hx]; [by rewrite Eb in Hnx|done].
Qed.

Lemma delete_many cfg k s off segs bss act abs :
  storage_ok cfg s off segs bss act abs ->
  let s' := fold_left delete_segment (baseOffset <$> take k segs) s in
  storage_ok cfg s' (end_off off (concat (take k bss))) (drop k segs) (drop k bss) act abs /\
  nextOffset s' = nextOffset s.
Proof.
  revert s off segs bss. induction k as [|k IH]; intros s off segs bss Hok.
  { by rewrite !take_0, !drop_0. }
  destruct segs as [|seg segs], bss as [|bs bss]; try (by destruct Hok as [_ _ [] _ _ _ _ _ _]); [done|].
  cbn [take firstn fmap list_fmap fold_left drop skipn concat]. rewrite end_off_app.
  destruct (IH _ _ _ _ (delete_oldest _ _ _ _ _ _ _ _ _ Hok)) as [H1 H2]. split; [exact H1|exact H2].
Qed.

(** Marks that select a prefix. *)
Definition prefix_marks (k n : nat) : list bool := replicate k true ++ replicate (n - k) false.

Lemma marked_prefix (segs : list SegmentStorage) k :
  (k <= length segs)%nat -> marked segs (prefix_marks k (length segs)) = baseOffset <$> take k segs.
Proof.
  revert k. induction segs as [|seg segs IH]; intros k Hk; [by destruct k|].
  destruct k as [|k]; unfold marked, prefix_marks in *; cbn [length] in *.
  - cbn [replicate app Nat.sub zip zip_with take firstn fmap list_fmap].
    rewrite filter_cons_False by done. specialize (IH 0%nat ltac:(lia)). rewrite Nat.sub_0_r in IH. exact IH.
  - cbn [replicate app Nat.sub zip zip_with take firstn fmap list_fmap].
    rewrite filter_cons_True by done. cbn [fmap list_fmap fst]. f_equal. apply IH. lia.
Qed.

(** Bytes retention marks the shortest prefix that brings the total down to the limit. *)
Lemma mark_bytes_spec segs total limit :
  exists k, (k <= length segs)%nat /\ mark_bytes segs total limit = prefix_marks k (length segs) /\
    (total - total_size (take k segs) <= limit \/ k = length segs).
Proof.
  revert total. induction segs as [|seg segs IH]; intros total; [by exists O; split_and!; auto|].
  cbn [mark_bytes]. destruct (Z.ltb_spec limit total) as [Hlt|Hge].
  - destruct (IH (total - LogSize seg)) as (k & Hk & -> & H). exists (S k). cbn [length take firstn].
    split_and!; [lia|done|]. destruct H as [H| ->]; [left|right; done].
    change (total_size (seg :: firstn k segs)) with (LogSize seg + total_size (take k segs)). lia.
  - exists O. cbn [length]. split_and!; [lia|done|]. left. change (total_size (take 0 (seg :: segs))) with 0. lia.
Qed.

(** The first batch timestamp of a segment. *)
Lemma firstBatchTimestamp_ok cfg fs seg bs :
  seg_ok cfg fs seg bs ->
  match bs with
  | [] => is_ok (firstBatchTimestamp fs seg) = false
  | b :: _ => firstBatchTimestamp fs seg = Ok (batch_base_ts b)
  end.
Proof.
  intros Hok. unfold firstBatchTimestamp. rewrite (ok_log_file _ _ _ _ Hok). unfold contents.
  rewrite (ok_log _ _ _ _ Hok). cbn [default from_option id].
  destruct bs as [|b bs]; [done|]. pose proof (bo_chain _ _ (ok_batches _ _ _ _ Hok)) as (Hwf & _ & _).
  pose proof (wf_len _ Hwf) as [Hl _]. cbn [concat].
  pose proof (ReadAt_prefix [] b (concat bs) 38 ltac:(lia)) as E. cbn [app] in E. change (len (@nil byte)) with 0 in E.
  rewrite E, get_base_ts by (rewrite len_sub; lia). cbn [mbind outcome_bind]. by rewrite sub_sub by lia.
Qed.

(** Combining the two policies: marks by bytes and by time, both prefixes, give a prefix. *)
Lemma zip_or_prefix {A} (f : A -> bool) (l : list A) k1 k2 :
  (k1 <= length l)%nat -> (k2 <= length l)%nat -> f <$> l = prefix_marks k2 (length l) ->
  zip_with (fun (m : bool) x => m || f x) (prefix_marks k1 (length l)) l =
  prefix_marks (Nat.max k1 k2) (length l).
Proof.
  revert k1 k2. induction l as [|x l IH]; intros k1 k2 H1 H2 E; [by assert (k1 = 0 /\ k2 = 0)%nat as [-> ->] by (cbn in *; lia)|].
  unfold prefix_marks in *. cbn [length fmap list_fmap] in *. destruct k1 as [|k1], k2 as [|k2];
    cbn [replicate app Nat.sub Nat.max zip_with] in *; injection E as Ex E.
  - rewrite Ex. cbn [orb]. f_equal. specialize (IH 0 0 ltac:(lia) ltac:(lia))%nat.
    rewrite !Nat.sub_0_r in *. by apply IH.
  - rewrite Ex. cbn [orb]. f_equal. specialize (IH 0%nat k2 ltac:(lia) ltac:(lia)). rewrite !Nat.sub_0_r in *.
    by apply IH.
  - cbn [orb]. f_equal. specialize (IH k1 0%nat ltac:(lia) ltac:(lia)). rewrite Nat.max_0_r in *.
    rewrite !Nat.sub_0_r in *. by apply IH.
  - cbn [orb]. f_equal. apply IH; [lia|lia|done].
Qed.

Lemma fmap_prefix_marks {A} (f : A -> bool) (l : list A) :
  (forall i j x y, (i <= j)%nat -> l !! i = Some x -> l !! j = Some y -> f y = true -> f x = true) ->
  exists k, (k <= length l)%nat /\ f <$> l = prefix_marks k (length l).
Proof.
  induction l as [|x l IH]; intros H; [by exists O|].
  destruct IH as (k & Hk & E); [intros i j a b Hij Ha Hb; by apply (H (S i) (S j) a b); [lia|..]|].
  destruct (f x) eqn:Ex.
  - exists (S k). cbn [length fmap list_fmap]. split; [lia|]. unfold prefix_marks in *. cbn. rewrite Ex. by f_equal.
  - exists O. split; [lia|]. unfold prefix_marks. cbn [length fmap list_fmap replicate app Nat.sub]. f_equal; [done|].
    change (list_fmap A bool f l) with (f <$> l). rewrite E. destruct k as [|k]; [unfold prefix_marks; by rewrite Nat.sub_0_r|].
    destruct l as [|y l]; [cbn in Hk; lia|]. exfalso. cbn in E. injection E as Ey _.
    by rewrite (H 0%nat 1%nat x y ltac:(lia) eq_refl eq_refl Ey) in Ex.
Qed.

Section expiry.
Context (cfg : StorageConfig) (fs : files) (act : SegmentStorage) (abs : list (list byte)) (cutoff : Z).
Context (Hact : seg_ok cfg fs act abs).

Lemma expired_head seg bs :
  seg_ok cfg fs seg bs -> expired fs seg cutoff = true -> exists b, b ∈ bs /\ batch_base_ts b < cutoff.
Proof using.
  intros Hok. pose proof (firstBatchTimestamp_ok _ _ _ _ Hok) as H. unfold expired.
  destruct bs as [|b bs]; [by destruct (firstBatchTimestamp fs seg)|]. rewrite H. intros E%Z.ltb_lt.
  exists b. split; [apply elem_of_cons; auto|done].
Qed.

Lemma expired_has_batch off segs bss seg :
  sealed_ok cfg fs off segs bss -> seg ∈ segs ++ [act] -> expired fs seg cutoff = true ->
  exists b, b ∈ concat bss ++ abs /\ batch_base_ts b < cutoff.
Proof using Hact.
  revert off bss. induction segs as [|seg' segs IH]; intros off [|bs bss] H Hin He; try done.
  - cbn in Hin. apply list_elem_of_singleton in Hin as ->. by apply (expired_head act).
  - destruct H as (_ & _ & Hok & _ & _ & _ & H). cbn [app concat] in *. apply elem_of_cons in Hin as [->|Hin].
    + destruct (expired_head _ _ Hok He) as (b & Hb & Ht). exists b. rewrite !elem_of_app. auto.
    + destruct (IH _ _ H Hin He) as (b & Hb & Ht). exists b. rewrite <- app_assoc, elem_of_app. auto.
Qed.

(** With batch timestamps that never go back, expiry goes from old to new. *)
Lemma expired_mono off segs bss :
  sealed_ok cfg fs off segs bss ->
  StronglySorted (fun b1 b2 => batch_base_ts b1 <= batch_base_ts b2) (concat bss ++ abs) ->
  forall i j x y, (i <= j)%nat -> (segs ++ [act]) !! i = Some x -> (segs ++ [act]) !! j = Some y ->
  expired fs y cutoff = true -> expired fs x cutoff = true.
Proof using Hact.
  revert off bss. induction segs as [|seg segs IH]; intros off [|bs bss] H Hs i j x y Hij Hx Hy He; try done.
  - destruct j as [|j]; [destruct i; [cbn in *; congruence|lia]|by destruct j].
  - destruct H as (_ & _ & Hok & _ & Hne & _ & H). cbn [concat] in Hs. rewrite <- app_assoc in Hs.
    destruct i as [|i], j as [|j]; cbn [app] in Hx, Hy; try lia.
    + cbn in Hx, Hy. congruence.
    + cbn in Hx. injection Hx as ->. cbn in Hy. apply list_elem_of_lookup_2 in Hy.
      destruct (expired_has_batch _ _ _ _ H Hy He) as (b & Hb & Ht). destruct bs as [|b0 bs]; [done|].
      pose proof (firstBatchTimestamp_ok _ _ _ _ Hok) as E. unfold expired. rewrite E. apply Z.ltb_lt.
      pose proof (StronglySorted_app_1_elem_of _ _ _ b0 b Hs ltac:(apply elem_of_cons; auto) Hb) as Hle.
      cbn in Hle. lia.
    + apply (IH _ _ H (StronglySorted_app_1_r _ _ _ Hs) i j x y ltac:(lia) Hx Hy He).
Qed.
End expiry.

Lemma retention_marks_prefix cfg s off seg segs bss act abs retMs retBytes nowMs :
  storage_ok cfg s off (seg :: segs) bss act abs ->
  (0 < retMs -> StronglySorted (fun b1 b2 => batch_base_ts b1 <= batch_base_ts b2) (concat bss ++ abs)) ->
  exists k, (k <= length (seg :: segs))%nat /\
    retention_marks (dir s) (segments s) retMs retBytes nowMs = prefix_marks k (length (seg :: segs)) /\
    (0 <= retBytes -> total_size (segments s) - total_size (take k (seg :: segs)) <= retBytes \/ k = length (seg :: segs) \/ 0 < retMs).
Proof.
  intros Hok Hts. pose proof Hok as []. unfold retention_marks. rewrite so_segments0, removelast_snoc.
  set (f := fun next => (0 <? retMs) && expired (dir s) next (i64 (nowMs - retMs))).
  cbn [app tail]. assert (length (seg :: segs) = length (segs ++ [act])) as El
    by (rewrite length_app; cbn [length]; lia).
  assert (exists k2, (k2 <= length (segs ++ [act]))%nat /\ f <$> segs ++ [act] = prefix_marks k2 (length (segs ++ [act]))
    /\ (retMs <= 0 -> k2 = O)) as (k2 & Hk2 & E2 & Hz).
  { unfold f. destruct (Z.ltb_spec 0 retMs) as [Hp|Hn].
    - destruct bss as [|bs bss]; [done|]. destruct so_sealed0 as (_ & _ & _ & _ & _ & _ & H).
      specialize (Hts Hp). cbn [concat] in Hts. rewrite <- app_assoc in Hts.
      destruct (fmap_prefix_marks (fun next => expired (dir s) next (i64 (nowMs - retMs))) (segs ++ [act])) as (k & Hk & E).
      + eapply expired_mono; [done|exact H|by eapply StronglySorted_app_1_r].
      + exists k. split_and!; [done|exact E|lia].
    - exists O. split_and!; [lia| |done]. unfold prefix_marks. cbn [replicate app].
      rewrite Nat.sub_0_r. generalize (segs ++ [act]) as l. induction l as [|a l IHl]; [done|]. cbn. by f_equal. }
  assert (exists k1, (k1 <= length (seg :: segs))%nat /\
    (if 0 <=? retBytes then mark_bytes (seg :: segs) (total_size (seg :: segs ++ [act])) retBytes
     else replicate (length (seg :: segs)) false) = prefix_marks k1 (length (seg :: segs)) /\
    (0 <= retBytes -> total_size (seg :: segs ++ [act]) - total_size (take k1 (seg :: segs)) <= retBytes \/
                      k1 = length (seg :: segs))) as (k1 & Hk1 & -> & Hb).
  { destruct (Z.leb_spec 0 retBytes).
    - destruct (mark_bytes_spec (seg :: segs) (total_size (seg :: segs ++ [act])) retBytes) as (k & Hk & E & H'). by exists k.
    - exists O. split_and!; [lia|by unfold prefix_marks; rewrite Nat.sub_0_r|lia]. }
  exists (Nat.max k1 k2). rewrite El in *. split_and!; [lia|by apply zip_or_prefix|].
  intros Hrb. destruct (decide (0 < retMs)) as [?|Hle]; [auto|]. rewrite (Hz ltac:(lia)), Nat.max_0_r.
  destruct (Hb Hrb); auto.
Qed.

Lemma total_size_app l1 l2 : total_size (l1 ++ l2) = total_size l1 + total_size l2.
Proof. unfold total_size. induction l1 as [|x l1 IH]; cbn; [done|]. rewrite IH. lia. Qed.

(** What retention leaves of a storage: the oldest [k] sealed segments are gone. *)
Lemma enforce_shape cfg s off segs bss act abs retMs retBytes nowMs :
  storage_ok cfg s off segs bss act abs ->
  (0 < retMs -> StronglySorted (fun b1 b2 => batch_base_ts b1 <= batch_base_ts b2) (concat bss ++ abs)) ->
  exists s' k, EnforceRetention s retMs retBytes nowMs = (s', Z.of_nat k) /\ (k <= length segs)%nat /\
    storage_ok cfg s' (end_off off (concat (take k bss))) (drop k segs) (drop k bss) act abs /\ nextOffset s' = nextOffset s /\
    (retMs <= 0 -> 0 <= retBytes -> total_size (segments s') <= retBytes \/ len (segments s') = 1).
Proof.
  intros Hok Hts. pose proof Hok as []. unfold EnforceRetention. destruct segs as [|seg segs].
  { exists s, O. rewrite so_segments0. cbn [app]. rewrite take_0, !drop_0. split_and!; try done. intros. right. done. }
  destruct (retention_marks_prefix _ _ _ _ _ _ _ _ retMs retBytes nowMs Hok Hts) as (k & Hk & Em & Hb).
  rewrite Em. rewrite so_segments0 in *. rewrite (proj2 (Z.leb_gt _ _)) by len_lia.
  rewrite removelast_snoc, marked_prefix by done. destruct (delete_many cfg k _ _ _ _ _ _ Hok) as [Hok' Hn]. cbv zeta in *.
  set (s' := fold_left _ _ _) in *. pose proof Hok' as [Es' _ _ _ _ _ _ _ _]. exists s', k. split_and!; try done.
  - f_equal. unfold len. rewrite length_fmap, length_take. lia.
  - intros Hm Hr. rewrite Es'. destruct (Hb Hr) as [H|[H|H]]; [|right|lia].
    + left. rewrite <- (take_drop k (seg :: segs)), <- app_assoc, total_size_app in H at 1. lia.
    + by rewrite H, drop_all.
Qed.

Lemma enforce_suffix cfg s off l retMs retBytes nowMs :
  represents cfg s off l ->
  (0 < retMs -> StronglySorted (fun b1 b2 => batch_base_ts b1 <= batch_base_ts b2) l) ->
  exists s' n dropped l', EnforceRetention s retMs retBytes nowMs = (s', n) /\ l = dropped ++ l' /\
    represents cfg s' (end_off off dropped) l' /\ LatestOffset s' = LatestOffset s /\
    last (segments s') = last (segments s) /\
    (retMs <= 0 -> 0 <= retBytes -> total_size (segments s') <= retBytes \/ len (segments s') = 1).
Proof.
  intros (segs & bss & act & abs & Hok & ->) Hts.
  destruct (enforce_shape _ _ _ _ _ _ _ retMs retBytes nowMs Hok Hts) as (s' & k & E & Hk & Hok' & Hn & Hsz).
  exists s', (Z.of_nat k), (concat (take k bss)), (concat (drop k bss) ++ abs). split_and!; try done.
  - by rewrite app_assoc, <- concat_app, take_drop.
  - by exists (drop k segs), (drop k bss), act, abs.
  - by rewrite (so_segments _ _ _ _ _ _ _ Hok), (so_segments _ _ _ _ _ _ _ Hok'), !last_snoc.
Qed.

(** Retention deletes whole segments from the old end only: what is left is a suffix of
    the log, the active segment and the next offset are untouched, and with a byte limit alone
    the remaining segments fit in it unless only the active one is left. Time retention needs
    the batch timestamps not to go back. *)
Theorem EnforceRetention_suffix cfg s off l retMs retBytes nowMs :
  represents cfg s off l ->
  (0 < retMs -> StronglySorted (fun b1 b2 => batch_base_ts b1 <= batch_base_ts b2) l) ->
  exists s' n dropped l', EnforceRetention s retMs retBytes nowMs = (s', n) /\ l = dropped ++ l' /\
    represents cfg s' (end_off off dropped) l' /\ LatestOffset s' = LatestOffset s /\
    last (segments s') = last (segments s) /\
    (retMs <= 0 -> 0 <= retBytes -> total_size (segments s') <= retBytes \/ len (segments s') = 1).
Proof. apply enforce_suffix. Qed.

End StorageCut.
