(* ===== verification/StorageExamples.v ===== *)
(** * From producer to consumer, and the storage theorems at concrete states

    [produce_fetch] composes the batch codec with the storage. The rest of the file builds
    small storages (a directory opened empty, then appended to) and applies the theorems of
    the storage files to them. *)

From S2P Require Import Prelude Batch SegName LogSegment BinSearch OffsetIndex TimeIndex BatchLog Segment Recovery Storage StorageOpen StorageCut.
Local Open Scope Z_scope.

Module StorageExamples.
Import LogSeg SegName BatchLog Seg Recovery Storage StorageOpen StorageCut.

(** ** Produce and fetch *)

Lemma encoded_count records enc :
  Batch.EncodeBatch records = Ok enc -> len enc <= maxBatchBytes -> batch_count enc = len records.
Proof.
  intros He Hl. unfold maxBatchBytes in *.
  destruct (Batch.EncodeBatch_shape _ _ 0 He ltac:(lia)) as (r0 & recs & -> & Hlen & _ & Hw). cbv zeta in *.
  pose proof (Batch.recordsBytes_count (r0 :: recs) (Batch.TimestampMs r0) 0) as Hc.
  set (buf := Batch.recordsBytes _ _ _) in *. pose proof (len_nonneg buf).
  rewrite <- (withBase_count enc 0) by lia. rewrite Hw. unfold batch_count.
  rewrite (proj1 (proj2 (header_fields _ buf))), be_Z_4. cbn [Batch.encodedHeader Batch.RecordCount].
  rewrite !u32_id; [done|unfold in_u32; len_lia|apply u32_range].
Qed.

(** Reading the batch that was appended last. *)
Lemma read_encoded cfg s off l records enc maxBytes :
  let base := end_off off l in
  cfg_ok cfg -> represents cfg s off (l ++ [Batch.withBaseOffset enc base]) ->
  Batch.EncodeBatch records = Ok enc -> len enc <= maxBatchBytes ->
  Forall (fun r => in_i64 (Batch.TimestampMs r)) records ->
  exists data b, Read s base maxBytes = Ok (data, base + len records) /\ Batch.DecodeBatch data = Ok b /\
    Batch.BaseOffset (Batch.bHeader b) = base /\ Batch.bRecords b = records.
Proof.
  intros base Hcfg Hrep Henc Hl Hts. pose proof (EncodeBatch_wf _ _ Henc Hl) as Hwf.
  pose proof (encoded_count _ _ Henc Hl) as Hcnt. pose proof (wf_len _ Hwf) as Hlen. pose proof Hwf as (_ & _ & Hc1 & _).
  pose proof (represents_log _ _ _ _ Hrep) as (Hc' & Hlat & _ & H0 & Hmax).
  rewrite end_off_app in Hlat. cbn [end_off] in Hlat. rewrite withBase_count in Hlat by lia. fold base in Hlat.
  pose proof (end_off_mono off l). fold base in H. set (b := Batch.withBaseOffset enc base) in *.
  destruct (read_inside cfg s off _ base maxBytes Hcfg Hrep) as (pre & x & rest & post & E & HR & Hx & _); [lia|].
  cbn [app] in E.
  assert (chain off (pre ++ x :: rest ++ post)) as Hc2 by (by rewrite <- E).
  pose proof Hc2 as Hc3. apply chain_app in Hc3 as [_ (_ & Hxb & _)]. unfold batch_end in Hx. rewrite Hxb in Hx.
  destruct (chain_split_unique off l [b] pre x (rest ++ post)) as [<- E2]; [done|done|done|].
  injection E2 as <- E2. symmetry in E2. apply app_eq_nil in E2 as [-> ->].
  destruct (Batch.decode_encode records enc base [] Henc) as (r0 & _ & Hdec); [unfold maxBatchBytes in *; lia|unfold in_i64; lia|done|].
  rewrite app_nil_r in Hdec. fold b in Hdec. cbn [concat] in HR. rewrite app_nil_r, end_off_app in HR. fold base in HR.
  cbn [end_off] in HR. unfold b at 2 in HR. rewrite withBase_count, Hcnt in HR by lia.
  do 2 eexists. split; [exact HR|]. split_and!; [exact Hdec|done|done].
Qed.

(** Records encoded by a producer, appended to a partition and read back at the offset the
    append returned decode to the same records, under the base offset that was assigned,
    whatever the log held before and whatever fetch size the reader asks for. *)
Theorem produce_fetch cfg s off l records enc maxBytes :
  cfg_ok cfg -> represents cfg s off l ->
  Batch.EncodeBatch records = Ok enc -> len enc <= maxBatchBytes ->
  Forall (fun r => in_i64 (Batch.TimestampMs r)) records -> LatestOffset s + len records < 2 ^ 63 ->
  exists s' base data next b, Append cfg s enc = (s', Ok base) /\
    Read s' base maxBytes = Ok (data, next) /\ next = base + len records /\
    Batch.DecodeBatch data = Ok b /\ Batch.BaseOffset (Batch.bHeader b) = base /\ Batch.bRecords b = records.
Proof.
  intros Hcfg Hrep Henc Hl Hts Hend. pose proof (EncodeBatch_wf _ _ Henc Hl) as Hwf.
  pose proof (encoded_count _ _ Henc Hl) as Hcnt. pose proof (represents_log _ _ _ _ Hrep) as (_ & Hlat & _).
  destruct (append_represents cfg s off l enc) as (s' & -> & Hrep' & _); [done..|lia|]. rewrite Hlat in *.
  destruct (read_encoded cfg s' off l records enc maxBytes Hcfg Hrep' Henc Hl Hts) as (data & b & HR & Hdec & Hb & Hr).
  do 5 eexists. split; [done|]. split; [exact HR|]. split_and!; done.
Qed.

(** ** Concrete storages *)

Definition cfg0 : StorageConfig :=
  {| SegmentMaxBytes := 100; IndexSampleBytes := 40; RetentionCheckIntervalMs := 1000;
     DefaultRetentionMs := -1; DefaultRetentionBytes := -1 |}.

Lemma cfg0_ok : cfg_ok cfg0.
Proof. constructor; vm_compute; repeat split; congruence. Qed.

Definition no_storage : storageImpl :=
  {| dir := ∅; segments := []; nextOffset := 0; dataCh := 0; retentionMs := 0; retentionBytes := 0; closed := true |}.

(** An empty storage, and the storage after one and two appends of a sample batch. *)
Definition st0 : storageImpl := match Open ∅ cfg0 with Ok s => s | _ => no_storage end.
Definition b0 : list byte := Batch.sample_encoded.
Definition st1 : storageImpl := (Append cfg0 st0 b0).1.
Definition st2 : storageImpl := (Append cfg0 st1 b0).1.

Lemma b0_wf : wf_batch b0.
Proof. apply (bool_decide_unpack _). by vm_compute. Qed.
Lemma b0_count : batch_count b0 = 2.
Proof. by vm_compute. Qed.

Lemma st0_ok : represents cfg0 st0 0 [] /\ LatestOffset st0 = 0.
Proof. unfold st0. destruct (open_empty cfg0 cfg0_ok) as (s & -> & H1 & H2). done. Qed.

Definition b0_at (off : Z) : list byte := Batch.withBaseOffset b0 off.

Lemma st1_ok : represents cfg0 st1 0 [b0_at 0] /\ LatestOffset st1 = 2.
Proof.
  destruct st0_ok as [Hrep Hlat].
  destruct (append_represents cfg0 st0 0 [] b0 cfg0_ok Hrep b0_wf) as (s & E & H & Hl & _);
    rewrite ?Hlat, ?b0_count in *; [lia|].
  unfold st1. rewrite E. cbn [fst]. split; [done|]. rewrite Hl. lia.
Qed.

Lemma st2_ok : represents cfg0 st2 0 [b0_at 0; b0_at 2] /\ LatestOffset st2 = 4.
Proof.
  destruct st1_ok as [Hrep Hlat].
  destruct (append_represents cfg0 st1 0 [b0_at 0] b0 cfg0_ok Hrep b0_wf) as (s & E & H & Hl & _);
    rewrite ?Hlat, ?b0_count in *; [lia|].
  unfold st2. rewrite E. cbn [fst]. split; [done|]. rewrite Hl. lia.
Qed.

Lemma produce_fetch_witness :
  exists s' base data next b, Append cfg0 st1 Batch.sample_encoded = (s', Ok base) /\
    Read s' base 1 = Ok (data, next) /\ next = base + 2 /\
    Batch.DecodeBatch data = Ok b /\ Batch.BaseOffset (Batch.bHeader b) = base /\ Batch.bRecords b = Batch.sample_records.
Proof.
  apply (produce_fetch cfg0 st1 0 [b0_at 0] Batch.sample_records Batch.sample_encoded 1).
  - exact cfg0_ok.
  - apply st1_ok.
  - by vm_compute.
  - by vm_compute.
  - repeat constructor; vm_compute; congruence.
  - rewrite (proj2 st1_ok). by vm_compute.
Defined.

Lemma Append_refines_witness :
  exists s', Append cfg0 st1 b0 = (s', Ok (LatestOffset st1)) /\
    represents cfg0 s' 0 ([b0_at 0] ++ [Batch.withBaseOffset b0 (LatestOffset st1)]) /\
    LatestOffset s' = LatestOffset st1 + batch_count b0 /\ EarliestOffset s' = EarliestOffset st1 /\
    ch_closed s' (NewDataCh st1) = true.
Proof.
  apply (Append_refines cfg0 st1 0 [b0_at 0] b0 cfg0_ok (proj1 st1_ok) b0_wf).
  rewrite (proj2 st1_ok), b0_count. lia.
Defined.

Lemma Read_refines_witness :
  Read st2 (-1) 1 = Err ErrOffsetOutOfRange /\ Read st2 4 1 = Ok ([], 4) /\
  exists pre b rest post, [b0_at 0; b0_at 2] = pre ++ (b :: rest) ++ post /\
    Read st2 3 1 = Ok (concat (b :: rest), end_off 0 (pre ++ b :: rest)) /\ batch_base b <= 3 < batch_end b.
Proof.
  pose proof (fun o => Read_refines cfg0 st2 0 [b0_at 0; b0_at 2] o 1 cfg0_ok (proj1 st2_ok)) as H.
  rewrite (proj2 st2_ok) in H. split; [apply H; lia|]. split; [apply H; lia|].
  destruct (proj1 (proj2 (H 3)) ltac:(lia)) as (pre & b & rest & post & H1 & H2 & H3 & _).
  exists pre, b, rest, post. split; [exact H1|]. split; [exact H2|exact H3].
Defined.

Lemma drain_complete_witness :
  drain 3 st2 (EarliestOffset st2) 1 = Ok (concat [b0_at 0; b0_at 2]).
Proof. apply (drain_complete cfg0 st2 0 [b0_at 0; b0_at 2] 1 cfg0_ok (proj1 st2_ok)). Defined.

(** A crash while the first batch is written: fifty bytes of it reach the disk. *)
Definition crash_dir (act : SegmentStorage) : files :=
  <[logName (baseOffset act) :=
      take 50 (contents (dir st0) (logName (baseOffset act)) ++ Batch.withBaseOffset b0 (LatestOffset st0))]> (dir st0).

Lemma crash_recovers_witness :
  exists act, last (segments st0) = Some act /\
  exists s' l' lost, Open (crash_dir act) cfg0 = Ok s' /\ represents cfg0 s' 0 l' /\
    [] ++ [Batch.withBaseOffset b0 (LatestOffset st0)] = l' ++ lost /\
    forall x rest, lost = x :: rest -> Z.of_nat 50 < LogSize act + len b0 - len (concat rest).
Proof.
  destruct (proj1 st0_ok) as (segs & bss & act & bs & Hok & El). exists act.
  assert (last (segments st0) = Some act) as Hlast by (rewrite (so_segments _ _ _ _ _ _ _ Hok); apply last_snoc).
  split; [exact Hlast|].
  apply (crash_recovers cfg0 st0 0 [] act b0 50 (crash_dir act) cfg0_ok (proj1 st0_ok) Hlast).
  - symmetry in El. apply app_eq_nil in El as [_ ->].
    unfold LogSize. rewrite (ok_log_size _ _ _ _ (so_act _ _ _ _ _ _ _ Hok)). by vm_compute.
  - exact b0_wf.
  - rewrite (proj2 st0_ok), b0_count. lia.
  - eapply frame_mono; [|apply frame_insert]. unfold seg_files. set_solver.
  - apply lookup_insert_eq.
Defined.

Lemma Close_Open_witness :
  exists s1 s2, Close st2 = Ok s1 /\ Append cfg0 s1 b0 = (s1, Err ErrStorageClosed) /\
    Open (dir s1) cfg0 = Ok s2 /\ represents cfg0 s2 0 [b0_at 0; b0_at 2] /\ LatestOffset s2 = LatestOffset st2.
Proof. exact (Close_Open cfg0 st2 0 [b0_at 0; b0_at 2] b0 cfg0_ok (proj1 st2_ok)). Defined.

Lemma TruncateTo_refines_witness :
  exists s', TruncateTo cfg0 st2 (batch_base (b0_at 2)) = Ok s' /\ represents cfg0 s' 0 [b0_at 0] /\
    LatestOffset s' = batch_base (b0_at 2).
Proof.
  exact (proj1 (TruncateTo_refines cfg0 st2 0 [b0_at 0; b0_at 2] cfg0_ok (proj1 st2_ok)) [b0_at 0] (b0_at 2) [] eq_refl).
Defined.

Lemma EnforceRetention_suffix_witness :
  exists s' n dropped l', EnforceRetention st2 0 60 0 = (s', n) /\ [b0_at 0; b0_at 2] = dropped ++ l' /\
    represents cfg0 s' (end_off 0 dropped) l' /\ LatestOffset s' = LatestOffset st2 /\
    last (segments s') = last (segments st2) /\
    (0 <= 0 -> 0 <= 60 -> total_size (segments s') <= 60 \/ len (segments s') = 1).
Proof.
  apply (EnforceRetention_suffix cfg0 st2 0 [b0_at 0; b0_at 2] 0 60 0 (proj1 st2_ok)). lia.
Defined.

End StorageExamples.
