(* ===== verification/Keys.v ===== *)
(** * Topic/partition keys and their text form

    [PartitionKey] and [TopicPartition] of internal/metadata/types.go. Both are used as map
    keys in the replicated state, whose snapshot writes them as text: the topic, a zero byte
    and the partition id in decimal. The text determines the key ([UnmarshalText_MarshalText]),
    also for topics that contain zero bytes or digits. *)

From S2P Require Import Prelude SegName.
From Stdlib Require Import Ascii.
Local Open Scope Z_scope.

Module Keys.

#[local] Arguments String.append (s1 s2)%_string_scope : simpl nomatch.

Record PartitionKey := PKey { pk_topic : string; pk_partition : Z }.
Record TopicPartition := TP { tp_topic : string; tp_partition : Z }.

#[export] Instance PartitionKey_eq_dec : EqDecision PartitionKey.
Proof. solve_decision. Defined.
#[export] Instance PartitionKey_countable : Countable PartitionKey.
Proof.
  refine (inj_countable' (fun k => (pk_topic k, pk_partition k)) (fun p => PKey p.1 p.2) _). by intros [].
Defined.
#[export] Instance TopicPartition_eq_dec : EqDecision TopicPartition.
Proof. solve_decision. Defined.
#[export] Instance TopicPartition_countable : Countable TopicPartition.
Proof.
  refine (inj_countable' (fun k => (tp_topic k, tp_partition k)) (fun p => TP p.1 p.2) _). by intros [].
Defined.

(** ** Decimal text ([%d] and [strconv.ParseInt]) *)

(** The number of decimal digits of [n >= 0]; twenty suffice for 64 bits. *)
Fixpoint ndigits (fuel : nat) (n : Z) : nat :=
  match fuel with
  | O => 1
  | S fuel' => if n <? 10 then 1 else S (ndigits fuel' (n / 10))
  end.

Definition fmt_u (n : Z) : string := SegName.digits (ndigits 20 n) n.
Definition fmt_d (z : Z) : string := if z <? 0 then String "-" (fmt_u (- z)) else fmt_u z.

Definition ParseInt32 (s : string) : outcome Z :=
  match SegName.parse_signed s with
  | None => Err (ErrSentinel (Sentinel "strconv" "ErrSyntax"))
  | Some v =>
      if (- 2 ^ 31 <=? v) && (v <? 2 ^ 31) then Ok v
      else Err (ErrSentinel (Sentinel "strconv" "ErrRange"))
  end.

(** [strings.LastIndex(s, "\x00")], as the parts before and after it. *)
Fixpoint split_last_nul (s : string) : option (string * string) :=
  match s with
  | EmptyString => None
  | String c s' =>
      match split_last_nul s' with
      | Some (a, b) => Some (String c a, b)
      | None => if Ascii.eqb c zero then Some (EmptyString, s') else None
      end
  end.

Definition key_text (topic : string) (id : Z) : string :=
  String.append topic (String zero (fmt_d id)).

Definition key_parse (what : string) (s : string) : outcome (string * Z) :=
  match split_last_nul s with
  | None => Err (ErrNew (String.append "invalid " what))
  | Some (topic, rest) =>
      match ParseInt32 rest with
      | Ok n => Ok (topic, i32 n)
      | Err e => Err (ErrWrap (String.append "invalid " what) e)
      | Panic p => Panic p
      | OutOfFuel => OutOfFuel
      end
  end.

Definition PartitionKey_MarshalText (k : PartitionKey) : string := key_text (pk_topic k) (pk_partition k).
Definition PartitionKey_UnmarshalText (s : string) : outcome PartitionKey :=
  '(t, n) ← key_parse "PartitionKey" s; Ok (PKey t n).

Definition TopicPartition_MarshalText (tp : TopicPartition) : string := key_text (tp_topic tp) (tp_partition tp).
Definition TopicPartition_UnmarshalText (s : string) : outcome TopicPartition :=
  '(t, n) ← key_parse "TopicPartition" s; Ok (TP t n).

(** ** Round trip *)

Lemma ndigits_spec fuel n :
  0 <= n < 10 ^ Z.of_nat (S fuel) -> n < 10 ^ Z.of_nat (ndigits fuel n) /\ (0 < ndigits fuel n)%nat.
Proof.
  revert n. induction fuel as [|fuel IH]; intros n Hn; [cbn in *; lia|]. cbn [ndigits].
  destruct (Z.ltb_spec n 10); [cbn; lia|].
  rewrite Nat2Z.inj_succ, Z.pow_succ_r in Hn by lia.
  destruct (IH (n / 10)) as [H1 H2].
  { split; [apply Z.div_pos; lia|]. apply Z.div_lt_upper_bound; lia. }
  split; [|lia]. rewrite Nat2Z.inj_succ, Z.pow_succ_r by lia.
  pose proof (Z.div_mod n 10). pose proof (Z.mod_pos_bound n 10). lia.
Qed.

Lemma parse_fmt_u n : 0 <= n < 10 ^ 21 -> SegName.parse_unsigned (fmt_u n) = Some n.
Proof.
  intros Hn. destruct (ndigits_spec 20 n Hn) as [H1 H2]. unfold fmt_u.
  destruct (ndigits 20 n) as [|k]; [lia|].
  rewrite <- (SegName.app_empty_r (SegName.digits (S k) n)), SegName.parse_unsigned_digits, SegName.parse_digits_digits.
  cbn [SegName.parse_digits]. rewrite Z.mod_small by lia. done.
Qed.

Lemma fmt_u_cons n : exists d rest, 0 <= d < 10 /\ fmt_u n = String (SegName.digit_char d) rest.
Proof.
  unfold fmt_u. destruct (ndigits 20 n) as [|k] eqn:E; [cbn in E; by destruct (n <? 10)|].
  cbn [SegName.digits]. do 2 eexists. split; [apply SegName.digit_range|done].
Qed.

Lemma parse_fmt_d z : - 10 ^ 21 < z < 10 ^ 21 -> SegName.parse_signed (fmt_d z) = Some z.
Proof.
  intros Hz. unfold fmt_d. destruct (Z.ltb_spec z 0).
  - cbn [SegName.parse_signed]. rewrite parse_fmt_u by lia. cbn. f_equal. lia.
  - destruct (fmt_u_cons z) as (d & rest & Hd & E). pose proof (parse_fmt_u z ltac:(lia)) as Hp. rewrite E in *.
    by rewrite SegName.digit_not_sign.
Qed.

Lemma ParseInt32_fmt_d z : in_i32 z -> ParseInt32 (fmt_d z) = Ok z.
Proof.
  unfold in_i32. intros Hz. unfold ParseInt32. rewrite parse_fmt_d by lia.
  by rewrite (proj2 (Z.leb_le _ _)), (proj2 (Z.ltb_lt _ _)) by lia.
Qed.

Lemma digits_no_nul n z : split_last_nul (SegName.digits n z) = None.
Proof.
  induction n as [|n IH]; [done|]. cbn [SegName.digits split_last_nul]. rewrite IH.
  destruct (Ascii.eqb_spec (SegName.digit_char (z / 10 ^ Z.of_nat n mod 10)) zero) as [E|]; [|done].
  apply (f_equal N_of_ascii) in E. rewrite SegName.digit_char_N in E by apply SegName.digit_range.
  pose proof (SegName.digit_range z (Z.of_nat n)). cbn in E. lia.
Qed.

Lemma fmt_d_no_nul z : split_last_nul (fmt_d z) = None.
Proof.
  unfold fmt_d, fmt_u. destruct (z <? 0); cbn [split_last_nul]; by rewrite digits_no_nul.
Qed.

Lemma split_last_nul_app t s : split_last_nul s = None -> split_last_nul (String.append t (String zero s)) = Some (t, s).
Proof.
  intros Hs. induction t as [|c t IH]; cbn [String.append split_last_nul]; [by rewrite Hs|]. by rewrite IH.
Qed.

Lemma key_parse_text what topic id : in_i32 id -> key_parse what (key_text topic id) = Ok (topic, id).
Proof.
  intros Hid. unfold key_parse, key_text. rewrite split_last_nul_app by apply fmt_d_no_nul.
  by rewrite ParseInt32_fmt_d, i32_id.
Qed.

(** Every key with an int32 partition id is read back from its text, whatever bytes the
    topic name holds; so distinct keys have distinct texts. *)
Theorem UnmarshalText_MarshalText topic id :
  in_i32 id ->
  PartitionKey_UnmarshalText (PartitionKey_MarshalText (PKey topic id)) = Ok (PKey topic id) /\
  TopicPartition_UnmarshalText (TopicPartition_MarshalText (TP topic id)) = Ok (TP topic id).
Proof.
  intros Hid. unfold PartitionKey_UnmarshalText, TopicPartition_UnmarshalText, PartitionKey_MarshalText,
    TopicPartition_MarshalText. cbn [pk_topic pk_partition tp_topic tp_partition].
  by rewrite !key_parse_text by done.
Qed.

Lemma UnmarshalText_MarshalText_witness :
  PartitionKey_UnmarshalText (PartitionKey_MarshalText (PKey (String zero "7") (-12))) = Ok (PKey (String zero "7") (-12)) /\
  TopicPartition_UnmarshalText (TopicPartition_MarshalText (TP (String zero "7") (-12))) = Ok (TP (String zero "7") (-12)).
Proof. apply UnmarshalText_MarshalText. vm_compute. split; congruence. Defined.

End Keys.
