(* ===== verification/StorageDebug.v ===== *)
(** * The storage tool

    cmd/storage-debug: [append], [read], [dump-segment] and [stats] on a directory. A command is a
    function of the directory, its arguments and standard input to the directory it leaves, the
    lines it prints and its result. The dump of a log file is clean exactly when recovery keeps
    all of it ([dump_scan]); lines that are appended are the ones read back ([append_then_read]). *)

From S2P Require Import Prelude Hash Batch SegName Keys LogSegment BinSearch OffsetIndex TimeIndex BatchLog Segment Recovery Storage StorageOpen StorageExamples.
Local Open Scope Z_scope.

Module StorageDebug.
Import LogSeg SegName Keys BatchLog Seg Recovery Storage StorageOpen StorageExamples.

(** ** Opening *)

(** The configuration file as viper reads it: an error, or the values that are set. *)
Definition buildStorageConfig (cfgFile : option (outcome (string -> option Z))) : outcome StorageConfig :=
  let cfg := {| SegmentMaxBytes := 128 * 1024 * 1024; IndexSampleBytes := 4096; RetentionCheckIntervalMs := 300000;
                DefaultRetentionMs := -1; DefaultRetentionBytes := -1 |} in
  match cfgFile with
  | None => Ok cfg
  | Some v =>
      get ← v;
      Ok {| SegmentMaxBytes := default (SegmentMaxBytes cfg) (get "segment_max_bytes"%string);
            IndexSampleBytes := default (IndexSampleBytes cfg) (get "index_sample_bytes"%string);
            RetentionCheckIntervalMs := RetentionCheckIntervalMs cfg; DefaultRetentionMs := DefaultRetentionMs cfg;
            DefaultRetentionBytes := DefaultRetentionBytes cfg |}
  end.

(** Errors are wrapped, everything else goes on. *)
Definition wrapped {A} (msg : string) (o : outcome A) : outcome A :=
  match o with Err e => Err (ErrWrap msg e) | o => o end.

(** The directory is there: [os.MkdirAll] has made it. *)
Definition openStorage (fs : files) (cfgFile : option (outcome (string -> option Z))) : outcome (StorageConfig * storageImpl) :=
  cfg ← wrapped "load config" (buildStorageConfig cfgFile);
  s ← wrapped "open storage" (Open fs cfg);
  Ok (cfg, s).

(** The directory after the deferred [Close], whose error is ignored. *)
Definition closed_dir (s : storageImpl) : files := match Close s with Ok s' => dir s' | _ => dir s end.

Record session := Session { ss_dir : files; ss_out : list string; ss_result : outcome unit }.

(** The part of a command that runs on the open storage. *)
Definition with_storage (fs : files) (cfgFile : option (outcome (string -> option Z)))
    (body : StorageConfig -> storageImpl -> storageImpl * list string * outcome unit) : session :=
  match openStorage fs cfgFile with
  | Ok (cfg, s) => let '(s', out, r) := body cfg s in Session (closed_dir s') out r
  | Err e => Session fs [] (Err e)
  | Panic p => Session fs [] (Panic p)
  | OutOfFuel => Session fs [] OutOfFuel
  end.

(** ** append *)

Definition line_record (now : Z) (line : list byte) : Batch.record :=
  {| Batch.TimestampMs := now / 10 ^ 6; Batch.rKey := None; Batch.rValue := line; Batch.Headers := [] |}.

(** The lines of standard input, each with the time at which it is read; [scanErr] is the error
    of the scanner at the end. *)
Fixpoint append_lines (cfg : StorageConfig) (scanErr : option error) (input : list (Z * list byte)) (s : storageImpl)
  : storageImpl * list string * outcome unit :=
  match input with
  | [] => (s, [], match scanErr with Some e => Err e | None => Ok tt end)
  | (now, line) :: input' =>
      match wrapped "encode batch" (Batch.EncodeBatch [line_record now line]) with
      | Ok batch =>
          let '(s', r) := Append cfg s batch in
          match wrapped "append" r with
          | Ok baseOffset =>
              let '(s'', out, r) := append_lines cfg scanErr input' s' in (s'', sprint ["base_offset="; fmt_d baseOffset] :: out, r)
          | Err e => (s', [], Err e)
          | Panic p => (s', [], Panic p)
          | OutOfFuel => (s', [], OutOfFuel)
          end
      | Err e => (s, [], Err e)
      | Panic p => (s, [], Panic p)
      | OutOfFuel => (s, [], OutOfFuel)
      end
  end.

Definition appendCmd (fs : files) (cfgFile : option (outcome (string -> option Z))) (scanErr : option error) (input : list (Z * list byte)) : session :=
  with_storage fs cfgFile (fun cfg s => append_lines cfg scanErr input s).

(** ** read *)

Definition show_record (rec : Batch.record) : string :=
  let val := if 80 <? len (Batch.rValue rec) then take 80 (Batch.rValue rec) else Batch.rValue rec in
  sprint ["  ts="; fmt_d (Batch.TimestampMs rec); " value="; String.string_of_list_byte val].

Definition show_batch (b : Batch.batch) : list string :=
  sprint ["batch offset="; fmt_d (Batch.BaseOffset (Batch.bHeader b)); " records="; fmt_d (Batch.RecordCount (Batch.bHeader b))] ::
  (show_record <$> Batch.bRecords b).

(** Every batch moves the position on, so the length of the data is fuel enough. *)
Fixpoint print_batches (fuel : nat) (data : list byte) (pos : Z) : list string * outcome unit :=
  match fuel with
  | O => ([], OutOfFuel)
  | S fuel' =>
      if pos <? len data then
        match wrapped (sprint ["decode batch at pos "; fmt_d pos]) (Batch.DecodeNextBatch data pos) with
        | Ok (batch, next) => let '(out, r) := print_batches fuel' data next in (show_batch batch ++ out, r)
        | Err e => ([], Err e)
        | Panic p => ([], Panic p)
        | OutOfFuel => ([], OutOfFuel)
        end
      else ([], Ok tt)
  end.

Definition readCmd (fs : files) (cfgFile : option (outcome (string -> option Z))) (offsetArg : string) (maxBytes : Z) : session :=
  match wrapped "invalid offset" (ParseInt64 offsetArg) with
  | Ok offset =>
      with_storage fs cfgFile (fun cfg s =>
        let mb := if maxBytes <=? 0 then 4 * 1024 * 1024 else maxBytes in
        match wrapped "read" (Read s offset mb) with
        | Ok (data, _) =>
            match data with
            | [] => (s, ["no data at offset"%string], Ok tt)
            | _ => let '(out, r) := print_batches (S (length data)) data 0 in (s, out, r)
            end
        | Err e => (s, [], Err e)
        | Panic p => (s, [], Panic p)
        | OutOfFuel => (s, [], OutOfFuel)
        end)
  | Err e => Session fs [] (Err e)
  | Panic p => Session fs [] (Panic p)
  | OutOfFuel => Session fs [] OutOfFuel
  end.

(** ** dump-segment *)

Record dump_entry := {
  de_offset : Z; de_length : Z; de_records : Z; de_base_ts : Z; de_max_ts : Z; de_crc_ok : bool
}.

Definition show_entry (e : dump_entry) : string :=
  sprint ["offset="; fmt_d (de_offset e); " length="; fmt_d (de_length e); " records="; fmt_d (de_records e); " ts=["; fmt_d (de_base_ts e);
          ".."; fmt_d (de_max_ts e); "] crc="; if de_crc_ok e then "OK" else "FAIL"].

Fixpoint dump_loop (fuel : nat) (data : list byte) (pos : Z) : list dump_entry * outcome unit :=
  match fuel with
  | O => ([], OutOfFuel)
  | S fuel' =>
      if pos <? len data then
        if len data <? pos + 38 then ([], Err (ErrNew (sprint ["truncated header at pos "; fmt_d pos]))) else
        match getUint32 data (pos + 8) with
        | Ok batchLen =>
            if (batchLen <? 38) || (len data <? pos + batchLen) then ([], Err (ErrNew (sprint ["invalid batch_length="; fmt_d batchLen; " at pos "; fmt_d pos]))) else
            let batchData := sub data pos (pos + batchLen) in
            let e := {| de_offset := i64 (be_Z (sub batchData 0 8)); de_length := batchLen; de_records := i32 (be_Z (sub batchData 12 16));
                        de_base_ts := i64 (be_Z (sub batchData 22 30)); de_max_ts := i64 (be_Z (sub batchData 30 38));
                        de_crc_ok := Crc32.Checksum (sub batchData 38 (len batchData)) Crc32.crcTable =? be_Z (sub batchData 16 20) |} in
            let '(out, r) := dump_loop fuel' data (pos + batchLen) in (e :: out, r)
        | Err e => ([], Err e)
        | Panic p => ([], Panic p)
        | OutOfFuel => ([], OutOfFuel)
        end
      else ([], Ok tt)
  end.

Definition dump (data : list byte) : list dump_entry * outcome unit := dump_loop (S (length data)) data 0.

(** [file]: the contents, or the error of [os.ReadFile]. *)
Definition dumpSegmentCmd (file : outcome (list byte)) : list string * outcome unit :=
  match wrapped "read file" file with
  | Ok data => let '(entries, r) := dump data in (show_entry <$> entries, r)
  | Err e => ([], Err e)
  | Panic p => ([], Panic p)
  | OutOfFuel => ([], OutOfFuel)
  end.

(** ** stats *)

Fixpoint show_segments (fs : files) (names : list string) : list string * outcome unit :=
  match names with
  | [] => ([], Ok tt)
  | name :: names' =>
      match wrapped (sprint ["invalid segment filename "; name]) (parse_name name) with
      | Ok baseOffset =>
          let '(out, r) := show_segments fs names' in
          (sprint [name; ": base_offset="; fmt_d baseOffset; " size="; fmt_d (len (contents fs name))] :: out, r)
      | Err e => ([], Err e)
      | Panic p => ([], Panic p)
      | OutOfFuel => ([], OutOfFuel)
      end
  end.

Definition statsCmd (fs : files) (cfgFile : option (outcome (string -> option Z))) : session :=
  with_storage fs cfgFile (fun cfg s =>
    let names := matches (dir s) in
    let '(out, r) := show_segments (dir s) names in
    match r with
    | Ok _ => (s, out ++ [sprint ["EarliestOffset="; fmt_d (EarliestOffset s)]; sprint ["LatestOffset="; fmt_d (LatestOffset s)];
                          sprint ["segments="; fmt_d (len names)]], Ok tt)
    | r => (s, out, r)
    end).

(** ** The dump and recovery *)

Lemma getUint32_sub f pos n i : 0 <= pos -> 0 <= i -> i + 4 <= n -> pos + n <= len f ->
  getUint32 (sub f pos (pos + n)) i = Ok (be_Z (sub f (pos + i) (pos + i + 4))).
Proof.
  intros. unfold getUint32. rewrite slice_Ok by (rewrite ?len_sub; lia). cbn. f_equal. f_equal. rewrite sub_sub by lia. f_equal; lia.
Qed.

Lemma getUint32_in f i : 0 <= i -> i + 4 <= len f -> getUint32 f i = Ok (be_Z (sub f i (i + 4))).
Proof. intros. unfold getUint32. by rewrite slice_Ok by lia. Qed.

Lemma getUint64_sub f pos n i : 0 <= pos -> 0 <= i -> i + 8 <= n -> pos + n <= len f ->
  exists z, getUint64 (sub f pos (pos + n)) i = Ok z.
Proof. intros. unfold getUint64. rewrite slice_Ok by (rewrite ?len_sub; lia). by eexists. Qed.

Definition clean (r : list dump_entry * outcome unit) : Prop := r.2 = Ok tt /\ Forall (fun e => de_crc_ok e = true) r.1.

Lemma clean_cons e es r : clean (e :: es, r) <-> de_crc_ok e = true /\ clean (es, r).
Proof. unfold clean. cbn. rewrite Forall_cons. naive_solver. Qed.

Lemma dump_scan_loop fuel f pos off :
  0 <= pos <= len f ->
  clean (dump_loop fuel f pos) <-> exists next, scanActiveLog_loop fuel f pos off = Ok (len f, next, 0).
Proof.
  revert pos off. induction fuel as [|fuel IH]; intros pos off Hpos; cbn [dump_loop scanActiveLog_loop].
  { split; [by intros [? _]|by intros [? ?]]. }
  destruct (Z.ltb_spec pos (len f)) as [Hlt|Hge].
  2:{ replace pos with (len f) by lia. split; [intros _; by eexists|done]. }
  destruct (Z.ltb_spec (len f) (pos + 38)) as [Hs|Hs].
  { split; [by intros [? _]|]. intros [next Hn]. assert (pos = len f) by congruence. lia. }
  rewrite getUint32_in, (getUint32_sub f pos 38 8) by lia. cbn [mbind outcome_bind].
  set (n := be_Z (sub f (pos + 8) (pos + 8 + 4))). destruct ((n <? 38) || (len f <? pos + n)) eqn:En.
  { split; [by intros [? _]|]. intros [next Hn]. assert (pos = len f) by congruence. lia. }
  apply orb_false_iff in En as [E1%Z.ltb_ge E2%Z.ltb_ge].
  rewrite (getUint32_sub f pos 38 16) by lia. cbn [mbind outcome_bind].
  destruct (dump_loop fuel f (pos + n)) as [es r] eqn:Ed. rewrite clean_cons. cbn [de_crc_ok].
  rewrite len_sub by lia. rewrite !sub_sub by lia. replace (pos + (pos + n - pos)) with (pos + n) by lia.
  replace (pos + 16 + 4) with (pos + 20) by lia.
  destruct (Crc32.Checksum _ _ =? _) eqn:Ec; cbn [negb].
  2:{ split; [by intros [? _]|]. by intros [next [=]]. }
  rewrite (getUint32_sub f pos 38 12) by lia. destruct (getUint64_sub f pos 38 0) as [base ->]; [lia..|]. cbn [mbind outcome_bind].
  rewrite <- (IH (pos + n)), Ed by lia. naive_solver.
Qed.

(** C36: The dump of a log file and recovery agree. On every file, dump-segment ends without an error
    and reports every checksum as OK exactly when the scan of recovery accepts the file to its
    last byte; otherwise recovery would cut the file. *)
Theorem dump_scan f base :
  (exists entries, dump f = (entries, Ok tt) /\ Forall (fun e => de_crc_ok e = true) entries) <->
  exists next, scanActiveLog f base = Ok (len f, next, 0).
Proof.
  unfold dump, scanActiveLog. rewrite <- dump_scan_loop by (pose proof (len_nonneg f); lia). unfold clean.
  destruct (dump_loop _ _ _) as [es r]. cbn. naive_solver.
Qed.

(** ** Appending and reading lines *)

(** A line whose batch fits. *)
Definition encodes (nl : Z * list byte) (enc : list byte) : Prop :=
  Batch.EncodeBatch [line_record nl.1 nl.2] = Ok enc /\ len enc <= maxBatchBytes /\ in_i64 (nl.1 / 10 ^ 6).

(** The batches in the log, from the offset [base] on. *)
Fixpoint placed (base : Z) (encs : list (list byte)) : list (list byte) :=
  match encs with [] => [] | enc :: encs' => Batch.withBaseOffset enc base :: placed (base + 1) encs' end.

(** What [read] prints of the lines. *)
Fixpoint shown (base : Z) (input : list (Z * list byte)) : list string :=
  match input with
  | [] => []
  | nl :: input' =>
      sprint ["batch offset="; fmt_d base; " records=1"] :: show_record (line_record nl.1 nl.2) :: shown (base + 1) input'
  end.

Lemma encodes_wf nl enc : encodes nl enc -> wf_batch enc /\ batch_count enc = 1.
Proof. intros (He & Hl & _). split; [by eapply EncodeBatch_wf|]. by rewrite (encoded_count _ _ He Hl). Qed.

Lemma append_lines_ok cfg s off l input encs :
  cfg_ok cfg -> represents cfg s off l -> Forall2 encodes input encs -> LatestOffset s + len input < 2 ^ 63 ->
  exists s', append_lines cfg None input s = (s', (fun z => sprint ["base_offset="; fmt_d z]) <$> seqZ (LatestOffset s) (len input), Ok tt) /\
    represents cfg s' off (l ++ placed (LatestOffset s) encs).
Proof.
  intros Hcfg Hrep Henc. revert s l Hrep. induction Henc as [|[now line] enc input encs He _ IH]; intros s l Hrep Hend.
  { exists s. by rewrite app_nil_r. }
  destruct (encodes_wf _ _ He) as [Hwf Hc]. pose proof He as (He1 & _). cbn [fst snd] in He1. rewrite len_cons in Hend.
  pose proof (len_nonneg input). destruct (append_represents cfg s off l enc Hcfg Hrep Hwf) as (s1 & E & Hrep1 & Hlat & _); [lia|].
  cbn [append_lines]. rewrite He1. cbn [wrapped]. rewrite E. cbn [wrapped].
  destruct (IH s1 _ Hrep1) as (s' & -> & Hrep'); [rewrite Hlat; lia|]. exists s'. rewrite Hlat, Hc in *.
  rewrite <- app_assoc in Hrep'. split; [|exact Hrep']. rewrite len_cons, (seqZ_cons _ (1 + len input)) by lia. cbn.
  by replace (Z.pred (1 + len input)) with (len input) by lia.
Qed.

Lemma len_placed base encs : length (placed base encs) = length encs.
Proof. revert base. induction encs; intros; cbn; auto. Qed.

Lemma placed_long input encs base : Forall2 encodes input encs -> (length encs <= length (concat (placed base encs)))%nat.
Proof.
  intros H. revert base. induction H as [|nl enc input encs He _ IH]; intros base; [done|]. cbn [placed concat length]. rewrite length_app.
  destruct (encodes_wf _ _ He) as [Hwf _]. pose proof (wf_len _ Hwf). assert (len (Batch.withBaseOffset enc base) = len enc) by (apply len_withBase; lia).
  unfold len in *. specialize (IH (base + 1)). lia.
Qed.

(** The batches of the lines print as the lines. *)
Lemma print_placed input encs base pre fuel :
  Forall2 encodes input encs -> 0 <= base -> base + len input < 2 ^ 63 -> (length encs < fuel)%nat ->
  print_batches fuel (pre ++ concat (placed base encs)) (len pre) = (shown base input, Ok tt).
Proof.
  intros Henc. revert base pre fuel. induction Henc as [|[now line] enc input encs He Henc IH]; intros base pre fuel Hb Hend Hf.
  { destruct fuel; [cbn in Hf; lia|]. cbn [print_batches placed concat]. by rewrite app_nil_r, Z.ltb_irrefl. }
  destruct fuel as [|fuel]; [lia|]. cbn [length] in Hf. rewrite len_cons in Hend. pose proof (len_nonneg input).
  destruct (encodes_wf _ _ He) as [Hwf Hc]. pose proof (wf_len _ Hwf) as Hlen. pose proof He as (He1 & _ & Hts). cbn [fst snd] in He1, Hts.
  cbn [print_batches placed concat]. set (b := Batch.withBaseOffset enc base).
  assert (len b = len enc) as Hlb by (apply len_withBase; lia). pose proof (len_nonneg pre). pose proof (len_nonneg (concat (placed (base + 1) encs))).
  rewrite (proj2 (Z.ltb_lt _ _)) by (rewrite !len_app; lia). unfold Batch.DecodeNextBatch.
  rewrite (proj2 (Z.leb_gt _ _)) by (rewrite !len_app; lia).
  rewrite slice_Ok by (rewrite ?len_app; lia). cbn [mbind outcome_bind]. rewrite sub_tail by (done || by rewrite len_app).
   destruct (Batch.decode_encode [line_record now line] enc base (concat (placed (base + 1) encs)) He1) as (r0 & [= <-] & Hd);
    [unfold maxBatchBytes in *; lia|unfold in_i64; lia|by constructor; [exact Hts|constructor]|]. fold b in Hd. rewrite Hd. cbn [mbind outcome_bind wrapped Batch.bHeader Batch.encodedHeader Batch.BatchLength].
  rewrite len_sub by lia. replace (len pre + (38 + (len enc - 38))) with (len (pre ++ b)) by (rewrite len_app; lia).
  rewrite app_assoc, IH by (done || lia). done.
Qed.

Lemma placed_prefix base encs bs post : placed base encs = bs ++ post -> bs = placed base (take (length bs) encs).
Proof.
  revert base bs. induction encs as [|enc encs IH]; intros base bs E; destruct bs as [|b bs]; try done.
  cbn [placed app] in E. injection E as <- E. cbn [length take placed]. f_equal. by apply IH.
Qed.

Lemma ParseInt64_fmt_d z : 0 <= z < 2 ^ 63 -> ParseInt64 (fmt_d z) = Ok z.
Proof. intros Hz. unfold ParseInt64. rewrite parse_fmt_d by lia. by rewrite (proj2 (Z.leb_le _ _)), (proj2 (Z.ltb_lt _ _)) by lia. Qed.

Lemma opened fs cfgFile cfg s : buildStorageConfig cfgFile = Ok cfg -> Open fs cfg = Ok s -> openStorage fs cfgFile = Ok (cfg, s).
Proof. intros E1 E2. unfold openStorage. rewrite E1. cbn [wrapped mbind outcome_bind]. by rewrite E2. Qed.

(** C34: Lines through a storage directory. On a directory that holds a log, append prints the
    consecutive offsets from the end of the log on, one per line; read at the first of them then
    prints the lines again, in order and with their times, as many as one read returns and at
    least one, each cut to eighty bytes. Both commands succeed, whatever the segments. *)
Theorem append_then_read fs cfgFile cfg s off l input encs maxBytes :
  buildStorageConfig cfgFile = Ok cfg -> cfg_ok cfg -> Open fs cfg = Ok s -> represents cfg s off l ->
  Forall2 encodes input encs -> input <> [] -> LatestOffset s + len input < 2 ^ 63 ->
  let base := LatestOffset s in
  exists fs1 fs2 k, (0 < k)%nat /\
    appendCmd fs cfgFile None input = Session fs1 ((fun z => sprint ["base_offset="; fmt_d z]) <$> seqZ base (len input)) (Ok tt) /\
    readCmd fs1 cfgFile (fmt_d base) maxBytes = Session fs2 (shown base (take k input)) (Ok tt).
Proof.
  intros Ecfg Hcfg Eo Hrep Henc Hne Hend base. destruct (append_lines_ok cfg s off l input encs Hcfg Hrep Henc Hend) as (s1 & E1 & Hrep1).
  destruct (Close_Open cfg s1 off _ [] Hcfg Hrep1) as (s2 & s3 & Ec & _ & Eo3 & Hrep3 & Hlat3).
  pose proof (represents_log _ _ _ _ Hrep) as (_ & Hlat & _ & H0 & Hmax). pose proof (represents_log _ _ _ _ Hrep3) as (Hch & Hlat3' & _).
  pose proof (end_off_mono off l). fold base in Hlat, Hmax, Hrep1, Hch, Hlat3', Hrep3. rewrite Hlat in *.
  destruct Henc as [|nl enc input encs He Henc]; [done|]. destruct (encodes_wf _ _ He) as [Hwf Hc].
  assert (batch_count (Batch.withBaseOffset enc (end_off off l)) = 1) as Hc1 by (rewrite withBase_count; [done|apply (wf_len _ Hwf)]).
  assert (end_off off l < LatestOffset s3).
  { rewrite Hlat3', end_off_app. cbn [placed end_off]. rewrite Hc1. pose proof (end_off_mono (end_off off l + 1) (placed (end_off off l + 1) encs)). lia. }
  set (mb := if maxBytes <=? 0 then 4 * 1024 * 1024 else maxBytes).
  destruct (read_inside cfg s3 off _ (end_off off l) mb Hcfg Hrep3) as (pre & b & rest & post & E & HR & Hx & _); [lia|].
  cbn [app] in E. assert (chain off (pre ++ b :: rest ++ post)) as Hc2 by (by rewrite <- E).
  apply chain_app in Hc2 as [_ (_ & Hxb & _)]. unfold batch_end in Hx. rewrite Hxb in Hx.
  destruct (chain_split_unique off l _ pre b (rest ++ post) Hch E) as [<- E2]; [done|].
  change (b :: rest ++ post) with ((b :: rest) ++ post) in E2. pose proof (placed_prefix _ _ _ _ E2) as Ebs.
  set (k := length (b :: rest)) in *. eexists _, _, k. split; [unfold k; cbn; lia|]. split.
  - unfold appendCmd, with_storage. rewrite (opened fs cfgFile cfg s Ecfg Eo), E1. unfold closed_dir. rewrite Ec. fold base. rewrite Hlat. reflexivity.
  - unfold readCmd. rewrite ParseInt64_fmt_d by lia. cbn [wrapped]. unfold with_storage. rewrite (opened _ cfgFile cfg s3 Ecfg Eo3).
    fold mb. rewrite HR. cbn [wrapped]. rewrite Ebs.
    assert (Forall2 encodes (take k (nl :: input)) (take k (enc :: encs))) as Hk by (apply Forall2_take; by constructor).
    pose proof (print_placed _ _ (end_off off l) [] (S (length (concat (placed (end_off off l) (take k (enc :: encs)))))) Hk) as Hp.
    pose proof (placed_long _ _ (end_off off l) Hk) as Hlong. cbn [app] in Hp. change (len []) with 0 in Hp. rewrite Hp.
    + destruct (concat (placed (end_off off l) (take k (enc :: encs)))) as [|byte data]; [|reflexivity]. unfold k in Hlong. cbn in Hlong. lia.
    + lia.
    + unfold len in *. rewrite length_take. lia.
    + lia.
Qed.

(** Two lines into an empty directory, with the default configuration. *)
Definition two_lines : list (Z * list byte) :=
  [(1700000000000 * 10 ^ 6, String.list_byte_of_string "hello"); (1700000000001 * 10 ^ 6, String.list_byte_of_string "world")].

Lemma append_then_read_witness :
  exists fs1 fs2 k, (0 < k)%nat /\
    appendCmd ∅ None None two_lines = Session fs1 ["base_offset=0"; "base_offset=1"]%string (Ok tt) /\
    readCmd fs1 None "0" 0 = Session fs2 (shown 0 (take k two_lines)) (Ok tt).
Proof.
  set (cfg := {| SegmentMaxBytes := 128 * 1024 * 1024; IndexSampleBytes := 4096; RetentionCheckIntervalMs := 300000;
                 DefaultRetentionMs := -1; DefaultRetentionBytes := -1 |}).
  assert (cfg_ok cfg) as Hcfg by (constructor; cbn; lia).
  destruct (open_empty cfg Hcfg) as (s & Eo & Hrep & Hlat).
  set (enc := fun nl : Z * list byte => match Batch.EncodeBatch [line_record nl.1 nl.2] with Ok e => e | _ => [] end).
  pose proof (append_then_read ∅ None cfg s 0 [] two_lines (enc <$> two_lines) 0 eq_refl Hcfg Eo Hrep) as H.
  rewrite Hlat in H. apply H.
  - repeat constructor; vm_compute; done.
  - done.
  - vm_compute. done.
Defined.

End StorageDebug.
