(* ===== verification/Json.v ===== *)
(** * JSON as Go writes and reads it

    What the program uses of encoding/json, on values instead of text: numbers, strings, arrays
    and objects. A [codec] is how a Go type is written and read, with the values that are read
    back ([fits]) and what they are read back as ([norm]: fields marked omitempty lose the
    difference between an empty and a missing value). Structs are built field by field, so that
    the round trip of each type follows from that of its parts. Member names are those the
    encoder writes; the decoder's tolerance for other letter cases is not modelled. *)

From Stdlib Require Import Ascii.
From S2P Require Import Prelude SegName Keys.
Local Open Scope Z_scope.

Module Json.

#[local] Arguments String.append (s1 s2)%_string_scope : simpl nomatch.

#[warnings="-register-all"]
Inductive json :=
| JNull
| JNum (z : Z)
| JStr (s : string)
| JTime (ns : Z)   (** a string in RFC 3339 with nanoseconds, as the instant it denotes *)
| JArr (vs : list json)
| JObj (ms : list (string * json)).

(** ** Strings *)

Definition code (c : ascii) : Z := Z.of_N (N_of_ascii c).
Definition within (lo hi : Z) (c : ascii) : bool := (lo <=? code c) && (code c <=? hi).
Definition cont : ascii -> bool := within 128 191.
(** The first two bytes of a form of three and of four bytes. *)
Definition lead3 (a b : ascii) : bool :=
  within 224 224 a && within 160 191 b || within 237 237 a && within 128 159 b ||
  (within 225 236 a || within 238 239 a) && cont b.
Definition lead4 (a b : ascii) : bool :=
  within 240 240 a && within 144 191 b || within 241 243 a && cont b || within 244 244 a && within 128 143 b.

(** U+FFFD *)
Definition replacement (s : string) : string :=
  String (ascii_of_N 239) (String (ascii_of_N 191) (String (ascii_of_N 189) s)).

(** Each byte that is not part of valid UTF-8 is written as U+FFFD. *)
Fixpoint coerceUTF8 (s : string) : string :=
  match s with
  | EmptyString => EmptyString
  | String a s1 =>
      if code a <? 128 then String a (coerceUTF8 s1) else
      let bad := replacement (coerceUTF8 s1) in
      match s1 with
      | EmptyString => bad
      | String b s2 =>
          if within 194 223 a && cont b then String a (String b (coerceUTF8 s2)) else
          match s2 with
          | EmptyString => bad
          | String c s3 =>
              if lead3 a b && cont c then String a (String b (String c (coerceUTF8 s3))) else
              match s3 with
              | EmptyString => bad
              | String d s4 =>
                  if lead4 a b && cont c && cont d then String a (String b (String c (String d (coerceUTF8 s4)))) else bad
              end
          end
      end
  end.

Definition utf8 (s : string) : Prop := coerceUTF8 s = s.

Lemma utf8_ascii a s : code a < 128 -> utf8 s -> utf8 (String a s).
Proof. unfold utf8. intros Ha Hs. cbn [coerceUTF8]. by rewrite (proj2 (Z.ltb_lt _ _)), Hs. Qed.

(** Valid text consists of characters of one to four bytes. *)
Lemma utf8_char s :
  utf8 s -> s = EmptyString \/ exists w r, s = String.append w r /\ w <> EmptyString /\ utf8 r /\
    forall t, coerceUTF8 (String.append w t) = String.append w (coerceUTF8 t).
Proof.
  unfold utf8. destruct s as [|a s1]; [by left|]. intros Hs. right. cbn [coerceUTF8] in Hs.
  destruct (code a <? 128) eqn:Ea.
  { injection Hs as Hs. exists (String a ""), s1. split_and!; [done..|]. intros t. cbn [String.append coerceUTF8]. by rewrite Ea. }
  destruct s1 as [|b s2]; [discriminate Hs|]. destruct (within 194 223 a && cont b) eqn:E2.
  { injection Hs as Hs. exists (String a (String b "")), s2. split_and!; [done..|]. intros t. cbn [String.append coerceUTF8]. by rewrite Ea, E2. }
  destruct s2 as [|c s3]; [discriminate Hs|]. destruct (lead3 a b && cont c) eqn:E3.
  { injection Hs as Hs. exists (String a (String b (String c ""))), s3. split_and!; [done..|]. intros t. cbn [String.append coerceUTF8]. by rewrite Ea, E2, E3. }
  destruct s3 as [|d s4].
  { injection Hs as <- <- <- _. discriminate E3. }
  destruct (lead4 a b && cont c && cont d) eqn:E4.
  { injection Hs as Hs. exists (String a (String b (String c (String d "")))), s4. split_and!; [done..|].
    intros t. cbn [String.append coerceUTF8]. by rewrite Ea, E2, E3, E4. }
  injection Hs as <- <- <- _. discriminate E3.
Qed.

Lemma append_assoc s t u : String.append (String.append s t) u = String.append s (String.append t u).
Proof. induction s as [|a s IH]; cbn; [done|]. by f_equal. Qed.

Lemma utf8_app s t : utf8 s -> utf8 t -> utf8 (String.append s t).
Proof.
  intros Hs Ht. induction s as [s IH] using (induction_ltof1 _ String.length). unfold ltof in IH.
  destruct (utf8_char s Hs) as [->|(w & r & -> & Hw & Hr & Hc)]; [done|].
  unfold utf8. rewrite append_assoc, Hc. f_equal. apply IH; [|done].
  rewrite SegName.length_append. destruct w; [done|]. cbn. lia.
Qed.

(** ** Codecs *)

Record codec (A : Type) := {
  enc : A -> json;
  dec : json -> option A;
  zero : A;
  fits : A -> Prop;
  norm : A -> A;
  dec_enc : forall a, fits a -> dec (enc a) = Some (norm a)
}.
Arguments enc {A}. Arguments dec {A}. Arguments zero {A}. Arguments fits {A}. Arguments norm {A}. Arguments dec_enc {A}.

(** Values are read back unchanged. *)
Definition plain {A} (c : codec A) : Prop := forall a, norm c a = a.

Create HintDb plain.

Definition c_int (lo hi : Z) : codec Z.
Proof.
  refine {| enc := JNum; zero := 0; fits := fun z => lo <= z < hi; norm := id;
    dec := fun v => match v with JNum z => if (lo <=? z) && (z <? hi) then Some z else None | JNull => Some 0 | _ => None end |}.
  intros z Hz. by rewrite (proj2 (Z.leb_le _ _)), (proj2 (Z.ltb_lt _ _)) by lia.
Defined.
Definition c_i32 : codec Z := c_int (- 2 ^ 31) (2 ^ 31).
Definition c_i64 : codec Z := c_int (- 2 ^ 63) (2 ^ 63).
Definition c_u64 : codec Z := c_int 0 (2 ^ 64).

Definition c_string : codec string.
Proof.
  refine {| enc := fun s => JStr (coerceUTF8 s); zero := ""; fits := utf8; norm := id;
    dec := fun v => match v with JStr s => Some s | JNull => Some "" | _ => None end |}.
  intros s Hs. by rewrite Hs.
Defined.

(** The zero time is the start of the year 1; years outside 0..9999 cannot be written. *)
Definition zero_time : Z := - 62135596800 * 10 ^ 9.
Definition c_time : codec Z.
Proof.
  refine {| enc := JTime; zero := zero_time; norm := id; fits := fun z => - 62167219200 <= z / 10 ^ 9 < 253402300800;
    dec := fun v => match v with JTime z => Some z | JNull => Some zero_time | _ => None end |}.
  done.
Defined.

(** Slices. A list stands for a nil or an empty slice; a nil one is written as null, which reads as
    the same list. *)
Definition c_list {A} (c : codec A) : codec (list A).
Proof.
  refine {| enc := fun l => JArr (map (enc c) l); zero := []; fits := Forall (fits c); norm := map (norm c);
    dec := fun v => match v with JArr vs => mapM (dec c) vs | JNull => Some [] | _ => None end |}.
  intros l. induction 1 as [|a l Ha _ IH]; [done|]. cbn. rewrite (dec_enc c a Ha). cbn. cbn in IH. by rewrite IH.
Defined.

(** A pointer to a struct, as an option. *)
Definition c_ptr {A} (c : codec A) (struct : forall a, enc c a <> JNull) : codec (option A).
Proof.
  refine {| enc := fun o => match o with Some a => enc c a | None => JNull end; zero := None;
    fits := fun o => match o with Some a => fits c a | None => True end; norm := fmap (norm c);
    dec := fun v => match v with JNull => Some None | v => Some <$> dec c v end |}.
  intros [a|] Ha; [|done]. pose proof (dec_enc c a Ha) as Hd. pose proof (struct a). destruct (enc c a); [done|..]; by rewrite Hd.
Defined.

(** A pointer that is never nil. *)
Definition c_ref {A} (c : codec A) (struct : forall a, enc c a <> JNull) : codec A.
Proof.
  refine {| enc := enc c; zero := zero c; fits := fits c; norm := norm c;
    dec := fun v => match v with JNull => None | v => dec c v end |}.
  intros a Ha. pose proof (dec_enc c a Ha) as Hd. pose proof (struct a). by destruct (enc c a).
Defined.

(** ** Maps *)

Record key_codec (K : Type) := {
  kenc : K -> string;
  kdec : string -> option K;
  kfits : K -> Prop;
  kdec_kenc : forall k, kfits k -> kdec (kenc k) = Some k
}.
Arguments kenc {K}. Arguments kdec {K}. Arguments kfits {K}. Arguments kdec_kenc {K}.

(** A type with text form as a map key, and as a value. *)
Definition c_text {K} (k : key_codec K) (z : K) : codec K.
Proof.
  refine {| enc := fun a => JStr (kenc k a); zero := z; fits := kfits k; norm := id;
    dec := fun v => match v with JStr s => kdec k s | JNull => Some z | _ => None end |}.
  apply kdec_kenc.
Defined.

Definition k_string : key_codec string.
Proof. refine {| kenc := coerceUTF8; kdec := Some; kfits := utf8 |}. intros s Hs. by rewrite Hs. Defined.

Definition k_u64 : key_codec Z.
Proof.
  refine {| kenc := Keys.fmt_u; kfits := in_u64;
    kdec := fun s => z ← SegName.parse_unsigned s; if z <? 2 ^ 64 then Some z else None |}.
  intros z Hz. unfold in_u64 in Hz. rewrite Keys.parse_fmt_u by lia. cbn [mbind option_bind]. by rewrite (proj2 (Z.ltb_lt _ _)) by lia.
Defined.

(** [MarshalText] is followed by the coercion of every string. *)
Definition k_text {K} (marshal : K -> string) (unmarshal : string -> outcome K) (ok : K -> Prop)
    (law : forall k, ok k -> unmarshal (marshal k) = Ok k) : key_codec K.
Proof.
  refine {| kenc := fun k => coerceUTF8 (marshal k); kfits := fun k => ok k /\ utf8 (marshal k);
    kdec := fun s => match unmarshal s with Ok k => Some k | _ => None end |}.
  intros k [Hk Hu]. by rewrite Hu, law.
Defined.

Section map.
Context {K A : Type} `{Countable K} (k : key_codec K) (c : codec A).

Definition member_of (kv : K * A) : string * json := (kenc k kv.1, enc c kv.2).
(** Members are written in the order of their names. *)
Definition by_name (a b : string * json) : Prop := String.le a.1 b.1.
#[local] Instance by_name_dec a b : Decision (by_name a b).
Proof. unfold by_name. apply _. Defined.
Definition map_members (m : gmap K A) : list (string * json) := merge_sort by_name (map member_of (map_to_list m)).

(** Of two members with the same key the later one counts. *)
Fixpoint dec_members (ms : list (string * json)) (m : gmap K A) : option (gmap K A) :=
  match ms with
  | [] => Some m
  | (s, v) :: ms' => i ← kdec k s; a ← dec c v; dec_members ms' (<[i := a]> m)
  end.

Definition member_fits (kv : K * A) : Prop := kfits k kv.1 /\ fits c kv.2.

Lemma dec_members_enc l m :
  Forall member_fits l ->
  dec_members (map member_of l) m = Some (fold_left (fun m kv => <[kv.1 := kv.2]> m) (prod_map id (norm c) <$> l) m).
Proof.
  intros Hl. revert m. induction Hl as [|[i a] l [Hi Ha] _ IH]; intros m; [done|].
  cbn [map dec_members member_of fst snd]. cbn in Hi, Ha. rewrite (kdec_kenc k i Hi). cbn [mbind option_bind].
  rewrite (dec_enc c a Ha). cbn [mbind option_bind]. apply IH.
Qed.

Lemma dec_map_members m :
  (forall i a, m !! i = Some a -> kfits k i /\ fits c a) -> dec_members (map_members m) ∅ = Some (norm c <$> m).
Proof.
  intros Hm. destruct (Permutation_map_inv member_of (map_to_list m) (l1 := map_members m)) as (l & -> & P).
  { apply merge_sort_Permutation. }
  rewrite dec_members_enc.
  - f_equal. assert (NoDup (prod_map id (norm c) <$> l).*1) as Hd.
    { rewrite <- list_fmap_compose. change (fst ∘ prod_map id (norm c)) with (fun kv : K * A => kv.1). rewrite <- P. apply NoDup_fst_map_to_list. }
    rewrite fold_insert, (right_id_L ∅ (∪)) by done.
    rewrite list_to_map_fmap. f_equal. etrans; [|apply list_to_map_to_list].
    apply list_to_map_proper; [|by symmetry]. rewrite <- P. apply NoDup_fst_map_to_list.
  - rewrite <- P. apply Forall_forall. intros [i a] Hin%elem_of_map_to_list. by apply Hm.
Qed.

Definition c_map : codec (gmap K A).
Proof.
  refine {| enc := fun m => JObj (map_members m); zero := ∅; norm := fmap (norm c);
    fits := fun m => forall i a, m !! i = Some a -> kfits k i /\ fits c a;
    dec := fun v => match v with JObj ms => dec_members ms ∅ | JNull => Some ∅ | _ => None end |}.
  apply dec_map_members.
Defined.

End map.
Arguments c_map {K A _ _}.

(** ** Structs *)

(** The value of a member; the last one of a name counts. *)
Fixpoint member (tag : string) (ms : list (string * json)) : option json :=
  match ms with
  | [] => None
  | (s, v) :: ms' =>
      match member tag ms' with
      | Some v' => Some v'
      | None => if String.eqb s tag then Some v else None
      end
  end.

Lemma member_app tag ms1 ms2 :
  member tag (ms1 ++ ms2) = match member tag ms2 with Some v => Some v | None => member tag ms1 end.
Proof.
  induction ms1 as [|[s v] ms1 IH]; cbn; [by destruct (member tag ms2)|]. rewrite IH. by destruct (member tag ms2).
Qed.

(** A list of fields. What they read depends only on the members with their names. *)
Record fields (A : Type) := {
  tags : list string;
  menc : A -> list (string * json);
  mdec : list (string * json) -> option A;
  mzero : A;
  mfits : A -> Prop;
  mnorm : A -> A;
  menc_tags : forall a t, existsb (String.eqb t) tags = false -> member t (menc a) = None;
  mdec_menc : forall a ms, mfits a -> (forall t, existsb (String.eqb t) tags = true -> member t ms = member t (menc a)) ->
    mdec ms = Some (mnorm a)
}.
Arguments tags {A}. Arguments menc {A}. Arguments mdec {A}. Arguments mzero {A}. Arguments mfits {A}. Arguments mnorm {A}.
Arguments menc_tags {A}. Arguments mdec_menc {A}.

Definition no_fields : fields unit.
Proof.
  refine {| tags := []; menc := fun _ => []; mdec := fun _ => Some tt; mzero := tt; mfits := fun _ => True; mnorm := id |}.
  - done.
  - by intros [] ms _ _.
Defined.

(** Reading a field: a missing member leaves the zero value. *)
Definition read_field {A} (tag : string) (c : codec A) (ms : list (string * json)) : option A :=
  match member tag ms with Some v => dec c v | None => Some (zero c) end.

Section field.
Context {A B : Type} (tag : string) (c : codec A).
(** When the field is left out. *)
Variable empty : A -> bool.
Variable fs : fields B.
Hypothesis fresh : existsb (String.eqb tag) (tags fs) = false.

Definition written (a : A) : list (string * json) := if empty a then [] else [(tag, enc c a)].

Lemma member_written t a : String.eqb t tag = false -> member t (written a) = None.
Proof. intros Ht. unfold written. destruct (empty a); cbn; [done|]. by rewrite String.eqb_sym, Ht. Qed.

Definition some_field : fields (A * B).
Proof.
  refine {| tags := tag :: tags fs; menc := fun ab => written ab.1 ++ menc fs ab.2;
    mdec := fun ms => a ← read_field tag c ms; b ← mdec fs ms; Some (a, b);
    mzero := (zero c, mzero fs); mfits := fun ab => fits c ab.1 /\ mfits fs ab.2;
    mnorm := fun ab => (if empty ab.1 then zero c else norm c ab.1, mnorm fs ab.2) |}.
  - intros [a b] t. cbn [existsb fst snd]. intros [Ht Hr]%orb_false_iff. rewrite member_app, menc_tags by done. by apply member_written.
  - intros [a b] ms [Ha Hb] Hm. cbn [fst snd] in *. unfold read_field.
    rewrite (Hm tag) by (cbn; by rewrite String.eqb_refl). rewrite member_app, (menc_tags fs b tag fresh).
    assert (mdec fs ms = Some (mnorm fs b)) as ->.
    { apply mdec_menc; [done|]. intros t Ht. rewrite Hm by (cbn; rewrite Ht; apply orb_true_r). rewrite member_app.
      destruct (member t (menc fs b)); [done|]. apply member_written. destruct (String.eqb_spec t tag) as [->|]; [congruence|done]. }
    unfold written. destruct (empty a); cbn [member]; [done|]. rewrite String.eqb_refl, (dec_enc c a Ha). done.
Defined.

End field.

(** A field that is always written, and one marked omitempty. *)
Definition field {A B} (tag : string) (c : codec A) (fs : fields B) (fresh : existsb (String.eqb tag) (tags fs) = false) : fields (A * B) :=
  some_field tag c (fun _ => false) fs fresh.
Definition field_omitempty {A B} (tag : string) (c : codec A) (empty : A -> bool) (fs : fields B)
    (fresh : existsb (String.eqb tag) (tags fs) = false) : fields (A * B) := some_field tag c empty fs fresh.

Definition c_struct {A T} (to : A -> T) (from : T -> A) (fs : fields T) : codec A.
Proof.
  refine {| enc := fun a => JObj (menc fs (to a)); zero := from (mzero fs); fits := fun a => mfits fs (to a);
    norm := fun a => from (mnorm fs (to a));
    dec := fun v => match v with JObj ms => from <$> mdec fs ms | JNull => Some (from (mzero fs)) | _ => None end |}.
  intros a Ha. by rewrite (mdec_menc fs (to a) _ Ha).
Defined.

(** ** Types whose values are read back unchanged *)

Definition plain_fields {A} (fs : fields A) : Prop := forall a, mnorm fs a = a.

Lemma plain_int lo hi : plain (c_int lo hi). Proof. done. Qed.
Lemma plain_string : plain c_string. Proof. done. Qed.
Lemma plain_time : plain c_time. Proof. done. Qed.
Lemma plain_text {K} (k : key_codec K) z : plain (c_text k z). Proof. done. Qed.
Lemma plain_list {A} (c : codec A) : plain c -> plain (c_list c).
Proof. intros Hc l. cbn. induction l as [|a l IH]; cbn; [done|]. by rewrite Hc, IH. Qed.
Lemma plain_ptr {A} (c : codec A) s : plain c -> plain (c_ptr c s).
Proof. intros Hc [a|]; cbn; [by rewrite Hc|done]. Qed.
Lemma plain_ref {A} (c : codec A) s : plain c -> plain (c_ref c s).
Proof. intros Hc a. apply Hc. Qed.
Lemma plain_map {K A} `{Countable K} (k : key_codec K) (c : codec A) : plain c -> plain (c_map k c).
Proof. intros Hc m. cbn. rewrite <- (map_fmap_id m) at 2. apply map_fmap_ext. intros i a _. apply Hc. Qed.
Lemma plain_no_fields : plain_fields no_fields. Proof. done. Qed.
Lemma plain_field {A B} tag (c : codec A) (fs : fields B) f : plain c -> plain_fields fs -> plain_fields (field tag c fs f).
Proof. intros Hc Hf [a b]. cbn. by rewrite Hc, Hf. Qed.
Lemma plain_struct {A T} (to : A -> T) from (fs : fields T) : (forall a, from (to a) = a) -> plain_fields fs -> plain (c_struct to from fs).
Proof. intros Hi Hf a. cbn. by rewrite Hf. Qed.
#[export] Hint Resolve plain_int plain_string plain_time plain_text plain_list plain_ptr plain_ref plain_map plain_no_fields plain_field : plain.

End Json.
