(* ===== verification/Metadata.v ===== *)
(** * The metadata state machine

    internal/metadata: the replicated state of the cluster (topics, partitions, nodes, consumer
    groups) and the commands that change it, applied by every replica in log order. Commands
    are modelled after [json.Unmarshal]: the payload pointers are options, and a command whose
    payload is missing dereferences nil. Maps are never nil: [NewMetadataFSM] makes them and
    [RecoverFromSnapshot] restores them. Queries answer with the values at the time of the call;
    that a returned group shares its members map with the state matters only to the sweep, which
    reads it again (GroupCoord.v). *)

From S2P Require Import Prelude SegName Keys.
Local Open Scope Z_scope.

Module Metadata.
Export Keys.

Definition sErrNotFound : sentinel := Sentinel "metadata" "ErrNotFound".
Definition ErrNotFound : error := ErrSentinel sErrNotFound.

(** ** State *)

Record TopicMeta := {
  Name : string;
  PartitionCount : Z;
  ReplicationFactor : Z;
  RetentionMs : Z;
  RetentionBytes : Z;
  CreatedAtMs : Z
}.

Record PartitionMeta := {
  pTopic : string;
  pPartitionID : Z;
  ShardID : Z;
  ReplicaNodeIDs : list Z;
  LeaderNodeID : Z;
  LeaderEpoch : Z
}.

Record NodeInfo := { NodeID : Z; Address : string }.

Record MemberInfo := {
  mMemberID : string;
  ClientHost : string;
  mSubscribedTopics : list string;
  AssignedPartitions : list PartitionKey;
  LastHeartbeatMs : Z
}.

Record ConsumerGroupMeta := {
  cgGroupID : string;
  cgGenerationID : Z;
  cgMembers : gmap string MemberInfo;
  CommittedOffsets : gmap PartitionKey Z
}.

Record MemberState := {
  MemberID : string;
  SubscribedTopics : list string;
  SessionTimeoutMs : Z;
  HeartbeatIntervalMs : Z;
  JoinedAt : Z
}.

Record GroupState := {
  GroupID : string;
  Members : gmap string MemberState;
  GenerationID : Z;
  Assignments : gmap string (list TopicPartition);
  Offsets : gmap TopicPartition Z
}.

Record MetadataState := {
  Topics : gmap string TopicMeta;
  Partitions : gmap PartitionKey PartitionMeta;
  Nodes : gmap Z NodeInfo;
  Groups : gmap string ConsumerGroupMeta;
  GroupStates : gmap string GroupState;
  NextShardID : Z
}.

Definition NewMetadataFSM : MetadataState :=
  {| Topics := ∅; Partitions := ∅; Nodes := ∅; Groups := ∅; GroupStates := ∅; NextShardID := 1 |}.

Definition set_topics (s : MetadataState) t : MetadataState :=
  {| Topics := t; Partitions := Partitions s; Nodes := Nodes s; Groups := Groups s;
     GroupStates := GroupStates s; NextShardID := NextShardID s |}.
Definition set_partitions (s : MetadataState) p : MetadataState :=
  {| Topics := Topics s; Partitions := p; Nodes := Nodes s; Groups := Groups s;
     GroupStates := GroupStates s; NextShardID := NextShardID s |}.
Definition set_nodes (s : MetadataState) n : MetadataState :=
  {| Topics := Topics s; Partitions := Partitions s; Nodes := n; Groups := Groups s;
     GroupStates := GroupStates s; NextShardID := NextShardID s |}.
Definition set_groups (s : MetadataState) g : MetadataState :=
  {| Topics := Topics s; Partitions := Partitions s; Nodes := Nodes s; Groups := g;
     GroupStates := GroupStates s; NextShardID := NextShardID s |}.
Definition set_groupStates (s : MetadataState) g : MetadataState :=
  {| Topics := Topics s; Partitions := Partitions s; Nodes := Nodes s; Groups := Groups s;
     GroupStates := g; NextShardID := NextShardID s |}.
Definition set_nextShardID (s : MetadataState) n : MetadataState :=
  {| Topics := Topics s; Partitions := Partitions s; Nodes := Nodes s; Groups := Groups s;
     GroupStates := GroupStates s; NextShardID := n |}.

(** ** Commands *)

Record CreateTopicCmd := {
  ct_Name : string; ct_PartitionCount : Z; ct_ReplicationFactor : Z; ct_RetentionMs : Z;
  ct_RetentionBytes : Z; ct_CreatedAtMs : Z; ct_ReplicaNodeIDs : list (list Z)
}.
Record AlterTopicPartCountCmd := {
  at_Name : string; at_NewPartitionCount : Z; at_NewReplicaAssignments : list (list Z)
}.
Record AlterTopicRetentionCmd := { ar_Name : string; ar_RetentionMs : Z; ar_RetentionBytes : Z }.
Record AssignPartitionLeaderCmd := {
  al_Topic : string; al_PartitionID : Z; al_LeaderNodeID : Z; al_LeaderEpoch : Z
}.
Record JoinConsumerGroupCmd := {
  jc_GroupID : string; jc_MemberID : string; jc_ClientHost : string;
  jc_SubscribedTopics : list string; jc_JoinedAtMs : Z;
  jc_Member : option MemberState; jc_NewAssignment : option (gmap string (list TopicPartition))
}.
Record LeaveConsumerGroupCmd := {
  lc_GroupID : string; lc_MemberID : string; lc_Reason : string; lc_NewAssignment : option (gmap string (list TopicPartition))
}.
Record HeartbeatConsumerGroupCmd := {
  hc_GroupID : string; hc_MemberID : string; hc_GenerationID : Z; hc_TimestampMs : Z
}.
Record CommittedOffset := { co_Topic : string; co_PartitionID : Z; co_Offset : Z }.
Record CommitConsumerOffsetCmd := {
  cc_GroupID : string; cc_Offsets : list CommittedOffset; cc_GroupOffsets : option (gmap TopicPartition Z)
}.
Record RebalanceConsumerGroupCmd := { rc_GroupID : string; rc_ExpiredMemberIDs : list string; rc_TimestampMs : Z }.

(** A command with the payload its type selects; [None] when that payload is absent. *)
Inductive MetadataCommand :=
| CmdCreateTopic (c : option CreateTopicCmd)
| CmdDeleteTopic (name : option string)
| CmdAlterTopicPartCount (c : option AlterTopicPartCountCmd)
| CmdAlterTopicRetention (c : option AlterTopicRetentionCmd)
| CmdRegisterNode (n : option NodeInfo)
| CmdAssignPartitionLeader (c : option AssignPartitionLeaderCmd)
| CmdJoinConsumerGroup (c : option JoinConsumerGroupCmd)
| CmdLeaveConsumerGroup (c : option LeaveConsumerGroupCmd)
| CmdHeartbeatConsumerGroup (c : option HeartbeatConsumerGroupCmd)
| CmdCommitConsumerOffset (c : option CommitConsumerOffsetCmd)
| CmdRebalanceConsumerGroup (c : option RebalanceConsumerGroupCmd)
| CmdUnknown.

(** ** Results (result.go) *)

Definition ResultOK : Z := 0.
Definition ResultErrAlreadyExists : Z := 1.
Definition ResultErrNotFound : Z := 2.
Definition ResultErrInvalidArg : Z := 3.

Record joinResult := { jr_MemberID : string; jr_AssignedPartitions : list PartitionKey; jr_GenerationID : Z }.

(** [Result.Data]: nothing, an error text, or the JSON of a [joinResult]. *)
Inductive payload := NoData | Msg (m : string) | JoinData (j : joinResult).
Record Result := { Value : Z; Data : payload }.

Definition OKResult : Result := {| Value := ResultOK; Data := NoData |}.
Definition ErrorResult (code : Z) (msg : string) : Result := {| Value := code; Data := Msg msg |}.

(** ** Topics and partitions *)

Definition new_partition (name : string) (id shard : Z) (replicas : list Z) : PartitionMeta :=
  {| pTopic := name; pPartitionID := id; ShardID := shard; ReplicaNodeIDs := replicas;
     LeaderNodeID := 0; LeaderEpoch := 0 |}.

(** The loop of [applyCreateTopic]: [n] more partitions from index [i]. *)
Fixpoint create_partitions (n : nat) (i : Z) (name : string) (shard : Z) (replicas : list (list Z))
    (parts : gmap PartitionKey PartitionMeta) : outcome (gmap PartitionKey PartitionMeta) :=
  match n with
  | O => Ok parts
  | S n' =>
      r ← index replicas i;
      create_partitions n' (i + 1) name shard replicas
        (<[PKey name i := new_partition name i (u64 (shard + i)) r]> parts)
  end.

Definition applyCreateTopic (s : MetadataState) (cmd : CreateTopicCmd) : outcome (MetadataState * Result) :=
  match Topics s !! ct_Name cmd with
  | Some _ => Ok (s, ErrorResult ResultErrAlreadyExists "topic already exists")
  | None =>
      if (ct_PartitionCount cmd <=? 0) || (ct_ReplicationFactor cmd <=? 0) then
        Ok (s, ErrorResult ResultErrInvalidArg "partition_count and replication_factor must be positive")
      else if negb (i32 (len (ct_ReplicaNodeIDs cmd)) =? ct_PartitionCount cmd) then
        Ok (s, ErrorResult ResultErrInvalidArg "replica_node_ids length must equal partition_count")
      else
        let s := set_topics s (<[ct_Name cmd :=
          {| Name := ct_Name cmd; PartitionCount := ct_PartitionCount cmd;
             ReplicationFactor := ct_ReplicationFactor cmd; RetentionMs := ct_RetentionMs cmd;
             RetentionBytes := ct_RetentionBytes cmd; CreatedAtMs := ct_CreatedAtMs cmd |}]> (Topics s)) in
        parts ← create_partitions (Z.to_nat (ct_PartitionCount cmd)) 0 (ct_Name cmd) (NextShardID s)
          (ct_ReplicaNodeIDs cmd) (Partitions s);
        Ok (set_nextShardID (set_partitions s parts) (u64 (NextShardID s + ct_PartitionCount cmd)), OKResult)
  end.

Fixpoint delete_partitions (n : nat) (i : Z) (name : string) (parts : gmap PartitionKey PartitionMeta)
  : gmap PartitionKey PartitionMeta :=
  match n with
  | O => parts
  | S n' => delete_partitions n' (i + 1) name (delete (PKey name i) parts)
  end.

Definition applyDeleteTopic (s : MetadataState) (name : string) : outcome (MetadataState * Result) :=
  match Topics s !! name with
  | None => Ok (s, OKResult)
  | Some topic =>
      let s := set_partitions s (delete_partitions (Z.to_nat (PartitionCount topic)) 0 name (Partitions s)) in
      Ok (set_topics s (delete name (Topics s)), OKResult)
  end.

(** The loop of [applyAlterTopicPartCount]; a missing assignment is a nil replica list. *)
Fixpoint add_partitions (n : nat) (i : Z) (name : string) (from shard : Z) (assignments : list (list Z))
    (parts : gmap PartitionKey PartitionMeta) : gmap PartitionKey PartitionMeta :=
  match n with
  | O => parts
  | S n' =>
      let newPartID := i32 (from + i) in
      let replicas := default [] (assignments !! Z.to_nat i) in
      add_partitions n' (i + 1) name from shard assignments
        (<[PKey name newPartID := new_partition name newPartID (u64 (shard + i)) replicas]> parts)
  end.

Definition set_partitionCount (t : TopicMeta) (n : Z) : TopicMeta :=
  {| Name := Name t; PartitionCount := n; ReplicationFactor := ReplicationFactor t;
     RetentionMs := RetentionMs t; RetentionBytes := RetentionBytes t; CreatedAtMs := CreatedAtMs t |}.

Definition applyAlterTopicPartCount (s : MetadataState) (cmd : AlterTopicPartCountCmd)
  : outcome (MetadataState * Result) :=
  match Topics s !! at_Name cmd with
  | None => Ok (s, ErrorResult ResultErrNotFound "topic not found")
  | Some topic =>
      if at_NewPartitionCount cmd <=? PartitionCount topic then
        Ok (s, ErrorResult ResultErrInvalidArg "new_partition_count must be greater than current")
      else
        let addCount := i32 (at_NewPartitionCount cmd - PartitionCount topic) in
        let parts := add_partitions (Z.to_nat addCount) 0 (at_Name cmd) (PartitionCount topic) (NextShardID s)
          (at_NewReplicaAssignments cmd) (Partitions s) in
        let s := set_nextShardID (set_partitions s parts) (u64 (NextShardID s + addCount)) in
        Ok (set_topics s (<[at_Name cmd := set_partitionCount topic (at_NewPartitionCount cmd)]> (Topics s)),
            OKResult)
  end.

Definition applyAlterTopicRetention (s : MetadataState) (cmd : AlterTopicRetentionCmd)
  : outcome (MetadataState * Result) :=
  match Topics s !! ar_Name cmd with
  | None => Ok (s, ErrorResult ResultErrNotFound "topic not found")
  | Some t =>
      Ok (set_topics s (<[ar_Name cmd :=
        {| Name := Name t; PartitionCount := PartitionCount t; ReplicationFactor := ReplicationFactor t;
           RetentionMs := ar_RetentionMs cmd; RetentionBytes := ar_RetentionBytes cmd;
           CreatedAtMs := CreatedAtMs t |}]> (Topics s)), OKResult)
  end.

Definition applyRegisterNode (s : MetadataState) (n : NodeInfo) : outcome (MetadataState * Result) :=
  Ok (set_nodes s (<[NodeID n := {| NodeID := NodeID n; Address := Address n |}]> (Nodes s)), OKResult).

Definition set_leader (p : PartitionMeta) (node epoch : Z) : PartitionMeta :=
  {| pTopic := pTopic p; pPartitionID := pPartitionID p; ShardID := ShardID p;
     ReplicaNodeIDs := ReplicaNodeIDs p; LeaderNodeID := node; LeaderEpoch := epoch |}.

Definition applyAssignPartitionLeader (s : MetadataState) (cmd : AssignPartitionLeaderCmd)
  : outcome (MetadataState * Result) :=
  let key := PKey (al_Topic cmd) (al_PartitionID cmd) in
  match Partitions s !! key with
  | None => Ok (s, ErrorResult ResultErrNotFound "partition not found")
  | Some p =>
      if al_LeaderEpoch cmd <=? LeaderEpoch p then
        Ok (s, ErrorResult ResultErrInvalidArg "leader_epoch must be greater than current")
      else
        Ok (set_partitions s (<[key := set_leader p (al_LeaderNodeID cmd) (al_LeaderEpoch cmd)]> (Partitions s)),
            OKResult)
  end.

(** ** Consumer groups *)

(** The order of [rebalance]'s [sort.Slice]: by topic, then by partition id. *)
Definition key_le (a b : PartitionKey) : Prop :=
  (pk_topic a = pk_topic b /\ pk_partition a <= pk_partition b) \/
  (pk_topic a <> pk_topic b /\ String.le (pk_topic a) (pk_topic b)).

#[export] Instance key_le_dec a b : Decision (key_le a b).
Proof. unfold key_le. apply _. Defined.

Definition subscribed (members : gmap string MemberInfo) : list string :=
  (map_to_list members) ≫= (fun p => mSubscribedTopics p.2).

Definition collectEligiblePartitions (members : gmap string MemberInfo) (topics : gmap string TopicMeta)
    (partitions : gmap PartitionKey PartitionMeta) : list PartitionKey :=
  filter (fun key => pk_topic key ∈ subscribed members /\ is_Some (topics !! pk_topic key))
    (map_to_list partitions).*1.

Definition sortedMemberIDs (members : gmap string MemberInfo) : list string :=
  sort_strings (map_to_list members).*1.

Definition set_assigned (m : MemberInfo) (ps : list PartitionKey) : MemberInfo :=
  {| mMemberID := mMemberID m; ClientHost := ClientHost m; mSubscribedTopics := mSubscribedTopics m;
     AssignedPartitions := ps; LastHeartbeatMs := LastHeartbeatMs m |}.

(** The assignment loop over the remaining member ids; [i] is the index of the first. *)
Fixpoint assign_members (ids : list string) (i n : Z) (eligible : list PartitionKey)
    (members : gmap string MemberInfo) : outcome (gmap string MemberInfo) :=
  match ids with
  | [] => Ok members
  | id :: ids' =>
      let lo := Z.quot (i * len eligible) n in
      let hi := Z.quot ((i + 1) * len eligible) n in
      ps ← slice eligible lo hi;
      match members !! id with
      | None => Panic PanicNil
      | Some m => assign_members ids' (i + 1) n eligible (<[id := set_assigned m ps]> members)
      end
  end.

Definition set_members (g : ConsumerGroupMeta) (ms : gmap string MemberInfo) : ConsumerGroupMeta :=
  {| cgGroupID := cgGroupID g; cgGenerationID := cgGenerationID g; cgMembers := ms;
     CommittedOffsets := CommittedOffsets g |}.

Definition eligible_partitions (s : MetadataState) (members : gmap string MemberInfo) : list PartitionKey :=
  merge_sort key_le (collectEligiblePartitions members (Topics s) (Partitions s)).

Definition rebalance (s : MetadataState) (g : ConsumerGroupMeta) : outcome ConsumerGroupMeta :=
  let eligible := eligible_partitions s (cgMembers g) in
  let ids := sortedMemberIDs (cgMembers g) in
  if len ids =? 0 then Ok g else
  ms ← assign_members ids 0 (len ids) eligible (cgMembers g);
  Ok (set_members g ms).

Definition bump (g : ConsumerGroupMeta) : ConsumerGroupMeta :=
  {| cgGroupID := cgGroupID g; cgGenerationID := i32 (cgGenerationID g + 1); cgMembers := cgMembers g;
     CommittedOffsets := CommittedOffsets g |}.

(** Joining with an assignment computed by the coordinator. *)
Definition applyGroupStateJoin (s : MetadataState) (cmd : JoinConsumerGroupCmd) (member : MemberState)
  : outcome (MetadataState * Result) :=
  let group := default {| GroupID := jc_GroupID cmd; Members := ∅; GenerationID := 0; Assignments := ∅;
                          Offsets := ∅ |} (GroupStates s !! jc_GroupID cmd) in
  let group' := {| GroupID := GroupID group; Members := <[jc_MemberID cmd := member]> (Members group);
                   GenerationID := i32 (GenerationID group + 1);
                   Assignments := default (Assignments group) (jc_NewAssignment cmd);
                   Offsets := Offsets group |} in
  Ok (set_groupStates s (<[jc_GroupID cmd := group']> (GroupStates s)), OKResult).

Definition applyJoinConsumerGroup (s : MetadataState) (cmd : JoinConsumerGroupCmd)
  : outcome (MetadataState * Result) :=
  match jc_Member cmd with
  | Some member => applyGroupStateJoin s cmd member
  | None =>
      let group := default {| cgGroupID := jc_GroupID cmd; cgGenerationID := 0; cgMembers := ∅;
                              CommittedOffsets := ∅ |} (Groups s !! jc_GroupID cmd) in
      let memberID := if String.eqb (jc_MemberID cmd) "" then
                        String.append "member-" (String.append (jc_ClientHost cmd)
                          (String.append "-" (fmt_d (jc_JoinedAtMs cmd))))
                      else jc_MemberID cmd in
      let group := set_members group (<[memberID :=
        {| mMemberID := memberID; ClientHost := jc_ClientHost cmd;
           mSubscribedTopics := jc_SubscribedTopics cmd; AssignedPartitions := [];
           LastHeartbeatMs := jc_JoinedAtMs cmd |}]> (cgMembers group)) in
      group ← rebalance s group;
      let group := bump group in
      match cgMembers group !! memberID with
      | None => Panic PanicNil
      | Some m =>
          Ok (set_groups s (<[jc_GroupID cmd := group]> (Groups s)),
              {| Value := ResultOK;
                 Data := JoinData {| jr_MemberID := memberID; jr_AssignedPartitions := AssignedPartitions m;
                                     jr_GenerationID := cgGenerationID group |} |})
      end
  end.

Definition applyGroupStateLeave (s : MetadataState) (cmd : LeaveConsumerGroupCmd)
  : outcome (MetadataState * Result) :=
  match GroupStates s !! lc_GroupID cmd with
  | None => Ok (s, ErrorResult ResultErrNotFound "group not found")
  | Some group =>
      match Members group !! lc_MemberID cmd with
      | None => Ok (s, ErrorResult ResultErrNotFound "member not found")
      | Some _ =>
          let members := delete (lc_MemberID cmd) (Members group) in
          let assignments := default ∅ (lc_NewAssignment cmd) in
          let assignments := if bool_decide (members = ∅) then ∅ else assignments in
          let group' := {| GroupID := GroupID group; Members := members;
                           GenerationID := i32 (GenerationID group + 1); Assignments := assignments;
                           Offsets := Offsets group |} in
          Ok (set_groupStates s (<[lc_GroupID cmd := group']> (GroupStates s)), OKResult)
      end
  end.

Definition applyLeaveConsumerGroup (s : MetadataState) (cmd : LeaveConsumerGroupCmd)
  : outcome (MetadataState * Result) :=
  match GroupStates s !! lc_GroupID cmd with
  | Some _ => applyGroupStateLeave s cmd
  | None =>
      match Groups s !! lc_GroupID cmd with
      | None => Ok (s, ErrorResult ResultErrNotFound "group not found")
      | Some group =>
          match cgMembers group !! lc_MemberID cmd with
          | None => Ok (s, ErrorResult ResultErrNotFound "member not found")
          | Some _ =>
              group ← rebalance s (set_members group (delete (lc_MemberID cmd) (cgMembers group)));
              Ok (set_groups s (<[lc_GroupID cmd := bump group]> (Groups s)), OKResult)
          end
      end
  end.

(** A heartbeat is recorded before the generation is compared; a stale one gives value 1. *)
Definition applyHeartbeatConsumerGroup (s : MetadataState) (cmd : HeartbeatConsumerGroupCmd)
  : outcome (MetadataState * Result) :=
  match Groups s !! hc_GroupID cmd with
  | None => Ok (s, ErrorResult ResultErrNotFound "group not found")
  | Some group =>
      match cgMembers group !! hc_MemberID cmd with
      | None => Ok (s, ErrorResult ResultErrNotFound "member not found")
      | Some m =>
          let m' := {| mMemberID := mMemberID m; ClientHost := ClientHost m;
                       mSubscribedTopics := mSubscribedTopics m; AssignedPartitions := AssignedPartitions m;
                       LastHeartbeatMs := hc_TimestampMs cmd |} in
          let group' := set_members group (<[hc_MemberID cmd := m']> (cgMembers group)) in
          let s' := set_groups s (<[hc_GroupID cmd := group']> (Groups s)) in
          if negb (hc_GenerationID cmd =? cgGenerationID group) then Ok (s', {| Value := 1; Data := NoData |})
          else Ok (s', OKResult)
      end
  end.

(** Merging the committed offsets into the group's map; the command's entries win. *)
Definition applyGroupStateCommitOffset (s : MetadataState) (groupID : string) (offsets : gmap TopicPartition Z)
  : outcome (MetadataState * Result) :=
  match GroupStates s !! groupID with
  | None => Ok (s, ErrorResult ResultErrNotFound "group not found")
  | Some group =>
      let group' := {| GroupID := GroupID group; Members := Members group; GenerationID := GenerationID group;
                       Assignments := Assignments group; Offsets := offsets ∪ Offsets group |} in
      Ok (set_groupStates s (<[groupID := group']> (GroupStates s)), OKResult)
  end.

Definition applyCommitConsumerOffset (s : MetadataState) (cmd : CommitConsumerOffsetCmd)
  : outcome (MetadataState * Result) :=
  match cc_GroupOffsets cmd with
  | Some offsets => applyGroupStateCommitOffset s (cc_GroupID cmd) offsets
  | None =>
      match Groups s !! cc_GroupID cmd with
      | None => Ok (s, ErrorResult ResultErrNotFound "group not found")
      | Some group =>
          let offsets := fold_left (fun m o => <[PKey (co_Topic o) (co_PartitionID o) := co_Offset o]> m)
            (cc_Offsets cmd) (CommittedOffsets group) in
          let group' := {| cgGroupID := cgGroupID group; cgGenerationID := cgGenerationID group;
                           cgMembers := cgMembers group; CommittedOffsets := offsets |} in
          Ok (set_groups s (<[cc_GroupID cmd := group']> (Groups s)), OKResult)
      end
  end.

Definition applyRebalanceConsumerGroup (s : MetadataState) (cmd : RebalanceConsumerGroupCmd)
  : outcome (MetadataState * Result) :=
  match Groups s !! rc_GroupID cmd with
  | None => Ok (s, ErrorResult ResultErrNotFound "group not found")
  | Some group =>
      let members := fold_left (fun m id => delete id m) (rc_ExpiredMemberIDs cmd) (cgMembers group) in
      group ← rebalance s (set_members group members);
      Ok (set_groups s (<[rc_GroupID cmd := bump group]> (Groups s)), OKResult)
  end.

(** A payload pointer dereferenced by the handler. *)
Definition deref {A} (p : option A) (f : A -> outcome (MetadataState * Result)) : outcome (MetadataState * Result) :=
  match p with Some a => f a | None => Panic PanicNil end.

Definition applyCommand (s : MetadataState) (cmd : MetadataCommand) : outcome (MetadataState * Result) :=
  match cmd with
  | CmdCreateTopic c => deref c (applyCreateTopic s)
  | CmdDeleteTopic c => deref c (applyDeleteTopic s)
  | CmdAlterTopicPartCount c => deref c (applyAlterTopicPartCount s)
  | CmdAlterTopicRetention c => deref c (applyAlterTopicRetention s)
  | CmdRegisterNode c => deref c (applyRegisterNode s)
  | CmdAssignPartitionLeader c => deref c (applyAssignPartitionLeader s)
  | CmdJoinConsumerGroup c => deref c (applyJoinConsumerGroup s)
  | CmdLeaveConsumerGroup c => deref c (applyLeaveConsumerGroup s)
  | CmdHeartbeatConsumerGroup c => deref c (applyHeartbeatConsumerGroup s)
  | CmdCommitConsumerOffset c => deref c (applyCommitConsumerOffset s)
  | CmdRebalanceConsumerGroup c => deref c (applyRebalanceConsumerGroup s)
  | CmdUnknown => Ok (s, ErrorResult ResultErrInvalidArg "unknown command type")
  end.

(** [Update] on the decoded entry; [None] is JSON that does not decode. *)
Definition Update (s : MetadataState) (cmd : option MetadataCommand) : outcome (MetadataState * Result) :=
  match cmd with
  | None => Ok (s, ErrorResult ResultErrInvalidArg "invalid command JSON")
  | Some cmd => applyCommand s cmd
  end.

(** ** Queries *)

Inductive MetadataQuery :=
| QueryGetTopic (name : string)
| QueryListTopics
| QueryGetPartition (topic : string) (id : Z)
| QueryGetPartitions (topic : string)
| QueryGetNode (id : Z)
| QueryListNodes
| QueryGetGroup (group : string)
| QueryGetCommittedOffset (group : string) (key : PartitionKey)
| QueryGetGroupState (group : string)
| QueryGetGroupOffsets (group : string) (partitions : list TopicPartition)
| QueryGetAllGroupStates
| QueryUnknown.

Inductive answer :=
| ATopic (t : TopicMeta)
| ATopics (ts : list TopicMeta)
| APartition (p : PartitionMeta)
| APartitions (ps : list PartitionMeta)
| ANode (n : NodeInfo)
| ANodes (ns : list NodeInfo)
| AGroup (g : ConsumerGroupMeta)
| AOffset (o : Z)
| AGroupState (g : option GroupState)
| AGroupOffsets (m : gmap TopicPartition Z)
| AGroupStates (m : gmap string GroupState).

(** The result is made of -1 for every partition asked for, then of the committed ones. *)
Definition lookupGroupOffsets (s : MetadataState) (groupID : string) (partitions : list TopicPartition)
  : gmap TopicPartition Z :=
  let result := fold_left (fun m tp => <[tp := -1]> m) partitions ∅ in
  match GroupStates s !! groupID with
  | None => result
  | Some g =>
      fold_left (fun m tp => match Offsets g !! tp with Some o => <[tp := o]> m | None => m end)
        partitions result
  end.

Definition found {A} (o : option A) (f : A -> answer) : outcome answer :=
  match o with Some a => Ok (f a) | None => Err ErrNotFound end.

(** The orders of the sorted listings. *)
Definition name_le (a b : TopicMeta) : Prop := String.le (Name a) (Name b).
Definition id_le (a b : PartitionMeta) : Prop := pPartitionID a <= pPartitionID b.
Definition node_le (a b : NodeInfo) : Prop := NodeID a <= NodeID b.

#[export] Instance name_le_dec a b : Decision (name_le a b).
Proof. unfold name_le. apply _. Defined.
#[export] Instance id_le_dec a b : Decision (id_le a b).
Proof. unfold id_le. apply _. Defined.
#[export] Instance node_le_dec a b : Decision (node_le a b).
Proof. unfold node_le. apply _. Defined.

Definition listTopics (s : MetadataState) : list TopicMeta := merge_sort name_le (map_to_list (Topics s)).*2.
Definition topicPartitions (s : MetadataState) (topic : string) : list PartitionMeta :=
  merge_sort id_le (filter (fun kp => pk_topic kp.1 = topic) (map_to_list (Partitions s))).*2.
Definition listNodes (s : MetadataState) : list NodeInfo := merge_sort node_le (map_to_list (Nodes s)).*2.

Definition Lookup (s : MetadataState) (q : MetadataQuery) : outcome answer :=
  match q with
  | QueryGetTopic name => found (Topics s !! name) ATopic
  | QueryListTopics => Ok (ATopics (listTopics s))
  | QueryGetPartition topic id => found (Partitions s !! PKey topic id) APartition
  | QueryGetPartitions topic =>
      match Topics s !! topic with
      | None => Err ErrNotFound
      | Some _ => Ok (APartitions (topicPartitions s topic))
      end
  | QueryGetNode id => found (Nodes s !! id) ANode
  | QueryListNodes => Ok (ANodes (listNodes s))
  | QueryGetGroup group => found (Groups s !! group) AGroup
  | QueryGetCommittedOffset group key =>
      found (Groups s !! group) (fun g => AOffset (default 0 (CommittedOffsets g !! key)))
  | QueryGetGroupState group => Ok (AGroupState (GroupStates s !! group))
  | QueryGetGroupOffsets group ps => Ok (AGroupOffsets (lookupGroupOffsets s group ps))
  | QueryGetAllGroupStates => Ok (AGroupStates (GroupStates s))
  | QueryUnknown => Err (ErrNew "unknown query type")
  end.

End Metadata.
