(* ===== verification/Rebalance.v ===== *)
(** * Range assignment of the metadata state machine

    [rebalance] of internal/metadata/metadata.go divides the eligible partitions, sorted, into
    one contiguous slice per member, sorted. The slices are shown to be exactly a partition of
    the eligible list, as even as possible, and the function never to fail. *)

From S2P Require Import Prelude SegName Keys Metadata.
Local Open Scope Z_scope.

Module Rebalance.
Import Metadata.

(** ** Cutting a list at the points [i * L / n] *)

Definition cut (L n i : Z) : Z := Z.quot (i * L) n.

Lemma cut_div L n i : 0 <= L -> 0 < n -> 0 <= i -> cut L n i = i * L / n.
Proof. intros. unfold cut. apply Z.quot_div_nonneg; lia. Qed.

Lemma cut_range L n i : 0 <= L -> 0 < n -> 0 <= i < n ->
  0 <= cut L n i <= cut L n (i + 1) /\ cut L n (i + 1) <= L /\
  L / n <= cut L n (i + 1) - cut L n i <= L / n + 1.
Proof.
  intros HL Hn Hi. rewrite !cut_div by lia.
  pose proof (Z.div_mod (i * L) n). pose proof (Z.mod_pos_bound (i * L) n).
  pose proof (Z.div_mod ((i + 1) * L) n). pose proof (Z.mod_pos_bound ((i + 1) * L) n).
  pose proof (Z.div_mod L n). pose proof (Z.mod_pos_bound L n).
  set (a := i * L / n) in *. set (b := (i + 1) * L / n) in *. set (q := L / n) in *.
  assert (n * b - n * a = L + (i * L) mod n - ((i + 1) * L) mod n) as E by lia.
  split_and!; nia.
Qed.

Lemma cut_0 L n : 0 < n -> cut L n 0 = 0.
Proof. intros. unfold cut. by rewrite Z.mul_0_l, Z.quot_0_l by lia. Qed.
Lemma cut_n L n : 0 <= L -> 0 < n -> cut L n n = L.
Proof. intros. rewrite cut_div by lia. rewrite Z.mul_comm. apply Z.div_mul. lia. Qed.

(** The slices from the [i]-th on. *)
Fixpoint pieces {A} (l : list A) (n i : Z) (k : nat) : list (list A) :=
  match k with
  | O => []
  | S k' => sub l (cut (len l) n i) (cut (len l) n (i + 1)) :: pieces l n (i + 1) k'
  end.

Lemma sub_join {A} (l : list A) a b c :
  0 <= a -> a <= b -> b <= c -> c <= len l -> sub l a b ++ sub l b c = sub l a c.
Proof.
  intros. unfold sub. replace (Z.to_nat (c - a)) with (Z.to_nat (b - a) + Z.to_nat (c - b))%nat by lia.
  rewrite <- (take_take_drop _ (Z.to_nat (b - a))), drop_drop. do 3 f_equal. lia.
Qed.

Lemma pieces_concat {A} (l : list A) n i k :
  0 < n -> 0 <= i -> i + Z.of_nat k = n -> concat (pieces l n i k) = sub l (cut (len l) n i) (len l).
Proof.
  intros Hn. revert i. induction k as [|k IH]; intros i Hi Hk; cbn [pieces concat].
  - replace i with n by lia. rewrite cut_n by (pose proof (len_nonneg l); lia).
    unfold sub. by rewrite Z.sub_diag.
  - pose proof (len_nonneg l). pose proof (cut_range (len l) n i ltac:(lia) Hn ltac:(lia)).
    rewrite IH by lia. apply sub_join; lia.
Qed.

Lemma pieces_even {A} (l : list A) n i k p :
  0 < n -> 0 <= i -> i + Z.of_nat k = n -> p ∈ pieces l n i k -> len l / n <= len p <= len l / n + 1.
Proof.
  intros Hn. revert i. induction k as [|k IH]; intros i Hi Hk Hp; cbn [pieces] in Hp; [by apply not_elem_of_nil in Hp|].
  apply elem_of_cons in Hp as [->|Hp]; [|apply (IH (i + 1)); [lia|lia|done]].
  pose proof (len_nonneg l). pose proof (cut_range (len l) n i ltac:(lia) Hn ltac:(lia)). rewrite len_sub; lia.
Qed.

(** ** The assignment loop *)

Lemma assign_members_gen (ids : list string) i n (eligible : list PartitionKey) (ms0 ms : gmap string MemberInfo) :
  NoDup ids -> 0 <= i -> 0 < n -> i + len ids = n -> (forall id, id ∈ ids -> is_Some (ms0 !! id)) ->
  (forall id, id ∈ ids -> ms !! id = ms0 !! id) ->
  exists ms', assign_members ids i n eligible ms = Ok ms' /\
    Forall2 (fun id p => exists m, ms0 !! id = Some m /\ ms' !! id = Some (set_assigned m p)) ids
      (pieces eligible n i (length ids)) /\
    forall id, id ∉ ids -> ms' !! id = ms !! id.
Proof.
  revert i ms. induction ids as [|id ids IH]; intros i ms Hnd Hi Hn Hlen Hms Hsame.
  { exists ms. split; [done|]. split; [constructor|done]. }
  apply NoDup_cons in Hnd as [Hnin Hnd]. rewrite len_cons in Hlen. pose proof (len_nonneg ids).
  pose proof (len_nonneg eligible). pose proof (cut_range (len eligible) n i ltac:(lia) Hn ltac:(lia)) as Hc.
  cbn [assign_members]. change (Z.quot (i * len eligible) n) with (cut (len eligible) n i).
  change (Z.quot ((i + 1) * len eligible) n) with (cut (len eligible) n (i + 1)).
  rewrite slice_Ok by lia. cbn [mbind outcome_bind].
  destruct (Hms id) as [m Hm]; [apply elem_of_cons; auto|]. rewrite Hsame, Hm by (apply elem_of_cons; auto).
  set (p := sub eligible _ _). destruct (IH (i + 1) (<[id := set_assigned m p]> ms)) as (ms' & -> & H1 & H2);
    [done|lia|done|lia|intros; apply Hms, elem_of_cons; auto| |].
  { intros id' Hin. rewrite lookup_insert_ne by (intros ->; done). apply Hsame, elem_of_cons. auto. }
  exists ms'. split; [done|]. split.
  - cbn [pieces length]. constructor; [|exact H1].
    exists m. split; [done|]. rewrite H2 by done. apply lookup_insert_eq.
  - intros id' Hin. rewrite not_elem_of_cons in Hin. rewrite H2 by tauto. apply lookup_insert_ne. naive_solver.
Qed.

Lemma sorted_ids_spec (ms : gmap string MemberInfo) :
  NoDup (sortedMemberIDs ms) /\ forall id, id ∈ sortedMemberIDs ms <-> is_Some (ms !! id).
Proof.
  unfold sortedMemberIDs, sort_strings.
  pose proof (merge_sort_Permutation String.le (map_to_list ms).*1) as P. split.
  - rewrite P. apply NoDup_fst_map_to_list.
  - intros id. rewrite P, list_elem_of_fmap. split.
    + intros ((id' & m) & -> & Hin). apply elem_of_map_to_list in Hin. cbn. eauto.
    + intros [m Hm]. exists (id, m). split; [done|]. by apply elem_of_map_to_list.
Qed.

(** [rebalance] always succeeds; with members, each gets its slice. *)
Lemma rebalance_ok s g :
  exists g', rebalance s g = Ok g' /\ cgGroupID g' = cgGroupID g /\ cgGenerationID g' = cgGenerationID g /\
    CommittedOffsets g' = CommittedOffsets g /\
    (forall id, is_Some (cgMembers g' !! id) <-> is_Some (cgMembers g !! id)) /\
    let ids := sortedMemberIDs (cgMembers g) in
    Forall2 (fun id p => exists m, cgMembers g !! id = Some m /\ cgMembers g' !! id = Some (set_assigned m p)) ids
      (pieces (eligible_partitions s (cgMembers g)) (len ids) 0 (length ids)).
Proof.
  unfold rebalance. destruct (sorted_ids_spec (cgMembers g)) as [Hnd Hids].
  set (ids := sortedMemberIDs (cgMembers g)) in *. destruct (Z.eqb_spec (len ids) 0) as [E|E].
  { exists g. destruct ids; [|len_lia]. split_and!; try done. }
  pose proof (len_nonneg ids).
  destruct (assign_members_gen ids 0 (len ids) (eligible_partitions s (cgMembers g)) (cgMembers g) (cgMembers g))
    as (ms' & -> & H1 & H2); [done|lia|lia|lia|by intros id Hin%Hids|done|].
  cbn [mbind outcome_bind]. exists (set_members g ms'). split_and!; try done.
  intros id. cbn [set_members cgMembers]. destruct (decide (id ∈ ids)) as [Hin|Hin]; [|by rewrite H2].
  split; intros _; [by apply Hids|]. apply list_elem_of_lookup in Hin as [j Hj].
  destruct (Forall2_lookup_l _ _ _ _ _ H1 Hj) as (p & _ & m & _ & ->). eauto.
Qed.

(** ** What the members end up with *)

Lemma key_le_trans : Transitive key_le.
Proof.
  intros [t1 i1] [t2 i2] [t3 i3]. unfold key_le. cbn. intros [[-> H1]|[N1 H1]] [[E2 H2]|[N2 H2]].
  - left. split; [done|lia].
  - right. done.
  - right. by subst.
  - right. split; [|by etrans]. intros ->. apply N1. by apply (anti_symm String.le).
Qed.

Lemma key_le_total : Total key_le.
Proof.
  intros [t1 i1] [t2 i2]. unfold key_le. cbn. destruct (decide (t1 = t2)) as [->|N].
  - destruct (decide (i1 <= i2)); [left|right]; left; split; try done; lia.
  - destruct (total String.le t1 t2); [left|right]; right; split; by auto.
Qed.

(** The eligible partitions: those of existing topics that some member subscribed to. *)
Lemma eligible_spec s (ms : gmap string MemberInfo) :
  NoDup (eligible_partitions s ms) /\ StronglySorted key_le (eligible_partitions s ms) /\
  forall k, k ∈ eligible_partitions s ms <->
    is_Some (Partitions s !! k) /\ is_Some (Topics s !! pk_topic k) /\
    exists id m, ms !! id = Some m /\ pk_topic k ∈ mSubscribedTopics m.
Proof.
  unfold eligible_partitions, collectEligiblePartitions.
  match goal with |- context [merge_sort key_le ?l] => pose proof (merge_sort_Permutation key_le l) as P end.
  split_and!.
  - rewrite P. apply NoDup_filter, NoDup_fst_map_to_list.
  - apply StronglySorted_merge_sort; [apply key_le_trans|apply key_le_total].
  - intros k. rewrite P, list_elem_of_filter, list_elem_of_fmap. unfold subscribed. rewrite list_elem_of_bind. split.
    + intros [[((id & m) & Hk & Hm) Ht] ((k' & p) & -> & Hp)]. apply elem_of_map_to_list in Hm, Hp. cbn in *. eauto 8.
    + intros ([p Hp] & Ht & id & m & Hm & Hk). split; [split; [|done]|].
      * exists (id, m). split; [done|]. by apply elem_of_map_to_list.
      * exists (k, p). split; [done|]. by apply elem_of_map_to_list.
Qed.

(** The assignments of the members in order, one after the other. *)
Definition all_assigned (g : ConsumerGroupMeta) : list PartitionKey :=
  concat ((fun id => match cgMembers g !! id with Some m => AssignedPartitions m | None => [] end) <$>
          sortedMemberIDs (cgMembers g)).

Lemma Forall2_assigned (ids : list string) (ps : list (list PartitionKey)) (ms ms' : gmap string MemberInfo) :
  Forall2 (fun id p => exists m, ms !! id = Some m /\ ms' !! id = Some (set_assigned m p)) ids ps ->
  (fun id => match ms' !! id with Some m => AssignedPartitions m | None => [] end) <$> ids = ps.
Proof.
  induction 1 as [|id p ids ps (m & _ & Hm) _ IH]; [done|]. rewrite fmap_cons, Hm, IH. done.
Qed.

Lemma sorted_ids_eq (ms ms' : gmap string MemberInfo) :
  (forall id, is_Some (ms' !! id) <-> is_Some (ms !! id)) -> sortedMemberIDs ms' = sortedMemberIDs ms.
Proof.
  intros H. destruct (sorted_ids_spec ms) as [N1 E1], (sorted_ids_spec ms') as [N2 E2].
  apply (StronglySorted_unique String.le); [apply StronglySorted_merge_sort; apply _..|].
  apply NoDup_Permutation; [done|done|]. intros id. by rewrite E1, E2, H.
Qed.

(** With at least one member, a rebalance succeeds and gives every eligible partition to
    exactly one member and nothing else: the members' slices, in member order, are the sorted
    list of eligible partitions, and their sizes differ by at most one. *)
Theorem rebalance_exact s g :
  cgMembers g <> ∅ ->
  exists g', rebalance s g = Ok g' /\
    all_assigned g' = eligible_partitions s (cgMembers g) /\ NoDup (all_assigned g') /\
    (forall id m, cgMembers g' !! id = Some m ->
       let n := len (sortedMemberIDs (cgMembers g)) in let L := len (eligible_partitions s (cgMembers g)) in
       L / n <= len (AssignedPartitions m) <= L / n + 1) /\
    (forall k, k ∈ all_assigned g' <->
       is_Some (Partitions s !! k) /\ is_Some (Topics s !! pk_topic k) /\
       exists id m, cgMembers g !! id = Some m /\ pk_topic k ∈ mSubscribedTopics m).
Proof.
  intros Hne. destruct (rebalance_ok s g) as (g' & E & _ & _ & _ & Hdom & HF). exists g'. split; [done|].
  destruct (sorted_ids_spec (cgMembers g)) as [Hnd Hids]. cbv zeta in *.
  set (ids := sortedMemberIDs (cgMembers g)) in *. set (el := eligible_partitions s (cgMembers g)) in *.
  assert (0 < len ids) as Hpos.
  { destruct (map_choose _ Hne) as (id & m & Hm). assert (id ∈ ids) as Hin by (apply Hids; eauto).
    destruct ids; [by apply not_elem_of_nil in Hin|]. len_lia. }
  assert (all_assigned g' = el) as Eall.
  { unfold all_assigned. rewrite (sorted_ids_eq _ _ Hdom). fold ids. rewrite (Forall2_assigned _ _ _ _ HF).
    rewrite pieces_concat by (unfold len in *; lia). rewrite cut_0 by done. apply sub_all. }
  destruct (eligible_spec s (cgMembers g)) as (N & _ & Hel). fold el in N, Hel. rewrite Eall. split_and!; try done.
  intros id m Hm. assert (id ∈ ids) as Hin by (apply Hids, Hdom; eauto). apply list_elem_of_lookup in Hin as [j Hj].
  destruct (Forall2_lookup_l _ _ _ _ _ HF Hj) as (p & Hp & m0 & _ & Hm'). rewrite Hm' in Hm. injection Hm as <-.
  cbn [set_assigned AssignedPartitions]. eapply (pieces_even el (len ids) 0 (length ids)); [done|lia|unfold len; lia|].
  by eapply list_elem_of_lookup_2.
Qed.

(** Two members share a topic of three partitions. *)
Definition s_three : MetadataState :=
  {| Topics := {[ "t" := {| Name := "t"; PartitionCount := 3; ReplicationFactor := 1; RetentionMs := 0;
                           RetentionBytes := 0; CreatedAtMs := 0 |} ]};
     Partitions := list_to_map ((fun i => (PKey "t" i, new_partition "t" i (i + 1) [1])) <$> [0; 1; 2]);
     Nodes := ∅; Groups := ∅; GroupStates := ∅; NextShardID := 4 |}.
Definition m_sub (id : string) : MemberInfo :=
  {| mMemberID := id; ClientHost := "h"; mSubscribedTopics := ["t"]; AssignedPartitions := []; LastHeartbeatMs := 0 |}.
Definition g_two : ConsumerGroupMeta :=
  {| cgGroupID := "g"; cgGenerationID := 0; cgMembers := {[ "b" := m_sub "b"; "a" := m_sub "a" ]};
     CommittedOffsets := ∅ |}.

Lemma rebalance_exact_witness :
  cgMembers g_two <> ∅ /\ exists g', rebalance s_three g_two = Ok g' /\
    all_assigned g' = [PKey "t" 0; PKey "t" 1; PKey "t" 2].
Proof.
  assert (cgMembers g_two <> ∅) as H by (intros E; apply (f_equal (fun ms => ms !! "a")) in E; vm_compute in E; discriminate).
  split; [exact H|]. destruct (rebalance_exact s_three g_two H) as (g' & E & Ha & _).
  exists g'. split; [exact E|]. rewrite Ha. vm_compute. reflexivity.
Defined.

End Rebalance.
