(* ===== verification/MetadataInv.v ===== *)
(** * Invariants of the metadata state machine

    [meta_ok] says that the partitions of the state are exactly partitions 0 to count-1 of its
    topics and that shard ids are never shared: a raft shard belongs to one partition only.
    Every command preserves it, never reuses a shard id and never lowers a leader epoch. *)

From S2P Require Import Prelude SegName Keys Metadata Rebalance.
Local Open Scope Z_scope.

Module MetadataInv.
Import Metadata.

Record meta_ok (s : MetadataState) : Prop := {
  mo_parts : forall t i, is_Some (Partitions s !! PKey t i) <->
    exists m, Topics s !! t = Some m /\ 0 <= i < PartitionCount m;
  mo_fields : forall k p, Partitions s !! k = Some p ->
    pTopic p = pk_topic k /\ pPartitionID p = pk_partition k /\ 0 <= LeaderEpoch p;
  mo_shards : forall k p, Partitions s !! k = Some p -> 1 <= ShardID p < NextShardID s;
  mo_shard_inj : forall k1 k2 p1 p2, Partitions s !! k1 = Some p1 -> Partitions s !! k2 = Some p2 ->
    ShardID p1 = ShardID p2 -> k1 = k2;
  mo_topics : forall t m, Topics s !! t = Some m -> Name m = t /\ 0 < PartitionCount m < 2 ^ 31;
  mo_next : 1 <= NextShardID s
}.

(** What one command may do to a partition: keep it, raise its leader epoch, or create it with
    a shard id that was never used. *)
Definition partition_step (s s' : MetadataState) : Prop :=
  forall k p', Partitions s' !! k = Some p' ->
  (exists p, Partitions s !! k = Some p /\ ShardID p' = ShardID p /\ ReplicaNodeIDs p' = ReplicaNodeIDs p /\
     LeaderEpoch p <= LeaderEpoch p' /\ (LeaderNodeID p' <> LeaderNodeID p -> LeaderEpoch p < LeaderEpoch p')) \/
  (NextShardID s <= ShardID p' /\ LeaderNodeID p' = 0 /\ LeaderEpoch p' = 0).

(** int32 counts, as the command's fields have. *)
Definition cmd_ok (cmd : MetadataCommand) : Prop :=
  match cmd with
  | CmdCreateTopic (Some c) => in_i32 (ct_PartitionCount c)
  | CmdAlterTopicPartCount (Some c) => in_i32 (at_NewPartitionCount c)
  | CmdUnknown => True
  | CmdCreateTopic None | CmdDeleteTopic None | CmdAlterTopicPartCount None
  | CmdAlterTopicRetention None | CmdRegisterNode None | CmdAssignPartitionLeader None
  | CmdJoinConsumerGroup None | CmdLeaveConsumerGroup None | CmdHeartbeatConsumerGroup None
  | CmdCommitConsumerOffset None | CmdRebalanceConsumerGroup None => False
  | _ => True
  end.

(** ** The partition loops *)

Lemma create_partitions_spec n i name shard replicas parts :
  0 <= i -> i + Z.of_nat n <= len replicas ->
  exists parts', create_partitions n i name shard replicas parts = Ok parts' /\
    (forall j, i <= j < i + Z.of_nat n ->
       exists r, replicas !! Z.to_nat j = Some r /\
         parts' !! PKey name j = Some (new_partition name j (u64 (shard + j)) r)) /\
    (forall k, ~ (pk_topic k = name /\ i <= pk_partition k < i + Z.of_nat n) -> parts' !! k = parts !! k).
Proof.
  revert i parts. induction n as [|n IH]; intros i parts Hi Hn.
  { exists parts. split; [done|]. split; [lia|done]. }
  cbn [create_partitions]. destruct (index_is_Ok replicas i ltac:(lia)) as (r & Hr & ->).
  cbn [mbind outcome_bind].
  destruct (IH (i + 1) (<[PKey name i := new_partition name i (u64 (shard + i)) r]> parts))
    as (parts' & -> & H1 & H2); [lia|lia|].
  exists parts'. split; [done|]. split.
  - intros j Hj. destruct (decide (j = i)) as [->|Hne]; [|apply H1; lia].
    exists r. split; [done|]. rewrite H2 by (intros [_ ?]; cbn in *; lia). apply lookup_insert_eq.
  - intros k Hk. rewrite H2 by (intros [E1 E2]; apply Hk; split; [done|lia]).
    apply lookup_insert_ne. intros <-. apply Hk. split; [done|cbn; lia].
Qed.

Lemma delete_partitions_spec n i name parts k :
  0 <= i ->
  delete_partitions n i name parts !! k =
  if bool_decide (pk_topic k = name /\ i <= pk_partition k < i + Z.of_nat n) then None else parts !! k.
Proof.
  revert i parts. induction n as [|n IH]; intros i parts Hi; cbn [delete_partitions].
  { rewrite bool_decide_eq_false_2; [done|lia]. }
  rewrite IH by lia. case_bool_decide as H1.
  - rewrite bool_decide_eq_true_2; [done|]. destruct H1. split; [done|lia].
  - destruct (decide (k = PKey name i)) as [->|Hne].
    + rewrite lookup_delete_eq, bool_decide_eq_true_2; [done|]. split; [done|cbn; lia].
    + rewrite lookup_delete_ne by done. rewrite bool_decide_eq_false_2; [done|].
      intros [E1 E2]. destruct k as [t j]. cbn in *. subst t. destruct (decide (j = i)); [congruence|].
      apply H1. split; [done|lia].
Qed.

Lemma add_partitions_spec n i name from shard assignments parts :
  0 <= i -> 0 <= from -> from + i + Z.of_nat n < 2 ^ 31 ->
  let parts' := add_partitions n i name from shard assignments parts in
  (forall j, i <= j < i + Z.of_nat n ->
     parts' !! PKey name (from + j) =
     Some (new_partition name (from + j) (u64 (shard + j)) (default [] (assignments !! Z.to_nat j)))) /\
  (forall k, ~ (pk_topic k = name /\ from + i <= pk_partition k < from + i + Z.of_nat n) -> parts' !! k = parts !! k).
Proof.
  revert i parts. induction n as [|n IH]; intros i parts Hi Hf Hn; cbn [add_partitions].
  { split; [lia|done]. }
  rewrite i32_id by (unfold in_i32; lia). set (r0 := default [] _).
  destruct (IH (i + 1) (<[PKey name (from + i) := new_partition name (from + i) (u64 (shard + i)) r0]> parts))
    as [H1 H2]; [lia..|]. cbv zeta. split.
  - intros j Hj. destruct (decide (j = i)) as [->|Hne]; [|apply H1; lia].
    rewrite H2 by (intros [_ ?]; cbn in *; lia). apply lookup_insert_eq.
  - intros k Hk. rewrite H2 by (intros [E1 E2]; apply Hk; split; [done|lia]).
    apply lookup_insert_ne. intros <-. apply Hk. split; [done|cbn; lia].
Qed.

(** ** Adding a range of partitions *)

(** [s'] has the partitions of [s] and [from .. from + n - 1] of topic [name], new. *)
Record extends (s s' : MetadataState) (name : string) (from n : Z) : Prop := {
  ex_new : forall j, 0 <= j < n -> exists r,
    Partitions s' !! PKey name (from + j) = Some (new_partition name (from + j) (NextShardID s + j) r);
  ex_old : forall k, ~ (pk_topic k = name /\ from <= pk_partition k < from + n) ->
    Partitions s' !! k = Partitions s !! k;
  ex_next : NextShardID s' = NextShardID s + n
}.

Lemma extends_cases s s' name from n k p :
  extends s s' name from n -> Partitions s' !! k = Some p ->
  Partitions s !! k = Some p \/
  exists j r, 0 <= j < n /\ k = PKey name (from + j) /\ p = new_partition name (from + j) (NextShardID s + j) r.
Proof.
  intros [Hnew Hold _] Hp. destruct k as [t i].
  destruct (decide (t = name /\ from <= i < from + n)) as [[-> Hi]|Hn].
  - right. destruct (Hnew (i - from) ltac:(lia)) as [r Hr]. replace (from + (i - from)) with i in Hr by lia.
    rewrite Hr in Hp. injection Hp as <-. exists (i - from), r.
    replace (from + (i - from)) with i by lia. split; [lia|done].
  - left. by rewrite <- (Hold (PKey t i)).
Qed.

Lemma extends_step s s' name from n : extends s s' name from n -> partition_step s s'.
Proof.
  intros He k p' Hp. destruct (extends_cases _ _ _ _ _ _ _ He Hp) as [H|(j & r & Hj & -> & ->)].
  - left. exists p'. split_and!; try done; lia.
  - right. cbn. lia.
Qed.

Lemma extends_ok s s' name from n m' :
  meta_ok s -> extends s s' name from n -> 0 <= from -> 0 < n ->
  (from = 0 /\ Topics s !! name = None \/
   exists m, Topics s !! name = Some m /\ PartitionCount m = from) ->
  Topics s' = <[name := m']> (Topics s) -> Name m' = name -> PartitionCount m' = from + n -> from + n < 2 ^ 31 ->
  meta_ok s'.
Proof.
  intros Hok He Hf Hn Htop Et En Ec Hb. pose proof He as [Hnew Hold Hnext]. destruct Hok. constructor.
  - intros t i. rewrite Et. destruct (decide (t = name)) as [->|Hne].
    + rewrite lookup_insert_eq. destruct (decide (from <= i < from + n)) as [Hi|Hi].
      * destruct (Hnew (i - from) ltac:(lia)) as [r Hr]. replace (from + (i - from)) with i in Hr by lia.
        rewrite Hr. split; [intros _; exists m'; split; [done|lia]|by eauto].
      * rewrite (Hold (PKey name i)) by (intros [_ ?]; cbn in *; lia). rewrite mo_parts0. split.
        -- intros (m & Hm & Hi'). exists m'. split; [done|].
           destruct Htop as [[-> Hn']|(m0 & Hm0 & E)]; [congruence|]. rewrite Hm in Hm0. injection Hm0 as ->. lia.
        -- intros (m & [= <-] & Hi'). destruct Htop as [[-> _]|(m0 & Hm0 & E)]; [lia|]. exists m0. split; [done|lia].
    + rewrite lookup_insert_ne by done. rewrite (Hold (PKey t i)) by (cbn; intros [? _]; done). apply mo_parts0.
  - intros k p Hp. destruct (extends_cases _ _ _ _ _ _ _ He Hp) as [H|(j & r & Hj & -> & ->)]; [by apply mo_fields0|].
    cbn. split_and!; [done|done|lia].
  - intros k p Hp. rewrite Hnext. destruct (extends_cases _ _ _ _ _ _ _ He Hp) as [H|(j & r & Hj & -> & ->)].
    + pose proof (mo_shards0 _ _ H). lia.
    + cbn. lia.
  - intros k1 k2 p1 p2 H1 H2 E.
    destruct (extends_cases _ _ _ _ _ _ _ He H1) as [H1'|(j1 & r1 & Hj1 & -> & ->)],
      (extends_cases _ _ _ _ _ _ _ He H2) as [H2'|(j2 & r2 & Hj2 & -> & ->)]; cbn [ShardID new_partition] in E.
    + by eapply mo_shard_inj0.
    + pose proof (mo_shards0 _ _ H1'). lia.
    + pose proof (mo_shards0 _ _ H2'). lia.
    + f_equal. lia.
  - intros t m. rewrite Et. destruct (decide (t = name)) as [->|Hne].
    + rewrite lookup_insert_eq. intros [= <-]. split; [done|lia].
    + rewrite lookup_insert_ne by done. apply mo_topics0.
  - lia.
Qed.

(** ** The commands on topics and partitions *)

Definition goodstep (s s' : MetadataState) : Prop :=
  meta_ok s' /\ NextShardID s <= NextShardID s' /\ partition_step s s'.

Lemma partition_step_same s s' : Partitions s' = Partitions s -> partition_step s s'.
Proof. intros E k p Hp. left. exists p. rewrite <- E. split_and!; try done; lia. Qed.

(** Commands that leave topics, partitions and the shard counter alone. *)
Lemma goodstep_other s s' :
  meta_ok s -> Topics s' = Topics s -> Partitions s' = Partitions s -> NextShardID s' = NextShardID s ->
  goodstep s s'.
Proof.
  intros [] Et Ep En. split_and!; [|lia|by apply partition_step_same].
  constructor; rewrite ?Et, ?Ep, ?En; done.
Qed.

Lemma goodstep_refl s : meta_ok s -> goodstep s s.
Proof. intros. by apply goodstep_other. Qed.

Lemma create_ok s c :
  meta_ok s -> in_i32 (ct_PartitionCount c) -> NextShardID s + 2 ^ 31 < 2 ^ 64 ->
  exists s' r, applyCreateTopic s c = Ok (s', r) /\ goodstep s s'.
Proof.
  intros Hok Hi Hs. unfold applyCreateTopic. destruct (Topics s !! ct_Name c) eqn:Et.
  { do 2 eexists. split; [done|]. by apply goodstep_refl. }
  destruct (Z.leb_spec (ct_PartitionCount c) 0); [do 2 eexists; split; [done|by apply goodstep_refl]|].
  destruct (Z.leb_spec (ct_ReplicationFactor c) 0); [do 2 eexists; split; [done|by apply goodstep_refl]|]. cbn [orb].
  destruct (Z.eqb_spec (i32 (len (ct_ReplicaNodeIDs c))) (ct_PartitionCount c)) as [El|];
    [cbn [negb]|do 2 eexists; split; [done|by apply goodstep_refl]].
  assert (ct_PartitionCount c <= len (ct_ReplicaNodeIDs c)) as Hlen.
  { pose proof (len_nonneg (ct_ReplicaNodeIDs c)). rewrite <- El. unfold i32. Z.div_mod_to_equations. lia. }
  unfold in_i32 in Hi. cbn [set_topics NextShardID Partitions].
  destruct (create_partitions_spec (Z.to_nat (ct_PartitionCount c)) 0 (ct_Name c) (NextShardID s)
    (ct_ReplicaNodeIDs c) (Partitions s)) as (parts & -> & H1 & H2); [lia|lia|].
  cbn [mbind outcome_bind]. pose proof (mo_next _ Hok). rewrite u64_id by (unfold in_u64; lia).
  do 2 eexists. split; [done|]. set (s' := set_nextShardID _ _).
  assert (extends s s' (ct_Name c) 0 (ct_PartitionCount c)) as He.
  { constructor; [|intros k Hk; apply H2; rewrite Z2Nat.id by lia; exact Hk|done].
    intros j Hj. destruct (H1 j) as (r & _ & Hr); [lia|]. exists r. cbn. rewrite u64_id in Hr by (unfold in_u64; lia).
    exact Hr. }
  split_and!; [|cbn; lia|by eapply extends_step].
  eapply (extends_ok s s'); [done|exact He|lia|lia|left; done|done|done|done|lia].
Qed.

Lemma delete_ok s name :
  meta_ok s -> exists s' r, applyDeleteTopic s name = Ok (s', r) /\ goodstep s s'.
Proof.
  intros Hok. unfold applyDeleteTopic. destruct (Topics s !! name) as [m|] eqn:Et;
    [|do 2 eexists; split; [done|by apply goodstep_refl]].
  do 2 eexists. split; [done|]. pose proof (mo_topics _ Hok _ _ Et) as [_ Hc].
  assert (forall k p, delete_partitions (Z.to_nat (PartitionCount m)) 0 name (Partitions s) !! k = Some p ->
    Partitions s !! k = Some p /\ ~ (pk_topic k = name /\ 0 <= pk_partition k < PartitionCount m)) as Hd.
  { intros k p. rewrite delete_partitions_spec by lia. case_bool_decide as Hb; [done|].
    intros Hp. split; [done|]. intros [E1 E2]. apply Hb. split; [done|lia]. }
  destruct Hok. split_and!; [|cbn; lia|].
  - constructor; cbn [set_topics set_partitions Topics Partitions NextShardID].
    + intros t i. rewrite delete_partitions_spec by lia. case_bool_decide as Hb.
      * destruct Hb as [<- Hb]. cbn [pk_topic]. rewrite lookup_delete_eq. split; [by intros []|by intros (? & ? & _)].
      * rewrite mo_parts0. destruct (decide (t = name)) as [->|Hne].
        -- rewrite lookup_delete_eq, Et. split; [|by intros (? & ? & _)].
           intros (m0 & [= <-] & Hi). exfalso. apply Hb. cbn. split; [done|lia].
        -- by rewrite lookup_delete_ne.
    + intros k p Hp. apply mo_fields0. by apply Hd.
    + intros k p Hp. apply (mo_shards0 k). by apply Hd.
    + intros k1 k2 p1 p2 H1 H2. apply mo_shard_inj0; by apply Hd.
    + intros t m0 Hm. apply mo_topics0. destruct (decide (t = name)) as [->|]; [by rewrite lookup_delete_eq in Hm|].
      by rewrite lookup_delete_ne in Hm.
    + done.
  - intros k p Hp. left. exists p. split; [by apply Hd|]. split_and!; try done; lia.
Qed.

Lemma alter_ok s c :
  meta_ok s -> in_i32 (at_NewPartitionCount c) -> NextShardID s + 2 ^ 31 < 2 ^ 64 ->
  exists s' r, applyAlterTopicPartCount s c = Ok (s', r) /\ goodstep s s'.
Proof.
  intros Hok Hi Hs. unfold applyAlterTopicPartCount. destruct (Topics s !! at_Name c) as [m|] eqn:Et;
    [|do 2 eexists; split; [done|by apply goodstep_refl]].
  destruct (Z.leb_spec (at_NewPartitionCount c) (PartitionCount m));
    [do 2 eexists; split; [done|by apply goodstep_refl]|].
  pose proof (mo_topics _ Hok _ _ Et) as [En Hc]. unfold in_i32 in Hi. pose proof (mo_next _ Hok).
  rewrite i32_id by (unfold in_i32; lia). set (n := at_NewPartitionCount c - PartitionCount m) in *.
  destruct (add_partitions_spec (Z.to_nat n) 0 (at_Name c) (PartitionCount m) (NextShardID s)
    (at_NewReplicaAssignments c) (Partitions s)) as [H1 H2]; [lia..|].
  rewrite u64_id by (unfold in_u64; lia). do 2 eexists. split; [done|]. set (s' := set_topics _ _).
  assert (extends s s' (at_Name c) (PartitionCount m) n) as He.
  { constructor; [|intros k Hk; apply H2; rewrite Z.add_0_r, Z2Nat.id by lia; exact Hk|done].
    intros j Hj. pose proof (H1 j ltac:(lia)) as Hr. rewrite u64_id in Hr by (unfold in_u64; lia).
    eexists. exact Hr. }
  split_and!; [|cbn; lia|by eapply extends_step].
  eapply (extends_ok s s'); [done|exact He|lia|lia|right; by exists m|done|done|cbn; lia|lia].
Qed.

Lemma retention_ok s c : meta_ok s -> exists s' r, applyAlterTopicRetention s c = Ok (s', r) /\ goodstep s s'.
Proof.
  intros Hok. unfold applyAlterTopicRetention. destruct (Topics s !! ar_Name c) as [m|] eqn:Et;
    [|do 2 eexists; split; [done|by apply goodstep_refl]].
  do 2 eexists. split; [done|]. pose proof (mo_topics _ Hok _ _ Et) as [En Hc]. destruct Hok.
  split_and!; [|cbn; lia|by apply partition_step_same].
  constructor; cbn [set_topics Topics Partitions NextShardID]; try done.
  - intros t i. rewrite mo_parts0. destruct (decide (t = ar_Name c)) as [->|]; [|by rewrite lookup_insert_ne].
    rewrite lookup_insert_eq, Et. split; intros (m0 & [= <-] & Hi); eexists; by split.
  - intros t m0 Hm. destruct (decide (t = ar_Name c)) as [->|]; [|rewrite lookup_insert_ne in Hm by done; by apply mo_topics0].
    rewrite lookup_insert_eq in Hm. by injection Hm as <-.
Qed.

Lemma assign_leader_ok s c : meta_ok s -> exists s' r, applyAssignPartitionLeader s c = Ok (s', r) /\ goodstep s s'.
Proof.
  intros Hok. unfold applyAssignPartitionLeader. set (key := PKey _ _). destruct (Partitions s !! key) as [p|] eqn:Ep;
    [|do 2 eexists; split; [done|by apply goodstep_refl]].
  destruct (Z.leb_spec (al_LeaderEpoch c) (LeaderEpoch p)); [do 2 eexists; split; [done|by apply goodstep_refl]|].
  do 2 eexists. split; [done|].
  set (p' := set_leader p _ _). assert (forall k q, <[key := p']> (Partitions s) !! k = Some q ->
    exists q0, Partitions s !! k = Some q0 /\ (k = key /\ q = p' /\ q0 = p \/ q = q0)) as Hc.
  { intros k q Hq. destruct (decide (k = key)) as [->|]; [|rewrite lookup_insert_ne in Hq by done; eauto].
    rewrite lookup_insert_eq in Hq. injection Hq as <-. eauto 6. }
  destruct Hok. split_and!; [|cbn; lia|].
  - constructor; cbn [set_partitions Topics Partitions NextShardID]; try done.
    + intros t i. rewrite <- mo_parts0. destruct (decide (PKey t i = key)) as [->|]; [|by rewrite lookup_insert_ne].
      rewrite lookup_insert_eq, Ep. split; by eauto.
    + intros k q Hq. destruct (Hc _ _ Hq) as (q0 & H0 & [(-> & -> & ->)| ->]); [|by apply mo_fields0].
      destruct (mo_fields0 _ _ H0) as (F1 & F2 & F3). split_and!; [done|done|cbn; lia].
    + intros k q Hq. destruct (Hc _ _ Hq) as (q0 & H0 & [(-> & -> & ->)| ->]); by apply (mo_shards0 _ _ H0).
    + intros k1 k2 q1 q2 H1 H2 E. destruct (Hc _ _ H1) as (p1 & G1 & D1), (Hc _ _ H2) as (p2 & G2 & D2).
      apply (mo_shard_inj0 _ _ _ _ G1 G2). destruct D1 as [(_ & -> & ->)| ->], D2 as [(_ & -> & ->)| ->]; done.
  - intros k q Hq. destruct (Hc _ _ Hq) as (q0 & H0 & [(-> & -> & ->)| ->]); left.
    + exists p. cbn. split_and!; try done; lia.
    + exists q0. split_and!; try done; lia.
Qed.

(** ** The commands on groups *)

(** A handler that only changes the groups. *)
Definition group_only (s : MetadataState) (o : outcome (MetadataState * Result)) : Prop :=
  exists s' r, o = Ok (s', r) /\ Topics s' = Topics s /\ Partitions s' = Partitions s /\
    Nodes s' = Nodes s /\ NextShardID s' = NextShardID s.

Ltac group_done := do 2 eexists; split; [reflexivity|]; split_and!; reflexivity.

Lemma join_groups s c : group_only s (applyJoinConsumerGroup s c).
Proof.
  unfold applyJoinConsumerGroup. destruct (jc_Member c) as [m|]; [unfold applyGroupStateJoin; group_done|].
  set (id := if String.eqb _ _ then _ else _). set (g := set_members _ _).
  destruct (Rebalance.rebalance_ok s g) as (g' & -> & _ & _ & _ & Hdom & _). cbn [mbind outcome_bind].
  destruct (Hdom id) as [_ Hd]. destruct Hd as [m Hm]; [unfold g; cbn [set_members cgMembers]; rewrite lookup_insert_eq; eauto|].
  cbn [bump cgMembers]. rewrite Hm. group_done.
Qed.

Lemma leave_groups s c : group_only s (applyLeaveConsumerGroup s c).
Proof.
  unfold applyLeaveConsumerGroup, applyGroupStateLeave. destruct (GroupStates s !! lc_GroupID c) as [g|].
  - destruct (Members g !! lc_MemberID c); group_done.
  - destruct (Groups s !! lc_GroupID c) as [g|]; [|group_done].
    destruct (cgMembers g !! lc_MemberID c); [|group_done].
    destruct (Rebalance.rebalance_ok s (set_members g (delete (lc_MemberID c) (cgMembers g)))) as (g' & -> & _).
    group_done.
Qed.

Lemma heartbeat_groups s c : group_only s (applyHeartbeatConsumerGroup s c).
Proof.
  unfold applyHeartbeatConsumerGroup. destruct (Groups s !! hc_GroupID c) as [g|]; [|group_done].
  destruct (cgMembers g !! hc_MemberID c); [|group_done]. destruct (negb _); group_done.
Qed.

Lemma commit_groups s c : group_only s (applyCommitConsumerOffset s c).
Proof.
  unfold applyCommitConsumerOffset, applyGroupStateCommitOffset. destruct (cc_GroupOffsets c).
  - destruct (GroupStates s !! cc_GroupID c); group_done.
  - destruct (Groups s !! cc_GroupID c); group_done.
Qed.

Lemma rebalance_groups s c : group_only s (applyRebalanceConsumerGroup s c).
Proof.
  unfold applyRebalanceConsumerGroup. destruct (Groups s !! rc_GroupID c) as [g|]; [|group_done].
  destruct (Rebalance.rebalance_ok s (set_members g (fold_left (fun m id => delete id m) (rc_ExpiredMemberIDs c)
    (cgMembers g)))) as (g' & -> & _). group_done.
Qed.

Lemma group_goodstep s o : meta_ok s -> group_only s o -> exists s' r, o = Ok (s', r) /\ goodstep s s'.
Proof.
  intros Hok (s' & r & E & Et & Ep & _ & En). exists s', r. split; [done|]. by apply goodstep_other.
Qed.

(** ** All commands *)

Lemma command_ok s cmd :
  meta_ok s -> cmd_ok cmd -> NextShardID s + 2 ^ 31 < 2 ^ 64 ->
  exists s' r, applyCommand s cmd = Ok (s', r) /\ goodstep s s'.
Proof.
  intros Hok Hc Hs. destruct cmd as [[c|]|[c|]|[c|]|[c|]|[c|]|[c|]|[c|]|[c|]|[c|]|[c|]|[c|]|]; cbn in Hc; try done;
    cbn [applyCommand deref].
  - by apply create_ok.
  - by apply delete_ok.
  - by apply alter_ok.
  - by apply retention_ok.
  - do 2 eexists. split; [done|]. by apply goodstep_other.
  - by apply assign_leader_ok.
  - apply group_goodstep; [done|apply join_groups].
  - apply group_goodstep; [done|apply leave_groups].
  - apply group_goodstep; [done|apply heartbeat_groups].
  - apply group_goodstep; [done|apply commit_groups].
  - apply group_goodstep; [done|apply rebalance_groups].
  - do 2 eexists. split; [done|]. by apply goodstep_refl.
Qed.

(** C28: a command with its payload never fails; it keeps the partition table the exact image of
    the topic table with shard ids owned by one partition each, never moves the shard counter
    back, creates partitions only with shard ids never handed out before, keeps a partition's
    shard and replicas, and changes a leader only together with a higher epoch. *)
Theorem applyCommand_invariant s cmd :
  meta_ok s -> cmd_ok cmd -> NextShardID s + 2 ^ 31 < 2 ^ 64 ->
  exists s' r, applyCommand s cmd = Ok (s', r) /\
    meta_ok s' /\ NextShardID s <= NextShardID s' /\ partition_step s s'.
Proof. apply command_ok. Qed.

(** ** Reachable states *)

Lemma meta_ok_init : meta_ok NewMetadataFSM.
Proof.
  constructor; cbn; try done; try (by intros; rewrite ?lookup_empty in *).
  intros t i. rewrite !lookup_empty. split; [by intros []|by intros (? & ? & _)].
Qed.

(** Log entries that do not decode are applied too, as rejections. *)
Definition entry_ok (cmd : option MetadataCommand) : Prop :=
  match cmd with Some c => cmd_ok c | None => True end.

(** What one entry can add to the shard counter. *)
Lemma create_next s c s' r :
  applyCreateTopic s c = Ok (s', r) -> in_i32 (ct_PartitionCount c) -> NextShardID s + 2 ^ 31 < 2 ^ 64 ->
  1 <= NextShardID s -> NextShardID s' <= NextShardID s + 2 ^ 31.
Proof.
  unfold applyCreateTopic. intros H Hi Hs Hn. unfold in_i32 in Hi. destruct (Topics s !! ct_Name c); [injection H as <- <-; lia|].
  destruct ((_ <=? _) || _) eqn:E1; [injection H as <- <-; lia|].
  destruct (negb _); [injection H as <- <-; lia|]. apply bind_Ok in H as (parts & _ & H). injection H as <- <-.
  cbn [NextShardID set_nextShardID]. apply orb_false_iff in E1 as [E1%Z.leb_gt _].
  rewrite u64_id by (unfold in_u64; cbn; lia). cbn. lia.
Qed.

Lemma alter_next s c s' r :
  meta_ok s -> applyAlterTopicPartCount s c = Ok (s', r) -> in_i32 (at_NewPartitionCount c) ->
  NextShardID s + 2 ^ 31 < 2 ^ 64 -> NextShardID s' <= NextShardID s + 2 ^ 31.
Proof.
  unfold applyAlterTopicPartCount. intros Hok H Hi Hs. pose proof (mo_next _ Hok). unfold in_i32 in Hi.
  destruct (Topics s !! at_Name c) as [m|] eqn:Et; [|injection H as <- <-; lia].
  destruct (Z.leb_spec (at_NewPartitionCount c) (PartitionCount m)); injection H as <- <-; [lia|].
  pose proof (mo_topics _ Hok _ _ Et) as [_ Hc]. cbn [NextShardID set_nextShardID set_topics].
  rewrite i32_id by (unfold in_i32; lia). rewrite u64_id by (unfold in_u64; lia). lia.
Qed.

Lemma command_next s cmd s' r :
  meta_ok s -> cmd_ok cmd -> NextShardID s + 2 ^ 31 < 2 ^ 64 -> applyCommand s cmd = Ok (s', r) ->
  NextShardID s' <= NextShardID s + 2 ^ 31.
Proof.
  intros Hok Hc Hs H. pose proof (mo_next _ Hok) as Hn.
  assert (forall o, group_only s o -> o = Ok (s', r) -> NextShardID s' <= NextShardID s + 2 ^ 31) as Hg.
  { intros o (s1 & r1 & -> & _ & _ & _ & E) [= <- <-]. lia. }
  destruct cmd as [[c|]|[c|]|[c|]|[c|]|[c|]|[c|]|[c|]|[c|]|[c|]|[c|]|[c|]|]; cbn in Hc; try done;
    cbn [applyCommand deref] in H.
  - by eapply create_next.
  - unfold applyDeleteTopic in H. destruct (Topics s !! c); injection H as <- <-; cbn; lia.
  - by eapply alter_next.
  - unfold applyAlterTopicRetention in H. destruct (Topics s !! ar_Name c); injection H as <- <-; cbn; lia.
  - injection H as <- <-. cbn. lia.
  - unfold applyAssignPartitionLeader in H. destruct (Partitions s !! _) as [p|]; [|injection H as <- <-; lia].
    destruct (_ <=? _); injection H as <- <-; cbn; lia.
  - eapply Hg; [apply join_groups|exact H].
  - eapply Hg; [apply leave_groups|exact H].
  - eapply Hg; [apply heartbeat_groups|exact H].
  - eapply Hg; [apply commit_groups|exact H].
  - eapply Hg; [apply rebalance_groups|exact H].
  - injection H as <- <-. lia.
Qed.

Lemma entry_step s cmd :
  meta_ok s -> entry_ok cmd -> NextShardID s + 2 ^ 31 < 2 ^ 64 ->
  exists s' r, Update s cmd = Ok (s', r) /\ goodstep s s' /\ NextShardID s' <= NextShardID s + 2 ^ 31.
Proof.
  intros Hok Hc Hs. destruct cmd as [cmd|]; cbn [Update].
  - destruct (command_ok s cmd Hok Hc Hs) as (s' & r & E & Hg). exists s', r.
    split_and!; [done|apply Hg..|by eapply command_next].
  - do 2 eexists. split_and!; [done|by apply goodstep_refl..|lia].
Qed.

(** [s'] comes after [s] in a replica's history, by the entries [cmds]. *)
Inductive follows (s : MetadataState) : list (option MetadataCommand) -> MetadataState -> Prop :=
| follows_refl : follows s [] s
| follows_step cmds cmd s1 s2 r : follows s cmds s1 -> Update s1 cmd = Ok (s2, r) -> follows s (cmds ++ [cmd]) s2.

(** What any number of entries may do to a partition. *)
Lemma follows_ok s cmds s' :
  follows s cmds s' -> meta_ok s -> Forall entry_ok cmds -> NextShardID s + 2 ^ 31 * (len cmds + 1) < 2 ^ 64 ->
  meta_ok s' /\ NextShardID s <= NextShardID s' <= NextShardID s + 2 ^ 31 * len cmds /\
  forall k p', Partitions s' !! k = Some p' ->
    (exists p, Partitions s !! k = Some p /\ ShardID p' = ShardID p /\ ReplicaNodeIDs p' = ReplicaNodeIDs p /\
       LeaderEpoch p <= LeaderEpoch p' /\ (LeaderNodeID p' <> LeaderNodeID p -> LeaderEpoch p < LeaderEpoch p')) \/
    NextShardID s <= ShardID p'.
Proof.
  intros Hf Hok. induction Hf as [|cmds cmd s1 s2 r Hf IH HU]; intros Hall Hb.
  { split_and!; [done|lia|change (len []) with 0; lia|]. intros k p' Hp. left. exists p'. split_and!; try done; lia. }
  apply Forall_app in Hall as [Hall Hc]. rewrite Forall_singleton in Hc. rewrite len_app in *. change (len [cmd]) with 1 in *.
  pose proof (len_nonneg cmds). destruct (IH Hall ltac:(lia)) as (Hok1 & Hn1 & Hp1).
  destruct (entry_step s1 cmd Hok1 Hc ltac:(lia)) as (s2' & r' & E & (Hok2 & Hn2 & Hp2) & Hle).
  rewrite HU in E. injection E as <- <-. split_and!; [done|lia|lia|].
  intros k p' Hp. destruct (Hp2 _ _ Hp) as [(p1 & G1 & E1 & E2 & E3 & E4)|(E1 & _)]; [|right; lia].
  destruct (Hp1 _ _ G1) as [(p & G & F1 & F2 & F3 & F4)|F1]; [left|right; lia].
  exists p. split_and!; [done|congruence|congruence|lia|].
  intros Hne. destruct (decide (LeaderNodeID p1 = LeaderNodeID p)) as [El|Hl].
  - rewrite <- El in Hne. specialize (E4 Hne). lia.
  - specialize (F4 Hl). lia.
Qed.

(** Along any history of fewer than 2^32 entries from the empty state, every entry is
    applied without failing and every state has a consistent topic and partition table. *)
Theorem history_total cmds s cmd :
  follows NewMetadataFSM cmds s -> Forall entry_ok cmds -> entry_ok cmd -> len cmds + 2 < 2 ^ 32 ->
  meta_ok s /\ exists s' r, Update s cmd = Ok (s', r) /\ meta_ok s'.
Proof.
  intros Hf Hall Hc Hl. pose proof (len_nonneg cmds).
  destruct (follows_ok _ _ _ Hf meta_ok_init Hall) as (Hok & Hn & _); [cbn; lia|].
  change (NextShardID NewMetadataFSM) with 1 in Hn.
  destruct (entry_step s cmd Hok Hc ltac:(lia)) as (s' & r & E & (Hok' & _) & _). eauto 6.
Qed.

(** C29: a shard id names one partition for ever: if a partition of a state and a partition of any
    later state (after topics were deleted, recreated, extended) have the same shard id, they
    are the same partition of the same topic, with the same replicas, and its leader changed
    only if its epoch grew. *)
Theorem shard_never_reused s cmds s' k k' p p' :
  meta_ok s -> follows s cmds s' -> Forall entry_ok cmds -> NextShardID s + 2 ^ 31 * (len cmds + 1) < 2 ^ 64 ->
  Partitions s !! k = Some p -> Partitions s' !! k' = Some p' -> ShardID p = ShardID p' ->
  k' = k /\ ReplicaNodeIDs p' = ReplicaNodeIDs p /\ LeaderEpoch p <= LeaderEpoch p' /\
  (LeaderNodeID p' <> LeaderNodeID p -> LeaderEpoch p < LeaderEpoch p').
Proof.
  intros Hok Hf Hall Hb Hp Hp' E. destruct (follows_ok _ _ _ Hf Hok Hall Hb) as (_ & _ & H).
  destruct (H _ _ Hp') as [(p0 & G & F1 & F2 & F3 & F4)|Hn].
  - assert (k' = k) as -> by (eapply (mo_shard_inj _ Hok); [exact G|exact Hp|congruence]).
    rewrite Hp in G. injection G as <-. split_and!; done.
  - pose proof (mo_shards _ Hok _ _ Hp). lia.
Qed.

(** ** Witnesses: a topic is created, gets a leader, is deleted and created again. *)

Definition c_create (n : Z) : MetadataCommand := CmdCreateTopic (Some
  {| ct_Name := "t"; ct_PartitionCount := n; ct_ReplicationFactor := 1; ct_RetentionMs := 0;
     ct_RetentionBytes := 0; ct_CreatedAtMs := 7; ct_ReplicaNodeIDs := replicate (Z.to_nat n) [1] |}).
Definition c_leader : MetadataCommand := CmdAssignPartitionLeader (Some
  {| al_Topic := "t"; al_PartitionID := 1; al_LeaderNodeID := 1; al_LeaderEpoch := 1 |}).

Definition step_state (s : MetadataState) (cmd : option MetadataCommand) : MetadataState :=
  match Update s cmd with Ok (s', _) => s' | _ => s end.
Definition w1 : MetadataState := step_state NewMetadataFSM (Some (c_create 2)).
Definition w2 : MetadataState := step_state w1 (Some c_leader).

Lemma follows_w1 : follows NewMetadataFSM [Some (c_create 2)] w1.
Proof. apply (follows_step _ [] _ NewMetadataFSM w1 OKResult); [constructor|vm_compute; reflexivity]. Qed.
Lemma follows_w2 : follows w1 [Some c_leader] w2.
Proof. apply (follows_step _ [] _ w1 w2 OKResult); [constructor|vm_compute; reflexivity]. Qed.
Lemma entries_ok : Forall entry_ok [Some (c_create 2)] /\ Forall entry_ok [Some c_leader].
Proof. split; repeat constructor; done. Qed.
Lemma w1_ok : meta_ok w1.
Proof. apply (follows_ok _ _ _ follows_w1 meta_ok_init (proj1 entries_ok)). vm_compute. reflexivity. Qed.

Lemma applyCommand_invariant_witness :
  exists s' r, applyCommand w1 c_leader = Ok (s', r) /\ meta_ok s' /\ partition_step w1 s'.
Proof.
  destruct (applyCommand_invariant w1 c_leader w1_ok I ltac:(vm_compute; reflexivity)) as (s' & r & E & H1 & _ & H2).
  exists s', r. exact (conj E (conj H1 H2)).
Defined.

Lemma history_total_witness : meta_ok w1 /\ exists s' r, Update w1 None = Ok (s', r) /\ meta_ok s'.
Proof.
  exact (history_total _ w1 None follows_w1 (proj1 entries_ok) I ltac:(vm_compute; reflexivity)).
Defined.

Lemma shard_never_reused_witness :
  exists p p', Partitions w1 !! PKey "t" 1 = Some p /\ Partitions w2 !! PKey "t" 1 = Some p' /\
    LeaderNodeID p <> LeaderNodeID p' /\ LeaderEpoch p < LeaderEpoch p'.
Proof.
  exists (new_partition "t" 1 2 [1]), (set_leader (new_partition "t" 1 2 [1]) 1 1).
  assert (Partitions w1 !! PKey "t" 1 = Some (new_partition "t" 1 2 [1])) as H1 by (vm_compute; reflexivity).
  assert (Partitions w2 !! PKey "t" 1 = Some (set_leader (new_partition "t" 1 2 [1]) 1 1)) as H2
    by (vm_compute; reflexivity).
  split_and!; [exact H1|exact H2|done|].
  destruct (shard_never_reused w1 _ w2 _ _ _ _ w1_ok follows_w2 (proj2 entries_ok)
    ltac:(vm_compute; reflexivity) H1 H2 eq_refl) as (_ & _ & _ & H). apply H. done.
Defined.

End MetadataInv.
