(* ===== verification/RangeAssign.v ===== *)
(** * Range assignment of the coordinators

    [rangeAssign], the same function in internal/coordinator/cluster/assignment.go and
    internal/coordinator/group/groupcoord.go: the partitions of each topic are divided into one
    run per member, members and topics taken in sorted order. Every partition is given to
    exactly one member, the shares of a topic differ by at most one, and the result does not
    depend on the order in which members and topics are listed. *)

From S2P Require Import Prelude SegName Keys.
Local Open Scope Z_scope.

Module RangeAssign.
Export Keys.

(** [for p := cursor; p < cursor+count; p++]: the [n] partitions from [p] on. *)
Fixpoint run_of (topic : string) (p : Z) (n : nat) : list TopicPartition :=
  match n with
  | O => []
  | S n' => TP topic (i32 p) :: run_of topic (p + 1) n'
  end.

(** The loop over the members of one topic; [i] is the index of the first one left. *)
Fixpoint assign_topic (members : list string) (i cursor base remainder : Z) (topic : string)
    (result : gmap string (list TopicPartition)) : gmap string (list TopicPartition) :=
  match members with
  | [] => result
  | memberID :: members' =>
      let count := if i <? remainder then base + 1 else base in
      let l := default [] (result !! memberID) ++ run_of topic cursor (Z.to_nat count) in
      assign_topic members' (i + 1) (cursor + count) base remainder topic (<[memberID := l]> result)
  end.

(** The loop over the topics. *)
Fixpoint assign_topics (members topics : list string) (counts : gmap string Z)
    (result : gmap string (list TopicPartition)) : gmap string (list TopicPartition) :=
  match topics with
  | [] => result
  | topic :: topics' =>
      let nPartitions := default 0 (counts !! topic) in
      let result' :=
        if nPartitions =? 0 then result
        else assign_topic members 0 0 (Z.quot nPartitions (len members)) (Z.rem nPartitions (len members))
               topic result in
      assign_topics members topics' counts result'
  end.

Definition rangeAssign (memberIDs topics : list string) (partitionCounts : gmap string Z)
  : gmap string (list TopicPartition) :=
  if len memberIDs =? 0 then ∅ else
  let sorted := sort_strings memberIDs in
  let sortedTopics := sort_strings topics in
  let result := fold_left (fun m id => <[id := []]> m) sorted ∅ in
  assign_topics sorted sortedTopics partitionCounts result.

(** ** The run of one member *)

(** Where the run of the [i]-th of [n] members starts in a topic of [c] partitions. *)
Definition start (c n i : Z) : Z := (c / n) * i + Z.min i (c mod n).

Definition share (topic : string) (c n i : Z) : list TopicPartition :=
  run_of topic (start c n i) (Z.to_nat (start c n (i + 1) - start c n i)).

Lemma start_step c n i : 0 <= c -> 0 < n -> 0 <= i ->
  start c n (i + 1) - start c n i = (if i <? c mod n then c / n + 1 else c / n).
Proof. intros. unfold start. destruct (Z.ltb_spec i (c mod n)); lia. Qed.

Lemma start_bounds c n i : 0 <= c -> 0 < n -> 0 <= i < n ->
  0 <= start c n i /\ start c n (i + 1) <= c /\ c / n <= start c n (i + 1) - start c n i <= c / n + 1.
Proof.
  intros Hc Hn Hi. pose proof (Z.div_pos c n). pose proof (Z.mod_pos_bound c n). pose proof (Z.div_mod c n).
  split_and!; [unfold start; nia| |rewrite start_step by lia; destruct (_ <? _); lia..].
  unfold start. rewrite (Z.div_mod c n) at 3 by lia. nia.
Qed.

Lemma start_mono c n i j : 0 <= c -> 0 < n -> 0 <= i <= j -> start c n i <= start c n j.
Proof. intros. pose proof (Z.div_pos c n). pose proof (Z.mod_pos_bound c n). unfold start. nia. Qed.

Lemma start_0 c n : 0 < n -> start c n 0 = 0.
Proof. intros. pose proof (Z.mod_pos_bound c n). unfold start. lia. Qed.
Lemma start_n c n : 0 < n -> start c n n = c.
Proof. intros. pose proof (Z.mod_pos_bound c n). pose proof (Z.div_mod c n). unfold start. lia. Qed.

Lemma run_of_elem topic p n tp :
  0 <= p -> p + Z.of_nat n <= 2 ^ 31 ->
  tp ∈ run_of topic p n <-> tp_topic tp = topic /\ p <= tp_partition tp < p + Z.of_nat n.
Proof.
  revert p. induction n as [|n IH]; intros p Hp Hb; cbn [run_of].
  { rewrite elem_of_nil. lia. }
  rewrite elem_of_cons, IH, i32_id by (unfold in_i32; lia). destruct tp as [t q]; cbn. split.
  - intros [[= -> ->]|[-> H]]; split; try done; lia.
  - intros [-> H]. destruct (decide (q = p)) as [->|]; [by left|right; split; [done|lia]].
Qed.

Lemma run_of_NoDup topic p n : 0 <= p -> p + Z.of_nat n <= 2 ^ 31 -> NoDup (run_of topic p n).
Proof.
  revert p. induction n as [|n IH]; intros p Hp Hb; cbn [run_of]; constructor; [|apply IH; lia].
  rewrite run_of_elem by lia. cbn. rewrite i32_id by (unfold in_i32; lia). lia.
Qed.

Lemma len_run_of topic p n : len (run_of topic p n) = Z.of_nat n.
Proof. revert p. induction n; intros p; cbn [run_of]; [done|]. rewrite len_cons, IHn. lia. Qed.

(** The [i]-th share has the partitions between its start and the next one's. *)
Lemma share_elem topic c n i tp :
  0 <= c < 2 ^ 31 -> 0 < n -> 0 <= i < n ->
  tp ∈ share topic c n i <-> tp_topic tp = topic /\ start c n i <= tp_partition tp < start c n (i + 1).
Proof.
  intros Hc Hn Hi. pose proof (start_bounds c n i ltac:(lia) Hn Hi). unfold share.
  pose proof (Z.div_pos c n). rewrite run_of_elem by lia. rewrite Z2Nat.id by lia.
  by replace (start c n i + (start c n (i + 1) - start c n i)) with (start c n (i + 1)) by lia.
Qed.

(** Every partition lies in one of the shares. *)
Lemma start_cover c n p :
  0 <= c -> 0 < n -> 0 <= p < c -> exists i, 0 <= i < n /\ start c n i <= p < start c n (i + 1).
Proof.
  intros Hc Hn Hp.
  assert (forall k, 0 <= k <= n -> p < start c n k -> exists i, 0 <= i < k /\ start c n i <= p < start c n (i + 1)) as H.
  { intros k Hk. pattern k. apply natlike_ind; [rewrite start_0 by done; lia| |lia].
    intros x Hx IH Hp'. destruct (decide (p < start c n x)) as [Hlt|]; [|exists x; unfold Z.succ in *; lia].
    destruct (IH Hlt) as (i & Hi & Hs). exists i. lia. }
  destruct (H n) as (i & Hi & Hs); [lia|rewrite start_n by done; lia|]. eauto.
Qed.

Lemma start_unique c n p i j :
  0 <= c -> 0 < n -> 0 <= i -> 0 <= j ->
  start c n i <= p < start c n (i + 1) -> start c n j <= p < start c n (j + 1) -> i = j.
Proof.
  intros Hc Hn Hi Hj H1 H2. destruct (Z.lt_trichotomy i j) as [Hlt|[->|Hlt]]; [|done|].
  - pose proof (start_mono c n (i + 1) j ltac:(lia) Hn ltac:(lia)). lia.
  - pose proof (start_mono c n (j + 1) i ltac:(lia) Hn ltac:(lia)). lia.
Qed.

(** ** The loops *)

Lemma assign_topic_spec ids i topic c n (result : gmap string (list TopicPartition)) :
  NoDup ids -> 0 <= c -> 0 < n -> 0 <= i ->
  let result' := assign_topic ids i (start c n i) (c / n) (c mod n) topic result in
  (forall id, id ∉ ids -> result' !! id = result !! id) /\
  (forall j id, ids !! j = Some id ->
     result' !! id = Some (default [] (result !! id) ++ share topic c n (i + Z.of_nat j))).
Proof.
  revert i result. induction ids as [|id0 ids IH]; intros i result Hnd Hc Hn Hi; cbn [assign_topic].
  { split; [done|]. intros j id. by rewrite lookup_nil. }
  apply NoDup_cons in Hnd as [Hnin Hnd]. rewrite <- (start_step c n i) by lia.
  replace (start c n i + (start c n (i + 1) - start c n i)) with (start c n (i + 1)) by lia.
  fold (share topic c n i). set (r1 := <[id0 := _]> result).
  destruct (IH (i + 1) r1 Hnd Hc Hn ltac:(lia)) as [H1 H2]. cbv zeta in *. split.
  - intros id Hid. rewrite not_elem_of_cons in Hid. rewrite H1 by tauto. apply lookup_insert_ne. naive_solver.
  - intros [|j] id Hj; cbn [lookup list_lookup] in Hj.
    + injection Hj as <-. rewrite H1 by done. unfold r1. rewrite lookup_insert_eq.
      by replace (i + Z.of_nat 0) with i by lia.
    + assert (id <> id0) as Hne by (intros ->; by apply Hnin, (list_elem_of_lookup_2 _ j)).
      rewrite (H2 j id Hj). unfold r1. rewrite lookup_insert_ne by done. do 3 f_equal. lia.
Qed.

(** What the [i]-th member of [n] gets of the topics. *)
Definition shares (counts : gmap string Z) (n i : Z) (topics : list string) : list TopicPartition :=
  topics ≫= fun t => share t (default 0 (counts !! t)) n i.

Lemma bind_shares counts n i t topics :
  shares counts n i (t :: topics) = share t (default 0 (counts !! t)) n i ++ shares counts n i topics.
Proof. done. Qed.

Definition counts_ok (counts : gmap string Z) : Prop := forall t c, counts !! t = Some c -> 0 <= c < 2 ^ 31.

Lemma counts_default counts t : counts_ok counts -> 0 <= default 0 (counts !! t) < 2 ^ 31.
Proof. intros H. destruct (counts !! t) as [c|] eqn:E; cbn; [by apply (H t)|lia]. Qed.

Lemma share_zero t n i : 0 < n -> 0 <= i -> share t 0 n i = [].
Proof. intros. unfold share, start. rewrite Z.div_0_l, Z.mod_0_l by lia. by replace (Z.to_nat _) with 0%nat by lia. Qed.

Lemma assign_topics_spec ids topics counts (result : gmap string (list TopicPartition)) :
  NoDup ids -> ids <> [] -> counts_ok counts -> (forall id, id ∈ ids -> is_Some (result !! id)) ->
  let result' := assign_topics ids topics counts result in
  (forall id, id ∉ ids -> result' !! id = result !! id) /\
  (forall j id, ids !! j = Some id ->
     result' !! id = Some (default [] (result !! id) ++ shares counts (len ids) (Z.of_nat j) topics)).
Proof.
  intros Hnd Hne Hc. revert result. assert (0 < len ids) as Hn by (destruct ids; [done|len_lia]).
  induction topics as [|t topics IH]; intros result Hr; cbn [assign_topics].
  { split; [done|]. intros j id Hj. destruct (Hr id) as [l ->]; [by eapply list_elem_of_lookup_2|].
    cbn. by rewrite app_nil_r. }
  pose proof (counts_default counts t Hc) as Hd. set (c := default 0 (counts !! t)) in *.
  rewrite Z.quot_div_nonneg, Z.rem_mod_nonneg by lia.
  set (r1 := if c =? 0 then _ else _).
  assert ((forall id, id ∉ ids -> r1 !! id = result !! id) /\ (forall j id, ids !! j = Some id ->
    r1 !! id = Some (default [] (result !! id) ++ share t c (len ids) (Z.of_nat j)))) as [H1 H2].
  { unfold r1. destruct (Z.eqb_spec c 0) as [->|].
    - split; [done|]. intros j id Hj. destruct (Hr id) as [l ->]; [by eapply list_elem_of_lookup_2|].
      rewrite share_zero by lia. cbn. by rewrite app_nil_r.
    - pose proof (assign_topic_spec ids 0 t c (len ids) result Hnd ltac:(lia) Hn ltac:(lia)) as H.
      cbv zeta in H. rewrite start_0 in H by done. exact H. }
  destruct (IH r1) as [H3 H4].
  { intros id Hid. apply list_elem_of_lookup in Hid as [j Hj]. rewrite (H2 _ _ Hj). eauto. }
  cbv zeta in *. split.
  - intros id Hid. by rewrite H3, H1.
  - intros j id Hj. rewrite (H4 _ _ Hj), (H2 _ _ Hj). rewrite bind_shares. cbn.
    by rewrite <- app_assoc.
Qed.

Lemma init_spec ids (m : gmap string (list TopicPartition)) id :
  fold_left (fun m id => <[id := []]> m) ids m !! id = if bool_decide (id ∈ ids) then Some [] else m !! id.
Proof.
  revert m. induction ids as [|id0 ids IH]; intros m; cbn [fold_left].
  { by rewrite bool_decide_eq_false_2 by apply not_elem_of_nil. }
  rewrite IH. case_bool_decide as H1.
  - rewrite bool_decide_eq_true_2; [done|]. apply elem_of_cons. auto.
  - destruct (decide (id = id0)) as [->|Hne].
    + rewrite lookup_insert_eq, bool_decide_eq_true_2; [done|]. apply elem_of_cons. auto.
    + rewrite lookup_insert_ne, bool_decide_eq_false_2; [done|rewrite elem_of_cons; tauto|done].
Qed.

(** The assignment, member by member: the [j]-th member in sorted order has the [j]-th share of
    every topic, topics in sorted order. *)
Lemma rangeAssign_lookup ids topics counts :
  NoDup ids -> ids <> [] -> counts_ok counts ->
  (forall id, id ∉ ids -> rangeAssign ids topics counts !! id = None) /\
  (forall j id, sort_strings ids !! j = Some id ->
     rangeAssign ids topics counts !! id = Some (shares counts (len ids) (Z.of_nat j) (sort_strings topics))).
Proof.
  intros Hnd Hne Hc. unfold rangeAssign. pose proof (merge_sort_Permutation String.le ids) as P.
  fold (sort_strings ids) in P. assert (len (sort_strings ids) = len ids) as El by (unfold len; by rewrite P).
  assert (sort_strings ids <> []) as Hne'.
  { intros E. rewrite E in P. by apply Permutation_nil_l in P. }
  destruct (Z.eqb_spec (len ids) 0) as [E|_]; [destruct ids; [done|len_lia]|].
  destruct (assign_topics_spec (sort_strings ids) (sort_strings topics) counts
    (fold_left (fun m id => <[id := []]> m) (sort_strings ids) ∅)) as [H1 H2];
    [by rewrite P|done|done|intros id Hid; rewrite init_spec, bool_decide_eq_true_2 by done; eauto|].
  cbv zeta in *. split.
  - intros id Hid. rewrite H1, init_spec, bool_decide_eq_false_2 by (by rewrite P). apply lookup_empty.
  - intros j id Hj. rewrite (H2 _ _ Hj), init_spec, El.
    rewrite bool_decide_eq_true_2 by (by eapply list_elem_of_lookup_2). done.
Qed.

(** ** What the assignment promises *)

Lemma shares_elem counts n i topics tp :
  counts_ok counts -> 0 < n -> 0 <= i < n ->
  tp ∈ shares counts n i topics <->
  tp_topic tp ∈ topics /\ let c := default 0 (counts !! tp_topic tp) in
    start c n i <= tp_partition tp < start c n (i + 1).
Proof.
  intros Hc Hn Hi. unfold shares. rewrite list_elem_of_bind. split.
  - intros (t & Ht & Hin). pose proof (counts_default counts t Hc). apply share_elem in Ht as [<- Ht]; done.
  - intros [Hin Ht]. exists (tp_topic tp). split; [|done]. pose proof (counts_default counts (tp_topic tp) Hc).
    apply share_elem; done.
Qed.

Lemma sorted_lookup ids id :
  id ∈ ids -> exists j, sort_strings ids !! j = Some id /\ 0 <= Z.of_nat j < len ids.
Proof.
  intros Hin. pose proof (merge_sort_Permutation String.le ids) as P. fold (sort_strings ids) in P.
  rewrite <- P in Hin. apply list_elem_of_lookup in Hin as [j Hj]. exists j. split; [done|].
  pose proof (lookup_lt_Some _ _ _ Hj). unfold len. rewrite <- P. lia.
Qed.

Lemma rangeAssign_elem ids topics counts id l :
  NoDup ids -> ids <> [] -> counts_ok counts -> rangeAssign ids topics counts !! id = Some l ->
  id ∈ ids /\ exists j, sort_strings ids !! j = Some id /\ 0 <= Z.of_nat j < len ids /\
    l = shares counts (len ids) (Z.of_nat j) (sort_strings topics).
Proof.
  intros Hnd Hne Hc Hl. destruct (rangeAssign_lookup ids topics counts Hnd Hne Hc) as [H1 H2].
  destruct (decide (id ∈ ids)) as [Hin|Hn]; [|by rewrite H1 in Hl]. split; [done|].
  destruct (sorted_lookup _ _ Hin) as (j & Hj & Hr). exists j. rewrite (H2 _ _ Hj) in Hl. by injection Hl as <-.
Qed.

Lemma elem_of_sorted ids id : id ∈ sort_strings ids <-> id ∈ ids.
Proof. unfold sort_strings. by rewrite merge_sort_Permutation. Qed.

(** No partition is assigned to two members, also when topics are listed twice. *)
Lemma rangeAssign_disjoint ids topics counts id1 id2 l1 l2 tp :
  NoDup ids -> counts_ok counts ->
  rangeAssign ids topics counts !! id1 = Some l1 -> rangeAssign ids topics counts !! id2 = Some l2 ->
  tp ∈ l1 -> tp ∈ l2 -> id1 = id2.
Proof.
  intros Hnd Hc Hl1 Hl2 H1 H2. assert (ids <> []) as Hne by (intros ->; exact (lookup_empty_Some _ _ Hl1)).
  apply rangeAssign_elem in Hl1 as (_ & j1 & Hj1 & Hr1 & ->), Hl2 as (_ & j2 & Hj2 & Hr2 & ->); try done.
  apply shares_elem in H1 as [_ H1], H2 as [_ H2]; [|done|lia|lia|done|lia|lia].
  pose proof (counts_default counts (tp_topic tp) Hc).
  assert (Z.of_nat j1 = Z.of_nat j2) as E by (eapply start_unique; [..|exact H1|exact H2]; lia).
  assert (j1 = j2) as -> by lia. congruence.
Qed.

Lemma shares_NoDup counts n i topics :
  counts_ok counts -> 0 < n -> 0 <= i < n -> NoDup topics -> NoDup (shares counts n i topics).
Proof.
  intros Hc Hn Hi. induction 1 as [|t topics Hnin _ IH]; [constructor|]. rewrite bind_shares.
  pose proof (counts_default counts t Hc) as Hd. apply NoDup_app. split_and!; [|intros tp H1 H2|done].
  - pose proof (start_bounds (default 0 (counts !! t)) n i (proj1 Hd) Hn Hi) as (B1 & B2 & B3).
    pose proof (Z.div_pos (default 0 (counts !! t)) n (proj1 Hd) Hn). apply run_of_NoDup; lia.
  - apply share_elem in H1 as [<- _]; [|lia..]. by apply shares_elem in H2 as [H2 _].
Qed.

(** The partitions of one topic in a member's share. *)
Lemma shares_of_topic counts n i topics t :
  counts_ok counts -> 0 < n -> 0 <= i < n -> NoDup topics -> t ∈ topics ->
  filter (fun tp => tp_topic tp = t) (shares counts n i topics) = share t (default 0 (counts !! t)) n i.
Proof.
  intros Hc Hn Hi. assert (forall u, Forall (fun tp => tp_topic tp = u) (share u (default 0 (counts !! u)) n i)) as Hu.
  { intros u. apply Forall_forall. intros tp Htp. pose proof (counts_default counts u Hc).
    apply share_elem in Htp as [Heq _]; done. }
  assert (forall ts, t ∉ ts -> filter (fun tp => tp_topic tp = t) (shares counts n i ts) = []) as Hno.
  { intros ts Hts. apply filter_none, Forall_forall. intros tp Htp.
    apply shares_elem in Htp as [Heq _]; [|done..]. congruence. }
  induction 1 as [|u topics Hnin _ IH]; [by intros ?%not_elem_of_nil|]. rewrite bind_shares, filter_app.
  intros [->|Hin]%elem_of_cons.
  - by rewrite filter_all, Hno, app_nil_r by auto.
  - rewrite IH by done. rewrite filter_none; [done|]. eapply Forall_impl; [apply Hu|]. intros tp ->. congruence.
Qed.

(** A partition is in some member's list exactly when its topic is listed and has it. *)
Lemma rangeAssign_cover ids topics counts tp :
  NoDup ids -> ids <> [] -> counts_ok counts ->
  (tp_topic tp ∈ topics /\ 0 <= tp_partition tp < default 0 (counts !! tp_topic tp)) <->
  exists id l, rangeAssign ids topics counts !! id = Some l /\ tp ∈ l.
Proof.
  intros Hn Hne Hc. destruct (rangeAssign_lookup ids topics counts Hn Hne Hc) as [_ H2].
  assert (0 < len ids) as Hl by (destruct ids; [done|len_lia]).
  pose proof (counts_default counts (tp_topic tp) Hc) as Hd. split.
  - intros [Ht Hp]. destruct (start_cover _ (len ids) (tp_partition tp) (proj1 Hd) Hl Hp) as (i & Hi & Hs).
    destruct (lookup_lt_is_Some_2 (sort_strings ids) (Z.to_nat i)) as [id Hid].
    { unfold sort_strings. rewrite merge_sort_Permutation. unfold len in *. lia. }
    exists id. eexists. split; [by apply (H2 _ _ Hid)|]. apply shares_elem; [done|done|lia|].
    rewrite Z2Nat.id by lia. split; [by apply elem_of_sorted|done].
  - intros (id & l & Hl' & Hin). apply rangeAssign_elem in Hl' as (_ & j & Hj & Hr & ->); try done.
    apply shares_elem in Hin as [Ht Hin]; [|done|done|done]. rewrite elem_of_sorted in Ht.
    split; [done|]. cbv zeta in Hin.
    pose proof (start_bounds (default 0 (counts !! tp_topic tp)) (len ids) (Z.of_nat j) (proj1 Hd) Hl Hr). lia.
Qed.

(** [rangeAssign] divides the partitions of the subscribed topics exactly: every member has
    an entry and nobody else, a partition is in some member's list exactly when its topic is
    listed and has it, it is in one member's list only, no list has it twice, and the shares of
    each topic differ by at most one partition. *)
Theorem rangeAssign_exact ids topics counts :
  NoDup ids -> ids <> [] -> NoDup topics -> counts_ok counts ->
  let R := rangeAssign ids topics counts in
  (forall id, is_Some (R !! id) <-> id ∈ ids) /\
  (forall tp, (tp_topic tp ∈ topics /\ 0 <= tp_partition tp < default 0 (counts !! tp_topic tp)) <->
     exists id l, R !! id = Some l /\ tp ∈ l) /\
  (forall id1 id2 l1 l2 tp, R !! id1 = Some l1 -> R !! id2 = Some l2 -> tp ∈ l1 -> tp ∈ l2 -> id1 = id2) /\
  (forall id l, R !! id = Some l -> NoDup l /\ forall t, t ∈ topics ->
     let c := default 0 (counts !! t) in
     c / len ids <= len (filter (fun tp => tp_topic tp = t) l) <= c / len ids + 1).
Proof.
  intros Hnd Hne Hnt Hc. cbv zeta. destruct (rangeAssign_lookup ids topics counts Hnd Hne Hc) as [H1 H2].
  assert (0 < len ids) as Hn by (destruct ids; [done|len_lia]). split_and!.
  - intros id. split; [intros [l Hl]; by eapply rangeAssign_elem|]. intros Hin.
    destruct (sorted_lookup _ _ Hin) as (j & Hj & _). rewrite (H2 _ _ Hj). eauto.
  - intros tp. by apply rangeAssign_cover.
  - intros. by eapply (rangeAssign_disjoint ids topics counts id1 id2 l1 l2 tp).
  - intros id l Hl. apply rangeAssign_elem in Hl as (_ & j & Hj & Hr & ->); try done.
    assert (NoDup (sort_strings topics)) as Hnt' by (unfold sort_strings; by rewrite merge_sort_Permutation).
    split; [by apply shares_NoDup|]. intros t Ht. pose proof (counts_default counts t Hc) as Hd.
    rewrite shares_of_topic by (done || by apply elem_of_sorted). unfold share. rewrite len_run_of.
    pose proof (start_bounds (default 0 (counts !! t)) (len ids) (Z.of_nat j) (proj1 Hd) Hn Hr).
    pose proof (Z.div_pos (default 0 (counts !! t)) (len ids) (proj1 Hd) Hn). lia.
Qed.

Lemma sort_strings_perm l l' : l ≡ₚ l' -> sort_strings l = sort_strings l'.
Proof.
  intros P. unfold sort_strings. apply (StronglySorted_unique String.le);
    [apply StronglySorted_merge_sort; apply _..|]. by rewrite !merge_sort_Permutation.
Qed.

(** The assignment does not depend on the order in which members and topics are listed, so
    that coordinators that iterate over a Go map compute the same assignment. *)
Theorem rangeAssign_order ids ids' topics topics' counts :
  ids ≡ₚ ids' -> topics ≡ₚ topics' -> rangeAssign ids topics counts = rangeAssign ids' topics' counts.
Proof.
  intros P1 P2. unfold rangeAssign.
  assert (len ids = len ids') as -> by (unfold len; by rewrite P1).
  by rewrite (sort_strings_perm _ _ P1), (sort_strings_perm _ _ P2).
Qed.

(** Three members, two topics of five partitions and one of one. *)
Definition counts0 : gmap string Z := {[ "a" := 5; "b" := 1 ]}.

Lemma counts0_ok : counts_ok counts0.
Proof.
  intros t c H. unfold counts0 in H. apply lookup_insert_Some in H as [[_ <-]|[_ H]]; [lia|].
  apply lookup_singleton_Some in H as [_ <-]. lia.
Qed.

Lemma rangeAssign_exact_witness :
  rangeAssign ["z"; "x"; "y"] ["b"; "a"] counts0 !! "x" = Some [TP "a" 0; TP "a" 1; TP "b" 0] /\
  exists id l, rangeAssign ["z"; "x"; "y"] ["b"; "a"] counts0 !! id = Some l /\ TP "a" 4 ∈ l.
Proof.
  split; [vm_compute; reflexivity|].
  destruct (rangeAssign_exact ["z"; "x"; "y"] ["b"; "a"] counts0) as (_ & H & _);
    [apply (bool_decide_unpack _); vm_compute; exact I|done|apply (bool_decide_unpack _); vm_compute; exact I
    |exact counts0_ok|].
  apply H. split; [apply (bool_decide_unpack _); vm_compute; exact I|vm_compute; split; congruence].
Defined.

Lemma rangeAssign_order_witness :
  rangeAssign ["z"; "x"] ["b"; "a"] counts0 = rangeAssign ["x"; "z"] ["a"; "b"] counts0.
Proof. apply rangeAssign_order; apply perm_swap. Defined.

End RangeAssign.
