(* ===== verification/Prog.v ===== *)
(** * Programs that call their environment

    A coordinator call is a sequence of requests to the raft host, the clock and its own locked
    tables, with pure code between them. [prog E A] is such a call: a tree whose nodes are
    requests of the type [E] and whose branches are the possible replies. It is run in two ways:
    [run] with a handler that is a function, and [exec] against a handler that is a relation,
    with steps of other processes before every request and at the end. *)

From S2P Require Import Prelude.

Inductive prog (E : Type -> Type) (A : Type) : Type :=
| Ret (a : A)
| Vis (X : Type) (e : E X) (k : X -> prog E A).
Arguments Ret {E A} _.
Arguments Vis {E A X} _ _.

Definition trigger {E X} (e : E X) : prog E X := Vis e Ret.

#[export] Instance prog_ret {E} : MRet (prog E) := fun A a => Ret a.
#[export] Instance prog_bind {E} : MBind (prog E) := fun A B f =>
  fix bind (p : prog E A) : prog E B :=
    match p with
    | Ret a => f a
    | Vis e k => Vis e (fun x => bind (k x))
    end.

(** Call [m]; an error is wrapped and returned, a panic goes up, a value is passed on. *)
Definition call {E B C} (m : prog E (outcome B)) (wrap : error -> error) (k : B -> prog E (outcome C))
  : prog E (outcome C) :=
  o ← m;
  match o with
  | Ok b => k b
  | Err e => Ret (Err (wrap e))
  | Panic p => Ret (Panic p)
  | OutOfFuel => Ret OutOfFuel
  end.

(** ** Running *)

Fixpoint run {E W A} (h : forall X, E X -> W -> X * W) (p : prog E A) (w : W) : A * W :=
  match p with
  | Ret a => (a, w)
  | Vis e k => let '(x, w') := h _ e w in run h (k x) w'
  end.

Lemma run_bind {E W A B} (h : forall X, E X -> W -> X * W) (p : prog E A) (f : A -> prog E B) w :
  run h (p ≫= f) w = let '(a, w') := run h p w in run h (f a) w'.
Proof.
  revert w. induction p as [a|X e k IH]; intros w; cbn [run mbind prog_bind]; [done|].
  destruct (h X e w) as [x w']. apply IH.
Qed.

Lemma run_trigger {E W X} (h : forall X, E X -> W -> X * W) (e : E X) w : run h (trigger e) w = h X e w.
Proof. cbn. by destruct (h X e w). Qed.

Lemma run_call {E W B C} (h : forall X, E X -> W -> X * W) (m : prog E (outcome B)) wrap
    (k : B -> prog E (outcome C)) w :
  run h (call m wrap k) w =
  match run h m w with
  | (Ok b, w') => run h (k b) w'
  | (Err e, w') => (Err (wrap e), w')
  | (Panic p, w') => (Panic p, w')
  | (OutOfFuel, w') => (OutOfFuel, w')
  end.
Proof. unfold call. rewrite run_bind. by destruct (run h m w) as [[]]. Qed.

(** ** Executing among other processes *)

Section exec.
Context {E : Type -> Type} {W : Type}.
Variable sem : forall X, E X -> W -> X -> W -> Prop.
Variable env : W -> W -> Prop.

Fixpoint exec {A} (p : prog E A) (w w' : W) (a : A) : Prop :=
  match p with
  | Ret a' => rtc env w w' /\ a = a'
  | Vis e k => exists w1 x w2, rtc env w w1 /\ sem _ e w1 x w2 /\ exec (k x) w2 w' a
  end.

Lemma exec_bind {A B} (p : prog E A) (f : A -> prog E B) w w' b :
  exec (p ≫= f) w w' b <-> exists w1 a, exec p w w1 a /\ exec (f a) w1 w' b.
Proof.
  revert w. induction p as [a|X e k IH]; intros w; cbn [exec mbind prog_bind].
  - split; [intros H; exists w, a; split; [split; [constructor|done]|done]|].
    intros (w1 & a' & [Henv ->] & Hf). revert Henv Hf. clear. intros Henv Hf.
    destruct (f a) as [a0|X e k]; cbn [exec] in *.
    + destruct Hf as [H ->]. split; [by etrans|done].
    + destruct Hf as (w2 & x & w3 & H1 & H2 & H3). exists w2, x, w3. split; [by etrans|done].
  - split.
    + intros (w1 & x & w2 & H1 & H2 & (w3 & a & H3 & H4)%IH). exists w3, a. split; [|done]. eauto 7.
    + intros (w3 & a & (w1 & x & w2 & H1 & H2 & H3) & H4). exists w1, x, w2. split_and!; [done|done|].
      apply IH. eauto.
Qed.

(** An invariant kept by every request the program makes, whatever the replies are, and a
    property of the values it returns. *)
Variable Inv : W -> Prop.

Fixpoint safe {A} (Q : A -> Prop) (p : prog E A) : Prop :=
  match p with
  | Ret a => Q a
  | Vis e k => forall w x w', Inv w -> sem _ e w x w' -> Inv w' /\ safe Q (k x)
  end.

Lemma safe_bind {A B} (Q : A -> Prop) (R : B -> Prop) (p : prog E A) (f : A -> prog E B) :
  safe Q p -> (forall a, Q a -> safe R (f a)) -> safe R (p ≫= f).
Proof.
  intros Hp Hf. induction p as [a|X e k IH]; cbn [safe mbind prog_bind] in *; [by apply Hf|].
  intros w x w' Hw Hs. destruct (Hp _ _ _ Hw Hs) as [H1 H2]. auto.
Qed.

(** The property of the value, when a value is returned. *)
Definition on_ok {B} (Q : B -> Prop) (o : outcome B) : Prop :=
  match o with Ok b => Q b | _ => True end.

Lemma safe_call {B C} (Q : B -> Prop) (R : C -> Prop) (m : prog E (outcome B)) wrap k :
  safe (on_ok Q) m -> (forall b, Q b -> safe (on_ok R) (k b)) -> safe (on_ok R) (call m wrap k).
Proof.
  intros Hm Hk. unfold call. eapply safe_bind; [exact Hm|]. intros [b|e|q|]; cbn; auto.
Qed.

Lemma safe_exec {A} (Q : A -> Prop) (p : prog E A) w w' a :
  (forall w w', Inv w -> env w w' -> Inv w') -> safe Q p -> Inv w -> exec p w w' a -> Inv w' /\ Q a.
Proof.
  intros Henv. assert (forall w w', Inv w -> rtc env w w' -> Inv w') as Hrtc.
  { intros w0 w1 H0 H. revert H0. induction H; eauto. }
  revert w. induction p as [a0|X e k IH]; intros w Hp Hw; cbn [exec safe] in *.
  - intros [H ->]. eauto.
  - intros (w1 & x & w2 & H1 & H2 & H3). destruct (Hp _ _ _ (Hrtc _ _ Hw H1) H2) as [Hw2 Hk].
    by eapply IH.
Qed.

(** A property that every execution has at its end; what is known of the state must survive the
    steps of the others, which come before every request. *)
Fixpoint wp {A} (p : prog E A) (Q : A -> W -> Prop) (w : W) : Prop :=
  match p with
  | Ret a => forall w', rtc env w w' -> Q a w'
  | Vis e k => forall w1 x w2, rtc env w w1 -> sem _ e w1 x w2 -> wp (k x) Q w2
  end.

Lemma wp_exec {A} (p : prog E A) (Q : A -> W -> Prop) w w' a : wp p Q w -> exec p w w' a -> Q a w'.
Proof.
  revert w. induction p as [a0|X e k IH]; intros w; cbn [wp exec].
  - intros H [H1 ->]. auto.
  - intros H (w1 & x & w2 & H1 & H2 & H3). eapply IH; [|exact H3]. eauto.
Qed.

Lemma wp_bind {A B} (p : prog E A) (f : A -> prog E B) Q w :
  wp p (fun a w' => wp (f a) Q w') w -> wp (p ≫= f) Q w.
Proof.
  revert w. induction p as [a|X e k IH]; intros w; cbn [wp mbind prog_bind]; [intros H; apply H; constructor|].
  intros H w1 x w2 H1 H2. apply IH. eauto.
Qed.

Lemma wp_mono {A} (p : prog E A) (Q R : A -> W -> Prop) w :
  (forall a w', Q a w' -> R a w') -> wp p Q w -> wp p R w.
Proof. intros HQ. revert w. induction p as [a|X e k IH]; intros w; cbn [wp]; eauto. Qed.

Lemma wp_call {B C} (m : prog E (outcome B)) wrap (k : B -> prog E (outcome C)) Q w :
  wp m (fun o w' => match o with
                    | Ok b => wp (k b) Q w'
                    | Err e => wp (Ret (Err (wrap e))) Q w'
                    | Panic p => wp (Ret (Panic p)) Q w'
                    | OutOfFuel => wp (Ret OutOfFuel) Q w'
                    end) w ->
  wp (call m wrap k) Q w.
Proof. intros H. apply wp_bind. eapply wp_mono; [|exact H]. intros [] w'; auto. Qed.

Lemma safe_wp {A} (Q : A -> Prop) (p : prog E A) w :
  (forall w w', Inv w -> env w w' -> Inv w') -> safe Q p -> Inv w -> wp p (fun a w' => Inv w' /\ Q a) w.
Proof.
  intros Henv. assert (forall w w', Inv w -> rtc env w w' -> Inv w') as Hrtc.
  { intros w0 w1 H0 H. revert H0. induction H; eauto. }
  revert w. induction p as [a|X e k IH]; intros w Hp Hw; cbn [wp safe] in *; [eauto|].
  intros w1 x w2 H1 H2. destruct (Hp _ _ _ (Hrtc _ _ Hw H1) H2). auto.
Qed.
End exec.

(** A handler that agrees with the relation gives one of its executions. *)
Lemma run_exec {E W A} (h : forall X, E X -> W -> X * W) (sem : forall X, E X -> W -> X -> W -> Prop) env
    (p : prog E A) w :
  (forall X (e : E X) w, sem X e w (h X e w).1 (h X e w).2) ->
  exec sem env p w (run h p w).2 (run h p w).1.
Proof.
  intros Hh. revert w. induction p as [a|X e k IH]; intros w; cbn [run exec]; [split; [constructor|done]|].
  pose proof (Hh X e w) as H. destruct (h X e w) as [x w'] eqn:Eh. cbn in H.
  exists w, x, w'. split_and!; [constructor|done|apply IH].
Qed.

(** ** Two threads

    Two programs on a shared state, one request at a time: the schedule says whose turn it is. *)
Fixpoint interleave {E W A B} (h : forall X, E X -> W -> X * W) (sched : list bool) (p : prog E A) (q : prog E B) (w : W)
  : prog E A * prog E B * W :=
  match sched with
  | [] => (p, q, w)
  | true :: s =>
      match p with
      | Ret _ => interleave h s p q w
      | Vis e k => let '(x, w') := h _ e w in interleave h s (k x) q w'
      end
  | false :: s =>
      match q with
      | Ret _ => interleave h s p q w
      | Vis e k => let '(x, w') := h _ e w in interleave h s p (k x) w'
      end
  end.

(** One thread after the other is one of the schedules. *)
Lemma interleave_first {E W A B} (h : forall X, E X -> W -> X * W) (p : prog E A) (q : prog E B) w :
  exists n, interleave h (replicate n true) p q w = (Ret (run h p w).1, q, (run h p w).2).
Proof.
  revert w. induction p as [a|X e k IH]; intros w; cbn [run]; [by exists 0%nat|].
  destruct (h X e w) as [x w'] eqn:E'. destruct (IH x w') as [n Hn]. exists (S n). cbn. by rewrite E'.
Qed.

(** ** Paths: the requests a program makes and the replies it gets *)

Record obs (E : Type -> Type) := Obs { ob_type : Type; ob_request : E ob_type; ob_reply : ob_type }.
Arguments Obs {E ob_type} _ _.
Arguments ob_type {E} _.
Arguments ob_request {E} _.
Arguments ob_reply {E} _.

Section path.
Context {E : Type -> Type}.
(** The replies a request can get. *)
Variable answers : forall X, E X -> X -> Prop.

Fixpoint path {A} (p : prog E A) (t : list (obs E)) (a : A) : Prop :=
  match p with
  | Ret a' => t = [] /\ a = a'
  | Vis e k => exists x t', answers _ e x /\ t = Obs e x :: t' /\ path (k x) t' a
  end.

Lemma path_bind {A B} (p : prog E A) (f : A -> prog E B) t b :
  path (p ≫= f) t b <-> exists t1 t2 a, t = t1 ++ t2 /\ path p t1 a /\ path (f a) t2 b.
Proof.
  revert t. induction p as [a|X e k IH]; intros t; cbn [path mbind prog_bind].
  - split; [intros H; exists [], t, a; done|]. by intros (t1 & t2 & a' & -> & [-> ->] & H).
  - split.
    + intros (x & t' & Hx & -> & (t1 & t2 & a & -> & H1 & H2)%IH). exists (Obs e x :: t1), t2, a. split; [done|]. eauto 8.
    + intros (t1 & t2 & a & -> & (x & t' & Hx & -> & H1) & H2). exists x, (t' ++ t2). split; [done|]. split; [done|].
      apply IH. eauto 6.
Qed.

Lemma path_trigger {X} (e : E X) t x : path (trigger e) t x <-> t = [Obs e x] /\ answers _ e x.
Proof. cbn. split; [by intros (? & ? & ? & -> & -> & ->)|intros [-> ?]; eauto 6]. Qed.

(** A property of the values a program returns, whatever the replies are, when it makes only
    requests of a kind. *)
Variable kind : forall X, E X -> Prop.

Fixpoint only {A} (Q : A -> Prop) (p : prog E A) : Prop :=
  match p with
  | Ret a => Q a
  | Vis e k => kind _ e /\ forall x, answers _ e x -> only Q (k x)
  end.

Lemma only_bind {A B} (Q : A -> Prop) (R : B -> Prop) (p : prog E A) (f : A -> prog E B) :
  only Q p -> (forall a, Q a -> only R (f a)) -> only R (p ≫= f).
Proof.
  intros Hp Hf. induction p as [a|X e k IH]; cbn [only mbind prog_bind] in *; [by apply Hf|].
  destruct Hp as [He Hk]. split; [done|]. auto.
Qed.

Lemma only_path {A} (Q : A -> Prop) (p : prog E A) t a :
  only Q p -> path p t a -> Forall (fun o => kind _ (ob_request o)) t /\ Q a.
Proof.
  revert t. induction p as [a'|X e k IH]; intros t; cbn [only path]; [by intros ? [-> ->]|].
  intros [He Hk] (x & t' & Hx & -> & Ht). destruct (IH x t' (Hk x Hx) Ht). split; [|done]. by constructor.
Qed.
End path.

(** Running with a handler follows a path. *)
Lemma run_path {E W A} (answers : forall X, E X -> X -> Prop) (h : forall X, E X -> W -> X * W) (p : prog E A) w :
  (forall X (e : E X) w, answers X e (h X e w).1) -> exists t, path answers p t (run h p w).1.
Proof.
  intros Hh. revert w. induction p as [a|X e k IH]; intros w; cbn [run path]; [by exists []|].
  pose proof (Hh X e w) as Hx. destruct (h X e w) as [x w']. destruct (IH x w') as [t Ht]. exists (Obs e x :: t). eauto.
Qed.

(** ** One interface on top of another *)

(** A program whose requests are programs of another interface. *)
Fixpoint interp {E F A} (f : forall X, E X -> prog F X) (p : prog E A) : prog F A :=
  match p with
  | Ret a => Ret a
  | Vis e k => x ← f _ e; interp f (k x)
  end.

(** [P] holds of each request that a run makes. *)
Fixpoint run_all {E W A} (P : forall X, E X -> W -> Prop) (h : forall X, E X -> W -> X * W) (p : prog E A) (w : W) : Prop :=
  match p with
  | Ret _ => True
  | Vis e k => P _ e w /\ run_all P h (k (h _ e w).1) (h _ e w).2
  end.

(** If the programs do what the requests are meant to do, the whole program does; [R] relates
    the worlds. *)
Lemma run_interp_rel {E F W V A} (R : W -> V -> Prop) (P : forall X, E X -> V -> Prop) (f : forall X, E X -> prog F X)
    (h : forall X, E X -> V -> X * V) (g : forall X, F X -> W -> X * W) (p : prog E A) w v :
  (forall X (e : E X) w v, R w v -> P X e v -> (run g (f X e) w).1 = (h X e v).1 /\ R (run g (f X e) w).2 (h X e v).2) ->
  R w v -> run_all P h p v ->
  (run g (interp f p) w).1 = (run h p v).1 /\ R (run g (interp f p) w).2 (run h p v).2.
Proof.
  intros Hf. revert w v. induction p as [a|X e k IH]; intros w v HR Hp; cbn [interp run run_all] in *; [done|].
  destruct Hp as [He Hp]. rewrite run_bind. destruct (Hf X e w v HR He) as [Hx Hw].
  destruct (run g (f X e) w) as [x w'], (h X e v) as [y v']. cbn in *. subst y. by apply IH.
Qed.

Lemma run_interp {E F W A} (P : forall X, E X -> W -> Prop) (f : forall X, E X -> prog F X)
    (h : forall X, E X -> W -> X * W) (g : forall X, F X -> W -> X * W) (p : prog E A) w :
  (forall X (e : E X) w, P X e w -> run g (f X e) w = h X e w) -> run_all P h p w -> run g (interp f p) w = run h p w.
Proof.
  intros Hf Hp. destruct (run_interp_rel eq P f h g p w w) as [H1 H2]; [|done|done|by apply injective_projections].
  intros X e w1 w2 -> He. by rewrite Hf.
Qed.
