(* ===== verification/GroupCoord.v ===== *)
(** * The consumer group coordinator

    internal/coordinator/group/groupcoord.go: joining and leaving a group, committing and
    fetching offsets, heartbeats and the session timeout sweep, as programs over the raft host
    ([SyncProposeMetadata], [LookupMetadata], [GetLeaderID]), the clock, uuids and the locked
    heartbeat table. Times are in nanoseconds.

    [LookupMetadata] hands out a group whose members map is the state machine's own. [JoinGroup],
    [LeaveGroup], [CommitOffset] and the others read that map without a lock, a data race when a
    command is applied at that moment; here they read it as it was at the lookup. The sweep, which
    keeps reading it between its own proposals, looks it up again each time. *)

From S2P Require Import Prelude SegName Keys Metadata RangeAssign Prog.
Local Open Scope Z_scope.

Module GroupCoord.
Import Metadata RangeAssign.

Definition sNotGroupMember : sentinel := Sentinel "group" "ErrNotGroupMember".
Definition sNotFound : sentinel := Sentinel "group" "ErrNotFound".
Definition sInvalidArgument : sentinel := Sentinel "group" "ErrInvalidArgument".
Definition sStaleGeneration : sentinel := Sentinel "group" "ErrStaleGeneration".
Definition ErrNotGroupMember : error := ErrSentinel sNotGroupMember.
Definition ErrGroupNotFound : error := ErrSentinel sNotFound.
Definition ErrInvalidArgument : error := ErrSentinel sInvalidArgument.
Definition ErrStaleGeneration : error := ErrSentinel sStaleGeneration.

Record GroupCoordinatorConfig := {
  MetadataShardID : Z;
  ThisNodeID : Z;
  SessionTimeoutMinMs : Z;
  SessionTimeoutMaxMs : Z;
  SweepIntervalMs : Z
}.

Record JoinGroupRequest := {
  jq_GroupID : string;
  jq_MemberID : string;
  jq_Topics : list string;
  jq_SessionTimeoutMs : Z;
  jq_HeartbeatIntervalMs : Z
}.

Record JoinGroupResponse := {
  jp_MemberID : string;
  jp_GenerationID : Z;
  jp_Assignments : list TopicPartition
}.

(** The defaults of [NewGroupCoordinator]. *)
Definition NewGroupCoordinator (c : GroupCoordinatorConfig) : GroupCoordinatorConfig :=
  {| MetadataShardID := MetadataShardID c; ThisNodeID := ThisNodeID c;
     SessionTimeoutMinMs := if SessionTimeoutMinMs c =? 0 then 1000 else SessionTimeoutMinMs c;
     SessionTimeoutMaxMs := if SessionTimeoutMaxMs c =? 0 then 300000 else SessionTimeoutMaxMs c;
     SweepIntervalMs := if SweepIntervalMs c =? 0 then 5000 else SweepIntervalMs c |}.

(** [lastHeartbeat]: group, member, time of the last heartbeat. *)
Abbreviation heartbeats := (gmap string (gmap string Z)).

Definition touch (group member : string) (now : Z) (t : heartbeats) : heartbeats :=
  <[group := <[member := now]> (default ∅ (t !! group))]> t.
Definition forget (group member : string) (t : heartbeats) : heartbeats :=
  match t !! group with Some m => <[group := delete member m]> t | None => t end.

(** ** Requests *)

Inductive groupE : Type -> Type :=
| ELookup (q : MetadataQuery) : groupE (outcome answer)
| EPropose (cmd : MetadataCommand) : groupE (outcome Result)
| ELeader (shard : Z) : groupE (outcome (Z * Z * bool))
| ENow : groupE Z
| EUuid : groupE string
| EOrder (keys : list string) : groupE (list string)
    (** the order in which Go iterates over a map with these keys *)
| EMembers (group : string) : groupE (gmap string MemberState)
    (** the members map of a group that an earlier lookup returned: [Lookup] copies the
        [GroupState] but not the map, which stays the one the state machine updates *)
| EHeartbeats : groupE heartbeats
| EUpdateHeartbeats (f : heartbeats -> heartbeats) : groupE unit.

Abbreviation gprog := (prog groupE).

(** What the raft log keeps of a command: [SyncProposeMetadata] writes JSON, which leaves out
    maps that are empty and marked [omitempty]. *)
Definition omitempty {K A} `{Countable K} (m : option (gmap K A)) : option (gmap K A) :=
  match m with Some m => if decide (m = ∅) then None else Some m | None => None end.

Definition wire (cmd : MetadataCommand) : MetadataCommand :=
  match cmd with
  | CmdJoinConsumerGroup (Some c) => CmdJoinConsumerGroup (Some
      {| jc_GroupID := jc_GroupID c; jc_MemberID := jc_MemberID c; jc_ClientHost := jc_ClientHost c;
         jc_SubscribedTopics := jc_SubscribedTopics c; jc_JoinedAtMs := jc_JoinedAtMs c;
         jc_Member := jc_Member c; jc_NewAssignment := omitempty (jc_NewAssignment c) |})
  | CmdLeaveConsumerGroup (Some c) => CmdLeaveConsumerGroup (Some
      {| lc_GroupID := lc_GroupID c; lc_MemberID := lc_MemberID c; lc_Reason := lc_Reason c;
         lc_NewAssignment := omitempty (lc_NewAssignment c) |})
  | CmdCommitConsumerOffset (Some c) => CmdCommitConsumerOffset (Some
      {| cc_GroupID := cc_GroupID c; cc_Offsets := cc_Offsets c;
         cc_GroupOffsets := omitempty (cc_GroupOffsets c) |})
  | _ => cmd
  end.

Definition type_assertion : panic := PanicMsg "interface conversion".

(** [LookupMetadata] of a group state and its type assertion. *)
Definition lookup_group (group : string) (wrap : error -> error)
    {B} (k : option GroupState -> gprog (outcome B)) : gprog (outcome B) :=
  call (trigger (ELookup (QueryGetGroupState group))) wrap (fun a =>
    match a with AGroupState g => k g | _ => Ret (Panic type_assertion) end).

(** ** Helpers *)

Definition topicSetsEqual (a b : list string) : bool :=
  if negb (len a =? len b) then false
  else bool_decide (sort_strings a = sort_strings b).

(** The partition counts of [JoinGroup]: an unknown topic is an error. *)
Fixpoint topic_counts (topics : list string) (counts : gmap string Z) : gprog (outcome (gmap string Z)) :=
  match topics with
  | [] => Ret (Ok counts)
  | topic :: topics' =>
      call (trigger (ELookup (QueryGetTopic topic)))
        (fun e => if errors_is e sErrNotFound then ErrWrap "topic" ErrGroupNotFound else ErrWrap "lookup topic" e)
        (fun a => match a with
                  | ATopic tm => topic_counts topics' (<[topic := PartitionCount tm]> counts)
                  | _ => Ret (Panic type_assertion)
                  end)
  end.

(** The partition counts of [LeaveGroup] and [sweepOnce]: an unknown topic is left out; [strict]
    is [LeaveGroup], which returns the other errors. *)
Fixpoint known_counts (strict : bool) (topics : list string) (counts : gmap string Z)
  : gprog (outcome (gmap string Z)) :=
  match topics with
  | [] => Ret (Ok counts)
  | topic :: topics' =>
      r ← trigger (ELookup (QueryGetTopic topic));
      match r with
      | Ok (ATopic tm) => known_counts strict topics' (<[topic := PartitionCount tm]> counts)
      | Ok _ => Ret (Panic type_assertion)
      | Err e =>
          if negb strict || errors_is e sErrNotFound then known_counts strict topics' counts
          else Ret (Err (ErrWrap "lookup topic" e))
      | Panic p => Ret (Panic p)
      | OutOfFuel => Ret OutOfFuel
      end
  end.

(** ** Calls *)

Definition JoinGroup (config : GroupCoordinatorConfig) (req : JoinGroupRequest) : gprog (outcome JoinGroupResponse) :=
  if (jq_SessionTimeoutMs req <? SessionTimeoutMinMs config) || (jq_SessionTimeoutMs req >? SessionTimeoutMaxMs config)
  then Ret (Err (ErrWrap "session_timeout_ms out of range" ErrInvalidArgument)) else
  call (topic_counts (jq_Topics req) ∅) id (fun partitionCounts =>
  lookup_group (jq_GroupID req) (ErrWrap "lookup group") (fun currentGroup =>
  let members := match currentGroup with Some g => Members g | None => ∅ end in
  keys ← trigger (EOrder (map_to_list members).*1);
  let mixed := match keys with
               | [] => false
               | id :: _ => match members !! id with
                            | Some ms => negb (topicSetsEqual (SubscribedTopics ms) (jq_Topics req))
                            | None => false
                            end
               end in
  if mixed then Ret (Err (ErrWrap "mixed topic subscriptions" ErrInvalidArgument)) else
  memberID ← (if String.eqb (jq_MemberID req) "" then trigger EUuid else Ret (jq_MemberID req));
  others ← trigger (EOrder (filter (fun id => id <> memberID) (map_to_list members).*1));
  let newAssignment := rangeAssign (memberID :: others) (jq_Topics req) partitionCounts in
  now ← trigger ENow;
  let member := {| MemberID := memberID; SubscribedTopics := jq_Topics req;
                   SessionTimeoutMs := jq_SessionTimeoutMs req;
                   HeartbeatIntervalMs := jq_HeartbeatIntervalMs req; JoinedAt := now |} in
  call (trigger (EPropose (CmdJoinConsumerGroup (Some
          {| jc_GroupID := jq_GroupID req; jc_MemberID := memberID; jc_ClientHost := "";
             jc_SubscribedTopics := []; jc_JoinedAtMs := 0; jc_Member := Some member;
             jc_NewAssignment := Some newAssignment |})))) (ErrWrap "propose join") (fun _ =>
  lookup_group (jq_GroupID req) (ErrWrap "lookup group after join") (fun updated =>
  match updated with
  | None => Ret (Panic type_assertion)
  | Some updatedGroup =>
      now' ← trigger ENow;
      _ ← trigger (EUpdateHeartbeats (touch (jq_GroupID req) memberID now'));
      Ret (Ok {| jp_MemberID := memberID; jp_GenerationID := GenerationID updatedGroup;
                 jp_Assignments := default [] (Assignments updatedGroup !! memberID) |})
  end)))).

Definition leave_cmd (group member reason : string) (assignment : gmap string (list TopicPartition)) : MetadataCommand :=
  CmdLeaveConsumerGroup (Some
    {| lc_GroupID := group; lc_MemberID := member; lc_Reason := reason; lc_NewAssignment := Some assignment |}).

Definition LeaveGroup (groupID memberID : string) : gprog (outcome unit) :=
  lookup_group groupID (ErrWrap "lookup group") (fun groupRaw =>
  match groupRaw with
  | None => Ret (Err ErrNotGroupMember)
  | Some currentGroup =>
      match Members currentGroup !! memberID with
      | None => Ret (Err ErrNotGroupMember)
      | Some ms =>
          newMemberIDs ← trigger (EOrder (filter (fun id => id <> memberID) (map_to_list (Members currentGroup)).*1));
          call (known_counts true (SubscribedTopics ms) ∅) id (fun partitionCounts =>
          let newAssignment := rangeAssign newMemberIDs (SubscribedTopics ms) partitionCounts in
          call (trigger (EPropose (leave_cmd groupID memberID "voluntary" newAssignment))) (ErrWrap "propose leave") (fun _ =>
          _ ← trigger (EUpdateHeartbeats (forget groupID memberID));
          Ret (Ok tt)))
      end
  end).

Definition commit_cmd (group : string) (offsets : gmap TopicPartition Z) : MetadataCommand :=
  CmdCommitConsumerOffset (Some {| cc_GroupID := group; cc_Offsets := []; cc_GroupOffsets := Some offsets |}).

Definition CommitOffset (groupID memberID : string) (generationID : Z) (offsets : gmap TopicPartition Z)
  : gprog (outcome unit) :=
  lookup_group groupID (ErrWrap "lookup group") (fun raw =>
  match raw with
  | None => Ret (Err ErrNotGroupMember)
  | Some group =>
      match Members group !! memberID with
      | None => Ret (Err ErrNotGroupMember)
      | Some _ =>
          if negb (generationID =? GenerationID group) then Ret (Err (ErrWrap "generation" ErrStaleGeneration)) else
          let assigned := default [] (Assignments group !! memberID) in
          if negb (bool_decide (Forall (fun tp => tp ∈ assigned) (map_to_list offsets).*1)) then
            Ret (Err (ErrWrap "partition not assigned" ErrInvalidArgument))
          else
            call (trigger (EPropose (commit_cmd groupID offsets))) (ErrWrap "propose commit offset")
              (fun _ => Ret (Ok tt))
      end
  end).

(** The result's type is checked with the two-value assertion: another type gives a nil map. *)
Definition FetchCommittedOffsets (groupID : string) (partitions : list TopicPartition)
  : gprog (outcome (gmap TopicPartition Z)) :=
  call (trigger (ELookup (QueryGetGroupOffsets groupID partitions))) (ErrWrap "lookup group offsets") (fun raw =>
    Ret (Ok match raw with AGroupOffsets m => m | _ => ∅ end)).

Definition Heartbeat (groupID memberID : string) (generationID : Z) : gprog (outcome bool) :=
  lookup_group groupID (ErrWrap "lookup group") (fun raw =>
  match raw with
  | None => Ret (Err ErrNotGroupMember)
  | Some group =>
      match Members group !! memberID with
      | None => Ret (Err ErrNotGroupMember)
      | Some _ =>
          now ← trigger ENow;
          _ ← trigger (EUpdateHeartbeats (touch groupID memberID now));
          Ret (Ok (GenerationID group >? generationID))
      end
  end).

(** One group of [RebuildHeartbeatTable]: its entry is made even when it has no members. *)
Definition seed_group (now : Z) (group : string) (g : GroupState) (t : heartbeats) : heartbeats :=
  <[group := fold_left (fun m id => <[id := now]> m) (map_to_list (Members g)).*1 (default ∅ (t !! group))]> t.

Definition RebuildHeartbeatTable : gprog unit :=
  raw ← trigger (ELookup QueryGetAllGroupStates);
  match raw with
  | Ok (AGroupStates groups) =>
      now ← trigger ENow;
      trigger (EUpdateHeartbeats (fun t =>
        fold_left (fun t gs => seed_group now gs.1 gs.2 t) (map_to_list groups) t))
  | _ => Ret tt
  end.

(** ** The session timeout sweep *)

Definition expired (now last : Z) (ms : MemberState) : bool :=
  negb (now - last <=? SessionTimeoutMs ms * 10 ^ 6).

(** One iteration for a member that the iteration over the members map produced. *)
Definition sweep_member (now : Z) (groupID memberID : string) (ms : MemberState) : gprog (outcome unit) :=
  table ← trigger EHeartbeats;
  match table !! groupID ≫= (fun m => m !! memberID) with
  | None => Ret (Ok tt)
  | Some lastHB =>
      if negb (expired now lastHB ms) then Ret (Ok tt) else
      members ← trigger (EMembers groupID);
      remainingMembers ← trigger (EOrder (filter (fun id => id <> memberID) (map_to_list members).*1));
      call (known_counts false (SubscribedTopics ms) ∅) id (fun partitionCounts =>
      let newAssignment := rangeAssign remainingMembers (SubscribedTopics ms) partitionCounts in
      r ← trigger (EPropose (leave_cmd groupID memberID "timeout" newAssignment));
      match r with
      | Ok _ => _ ← trigger (EUpdateHeartbeats (forget groupID memberID)); Ret (Ok tt)
      | Err _ => Ret (Ok tt)
      | Panic p => Ret (Panic p)
      | OutOfFuel => Ret OutOfFuel
      end)
  end.

(** The iteration over the members of a group: an entry that was removed from the map since is
    not produced. *)
Fixpoint sweep_members (now : Z) (groupID : string) (ids : list string) : gprog (outcome unit) :=
  match ids with
  | [] => Ret (Ok tt)
  | memberID :: ids' =>
      members ← trigger (EMembers groupID);
      match members !! memberID with
      | None => sweep_members now groupID ids'
      | Some ms => call (sweep_member now groupID memberID ms) id (fun _ => sweep_members now groupID ids')
      end
  end.

Fixpoint sweep_groups (now : Z) (groups : list string) : gprog (outcome unit) :=
  match groups with
  | [] => Ret (Ok tt)
  | groupID :: groups' =>
      members ← trigger (EMembers groupID);
      ids ← trigger (EOrder (map_to_list members).*1);
      call (sweep_members now groupID ids) id (fun _ => sweep_groups now groups')
  end.

Definition sweepOnce (config : GroupCoordinatorConfig) : gprog (outcome unit) :=
  l ← trigger (ELeader (MetadataShardID config));
  match l with
  | Ok (leaderID, _, true) =>
      if negb (leaderID =? ThisNodeID config) then Ret (Ok tt) else
      raw ← trigger (ELookup QueryGetAllGroupStates);
      match raw with
      | Ok (AGroupStates groups) =>
          now ← trigger ENow;
          gids ← trigger (EOrder (map_to_list groups).*1);
          sweep_groups now gids
      | _ => Ret (Ok tt)
      end
  | _ => Ret (Ok tt)
  end.

End GroupCoord.
