(* ===== verification/Base64.v ===== *)
(** * Bytes in JSON

    encoding/json writes a byte slice as its base64 text, and nil as null. [decode] reads what
    [encode] writes (line breaks, which Go's decoder skips, do not occur). *)

From Stdlib Require Import Ascii.
From S2P Require Import Prelude Json.
Local Open Scope Z_scope.

Module Base64.
Import Json.

(** ** The alphabet *)

Definition char (n : Z) : ascii :=
  ascii_of_N (Z.to_N (if n <? 26 then 65 + n else if n <? 52 then 71 + n else if n <? 62 then n - 4 else if n =? 62 then 43 else 47)).
Definition value (c : ascii) : option Z :=
  if within 65 90 c then Some (code c - 65) else
  if within 97 122 c then Some (code c - 71) else
  if within 48 57 c then Some (code c + 4) else
  if code c =? 43 then Some 62 else
  if code c =? 47 then Some 63 else None.
Definition pad : ascii := "="%char.

Lemma value_char n : 0 <= n < 64 -> value (char n) = Some n /\ char n <> pad.
Proof.
  intros Hn. assert (forallb (fun n => bool_decide (value (char n) = Some n) && negb (Ascii.eqb (char n) pad)) (seqZ 0 64) = true) as HF
    by (vm_compute; reflexivity).
  rewrite forallb_forall in HF. specialize (HF n). rewrite <- list_elem_of_In, elem_of_seqZ in HF.
  apply HF, andb_true_iff in Hn as [Hv Hp]. split; [by apply bool_decide_eq_true in Hv|].
  by apply Ascii.eqb_neq, negb_true_iff.
Qed.

(** ** Groups of three bytes *)

Definition text4 (a b c d : ascii) (s : string) : string := String a (String b (String c (String d s))).

Fixpoint encode (l : list byte) : string :=
  match l with
  | [] => EmptyString
  | [a] => let a := byte.unsigned a in text4 (char (a / 4)) (char (a mod 4 * 16)) pad pad EmptyString
  | [a; b] =>
      let a := byte.unsigned a in let b := byte.unsigned b in
      text4 (char (a / 4)) (char (a mod 4 * 16 + b / 16)) (char (b mod 16 * 4)) pad EmptyString
  | a :: b :: c :: l' =>
      let a := byte.unsigned a in let b := byte.unsigned b in let c := byte.unsigned c in
      text4 (char (a / 4)) (char (a mod 4 * 16 + b / 16)) (char (b mod 16 * 4 + c / 64)) (char (c mod 64)) (encode l')
  end.

Fixpoint decode (s : string) : option (list byte) :=
  match s with
  | EmptyString => Some []
  | String c0 (String c1 (String c2 (String c3 s'))) =>
      x0 ← value c0; x1 ← value c1;
      if Ascii.eqb c3 pad then
        match s' with
        | EmptyString =>
            if Ascii.eqb c2 pad then Some [byte.of_Z (x0 * 4 + x1 / 16)] else
            x2 ← value c2; Some [byte.of_Z (x0 * 4 + x1 / 16); byte.of_Z (x1 mod 16 * 16 + x2 / 4)]
        | _ => None
        end
      else
        x2 ← value c2; x3 ← value c3; l ← decode s';
        Some (byte.of_Z (x0 * 4 + x1 / 16) :: byte.of_Z (x1 mod 16 * 16 + x2 / 4) :: byte.of_Z (x2 mod 4 * 64 + x3) :: l)
  | _ => None
  end.

#[local] Ltac div_lia := Z.to_euclidean_division_equations; lia.

Lemma of_unsigned z b : z = byte.unsigned b -> byte.of_Z z = b.
Proof. intros ->. apply byte.of_Z_unsigned. Qed.

Lemma list_ind3 {A} (P : list A -> Prop) :
  P [] -> (forall a, P [a]) -> (forall a b, P [a; b]) -> (forall a b c l, P l -> P (a :: b :: c :: l)) -> forall l, P l.
Proof.
  intros H0 H1 H2 H3. fix IH 1. intros [|a [|b [|c l]]]; [done|apply H1|apply H2|]. apply H3, IH.
Qed.

Lemma base64_decode_encode l : decode (encode l) = Some l.
Proof.
  induction l as [|a|a b|a b c l IH] using list_ind3; [done|..]; cbn [encode decode text4].
  - pose proof (byte.unsigned_range a). destruct (value_char (byte.unsigned a / 4) ltac:(div_lia)) as [-> _].
    destruct (value_char (byte.unsigned a mod 4 * 16) ltac:(div_lia)) as [-> _]. cbn. do 2 f_equal. apply of_unsigned. div_lia.
  - pose proof (byte.unsigned_range a). pose proof (byte.unsigned_range b).
    destruct (value_char (byte.unsigned a / 4) ltac:(div_lia)) as [-> _].
    destruct (value_char (byte.unsigned a mod 4 * 16 + byte.unsigned b / 16) ltac:(div_lia)) as [-> _].
    destruct (value_char (byte.unsigned b mod 16 * 4) ltac:(div_lia)) as [-> Hp]. cbn [mbind option_bind].
    rewrite Ascii.eqb_refl, (proj2 (Ascii.eqb_neq _ _) Hp). cbn [mbind option_bind].
    repeat f_equal; apply of_unsigned; div_lia.
  - pose proof (byte.unsigned_range a). pose proof (byte.unsigned_range b). pose proof (byte.unsigned_range c).
    destruct (value_char (byte.unsigned a / 4) ltac:(div_lia)) as [-> _].
    destruct (value_char (byte.unsigned a mod 4 * 16 + byte.unsigned b / 16) ltac:(div_lia)) as [-> _].
    destruct (value_char (byte.unsigned b mod 16 * 4 + byte.unsigned c / 64) ltac:(div_lia)) as [-> _].
    destruct (value_char (byte.unsigned c mod 64) ltac:(div_lia)) as [-> Hp]. cbn [mbind option_bind].
    rewrite (proj2 (Ascii.eqb_neq _ _) Hp), IH. cbn [mbind option_bind].
    repeat f_equal; apply of_unsigned; div_lia.
Qed.

(** ** Codecs *)

(** A slice that is not nil. *)
Definition c_bytes : codec (list byte).
Proof.
  refine {| enc := fun l => JStr (encode l); zero := []; fits := fun _ => True; norm := id;
    dec := fun v => match v with JStr s => decode s | JNull => Some [] | _ => None end |}.
  intros l _. apply base64_decode_encode.
Defined.

(** A slice that may be nil. *)
Definition c_nil_bytes : codec (option (list byte)).
Proof.
  refine {| enc := fun o => match o with Some l => JStr (encode l) | None => JNull end; zero := None; fits := fun _ => True; norm := id;
    dec := fun v => match v with JStr s => Some <$> decode s | JNull => Some None | _ => None end |}.
  intros [l|] _; [|done]. by rewrite base64_decode_encode.
Defined.

Lemma plain_bytes : plain c_bytes. Proof. done. Qed.
Lemma plain_nil_bytes : plain c_nil_bytes. Proof. done. Qed.
#[export] Hint Resolve plain_bytes plain_nil_bytes : plain.

End Base64.
