(* ===== verification/MetaJson.v ===== *)
(** * The metadata on the wire and in snapshots

    internal/metadata/types.go: the JSON of the state and of the commands, by the struct tags.
    A command that is proposed comes out of the log as [wire] says ([command_decodes]), and a
    state that is saved is restored ([snapshot_restores]). *)

From S2P Require Import Prelude SegName Keys Json Metadata GroupCoord.
Local Open Scope Z_scope.

Module MetaJson.
Import Metadata Json.

(** ** Keys *)

Definition k_PartitionKey : key_codec PartitionKey.
Proof.
  refine (k_text PartitionKey_MarshalText PartitionKey_UnmarshalText (fun k => in_i32 (pk_partition k)) _).
  intros [t i] Hi. by apply UnmarshalText_MarshalText.
Defined.
Definition k_TopicPartition : key_codec TopicPartition.
Proof.
  refine (k_text TopicPartition_MarshalText TopicPartition_UnmarshalText (fun k => in_i32 (tp_partition k)) _).
  intros [t i] Hi. by apply UnmarshalText_MarshalText.
Defined.
(** Both types marshal to text also where they are values. *)
Definition c_PartitionKey : codec PartitionKey := c_text k_PartitionKey (PKey "" 0).
Definition c_TopicPartition : codec TopicPartition := c_text k_TopicPartition (TP "" 0).

(** ** State *)

Definition c_TopicMeta : codec TopicMeta :=
  c_struct (fun r => (Name r, (PartitionCount r, (ReplicationFactor r, (RetentionMs r, (RetentionBytes r, (CreatedAtMs r, tt)))))))
    (fun '(a, (b, (c, (d, (e, (f, _)))))) => {| Name := a; PartitionCount := b; ReplicationFactor := c; RetentionMs := d;
       RetentionBytes := e; CreatedAtMs := f |})
    (field "name" c_string (field "partition_count" c_i32 (field "replication_factor" c_i32 (field "retention_ms" c_i64
      (field "retention_bytes" c_i64 (field "created_at_ms" c_i64 no_fields eq_refl) eq_refl) eq_refl) eq_refl) eq_refl) eq_refl).

Definition c_PartitionMeta : codec PartitionMeta :=
  c_struct (fun r => (pTopic r, (pPartitionID r, (ShardID r, (ReplicaNodeIDs r, (LeaderNodeID r, (LeaderEpoch r, tt)))))))
    (fun '(a, (b, (c, (d, (e, (f, _)))))) => {| pTopic := a; pPartitionID := b; ShardID := c; ReplicaNodeIDs := d;
       LeaderNodeID := e; LeaderEpoch := f |})
    (field "topic" c_string (field "partition_id" c_i32 (field "shard_id" c_u64 (field "replica_node_ids" (c_list c_u64)
      (field "leader_node_id" c_u64 (field "leader_epoch" c_i64 no_fields eq_refl) eq_refl) eq_refl) eq_refl) eq_refl) eq_refl).

Definition c_NodeInfo : codec NodeInfo :=
  c_struct (fun r => (NodeID r, (Address r, tt))) (fun '(a, (b, _)) => {| NodeID := a; Address := b |})
    (field "node_id" c_u64 (field "address" c_string no_fields eq_refl) eq_refl).

Definition c_MemberInfo : codec MemberInfo :=
  c_struct (fun r => (mMemberID r, (ClientHost r, (mSubscribedTopics r, (AssignedPartitions r, (LastHeartbeatMs r, tt))))))
    (fun '(a, (b, (c, (d, (e, _))))) => {| mMemberID := a; ClientHost := b; mSubscribedTopics := c; AssignedPartitions := d; LastHeartbeatMs := e |})
    (field "member_id" c_string (field "client_host" c_string (field "subscribed_topics" (c_list c_string)
      (field "assigned_partitions" (c_list c_PartitionKey) (field "last_heartbeat_ms" c_i64 no_fields eq_refl) eq_refl) eq_refl) eq_refl) eq_refl).

Definition c_ConsumerGroupMeta : codec ConsumerGroupMeta :=
  c_struct (fun r => (cgGroupID r, (cgGenerationID r, (cgMembers r, (CommittedOffsets r, tt)))))
    (fun '(a, (b, (c, (d, _)))) => {| cgGroupID := a; cgGenerationID := b; cgMembers := c; CommittedOffsets := d |})
    (field "group_id" c_string (field "generation_id" c_i32
      (field "members" (c_map k_string (c_ref c_MemberInfo ltac:(discriminate)))
      (field "committed_offsets" (c_map k_PartitionKey c_i64) no_fields eq_refl) eq_refl) eq_refl) eq_refl).

Definition c_MemberState : codec MemberState :=
  c_struct (fun r => (MemberID r, (SubscribedTopics r, (SessionTimeoutMs r, (HeartbeatIntervalMs r, (JoinedAt r, tt))))))
    (fun '(a, (b, (c, (d, (e, _))))) => {| MemberID := a; SubscribedTopics := b; SessionTimeoutMs := c; HeartbeatIntervalMs := d; JoinedAt := e |})
    (field "member_id" c_string (field "subscribed_topics" (c_list c_string) (field "session_timeout_ms" c_i32
      (field "heartbeat_interval_ms" c_i32 (field "joined_at" c_time no_fields eq_refl) eq_refl) eq_refl) eq_refl) eq_refl).

Definition c_assignment : codec (gmap string (list TopicPartition)) := c_map k_string (c_list c_TopicPartition).

Definition c_GroupState : codec GroupState :=
  c_struct (fun r => (GroupID r, (Members r, (GenerationID r, (Assignments r, (Offsets r, tt))))))
    (fun '(a, (b, (c, (d, (e, _))))) => {| GroupID := a; Members := b; GenerationID := c; Assignments := d; Offsets := e |})
    (field "group_id" c_string (field "members" (c_map k_string c_MemberState) (field "generation_id" c_i32
      (field "assignments" c_assignment (field "offsets" (c_map k_TopicPartition c_i64) no_fields eq_refl) eq_refl) eq_refl) eq_refl) eq_refl).

(** The state has no tags: its fields are written with their names. *)
Definition c_MetadataState : codec MetadataState :=
  c_struct (fun r => (Topics r, (Partitions r, (Nodes r, (Groups r, (GroupStates r, (NextShardID r, tt)))))))
    (fun '(a, (b, (c, (d, (e, (f, _)))))) => {| Topics := a; Partitions := b; Nodes := c; Groups := d; GroupStates := e; NextShardID := f |})
    (field "Topics" (c_map k_string (c_ref c_TopicMeta ltac:(discriminate)))
      (field "Partitions" (c_map k_PartitionKey (c_ref c_PartitionMeta ltac:(discriminate)))
      (field "Nodes" (c_map k_u64 (c_ref c_NodeInfo ltac:(discriminate)))
      (field "Groups" (c_map k_string (c_ref c_ConsumerGroupMeta ltac:(discriminate)))
      (field "GroupStates" (c_map k_string (c_ref c_GroupState ltac:(discriminate)))
      (field "NextShardID" c_u64 no_fields eq_refl) eq_refl) eq_refl) eq_refl) eq_refl) eq_refl).

Ltac plain_struct := apply plain_struct; [by intros []|repeat first [apply plain_no_fields | apply plain_field; [unfold c_i32, c_i64, c_u64; auto with plain|]]].

Lemma plain_PartitionKey : plain c_PartitionKey. Proof. apply plain_text. Qed.
Lemma plain_TopicPartition : plain c_TopicPartition. Proof. apply plain_text. Qed.
#[export] Hint Resolve plain_PartitionKey plain_TopicPartition : plain.
Lemma plain_TopicMeta : plain c_TopicMeta. Proof. plain_struct. Qed.
Lemma plain_PartitionMeta : plain c_PartitionMeta. Proof. plain_struct. Qed.
Lemma plain_NodeInfo : plain c_NodeInfo. Proof. plain_struct. Qed.
Lemma plain_MemberInfo : plain c_MemberInfo. Proof. plain_struct. Qed.
#[export] Hint Resolve plain_TopicMeta plain_PartitionMeta plain_NodeInfo plain_MemberInfo : plain.
Lemma plain_ConsumerGroupMeta : plain c_ConsumerGroupMeta. Proof. plain_struct. Qed.
Lemma plain_MemberState : plain c_MemberState. Proof. plain_struct. Qed.
Lemma plain_assignment : plain c_assignment. Proof. apply plain_map, plain_list, plain_text. Qed.
#[export] Hint Resolve plain_ConsumerGroupMeta plain_MemberState plain_assignment : plain.
Lemma plain_GroupState : plain c_GroupState. Proof. plain_struct. Qed.
#[export] Hint Resolve plain_GroupState : plain.
Lemma plain_MetadataState : plain c_MetadataState. Proof. plain_struct. Qed.

(** ** Commands *)

Definition c_CreateTopicCmd : codec CreateTopicCmd :=
  c_struct (fun r => (ct_Name r, (ct_PartitionCount r, (ct_ReplicationFactor r, (ct_RetentionMs r, (ct_RetentionBytes r,
      (ct_CreatedAtMs r, (ct_ReplicaNodeIDs r, tt))))))))
    (fun '(a, (b, (c, (d, (e, (f, (g, _))))))) => {| ct_Name := a; ct_PartitionCount := b; ct_ReplicationFactor := c; ct_RetentionMs := d;
       ct_RetentionBytes := e; ct_CreatedAtMs := f; ct_ReplicaNodeIDs := g |})
    (field "name" c_string (field "partition_count" c_i32 (field "replication_factor" c_i32 (field "retention_ms" c_i64
      (field "retention_bytes" c_i64 (field "created_at_ms" c_i64 (field "replica_node_ids" (c_list (c_list c_u64)) no_fields
        eq_refl) eq_refl) eq_refl) eq_refl) eq_refl) eq_refl) eq_refl).

Definition c_DeleteTopicCmd : codec string :=
  c_struct (fun name => (name, tt)) fst (field "name" c_string no_fields eq_refl).

Definition c_AlterTopicPartCountCmd : codec AlterTopicPartCountCmd :=
  c_struct (fun r => (at_Name r, (at_NewPartitionCount r, (at_NewReplicaAssignments r, tt))))
    (fun '(a, (b, (c, _))) => {| at_Name := a; at_NewPartitionCount := b; at_NewReplicaAssignments := c |})
    (field "name" c_string (field "new_partition_count" c_i32 (field "new_replica_assignments" (c_list (c_list c_u64)) no_fields
      eq_refl) eq_refl) eq_refl).

Definition c_AlterTopicRetentionCmd : codec AlterTopicRetentionCmd :=
  c_struct (fun r => (ar_Name r, (ar_RetentionMs r, (ar_RetentionBytes r, tt))))
    (fun '(a, (b, (c, _))) => {| ar_Name := a; ar_RetentionMs := b; ar_RetentionBytes := c |})
    (field "name" c_string (field "retention_ms" c_i64 (field "retention_bytes" c_i64 no_fields eq_refl) eq_refl) eq_refl).

(** [RegisterNodeCmd] has the fields of [NodeInfo]. *)
Definition c_RegisterNodeCmd : codec NodeInfo := c_NodeInfo.

Definition c_AssignPartitionLeaderCmd : codec AssignPartitionLeaderCmd :=
  c_struct (fun r => (al_Topic r, (al_PartitionID r, (al_LeaderNodeID r, (al_LeaderEpoch r, tt)))))
    (fun '(a, (b, (c, (d, _)))) => {| al_Topic := a; al_PartitionID := b; al_LeaderNodeID := c; al_LeaderEpoch := d |})
    (field "topic" c_string (field "partition_id" c_i32 (field "leader_node_id" c_u64 (field "leader_epoch" c_i64 no_fields
      eq_refl) eq_refl) eq_refl) eq_refl).

(** What omitempty leaves out: nil pointers, and maps without entries. *)
Definition nil_ptr {A} (o : option A) : bool := match o with Some _ => false | None => true end.
Definition no_entries {K A} `{Countable K} (o : option (gmap K A)) : bool :=
  match o with Some m => bool_decide (m = ∅) | None => true end.

Definition c_JoinConsumerGroupCmd : codec JoinConsumerGroupCmd :=
  c_struct (fun r => (jc_GroupID r, (jc_MemberID r, (jc_ClientHost r, (jc_SubscribedTopics r, (jc_JoinedAtMs r, (jc_Member r,
      (jc_NewAssignment r, tt))))))))
    (fun '(a, (b, (c, (d, (e, (f, (g, _))))))) => {| jc_GroupID := a; jc_MemberID := b; jc_ClientHost := c; jc_SubscribedTopics := d;
       jc_JoinedAtMs := e; jc_Member := f; jc_NewAssignment := g |})
    (field "group_id" c_string (field "member_id" c_string (field "client_host" c_string (field "subscribed_topics" (c_list c_string)
      (field "joined_at_ms" c_i64 (field_omitempty "member" (c_ptr c_MemberState ltac:(discriminate)) nil_ptr
      (field_omitempty "new_assignment" (c_ptr c_assignment ltac:(discriminate)) no_entries no_fields
        eq_refl) eq_refl) eq_refl) eq_refl) eq_refl) eq_refl) eq_refl).

Definition c_LeaveConsumerGroupCmd : codec LeaveConsumerGroupCmd :=
  c_struct (fun r => (lc_GroupID r, (lc_MemberID r, (lc_Reason r, (lc_NewAssignment r, tt)))))
    (fun '(a, (b, (c, (d, _)))) => {| lc_GroupID := a; lc_MemberID := b; lc_Reason := c; lc_NewAssignment := d |})
    (field "group_id" c_string (field "member_id" c_string (field_omitempty "reason" c_string (fun s => String.eqb s "")
      (field_omitempty "new_assignment" (c_ptr c_assignment ltac:(discriminate)) no_entries no_fields eq_refl) eq_refl) eq_refl) eq_refl).

Definition c_HeartbeatConsumerGroupCmd : codec HeartbeatConsumerGroupCmd :=
  c_struct (fun r => (hc_GroupID r, (hc_MemberID r, (hc_GenerationID r, (hc_TimestampMs r, tt)))))
    (fun '(a, (b, (c, (d, _)))) => {| hc_GroupID := a; hc_MemberID := b; hc_GenerationID := c; hc_TimestampMs := d |})
    (field "group_id" c_string (field "member_id" c_string (field "generation_id" c_i32 (field "timestamp_ms" c_i64 no_fields
      eq_refl) eq_refl) eq_refl) eq_refl).

Definition c_CommittedOffset : codec CommittedOffset :=
  c_struct (fun r => (co_Topic r, (co_PartitionID r, (co_Offset r, tt))))
    (fun '(a, (b, (c, _))) => {| co_Topic := a; co_PartitionID := b; co_Offset := c |})
    (field "topic" c_string (field "partition_id" c_i32 (field "offset" c_i64 no_fields eq_refl) eq_refl) eq_refl).

Definition c_CommitConsumerOffsetCmd : codec CommitConsumerOffsetCmd :=
  c_struct (fun r => (cc_GroupID r, (cc_Offsets r, (cc_GroupOffsets r, tt))))
    (fun '(a, (b, (c, _))) => {| cc_GroupID := a; cc_Offsets := b; cc_GroupOffsets := c |})
    (field "group_id" c_string (field "offsets" (c_list c_CommittedOffset)
      (field_omitempty "group_offsets" (c_ptr (c_map k_TopicPartition c_i64) ltac:(discriminate)) no_entries no_fields eq_refl) eq_refl) eq_refl).

Definition c_RebalanceConsumerGroupCmd : codec RebalanceConsumerGroupCmd :=
  c_struct (fun r => (rc_GroupID r, (rc_ExpiredMemberIDs r, (rc_TimestampMs r, tt))))
    (fun '(a, (b, (c, _))) => {| rc_GroupID := a; rc_ExpiredMemberIDs := b; rc_TimestampMs := c |})
    (field "group_id" c_string (field "expired_member_ids" (c_list c_string) (field "timestamp_ms" c_i64 no_fields eq_refl) eq_refl) eq_refl).

Lemma plain_CreateTopicCmd : plain c_CreateTopicCmd. Proof. plain_struct. Qed.
Lemma plain_DeleteTopicCmd : plain c_DeleteTopicCmd. Proof. done. Qed.
Lemma plain_AlterTopicPartCountCmd : plain c_AlterTopicPartCountCmd. Proof. plain_struct. Qed.
Lemma plain_AlterTopicRetentionCmd : plain c_AlterTopicRetentionCmd. Proof. plain_struct. Qed.
Lemma plain_AssignPartitionLeaderCmd : plain c_AssignPartitionLeaderCmd. Proof. plain_struct. Qed.
Lemma plain_HeartbeatConsumerGroupCmd : plain c_HeartbeatConsumerGroupCmd. Proof. plain_struct. Qed.
Lemma plain_CommittedOffset : plain c_CommittedOffset. Proof. plain_struct. Qed.
Lemma plain_RebalanceConsumerGroupCmd : plain c_RebalanceConsumerGroupCmd. Proof. plain_struct. Qed.
#[export] Hint Resolve plain_CommittedOffset : plain.

(** What an omitted map is read back as. *)
Lemma omitted_map {K A} `{Countable K} (k : key_codec K) (c : codec A) s (o : option (gmap K A)) :
  plain c ->
  (if no_entries o then zero (c_ptr (c_map k c) s) else norm (c_ptr (c_map k c) s) o) = GroupCoord.omitempty o.
Proof.
  intros Hc. destruct o as [m|]; [|done]. cbn [no_entries GroupCoord.omitempty]. destruct (decide (m = ∅)) as [->|Hne].
  - by rewrite bool_decide_eq_true_2.
  - rewrite bool_decide_eq_false_2 by done. by rewrite (plain_ptr _ s (plain_map k c Hc)).
Qed.

Lemma omitted_ptr {A} (c : codec A) s (o : option A) :
  plain c -> (if nil_ptr o then zero (c_ptr c s) else norm (c_ptr c s) o) = o.
Proof. intros Hc. destruct o as [a|]; [|done]. cbn [nil_ptr]. by rewrite (plain_ptr _ s Hc). Qed.

(** ** The log entry *)

(** [MetadataCommand] as the struct it is: a type, and a payload for each type. *)
Record envelope := {
  Type_ : string;
  CreateTopic : option CreateTopicCmd;
  DeleteTopic : option string;
  AlterTopicPartCount : option AlterTopicPartCountCmd;
  AlterTopicRetention : option AlterTopicRetentionCmd;
  RegisterNode : option NodeInfo;
  AssignPartitionLeader : option AssignPartitionLeaderCmd;
  JoinConsumerGroup : option JoinConsumerGroupCmd;
  LeaveConsumerGroup : option LeaveConsumerGroupCmd;
  HeartbeatConsumerGroup : option HeartbeatConsumerGroupCmd;
  CommitConsumerOffset : option CommitConsumerOffsetCmd;
  RebalanceConsumerGroup : option RebalanceConsumerGroupCmd
}.

Definition no_payload (type : string) : envelope :=
  {| Type_ := type; CreateTopic := None; DeleteTopic := None; AlterTopicPartCount := None; AlterTopicRetention := None; RegisterNode := None; AssignPartitionLeader := None; JoinConsumerGroup := None; LeaveConsumerGroup := None; HeartbeatConsumerGroup := None; CommitConsumerOffset := None; RebalanceConsumerGroup := None |}.

(** The struct a proposal fills in. *)
Definition envelope_of (cmd : MetadataCommand) : envelope :=
  match cmd with
  | CmdCreateTopic c => {| Type_ := "create_topic"; CreateTopic := c; DeleteTopic := None; AlterTopicPartCount := None; AlterTopicRetention := None; RegisterNode := None; AssignPartitionLeader := None; JoinConsumerGroup := None; LeaveConsumerGroup := None; HeartbeatConsumerGroup := None; CommitConsumerOffset := None; RebalanceConsumerGroup := None |}
  | CmdDeleteTopic c => {| Type_ := "delete_topic"; CreateTopic := None; DeleteTopic := c; AlterTopicPartCount := None; AlterTopicRetention := None; RegisterNode := None; AssignPartitionLeader := None; JoinConsumerGroup := None; LeaveConsumerGroup := None; HeartbeatConsumerGroup := None; CommitConsumerOffset := None; RebalanceConsumerGroup := None |}
  | CmdAlterTopicPartCount c => {| Type_ := "alter_topic_part_count"; CreateTopic := None; DeleteTopic := None; AlterTopicPartCount := c; AlterTopicRetention := None; RegisterNode := None; AssignPartitionLeader := None; JoinConsumerGroup := None; LeaveConsumerGroup := None; HeartbeatConsumerGroup := None; CommitConsumerOffset := None; RebalanceConsumerGroup := None |}
  | CmdAlterTopicRetention c => {| Type_ := "alter_topic_retention"; CreateTopic := None; DeleteTopic := None; AlterTopicPartCount := None; AlterTopicRetention := c; RegisterNode := None; AssignPartitionLeader := None; JoinConsumerGroup := None; LeaveConsumerGroup := None; HeartbeatConsumerGroup := None; CommitConsumerOffset := None; RebalanceConsumerGroup := None |}
  | CmdRegisterNode c => {| Type_ := "register_node"; CreateTopic := None; DeleteTopic := None; AlterTopicPartCount := None; AlterTopicRetention := None; RegisterNode := c; AssignPartitionLeader := None; JoinConsumerGroup := None; LeaveConsumerGroup := None; HeartbeatConsumerGroup := None; CommitConsumerOffset := None; RebalanceConsumerGroup := None |}
  | CmdAssignPartitionLeader c => {| Type_ := "assign_partition_leader"; CreateTopic := None; DeleteTopic := None; AlterTopicPartCount := None; AlterTopicRetention := None; RegisterNode := None; AssignPartitionLeader := c; JoinConsumerGroup := None; LeaveConsumerGroup := None; HeartbeatConsumerGroup := None; CommitConsumerOffset := None; RebalanceConsumerGroup := None |}
  | CmdJoinConsumerGroup c => {| Type_ := "join_consumer_group"; CreateTopic := None; DeleteTopic := None; AlterTopicPartCount := None; AlterTopicRetention := None; RegisterNode := None; AssignPartitionLeader := None; JoinConsumerGroup := c; LeaveConsumerGroup := None; HeartbeatConsumerGroup := None; CommitConsumerOffset := None; RebalanceConsumerGroup := None |}
  | CmdLeaveConsumerGroup c => {| Type_ := "leave_consumer_group"; CreateTopic := None; DeleteTopic := None; AlterTopicPartCount := None; AlterTopicRetention := None; RegisterNode := None; AssignPartitionLeader := None; JoinConsumerGroup := None; LeaveConsumerGroup := c; HeartbeatConsumerGroup := None; CommitConsumerOffset := None; RebalanceConsumerGroup := None |}
  | CmdHeartbeatConsumerGroup c => {| Type_ := "heartbeat_consumer_group"; CreateTopic := None; DeleteTopic := None; AlterTopicPartCount := None; AlterTopicRetention := None; RegisterNode := None; AssignPartitionLeader := None; JoinConsumerGroup := None; LeaveConsumerGroup := None; HeartbeatConsumerGroup := c; CommitConsumerOffset := None; RebalanceConsumerGroup := None |}
  | CmdCommitConsumerOffset c => {| Type_ := "commit_consumer_offset"; CreateTopic := None; DeleteTopic := None; AlterTopicPartCount := None; AlterTopicRetention := None; RegisterNode := None; AssignPartitionLeader := None; JoinConsumerGroup := None; LeaveConsumerGroup := None; HeartbeatConsumerGroup := None; CommitConsumerOffset := c; RebalanceConsumerGroup := None |}
  | CmdRebalanceConsumerGroup c => {| Type_ := "rebalance_consumer_group"; CreateTopic := None; DeleteTopic := None; AlterTopicPartCount := None; AlterTopicRetention := None; RegisterNode := None; AssignPartitionLeader := None; JoinConsumerGroup := None; LeaveConsumerGroup := None; HeartbeatConsumerGroup := None; CommitConsumerOffset := None; RebalanceConsumerGroup := c |}
  | CmdUnknown => no_payload ""
  end.

(** The switch of [applyCommand] over the type. *)
Definition select (e : envelope) : MetadataCommand :=
  if String.eqb (Type_ e) "create_topic" then CmdCreateTopic (CreateTopic e) else
  if String.eqb (Type_ e) "delete_topic" then CmdDeleteTopic (DeleteTopic e) else
  if String.eqb (Type_ e) "alter_topic_part_count" then CmdAlterTopicPartCount (AlterTopicPartCount e) else
  if String.eqb (Type_ e) "alter_topic_retention" then CmdAlterTopicRetention (AlterTopicRetention e) else
  if String.eqb (Type_ e) "register_node" then CmdRegisterNode (RegisterNode e) else
  if String.eqb (Type_ e) "assign_partition_leader" then CmdAssignPartitionLeader (AssignPartitionLeader e) else
  if String.eqb (Type_ e) "join_consumer_group" then CmdJoinConsumerGroup (JoinConsumerGroup e) else
  if String.eqb (Type_ e) "leave_consumer_group" then CmdLeaveConsumerGroup (LeaveConsumerGroup e) else
  if String.eqb (Type_ e) "heartbeat_consumer_group" then CmdHeartbeatConsumerGroup (HeartbeatConsumerGroup e) else
  if String.eqb (Type_ e) "commit_consumer_offset" then CmdCommitConsumerOffset (CommitConsumerOffset e) else
  if String.eqb (Type_ e) "rebalance_consumer_group" then CmdRebalanceConsumerGroup (RebalanceConsumerGroup e) else
  CmdUnknown.

Definition c_envelope : codec envelope :=
  c_struct (fun r => (Type_ r, (CreateTopic r, (DeleteTopic r, (AlterTopicPartCount r, (AlterTopicRetention r, (RegisterNode r, (AssignPartitionLeader r, (JoinConsumerGroup r, (LeaveConsumerGroup r, (HeartbeatConsumerGroup r, (CommitConsumerOffset r, (RebalanceConsumerGroup r, tt)))))))))))))
    (fun '(a0, (a1, (a2, (a3, (a4, (a5, (a6, (a7, (a8, (a9, (a10, (a11, _)))))))))))) => {| Type_ := a0; CreateTopic := a1; DeleteTopic := a2; AlterTopicPartCount := a3; AlterTopicRetention := a4; RegisterNode := a5; AssignPartitionLeader := a6; JoinConsumerGroup := a7; LeaveConsumerGroup := a8; HeartbeatConsumerGroup := a9; CommitConsumerOffset := a10; RebalanceConsumerGroup := a11 |})
    (field "type" c_string
      (field_omitempty "ct" (c_ptr c_CreateTopicCmd ltac:(discriminate)) nil_ptr
      (field_omitempty "dt" (c_ptr c_DeleteTopicCmd ltac:(discriminate)) nil_ptr
      (field_omitempty "atpc" (c_ptr c_AlterTopicPartCountCmd ltac:(discriminate)) nil_ptr
      (field_omitempty "atr" (c_ptr c_AlterTopicRetentionCmd ltac:(discriminate)) nil_ptr
      (field_omitempty "rn" (c_ptr c_RegisterNodeCmd ltac:(discriminate)) nil_ptr
      (field_omitempty "apl" (c_ptr c_AssignPartitionLeaderCmd ltac:(discriminate)) nil_ptr
      (field_omitempty "jcg" (c_ptr c_JoinConsumerGroupCmd ltac:(discriminate)) nil_ptr
      (field_omitempty "lcg" (c_ptr c_LeaveConsumerGroupCmd ltac:(discriminate)) nil_ptr
      (field_omitempty "hcg" (c_ptr c_HeartbeatConsumerGroupCmd ltac:(discriminate)) nil_ptr
      (field_omitempty "cco" (c_ptr c_CommitConsumerOffsetCmd ltac:(discriminate)) nil_ptr
      (field_omitempty "rcg" (c_ptr c_RebalanceConsumerGroupCmd ltac:(discriminate)) nil_ptr
      no_fields eq_refl) eq_refl) eq_refl) eq_refl) eq_refl) eq_refl) eq_refl) eq_refl) eq_refl) eq_refl) eq_refl) eq_refl).

(** What a proposal puts into the log, and what [Update] makes of an entry; [None] is an entry
    that does not decode. *)
Definition encode_command (cmd : MetadataCommand) : json := enc c_envelope (envelope_of cmd).
Definition decode_command (v : json) : option MetadataCommand := select <$> dec c_envelope v.

Definition command_fits (cmd : MetadataCommand) : Prop := fits c_envelope (envelope_of cmd).

(** A command of a type whose values are read back unchanged. *)
Lemma norm_ptr {A} (c : codec A) s (o : option A) :
  (if nil_ptr o then zero (c_ptr c s) else norm (c_ptr c s) o) = norm c <$> o.
Proof. by destruct o. Qed.

Lemma norm_join c : norm c_JoinConsumerGroupCmd c =
  {| jc_GroupID := jc_GroupID c; jc_MemberID := jc_MemberID c; jc_ClientHost := jc_ClientHost c;
     jc_SubscribedTopics := jc_SubscribedTopics c; jc_JoinedAtMs := jc_JoinedAtMs c;
     jc_Member := jc_Member c; jc_NewAssignment := GroupCoord.omitempty (jc_NewAssignment c) |}.
Proof.
  rewrite <- (omitted_map k_string (c_list c_TopicPartition) ltac:(discriminate) (jc_NewAssignment c)) by (apply plain_list, plain_text).
  rewrite <- (omitted_ptr c_MemberState ltac:(discriminate) (jc_Member c)) by apply plain_MemberState.
  rewrite <- (plain_list c_string plain_string (jc_SubscribedTopics c)). destruct c; reflexivity.
Qed.

Lemma norm_leave c : norm c_LeaveConsumerGroupCmd c =
  {| lc_GroupID := lc_GroupID c; lc_MemberID := lc_MemberID c; lc_Reason := lc_Reason c;
     lc_NewAssignment := GroupCoord.omitempty (lc_NewAssignment c) |}.
Proof.
  rewrite <- (omitted_map k_string (c_list c_TopicPartition) ltac:(discriminate) (lc_NewAssignment c)) by (apply plain_list, plain_text).
  destruct c as [g m r a]. cbn. by destruct (String.eqb_spec r "") as [->|].
Qed.

Lemma norm_commit c : norm c_CommitConsumerOffsetCmd c =
  {| cc_GroupID := cc_GroupID c; cc_Offsets := cc_Offsets c; cc_GroupOffsets := GroupCoord.omitempty (cc_GroupOffsets c) |}.
Proof.
  rewrite <- (omitted_map k_TopicPartition c_i64 ltac:(discriminate) (cc_GroupOffsets c)) by apply plain_int.
  rewrite <- (plain_list c_CommittedOffset plain_CommittedOffset (cc_Offsets c)). destruct c; reflexivity.
Qed.

(** What reaches the state machines. A proposed command whose numbers fit their types and
    whose strings are valid UTF-8 comes out of the log as the same command, except that an
    empty assignment or an empty set of offsets comes out as missing: exactly [wire]. *)
Lemma command_decodes cmd : command_fits cmd -> decode_command (encode_command cmd) = Some (GroupCoord.wire cmd).
Proof.
  intros Hf. unfold decode_command, encode_command. rewrite (dec_enc c_envelope _ Hf). cbn [fmap option_fmap option_map]. f_equal.
  destruct cmd as [[c|]|[c|]|[c|]|[c|]|[c|]|[c|]|[c|]|[c|]|[c|]|[c|]|[c|]|]; try reflexivity.
  - exact (f_equal (fun x => CmdCreateTopic (Some x)) (plain_CreateTopicCmd c)).
  - exact (f_equal (fun x => CmdAlterTopicPartCount (Some x)) (plain_AlterTopicPartCountCmd c)).
  - exact (f_equal (fun x => CmdAlterTopicRetention (Some x)) (plain_AlterTopicRetentionCmd c)).
  - exact (f_equal (fun x => CmdRegisterNode (Some x)) (plain_NodeInfo c)).
  - exact (f_equal (fun x => CmdAssignPartitionLeader (Some x)) (plain_AssignPartitionLeaderCmd c)).
  - exact (f_equal (fun x => CmdJoinConsumerGroup (Some x)) (norm_join c)).
  - exact (f_equal (fun x => CmdLeaveConsumerGroup (Some x)) (norm_leave c)).
  - exact (f_equal (fun x => CmdHeartbeatConsumerGroup (Some x)) (plain_HeartbeatConsumerGroupCmd c)).
  - exact (f_equal (fun x => CmdCommitConsumerOffset (Some x)) (norm_commit c)).
  - exact (f_equal (fun x => CmdRebalanceConsumerGroup (Some x)) (plain_RebalanceConsumerGroupCmd c)).
Qed.

(** ** Snapshots *)

Definition ErrSnapshotStopped : error := ErrSentinel (Sentinel "statemachine" "ErrSnapshotStopped").

(** [json] refuses a time in a year outside 0..9999. *)
Definition year_ok (ns : Z) : bool := (- 62167219200 <=? ns / 10 ^ 9) && (ns / 10 ^ 9 <? 253402300800).
Definition ErrYear : error := ErrNew "json: year outside of range [0,9999]".
Definition years_ok (s : MetadataState) : bool :=
  forallb (fun g => forallb (fun m => year_ok (JoinedAt m.2)) (map_to_list (Members g.2))) (map_to_list (GroupStates s)).

(** [done]: whether the channel is closed. *)
Definition SaveSnapshot (s : MetadataState) (done : bool) : outcome json :=
  if done then Err ErrSnapshotStopped else if years_ok s then Ok (enc c_MetadataState s) else Err ErrYear.

(** The state is replaced only when all of it was read. A nil map of groups becomes an empty one;
    the other maps are nil, and writing to them panics, only if their members are missing, and
    [SaveSnapshot] writes them all. *)
Definition RecoverFromSnapshot (s : MetadataState) (v : json) (done : bool) : outcome unit * MetadataState :=
  if done then (Err ErrSnapshotStopped, s) else
  match dec c_MetadataState v with
  | Some s' => (Ok tt, s')
  | None => (Err (ErrNew "json"), s)
  end.

Definition state_fits (s : MetadataState) : Prop := fits c_MetadataState s.

Lemma year_ok_fits ns : fits c_time ns -> year_ok ns = true.
Proof. cbn. intros Ht. unfold year_ok. by rewrite (proj2 (Z.leb_le _ _)), (proj2 (Z.ltb_lt _ _)) by lia. Qed.

Lemma years_ok_fits s : state_fits s -> years_ok s = true.
Proof.
  intros (_ & _ & _ & _ & Hg & _). apply forallb_forall. intros [g st] [_ Hst]%list_elem_of_In%elem_of_map_to_list%Hg.
  destruct Hst as (_ & Hm & _). apply forallb_forall. intros [i m] [_ Hmem]%list_elem_of_In%elem_of_map_to_list%Hm.
  apply year_ok_fits. apply Hmem.
Qed.

(** A replica restored from a snapshot is the replica that saved it, whatever it held before:
    every later query and every later command has the same result. A restore that is stopped
    or cannot read the snapshot leaves the state as it was. *)
Lemma snapshot_restores s old :
  state_fits s -> exists v, SaveSnapshot s false = Ok v /\ RecoverFromSnapshot old v false = (Ok tt, s) /\
    RecoverFromSnapshot old v true = (Err ErrSnapshotStopped, old) /\
    forall v', dec c_MetadataState v' = None -> exists e, RecoverFromSnapshot old v' false = (Err e, old).
Proof.
  intros Hf. exists (enc c_MetadataState s). unfold SaveSnapshot, RecoverFromSnapshot. rewrite years_ok_fits by done. split; [done|]. rewrite (dec_enc c_MetadataState s Hf), plain_MetadataState.
  split_and!; [done..|]. intros v' ->. by eexists.
Qed.

(** ** Examples *)

Definition cmd_t : MetadataCommand :=
  CmdCreateTopic (Some {| ct_Name := "t"; ct_PartitionCount := 1; ct_ReplicationFactor := 1; ct_RetentionMs := 0;
    ct_RetentionBytes := -1; ct_CreatedAtMs := 5; ct_ReplicaNodeIDs := [[1]] |}).

Lemma cmd_t_fits : command_fits cmd_t.
Proof.
  unfold command_fits. cbn -[utf8 Z.pow]. unfold utf8. split_and!; try exact I; try reflexivity; try lia.
  repeat constructor; lia.
Qed.

End MetaJson.
