(* ===== verification/MetaSnap.v ===== *)
(** * Snapshots of the replicated metadata

    Every state that a replica of the metadata shard reaches by applying the log fits its JSON:
    numbers stay in their types, names and keys are valid UTF-8. So a snapshot can be taken at any
    point, and a replica restored from it is the replica that wrote it ([snapshot_catchup]). *)

From Stdlib Require Import Ascii.
From S2P Require Import Prelude SegName Keys Json Metadata Rebalance GroupCoord MetaJson.
Local Open Scope Z_scope.

Module MetaSnap.
Import Metadata Json MetaJson.

Create HintDb snap.

#[local] Arguments String.append (s1 s2)%_string_scope : simpl nomatch.

(** ** Text *)

Lemma utf8_digits n z : utf8 (SegName.digits n z).
Proof.
  induction n as [|n IH]; cbn [SegName.digits]; [done|]. apply utf8_ascii; [|done].
  pose proof (Z.mod_pos_bound (z / 10 ^ Z.of_nat n) 10 ltac:(lia)). unfold code, SegName.digit_char. rewrite N_ascii_embedding; lia.
Qed.

Lemma utf8_fmt_d z : utf8 (fmt_d z).
Proof. unfold fmt_d, fmt_u. destruct (z <? 0); [apply utf8_ascii; [done|]|]; apply utf8_digits. Qed.

Lemma utf8_key_text t i : utf8 t -> utf8 (key_text t i).
Proof. intros Ht. apply utf8_app; [done|]. apply utf8_ascii; [done|]. apply utf8_fmt_d. Qed.

Lemma key_fits t i : utf8 t -> in_i32 i -> kfits k_PartitionKey (PKey t i).
Proof. intros Ht Hi. split; [done|]. by apply utf8_key_text. Qed.

(** ** Maps *)

Section maps.
Context {K A : Type} `{Countable K} (k : key_codec K) (c : codec A).

Definition map_fits (m : gmap K A) : Prop := forall i a, m !! i = Some a -> kfits k i /\ fits c a.

Lemma map_fits_empty : map_fits ∅.
Proof. by intros i a Hi%lookup_empty_Some. Qed.
Lemma map_fits_insert m i a : map_fits m -> kfits k i -> fits c a -> map_fits (<[i := a]> m).
Proof. intros Hm Hi Ha j b [[<- <-]|[_ Hj]]%lookup_insert_Some; [done|by apply Hm]. Qed.
Lemma map_fits_delete m i : map_fits m -> map_fits (delete i m).
Proof. intros Hm j b [_ Hj]%lookup_delete_Some. by apply Hm. Qed.
Lemma map_fits_union m1 m2 : map_fits m1 -> map_fits m2 -> map_fits (m1 ∪ m2).
Proof. intros H1 H2 j b [Hj|[_ Hj]]%lookup_union_Some_raw; [by apply H1|by apply H2]. Qed.
Lemma map_fits_default o : (forall m, o = Some m -> map_fits m) -> map_fits (default ∅ o).
Proof. destruct o; cbn; [eauto|]. intros _. apply map_fits_empty. Qed.
Lemma map_fits_deletes l m : map_fits m -> map_fits (fold_left (fun m i => delete i m) l m).
Proof. revert m. induction l as [|i l IH]; cbn; intros m Hm; [done|]. by apply IH, map_fits_delete. Qed.
Lemma fits_c_map m : fits (c_map k c) m <-> map_fits m.
Proof. done. Qed.
Lemma fits_c_map_ref st m : fits (c_map k (c_ref c st)) m <-> map_fits m.
Proof. done. Qed.
End maps.

#[export] Hint Resolve map_fits_empty map_fits_insert map_fits_delete map_fits_union map_fits_deletes : snap.
#[export] Hint Resolve u64_range i32_range key_fits : snap.

(** ** The parts of a state *)

Lemma fits_c_struct {A T} (to : A -> T) from (fs : fields T) a : fits (c_struct to from fs) a <-> mfits fs (to a).
Proof. done. Qed.
Lemma fits_end u (P : Prop) : P /\ mfits no_fields u <-> P.
Proof. cbn. tauto. Qed.
Lemma fits_field {A B} tag (c : codec A) (fs : fields B) f ab : mfits (field tag c fs f) ab <-> fits c ab.1 /\ mfits fs ab.2.
Proof. done. Qed.

Ltac fits_struct c := unfold c; rewrite fits_c_struct, !fits_field, fits_end; cbn [fst snd]; rewrite ?fits_c_map_ref, ?fits_c_map.

Lemma fits_TopicMeta t : fits c_TopicMeta t <-> utf8 (Name t) /\ in_i32 (PartitionCount t) /\ in_i32 (ReplicationFactor t) /\
  in_i64 (RetentionMs t) /\ in_i64 (RetentionBytes t) /\ in_i64 (CreatedAtMs t).
Proof. fits_struct c_TopicMeta. reflexivity. Qed.
Lemma fits_PartitionMeta p : fits c_PartitionMeta p <-> utf8 (pTopic p) /\ in_i32 (pPartitionID p) /\ in_u64 (ShardID p) /\
  Forall in_u64 (ReplicaNodeIDs p) /\ in_u64 (LeaderNodeID p) /\ in_i64 (LeaderEpoch p).
Proof. fits_struct c_PartitionMeta. reflexivity. Qed.
Lemma fits_NodeInfo n : fits c_NodeInfo n <-> in_u64 (NodeID n) /\ utf8 (Address n).
Proof. fits_struct c_NodeInfo. reflexivity. Qed.
Lemma fits_MemberInfo m : fits c_MemberInfo m <-> utf8 (mMemberID m) /\ utf8 (ClientHost m) /\ Forall utf8 (mSubscribedTopics m) /\
  Forall (kfits k_PartitionKey) (AssignedPartitions m) /\ in_i64 (LastHeartbeatMs m).
Proof. fits_struct c_MemberInfo. reflexivity. Qed.
Lemma fits_ConsumerGroupMeta g : fits c_ConsumerGroupMeta g <-> utf8 (cgGroupID g) /\ in_i32 (cgGenerationID g) /\
  map_fits k_string c_MemberInfo (cgMembers g) /\ map_fits k_PartitionKey c_i64 (CommittedOffsets g).
Proof. fits_struct c_ConsumerGroupMeta. reflexivity. Qed.
Lemma fits_GroupState g : fits c_GroupState g <-> utf8 (GroupID g) /\ map_fits k_string c_MemberState (Members g) /\
  in_i32 (GenerationID g) /\ map_fits k_string (c_list c_TopicPartition) (Assignments g) /\ map_fits k_TopicPartition c_i64 (Offsets g).
Proof. fits_struct c_GroupState. reflexivity. Qed.
Lemma fits_MetadataState s : state_fits s <-> map_fits k_string c_TopicMeta (Topics s) /\ map_fits k_PartitionKey c_PartitionMeta (Partitions s) /\
  map_fits k_u64 c_NodeInfo (Nodes s) /\ map_fits k_string c_ConsumerGroupMeta (Groups s) /\ map_fits k_string c_GroupState (GroupStates s) /\
  in_u64 (NextShardID s).
Proof. unfold state_fits. fits_struct c_MetadataState. reflexivity. Qed.

#[local] Opaque c_TopicMeta c_PartitionMeta c_NodeInfo c_MemberInfo c_ConsumerGroupMeta c_MemberState c_GroupState c_MetadataState state_fits.

(** ** Topics and partitions *)

Lemma create_partitions_fit n i name shard replicas parts parts' :
  utf8 name -> Forall (Forall in_u64) replicas -> 0 <= i -> i + Z.of_nat n <= 2 ^ 31 ->
  map_fits k_PartitionKey c_PartitionMeta parts -> create_partitions n i name shard replicas parts = Ok parts' ->
  map_fits k_PartitionKey c_PartitionMeta parts'.
Proof.
  intros Hname Hr. revert i parts. induction n as [|n IH]; intros i parts Hi Hn Hp; cbn [create_partitions]; [by intros [= <-]|].
  destruct (index replicas i) as [r| | |] eqn:Er; try discriminate. cbn [mbind outcome_bind]. apply IH; [lia..|].
  assert (in_i32 i) by (unfold in_i32; lia). apply map_fits_insert; [done|by apply key_fits|]. apply fits_PartitionMeta. cbn.
  split_and!; try done; try apply u64_range.
  unfold index in Er. destruct (0 <=? i); [|done]. destruct (replicas !! _) as [r'|] eqn:El; [|done]. injection Er as <-.
  by apply (Forall_lookup_1 _ _ _ _ Hr El).
Qed.

Lemma delete_partitions_fit n i name parts :
  map_fits k_PartitionKey c_PartitionMeta parts -> map_fits k_PartitionKey c_PartitionMeta (delete_partitions n i name parts).
Proof. revert i parts. induction n as [|n IH]; intros i parts Hp; cbn [delete_partitions]; [done|]. by apply IH, map_fits_delete. Qed.

Lemma add_partitions_fit n i name from shard assignments parts :
  utf8 name -> Forall (Forall in_u64) assignments -> map_fits k_PartitionKey c_PartitionMeta parts ->
  map_fits k_PartitionKey c_PartitionMeta (add_partitions n i name from shard assignments parts).
Proof.
  intros Hname Ha. revert i parts. induction n as [|n IH]; intros i parts Hp; cbn [add_partitions]; [done|]. apply IH.
  apply map_fits_insert; [done|apply key_fits; [done|apply i32_range]|]. apply fits_PartitionMeta. cbn.
  split_and!; try done; try apply u64_range; try apply i32_range.
  destruct (assignments !! _) as [r|] eqn:El; cbn; [by apply (Forall_lookup_1 _ _ _ _ Ha El)|constructor].
Qed.

(** ** Legacy groups *)

Lemma elem_of_pieces {A} (l : list A) n i k p x : p ∈ Rebalance.pieces l n i k -> x ∈ p -> x ∈ l.
Proof.
  revert i. induction k as [|k IH]; intros i Hp Hx; cbn [Rebalance.pieces] in Hp; [by apply not_elem_of_nil in Hp|].
  apply elem_of_cons in Hp as [->|Hp]; [|by apply (IH (i + 1))]. unfold sub in Hx.
  by apply subseteq_take, subseteq_drop in Hx.
Qed.

Lemma rebalance_fits s g g' :
  state_fits s -> fits c_ConsumerGroupMeta g -> rebalance s g = Ok g' -> fits c_ConsumerGroupMeta g'.
Proof.
  intros (_ & Hparts & _)%fits_MetadataState (Hid & Hgen & Hms & Hoff)%fits_ConsumerGroupMeta E.
  destruct (Rebalance.rebalance_ok s g) as (g0 & E0 & E1 & E2 & E3 & Hsome & Hall). rewrite E in E0. injection E0 as <-.
  apply fits_ConsumerGroupMeta. rewrite E1, E2, E3. split_and!; try done.
  intros id m' Hm'. assert (is_Some (cgMembers g !! id)) as Hs by (apply Hsome; eauto).
  apply (proj2 (Rebalance.sorted_ids_spec _)), list_elem_of_lookup in Hs as [j Hj].
  destruct (Forall2_lookup_l _ _ _ _ _ Hall Hj) as (p & Hp & m & Hm & Hm2). rewrite Hm' in Hm2. injection Hm2 as ->.
  destruct (Hms id m Hm) as [Hk (H1 & H2 & H3 & _ & H5)%fits_MemberInfo]. split; [done|]. apply fits_MemberInfo. split_and!; try done.
  apply Forall_forall. intros k Hkp. apply (elem_of_pieces _ _ _ _ p k (list_elem_of_lookup_2 _ _ _ Hp)) in Hkp.
  apply (proj2 (proj2 (Rebalance.eligible_spec _ _))) in Hkp as ([pm Hpm] & _). by apply (Hparts _ _ Hpm).
Qed.

Lemma bump_fits g : fits c_ConsumerGroupMeta g -> fits c_ConsumerGroupMeta (bump g).
Proof. intros (H1 & H2 & H3 & H4)%fits_ConsumerGroupMeta. apply fits_ConsumerGroupMeta. split_and!; try done. apply i32_range. Qed.

Lemma set_members_fits g ms :
  fits c_ConsumerGroupMeta g -> map_fits k_string c_MemberInfo ms -> fits c_ConsumerGroupMeta (set_members g ms).
Proof. intros (H1 & H2 & H3 & H4)%fits_ConsumerGroupMeta Hms. by apply fits_ConsumerGroupMeta. Qed.

Lemma set_groups_fits s id g :
  state_fits s -> utf8 id -> fits c_ConsumerGroupMeta g -> state_fits (set_groups s (<[id := g]> (Groups s))).
Proof.
  intros (H1 & H2 & H3 & H4 & H5 & H6)%fits_MetadataState Hid Hg. apply fits_MetadataState. split_and!; try done.
  by apply map_fits_insert.
Qed.

Lemma set_groupStates_fits s id g :
  state_fits s -> utf8 id -> fits c_GroupState g -> state_fits (set_groupStates s (<[id := g]> (GroupStates s))).
Proof.
  intros (H1 & H2 & H3 & H4 & H5 & H6)%fits_MetadataState Hid Hg. apply fits_MetadataState. split_and!; try done.
  by apply map_fits_insert.
Qed.

Lemma group_fits s id g : state_fits s -> Groups s !! id = Some g -> utf8 id /\ fits c_ConsumerGroupMeta g.
Proof. intros (_ & _ & _ & H & _)%fits_MetadataState Hg. by apply H. Qed.
Lemma groupState_fits s id g : state_fits s -> GroupStates s !! id = Some g -> utf8 id /\ fits c_GroupState g.
Proof. intros (_ & _ & _ & _ & H & _)%fits_MetadataState Hg. by apply H. Qed.

(** ** Commands *)

Lemma fits_c_ptr {A} (c : codec A) st o : fits (c_ptr c st) o <-> forall a, o = Some a -> fits c a.
Proof. destruct o; cbn; [|done]. split; [by intros H b [= <-]|eauto]. Qed.
Lemma fits_field_omitempty {A B} tag (c : codec A) e (fs : fields B) f ab :
  mfits (field_omitempty tag c e fs f) ab <-> fits c ab.1 /\ mfits fs ab.2.
Proof. done. Qed.

(** An assignment or a map of offsets that may be missing. *)
Definition opt_fits {K A} `{Countable K} (k : key_codec K) (c : codec A) (o : option (gmap K A)) : Prop :=
  match o with Some m => map_fits k c m | None => True end.
Lemma fits_c_opt {K A} `{Countable K} (k : key_codec K) (c : codec A) st o : fits (c_ptr (c_map k c) st) o <-> opt_fits k c o.
Proof. by destruct o. Qed.

Lemma fits_CreateTopicCmd c : fits c_CreateTopicCmd c <-> utf8 (ct_Name c) /\ in_i32 (ct_PartitionCount c) /\
  in_i32 (ct_ReplicationFactor c) /\ in_i64 (ct_RetentionMs c) /\ in_i64 (ct_RetentionBytes c) /\ in_i64 (ct_CreatedAtMs c) /\
  Forall (Forall in_u64) (ct_ReplicaNodeIDs c).
Proof. fits_struct c_CreateTopicCmd. reflexivity. Qed.
Lemma fits_AlterTopicPartCountCmd c : fits c_AlterTopicPartCountCmd c <-> utf8 (at_Name c) /\ in_i32 (at_NewPartitionCount c) /\
  Forall (Forall in_u64) (at_NewReplicaAssignments c).
Proof. fits_struct c_AlterTopicPartCountCmd. reflexivity. Qed.
Lemma fits_AlterTopicRetentionCmd c : fits c_AlterTopicRetentionCmd c <-> utf8 (ar_Name c) /\ in_i64 (ar_RetentionMs c) /\
  in_i64 (ar_RetentionBytes c).
Proof. fits_struct c_AlterTopicRetentionCmd. reflexivity. Qed.
Lemma fits_AssignPartitionLeaderCmd c : fits c_AssignPartitionLeaderCmd c <-> utf8 (al_Topic c) /\ in_i32 (al_PartitionID c) /\
  in_u64 (al_LeaderNodeID c) /\ in_i64 (al_LeaderEpoch c).
Proof. fits_struct c_AssignPartitionLeaderCmd. reflexivity. Qed.
Lemma fits_HeartbeatConsumerGroupCmd c : fits c_HeartbeatConsumerGroupCmd c <-> utf8 (hc_GroupID c) /\ utf8 (hc_MemberID c) /\
  in_i32 (hc_GenerationID c) /\ in_i64 (hc_TimestampMs c).
Proof. fits_struct c_HeartbeatConsumerGroupCmd. reflexivity. Qed.
Lemma fits_CommittedOffset c : fits c_CommittedOffset c <-> utf8 (co_Topic c) /\ in_i32 (co_PartitionID c) /\ in_i64 (co_Offset c).
Proof. fits_struct c_CommittedOffset. reflexivity. Qed.
Lemma fits_JoinConsumerGroupCmd c : fits c_JoinConsumerGroupCmd c <-> utf8 (jc_GroupID c) /\ utf8 (jc_MemberID c) /\ utf8 (jc_ClientHost c) /\
  Forall utf8 (jc_SubscribedTopics c) /\ in_i64 (jc_JoinedAtMs c) /\ (forall m, jc_Member c = Some m -> fits c_MemberState m) /\
  opt_fits k_string (c_list c_TopicPartition) (jc_NewAssignment c).
Proof.
  unfold c_JoinConsumerGroupCmd. rewrite fits_c_struct, !fits_field, !fits_field_omitempty, fits_end. cbn [fst snd].
  unfold c_assignment. rewrite fits_c_opt, fits_c_ptr. reflexivity.
Qed.
Lemma fits_LeaveConsumerGroupCmd c : fits c_LeaveConsumerGroupCmd c <-> utf8 (lc_GroupID c) /\ utf8 (lc_MemberID c) /\ utf8 (lc_Reason c) /\
  opt_fits k_string (c_list c_TopicPartition) (lc_NewAssignment c).
Proof.
  unfold c_LeaveConsumerGroupCmd. rewrite fits_c_struct, !fits_field, !fits_field_omitempty, fits_end. cbn [fst snd].
  unfold c_assignment. rewrite fits_c_opt. reflexivity.
Qed.
Lemma fits_CommitConsumerOffsetCmd c : fits c_CommitConsumerOffsetCmd c <-> utf8 (cc_GroupID c) /\ Forall (fits c_CommittedOffset) (cc_Offsets c) /\
  opt_fits k_TopicPartition c_i64 (cc_GroupOffsets c).
Proof.
  unfold c_CommitConsumerOffsetCmd. rewrite fits_c_struct, !fits_field, !fits_field_omitempty, fits_end. cbn [fst snd].
  rewrite fits_c_opt. reflexivity.
Qed.
Lemma fits_RebalanceConsumerGroupCmd c : fits c_RebalanceConsumerGroupCmd c <-> utf8 (rc_GroupID c) /\ Forall utf8 (rc_ExpiredMemberIDs c) /\
  in_i64 (rc_TimestampMs c).
Proof. fits_struct c_RebalanceConsumerGroupCmd. reflexivity. Qed.

(** The payload of a command fits. *)
Definition payload_fits (cmd : MetadataCommand) : Prop :=
  match cmd with
  | CmdCreateTopic (Some c) => fits c_CreateTopicCmd c
  | CmdAlterTopicPartCount (Some c) => fits c_AlterTopicPartCountCmd c
  | CmdAlterTopicRetention (Some c) => fits c_AlterTopicRetentionCmd c
  | CmdRegisterNode (Some c) => fits c_NodeInfo c
  | CmdAssignPartitionLeader (Some c) => fits c_AssignPartitionLeaderCmd c
  | CmdJoinConsumerGroup (Some c) => fits c_JoinConsumerGroupCmd c
  | CmdLeaveConsumerGroup (Some c) => fits c_LeaveConsumerGroupCmd c
  | CmdHeartbeatConsumerGroup (Some c) => fits c_HeartbeatConsumerGroupCmd c
  | CmdCommitConsumerOffset (Some c) => fits c_CommitConsumerOffsetCmd c
  | CmdRebalanceConsumerGroup (Some c) => fits c_RebalanceConsumerGroupCmd c
  | _ => True
  end.

Lemma fits_command cmd : command_fits cmd -> payload_fits cmd.
Proof.
  intros (_ & H1 & _ & H2 & H3 & H4 & H5 & H6 & H7 & H8 & H9 & H10 & _).
  destruct cmd as [[c|]|[c|]|[c|]|[c|]|[c|]|[c|]|[c|]|[c|]|[c|]|[c|]|[c|]|]; 
    [exact H1|exact I|exact I|exact I|exact H2|exact I|exact H3|exact I|exact H4|exact I|exact H5|exact I|exact H6|exact I|
     exact H7|exact I|exact H8|exact I|exact H9|exact I|exact H10|exact I|exact I].
Qed.

(** What the log makes of a command fits too. *)
Lemma opt_fits_omitempty {K A} `{Countable K} (k : key_codec K) (c : codec A) o : opt_fits k c o -> opt_fits k c (GroupCoord.omitempty o).
Proof. destruct o as [m|]; cbn; [|done]. by case_match. Qed.

Lemma payload_fits_wire cmd : payload_fits cmd -> payload_fits (GroupCoord.wire cmd).
Proof.
  destruct cmd as [| | | | | |[c|]|[c|]| |[c|]| |]; cbn [GroupCoord.wire payload_fits]; try done.
  - rewrite !fits_JoinConsumerGroupCmd. intros (H1 & H2 & H3 & H4 & H5 & H6 & H7). split_and!; try done. by apply opt_fits_omitempty.
  - rewrite !fits_LeaveConsumerGroupCmd. intros (H1 & H2 & H3 & H4). split_and!; try done. by apply opt_fits_omitempty.
  - rewrite !fits_CommitConsumerOffsetCmd. intros (H1 & H2 & H3). split_and!; try done. by apply opt_fits_omitempty.
Qed.

(** ** Every command keeps the state fit *)

Section apply.
Variables (s s' : MetadataState) (r : Result).
Hypothesis Hs : state_fits s.

Lemma applyCreateTopic_fits c : fits c_CreateTopicCmd c -> applyCreateTopic s c = Ok (s', r) -> state_fits s'.
Proof.
  intros (Hn & Hc & Hr & Hms & Hb & Ha & Hrep)%fits_CreateTopicCmd. unfold applyCreateTopic.
  destruct (Topics s !! ct_Name c); [by intros [= <- _]|]. destruct (_ || _); [by intros [= <- _]|].
  destruct (negb _); [by intros [= <- _]|]. destruct (create_partitions _ _ _ _ _ _) as [parts| | |] eqn:Ep; try discriminate.
  cbn [mbind outcome_bind]. intros [= <- _]. pose proof Hs as (H1 & H2 & H3 & H4 & H5 & H6)%fits_MetadataState.
  apply fits_MetadataState. split_and!; try done; [| |apply u64_range].
  - apply map_fits_insert; [done|done|]. by apply fits_TopicMeta.
  - unfold in_i32 in Hc. refine (create_partitions_fit _ _ _ _ _ _ _ Hn Hrep _ _ H2 Ep); lia.
Qed.

Lemma applyDeleteTopic_fits name : applyDeleteTopic s name = Ok (s', r) -> state_fits s'.
Proof.
  unfold applyDeleteTopic. destruct (Topics s !! name); intros [= <- _]; [|done].
  pose proof Hs as (H1 & H2 & H3 & H4 & H5 & H6)%fits_MetadataState. apply fits_MetadataState. split_and!; try done.
  - by apply map_fits_delete.
  - by apply delete_partitions_fit.
Qed.

Lemma applyAlterTopicPartCount_fits c : fits c_AlterTopicPartCountCmd c -> applyAlterTopicPartCount s c = Ok (s', r) -> state_fits s'.
Proof.
  intros (Hn & Hc & Ha)%fits_AlterTopicPartCountCmd. unfold applyAlterTopicPartCount.
  destruct (Topics s !! at_Name c) as [t|] eqn:Et; [|by intros [= <- _]]. destruct (_ <=? _); intros [= <- _]; [done|].
  pose proof Hs as (H1 & H2 & H3 & H4 & H5 & H6)%fits_MetadataState.
  destruct (H1 _ _ Et) as [_ (T1 & T2 & T3 & T4 & T5 & T6)%fits_TopicMeta].
  apply fits_MetadataState. split_and!; try done; [| |apply u64_range].
  - apply map_fits_insert; [done|done|]. by apply fits_TopicMeta.
  - by apply add_partitions_fit.
Qed.

Lemma applyAlterTopicRetention_fits c : fits c_AlterTopicRetentionCmd c -> applyAlterTopicRetention s c = Ok (s', r) -> state_fits s'.
Proof.
  intros (Hn & Hm & Hb)%fits_AlterTopicRetentionCmd. unfold applyAlterTopicRetention.
  destruct (Topics s !! ar_Name c) as [t|] eqn:Et; intros [= <- _]; [|done].
  pose proof Hs as (H1 & H2 & H3 & H4 & H5 & H6)%fits_MetadataState.
  destruct (H1 _ _ Et) as [_ (T1 & T2 & T3 & T4 & T5 & T6)%fits_TopicMeta].
  apply fits_MetadataState. split_and!; try done. apply map_fits_insert; [done|done|]. by apply fits_TopicMeta.
Qed.

Lemma applyRegisterNode_fits n : fits c_NodeInfo n -> applyRegisterNode s n = Ok (s', r) -> state_fits s'.
Proof.
  intros [Hn Ha]%fits_NodeInfo [= <- _]. pose proof Hs as (H1 & H2 & H3 & H4 & H5 & H6)%fits_MetadataState.
  apply fits_MetadataState. split_and!; try done. apply map_fits_insert; [done|done|]. by apply fits_NodeInfo.
Qed.

Lemma applyAssignPartitionLeader_fits c : fits c_AssignPartitionLeaderCmd c -> applyAssignPartitionLeader s c = Ok (s', r) -> state_fits s'.
Proof.
  intros (Ht & Hi & Hl & He)%fits_AssignPartitionLeaderCmd. unfold applyAssignPartitionLeader.
  destruct (Partitions s !! _) as [p|] eqn:Ep; [|by intros [= <- _]]. destruct (_ <=? _); intros [= <- _]; [done|].
  pose proof Hs as (H1 & H2 & H3 & H4 & H5 & H6)%fits_MetadataState.
  destruct (H2 _ _ Ep) as [_ (P1 & P2 & P3 & P4 & P5 & P6)%fits_PartitionMeta].
  apply fits_MetadataState. split_and!; try done. apply map_fits_insert; [done|by apply key_fits|]. by apply fits_PartitionMeta.
Qed.

Lemma applyJoinConsumerGroup_fits c : fits c_JoinConsumerGroupCmd c -> applyJoinConsumerGroup s c = Ok (s', r) -> state_fits s'.
Proof.
  intros (Hg & Hm & Hh & Hsub & Hj & Hmem & Hass)%fits_JoinConsumerGroupCmd. unfold applyJoinConsumerGroup.
  destruct (jc_Member c) as [m|] eqn:Em.
  - intros [= <- _]. apply set_groupStates_fits; [done..|]. set (g := default _ _).
    assert (fits c_GroupState g) as (G1 & G2 & G3 & G4 & G5)%fits_GroupState.
    { subst g. destruct (GroupStates s !! _) as [g|] eqn:Eg; cbn [default]; [by eapply groupState_fits|].
      apply fits_GroupState. split_and!; try done; apply map_fits_empty. }
    apply fits_GroupState. split_and!; try done; [apply map_fits_insert; eauto|apply i32_range|]. cbn [Assignments].
    by destruct (jc_NewAssignment c).
  - set (g := default _ _). set (id := if String.eqb _ _ then _ else _). set (g1 := set_members g _).
    assert (utf8 id) as Hid.
    { subst id. destruct (String.eqb _ _); [|done]. apply utf8_app; [done|]. apply utf8_app; [done|]. apply utf8_app; [done|apply utf8_fmt_d]. }
    assert (fits c_ConsumerGroupMeta g) as Hgf.
    { subst g. destruct (Groups s !! _) as [g|] eqn:Eg; cbn [default]; [by eapply group_fits|].
      apply fits_ConsumerGroupMeta. split_and!; try done; apply map_fits_empty. }
    assert (fits c_ConsumerGroupMeta g1) as Hg1.
    { apply set_members_fits; [done|]. apply fits_ConsumerGroupMeta in Hgf as (_ & _ & Hms & _).
      apply map_fits_insert; [done..|]. apply fits_MemberInfo. split_and!; try done. }
    destruct (rebalance s g1) as [g2| | |] eqn:Er; try discriminate. cbn [mbind outcome_bind].
    destruct (cgMembers (bump g2) !! id); [|done]. intros [= <- _]. apply set_groups_fits; [done..|].
    apply bump_fits. by apply (rebalance_fits _ _ _ Hs Hg1).
Qed.

Lemma applyLeaveConsumerGroup_fits c : fits c_LeaveConsumerGroupCmd c -> applyLeaveConsumerGroup s c = Ok (s', r) -> state_fits s'.
Proof.
  intros (Hg & Hm & _ & Hass)%fits_LeaveConsumerGroupCmd. unfold applyLeaveConsumerGroup, applyGroupStateLeave.
  destruct (GroupStates s !! _) as [g|] eqn:Eg.
  - destruct (Members g !! _); intros [= <- _]; [|done]. apply set_groupStates_fits; [done..|].
    destruct (groupState_fits _ _ _ Hs Eg) as [_ (G1 & G2 & G3 & G4 & G5)%fits_GroupState]. apply fits_GroupState.
    split_and!; try done; [by apply map_fits_delete|apply i32_range|]. cbn [Assignments].
    case_bool_decide; [apply map_fits_empty|]. destruct (lc_NewAssignment c); [done|apply map_fits_empty].
  - destruct (Groups s !! _) as [g|] eqn:Egr; [|by intros [= <- _]]. destruct (group_fits _ _ _ Hs Egr) as [_ Hgf].
    destruct (cgMembers g !! _); [|by intros [= <- _]]. destruct (rebalance s _) as [g2| | |] eqn:Er; try discriminate.
    cbn [mbind outcome_bind]. intros [= <- _]. apply set_groups_fits; [done..|]. apply bump_fits.
    apply (rebalance_fits _ _ _ Hs) in Er; [done|].
    apply set_members_fits; [done|]. apply fits_ConsumerGroupMeta in Hgf as (_ & _ & Hms & _). by apply map_fits_delete.
Qed.

Lemma applyHeartbeatConsumerGroup_fits c : fits c_HeartbeatConsumerGroupCmd c -> applyHeartbeatConsumerGroup s c = Ok (s', r) -> state_fits s'.
Proof.
  intros (Hg & Hm & _ & Ht)%fits_HeartbeatConsumerGroupCmd. unfold applyHeartbeatConsumerGroup.
  destruct (Groups s !! _) as [g|] eqn:Egr; [|by intros [= <- _]]. destruct (group_fits _ _ _ Hs Egr) as [_ Hgf].
  destruct (cgMembers g !! _) as [m|] eqn:Em; [|by intros [= <- _]].
  intros E. assert (exists g', s' = set_groups s (<[hc_GroupID c := g']> (Groups s)) /\ fits c_ConsumerGroupMeta g') as (g' & -> & Hg').
  { eexists. split; [destruct (negb _); by injection E as <- _|]. apply set_members_fits; [done|].
    apply fits_ConsumerGroupMeta in Hgf as (_ & _ & Hms & _). destruct (Hms _ _ Em) as [_ (M1 & M2 & M3 & M4 & M5)%fits_MemberInfo].
    apply map_fits_insert; [done..|]. by apply fits_MemberInfo. }
  by apply set_groups_fits.
Qed.

Lemma offsets_fit l (m : gmap PartitionKey Z) :
  Forall (fits c_CommittedOffset) l -> map_fits k_PartitionKey c_i64 m ->
  map_fits k_PartitionKey c_i64 (fold_left (fun m o => <[PKey (co_Topic o) (co_PartitionID o) := co_Offset o]> m) l m).
Proof.
  intros Hl. revert m. induction Hl as [|o l (H1 & H2 & H3)%fits_CommittedOffset _ IH]; intros m Hm; [done|]. cbn [fold_left].
  apply IH, map_fits_insert; [done|by apply key_fits|done].
Qed.

Lemma applyCommitConsumerOffset_fits c : fits c_CommitConsumerOffsetCmd c -> applyCommitConsumerOffset s c = Ok (s', r) -> state_fits s'.
Proof.
  intros (Hg & Ho & Hgo)%fits_CommitConsumerOffsetCmd. unfold applyCommitConsumerOffset, applyGroupStateCommitOffset.
  destruct (cc_GroupOffsets c) as [o|].
  - destruct (GroupStates s !! _) as [g|] eqn:Eg; intros [= <- _]; [|done]. apply set_groupStates_fits; [done..|].
    destruct (groupState_fits _ _ _ Hs Eg) as [_ (G1 & G2 & G3 & G4 & G5)%fits_GroupState]. apply fits_GroupState.
    split_and!; try done. by apply map_fits_union.
  - destruct (Groups s !! _) as [g|] eqn:Eg; intros [= <- _]; [|done]. apply set_groups_fits; [done..|].
    destruct (group_fits _ _ _ Hs Eg) as [_ (G1 & G2 & G3 & G4)%fits_ConsumerGroupMeta]. apply fits_ConsumerGroupMeta.
    split_and!; try done. by apply offsets_fit.
Qed.

Lemma applyRebalanceConsumerGroup_fits c : fits c_RebalanceConsumerGroupCmd c -> applyRebalanceConsumerGroup s c = Ok (s', r) -> state_fits s'.
Proof.
  intros (Hg & _ & _)%fits_RebalanceConsumerGroupCmd. unfold applyRebalanceConsumerGroup.
  destruct (Groups s !! _) as [g|] eqn:Egr; [|by intros [= <- _]]. destruct (group_fits _ _ _ Hs Egr) as [_ Hgf].
  destruct (rebalance s _) as [g2| | |] eqn:Er; try discriminate. cbn [mbind outcome_bind]. intros [= <- _].
  apply set_groups_fits; [done..|]. apply bump_fits. apply (rebalance_fits _ _ _ Hs) in Er; [done|].
  apply set_members_fits; [done|]. apply fits_ConsumerGroupMeta in Hgf as (_ & _ & Hms & _). by apply map_fits_deletes.
Qed.

Lemma applyCommand_fits cmd : payload_fits cmd -> applyCommand s cmd = Ok (s', r) -> state_fits s'.
Proof.
  intros Hf. destruct cmd as [[c|]|[c|]|[c|]|[c|]|[c|]|[c|]|[c|]|[c|]|[c|]|[c|]|[c|]|]; cbn [applyCommand deref]; try discriminate.
  - by apply applyCreateTopic_fits.
  - apply applyDeleteTopic_fits.
  - by apply applyAlterTopicPartCount_fits.
  - by apply applyAlterTopicRetention_fits.
  - by apply applyRegisterNode_fits.
  - by apply applyAssignPartitionLeader_fits.
  - by apply applyJoinConsumerGroup_fits.
  - by apply applyLeaveConsumerGroup_fits.
  - by apply applyHeartbeatConsumerGroup_fits.
  - by apply applyCommitConsumerOffset_fits.
  - by apply applyRebalanceConsumerGroup_fits.
  - by intros [= <- _].
Qed.

Lemma Update_fits cmd : command_fits cmd -> Update s (decode_command (encode_command cmd)) = Ok (s', r) -> state_fits s'.
Proof.
  intros Hf. rewrite command_decodes by done. cbn [Update]. by apply applyCommand_fits, payload_fits_wire, fits_command.
Qed.

End apply.

(** ** The log *)

(** What a replica makes of a log. *)
Fixpoint replay (s : MetadataState) (log : list json) : outcome MetadataState :=
  match log with
  | [] => Ok s
  | v :: log' => '(s', _) ← Update s (decode_command v); replay s' log'
  end.

Lemma replay_app s log1 log2 : replay s (log1 ++ log2) = (s' ← replay s log1; replay s' log2).
Proof.
  revert s. induction log1 as [|v log1 IH]; intros s; [done|]. cbn [app replay].
  destruct (Update s (decode_command v)) as [[s' r]| | |]; cbn [mbind outcome_bind]; [apply IH|done..].
Qed.

Lemma replay_fits cmds s s' :
  Forall command_fits cmds -> state_fits s -> replay s (map encode_command cmds) = Ok s' -> state_fits s'.
Proof.
  intros Hc. revert s. induction Hc as [|cmd cmds Hcmd _ IH]; intros s Hs; cbn [map replay]; [by intros [= <-]|].
  destruct (Update s (decode_command (encode_command cmd))) as [[s1 r]| | |] eqn:E; try discriminate.
  cbn [mbind outcome_bind]. apply IH. by apply (Update_fits s s1 r Hs cmd).
Qed.

Lemma NewMetadataFSM_fits : state_fits NewMetadataFSM.
Proof. apply fits_MetadataState. split_and!; try apply map_fits_empty. cbn. unfold in_u64. lia. Qed.

(** C11: Catching up by snapshot. Take a snapshot of a replica after any log of commands whose
    numbers fit their types and whose strings are valid UTF-8. The snapshot can be written, any
    replica can be restored from it, and whatever log follows, the restored replica then has
    the state of one that replayed the log from the beginning. A restore that is stopped, or
    whose snapshot cannot be read, leaves the replica as it was. *)
Theorem snapshot_catchup cmds s old :
  Forall command_fits cmds -> replay NewMetadataFSM (map encode_command cmds) = Ok s ->
  exists v s1, SaveSnapshot s false = Ok v /\ RecoverFromSnapshot old v false = (Ok tt, s1) /\
    (forall log, replay s1 log = replay NewMetadataFSM (map encode_command cmds ++ log)) /\
    RecoverFromSnapshot old v true = (Err ErrSnapshotStopped, old) /\
    forall v', dec c_MetadataState v' = None -> exists e, RecoverFromSnapshot old v' false = (Err e, old).
Proof.
  intros Hc Hr. destruct (snapshot_restores s old) as (v & Hv & Hrec & Hstop & Hbad).
  { by apply (replay_fits cmds NewMetadataFSM). }
  exists v, s. split_and!; try done. intros log. by rewrite replay_app, Hr.
Qed.

Definition after_t : MetadataState := match replay NewMetadataFSM [encode_command cmd_t] with Ok s => s | _ => NewMetadataFSM end.

Lemma snapshot_catchup_witness :
  exists v s1, SaveSnapshot after_t false = Ok v /\ RecoverFromSnapshot NewMetadataFSM v false = (Ok tt, s1) /\
    (forall log, replay s1 log = replay NewMetadataFSM (map encode_command [cmd_t] ++ log)) /\
    RecoverFromSnapshot NewMetadataFSM v true = (Err ErrSnapshotStopped, NewMetadataFSM) /\
    forall v', dec c_MetadataState v' = None -> exists e, RecoverFromSnapshot NewMetadataFSM v' false = (Err e, NewMetadataFSM).
Proof.
  apply (snapshot_catchup [cmd_t] after_t NewMetadataFSM).
  - constructor; [apply cmd_t_fits|constructor].
  - vm_compute. reflexivity.
Defined.

End MetaSnap.
