(* ===== verification/GroupSem.v ===== *)
(** * Coordinator calls among other coordinators

    The world of a group coordinator: the local replica of the metadata state machine, the
    heartbeat table and the clock. Requests may fail, and between any two requests other nodes'
    commands are applied. Under any such interleaving no partition is ever assigned to two
    members of a group ([single_owner]), although two joins may overlap; what overlapping joins
    can lose is shown by [join_race]. *)

From S2P Require Import Prelude SegName Keys Metadata RangeAssign Prog GroupCoord.
Local Open Scope Z_scope.

Module GroupSem.
Import Metadata RangeAssign GroupCoord.

Record world := { w_fsm : MetadataState; w_table : heartbeats; w_clock : Z }.

Definition set_fsm (w : world) s : world := {| w_fsm := s; w_table := w_table w; w_clock := w_clock w |}.
Definition set_table (w : world) t : world := {| w_fsm := w_fsm w; w_table := t; w_clock := w_clock w |}.
Definition set_clock (w : world) c : world := {| w_fsm := w_fsm w; w_table := w_table w; w_clock := c |}.

Definition members_of (s : MetadataState) (group : string) : gmap string MemberState :=
  match GroupStates s !! group with Some g => Members g | None => ∅ end.

(** A reply to a request and the world after it. A lookup reads the local replica or fails with
    an error of the raft library; a proposal is applied and its result returned, or it fails (and
    may then still be applied later, as a step of the environment). *)
Definition sem X (e : groupE X) : world -> X -> world -> Prop :=
  match e in groupE X return world -> X -> world -> Prop with
  | ELookup q => fun w x w' => w' = w /\
      (x = Lookup (w_fsm w) q \/ exists err, x = Err err /\ errors_is err sErrNotFound = false)
  | EPropose cmd => fun w x w' =>
      (exists s' r, Update (w_fsm w) (Some (wire cmd)) = Ok (s', r) /\ x = Ok r /\ w' = set_fsm w s') \/
      (exists err, x = Err err /\ w' = w)
  | ELeader _ => fun w x w' => w' = w /\ ((exists l, x = Ok l) \/ exists err, x = Err err)
  | ENow => fun w x w' => w_clock w <= x /\ w' = set_clock w x
  | EUuid => fun w x w' => w' = w
  | EOrder keys => fun w x w' => x ≡ₚ keys /\ w' = w
  | EMembers group => fun w x w' => x = members_of (w_fsm w) group /\ w' = w
  | EHeartbeats => fun w x w' => x = w_table w /\ w' = w
  | EUpdateHeartbeats f => fun w x w' => w' = set_table w (f (w_table w))
  end.

(** No partition belongs to two members. *)
Definition disjoint_assignment (R : gmap string (list TopicPartition)) : Prop :=
  forall id1 id2 l1 l2 tp, R !! id1 = Some l1 -> R !! id2 = Some l2 -> tp ∈ l1 -> tp ∈ l2 -> id1 = id2.

Definition opt_disjoint (R : option (gmap string (list TopicPartition))) : Prop :=
  match R with Some R => disjoint_assignment R | None => True end.

(** Commands of other processes: topic commands with int32 counts, and group commands whose
    assignment gives no partition to two members. *)
Definition admissible (cmd : option MetadataCommand) : Prop :=
  match cmd with
  | Some (CmdCreateTopic (Some c)) => in_i32 (ct_PartitionCount c)
  | Some (CmdAlterTopicPartCount (Some c)) => in_i32 (at_NewPartitionCount c)
  | Some (CmdJoinConsumerGroup (Some c)) => opt_disjoint (jc_NewAssignment c)
  | Some (CmdLeaveConsumerGroup (Some c)) => opt_disjoint (lc_NewAssignment c)
  | _ => True
  end.

Inductive env : world -> world -> Prop :=
| env_command w cmd s' r : admissible cmd -> Update (w_fsm w) cmd = Ok (s', r) -> env w (set_fsm w s')
| env_heartbeats w t : env w (set_table w t)
| env_clock w c : w_clock w <= c -> env w (set_clock w c).

(** ** The invariant of the state machine *)

Record groups_ok (s : MetadataState) : Prop := {
  go_counts : forall t m, Topics s !! t = Some m -> 0 <= PartitionCount m < 2 ^ 31;
  go_disjoint : forall g gs, GroupStates s !! g = Some gs -> disjoint_assignment (Assignments gs)
}.

Lemma disjoint_empty : disjoint_assignment ∅.
Proof. intros id1 id2 l1 l2 tp H. by rewrite lookup_empty in H. Qed.
#[local] Hint Resolve disjoint_empty : core.

Lemma groups_ok_same s s' :
  groups_ok s -> Topics s' = Topics s -> GroupStates s' = GroupStates s -> groups_ok s'.
Proof. intros [] E1 E2. constructor; rewrite ?E1, ?E2; done. Qed.

Lemma groups_ok_group s g gs :
  groups_ok s -> disjoint_assignment (Assignments gs) ->
  groups_ok (set_groupStates s (<[g := gs]> (GroupStates s))).
Proof.
  intros [] Hd. constructor; [done|]. intros g' gs'. cbn. intros [[_ <-]|[_ H]]%lookup_insert_Some; [done|].
  by eapply go_disjoint0.
Qed.

Lemma groups_ok_topic s t m :
  groups_ok s -> 0 <= PartitionCount m < 2 ^ 31 -> groups_ok (set_topics s (<[t := m]> (Topics s))).
Proof.
  intros [] Hm. constructor; [|done]. intros t' m'. cbn. intros [[_ <-]|[_ H]]%lookup_insert_Some; [done|].
  by eapply go_counts0.
Qed.

Ltac unchanged H := injection H as <- <-; first [assumption | by eapply groups_ok_same].

(** The handlers that change topics or group states. *)
Lemma create_groups_ok s c s' r :
  groups_ok s -> in_i32 (ct_PartitionCount c) -> applyCreateTopic s c = Ok (s', r) -> groups_ok s'.
Proof.
  intros Hok Hi H. unfold applyCreateTopic in H. destruct (Topics s !! ct_Name c); [unchanged H|].
  destruct (Z.leb_spec (ct_PartitionCount c) 0); [unchanged H|]. cbn [orb] in H.
  destruct (ct_ReplicationFactor c <=? 0); [unchanged H|]. destruct (negb _); [unchanged H|].
  apply bind_Ok in H as (parts & _ & H). injection H as <- <-.
  match goal with |- context [<[ct_Name c := ?m]> (Topics s)] =>
    apply (groups_ok_same (set_topics s (<[ct_Name c := m]> (Topics s)))); [|reflexivity..] end.
  apply groups_ok_topic; [done|]. cbn. unfold in_i32 in Hi. lia.
Qed.

Lemma alter_groups_ok s c s' r :
  groups_ok s -> in_i32 (at_NewPartitionCount c) -> applyAlterTopicPartCount s c = Ok (s', r) -> groups_ok s'.
Proof.
  intros Hok Hi H. unfold applyAlterTopicPartCount in H. destruct (Topics s !! at_Name c) as [m|] eqn:Et; [|unchanged H].
  pose proof (go_counts _ Hok _ _ Et). destruct (Z.leb_spec (at_NewPartitionCount c) (PartitionCount m)); [unchanged H|].
  injection H as <- <-.
  eapply (groups_ok_same (set_topics s (<[at_Name c := set_partitionCount m (at_NewPartitionCount c)]> (Topics s))));
    [|reflexivity..]. apply groups_ok_topic; [done|]. cbn. unfold in_i32 in Hi. lia.
Qed.

Lemma retention_groups_ok s c s' r : groups_ok s -> applyAlterTopicRetention s c = Ok (s', r) -> groups_ok s'.
Proof.
  intros Hok H. unfold applyAlterTopicRetention in H. destruct (Topics s !! ar_Name c) as [m|] eqn:Et; [|unchanged H].
  injection H as <- <-. apply groups_ok_topic; [done|]. cbn. by apply (go_counts _ Hok _ _ Et).
Qed.

Lemma delete_groups_ok s name s' r : groups_ok s -> applyDeleteTopic s name = Ok (s', r) -> groups_ok s'.
Proof.
  intros Hok H. unfold applyDeleteTopic in H. destruct (Topics s !! name) as [m|]; [|unchanged H].
  injection H as <- <-. destruct Hok. constructor; [|done]. intros t m'. cbn.
  intros [_ Hm]%lookup_delete_Some. by eapply go_counts0.
Qed.

Lemma join_groups_ok s c s' r :
  groups_ok s -> opt_disjoint (jc_NewAssignment c) -> applyJoinConsumerGroup s c = Ok (s', r) -> groups_ok s'.
Proof.
  intros Hok Hd H. unfold applyJoinConsumerGroup in H. destruct (jc_Member c) as [m|].
  - unfold applyGroupStateJoin in H. injection H as <- <-. apply groups_ok_group; [done|]. cbn.
    destruct (jc_NewAssignment c); cbn; [done|]. destruct (GroupStates s !! jc_GroupID c) as [g|] eqn:Eg; cbn; [|done].
    by apply (go_disjoint _ Hok _ _ Eg).
  - set (id := if String.eqb _ _ then _ else _) in H. apply bind_Ok in H as (g & _ & H).
    destruct (cgMembers (bump g) !! id); [|done]. unchanged H.
Qed.

Lemma leave_groups_ok s c s' r :
  groups_ok s -> opt_disjoint (lc_NewAssignment c) -> applyLeaveConsumerGroup s c = Ok (s', r) -> groups_ok s'.
Proof.
  intros Hok Hd H. unfold applyLeaveConsumerGroup, applyGroupStateLeave in H.
  destruct (GroupStates s !! lc_GroupID c) as [g|].
  - destruct (Members g !! lc_MemberID c); [|unchanged H]. injection H as <- <-. apply groups_ok_group; [done|].
    cbn. destruct (bool_decide _); [done|]. by destruct (lc_NewAssignment c).
  - destruct (Groups s !! lc_GroupID c) as [g|]; [|unchanged H].
    destruct (cgMembers g !! lc_MemberID c); [|unchanged H]. apply bind_Ok in H as (g' & _ & H). unchanged H.
Qed.

Lemma commit_groups_ok s c s' r : groups_ok s -> applyCommitConsumerOffset s c = Ok (s', r) -> groups_ok s'.
Proof.
  intros Hok H. unfold applyCommitConsumerOffset, applyGroupStateCommitOffset in H. destruct (cc_GroupOffsets c).
  - destruct (GroupStates s !! cc_GroupID c) as [g'|] eqn:Eg; [|unchanged H]. injection H as <- <-.
    apply groups_ok_group; [done|]. cbn. by apply (go_disjoint _ Hok _ _ Eg).
  - destruct (Groups s !! cc_GroupID c); unchanged H.
Qed.

Lemma update_groups_ok s cmd s' r :
  groups_ok s -> admissible cmd -> Update s cmd = Ok (s', r) -> groups_ok s'.
Proof.
  intros Hok Ha H. destruct cmd as [cmd|]; cbn [Update] in H; [|unchanged H].
  destruct cmd as [[c|]|[c|]|[c|]|[c|]|[c|]|[c|]|[c|]|[c|]|[c|]|[c|]|[c|]|]; cbn [applyCommand deref admissible] in *;
    try discriminate H.
  - by apply create_groups_ok in H.
  - by apply delete_groups_ok in H.
  - by apply alter_groups_ok in H.
  - by apply retention_groups_ok in H.
  - unfold applyRegisterNode in H. unchanged H.
  - unfold applyAssignPartitionLeader in H. destruct (Partitions s !! _); [|unchanged H].
    destruct (_ <=? _); unchanged H.
  - by apply join_groups_ok in H.
  - by apply leave_groups_ok in H.
  - unfold applyHeartbeatConsumerGroup in H. destruct (Groups s !! _) as [g|]; [|unchanged H].
    destruct (cgMembers g !! _); [|unchanged H]. destruct (negb _); unchanged H.
  - by apply commit_groups_ok in H.
  - unfold applyRebalanceConsumerGroup in H. destruct (Groups s !! _) as [g|]; [|unchanged H].
    apply bind_Ok in H as (g' & _ & H). unchanged H.
  - unchanged H.
Qed.

(** ** The calls keep the invariant *)

Definition Inv (w : world) : Prop := groups_ok (w_fsm w).

Lemma env_Inv w w' : Inv w -> env w w' -> Inv w'.
Proof.
  intros Hw He. destruct He as [w cmd s' r Ha Hu|w t|w c Hc]; [|exact Hw|exact Hw]. exact (update_groups_ok _ _ _ _ Hw Ha Hu).
Qed.

Abbreviation gsafe := (safe sem Inv).
Definition any {A} (_ : A) : Prop := True.

Lemma safe_lookup q Q :
  (forall s, groups_ok s -> on_ok Q (Lookup s q)) -> gsafe (on_ok Q) (trigger (ELookup q)).
Proof. intros HQ w x w' Hw [-> [->|(e & -> & _)]]; split; try done. by apply HQ. Qed.

Lemma safe_lookup_any q : gsafe (on_ok any) (trigger (ELookup q)).
Proof. apply safe_lookup. intros s _. by destruct (Lookup s q). Qed.

Lemma safe_propose cmd : admissible (Some (wire cmd)) -> gsafe (on_ok any) (trigger (EPropose cmd)).
Proof.
  intros Ha w x w' Hw [(s' & r & Hu & -> & ->)|(e & -> & ->)]; split; try done.
  by eapply (update_groups_ok _ _ s' r).
Qed.

Lemma safe_order keys : gsafe (fun l => l ≡ₚ keys) (trigger (EOrder keys)).
Proof. intros w x w' Hw [H ->]. by split. Qed.

Lemma safe_members g : gsafe any (trigger (EMembers g)).
Proof. intros w x w' Hw [_ ->]. by split. Qed.
Lemma safe_now : gsafe any (trigger ENow).
Proof. intros w x w' Hw [_ ->]. by split. Qed.
Lemma safe_uuid : gsafe any (trigger EUuid).
Proof. intros w x w' Hw ->. by split. Qed.
Lemma safe_heartbeats : gsafe any (trigger EHeartbeats).
Proof. intros w x w' Hw [_ ->]. by split. Qed.
Lemma safe_update f : gsafe any (trigger (EUpdateHeartbeats f)).
Proof. intros w x w' Hw ->. by split. Qed.
Lemma safe_leader n : gsafe any (trigger (ELeader n)).
Proof. intros w x w' Hw [-> _]. by split. Qed.

Create HintDb gsafe.
#[local] Hint Resolve safe_lookup_any safe_members safe_now safe_uuid safe_heartbeats safe_update safe_leader : gsafe.

(** One request whose reply does not matter. *)
Ltac sbind := eapply safe_bind; [solve [eauto with gsafe]|].

Lemma safe_group g wrap {B} (R : B -> Prop) k :
  (forall o, gsafe (on_ok R) (k o)) -> gsafe (on_ok R) (lookup_group g wrap k).
Proof.
  intros Hk. unfold lookup_group. eapply safe_call; [apply safe_lookup_any|]. by intros [] _.
Qed.

Lemma topic_lookup_ok t s :
  groups_ok s -> on_ok (fun a => match a with ATopic m => 0 <= PartitionCount m < 2 ^ 31 | _ => True end)
    (Lookup s (QueryGetTopic t)).
Proof. intros Hs. cbn. destruct (Topics s !! t) as [m|] eqn:E; cbn; [|done]. by apply (go_counts _ Hs _ _ E). Qed.

Lemma counts_ok_insert counts t c : counts_ok counts -> 0 <= c < 2 ^ 31 -> counts_ok (<[t := c]> counts).
Proof. intros H Hc t' c' [[_ <-]|[_ H']]%lookup_insert_Some; [done|]. by apply (H t'). Qed.

Lemma counts_ok_empty : counts_ok ∅.
Proof. intros t c H. by rewrite lookup_empty in H. Qed.

Lemma safe_topic_counts topics counts : counts_ok counts -> gsafe (on_ok counts_ok) (topic_counts topics counts).
Proof.
  revert counts. induction topics as [|t topics IH]; intros counts Hc; cbn [topic_counts]; [done|].
  eapply safe_call; [apply safe_lookup, topic_lookup_ok|]. intros [] Hm; try done. by apply IH, counts_ok_insert.
Qed.

Lemma safe_known_counts strict topics counts :
  counts_ok counts -> gsafe (on_ok counts_ok) (known_counts strict topics counts).
Proof.
  revert counts. induction topics as [|t topics IH]; intros counts Hc; cbn [known_counts]; [done|].
  eapply safe_bind; [apply safe_lookup, (topic_lookup_ok t)|]. intros [[]|e|q|] Hm; try done.
  - apply IH, counts_ok_insert; done.
  - destruct (negb strict || _); [by apply IH|done].
Qed.

Lemma wire_disjoint R : disjoint_assignment R -> opt_disjoint (omitempty (Some R)).
Proof. intros H. cbn. by destruct (decide _). Qed.

Lemma keys_NoDup {A} (m : gmap string A) memberID others :
  others ≡ₚ filter (fun id => id <> memberID) (map_to_list m).*1 ->
  NoDup others /\ NoDup (memberID :: others).
Proof.
  intros P. assert (NoDup others) as H by (rewrite P; apply NoDup_filter, NoDup_fst_map_to_list).
  split; [done|]. constructor; [|done]. rewrite P, list_elem_of_filter. tauto.
Qed.

Lemma rangeAssign_ok ids topics counts :
  NoDup ids -> counts_ok counts -> disjoint_assignment (rangeAssign ids topics counts).
Proof. intros Hn Hc id1 id2 l1 l2 tp. by apply rangeAssign_disjoint. Qed.

Lemma safe_Join config req : gsafe (on_ok any) (JoinGroup config req).
Proof.
  unfold JoinGroup. destruct (_ || _); [done|].
  eapply safe_call; [apply safe_topic_counts, counts_ok_empty|]. intros counts Hc. apply safe_group. intros cur.
  set (members := match cur with Some g => Members g | None => ∅ end).
  eapply safe_bind; [apply safe_order|]. intros keys _.
  destruct (match keys with [] => _ | _ => _ end); [done|].
  eapply (safe_bind _ _ any); [destruct (String.eqb _ _); [apply safe_uuid|done]|]. intros memberID _.
  eapply safe_bind; [apply safe_order|]. intros others Ho. sbind. intros now _.
  eapply safe_call; [apply safe_propose; refine (wire_disjoint _ _); apply rangeAssign_ok;
    [exact (proj2 (keys_NoDup _ _ _ Ho))|done]|].
  intros r _. apply safe_group. intros [g|]; [|done]. sbind. intros ? _. sbind. done.
Qed.

Lemma safe_Leave groupID memberID : gsafe (on_ok any) (LeaveGroup groupID memberID).
Proof.
  unfold LeaveGroup. apply safe_group. intros [g|]; [|done]. destruct (Members g !! memberID) as [ms|]; [|done].
  eapply safe_bind; [apply safe_order|]. intros ids Hi.
  eapply safe_call; [apply safe_known_counts, counts_ok_empty|]. intros counts Hc.
  eapply safe_call; [apply safe_propose; refine (wire_disjoint _ _); apply rangeAssign_ok;
    [exact (proj1 (keys_NoDup _ _ _ Hi))|done]|].
  intros r _. sbind. done.
Qed.

Lemma safe_Commit g m n o : gsafe (on_ok any) (CommitOffset g m n o).
Proof.
  unfold CommitOffset. apply safe_group. intros [gs|]; [|done]. destruct (Members gs !! m); [|done].
  destruct (negb _); [done|]. destruct (negb _); [done|].
  eapply safe_call; [by apply safe_propose|]. done.
Qed.

Lemma safe_Fetch g ps : gsafe (on_ok any) (FetchCommittedOffsets g ps).
Proof. unfold FetchCommittedOffsets. eapply safe_call; [apply safe_lookup_any|]. done. Qed.

Lemma safe_Heartbeat g m n : gsafe (on_ok any) (Heartbeat g m n).
Proof.
  unfold Heartbeat. apply safe_group. intros [gs|]; [|done]. destruct (Members gs !! m); [|done].
  sbind. intros now _. sbind. done.
Qed.

Lemma safe_Rebuild : gsafe any RebuildHeartbeatTable.
Proof.
  unfold RebuildHeartbeatTable. sbind. intros [[]|e|q|] _; try done. sbind. intros now _. apply safe_update.
Qed.

Lemma safe_sweep_member now g m ms : gsafe (on_ok any) (sweep_member now g m ms).
Proof.
  unfold sweep_member. sbind. intros table _. destruct (table !! g ≫= _); [|done]. destruct (negb _); [done|].
  sbind. intros members _. eapply safe_bind; [apply safe_order|]. intros ids Hi.
  eapply safe_call; [apply safe_known_counts, counts_ok_empty|]. intros counts Hc.
  eapply safe_bind; [apply safe_propose; refine (wire_disjoint _ _); apply rangeAssign_ok;
    [exact (proj1 (keys_NoDup _ _ _ Hi))|done]|].
  intros [r|e|q|] _; try done. sbind. done.
Qed.

Lemma safe_sweep_members now g ids : gsafe (on_ok any) (sweep_members now g ids).
Proof.
  induction ids as [|id ids IH]; cbn [sweep_members]; [done|]. sbind. intros members _.
  destruct (members !! id); [|done]. eapply safe_call; [apply safe_sweep_member|]. done.
Qed.

Lemma safe_sweep_groups now gs : gsafe (on_ok any) (sweep_groups now gs).
Proof.
  induction gs as [|g gs IH]; cbn [sweep_groups]; [done|]. sbind. intros members _.
  eapply safe_bind; [apply safe_order|]. intros ids _. eapply safe_call; [apply safe_sweep_members|]. done.
Qed.

Lemma safe_sweepOnce config : gsafe (on_ok any) (sweepOnce config).
Proof.
  unfold sweepOnce. sbind. intros [[[l t] [|]]|e|q|] _; try done. destruct (negb _); [done|].
  sbind. intros [[]|e|q|] _; try done. sbind. intros now _. eapply safe_bind; [apply safe_order|].
  intros gids _. apply safe_sweep_groups.
Qed.

(** ** Any interleaving *)

(** The calls of a coordinator. *)
Inductive gcall :=
| CallJoin (req : JoinGroupRequest)
| CallLeave (group member : string)
| CallCommit (group member : string) (generation : Z) (offsets : gmap TopicPartition Z)
| CallFetch (group : string) (partitions : list TopicPartition)
| CallHeartbeat (group member : string) (generation : Z)
| CallRebuild
| CallSweep.

(** The call, as what it does to the world. *)
Definition call_prog (config : GroupCoordinatorConfig) (c : gcall) : gprog (outcome unit) :=
  match c with
  | CallJoin req => call (JoinGroup config req) id (fun _ => Ret (Ok tt))
  | CallLeave g m => LeaveGroup g m
  | CallCommit g m n o => CommitOffset g m n o
  | CallFetch g ps => call (FetchCommittedOffsets g ps) id (fun _ => Ret (Ok tt))
  | CallHeartbeat g m n => call (Heartbeat g m n) id (fun _ => Ret (Ok tt))
  | CallRebuild => _ ← RebuildHeartbeatTable; Ret (Ok tt)
  | CallSweep => sweepOnce config
  end.

Lemma safe_calls config c : gsafe (on_ok any) (call_prog config c).
Proof.
  destruct c; cbn [call_prog].
  - eapply safe_call; [apply safe_Join|done].
  - apply safe_Leave.
  - apply safe_Commit.
  - eapply safe_call; [apply safe_Fetch|done].
  - eapply safe_call; [apply safe_Heartbeat|done].
  - eapply safe_bind; [apply safe_Rebuild|done].
  - apply safe_sweepOnce.
Qed.

(** C4: whatever call a coordinator makes, whatever fails, and whatever other coordinators
    have applied between its requests, no partition is assigned to two members of a group. *)
Theorem single_owner config c w w' o :
  groups_ok (w_fsm w) -> exec sem env (call_prog config c) w w' o ->
  forall g gs id1 id2 l1 l2 tp, GroupStates (w_fsm w') !! g = Some gs ->
    Assignments gs !! id1 = Some l1 -> Assignments gs !! id2 = Some l2 -> tp ∈ l1 -> tp ∈ l2 -> id1 = id2.
Proof.
  intros Hw He g gs id1 id2 l1 l2 tp Hg. destruct (safe_exec sem env Inv _ _ _ _ _ env_Inv (safe_calls config c) Hw He)
    as [Hw' _]. by apply (go_disjoint _ Hw' _ _ Hg).
Qed.

(** ** Running without interference *)

(** A handler for calls that run alone on a host that does not fail: [uuid] is the next uuid,
    [ord] the order of map iterations, [leader] what the host says about the leader. *)
Definition handle (uuid : string) (ord : list string -> list string) (leader : Z * Z * bool)
    X (e : groupE X) : world -> X * world :=
  match e in groupE X return world -> X * world with
  | ELookup q => fun w => (Lookup (w_fsm w) q, w)
  | EPropose cmd => fun w =>
      match Update (w_fsm w) (Some (wire cmd)) with
      | Ok (s', r) => (Ok r, set_fsm w s')
      | _ => (Err (ErrNew "timeout"), w)
      end
  | ELeader _ => fun w => (Ok leader, w)
  | ENow => fun w => (w_clock w, w)
  | EUuid => fun w => (uuid, w)
  | EOrder keys => fun w => (ord keys, w)
  | EMembers group => fun w => (members_of (w_fsm w) group, w)
  | EHeartbeats => fun w => (w_table w, w)
  | EUpdateHeartbeats f => fun w => (tt, set_table w (f (w_table w)))
  end.

(** The handler is one of the behaviours of [sem]. *)
Lemma handle_sem uuid ord leader X (e : groupE X) w :
  (forall l, ord l ≡ₚ l) -> sem X e w (handle uuid ord leader X e w).1 (handle uuid ord leader X e w).2.
Proof.
  intros Ho. destruct e; cbn [sem handle fst snd]; auto.
  - destruct (Update (w_fsm w) (Some (wire cmd))) as [[s' r]|e|p|];
      [left; exists s', r; split_and!; reflexivity|right; eexists; split; reflexivity..].
  - split; [done|]. eauto.
  - split; [lia|]. by destruct w.
Qed.

(** ** Witness: two members join a topic of three partitions one after the other. *)

Definition config0 : GroupCoordinatorConfig := NewGroupCoordinator
  {| MetadataShardID := 0; ThisNodeID := 1; SessionTimeoutMinMs := 0; SessionTimeoutMaxMs := 0; SweepIntervalMs := 0 |}.
Definition req0 (member : string) : JoinGroupRequest :=
  {| jq_GroupID := "g"; jq_MemberID := member; jq_Topics := ["t"]; jq_SessionTimeoutMs := 30000;
     jq_HeartbeatIntervalMs := 3000 |}.
Definition s_topic : MetadataState :=
  set_topics NewMetadataFSM {[ "t" := {| Name := "t"; PartitionCount := 3; ReplicationFactor := 1; RetentionMs := 0;
                                        RetentionBytes := 0; CreatedAtMs := 0 |} ]}.
Definition wa : world := {| w_fsm := s_topic; w_table := ∅; w_clock := 5 |}.
Definition hand := handle "uuid-1" id (1, 1, true).
Definition wb : world := (run hand (call_prog config0 (CallJoin (req0 "a"))) wa).2.

Lemma s_topic_ok : groups_ok s_topic.
Proof.
  constructor; cbn.
  - intros t m H. apply lookup_singleton_Some in H as [_ <-]. cbn. lia.
  - intros g gs H. by rewrite lookup_empty in H.
Qed.

Lemma single_owner_witness :
  (exists w' o, exec sem env (call_prog config0 (CallJoin (req0 "a"))) wa w' o /\
     exists gs l, GroupStates (w_fsm w') !! "g" = Some gs /\ Assignments gs !! "a" = Some l /\ TP "t" 2 ∈ l) /\
  forall gs id l, GroupStates (w_fsm wb) !! "g" = Some gs -> Assignments gs !! id = Some l -> TP "t" 2 ∈ l ->
    forall l', Assignments gs !! "a" = Some l' -> TP "t" 2 ∈ l' -> id = "a".
Proof.
  pose proof (run_exec hand sem env (call_prog config0 (CallJoin (req0 "a"))) wa
    (fun X e w => handle_sem _ _ _ X e w (fun l => reflexivity l))) as He. split.
  - do 2 eexists. split; [exact He|]. eexists _, [TP "t" 0; TP "t" 1; TP "t" 2].
    split; [vm_compute; reflexivity|]. split; [vm_compute; reflexivity|].
    apply (bool_decide_unpack _). vm_compute. exact I.
  - intros gs id l Hg Hl Hin l' Hl' Hin'.
    exact (single_owner config0 _ wa wb _ s_topic_ok He "g" gs id "a" l l' (TP "t" 2) Hg Hl Hl' Hin Hin').
Defined.

End GroupSem.
