(* ===== verification/GroupRun.v ===== *)
(** * What the coordinator calls do

    The calls of the group coordinator on a host that does not fail and without other
    processes: every branch of [JoinGroup], [LeaveGroup], [CommitOffset], [Heartbeat] and the
    sweep, with the assignment that results. The order of Go's map iterations stays arbitrary. *)

From S2P Require Import Prelude SegName Keys Metadata RangeAssign Prog GroupCoord GroupSem.
Local Open Scope Z_scope.

Module GroupRun.
Import Metadata RangeAssign GroupCoord GroupSem.

(** The partition counts that the lookups of [topics] add to [counts]. *)
Definition counts_of (s : MetadataState) (topics : list string) (counts : gmap string Z) : gmap string Z :=
  fold_left (fun m t => match Topics s !! t with Some tm => <[t := PartitionCount tm]> m | None => m end) topics counts.

Lemma counts_of_lookup s topics counts t :
  counts_of s topics counts !! t =
  if bool_decide (t ∈ topics) then
    match Topics s !! t with Some tm => Some (PartitionCount tm) | None => counts !! t end
  else counts !! t.
Proof.
  revert counts. induction topics as [|u topics IH]; intros counts; cbn [counts_of fold_left].
  { by rewrite bool_decide_eq_false_2 by apply not_elem_of_nil. }
  unfold counts_of in IH. rewrite IH. destruct (decide (t = u)) as [->|Hne].
  - rewrite (bool_decide_eq_true_2 (u ∈ u :: topics)) by (apply elem_of_cons; auto).
    destruct (Topics s !! u) as [tm|]; [rewrite lookup_insert_eq; by destruct (bool_decide _)|by destruct (bool_decide _)].
  - rewrite (bool_decide_ext (t ∈ u :: topics) (t ∈ topics)) by (rewrite elem_of_cons; tauto).
    destruct (Topics s !! u) as [tm|]; [by rewrite lookup_insert_ne|done].
Qed.

Lemma counts_of_ok s topics counts : groups_ok s -> counts_ok counts -> counts_ok (counts_of s topics counts).
Proof.
  intros Hs Hc t c. rewrite counts_of_lookup. destruct (bool_decide _); [|by apply Hc].
  destruct (Topics s !! t) as [tm|] eqn:E; [|by apply Hc]. intros [= <-]. by apply (go_counts _ Hs _ _ E).
Qed.

(** The last heartbeat of a member. *)
Definition last_of (t : heartbeats) (group member : string) : option Z := t !! group ≫= (fun m => m !! member).

Lemma touch_last group member now (t : gmap string (gmap string Z)) : last_of (touch group member now t) group member = Some now.
Proof. unfold last_of, touch. rewrite lookup_insert_eq. cbn. apply lookup_insert_eq. Qed.

Lemma forget_last group member (t : gmap string (gmap string Z)) : last_of (forget group member t) group member = None.
Proof.
  unfold last_of, forget. destruct (t !! group) as [m|] eqn:E; [|by rewrite E].
  rewrite lookup_insert_eq. cbn. apply lookup_delete_eq.
Qed.

Lemma forget_last_ne group member g m (t : gmap string (gmap string Z)) :
  (g, m) <> (group, member) -> last_of (forget group member t) g m = last_of t g m.
Proof.
  intros Hne. unfold last_of, forget. destruct (t !! group) as [x|] eqn:E; [|done].
  destruct (decide (g = group)) as [->|]; [|by rewrite lookup_insert_ne].
  rewrite lookup_insert_eq, E. cbn. apply lookup_delete_ne. congruence.
Qed.

Section calls.
Variable uuid : string.
Variable ord : list string -> list string.
Variable leader : Z * Z * bool.
Hypothesis ord_perm : forall l, ord l ≡ₚ l.
Let h := handle uuid ord leader.

Lemma run_topic_counts topics counts w :
  (forall t, t ∈ topics -> is_Some (Topics (w_fsm w) !! t)) ->
  run h (topic_counts topics counts) w = (Ok (counts_of (w_fsm w) topics counts), w).
Proof.
  revert counts. induction topics as [|t topics IH]; intros counts Ht; cbn [topic_counts]; [done|].
  rewrite run_call, run_trigger. cbn [h handle Lookup]. destruct (Ht t) as [tm Htm]; [apply elem_of_cons; auto|].
  rewrite Htm. cbn [found]. rewrite IH by (intros; apply Ht, elem_of_cons; auto).
  unfold counts_of. cbn [fold_left]. by rewrite Htm.
Qed.

Lemma run_topic_counts_missing topics counts w t :
  t ∈ topics -> Topics (w_fsm w) !! t = None ->
  run h (topic_counts topics counts) w = (Err (ErrWrap "topic" ErrGroupNotFound), w).
Proof.
  revert counts. induction topics as [|u topics IH]; intros counts Hin Ht; [by apply not_elem_of_nil in Hin|].
  cbn [topic_counts]. rewrite run_call, run_trigger. cbn [h handle Lookup].
  destruct (Topics (w_fsm w) !! u) as [tm|] eqn:E; cbn [found]; [|reflexivity].
  apply elem_of_cons in Hin as [->|Hin]; [congruence|]. by apply IH.
Qed.

Lemma run_known_counts strict topics counts w :
  run h (known_counts strict topics counts) w = (Ok (counts_of (w_fsm w) topics counts), w).
Proof.
  revert counts. induction topics as [|t topics IH]; intros counts; cbn [known_counts]; [done|].
  rewrite run_bind, run_trigger. cbn [h handle Lookup]. unfold counts_of. cbn [fold_left].
  destruct (Topics (w_fsm w) !! t) as [tm|] eqn:E; cbn [found]; [by rewrite IH|].
  assert (negb strict || errors_is ErrNotFound sErrNotFound = true) as -> by (by destruct strict). by rewrite IH.
Qed.

Lemma run_lookup_group g wrap {B} (k : option GroupState -> gprog (outcome B)) w :
  run h (lookup_group g wrap k) w = run h (k (GroupStates (w_fsm w) !! g)) w.
Proof. unfold lookup_group. rewrite run_call, run_trigger. done. Qed.

(** ** Joining *)

Definition member_id (req : JoinGroupRequest) : string :=
  if String.eqb (jq_MemberID req) "" then uuid else jq_MemberID req.

Definition empty_group (g : string) : GroupState :=
  {| GroupID := g; Members := ∅; GenerationID := 0; Assignments := ∅; Offsets := ∅ |}.

Definition others (s : MetadataState) (g member : string) : list string :=
  ord (filter (fun id => id <> member) (map_to_list (members_of s g)).*1).

Definition new_member (req : JoinGroupRequest) (now : Z) : MemberState :=
  {| MemberID := member_id req; SubscribedTopics := jq_Topics req; SessionTimeoutMs := jq_SessionTimeoutMs req;
     HeartbeatIntervalMs := jq_HeartbeatIntervalMs req; JoinedAt := now |}.

(** The group after a join. *)
Definition joined (s : MetadataState) (req : JoinGroupRequest) (now : Z) : GroupState :=
  let g := default (empty_group (jq_GroupID req)) (GroupStates s !! jq_GroupID req) in
  {| GroupID := GroupID g; Members := <[member_id req := new_member req now]> (Members g);
     GenerationID := i32 (GenerationID g + 1);
     Assignments := rangeAssign (member_id req :: others s (jq_GroupID req) (member_id req)) (jq_Topics req)
       (counts_of s (jq_Topics req) ∅);
     Offsets := Offsets g |}.

Lemma rangeAssign_nonempty id ids topics counts :
  NoDup (id :: ids) -> counts_ok counts -> rangeAssign (id :: ids) topics counts <> ∅.
Proof.
  intros Hn Hc E. destruct (sorted_lookup (id :: ids) id) as (j & Hj & _); [apply elem_of_cons; auto|].
  destruct (rangeAssign_lookup (id :: ids) topics counts Hn ltac:(done) Hc) as [_ H].
  pose proof (H _ _ Hj) as Hl. rewrite E in Hl. by rewrite lookup_empty in Hl.
Qed.

Definition joinable (config : GroupCoordinatorConfig) (s : MetadataState) (req : JoinGroupRequest) : Prop :=
  SessionTimeoutMinMs config <= jq_SessionTimeoutMs req <= SessionTimeoutMaxMs config /\
  (forall t, t ∈ jq_Topics req -> is_Some (Topics s !! t)) /\
  (forall id ms, members_of s (jq_GroupID req) !! id = Some ms ->
     topicSetsEqual (SubscribedTopics ms) (jq_Topics req) = true).

Lemma others_NoDup s g member : NoDup (member :: others s g member).
Proof. eapply (keys_NoDup (members_of s g)). unfold others. apply ord_perm. Qed.

Lemma run_JoinGroup config req w :
  groups_ok (w_fsm w) -> joinable config (w_fsm w) req ->
  let g' := joined (w_fsm w) req (w_clock w) in
  run h (JoinGroup config req) w =
  (Ok {| jp_MemberID := member_id req; jp_GenerationID := GenerationID g';
         jp_Assignments := default [] (Assignments g' !! member_id req) |},
   {| w_fsm := set_groupStates (w_fsm w) (<[jq_GroupID req := g']> (GroupStates (w_fsm w)));
      w_table := touch (jq_GroupID req) (member_id req) (w_clock w) (w_table w); w_clock := w_clock w |}).
Proof.
  intros Hs (Ht & Htopics & Hsubs). cbv zeta. unfold JoinGroup.
  rewrite (proj2 (Z.ltb_ge _ _)), Z.gtb_ltb, (proj2 (Z.ltb_ge _ _)) by lia. cbn [orb].
  rewrite run_call, run_topic_counts by done. rewrite run_lookup_group.
  set (members := match GroupStates (w_fsm w) !! jq_GroupID req with Some g => Members g | None => ∅ end).
  rewrite run_bind, run_trigger. cbn [h handle].
  match goal with |- run _ (if ?b then _ else _) _ = _ => assert (b = false) as -> end.
  { destruct (ord (map_to_list members).*1) as [|id l] eqn:Eo; [done|].
    destruct (members !! id) as [ms|] eqn:Em; [|done]. by rewrite (Hsubs id ms Em). }
  rewrite run_bind.
  assert (forall w, run h (if String.eqb (jq_MemberID req) "" then trigger EUuid else Ret (jq_MemberID req)) w =
    (member_id req, w)) as -> by (intros w0; unfold member_id; by destruct (String.eqb _ _)).
  rewrite run_bind, run_trigger. cbn [h handle]. rewrite run_bind, run_trigger. cbn [h handle].
  rewrite run_call, run_trigger. cbn [h handle wire]. change (members) with (members_of (w_fsm w) (jq_GroupID req)).
  fold (others (w_fsm w) (jq_GroupID req) (member_id req)).
  unfold omitempty. cbn [jc_Member jc_GroupID jc_MemberID jc_NewAssignment].
  rewrite decide_False by
    (apply rangeAssign_nonempty; [apply others_NoDup|apply counts_of_ok; [done|apply counts_ok_empty]]).
  cbn [Update applyCommand deref]. unfold applyJoinConsumerGroup, applyGroupStateJoin.
  cbn [jc_Member jc_GroupID jc_MemberID jc_NewAssignment default].
  rewrite run_lookup_group. cbn [set_fsm w_fsm set_groupStates GroupStates]. rewrite lookup_insert_eq.
  rewrite run_bind, run_trigger. cbn [h handle]. rewrite run_bind, run_trigger. cbn [h handle]. reflexivity.
Qed.

(** Every partition of [topics] is in the list of exactly one of the members, and the lists hold
    nothing else. *)
Definition exact_cover (s : MetadataState) (topics : list string) (g : GroupState) : Prop :=
  (forall id, is_Some (Assignments g !! id) <-> is_Some (Members g !! id)) /\
  (forall tp, (exists tm, tp_topic tp ∈ topics /\ Topics s !! tp_topic tp = Some tm /\
                 0 <= tp_partition tp < PartitionCount tm) <->
     exists id l, Assignments g !! id = Some l /\ tp ∈ l) /\
  disjoint_assignment (Assignments g).

Lemma count_of_topic s topics t :
  t ∈ topics -> default 0 (counts_of s topics ∅ !! t) = match Topics s !! t with Some tm => PartitionCount tm | None => 0 end.
Proof.
  intros Ht. rewrite counts_of_lookup, bool_decide_eq_true_2 by done. by destruct (Topics s !! t).
Qed.

(** The assignment of a coordinator call, as a cover of the topics it was computed for. *)
Lemma cover_of_assign s ids topics g :
  groups_ok s -> NoDup ids -> ids <> [] -> Assignments g = rangeAssign ids topics (counts_of s topics ∅) ->
  (forall id, id ∈ ids <-> is_Some (Members g !! id)) -> exact_cover s topics g.
Proof.
  intros Hs Hn Hne E Hids. assert (counts_ok (counts_of s topics ∅)) as Hc by (apply counts_of_ok; [done|apply counts_ok_empty]).
  unfold exact_cover. rewrite E. split_and!.
  - intros id. rewrite <- Hids. split.
    + intros [l Hl]. by eapply rangeAssign_elem.
    + intros Hin. destruct (sorted_lookup _ _ Hin) as (j & Hj & _).
      destruct (rangeAssign_lookup ids topics _ Hn Hne Hc) as [_ H2]. rewrite (H2 _ _ Hj). eauto.
  - intros tp. rewrite <- rangeAssign_cover by done. split.
    + intros (tm & Ht & Htm & Hp). rewrite count_of_topic, Htm by done. done.
    + intros [Ht Hp]. rewrite count_of_topic in Hp by done. destruct (Topics s !! tp_topic tp) as [tm|] eqn:Et; [|lia].
      by exists tm.
  - by apply rangeAssign_ok.
Qed.

Lemma others_elem s g member id : id ∈ others s g member <-> is_Some (members_of s g !! id) /\ id <> member.
Proof.
  unfold others. rewrite ord_perm, list_elem_of_filter, list_elem_of_fmap. split.
  - intros [Hne ((id' & ms) & -> & Hin%elem_of_map_to_list)]. cbn in *. eauto.
  - intros [[ms Hms] Hne]. split; [done|]. exists (id, ms). split; [done|]. by apply elem_of_map_to_list.
Qed.

Lemma joined_members s req now id :
  is_Some (Members (joined s req now) !! id) <-> id = member_id req \/ is_Some (members_of s (jq_GroupID req) !! id).
Proof.
  unfold joined, members_of. cbn [Members]. destruct (decide (id = member_id req)) as [->|Hne].
  - rewrite lookup_insert_eq. split; [by left|eauto].
  - rewrite lookup_insert_ne by done. destruct (GroupStates s !! jq_GroupID req); cbn; [tauto|].
    rewrite lookup_empty. naive_solver.
Qed.

Lemma joined_cover s req now : groups_ok s -> exact_cover s (jq_Topics req) (joined s req now).
Proof.
  intros Hs. eapply cover_of_assign; [done|apply others_NoDup|discriminate|reflexivity|].
  intros id. rewrite joined_members, elem_of_cons, others_elem. destruct (decide (id = member_id req)); naive_solver.
Qed.

(** C30: a join that passes the checks succeeds on an undisturbed host: the member is in the
    group, the generation grows by one, offsets and the other members are kept, the heartbeat
    table has the member, the answer is the member's own list, and the new assignment gives
    every partition of the topics to exactly one member. *)
Theorem JoinGroup_assigns config req w :
  groups_ok (w_fsm w) -> joinable config (w_fsm w) req ->
  exists resp w' g', run h (JoinGroup config req) w = (Ok resp, w') /\
    GroupStates (w_fsm w') = <[jq_GroupID req := g']> (GroupStates (w_fsm w)) /\
    let g := default (empty_group (jq_GroupID req)) (GroupStates (w_fsm w) !! jq_GroupID req) in
    Members g' = <[member_id req := new_member req (w_clock w)]> (Members g) /\
    GenerationID g' = i32 (GenerationID g + 1) /\ Offsets g' = Offsets g /\
    exact_cover (w_fsm w) (jq_Topics req) g' /\
    jp_MemberID resp = member_id req /\ jp_GenerationID resp = GenerationID g' /\
    Assignments g' !! member_id req = Some (jp_Assignments resp) /\
    last_of (w_table w') (jq_GroupID req) (member_id req) = Some (w_clock w).
Proof.
  intros Hs Hj. pose proof (joined_cover (w_fsm w) req (w_clock w) Hs) as Hc.
  rewrite (run_JoinGroup config req w Hs Hj). do 3 eexists. split; [reflexivity|].
  split; [reflexivity|]. cbv zeta. split_and!; try reflexivity; [exact Hc| |].
  - destruct Hc as [Hd _]. destruct (Hd (member_id req)) as [_ Hsome].
    destruct Hsome as [l Hl]; [apply joined_members; by left|]. cbn [jp_Assignments]. rewrite Hl. reflexivity.
  - apply touch_last.
Qed.

(** The checks of [JoinGroup]: a session timeout out of range, a topic that does not exist and
    a group whose members subscribe to other topics are rejected with their own errors, and
    nothing changes. *)
Theorem JoinGroup_rejects config req w :
  let inside := SessionTimeoutMinMs config <= jq_SessionTimeoutMs req <= SessionTimeoutMaxMs config in
  let rejected s := exists e, run h (JoinGroup config req) w = (Err e, w) /\ errors_is e s = true in
  (~ inside -> rejected sInvalidArgument) /\
  (inside -> (exists t, t ∈ jq_Topics req /\ Topics (w_fsm w) !! t = None) -> rejected sNotFound) /\
  (inside -> (forall t, t ∈ jq_Topics req -> is_Some (Topics (w_fsm w) !! t)) ->
   members_of (w_fsm w) (jq_GroupID req) <> ∅ ->
   (forall id ms, members_of (w_fsm w) (jq_GroupID req) !! id = Some ms ->
      topicSetsEqual (SubscribedTopics ms) (jq_Topics req) = false) -> rejected sInvalidArgument).
Proof.
  cbv zeta. unfold JoinGroup. split_and!.
  - intros Hn. destruct ((_ <? _) || (_ >? _)) eqn:E; [by eexists|]. exfalso. apply Hn.
    apply orb_false_iff in E as [E1%Z.ltb_ge E2]. rewrite Z.gtb_ltb in E2. apply Z.ltb_ge in E2. lia.
  - intros Hi (t & Hin & Ht). rewrite (proj2 (Z.ltb_ge _ _)), Z.gtb_ltb, (proj2 (Z.ltb_ge _ _)) by lia. cbn [orb].
    rewrite run_call, (run_topic_counts_missing _ _ _ t) by done. by eexists.
  - intros Hi Ht Hne Hall. rewrite (proj2 (Z.ltb_ge _ _)), Z.gtb_ltb, (proj2 (Z.ltb_ge _ _)) by lia. cbn [orb].
    rewrite run_call, run_topic_counts by done. rewrite run_lookup_group.
    change (match GroupStates (w_fsm w) !! jq_GroupID req with Some g => Members g | None => ∅ end)
      with (members_of (w_fsm w) (jq_GroupID req)).
    set (members := members_of (w_fsm w) (jq_GroupID req)) in *.
    rewrite run_bind, run_trigger. cbn [h handle].
    destruct (ord (map_to_list members).*1) as [|id l] eqn:Eo.
    + exfalso. apply Hne, map_to_list_empty_iff. pose proof (ord_perm (map_to_list members).*1) as P. rewrite Eo in P.
      apply Permutation_nil_l in P. symmetry in P. by apply fmap_nil_inv in P.
    + assert (is_Some (members !! id)) as [ms Hms].
      { assert (id ∈ (map_to_list members).*1) as Hin by (rewrite <- ord_perm, Eo; apply elem_of_cons; auto).
        apply list_elem_of_fmap in Hin as ((id' & ms) & -> & Hin%elem_of_map_to_list). eauto. }
      rewrite Hms, (Hall id ms Hms). cbn [negb]. by eexists.
Qed.

(** ** Leaving *)

(** The group after a member with the subscription [topics] left. *)
Definition left_group (s : MetadataState) (groupID memberID : string) (topics : list string) (g : GroupState)
  : GroupState :=
  let members := delete memberID (Members g) in
  {| GroupID := GroupID g; Members := members; GenerationID := i32 (GenerationID g + 1);
     Assignments := if bool_decide (members = ∅) then ∅
                    else rangeAssign (others s groupID memberID) topics (counts_of s topics ∅);
     Offsets := Offsets g |}.

(** The command of a leave: an empty assignment is dropped on the wire and restored by the
    state machine. *)
Lemma leave_update s groupID memberID reason R g ms :
  GroupStates s !! groupID = Some g -> Members g !! memberID = Some ms ->
  Update s (Some (wire (leave_cmd groupID memberID reason R))) =
  Ok (set_groupStates s (<[groupID :=
        {| GroupID := GroupID g; Members := delete memberID (Members g); GenerationID := i32 (GenerationID g + 1);
           Assignments := if bool_decide (delete memberID (Members g) = ∅) then ∅ else R;
           Offsets := Offsets g |}]> (GroupStates s)), OKResult).
Proof.
  intros Hg Hm. cbn [leave_cmd wire Update applyCommand deref lc_GroupID lc_MemberID lc_Reason lc_NewAssignment].
  unfold applyLeaveConsumerGroup, applyGroupStateLeave. cbn [lc_GroupID lc_MemberID lc_Reason lc_NewAssignment].
  rewrite Hg, Hm. unfold omitempty. destruct (decide (R = ∅)) as [->|]; done.
Qed.

Lemma run_LeaveGroup groupID memberID w g ms :
  GroupStates (w_fsm w) !! groupID = Some g -> Members g !! memberID = Some ms ->
  run h (LeaveGroup groupID memberID) w =
  (Ok tt, {| w_fsm := set_groupStates (w_fsm w)
               (<[groupID := left_group (w_fsm w) groupID memberID (SubscribedTopics ms) g]> (GroupStates (w_fsm w)));
             w_table := forget groupID memberID (w_table w); w_clock := w_clock w |}).
Proof.
  intros Hg Hm. unfold LeaveGroup. rewrite run_lookup_group, Hg, Hm. rewrite run_bind, run_trigger. cbn [h handle].
  rewrite run_call, run_known_counts, run_call, run_trigger. cbn [h handle].
  rewrite (leave_update _ _ _ _ _ _ _ Hg Hm). rewrite run_bind, run_trigger. cbn [h handle run].
  unfold left_group, others, members_of. rewrite Hg. reflexivity.
Qed.

Lemma left_cover s groupID memberID g ms :
  groups_ok s -> GroupStates s !! groupID = Some g -> Members g !! memberID = Some ms ->
  delete memberID (Members g) <> ∅ ->
  exact_cover s (SubscribedTopics ms) (left_group s groupID memberID (SubscribedTopics ms) g).
Proof.
  intros Hs Hg Hm Hne. pose proof (others_NoDup s groupID memberID) as Hn. apply NoDup_cons in Hn as [_ Hn].
  assert (forall id, id ∈ others s groupID memberID <-> is_Some (delete memberID (Members g) !! id)) as Hids.
  { intros id. rewrite others_elem. unfold members_of. rewrite Hg. destruct (decide (id = memberID)) as [->|Hid].
    - rewrite lookup_delete_eq. split; [naive_solver|by intros []].
    - rewrite lookup_delete_ne by done. naive_solver. }
  eapply cover_of_assign; [done|exact Hn| | |exact Hids].
  - destruct (map_choose _ Hne) as (id & ms' & Hid). intros E.
    assert (id ∈ others s groupID memberID) as Hin by (apply Hids; eauto). rewrite E in Hin. by apply not_elem_of_nil in Hin.
  - cbn [left_group Assignments]. by rewrite bool_decide_eq_false_2.
Qed.

(** A member that leaves is removed, with its heartbeat; the committed offsets are kept, the
    generation grows by one, and the partitions of its topics are divided exactly among the
    members that stay, if there are any; who is not a member gets [ErrNotGroupMember] and
    changes nothing. *)
Theorem LeaveGroup_reassigns groupID memberID w :
  groups_ok (w_fsm w) ->
  match members_of (w_fsm w) groupID !! memberID with
  | None => run h (LeaveGroup groupID memberID) w = (Err ErrNotGroupMember, w)
  | Some ms => exists g g' w', GroupStates (w_fsm w) !! groupID = Some g /\
      run h (LeaveGroup groupID memberID) w = (Ok tt, w') /\
      GroupStates (w_fsm w') = <[groupID := g']> (GroupStates (w_fsm w)) /\
      Members g' = delete memberID (Members g) /\ Offsets g' = Offsets g /\
      GenerationID g' = i32 (GenerationID g + 1) /\
      (Members g' = ∅ -> Assignments g' = ∅) /\
      (Members g' <> ∅ -> exact_cover (w_fsm w) (SubscribedTopics ms) g') /\
      last_of (w_table w') groupID memberID = None
  end.
Proof.
  intros Hs. destruct (GroupStates (w_fsm w) !! groupID) as [g|] eqn:Hg; unfold members_of; rewrite Hg.
  - destruct (Members g !! memberID) as [ms|] eqn:Hm.
    + exists g. do 2 eexists. split; [done|]. split; [by apply run_LeaveGroup|].
      split_and!; try reflexivity.
      * cbn [left_group Members Assignments]. intros E. by rewrite bool_decide_eq_true_2.
      * by apply left_cover.
      * apply forget_last.
    + unfold LeaveGroup. by rewrite run_lookup_group, Hg, Hm.
  - rewrite lookup_empty. unfold LeaveGroup. by rewrite run_lookup_group, Hg.
Qed.

(** ** Offsets *)

Lemma fold_default (ps : list TopicPartition) (m : gmap TopicPartition Z) tp :
  fold_left (fun m tp => <[tp := -1]> m) ps m !! tp = if bool_decide (tp ∈ ps) then Some (-1) else m !! tp.
Proof.
  revert m. induction ps as [|p ps IH]; intros m; cbn [fold_left].
  { by rewrite bool_decide_eq_false_2 by apply not_elem_of_nil. }
  rewrite IH. destruct (decide (tp = p)) as [->|Hne].
  - rewrite (bool_decide_eq_true_2 (p ∈ p :: ps)), lookup_insert_eq by (apply elem_of_cons; auto). by destruct (bool_decide _).
  - by rewrite (bool_decide_ext (tp ∈ p :: ps) (tp ∈ ps)), lookup_insert_ne by (rewrite ?elem_of_cons; tauto || done).
Qed.

Lemma fold_committed (ps : list TopicPartition) (offs m : gmap TopicPartition Z) tp :
  fold_left (fun m tp => match offs !! tp with Some o => <[tp := o]> m | None => m end) ps m !! tp =
  if bool_decide (tp ∈ ps) then match offs !! tp with Some o => Some o | None => m !! tp end else m !! tp.
Proof.
  revert m. induction ps as [|p ps IH]; intros m; cbn [fold_left].
  { by rewrite bool_decide_eq_false_2 by apply not_elem_of_nil. }
  rewrite IH. destruct (decide (tp = p)) as [->|Hne].
  - rewrite (bool_decide_eq_true_2 (p ∈ p :: ps)) by (apply elem_of_cons; auto).
    destruct (offs !! p) as [o|]; [rewrite lookup_insert_eq|]; by destruct (bool_decide _).
  - rewrite (bool_decide_ext (tp ∈ p :: ps) (tp ∈ ps)) by (rewrite elem_of_cons; tauto).
    destruct (offs !! p) as [o|]; [by rewrite lookup_insert_ne|done].
Qed.

Lemma lookupGroupOffsets_spec s g ps tp :
  lookupGroupOffsets s g ps !! tp =
  if bool_decide (tp ∈ ps) then Some (default (-1) (GroupStates s !! g ≫= fun gs => Offsets gs !! tp)) else None.
Proof.
  unfold lookupGroupOffsets. destruct (GroupStates s !! g) as [gs|]; cbn [mbind option_bind].
  - rewrite fold_committed, fold_default, lookup_empty. destruct (bool_decide _); [|done]. by destruct (Offsets gs !! tp).
  - rewrite fold_default, lookup_empty. by destruct (bool_decide _).
Qed.

(** The state after a commit, also when the offsets are empty and dropped on the wire. *)
Lemma commit_update s groupID offsets g :
  GroupStates s !! groupID = Some g ->
  exists s' r g', Update s (Some (wire (commit_cmd groupID offsets))) = Ok (s', r) /\
    Topics s' = Topics s /\ Partitions s' = Partitions s /\ Nodes s' = Nodes s /\ NextShardID s' = NextShardID s /\ GroupStates s' !! groupID = Some g' /\
    Members g' = Members g /\ GenerationID g' = GenerationID g /\ Assignments g' = Assignments g /\
    forall tp, Offsets g' !! tp = match offsets !! tp with Some o => Some o | None => Offsets g !! tp end.
Proof.
  intros Hg. cbn [commit_cmd wire Update applyCommand deref cc_GroupID cc_Offsets cc_GroupOffsets].
  unfold applyCommitConsumerOffset, omitempty. cbn [cc_GroupID cc_Offsets cc_GroupOffsets].
  destruct (decide (offsets = ∅)) as [->|Hne].
  - destruct (Groups s !! groupID) as [lg|]; (do 2 eexists; exists g; split_and!; try first [reflexivity|exact Hg]);
      intros tp; by rewrite lookup_empty.
  - unfold applyGroupStateCommitOffset. rewrite Hg. do 3 eexists. do 5 (split; [reflexivity|]).
    split; [cbn [set_groupStates GroupStates]; apply lookup_insert_eq|]. split_and!; [reflexivity..|].
    intros tp. cbn. rewrite lookup_union. destruct (offsets !! tp), (Offsets g !! tp); reflexivity.
Qed.

Lemma run_CommitOffset groupID memberID offsets w g ms l s' r :
  GroupStates (w_fsm w) !! groupID = Some g -> Members g !! memberID = Some ms ->
  Assignments g !! memberID = Some l -> (forall tp o, offsets !! tp = Some o -> tp ∈ l) ->
  Update (w_fsm w) (Some (wire (commit_cmd groupID offsets))) = Ok (s', r) ->
  run h (CommitOffset groupID memberID (GenerationID g) offsets) w = (Ok tt, set_fsm w s').
Proof.
  intros Hg Hm Hl Hall Hu. unfold CommitOffset. rewrite run_lookup_group, Hg, Hm, Z.eqb_refl, Hl. cbn [negb default].
  rewrite bool_decide_eq_true_2.
  2:{ apply Forall_forall. intros tp Hin. apply list_elem_of_fmap in Hin as ((tp' & o) & -> & Hin%elem_of_map_to_list).
      by apply (Hall _ o). }
  cbn [negb]. rewrite run_call, run_trigger. unfold h, handle. rewrite Hu. reflexivity.
Qed.

(** Offsets committed by a member for partitions it owns, at the current generation, are
    stored, and a later fetch returns them; partitions not committed keep their older offset or
    give -1, and only the partitions asked for are answered. *)
Theorem commit_then_fetch groupID memberID offsets partitions w g ms l :
  GroupStates (w_fsm w) !! groupID = Some g -> Members g !! memberID = Some ms ->
  Assignments g !! memberID = Some l -> (forall tp o, offsets !! tp = Some o -> tp ∈ l) ->
  exists w' m, run h (CommitOffset groupID memberID (GenerationID g) offsets) w = (Ok tt, w') /\
    run h (FetchCommittedOffsets groupID partitions) w' = (Ok m, w') /\
    forall tp, m !! tp = if bool_decide (tp ∈ partitions) then
        Some match offsets !! tp with Some o => o | None => default (-1) (Offsets g !! tp) end
      else None.
Proof.
  intros Hg Hm Hl Hall. destruct (commit_update (w_fsm w) groupID offsets g Hg) as (s' & r & g' & Hu & _ & _ & _ & _ & Hg' & _ & _ & _ & Ho).
  exists (set_fsm w s'). eexists. split; [by eapply run_CommitOffset|split].
  - unfold FetchCommittedOffsets. rewrite run_call, run_trigger. reflexivity.
  - intros tp. cbn [set_fsm w_fsm]. rewrite lookupGroupOffsets_spec, Hg'. cbn [mbind option_bind]. rewrite Ho.
    destruct (bool_decide _); [|done]. by destruct (offsets !! tp).
Qed.

(** A commit is refused, and nothing changes, when the member is not in the group, when its
    generation is not the current one, or when it names a partition the member does not own. *)
Theorem CommitOffset_rejects groupID memberID generation offsets w :
  let rejected s := exists e, run h (CommitOffset groupID memberID generation offsets) w = (Err e, w) /\
                                errors_is e s = true in
  match GroupStates (w_fsm w) !! groupID with
  | None => rejected sNotGroupMember
  | Some g =>
      (Members g !! memberID = None -> rejected sNotGroupMember) /\
      (is_Some (Members g !! memberID) -> generation <> GenerationID g -> rejected sStaleGeneration) /\
      (is_Some (Members g !! memberID) -> generation = GenerationID g ->
       (exists tp o, offsets !! tp = Some o /\ tp ∉ default [] (Assignments g !! memberID)) -> rejected sInvalidArgument)
  end.
Proof.
  cbv zeta. unfold CommitOffset. rewrite run_lookup_group.
  destruct (GroupStates (w_fsm w) !! groupID) as [g|]; [|by eexists]. split_and!.
  - intros ->. by eexists.
  - intros [ms ->] Hne. destruct (Z.eqb_spec generation (GenerationID g)); [done|]. by eexists.
  - intros [ms ->] -> (tp & o & Ho & Hn). rewrite Z.eqb_refl. cbn [negb]. rewrite bool_decide_eq_false_2; [by eexists|].
    intros Hall. rewrite Forall_forall in Hall. apply Hn, Hall, list_elem_of_fmap. exists (tp, o).
    split; [done|]. by apply elem_of_map_to_list.
Qed.

(** ** Heartbeats *)

Lemma run_Heartbeat groupID memberID generation w g ms :
  GroupStates (w_fsm w) !! groupID = Some g -> Members g !! memberID = Some ms ->
  run h (Heartbeat groupID memberID generation) w =
  (Ok (GenerationID g >? generation), set_table w (touch groupID memberID (w_clock w) (w_table w))).
Proof.
  intros Hg Hm. unfold Heartbeat. rewrite run_lookup_group, Hg, Hm. rewrite run_bind, run_trigger. cbn [h handle].
  rewrite run_bind, run_trigger. reflexivity.
Qed.

Lemma topicSetsEqual_refl a : topicSetsEqual a a = true.
Proof. unfold topicSetsEqual. rewrite Z.eqb_refl. cbn. by rewrite bool_decide_eq_true_2. Qed.

End calls.
End GroupRun.
