(* ===== verification/GroupLive.v ===== *)
(** * The session timeout sweep and the rebalance signal

    [sweepOnce] on the leader removes exactly the members whose last heartbeat is older than
    their session timeout. A heartbeat tells a member to join again when the generation has
    moved; since every join moves it, also the join of a member that is already in the group, two
    live members signal each other for ever ([rejoin_never_settles]). *)

From S2P Require Import Prelude SegName Keys Metadata RangeAssign Prog GroupCoord GroupSem GroupRun.
Local Open Scope Z_scope.

Module GroupLive.
Import Metadata RangeAssign GroupCoord GroupSem GroupRun.

(** ** Evicting members *)

(** What the sweep sees of a member: its entry and its last heartbeat. *)
Definition view (w : world) (p : string * string) : option MemberState * option Z :=
  (members_of (w_fsm w) p.1 !! p.2, last_of (w_table w) p.1 p.2).

Definition is_expired (now : Z) (v : option MemberState * option Z) : bool :=
  match v with
  | (Some ms, Some last) => expired now last ms
  | _ => false
  end.

Section sweep.
Variable uuid : string.
Variable ord : list string -> list string.
Variable leader : Z * Z * bool.
Hypothesis ord_perm : forall l, ord l ≡ₚ l.
Let h := handle uuid ord leader.

(** The world after one iteration of the sweep for a member. *)
Definition evict (now : Z) (groupID : string) (w : world) (memberID : string) : world :=
  if is_expired now (view w (groupID, memberID)) then
    match GroupStates (w_fsm w) !! groupID with
    | None => w
    | Some g =>
        match Members g !! memberID with
        | None => w
        | Some ms =>
            {| w_fsm := set_groupStates (w_fsm w)
                 (<[groupID := left_group ord (w_fsm w) groupID memberID (SubscribedTopics ms) g]> (GroupStates (w_fsm w)));
               w_table := forget groupID memberID (w_table w); w_clock := w_clock w |}
        end
    end
  else w.

Definition keys {A} (m : gmap string A) : list string := ord (map_to_list m).*1.

Lemma run_sweep_member now groupID memberID ms w :
  members_of (w_fsm w) groupID !! memberID = Some ms ->
  run h (sweep_member now groupID memberID ms) w = (Ok tt, evict now groupID w memberID).
Proof.
  intros Hm. unfold sweep_member, evict, view. cbn [fst snd]. rewrite run_bind, run_trigger. cbn [h handle].
  change (w_table w !! groupID ≫= (fun m => m !! memberID)) with (last_of (w_table w) groupID memberID).
  rewrite Hm. cbn [is_expired]. destruct (last_of (w_table w) groupID memberID) as [last|] eqn:El; [|reflexivity].
  destruct (expired now last ms); cbn [negb]; [|reflexivity].
  unfold members_of in Hm. destruct (GroupStates (w_fsm w) !! groupID) as [g|] eqn:Hg; [|by rewrite lookup_empty in Hm].
  rewrite Hm. rewrite run_bind, run_trigger. cbn [h handle]. rewrite run_bind, run_trigger. cbn [h handle].
  rewrite run_call. unfold h. rewrite run_known_counts, run_bind, run_trigger. cbn [handle].
  rewrite (leave_update _ _ _ _ _ _ _ Hg Hm), run_bind, run_trigger. cbn [handle run].
  unfold left_group, others, members_of. rewrite Hg. reflexivity.
Qed.

Lemma run_sweep_members now groupID ids w :
  run h (sweep_members now groupID ids) w = (Ok tt, fold_left (evict now groupID) ids w).
Proof.
  revert w. induction ids as [|id ids IH]; intros w; cbn [sweep_members fold_left]; [reflexivity|].
  rewrite run_bind, run_trigger. cbn [h handle].
  destruct (members_of (w_fsm w) groupID !! id) as [ms|] eqn:Hm.
  - rewrite run_call, run_sweep_member by done. apply IH.
  - assert (evict now groupID w id = w) as -> by (unfold evict, view; cbn [fst snd]; by rewrite Hm). apply IH.
Qed.

Definition sweep_group (now : Z) (w : world) (groupID : string) : world :=
  fold_left (evict now groupID) (keys (members_of (w_fsm w) groupID)) w.

Lemma run_sweep_groups now gs w :
  run h (sweep_groups now gs) w = (Ok tt, fold_left (sweep_group now) gs w).
Proof.
  revert w. induction gs as [|g gs IH]; intros w; cbn [sweep_groups fold_left]; [reflexivity|].
  rewrite run_bind, run_trigger. cbn [h handle]. rewrite run_bind, run_trigger. cbn [h handle].
  rewrite run_call, run_sweep_members. apply IH.
Qed.

(** ** What is left *)

Lemma evict_view now groupID memberID w p :
  view (evict now groupID w memberID) p =
  if bool_decide (p = (groupID, memberID)) && is_expired now (view w p) then (None, None) else view w p.
Proof.
  unfold evict. destruct (is_expired now (view w (groupID, memberID))) eqn:Ee.
  2:{ case_bool_decide as Hp; [|done]. subst p. by rewrite Ee. }
  unfold view in Ee at 1. cbn [fst snd] in Ee. unfold members_of in Ee.
  destruct (GroupStates (w_fsm w) !! groupID) as [g|] eqn:Hg; [|by rewrite lookup_empty in Ee].
  destruct (Members g !! memberID) as [ms|] eqn:Hm; [|done]. destruct p as [g' m'].
  unfold view. cbn [w_fsm w_table fst snd]. unfold members_of at 1. cbn [set_groupStates GroupStates].
  case_bool_decide as Hp; cbn [andb].
  - injection Hp as -> ->. rewrite lookup_insert_eq, forget_last. cbn [left_group Members]. rewrite lookup_delete_eq.
    unfold members_of. by rewrite Hg, Hm, Ee.
  - rewrite forget_last_ne by done. f_equal. destruct (decide (g' = groupID)) as [->|Hne].
    + rewrite lookup_insert_eq. cbn [left_group Members]. rewrite lookup_delete_ne by congruence.
      unfold members_of. by rewrite Hg.
    + by rewrite lookup_insert_ne.
Qed.

Lemma evict_all_view now groupID ids w p :
  view (fold_left (evict now groupID) ids w) p =
  if bool_decide (p.1 = groupID /\ p.2 ∈ ids) && is_expired now (view w p) then (None, None) else view w p.
Proof.
  revert w. induction ids as [|id ids IH]; intros w; cbn [fold_left].
  { rewrite bool_decide_eq_false_2; [done|]. intros [_ H]. by apply not_elem_of_nil in H. }
  rewrite IH, evict_view. destruct p as [g' m']. cbn [fst snd].
  destruct (decide ((g', m') = (groupID, id))) as [E|Hne].
  - injection E as -> ->. rewrite !(bool_decide_eq_true_2 ((groupID, id) = _)) by done. cbn [andb].
    rewrite (bool_decide_eq_true_2 (groupID = groupID /\ id ∈ id :: ids)) by (split; [done|apply elem_of_cons; auto]).
    cbn [andb]. destruct (is_expired now (view w (groupID, id))) eqn:Ee.
    + cbn [is_expired]. by rewrite andb_false_r.
    + by rewrite Ee, andb_false_r.
  - rewrite !(bool_decide_eq_false_2 ((g', m') = _)) by done. cbn [andb].
    rewrite (bool_decide_ext (g' = groupID /\ m' ∈ id :: ids) (g' = groupID /\ m' ∈ ids)); [done|].
    rewrite elem_of_cons. naive_solver.
Qed.

Lemma keys_elem {A} (m : gmap string A) id : id ∈ keys m <-> is_Some (m !! id).
Proof.
  unfold keys. rewrite ord_perm, list_elem_of_fmap. split.
  - intros ((id' & a) & -> & Hin%elem_of_map_to_list). eauto.
  - intros [a Ha]. exists (id, a). split; [done|]. by apply elem_of_map_to_list.
Qed.

Lemma expired_member now w p : is_expired now (view w p) = true -> is_Some (members_of (w_fsm w) p.1 !! p.2).
Proof. unfold view. destruct (members_of (w_fsm w) p.1 !! p.2); [eauto|done]. Qed.

Lemma sweep_group_view now w groupID p :
  view (sweep_group now w groupID) p =
  if bool_decide (p.1 = groupID) && is_expired now (view w p) then (None, None) else view w p.
Proof.
  unfold sweep_group. rewrite evict_all_view. destruct (is_expired now (view w p)) eqn:E; [|by rewrite !andb_false_r].
  rewrite !andb_true_r. erewrite bool_decide_ext; [reflexivity|]. split; [by intros [? _]|].
  intros <-. split; [done|]. apply keys_elem. by apply expired_member in E.
Qed.

Lemma sweep_groups_view now gs w p :
  view (fold_left (sweep_group now) gs w) p =
  if bool_decide (p.1 ∈ gs) && is_expired now (view w p) then (None, None) else view w p.
Proof.
  revert w. induction gs as [|g gs IH]; intros w; cbn [fold_left].
  { rewrite bool_decide_eq_false_2; [done|apply not_elem_of_nil]. }
  rewrite IH, sweep_group_view. destruct (is_expired now (view w p)) eqn:Ee.
  2:{ rewrite !andb_false_r. cbn iota. by rewrite Ee, andb_false_r. }
  rewrite !andb_true_r. destruct (decide (p.1 = g)) as [Eg|Hne].
  - rewrite (bool_decide_eq_true_2 (p.1 = g)), (bool_decide_eq_true_2 (p.1 ∈ g :: gs)) by (rewrite ?elem_of_cons; auto).
    cbn [is_expired]. by rewrite andb_false_r.
  - rewrite (bool_decide_eq_false_2 (p.1 = g)) by done. cbn iota. rewrite Ee, andb_true_r.
    erewrite bool_decide_ext; [reflexivity|]. rewrite elem_of_cons. tauto.
Qed.

Lemma run_sweepOnce config w :
  run h (sweepOnce config) w =
  (Ok tt, if bool_decide (leader.1.1 = ThisNodeID config) && leader.2
          then fold_left (sweep_group (w_clock w)) (keys (GroupStates (w_fsm w))) w else w).
Proof.
  unfold sweepOnce, h. rewrite run_bind, run_trigger. cbn [handle].
  assert (forall gs, run (handle uuid ord leader) (sweep_groups (w_clock w) gs) w =
    (Ok tt, fold_left (sweep_group (w_clock w)) gs w)) as Hrun by (intros; apply run_sweep_groups).
  destruct leader as [[id term] [|]]; cbn [fst snd].
  - rewrite andb_true_r. destruct (Z.eqb_spec id (ThisNodeID config)) as [E|E]; cbn [negb].
    + rewrite bool_decide_eq_true_2 by done. rewrite run_bind, run_trigger. cbn [handle Lookup].
      rewrite run_bind, run_trigger. cbn [handle]. rewrite run_bind, run_trigger. cbn [handle]. apply Hrun.
    + by rewrite bool_decide_eq_false_2.
  - by rewrite andb_false_r.
Qed.

Lemma fold_left_keeps {A B C} (f : A -> C) (g : A -> B -> A) l a :
  (forall a b, f (g a b) = f a) -> f (fold_left g l a) = f a.
Proof. intros H. revert a. induction l as [|b l IH]; intros a; cbn [fold_left]; [done|]. by rewrite IH. Qed.

(** The committed offsets of a group, and the topics, do not change in a sweep. *)
Definition kept (w : world) : (string -> option (gmap TopicPartition Z)) * gmap string TopicMeta :=
  (fun g => Offsets <$> GroupStates (w_fsm w) !! g, Topics (w_fsm w)).

Lemma evict_kept now groupID w memberID g :
  (kept (evict now groupID w memberID)).1 g = (kept w).1 g /\ (kept (evict now groupID w memberID)).2 = (kept w).2.
Proof.
  unfold evict. destruct (is_expired _ _); [|done]. destruct (GroupStates (w_fsm w) !! groupID) as [gs|] eqn:Hg; [|done].
  destruct (Members gs !! memberID); [|done]. cbn. split; [|done].
  destruct (decide (g = groupID)) as [->|]; [by rewrite lookup_insert_eq, Hg|by rewrite lookup_insert_ne].
Qed.

(** A sweep on the leader node removes exactly the members whose last heartbeat is older than
    their session timeout, together with their heartbeats; members that are in time, or of
    which no heartbeat is known, stay as they are, and so do committed offsets and topics. *)
Theorem sweepOnce_evicts config w :
  leader.1.1 = ThisNodeID config -> leader.2 = true ->
  exists w', run h (sweepOnce config) w = (Ok tt, w') /\
    (forall p, view w' p = if is_expired (w_clock w) (view w p) then (None, None) else view w p) /\
    (forall g, Offsets <$> GroupStates (w_fsm w') !! g = Offsets <$> GroupStates (w_fsm w) !! g) /\
    Topics (w_fsm w') = Topics (w_fsm w).
Proof.
  intros Hl Hv. rewrite run_sweepOnce, Hv, bool_decide_eq_true_2 by done. cbn [andb]. eexists. split; [reflexivity|]. split_and!.
  - intros p. rewrite sweep_groups_view. destruct (is_expired (w_clock w) (view w p)) eqn:E; [|by rewrite andb_false_r].
    rewrite bool_decide_eq_true_2; [done|]. apply keys_elem. apply expired_member in E. unfold members_of in E.
    destruct (GroupStates (w_fsm w) !! p.1); [eauto|]. rewrite lookup_empty in E. by destruct E.
  - intros g. apply (fold_left_keeps (fun w => (kept w).1 g)). intros w0 g0. unfold sweep_group.
    apply (fold_left_keeps (fun w => (kept w).1 g)). intros w1 m. apply evict_kept.
  - apply (fold_left_keeps (fun w => (kept w).2)). intros w0 g0. unfold sweep_group.
    apply (fold_left_keeps (fun w => (kept w).2)). intros w1 m. apply (evict_kept _ _ _ _ "").
Qed.

(** A node that is not the leader of the metadata shard, or does not know the leader, sweeps
    nothing. *)
Lemma sweepOnce_follower config w :
  leader.1.1 <> ThisNodeID config \/ leader.2 = false -> run h (sweepOnce config) w = (Ok tt, w).
Proof.
  intros H. rewrite run_sweepOnce. destruct H as [H|H]; [by rewrite bool_decide_eq_false_2|by rewrite H, andb_false_r].
Qed.

(** ** The rebalance signal *)

(** One round of a member as the consumer's heartbeat loop does it: send a heartbeat with the
    generation it joined at, and join again when told to. *)
Definition round (config : GroupCoordinatorConfig) (req : JoinGroupRequest) (generation : Z) (w : world)
  : outcome bool * Z * world :=
  match run h (Heartbeat (jq_GroupID req) (jq_MemberID req) generation) w with
  | (Ok true, w1) =>
      match run h (JoinGroup config req) w1 with
      | (Ok resp, w2) => (Ok true, jp_GenerationID resp, w2)
      | (_, w2) => (Ok true, generation, w2)
      end
  | (r, w1) => (r, generation, w1)
  end.

(** [n] rounds, two members taking turns; what their heartbeats answered. *)
Fixpoint rounds (config : GroupCoordinatorConfig) (n : nat) (me other : JoinGroupRequest) (mine others : Z) (w : world)
  : list (outcome bool) :=
  match n with
  | O => []
  | S n' =>
      let '(r, mine', w') := round config me mine w in
      r :: rounds config n' other me others mine' w'
  end.

(** The members of the group [gid] all subscribe to [topics], the two of them are in it, and
    [other] has joined at the current generation. *)
Record pair_ok (s : MetadataState) (me other : JoinGroupRequest) (mine others : Z) : Prop := {
  po_groups : groups_ok s;
  po_group : exists g, GroupStates s !! jq_GroupID me = Some g /\ GenerationID g = others /\
    is_Some (Members g !! jq_MemberID me) /\ is_Some (Members g !! jq_MemberID other);
  po_subs : forall id ms, members_of s (jq_GroupID me) !! id = Some ms -> SubscribedTopics ms = jq_Topics me;
  po_topics : forall t, t ∈ jq_Topics me -> is_Some (Topics s !! t);
  po_gens : 0 <= mine < others
}.

(** Two requests of the same group and topics, by members with ids of their own. *)
Definition partners (config : GroupCoordinatorConfig) (a b : JoinGroupRequest) : Prop :=
  jq_GroupID a = jq_GroupID b /\ jq_Topics a = jq_Topics b /\ jq_MemberID a <> jq_MemberID b /\
  forall r, r = a \/ r = b -> jq_MemberID r <> "" /\
    SessionTimeoutMinMs config <= jq_SessionTimeoutMs r <= SessionTimeoutMaxMs config.

Lemma partners_sym config a b : partners config a b -> partners config b a.
Proof. intros (E1 & E2 & N & H). split_and!; try done. intros r [->| ->]; apply H; auto. Qed.

Lemma own_id req : jq_MemberID req <> "" -> member_id uuid req = jq_MemberID req.
Proof. intros H. unfold member_id. by destruct (String.eqb_spec (jq_MemberID req) ""). Qed.

Lemma round_step config me other mine gen w :
  partners config me other -> pair_ok (w_fsm w) me other mine gen -> gen + 1 < 2 ^ 31 ->
  exists w', round config me mine w = (Ok true, gen + 1, w') /\ pair_ok (w_fsm w') other me gen (gen + 1).
Proof.
  intros (Eg & Et & Hne & Hr) [Hs (g & Hg & Hgen & [m1 Hm1] & [m2 Hm2]) Hsubs Htop Hb] Hlim.
  destruct (Hr me) as [Hid Hto]; [auto|]. unfold round, h. rewrite (run_Heartbeat _ _ _ _ _ _ _ _ _ Hg Hm1).
  rewrite Z.gtb_ltb, (proj2 (Z.ltb_lt _ _)) by lia.
  assert (joinable config (w_fsm w) me) as Hj.
  { split_and!; [lia..|done|]. intros id ms Hms. rewrite (Hsubs _ _ Hms). apply topicSetsEqual_refl. }
  rewrite (run_JoinGroup uuid ord leader ord_perm config me (set_table w _) Hs Hj). cbn [set_table w_fsm w_clock].
  set (g' := joined uuid ord (w_fsm w) me (w_clock w)).
  assert (GenerationID g' = gen + 1) as Hg'.
  { unfold g', joined. cbn [GenerationID]. rewrite Hg. cbn. rewrite Hgen. apply i32_id. unfold in_i32. lia. }
  cbn [jp_GenerationID]. rewrite Hg'. eexists. split; [reflexivity|]. cbn [w_fsm].
  assert (Members g' = <[jq_MemberID me := new_member uuid me (w_clock w)]> (Members g)) as Hmem.
  { unfold g', joined. cbn [Members]. by rewrite Hg, own_id. }
  constructor; cbn [set_groupStates Topics GroupStates].
  - apply groups_ok_group; [done|]. apply (joined_cover uuid ord ord_perm (w_fsm w) me (w_clock w) Hs).
  - exists g'. rewrite <- Eg, lookup_insert_eq, Hmem, lookup_insert_eq, lookup_insert_ne by done. eauto.
  - intros id ms. unfold members_of. cbn [set_groupStates GroupStates]. rewrite <- Eg, lookup_insert_eq, Hmem, <- Et.
    intros [[_ <-]|[_ Hms]]%lookup_insert_Some; [done|]. apply (Hsubs id). unfold members_of. by rewrite Hg.
  - rewrite <- Et. exact Htop.
  - lia.
Qed.

(** C39: two members that follow the protocol never come to rest: whenever one of them has missed a
    join, its heartbeat answers that a rebalance is required, its new join moves the generation,
    and the other one's next heartbeat answers the same, in every round. *)
Theorem rejoin_never_settles config n me other mine gen w :
  partners config me other -> pair_ok (w_fsm w) me other mine gen -> gen + Z.of_nat n < 2 ^ 31 ->
  rounds config n me other mine gen w = replicate n (Ok true).
Proof.
  revert me other mine gen w. induction n as [|n IH]; intros me other mine gen w Hp Hok Hn; [done|].
  cbn [rounds replicate]. destruct (round_step config me other mine gen w Hp Hok ltac:(lia)) as (w' & -> & Hok').
  f_equal. apply IH; [by apply partners_sym|done|lia].
Qed.

End sweep.

(** ** Witnesses *)

Definition w_ab : world := (run hand (call_prog config0 (CallJoin (req0 "b"))) wb).2.
Definition g_ab : GroupState := default (empty_group "g") (GroupStates (w_fsm w_ab) !! "g").

Lemma id_perm (l : list string) : id l ≡ₚ l.
Proof. reflexivity. Qed.

Lemma run_groups_ok c w : groups_ok (w_fsm w) -> groups_ok (w_fsm (run hand (call_prog config0 c) w).2).
Proof.
  intros Hw. eapply (safe_exec sem env Inv _ _ w _ _ env_Inv (safe_calls config0 c) Hw).
  apply run_exec. intros. by apply handle_sem.
Qed.

Lemma w_ab_ok : groups_ok (w_fsm w_ab).
Proof. apply run_groups_ok, run_groups_ok, s_topic_ok. Qed.

Lemma JoinGroup_assigns_witness :
  exists resp w', run (handle "u" id (1, 1, true)) (JoinGroup config0 (req0 "c")) w_ab = (Ok resp, w') /\
    jp_GenerationID resp = 3 /\ jp_Assignments resp = [TP "t" 2].
Proof.
  destruct (JoinGroup_assigns "u" id (1, 1, true) id_perm config0 (req0 "c") w_ab w_ab_ok) as (resp & w' & g' & E & _).
  - split; [vm_compute; split; congruence|]. split.
    + intros t Ht. apply list_elem_of_singleton in Ht as ->. eexists. vm_compute. reflexivity.
    + intros id ms Hms. assert (members_of (w_fsm w_ab) "g" =
        {[ "a" := new_member "u" (req0 "a") 5; "b" := new_member "u" (req0 "b") 5 ]}) as E by (vm_compute; reflexivity).
      cbn [req0 jq_GroupID] in Hms. rewrite E in Hms. apply lookup_insert_Some in Hms as [[_ <-]|[_ Hms]]; [vm_compute; reflexivity|].
      apply lookup_singleton_Some in Hms as [_ <-]. vm_compute. reflexivity.
  - exists resp, w'. split; [exact E|].
    assert ((run (handle "u" id (1, 1, true)) (JoinGroup config0 (req0 "c")) w_ab).1 =
      Ok {| jp_MemberID := "c"; jp_GenerationID := 3; jp_Assignments := [TP "t" 2] |}) as E2
      by (vm_compute; reflexivity).
    rewrite E in E2. cbn [fst] in E2. injection E2 as ->. split; reflexivity.
Defined.

Lemma JoinGroup_rejects_witness :
  exists e, run hand (JoinGroup config0 {| jq_GroupID := "g"; jq_MemberID := "a"; jq_Topics := ["t"];
    jq_SessionTimeoutMs := 999; jq_HeartbeatIntervalMs := 0 |}) wa = (Err e, wa) /\ errors_is e sInvalidArgument = true.
Proof.
  destruct (JoinGroup_rejects "uuid-1" id (1, 1, true) id_perm config0 {| jq_GroupID := "g"; jq_MemberID := "a"; jq_Topics := ["t"];
    jq_SessionTimeoutMs := 999; jq_HeartbeatIntervalMs := 0 |} wa) as [H _].
  apply H. vm_compute. intros [H1 _]. congruence.
Defined.

Lemma LeaveGroup_reassigns_witness :
  exists g' w', run hand (LeaveGroup "g" "a") w_ab = (Ok tt, w') /\
    GroupStates (w_fsm w') !! "g" = Some g' /\ GenerationID g' = 3 /\ exact_cover (w_fsm w_ab) ["t"] g'.
Proof.
  pose proof (LeaveGroup_reassigns "uuid-1" id (1, 1, true) id_perm "g" "a" w_ab w_ab_ok) as H.
  assert (members_of (w_fsm w_ab) "g" !! "a" = Some (new_member "u" (req0 "a") 5)) as Ea by (vm_compute; reflexivity).
  rewrite Ea in H. destruct H as (g & g' & w' & Hg & E & Es & Em & _ & Egen & _ & Hc & _).
  assert (GroupStates (w_fsm w_ab) !! "g" = Some g_ab) as Eg by (vm_compute; reflexivity).
  rewrite Eg in Hg. injection Hg as <-.
  exists g', w'. split; [exact E|]. split; [rewrite Es; apply lookup_insert_eq|].
  split; [rewrite Egen; vm_compute; reflexivity|]. apply Hc. rewrite Em. intros Hempty.
  apply (f_equal (fun m => m !! "b")) in Hempty. vm_compute in Hempty. discriminate.
Defined.

Lemma commit_then_fetch_witness :
  exists w' m, run hand (CommitOffset "g" "b" 2 {[ TP "t" 2 := 41 ]}) w_ab = (Ok tt, w') /\
    run hand (FetchCommittedOffsets "g" [TP "t" 1; TP "t" 2]) w' = (Ok m, w') /\
    m !! TP "t" 2 = Some 41 /\ m !! TP "t" 1 = Some (-1).
Proof.
  destruct (commit_then_fetch "uuid-1" id (1, 1, true) "g" "b" {[ TP "t" 2 := 41 ]} [TP "t" 1; TP "t" 2] w_ab g_ab
    (new_member "u" (req0 "b") 5) [TP "t" 2]) as (w' & m & E1 & E2 & H);
    [vm_compute; reflexivity..| |].
  - intros tp o Ho. apply lookup_singleton_Some in Ho as [<- _]. apply list_elem_of_singleton. reflexivity.
  - exists w', m. split; [exact E1|]. split; [exact E2|]. rewrite !H. split; vm_compute; reflexivity.
Defined.

Lemma sweepOnce_evicts_witness :
  exists w', run hand (sweepOnce config0) (set_clock w_ab (40 * 10 ^ 9)) = (Ok tt, w') /\
    view w' ("g", "a") = (None, None).
Proof.
  destruct (sweepOnce_evicts "uuid-1" id (1, 1, true) id_perm config0 (set_clock w_ab (40 * 10 ^ 9)) eq_refl eq_refl)
    as (w' & E & H & _).
  exists w'. split; [exact E|]. rewrite H. vm_compute. reflexivity.
Defined.

Lemma rejoin_never_settles_witness :
  rounds "u" id (1, 1, true) config0 10 (req0 "a") (req0 "b") 1 2 w_ab = replicate 10 (Ok true).
Proof.
  apply (rejoin_never_settles "u" id (1, 1, true) id_perm); [| |vm_compute; reflexivity].
  - split; [reflexivity|]. split; [reflexivity|]. split; [discriminate|].
    intros r [->| ->]; (split; [discriminate|vm_compute; split; discriminate]).
  - constructor; [exact w_ab_ok| | | |lia].
    + exists g_ab. split; [vm_compute; reflexivity|]. split; [vm_compute; reflexivity|].
      split; eexists; vm_compute; reflexivity.
    + intros id ms Hms. assert (members_of (w_fsm w_ab) "g" =
        {[ "a" := new_member "u" (req0 "a") 5; "b" := new_member "u" (req0 "b") 5 ]}) as E by (vm_compute; reflexivity).
      cbn [req0 jq_GroupID] in Hms. rewrite E in Hms.
      apply lookup_insert_Some in Hms as [[_ <-]|[_ Hms]]; [reflexivity|].
      apply lookup_singleton_Some in Hms as [_ <-]. reflexivity.
    + intros t Ht. apply list_elem_of_singleton in Ht as ->. eexists. vm_compute. reflexivity.
Defined.

End GroupLive.
