(* ===== verification/GroupFailover.v ===== *)
(** * Session timeouts and the change of the group coordinator

    Every node has a group coordinator with its own table of heartbeats; only the one on the leader
    of the metadata shard serves the group calls (the data API refuses them elsewhere) and sweeps.
    [cluster] has the replicated metadata and the table of every node. While the leader stays, its
    loop [sessionTimeoutSweep] (internal/coordinator/group/groupcoord.go) removes a silent member at the
    first tick after its session timeout, and never before ([session_expires]). When the leader
    changes, the new one judges by the table it has, and that was last filled when it started or led before:
    main.go calls [RebuildHeartbeatTable] at the start of the process only ([failover_forgets]). *)

From S2P Require Import Prelude SegName Keys Metadata RangeAssign Prog GroupCoord GroupSem GroupRun GroupLive.
Local Open Scope Z_scope.

Module GroupFailover.
Import Metadata RangeAssign GroupCoord GroupSem GroupRun GroupLive.

(** ** The coordinators of a cluster *)

Record cluster := { cl_fsm : MetadataState; cl_tables : gmap Z heartbeats; cl_clock : Z; cl_leader : Z; cl_term : Z }.

Definition table_of (cl : cluster) (n : Z) : heartbeats := default ∅ (cl_tables cl !! n).

(** What the coordinator of node [n] works on. *)
Definition world_of (cl : cluster) (n : Z) : world := {| w_fsm := cl_fsm cl; w_table := table_of cl n; w_clock := cl_clock cl |}.

Definition write_back (cl : cluster) (n : Z) (w : world) : cluster :=
  {| cl_fsm := w_fsm w; cl_tables := <[n := w_table w]> (cl_tables cl); cl_clock := w_clock w; cl_leader := cl_leader cl; cl_term := cl_term cl |}.

Definition on_node (config : GroupCoordinatorConfig) (n : Z) : GroupCoordinatorConfig :=
  {| MetadataShardID := MetadataShardID config; ThisNodeID := n; SessionTimeoutMinMs := SessionTimeoutMinMs config;
     SessionTimeoutMaxMs := SessionTimeoutMaxMs config; SweepIntervalMs := SweepIntervalMs config |}.

(** The calls of clients. *)
Definition client_call (c : gcall) : bool := match c with CallRebuild | CallSweep => false | _ => true end.

(** A process starts on a node; the metadata shard elects a node; time passes; a client's call is
    served by the leader; a tick of a node's sweep loop. *)
Inductive op := OStart (n : Z) | OElect (n : Z) | OWait (ns : Z) | OClient (uuid : string) (c : gcall) | OTick (n : Z).

Section failover.
Variable config : GroupCoordinatorConfig.
Variable ord : list string -> list string.
Hypothesis ord_perm : forall l, ord l ≡ₚ l.

Definition serve (uuid : string) (n : Z) (c : gcall) (cl : cluster) : cluster :=
  write_back cl n (run (handle uuid ord (cl_leader cl, cl_term cl, true)) (call_prog (on_node config n) c) (world_of cl n)).2.

Definition set_tables (cl : cluster) (t : gmap Z heartbeats) : cluster :=
  {| cl_fsm := cl_fsm cl; cl_tables := t; cl_clock := cl_clock cl; cl_leader := cl_leader cl; cl_term := cl_term cl |}.

Definition step (cl : cluster) (o : op) : cluster :=
  match o with
  | OStart n => serve "" n CallRebuild (set_tables cl (<[n := ∅]> (cl_tables cl)))
  | OElect n => {| cl_fsm := cl_fsm cl; cl_tables := cl_tables cl; cl_clock := cl_clock cl; cl_leader := n; cl_term := cl_term cl + 1 |}
  | OWait ns => {| cl_fsm := cl_fsm cl; cl_tables := cl_tables cl; cl_clock := cl_clock cl + ns; cl_leader := cl_leader cl; cl_term := cl_term cl |}
  | OClient uuid c => if client_call c then serve uuid (cl_leader cl) c cl else cl
  | OTick n => serve "" n CallSweep cl
  end.

Definition steps (cl : cluster) (ops : list op) : cluster := fold_left step ops cl.

(** The loop of node [n]: at every tick a sweep, and between two ticks what happens meanwhile. It
    ends with its context, here with the list. *)
Definition sessionTimeoutSweep (n : Z) (between : list (cluster -> cluster)) (cl : cluster) : cluster :=
  fold_left (fun cl f => step (f cl) (OTick n)) between cl.

(** What node [n] knows of a member. *)
Definition seen (n : Z) (cl : cluster) (p : string * string) : option MemberState * option Z := view (world_of cl n) p.
Definition member (cl : cluster) (p : string * string) : option MemberState := members_of (cl_fsm cl) p.1 !! p.2.

(** ** One tick *)

Lemma tick_seen n cl p : cl_leader cl = n ->
  seen n (step cl (OTick n)) p = if is_expired (cl_clock cl) (seen n cl p) then (None, None) else seen n cl p.
Proof.
  intros El. destruct (sweepOnce_evicts "" ord (cl_leader cl, cl_term cl, true) ord_perm (on_node config n) (world_of cl n)) as (w' & E & H & _);
    [done|done|]. unfold seen, step, serve. cbn [call_prog]. rewrite E. cbn [snd]. rewrite <- H.
  unfold view, world_of, write_back, table_of. cbn. by rewrite lookup_insert_eq.
Qed.

Lemma tick_rest n cl : cl_leader (step cl (OTick n)) = cl_leader cl /\ cl_clock (step cl (OTick n)) = cl_clock cl.
Proof.
  split; [done|]. unfold step, serve. cbn [call_prog write_back cl_clock]. rewrite run_sweepOnce. cbn [snd].
  destruct (_ && _); [|done]. rewrite (fold_left_keeps w_clock); [done|]. intros w g. unfold sweep_group.
  apply (fold_left_keeps w_clock). intros w1 m. unfold evict. destruct (is_expired _ _); [|done].
  destruct (GroupStates _ !! _) as [gs|]; [|done]. by destruct (Members gs !! m).
Qed.

(** A tick elsewhere does nothing. *)
Lemma tick_follower n cl : cl_leader cl <> n -> step cl (OTick n) = write_back cl n (world_of cl n).
Proof. intros Hne. unfold step, serve. cbn [call_prog]. rewrite sweepOnce_follower by (by left). done. Qed.

(** ** A silent member *)

Definition interval : Z := SweepIntervalMs config * 10 ^ 6.

(** While the loop of [n] waits, [n] stays the leader and hears nothing of [p]; the next tick comes
    after the interval. *)
Definition quiet (n : Z) (p : string * string) (f : cluster -> cluster) : Prop :=
  forall cl, cl_leader cl = n -> cl_leader (f cl) = n /\ seen n (f cl) p = seen n cl p /\ cl_clock (f cl) = cl_clock cl + interval.

Lemma sweep_silent n p between : Forall (quiet n p) between -> 0 <= interval -> forall cl, cl_leader cl = n ->
  let cl' := sessionTimeoutSweep n between cl in
  cl_leader cl' = n /\ cl_clock cl' = cl_clock cl + len between * interval /\
  (between <> [] -> seen n cl' p = if is_expired (cl_clock cl') (seen n cl p) then (None, None) else seen n cl p).
Proof.
  intros Hb Hi. induction Hb as [|f between Hf _ IH]; intros cl El; cbn [sessionTimeoutSweep fold_left].
  { split_and!; [done|unfold len; cbn [length Z.of_nat]; lia|done]. }
  destruct (Hf cl El) as (L1 & S1 & C1). destruct (tick_rest n (f cl)) as [L2 C2]. rewrite L1 in L2.
  destruct (IH (step (f cl) (OTick n)) L2) as (L3 & C3 & S3). unfold sessionTimeoutSweep in *. split; [done|].
  assert (0 <= len between) by apply len_nonneg.
  split; [rewrite C3, C2, C1, len_cons; lia|]. intros _. rewrite (tick_seen n (f cl) p L1), S1 in S3.
  assert (cl_clock (f cl) <= cl_clock (fold_left (fun cl f => step (f cl) (OTick n)) between (step (f cl) (OTick n)))) as Hle by (rewrite C3, C2; nia).
  destruct between as [|f2 between].
  { cbn [fold_left]. rewrite (tick_seen n (f cl) p L1), S1. by rewrite C2. }
  specialize (S3 ltac:(done)). rewrite S3. destruct (is_expired (cl_clock (f cl)) (seen n cl p)) eqn:E; [|done].
  cbn [is_expired]. destruct (seen n cl p) as [[ms|] [last|]]; try done. cbn [is_expired] in *. unfold expired in *.
  assert (SessionTimeoutMs ms * 10 ^ 6 < cl_clock (f cl) - last) as Hlt by (destruct (Z.leb_spec (cl_clock (f cl) - last) (SessionTimeoutMs ms * 10 ^ 6)); [done|lia]).
  rewrite (proj2 (Z.leb_gt _ _)) by lia. done.
Qed.

(** C31: A silent member is removed in time, and not too early. While a node leads and its sweep loop
    ticks, a member whose last heartbeat it has and of which it hears nothing more is in the group as long as no tick
    has come after its session timeout, whatever else goes on, and is removed by the first one that does:
    at the latest one sweep interval after the timeout. *)
Theorem session_expires n p between cl ms last :
  cl_leader cl = n -> seen n cl p = (Some ms, Some last) -> between <> [] -> Forall (quiet n p) between -> 0 <= interval ->
  let time := cl_clock cl + len between * interval in
  let cl' := sessionTimeoutSweep n between cl in
  cl_clock cl' = time /\ member cl' p = (if expired time last ms then None else Some ms) /\
  (last <= cl_clock cl -> SessionTimeoutMs ms * 10 ^ 6 < len between * interval -> member cl' p = None).
Proof.
  intros El Es Hne Hb Hi time cl'. destruct (sweep_silent n p between Hb Hi cl El) as (_ & Hc & Hs). specialize (Hs Hne).
  fold cl' in Hc, Hs. fold time in Hc. rewrite Hc, Es in Hs. cbn [is_expired] in Hs.
  assert (member cl' p = (if expired time last ms then None else Some ms)) as E.
  { change (member cl' p) with (seen n cl' p).1. rewrite Hs. by destruct (expired time last ms). }
  split_and!; [done|done|]. intros Hl Ht. rewrite E. unfold expired. by rewrite (proj2 (Z.leb_gt _ _)) by lia.
Qed.

(** ** A new leader *)

Lemma serve_elsewhere uuid m c cl n : m <> n -> table_of (serve uuid m c cl) n = table_of cl n.
Proof. intros Hne. unfold serve, write_back, table_of. cbn. by rewrite lookup_insert_ne. Qed.

Definition not_here (n : Z) (o : op) : Prop := o <> OStart n /\ o <> OElect n.

(** A node that does not lead hears nothing. *)
Lemma step_elsewhere n cl o : cl_leader cl <> n -> not_here n o -> table_of (step cl o) n = table_of cl n /\ cl_leader (step cl o) <> n.
Proof.
  intros El [H1 H2]. destruct o as [m|m|ns|uuid c|m]; cbn [step].
  - split; [|done]. rewrite serve_elsewhere by congruence. unfold table_of, set_tables. cbn. by rewrite lookup_insert_ne by congruence.
  - split; [done|]. cbn. congruence.
  - done.
  - destruct (client_call c); [|done]. split; [by apply serve_elsewhere|done].
  - split; [|done]. destruct (decide (m = n)) as [->|Hm]; [|by apply serve_elsewhere].
    change (serve "" n CallSweep cl) with (step cl (OTick n)). rewrite tick_follower by done.
    unfold write_back, table_of. cbn. by rewrite lookup_insert_eq.
Qed.

Lemma steps_elsewhere n ops : Forall (not_here n) ops -> forall cl, cl_leader cl <> n -> table_of (steps cl ops) n = table_of cl n.
Proof.
  induction 1 as [|o ops Ho _ IH]; intros cl El; [done|]. destruct (step_elsewhere n cl o El Ho) as [E1 E2].
  cbn [steps fold_left]. unfold steps in IH. by rewrite IH.
Qed.

(** C32: A new group coordinator goes by an old table. When node [n] has not led for a while and is elected, its sweep decides
    by the heartbeats it knew of before, not by those the members have sent since: a member it has an
    old entry of is removed by the first tick, however lately the previous leader heard of it; a
    member it has no entry of, dead or alive, stays in the group for ever as long as it is silent. *)
Theorem failover_forgets n cl ops p :
  cl_leader cl <> n -> Forall (not_here n) ops ->
  let cl1 := steps cl ops in let elected := step cl1 (OElect n) in
  (forall ms last, member cl1 p = Some ms -> last_of (table_of cl n) p.1 p.2 = Some last ->
     member (step elected (OTick n)) p = if expired (cl_clock cl1) last ms then None else Some ms) /\
  (forall ms between, member cl1 p = Some ms -> last_of (table_of cl n) p.1 p.2 = None -> 0 <= interval -> Forall (quiet n p) between ->
     member (sessionTimeoutSweep n between elected) p = Some ms).
Proof.
  intros El Ho cl1 elected. pose proof (steps_elsewhere n ops Ho cl El) as Et. fold cl1 in Et.
  assert (seen n elected p = (member cl1 p, last_of (table_of cl n) p.1 p.2)) as Es by (rewrite <- Et; done). split.
  - intros ms last Hm Hl. change (member (step elected (OTick n)) p) with (seen n (step elected (OTick n)) p).1.
    rewrite tick_seen, Es, Hm, Hl by done. cbn [is_expired]. change (cl_clock elected) with (cl_clock cl1). by destruct (expired _ _ _).
  - intros ms between Hm Hl Hi Hb. destruct (sweep_silent n p between Hb Hi elected eq_refl) as (_ & _ & Hs).
    change (member (sessionTimeoutSweep n between elected) p) with (seen n (sessionTimeoutSweep n between elected) p).1.
    destruct between as [|f between]; [cbn [sessionTimeoutSweep fold_left]; by rewrite Es|]. rewrite Hs, Es, Hm, Hl by done. done.
Qed.

End failover.

(** ** Two nodes *)

Definition cluster0 : cluster := {| cl_fsm := s_topic; cl_tables := ∅; cl_clock := 0; cl_leader := 1; cl_term := 1 |}.
Definition second : Z := 10 ^ 9.
Abbreviation go := (steps config0 id).

(** Five seconds pass. *)
Definition pause (cl : cluster) : cluster := step config0 id cl (OWait (5 * second)).

Lemma pause_quiet n p : quiet config0 n p pause.
Proof. intros cl El. split_and!; [exact El|reflexivity|reflexivity]. Qed.

(** Both nodes start, and "a" joins the group of node 1. *)
Definition joined1 : cluster := go cluster0 [OStart 1; OStart 2; OClient "u" (CallJoin (req0 "a"))].

(** The session timeout is 30 seconds: six ticks leave the member, the seventh removes it. *)
Lemma session_expires_witness :
  member (sessionTimeoutSweep config0 id 1 (replicate 6 pause) joined1) ("g", "a") <> None /\
  member (sessionTimeoutSweep config0 id 1 (replicate 7 pause) joined1) ("g", "a") = None.
Proof.
  assert (seen 1 joined1 ("g", "a") = (member joined1 ("g", "a"), Some 0)) as E by (vm_compute; reflexivity).
  destruct (member joined1 ("g", "a")) as [ms|] eqn:Em; [|vm_compute in Em; discriminate].
  assert (SessionTimeoutMs ms = 30000) as Et by (vm_compute in Em; injection Em as <-; reflexivity).
  destruct (session_expires config0 id (fun l => reflexivity l) 1 ("g", "a") (replicate 6 pause) joined1 ms 0) as (_ & H6 & _);
    [reflexivity|exact E|discriminate|apply Forall_replicate, pause_quiet|vm_compute; discriminate|].
  destruct (session_expires config0 id (fun l => reflexivity l) 1 ("g", "a") (replicate 7 pause) joined1 ms 0) as (_ & _ & H7);
    [reflexivity|exact E|discriminate|apply Forall_replicate, pause_quiet|vm_compute; discriminate|].
  split.
  - rewrite H6. unfold expired. rewrite Et. vm_compute. discriminate.
  - apply H7; [vm_compute; discriminate|]. rewrite Et. vm_compute. reflexivity.
Defined.

(** Node 2 starts after "a" has joined, 40 seconds pass in which "a" sends heartbeats to node 1, the
    last one just before node 2 is elected. *)
Definition beats : list op :=
  [OWait (20 * second); OClient "u" (CallHeartbeat "g" "a" 1); OWait (20 * second); OClient "u" (CallHeartbeat "g" "a" 1)].
Definition started2 : cluster := go cluster0 [OStart 1; OClient "u" (CallJoin (req0 "a")); OStart 2].

Lemma failover_forgets_witness :
  last_of (table_of (go started2 beats) 1) "g" "a" = Some (cl_clock (go started2 beats)) /\
  member (step config0 id (step config0 id (go started2 beats) (OElect 2)) (OTick 2)) ("g", "a") = None /\
  member (sessionTimeoutSweep config0 id 2 (replicate 100 pause) (step config0 id joined1 (OElect 2))) ("g", "a") <> None.
Proof.
  split; [vm_compute; reflexivity|]. split.
  - destruct (failover_forgets config0 id (fun l => reflexivity l) 2 started2 beats ("g", "a")) as [H _];
      [discriminate|repeat constructor; discriminate|].
    destruct (member (go started2 beats) ("g", "a")) as [ms|] eqn:Em; [|vm_compute in Em; discriminate].
    rewrite (H ms 0 eq_refl ltac:(vm_compute; reflexivity)). vm_compute in Em. injection Em as <-. vm_compute. reflexivity.
  - destruct (failover_forgets config0 id (fun l => reflexivity l) 2 joined1 [] ("g", "a")) as [_ H]; [discriminate|constructor|].
    assert (exists ms, member joined1 ("g", "a") = Some ms) as [ms Em] by (eexists; vm_compute; reflexivity).
    change (go joined1 []) with joined1 in H. rewrite (H ms (replicate 100 pause) Em); [discriminate|vm_compute; reflexivity|vm_compute; discriminate|].
    apply Forall_replicate, pause_quiet.
Defined.

End GroupFailover.
