(* ===== verification/Partition.v ===== *)
(** * The partition state machine

    internal/partition: the on-disk state machine of one partition shard. Its state is the
    storage; a sidecar file records, after every batch of entries, the raft index applied last
    and the offset the log then ended at. After a crash [Open] recovers the storage, cuts it
    back to the sidecar's offset and tells the raft library from which index to replay, so that
    every entry takes effect exactly once ([crash_exactly_once]), except before the first
    sidecar exists ([first_update_duplicates]).

    The sidecar, [applied.idx], lies in the storage directory under a name the storage never
    uses; it is a field of its own here. It is replaced by a rename and is never torn. The
    channel of [QueryGetNewDataCh] is its number in the storage. Snapshots hold nothing. *)

From S2P Require Import Prelude Batch SegName LogSegment BinSearch OffsetIndex TimeIndex BatchLog Segment Recovery Storage StorageOpen StorageCut StorageExamples.
Local Open Scope Z_scope.

Module Partition.
Import LogSeg SegName BatchLog Seg Recovery Storage StorageOpen StorageCut StorageExamples.

Definition CmdAppendBatch : Z := 1.
Definition CmdRetentionConfig : Z := 2.

Record PartitionCommand := { Type_ : Z; Payload : list byte }.

Definition Marshal (c : PartitionCommand) : list byte := byte.of_Z (Type_ c) :: Payload c.

Inductive PartitionQuery :=
| QueryRead (offset maxBytes : Z)
| QueryReadByTime (timestampMs maxBytes : Z)
| QueryEarliestOffset
| QueryLatestOffset
| QueryGetNewDataCh
| QueryOther.

Record PartitionLookupResult := { Batches : list byte; NextOffset : Z }.

Inductive lookup_reply :=
| RBatches (r : PartitionLookupResult)
| ROffset (o : Z)
| RChannel (ch : Z).

(** ** The sidecar *)

Record sidecarData := { LastAppliedIndex : Z; sLatestOffset : Z }.

Definition sNotExist : sentinel := Sentinel "os" "ErrNotExist".

Definition encodeSidecar (idx latestOffset : Z) : list byte :=
  be_bytes 8 (u64 idx) ++ be_bytes 8 (u64 latestOffset).

Definition readSidecar (file : option (list byte)) : outcome sidecarData :=
  match file with
  | None => Err (ErrSentinel sNotExist)
  | Some data =>
      if negb (len data =? 16) then Err (ErrNew "sidecar: unexpected size") else
      i ← getUint64 data 0;
      o ← getUint64 data 8;
      Ok {| LastAppliedIndex := i; sLatestOffset := i64 o |}
  end.

(** ** The state machine *)

Record PartitionFSM := {
  storage : option storageImpl;
  lastAppliedIndex : Z;
  fsm_closed : bool;
  sidecar : option (list byte)
}.

Definition NewPartitionFSM (side : option (list byte)) : PartitionFSM :=
  {| storage := None; lastAppliedIndex := 0; fsm_closed := false; sidecar := side |}.

Definition set_storage (p : PartitionFSM) (s : storageImpl) : PartitionFSM :=
  {| storage := Some s; lastAppliedIndex := lastAppliedIndex p; fsm_closed := fsm_closed p; sidecar := sidecar p |}.
Definition set_applied (p : PartitionFSM) (i : Z) : PartitionFSM :=
  {| storage := storage p; lastAppliedIndex := i; fsm_closed := fsm_closed p; sidecar := sidecar p |}.
Definition set_sidecar (p : PartitionFSM) (d : list byte) : PartitionFSM :=
  {| storage := storage p; lastAppliedIndex := lastAppliedIndex p; fsm_closed := fsm_closed p; sidecar := Some d |}.

(** [Open] on the directory [fs]; the index is where the raft library resumes. *)
Definition Open (cfg : StorageConfig) (fs : files) (p : PartitionFSM) : PartitionFSM * outcome Z :=
  match Storage.Open fs cfg with
  | Ok s =>
      let p := set_storage p s in
      match readSidecar (sidecar p) with
      | Err e => if errors_is e sNotExist then (p, Ok 0) else (p, Err e)
      | Ok side =>
          let '(p, r) :=
            if sLatestOffset side <? LatestOffset s then
              match TruncateTo cfg s (sLatestOffset side) with
              | Ok s' => (set_storage p s', Ok tt)
              | m => (p, failure m)
              end
            else (p, Ok tt) in
          match r with
          | Ok _ => (set_applied p (LastAppliedIndex side), Ok (LastAppliedIndex side))
          | m => (p, failure m)
          end
      | m => (p, failure m)
      end
  | m => (p, failure m)
  end.

Record entry := { Index : Z; Cmd : list byte }.

Section update.
(** [json.Unmarshal] of a [RetentionConfigPayload]. *)
Variable unmarshal : list byte -> option (Z * Z).

(** The loop of [Update]: the results of the entries applied. *)
Fixpoint apply_entries (cfg : StorageConfig) (s : storageImpl) (entries : list entry)
  : storageImpl * outcome (list Z) :=
  match entries with
  | [] => (s, Ok [])
  | e :: entries' =>
      let continue_with (s : storageImpl) (value : Z) :=
        let '(s, r) := apply_entries cfg s entries' in (s, vs ← r; Ok (value :: vs)) in
      match index (Cmd e) 0 with
      | Ok t =>
          if byte.unsigned t =? CmdAppendBatch then
            let '(s, r) := Append cfg s (drop 1 (Cmd e)) in
            match r with
            | Ok baseOffset => continue_with s (u64 baseOffset)
            | Err _ => (s, Panic (PanicMsg "storage.Append failed"))
            | m => (s, failure m)
            end
          else if byte.unsigned t =? CmdRetentionConfig then
            match unmarshal (drop 1 (Cmd e)) with
            | None => (s, Panic (PanicMsg "bad retention config"))
            | Some (ms, bytes) => continue_with (SetRetentionConfig s ms bytes) 0
            end
          else (s, Panic (PanicMsg "unknown partition command type"))
      | m => (s, failure m)
      end
  end.

(** [persistApplied]; syncing and writing do not fail. *)
Definition persistApplied (p : PartitionFSM) (s : storageImpl) (idx : Z) : PartitionFSM :=
  set_sidecar p (encodeSidecar idx (LatestOffset s)).

Definition Update (cfg : StorageConfig) (p : PartitionFSM) (entries : list entry) : PartitionFSM * outcome (list Z) :=
  match storage p with
  | None => (p, Panic PanicNil)
  | Some s =>
      let '(s, r) := apply_entries cfg s entries in
      let p := set_storage p s in
      match r with
      | Ok vs =>
          match index entries (len entries - 1) with
          | Ok e => (set_applied (persistApplied p s (Index e)) (Index e), Ok vs)
          | m => (p, failure m)
          end
      | m => (p, failure m)
      end
  end.
End update.

Definition Lookup (p : PartitionFSM) (q : PartitionQuery) : outcome lookup_reply :=
  if fsm_closed p then Err ErrStorageClosed else
  match storage p with
  | None => Panic PanicNil
  | Some s =>
      match q with
      | QueryRead offset maxBytes =>
          '(batches, next) ← Read s offset maxBytes; Ok (RBatches {| Batches := batches; NextOffset := next |})
      | QueryReadByTime ts maxBytes =>
          '(batches, next) ← ReadByTime s ts maxBytes; Ok (RBatches {| Batches := batches; NextOffset := next |})
      | QueryEarliestOffset => Ok (ROffset (EarliestOffset s))
      | QueryLatestOffset => Ok (ROffset (LatestOffset s))
      | QueryGetNewDataCh => Ok (RChannel (NewDataCh s))
      | QueryOther => Err (ErrNew "partition: unknown query type")
      end
  end.

Definition Close (p : PartitionFSM) : PartitionFSM * outcome unit :=
  match storage p with
  | None => (p, Ok tt)
  | Some s =>
      let p := {| storage := storage p; lastAppliedIndex := lastAppliedIndex p; fsm_closed := true;
                  sidecar := sidecar p |} in
      match Storage.Close s with
      | Ok s' => (set_storage p s', Ok tt)
      | m => (p, failure m)
      end
  end.

(** Snapshots hold nothing and restore nothing: a replica gets its log from the entries alone.
    [Sync] is left to [persistApplied]. *)
Definition PrepareSnapshot (p : PartitionFSM) : outcome unit := Ok tt.
Definition SaveSnapshot (p : PartitionFSM) : outcome (list byte) := Ok (String.list_byte_of_string "strategy-a-noop").
Definition RecoverFromSnapshot (p : PartitionFSM) (snapshot : list byte) : PartitionFSM * outcome unit := (p, Ok tt).
Definition Sync (p : PartitionFSM) : outcome unit := Ok tt.

(** ** Commands and the sidecar *)

Lemma readSidecar_encode idx latest :
  in_u64 idx -> in_i64 latest ->
  readSidecar (Some (encodeSidecar idx latest)) = Ok {| LastAppliedIndex := idx; sLatestOffset := latest |}.
Proof.
  intros Hi Hl. unfold readSidecar, encodeSidecar, getUint64.
  rewrite len_app, !len_be_bytes. change (negb (Z.of_nat 8 + Z.of_nat 8 =? 16)) with false. cbn iota.
  set (a := be_bytes 8 (u64 idx)). set (b := be_bytes 8 (u64 latest)).
  assert (slice (a ++ b) 0 (0 + 8) = Ok a) as -> by (apply (slice_mid [] a b); done).
  assert (slice (a ++ b) 8 (8 + 8) = Ok b) as ->.
  { rewrite <- (app_nil_r b) at 1. apply (slice_mid a b []); done. }
  cbn [fmap outcome_fmap mbind outcome_bind]. unfold a, b. rewrite !be_Z_8, !(u64_id (u64 _)) by apply u64_range.
  rewrite (u64_id idx) by done. by rewrite i64_u64, i64_id.
Qed.

(** The batches as a log from [off] on stores them, and the offsets their appends return. *)
Fixpoint placed (off : Z) (bs : list (list byte)) : list (list byte) :=
  match bs with
  | [] => []
  | b :: bs' => Batch.withBaseOffset b off :: placed (off + batch_count b) bs'
  end.

Fixpoint offsets_from (off : Z) (bs : list (list byte)) : list Z :=
  match bs with
  | [] => []
  | b :: bs' => u64 off :: offsets_from (off + batch_count b) bs'
  end.

Definition counts (bs : list (list byte)) : Z := fold_right (fun b n => batch_count b + n) 0 bs.

Lemma counts_nonneg bs : 0 <= counts bs.
Proof. induction bs as [|b bs IH]; cbn [counts fold_right]; [lia|]. fold (counts bs). pose proof (batch_count_range b). lia. Qed.

Lemma counts_app bs1 bs2 : counts (bs1 ++ bs2) = counts bs1 + counts bs2.
Proof. unfold counts. induction bs1 as [|b bs1 IH]; cbn [app fold_right]; lia. Qed.

Lemma placed_app off bs1 bs2 : placed off (bs1 ++ bs2) = placed off bs1 ++ placed (off + counts bs1) bs2.
Proof.
  revert off. induction bs1 as [|b bs1 IH]; intros off; cbn [placed app counts fold_right]; [by rewrite Z.add_0_r|].
  fold (counts bs1). rewrite IH, Z.add_assoc. reflexivity.
Qed.

(** The entries [es] append the batches [bs]. *)
Definition entries_of (es : list entry) (bs : list (list byte)) : Prop :=
  Forall2 (fun e b => Cmd e = Marshal {| Type_ := CmdAppendBatch; Payload := b |}) es bs.

Section update_lemmas.
Variable unmarshal : list byte -> option (Z * Z).

Lemma apply_appends cfg s off l es bs :
  cfg_ok cfg -> represents cfg s off l -> entries_of es bs -> Forall wf_batch bs -> LatestOffset s + counts bs < 2 ^ 63 ->
  exists s', apply_entries unmarshal cfg s es = (s', Ok (offsets_from (LatestOffset s) bs)) /\
    represents cfg s' off (l ++ placed (LatestOffset s) bs) /\ LatestOffset s' = LatestOffset s + counts bs.
Proof.
  intros Hcfg Hrep He. revert s l Hrep. induction He as [|e b es bs Hb He IH]; intros s l Hrep Hwf Hend.
  { exists s. cbn. rewrite app_nil_r. split_and!; [done|done|lia]. }
  apply Forall_cons in Hwf as [Hwb Hwf]. cbn [counts fold_right] in Hend. fold (counts bs) in Hend.
  pose proof (counts_nonneg bs). destruct (append_represents cfg s off l b) as (s1 & Ha & Hrep1 & Hlat1 & _); [done..|lia|].
  destruct (IH s1 _ Hrep1 Hwf ltac:(lia)) as (s' & Hs' & Hrep' & Hlat').
  exists s'. cbn [apply_entries]. rewrite Hb. change (index (Marshal {| Type_ := CmdAppendBatch; Payload := b |}) 0)
    with (Ok (byte.of_Z CmdAppendBatch)). cbn iota.
  change (byte.unsigned (byte.of_Z CmdAppendBatch) =? CmdAppendBatch) with true. cbn iota.
  change (drop 1 (Marshal {| Type_ := CmdAppendBatch; Payload := b |})) with b. rewrite Ha, Hs'. cbn [mbind outcome_bind].
  rewrite Hlat1 in *. split_and!; [done| |cbn [counts fold_right]; fold (counts bs); lia].
  cbn [placed]. by rewrite <- app_assoc in Hrep'.
Qed.

(** The state machine holds the log [l] from [off] on, and its sidecar says so. *)
Record fsm_ok (cfg : StorageConfig) (p : PartitionFSM) (off : Z) (l : list (list byte)) (idx : Z) : Prop := {
  fo_storage : exists s, storage p = Some s /\ represents cfg s off l /\
    sidecar p = Some (encodeSidecar idx (LatestOffset s));
  fo_index : lastAppliedIndex p = idx /\ in_u64 idx;
  fo_open : fsm_closed p = false
}.

(** It holds the log; a sidecar may not exist yet. *)
Record fsm_live (cfg : StorageConfig) (p : PartitionFSM) (off : Z) (l : list (list byte)) : Prop := {
  fl_storage : exists s, storage p = Some s /\ represents cfg s off l;
  fl_open : fsm_closed p = false
}.

Lemma fsm_ok_live cfg p off l idx : fsm_ok cfg p off l idx -> fsm_live cfg p off l.
Proof. intros [(s & H1 & H2 & _) _ H3]. constructor; eauto. Qed.

Lemma open_fresh cfg : cfg_ok cfg -> exists p, Open cfg ∅ (NewPartitionFSM None) = (p, Ok 0) /\ fsm_live cfg p 0 [].
Proof.
  intros Hcfg. destruct (open_empty cfg Hcfg) as (s & HO & Hrep & _). unfold Open. rewrite HO.
  eexists. split; [reflexivity|]. constructor; [by exists s|done].
Qed.

Definition last_index (es : list entry) : Z := match last es with Some e => Index e | None => 0 end.

Lemma index_last (es : list entry) : es <> [] -> exists e, index es (len es - 1) = Ok e /\ Index e = last_index es.
Proof.
  intros Hne. destruct (exists_last Hne) as (es' & e & ->). exists e.
  unfold last_index. rewrite last_snoc. split; [|done]. apply index_mid. len_lia.
Qed.

Lemma update_ok cfg p off l es bs :
  cfg_ok cfg -> fsm_live cfg p off l -> es <> [] -> entries_of es bs -> Forall wf_batch bs -> in_u64 (last_index es) ->
  end_off off l + counts bs < 2 ^ 63 ->
  exists p', Update unmarshal cfg p es = (p', Ok (offsets_from (end_off off l) bs)) /\
    fsm_ok cfg p' off (l ++ placed (end_off off l) bs) (last_index es).
Proof.
  intros Hcfg [(s & Hs & Hrep) Hop] Hne He Hwf Hi Hend.
  pose proof (represents_log _ _ _ _ Hrep) as (_ & Hlat & _). rewrite <- Hlat in *.
  destruct (apply_appends cfg s off l es bs Hcfg Hrep He Hwf Hend) as (s' & Hs' & Hrep' & Hlat').
  destruct (index_last es Hne) as (e & Hidx & Ei).
  unfold Update. rewrite Hs, Hs', Hidx, Ei. eexists. split; [reflexivity|].
  constructor; [exists s'; split_and!; done|done|done].
Qed.

(** Reopening cuts what was appended after the sidecar was written. *)
Lemma open_cuts cfg fs s' off l more idx :
  cfg_ok cfg -> Storage.Open fs cfg = Ok s' -> represents cfg s' off (l ++ more) -> in_u64 idx ->
  exists p', Open cfg fs (NewPartitionFSM (Some (encodeSidecar idx (end_off off l)))) = (p', Ok idx) /\
    fsm_ok cfg p' off l idx.
Proof.
  intros Hcfg HO Hrep Hi. pose proof (represents_log _ _ _ _ Hrep) as (Hc & Hlat & _ & H0 & Hmax).
  rewrite end_off_app in Hlat. pose proof (end_off_mono off l). pose proof (end_off_mono (end_off off l) more).
  unfold Open. rewrite HO. cbn [set_storage NewPartitionFSM sidecar].
  rewrite readSidecar_encode by (done || unfold in_i64; lia). cbn [sLatestOffset LastAppliedIndex].
  destruct more as [|b more].
  - rewrite app_nil_r in Hrep. cbn [end_off] in Hlat. rewrite Hlat, Z.ltb_irrefl. eexists. split; [reflexivity|].
    constructor; [exists s'; split_and!; [done|done|cbn; by rewrite Hlat]|done|done].
  - apply chain_app in Hc as [_ Hc]. pose proof (chain_nonempty _ _ Hc ltac:(done)) as Hlt.
    destruct Hc as (_ & Hbase & _). rewrite (proj2 (Z.ltb_lt _ _)) by lia.
    destruct (truncate_refines cfg s' off _ Hcfg Hrep) as [HT _].
    destruct (HT l b more eq_refl) as (s2 & E & Hrep2 & Hlat2). rewrite Hbase in E, Hlat2. rewrite E.
    eexists. split; [reflexivity|].
    constructor; [exists s2; split_and!; [done|done|cbn; by rewrite Hlat2]|done|done].
Qed.

(** A suffix longer than [b] contains it, after its first element. *)
Lemma suffix_split {A} (l1 l2 a b : list A) :
  l1 ++ l2 = a ++ b -> (exists more, a = l1 ++ more) \/ exists x rest pre, b = x :: rest /\ rest = pre ++ l2.
Proof.
  intros E. apply app_eq_inv in E as [(k & -> & ->)|(k & -> & ->)]; [|left; eauto].
  destruct k as [|x k]; [left; exists []; by rewrite !app_nil_r|right; cbn; eauto 8].
Qed.

(** A batch of append entries is applied in order: the results are the offsets assigned,
    consecutive from the end of the log, the log grows by exactly these batches, and the sidecar
    records the last index with the new end. *)
Theorem Update_refines cfg p off l es bs :
  cfg_ok cfg -> fsm_live cfg p off l -> es <> [] -> entries_of es bs -> Forall wf_batch bs -> in_u64 (last_index es) ->
  end_off off l + counts bs < 2 ^ 63 ->
  exists p', Update unmarshal cfg p es = (p', Ok (offsets_from (end_off off l) bs)) /\
    fsm_ok cfg p' off (l ++ placed (end_off off l) bs) (last_index es).
Proof. apply update_ok. Qed.

Lemma placed_len off bs : Forall wf_batch bs -> len (concat (placed off bs)) = len (concat bs).
Proof.
  revert off. induction bs as [|b bs IH]; intros off Hwf; [done|]. apply Forall_cons in Hwf as [Hb Hwf].
  cbn [placed concat]. rewrite !len_app, IH, len_withBase by (done || apply wf_len in Hb; lia). done.
Qed.

Lemma crash_keeps cfg p off l s es bs b s1 act k fs' :
  cfg_ok cfg -> fsm_live cfg p off l -> storage p = Some s -> entries_of es bs -> Forall wf_batch (bs ++ [b]) ->
  end_off off l + counts (bs ++ [b]) < 2 ^ 63 ->
  (apply_entries unmarshal cfg s es).1 = s1 -> last (segments s1) = Some act -> LogSize act < SegmentMaxBytes cfg ->
  frame (seg_files (baseOffset act)) (dir s1) fs' ->
  fs' !! logName (baseOffset act) =
    Some (take k (contents (dir s1) (logName (baseOffset act)) ++ Batch.withBaseOffset b (LatestOffset s1))) ->
  LogSize act - len (concat bs) <= Z.of_nat k ->
  exists s' more, Storage.Open fs' cfg = Ok s' /\ represents cfg s' off (l ++ more).
Proof.
  intros Hcfg Hok Hs He Hwf Hend Hs1 Hlast Hsize F Hlog Hk.
  destruct Hok as [(s0 & Hs0 & Hrep) _]. rewrite Hs in Hs0. injection Hs0 as <-.
  apply Forall_app in Hwf as [Hwf Hwb]. rewrite Forall_singleton in Hwb.
  pose proof (represents_log _ _ _ _ Hrep) as (_ & Hlat & _).
  rewrite counts_app in Hend. cbn [counts fold_right] in Hend. fold (counts bs) in Hend.
  pose proof (batch_count_range b). rewrite <- Hlat in Hend.
  destruct (apply_appends cfg s off l es bs Hcfg Hrep He Hwf ltac:(lia)) as (s2 & Hs2 & Hrep2 & Hlat2).
  rewrite Hs2 in Hs1. cbn [fst] in Hs1. subst s2.
  destruct (crash_reopen cfg s1 off _ act b k fs' Hcfg Hrep2 Hlast Hsize Hwb ltac:(lia) F Hlog)
    as (s' & l' & lost & HO & Hrep' & E & Hlost).
  exists s'. rewrite <- app_assoc in E. destruct (suffix_split _ _ _ _ E) as [(more & ->)|(x & rest & pre & -> & ->)];
    [by exists more|].
  exfalso. specialize (Hlost _ _ eq_refl). rewrite !concat_app, !len_app, placed_len in Hlost by done.
  cbn [concat] in Hlost. rewrite app_nil_r, len_withBase in Hlost by (apply wf_len in Hwb; lia).
  pose proof (len_nonneg (concat pre)). lia.
Qed.

(** C2: exactly once across a crash. A batch of entries is being applied: the entries [es] are in the
    log, the append of [b] was cut at any byte (the bytes written after the last sync may be lost
    too), and the sidecar still names the previous index. Opening the directory again gives
    the log as it was at that index and asks for the replay from there; replaying all entries
    gives every batch its offset and leaves each batch in the log once. *)
Theorem crash_exactly_once cfg p off l idx s es bs b e rest brest s1 act k fs' :
  cfg_ok cfg -> fsm_ok cfg p off l idx -> storage p = Some s -> entries_of es bs ->
  entries_of (e :: rest) (b :: brest) -> Forall wf_batch (bs ++ b :: brest) ->
  end_off off l + counts (bs ++ b :: brest) < 2 ^ 63 -> in_u64 (last_index (es ++ e :: rest)) ->
  (apply_entries unmarshal cfg s es).1 = s1 -> last (segments s1) = Some act -> LogSize act < SegmentMaxBytes cfg ->
  frame (seg_files (baseOffset act)) (dir s1) fs' ->
  fs' !! logName (baseOffset act) =
    Some (take k (contents (dir s1) (logName (baseOffset act)) ++ Batch.withBaseOffset b (LatestOffset s1))) ->
  LogSize act - len (concat bs) <= Z.of_nat k ->
  exists p1 p2, Open cfg fs' (NewPartitionFSM (sidecar p)) = (p1, Ok idx) /\ fsm_ok cfg p1 off l idx /\
    Update unmarshal cfg p1 (es ++ e :: rest) = (p2, Ok (offsets_from (end_off off l) (bs ++ b :: brest))) /\
    fsm_ok cfg p2 off (l ++ placed (end_off off l) (bs ++ b :: brest)) (last_index (es ++ e :: rest)).
Proof.
  intros Hcfg Hok Hs He Hrest Hwf Hend Hi Hs1 Hlast Hsize F Hlog Hk.
  assert (counts (bs ++ b :: brest) = counts (bs ++ [b]) + counts brest) as Ec.
  { change (b :: brest) with ([b] ++ brest). rewrite !counts_app. lia. }
  pose proof (counts_nonneg brest).
  assert (Forall wf_batch (bs ++ [b])) as Hwf1.
  { apply Forall_app in Hwf as [? Hwf]. apply Forall_cons in Hwf as [? _]. apply Forall_app. by rewrite Forall_singleton. }
  destruct (crash_keeps cfg p off l s es bs b s1 act k fs' Hcfg (fsm_ok_live _ _ _ _ _ Hok)) as (s' & more & HO & Hrep'); try done; [lia|].
  destruct Hok as [(s0 & Hs0 & Hrep & Hside) [_ Hidx] _]. pose proof (represents_log _ _ _ _ Hrep) as (_ & Hlat & _).
  rewrite Hside, Hlat. destruct (open_cuts cfg fs' s' off l more idx Hcfg HO Hrep' Hidx) as (p1 & E1 & Hok1).
  destruct (update_ok cfg p1 off l (es ++ e :: rest) (bs ++ b :: brest) Hcfg (fsm_ok_live _ _ _ _ _ Hok1)) as (p2 & E2 & Hok2);
    [by destruct es|by apply Forall2_app|done|done|done|].
  exists p1, p2. split_and!; done.
Qed.

(** C40: before the first sidecar is written nothing is cut: if the process dies after the very first
    batch reached the log and before the sidecar was written, reopening keeps the batch, asks
    for the replay from index 0, and the replayed entry is stored a second time. *)
Theorem first_update_duplicates cfg e b :
  cfg_ok cfg -> entries_of [e] [b] -> wf_batch b -> 2 * batch_count b < 2 ^ 63 -> in_u64 (Index e) ->
  exists s s1 p1 p2, Storage.Open ∅ cfg = Ok s /\ apply_entries unmarshal cfg s [e] = (s1, Ok [0]) /\
    Open cfg (dir s1) (NewPartitionFSM None) = (p1, Ok 0) /\
    Update unmarshal cfg p1 [e] = (p2, Ok [u64 (batch_count b)]) /\
    fsm_ok cfg p2 0 [Batch.withBaseOffset b 0; Batch.withBaseOffset b (batch_count b)] (Index e).
Proof.
  intros Hcfg He Hwf Hend Hi. destruct (open_empty cfg Hcfg) as (s & HO & Hrep & Hlat).
  pose proof (batch_count_range b). pose proof (wf_len _ Hwf).
  assert (Forall wf_batch [b]) as Hwf1 by (by apply Forall_singleton).
  destruct (apply_appends cfg s 0 [] [e] [b] Hcfg Hrep He Hwf1) as (s1 & Hs1 & Hrep1 & Hlat1);
    [rewrite Hlat; cbn; lia|]. rewrite Hlat in *. cbn [counts fold_right] in Hlat1.
  destruct (reopen_represents cfg s1 0 _ Hcfg Hrep1) as (s2 & HO2 & Hrep2).
  assert (LatestOffset s2 = batch_count b) as Hlat2.
  { pose proof (represents_log _ _ _ _ Hrep2) as (_ & E & _). rewrite E. cbn [app placed end_off].
    rewrite withBase_count by lia. lia. }
  destruct (apply_appends cfg s2 0 _ [e] [b] Hcfg Hrep2 He Hwf1) as (s3 & Hs3 & Hrep3 & _);
    [rewrite Hlat2; cbn; lia|].
  exists s, s1. do 2 eexists. split; [exact HO|]. split; [exact Hs1|].
  split; [unfold Open; rewrite HO2; reflexivity|]. split.
  - unfold Update. cbn [set_storage storage NewPartitionFSM]. rewrite Hs3, Hlat2. reflexivity.
  - constructor; [|done|done]. exists s3. rewrite Hlat2 in Hrep3. split_and!; [done|exact Hrep3|done].
Qed.

End update_lemmas.

(** ** Witnesses: a partition with one batch applied at index 7, or none. *)

Definition no_json (_ : list byte) : option (Z * Z) := None.

Definition p_at (s : storageImpl) : PartitionFSM :=
  {| storage := Some s; lastAppliedIndex := 7; fsm_closed := false; sidecar := Some (encodeSidecar 7 (LatestOffset s)) |}.

Definition e0 (idx : Z) : entry :=
  {| Index := idx; Cmd := Marshal {| Type_ := CmdAppendBatch; Payload := b0 |} |}.

Lemma p_at_ok s l : represents cfg0 s 0 l -> fsm_ok cfg0 (p_at s) 0 l 7.
Proof. intros H. constructor; [by exists s|done|done]. Qed.

Lemma b0s_wf n : Forall wf_batch (replicate n b0).
Proof. apply Forall_replicate, b0_wf. Qed.

Lemma Update_refines_witness :
  exists p', Update no_json cfg0 (p_at st1) [e0 8; e0 9] = (p', Ok [2; 4]) /\
    fsm_ok cfg0 p' 0 [b0_at 0; b0_at 2; b0_at 4] 9.
Proof.
  apply (Update_refines no_json cfg0 (p_at st1) 0 [b0_at 0] [e0 8; e0 9] [b0; b0] cfg0_ok
    (fsm_ok_live _ _ _ _ _ (p_at_ok _ _ (proj1 st1_ok)))).
  - discriminate.
  - repeat constructor.
  - exact (b0s_wf 2).
  - vm_compute. split; congruence.
  - vm_compute. reflexivity.
Defined.

Lemma crash_exactly_once_witness :
  exists act p1 p2, last (segments st0) = Some act /\
    Open cfg0 (crash_dir act) (NewPartitionFSM (Some (encodeSidecar 7 0))) = (p1, Ok 7) /\
    Update no_json cfg0 p1 [e0 8] = (p2, Ok [0]) /\ fsm_ok cfg0 p2 0 [b0_at 0] 8.
Proof.
  destruct (proj1 st0_ok) as (segs & bss & act & bs & Hok & El). exists act.
  assert (last (segments st0) = Some act) as Hlast by (rewrite (so_segments _ _ _ _ _ _ _ Hok); apply last_snoc).
  assert (LogSize act = 0) as Hsize.
  { symmetry in El. apply app_eq_nil in El as [_ ->].
    unfold LogSize. rewrite (ok_log_size _ _ _ _ (so_act _ _ _ _ _ _ _ Hok)). by vm_compute. }
  destruct (crash_exactly_once no_json cfg0 (p_at st0) 0 [] 7 st0 [] [] b0 (e0 8) [] [] st0 act 50 (crash_dir act)
    cfg0_ok (p_at_ok _ _ (proj1 st0_ok)) eq_refl) as (p1 & p2 & E1 & _ & E2 & H2).
  - constructor.
  - repeat constructor.
  - exact (b0s_wf 1).
  - vm_compute. reflexivity.
  - vm_compute. split; congruence.
  - reflexivity.
  - exact Hlast.
  - rewrite Hsize. vm_compute. reflexivity.
  - eapply frame_mono; [|apply frame_insert]. unfold seg_files. set_solver.
  - apply lookup_insert_eq.
  - rewrite Hsize. vm_compute. congruence.
  - exists p1, p2. split; [exact Hlast|]. split; [exact E1|]. split; [exact E2|exact H2].
Defined.

Lemma first_update_duplicates_witness :
  exists s s1 p1 p2, Storage.Open ∅ cfg0 = Ok s /\ apply_entries no_json cfg0 s [e0 8] = (s1, Ok [0]) /\
    Open cfg0 (dir s1) (NewPartitionFSM None) = (p1, Ok 0) /\
    Update no_json cfg0 p1 [e0 8] = (p2, Ok [2]) /\ fsm_ok cfg0 p2 0 [b0_at 0; b0_at 2] 8.
Proof.
  apply (first_update_duplicates no_json cfg0 (e0 8) b0 cfg0_ok).
  - repeat constructor.
  - exact b0_wf.
  - vm_compute. reflexivity.
  - vm_compute. split; congruence.
Defined.

End Partition.
