(* ===== verification/Sidecar.v ===== *)
(** * The sidecar on disk

    [persistApplied] of internal/partition/partition.go replaces the sidecar: the new contents are
    written to a temporary file, synced, and renamed over the old file. A crash can come between
    any two of these steps, and loses what was not synced. [update_atomic]: whatever the crash, the
    directory opens again with the old index and the old log or with the new index and the new
    log, and after the replay from there the state is the same. *)

From S2P Require Import Prelude Batch SegName LogSegment BinSearch BatchLog Segment Recovery Storage StorageOpen StorageExamples Partition.
Local Open Scope Z_scope.

Module Sidecar.
Import LogSeg BatchLog Seg Storage StorageOpen StorageExamples Partition.

(** ** Files that survive a crash *)

(** The contents of a file, and whether they have been synced. *)
Record file := { f_data : list byte; f_synced : bool }.
Abbreviation disk := (gmap string file).

(** [os.WriteFile], [syncFile] and [os.Rename]. *)
Inductive op := WriteFile (path : string) (data : list byte) | SyncFile (path : string) | Rename (from to : string).

Definition step (d : disk) (o : op) : outcome disk :=
  match o with
  | WriteFile path data => Ok (<[path := {| f_data := data; f_synced := false |}]> d)
  | SyncFile path =>
      match d !! path with
      | Some f => Ok (<[path := {| f_data := f_data f; f_synced := true |}]> d)
      | None => Err (ErrSentinel sNotExist)
      end
  | Rename from to =>
      match d !! from with
      | Some f => Ok (<[to := f]> (delete from d))
      | None => Err (ErrSentinel sNotExist)
      end
  end.

Fixpoint exec (d : disk) (ops : list op) : outcome disk :=
  match ops with [] => Ok d | o :: ops' => d ← step d o; exec d ops' end.

(** After a crash a synced file is as it was; of another one any part of the data may be there. A
    rename is taken to be on the disk when it returns. [persistApplied] does not sync the directory,
    so a crash of the machine may undo the rename; that leaves the disk as before this step, which the
    theorems cover as a crash after fewer steps. *)
Definition crashed (d d' : disk) : Prop :=
  forall path,
    match d !! path with
    | None => d' !! path = None
    | Some f => if f_synced f then d' !! path = Some f else exists k, d' !! path = Some {| f_data := take k (f_data f); f_synced := true |}
    end.

Definition content (d : disk) (path : string) : option (list byte) := f_data <$> d !! path.

(** ** Replacing the sidecar *)

Definition tmp (path : string) : string := String.append path ".tmp".

(** The steps of [persistApplied] after the storage has been synced. *)
Definition persist_ops (path : string) (data : list byte) : list op :=
  [WriteFile (tmp path) data; SyncFile (tmp path); Rename (tmp path) path].

Lemma tmp_neq path : tmp path <> path.
Proof.
  unfold tmp. intros E. apply (f_equal String.length) in E. rewrite SegName.length_append in E. cbn in E. lia.
Qed.

(** The steps succeed. *)
Lemma persist_done path data d : exists d', exec d (persist_ops path data) = Ok d' /\ d' !! path = Some {| f_data := data; f_synced := true |}.
Proof.
  cbn. rewrite lookup_insert_eq. cbn. rewrite lookup_insert_eq. eexists. split; [reflexivity|]. by rewrite lookup_insert_eq.
Qed.

(** Together they are the [persistApplied] of the state machine. *)
Lemma persist_persistApplied p s idx path d d' :
  exec d (persist_ops path (encodeSidecar idx (LatestOffset s))) = Ok d' -> content d' path = sidecar (persistApplied p s idx).
Proof.
  intros E. destruct (persist_done path (encodeSidecar idx (LatestOffset s)) d) as (d1 & E1 & H1). rewrite E in E1. injection E1 as ->.
  unfold content. by rewrite H1.
Qed.

(** Until the last step the sidecar is the old file, then the new one: it is never in between. *)
Lemma persist_atomic path data d n d1 d2 :
  (forall f, d !! path = Some f -> f_synced f = true) ->
  exec d (take n (persist_ops path data)) = Ok d1 -> crashed d1 d2 ->
  content d2 path = content d path /\ (n < 3)%nat \/ content d2 path = Some data /\ (3 <= n)%nat.
Proof.
  intros Hs E Hc. pose proof (tmp_neq path) as Hne. specialize (Hc path).
  assert (d1 !! path = d !! path -> content d2 path = content d path) as Hold.
  { intros Ed. rewrite Ed in Hc. unfold content. destruct (d !! path) as [f|]; [rewrite (Hs f eq_refl) in Hc|]; by rewrite Hc. }
  destruct n as [|[|[|n]]].
  - injection E as <-. left. split; [by apply Hold|lia].
  - injection E as <-. left. split; [apply Hold; by rewrite lookup_insert_ne|lia].
  - cbn in E. rewrite lookup_insert_eq in E. injection E as <-. left. split; [apply Hold; by rewrite !lookup_insert_ne|lia].
  - assert (take (S (S (S n))) (persist_ops path data) = persist_ops path data) as Et by (by destruct n). rewrite Et in E.
    destruct (persist_done path data d) as (d' & E' & Hd'). rewrite E in E'. injection E' as ->.
    right. split; [|lia]. rewrite Hd' in Hc. unfold content. by rewrite Hc.
Qed.

(** ** An update across a crash *)

Section replay.
Variable unmarshal : list byte -> option (Z * Z).
Variable cfg : StorageConfig.

(** The raft library applies the entries behind the index that [Open] returned. *)
Definition replay (p : PartitionFSM) (idx : Z) (es : list entry) : PartitionFSM * outcome (list Z) :=
  match filter (fun e => idx < Index e) es with
  | [] => (p, Ok [])
  | es' => Update unmarshal cfg p es'
  end.

Lemma replay_all p idx es : es <> [] -> Forall (fun e => idx < Index e) es -> replay p idx es = Update unmarshal cfg p es.
Proof.
  intros Hne H. unfold replay. assert (filter (fun e => idx < Index e) es = es) as ->; [|by destruct es].
  clear Hne. induction H as [|e es He _ IH]; [done|]. rewrite filter_cons_True by done. by rewrite IH.
Qed.

Lemma replay_none p idx es : Forall (fun e => Index e <= idx) es -> replay p idx es = (p, Ok []).
Proof.
  intros H. unfold replay. assert (filter (fun e => idx < Index e) es = []) as ->; [|done].
  induction H as [|e es He _ IH]; [done|]. rewrite filter_cons_False by lia. done.
Qed.

(** Once the new sidecar is in place, opening gives everything that was applied. *)
Lemma renamed_opens p off l s es bs s1 :
  cfg_ok cfg -> fsm_live cfg p off l -> storage p = Some s -> entries_of es bs -> Forall wf_batch bs ->
  in_u64 (last_index es) -> end_off off l + counts bs < 2 ^ 63 -> (apply_entries unmarshal cfg s es).1 = s1 ->
  exists p1, Open cfg (dir s1) (NewPartitionFSM (Some (encodeSidecar (last_index es) (LatestOffset s1)))) = (p1, Ok (last_index es)) /\
    fsm_ok cfg p1 off (l ++ placed (end_off off l) bs) (last_index es) /\
    exists s', Storage.Open (dir s1) cfg = Ok s' /\ represents cfg s' off (l ++ placed (end_off off l) bs).
Proof.
  intros Hcfg [(s0 & Hs0 & Hrep) _] Hs He Hwf Hi Hend Hs1. rewrite Hs in Hs0. injection Hs0 as <-.
  pose proof (represents_log _ _ _ _ Hrep) as (_ & Hlat & _). rewrite <- Hlat in Hend.
  destruct (apply_appends unmarshal cfg s off l es bs Hcfg Hrep He Hwf Hend) as (s1' & Ha & Hrep1 & _). rewrite Hlat in *.
  rewrite Ha in Hs1. cbn in Hs1. subst s1'. destruct (reopen_represents cfg s1 off _ Hcfg Hrep1) as (s' & HO & Hrep').
  pose proof (represents_log _ _ _ _ Hrep1) as (_ & -> & _).
  destruct (open_cuts cfg (dir s1) s' off (l ++ placed (end_off off l) bs) [] (last_index es) Hcfg HO) as (p1 & E1 & Hok1);
    [by rewrite app_nil_r|done|]. exists p1. split_and!; [done|done|by exists s'].
Qed.

(** The state that [Open] finds after a crash while the sidecar is replaced. *)
Lemma update_crash p off l idx s es bs s1 path d n d1 d2 :
  cfg_ok cfg -> fsm_ok cfg p off l idx -> storage p = Some s -> es <> [] -> entries_of es bs -> Forall wf_batch bs ->
  in_u64 (last_index es) -> end_off off l + counts bs < 2 ^ 63 -> (apply_entries unmarshal cfg s es).1 = s1 ->
  content d path = sidecar p -> (forall f, d !! path = Some f -> f_synced f = true) ->
  exec d (take n (persist_ops path (encodeSidecar (last_index es) (LatestOffset s1)))) = Ok d1 -> crashed d1 d2 ->
  exists p1 i, Open cfg (dir s1) (NewPartitionFSM (content d2 path)) = (p1, Ok i) /\
    (i = idx /\ fsm_ok cfg p1 off l idx /\ (n < 3)%nat \/
     i = last_index es /\ fsm_ok cfg p1 off (l ++ placed (end_off off l) bs) (last_index es) /\ (3 <= n)%nat).
Proof.
  intros Hcfg Hok Hs Hne He Hwf Hi Hend Hs1 Hc Hsy E Hcr. pose proof Hok as [(s0 & Hs0 & Hrep & Hside) [_ Hi0] _].
  rewrite Hs in Hs0. injection Hs0 as <-. pose proof (represents_log _ _ _ _ Hrep) as (_ & Hlat & _).
  destruct (renamed_opens p off l s es bs s1 Hcfg (fsm_ok_live _ _ _ _ _ Hok) Hs He Hwf Hi Hend Hs1) as (p1 & E1 & Hok1 & s' & HO & Hrep').
  destruct (persist_atomic path _ d n d1 d2 Hsy E Hcr) as [[E2 Hn]|[E2 Hn]]; rewrite E2.
  - rewrite Hc, Hside, Hlat. destruct (open_cuts cfg (dir s1) s' off l _ idx Hcfg HO Hrep' Hi0) as (p2 & E3 & Hok2). exists p2, idx. auto.
  - exists p1, (last_index es). auto.
Qed.

(** C7: An update is atomic. The entries [es] have been applied and the storage has been synced; the
    process dies before, between or after the steps that replace the sidecar, or later. Opening
    the directory again gives the old index or the new one, never an error, and the replay of the
    entries behind it leaves the log with every batch once, at the offset it had, and the new
    index. *)
Theorem update_atomic p off l idx s es bs s1 path d n d1 d2 :
  cfg_ok cfg -> fsm_ok cfg p off l idx -> storage p = Some s -> es <> [] -> entries_of es bs -> Forall wf_batch bs ->
  Forall (fun e => idx < Index e <= last_index es) es -> in_u64 (last_index es) -> end_off off l + counts bs < 2 ^ 63 ->
  (apply_entries unmarshal cfg s es).1 = s1 ->
  content d path = sidecar p -> (forall f, d !! path = Some f -> f_synced f = true) ->
  exec d (take n (persist_ops path (encodeSidecar (last_index es) (LatestOffset s1)))) = Ok d1 -> crashed d1 d2 ->
  exists p1 i p2 r, Open cfg (dir s1) (NewPartitionFSM (content d2 path)) = (p1, Ok i) /\
    replay p1 i es = (p2, Ok r) /\ fsm_ok cfg p2 off (l ++ placed (end_off off l) bs) (last_index es) /\
    (i = idx /\ r = offsets_from (end_off off l) bs /\ (n < 3)%nat \/ i = last_index es /\ r = [] /\ (3 <= n)%nat).
Proof.
  intros Hcfg Hok Hs Hne He Hwf Hidx Hi Hend Hs1 Hc Hsy E Hcr.
  destruct (update_crash p off l idx s es bs s1 path d n d1 d2) as (p1 & i & E1 & [(-> & Hok1 & Hn)|(-> & Hok1 & Hn)]); try done.
  - destruct (update_ok unmarshal cfg p1 off l es bs Hcfg (fsm_ok_live _ _ _ _ _ Hok1)) as (p2 & EU & Hok2); try done.
    exists p1, idx, p2, (offsets_from (end_off off l) bs). rewrite replay_all by (done || (eapply Forall_impl; [exact Hidx|]; cbn; lia)).
    split_and!; try done. by left.
  - exists p1, (last_index es), p1, []. rewrite replay_none by (eapply Forall_impl; [exact Hidx|]; cbn; lia). split_and!; try done. by right.
Qed.

(** Why the host of the shards must never take a snapshot (it asks for one every 2^62 entries): a
    new replica that is given the snapshot of another one and then its next entries puts them at
    the beginning of its log, while the other one has them behind what it already holds. *)
Theorem snapshot_diverges p off l idx es bs :
  cfg_ok cfg -> fsm_ok cfg p off l idx -> es <> [] -> entries_of es bs -> Forall wf_batch bs -> in_u64 (last_index es) ->
  end_off off l + counts bs < 2 ^ 63 -> 0 <= end_off off l ->
  exists snapshot p0 p1 p' q, SaveSnapshot p = Ok snapshot /\
    Open cfg ∅ (NewPartitionFSM None) = (p0, Ok 0) /\ RecoverFromSnapshot p0 snapshot = (p1, Ok tt) /\
    Update unmarshal cfg p1 es = (p', Ok (offsets_from 0 bs)) /\ fsm_ok cfg p' 0 (placed 0 bs) (last_index es) /\
    Update unmarshal cfg p es = (q, Ok (offsets_from (end_off off l) bs)) /\
    fsm_ok cfg q off (l ++ placed (end_off off l) bs) (last_index es).
Proof.
  intros Hcfg Hok Hne He Hwf Hi Hend H0. destruct (open_fresh cfg Hcfg) as (p0 & E0 & H1).
  destruct (update_ok unmarshal cfg p0 0 [] es bs Hcfg H1) as (p' & E' & Hok'); try done; [cbn; lia|].
  destruct (update_ok unmarshal cfg p off l es bs Hcfg (fsm_ok_live _ _ _ _ _ Hok)) as (q & Eq & Hokq); try done.
  eexists _, p0, p0, p', q. split_and!; done.
Qed.

End replay.

(** Entry 8 is applied to the partition of Partition.v; the process dies while the temporary file
    is written, five bytes of it are on the disk. *)
Definition side0 : disk := {["applied.idx"%string := {| f_data := encodeSidecar 7 (LatestOffset st1); f_synced := true |}]}.

Lemma update_atomic_witness :
  exists p1 p2, Open cfg0 (dir (apply_entries no_json cfg0 st1 [e0 8]).1) (NewPartitionFSM (Some (encodeSidecar 7 (LatestOffset st1)))) = (p1, Ok 7) /\
    replay no_json cfg0 p1 7 [e0 8] = (p2, Ok [2]) /\ fsm_ok cfg0 p2 0 [b0_at 0; b0_at 2] 8.
Proof.
  set (s1 := (apply_entries no_json cfg0 st1 [e0 8]).1). set (data := encodeSidecar 8 (LatestOffset s1)).
  set (torn := <[tmp "applied.idx" := {| f_data := take 5 data; f_synced := true |}]> side0).
  destruct (update_atomic no_json cfg0 (p_at st1) 0 [b0_at 0] 7 st1 [e0 8] [b0] s1 "applied.idx" side0 1
    (<[tmp "applied.idx" := {| f_data := data; f_synced := false |}]> side0) torn cfg0_ok (p_at_ok _ _ (proj1 st1_ok)))
    as (p1 & i & p2 & r & E1 & E2 & H2 & Hi).
  - reflexivity.
  - discriminate.
  - repeat constructor.
  - exact (b0s_wf 1).
  - constructor; [vm_compute; split; congruence|constructor].
  - vm_compute. split; congruence.
  - vm_compute. reflexivity.
  - reflexivity.
  - reflexivity.
  - intros f Hf. unfold side0 in Hf. rewrite lookup_singleton_eq in Hf. by injection Hf as <-.
  - reflexivity.
  - intros path. unfold torn. destruct (decide (path = tmp "applied.idx")) as [->|Hne].
    + rewrite !lookup_insert_eq. cbn [f_synced f_data]. by exists 5%nat.
    + rewrite !lookup_insert_ne by done. unfold side0. destruct (decide (path = "applied.idx"%string)) as [->|Hne'].
      * by rewrite lookup_singleton_eq.
      * by rewrite lookup_singleton_ne.
  - destruct Hi as [(-> & -> & _)|(_ & _ & Hn)]; [|lia]. exists p1, p2. split; [exact E1|]. split; [exact E2|exact H2].
Defined.

End Sidecar.
