(* ===== verification/DataCoord.v ===== *)
(** * The data coordinator

    internal/coordinator/data/data.go: routing of produce and fetch requests to the partition
    shards of this node, as programs over the raft host (local reads of the metadata and
    partition state machines, proposals), the registry of shards, the cache of node addresses
    and the clock. Times are in nanoseconds. *)

From S2P Require Import Prelude SegName Keys Metadata Prog Segment Storage Partition.
Local Open Scope Z_scope.

Module DataCoord.
Import Keys.

Definition sPartitionNotFound : sentinel := Sentinel "data" "ErrPartitionNotFound".
Definition sUnavailable : sentinel := Sentinel "data" "ErrUnavailable".
Definition sOffsetNotFound : sentinel := Sentinel "data" "ErrOffsetNotFound".
Definition sOffsetOutOfRange : sentinel := Sentinel "data" "ErrOffsetOutOfRange".
Definition ErrPartitionNotFound : error := ErrSentinel sPartitionNotFound.
Definition ErrUnavailable : error := ErrSentinel sUnavailable.
Definition ErrOffsetNotFound : error := ErrSentinel sOffsetNotFound.

(** [AcksMode]. *)
Inductive AcksMode := AcksAll | AcksZero.

Record shardEntry := { se_ShardID : Z; se_Topic : string; se_PartitionID : Z }.
Record nodeAddrEntry := { ne_address : string; ne_fetchedAt : Z }.
Record DataCoordinatorConfig := { dcNodeID : Z; NodeAddressCacheTTLMs : Z }.

Abbreviation registry := (gmap PartitionKey shardEntry).
Abbreviation addr_cache := (gmap Z nodeAddrEntry).

(** What a [select] on the data channel, a timer and the context ended with. *)
Inductive wake := WakeData | WakeTimeout | WakeDone (e : error).

Inductive dataE : Type -> Type :=
| DLookupMetadata (q : Metadata.MetadataQuery) : dataE (outcome (option Metadata.answer))
    (** [None] is a nil result *)
| DLookupPartition (shard : Z) (q : Partition.PartitionQuery) : dataE (outcome Partition.lookup_reply)
| DSyncPropose (shard : Z) (cmd : Partition.PartitionCommand) : dataE (outcome Z)
| DPropose (shard : Z) (cmd : Partition.PartitionCommand) : dataE (outcome unit)
| DNow : dataE Z
| DSelect (ch remaining : Z) : dataE wake
| DRegistry : dataE registry
| DSetRegistry (f : registry -> registry) : dataE unit
| DCache : dataE addr_cache
| DSetCache (f : addr_cache -> addr_cache) : dataE unit.

Abbreviation dprog := (prog dataE).

Definition type_assertion : panic := PanicMsg "interface conversion".

Definition StartPartitionReplica (topic : string) (partitionID shardID : Z) : dprog unit :=
  trigger (DSetRegistry (fun r => <[PKey topic partitionID :=
    {| se_ShardID := shardID; se_Topic := topic; se_PartitionID := partitionID |}]> r)).

Definition StopPartitionReplica (topic : string) (partitionID shardID : Z) : dprog unit :=
  trigger (DSetRegistry (fun r => delete (PKey topic partitionID) r)).

Section calls.
Variable config : DataCoordinatorConfig.

(** The address of the first node of the list with this id; the empty string when there is none. *)
Fixpoint find_address (nodes : list Metadata.NodeInfo) (nodeID : Z) : string :=
  match nodes with
  | [] => ""
  | n :: nodes' => if Metadata.NodeID n =? nodeID then Metadata.Address n else find_address nodes' nodeID
  end.

(** The cached address, if it is still fresh. *)
Definition cached (c : addr_cache) (nodeID ttl now : Z) : option string :=
  match c !! nodeID with
  | Some e => if (ttl <=? 0) || (now - ne_fetchedAt e <? ttl) then Some (ne_address e) else None
  | None => None
  end.

Definition nodeAddress (nodeID : Z) : dprog string :=
  let ttl := NodeAddressCacheTTLMs config * 10 ^ 6 in
  c ← trigger DCache;
  now ← trigger DNow;
  match cached c nodeID ttl now with
  | Some a => Ret a
  | None =>
      r ← trigger (DLookupMetadata Metadata.QueryListNodes);
      match r with
      | Ok (Some (Metadata.ANodes nodes)) =>
          let address := find_address nodes nodeID in
          now ← trigger DNow;
          _ ← trigger (DSetCache (fun c => <[nodeID := {| ne_address := address; ne_fetchedAt := now |}]> c));
          Ret address
      | _ => Ret ""
      end
  end.

(** The leader test shared by [leaderCheck] and the long poll. *)
Definition check_leader {B} (pm : Metadata.PartitionMeta) (k : dprog (outcome B)) : dprog (outcome B) :=
  if negb (Metadata.LeaderNodeID pm =? dcNodeID config) then
    addr ← nodeAddress (Metadata.LeaderNodeID pm);
    Ret (Err (ErrNotLeader (Metadata.LeaderNodeID pm) addr))
  else k.

Definition leaderCheck (topic : string) (partitionID : Z) : dprog (outcome Z) :=
  r ← trigger (DLookupMetadata (Metadata.QueryGetPartition topic partitionID));
  match r with
  | Err _ => Ret (Err ErrUnavailable)
  | Ok None => Ret (Err ErrPartitionNotFound)
  | Ok (Some (Metadata.APartition pm)) =>
      check_leader pm (
        reg ← trigger DRegistry;
        match reg !! PKey topic partitionID with
        | None => Ret (Err ErrUnavailable)
        | Some e => Ret (Ok (se_ShardID e))
        end)
  | Ok (Some _) => Ret (Panic type_assertion)
  | Panic p => Ret (Panic p)
  | OutOfFuel => Ret OutOfFuel
  end.

Definition append_cmd (batch : list byte) : Partition.PartitionCommand :=
  {| Partition.Type_ := Partition.CmdAppendBatch; Partition.Payload := batch |}.

(** [Produce]; the offset that goes with an error is -1 and is left out. *)
Definition Produce (topic : string) (partitionID : Z) (batch : list byte) (acks : AcksMode) : dprog (outcome Z) :=
  call (leaderCheck topic partitionID) id (fun shardID =>
  match acks with
  | AcksAll => call (trigger (DSyncPropose shardID (append_cmd batch))) id (fun value => Ret (Ok (i64 value)))
  | AcksZero => call (trigger (DPropose shardID (append_cmd batch))) id (fun _ => Ret (Ok (-1)))
  end).

(** A read of a partition's log and its type assertion; the batches are empty where Go has nil. *)
Definition read_batches (shardID : Z) (q : Partition.PartitionQuery) {B}
    (k : Partition.PartitionLookupResult -> dprog (outcome B)) : dprog (outcome B) :=
  call (trigger (DLookupPartition shardID q)) id (fun r =>
    match r with Partition.RBatches b => k b | _ => Ret (Panic type_assertion) end).

(** The loop of [fetchWithLongPoll]; [fuel] bounds the number of wake-ups. *)
Fixpoint longPoll (fuel : nat) (deadline : Z) (topic : string) (partitionID shardID offset maxBytes : Z)
  : dprog (outcome (list byte * Z)) :=
  match fuel with
  | O => Ret OutOfFuel
  | S fuel' =>
      now ← trigger DNow;
      let remaining := deadline - now in
      if remaining <=? 0 then Ret (Ok ([], 0)) else
      call (trigger (DLookupPartition shardID Partition.QueryGetNewDataCh)) id (fun chResult =>
      match chResult with
      | Partition.RChannel ch =>
          m ← trigger (DLookupMetadata (Metadata.QueryGetPartition topic partitionID));
          match m with
          | Ok (Some (Metadata.APartition pm)) =>
              check_leader pm (
                read_batches shardID (Partition.QueryRead offset maxBytes) (fun r =>
                if 0 <? len (Partition.Batches r) then Ret (Ok (Partition.Batches r, Partition.NextOffset r)) else
                w ← trigger (DSelect ch remaining);
                match w with
                | WakeData => longPoll fuel' deadline topic partitionID shardID offset maxBytes
                | WakeTimeout => Ret (Ok ([], 0))
                | WakeDone e => Ret (Err e)
                end))
          | Ok (Some _) => Ret (Panic type_assertion)
          | Ok None | Err _ => Ret (Err ErrUnavailable)
          | Panic p => Ret (Panic p)
          | OutOfFuel => Ret OutOfFuel
          end
      | _ => Ret (Panic type_assertion)
      end)
  end.

Definition fetchWithLongPoll (fuel : nat) (topic : string) (partitionID shardID offset maxBytes maxWaitMs : Z)
  : dprog (outcome (list byte * Z)) :=
  now ← trigger DNow;
  longPoll fuel (now + maxWaitMs * 10 ^ 6) topic partitionID shardID offset maxBytes.

Definition Fetch (fuel : nat) (topic : string) (partitionID offset maxBytes maxWaitMs : Z)
  : dprog (outcome (list byte * Z)) :=
  call (leaderCheck topic partitionID) id (fun shardID =>
  if maxWaitMs =? 0 then
    read_batches shardID (Partition.QueryRead offset maxBytes) (fun r =>
      Ret (Ok (Partition.Batches r, Partition.NextOffset r)))
  else fetchWithLongPoll fuel topic partitionID shardID offset maxBytes maxWaitMs).

Definition read_offset (shardID : Z) (q : Partition.PartitionQuery) : dprog (outcome Z) :=
  call (trigger (DLookupPartition shardID q)) id (fun r =>
    match r with Partition.ROffset o => Ret (Ok o) | _ => Ret (Panic type_assertion) end).

Definition GetEarliestOffset (topic : string) (partitionID : Z) : dprog (outcome Z) :=
  call (leaderCheck topic partitionID) id (fun shardID => read_offset shardID Partition.QueryEarliestOffset).

Definition GetLatestOffset (topic : string) (partitionID : Z) : dprog (outcome Z) :=
  call (leaderCheck topic partitionID) id (fun shardID => read_offset shardID Partition.QueryLatestOffset).

Definition GetOffsetByTimestamp (topic : string) (partitionID timestampMs : Z) : dprog (outcome Z) :=
  call (leaderCheck topic partitionID) id (fun shardID =>
  call (trigger (DLookupPartition shardID (Partition.QueryReadByTime timestampMs 512)))
    (fun e => if errors_is e Seg.sErrTimestampNotFound then ErrOffsetNotFound else e) (fun r =>
  match r with
  | Partition.RBatches b =>
      if len (Partition.Batches b) <? 8 then Ret (Err ErrOffsetNotFound)
      else match getUint64 (Partition.Batches b) 0 with
           | Ok v => Ret (Ok (i64 v))
           | m => Ret (Seg.failure m)
           end
  | _ => Ret (Panic type_assertion)
  end)).

(** [PartitionOffsets]: the offsets that go with an error are -1 and left out. *)
Definition PartitionOffsets (shardID : Z) : dprog (outcome (Z * Z)) :=
  call (read_offset shardID Partition.QueryEarliestOffset) id (fun earliest =>
  call (read_offset shardID Partition.QueryLatestOffset) id (fun latest => Ret (Ok (earliest, latest)))).

End calls.

End DataCoord.
