(* ===== verification/ClusterCoord.v ===== *)
(** * The cluster coordinator

    internal/coordinator/cluster/cluster.go: topic administration, the placement of replicas, the
    reconciliation of the shards a node runs with the metadata, and the sweep that records
    partition leaders, as programs over the raft host, the data coordinator's shard registry, the
    file system, the clock and the two locked tables. A [go] statement is a request that hands a
    [task] to the scheduler. *)

From Stdlib Require Import Ascii.
From S2P Require Import Prelude Hash SegName Keys Metadata Prog Partition DataCoord.
Local Open Scope Z_scope.

Module ClusterCoord.
Import Metadata.

Definition sInvalidArgument : sentinel := Sentinel "cluster" "ErrInvalidArgument".
Definition sTopicAlreadyExists : sentinel := Sentinel "cluster" "ErrTopicAlreadyExists".
Definition sTopicNotFound : sentinel := Sentinel "cluster" "ErrTopicNotFound".
Definition ErrInvalidArgument : error := ErrSentinel sInvalidArgument.
Definition ErrTopicAlreadyExists : error := ErrSentinel sTopicAlreadyExists.
Definition ErrTopicNotFound : error := ErrSentinel sTopicNotFound.

Record CoordinatorConfig := {
  ccNodeID : Z;
  RaftAddress : string;
  DataAddr : string;
  AdvertiseDataAddr : string;
  DataDir : string;
  Peers : gmap Z string;
  BootstrapTimeoutMs : Z;
  ReconcileIntervalMs : Z;
  LeaderCheckIntervalMs : Z;
  EagerReconcileOnCreate : bool
}.

Record shardInfo := { si_Topic : string; si_PartitionID : Z; si_ShardID : Z; si_Peers : gmap Z string }.

#[export] Instance shardInfo_eq_dec : EqDecision shardInfo.
Proof. solve_decision. Defined.

Record leaderRecord := { lr_nodeID : Z; lr_term : Z }.

#[export] Instance leaderRecord_eq_dec : EqDecision leaderRecord.
Proof. solve_decision. Defined.

Record TopicConfigOverrides := { ov_RetentionMs : option Z; ov_RetentionBytes : option Z }.

Record TopicInfo := {
  ti_Name : string;
  ti_PartitionCount : Z;
  ti_ReplicationFactor : Z;
  ti_RetentionMs : Z;
  ti_RetentionBytes : Z;
  ti_CreatedAtMs : Z
}.

Record PartitionInfo := {
  pi_PartitionID : Z;
  pi_ShardID : Z;
  pi_LeaderNodeID : Z;
  pi_LeaderEpoch : Z;
  pi_ReplicaNodeIDs : list Z
}.

Record TopicDescription := { td_TopicInfo : TopicInfo; td_Partitions : list PartitionInfo }.

Record NodeDescriptor := { nd_NodeID : Z; nd_Address : string }.

(** ** Requests *)

Abbreviation running_shards := (gmap Z shardInfo).
Abbreviation known_leaders := (gmap Z leaderRecord).

(** The bodies of the coordinator's goroutines. *)
Inductive task :=
| GoStartShard (shard : Z) (info : shardInfo)
| GoStopShard (shard : Z) (info : shardInfo)
| GoProposePartition (shard : Z) (cmd : Partition.PartitionCommand)
| GoReconcileLoop
| GoLeaderSweepLoop.

#[export] Instance command_eq_dec : EqDecision Partition.PartitionCommand.
Proof. solve_decision. Defined.
#[export] Instance task_eq_dec : EqDecision task.
Proof. solve_decision. Defined.

Inductive clusterE : Type -> Type :=
| CLookup (q : MetadataQuery) : clusterE (outcome answer)
| CPropose (cmd : MetadataCommand) : clusterE (outcome Result)
| CProposePartition (shard : Z) (cmd : Partition.PartitionCommand) : clusterE (outcome unit)
| CStartMetadataShard (members : gmap Z string) (join : bool) : clusterE (outcome unit)
| CStartPartitionShard (shard : Z) (members : gmap Z string) (join : bool) (topic : string) (id : Z)
    : clusterE (outcome unit)
| CStopPartitionShard (shard : Z) : clusterE (outcome unit)
| CGetLeaderID (shard : Z) : clusterE (outcome (Z * Z * bool))
| CData {X} (e : DataCoord.dataE X) : clusterE X
    (** a request of the data coordinator, whose methods run in the caller *)
| CRemoveAll (dir : string) : clusterE (outcome unit)
| CNow : clusterE Z   (** milliseconds *)
| CWait (ms : Z) : clusterE (option error)
    (** [time.After] against [ctx.Done]: the context's error when that ends first *)
| CTick (ms : Z) : clusterE bool   (** a tick of the ticker; [false] when the context is done *)
| COrder (keys : list Z) : clusterE (list Z)   (** the order of a map iteration *)
| CRunning : clusterE running_shards
| CSetRunning (f : running_shards -> running_shards) : clusterE unit
| CGoLocked (f : running_shards -> list task) : clusterE unit
    (** goroutines started while [shardMu] is held; none of them gets the lock before its end *)
| CGo (t : task) : clusterE unit
| CLeaders : clusterE known_leaders
| CSetLeaders (f : known_leaders -> known_leaders) : clusterE unit.

Abbreviation cprog := (prog clusterE).

Definition type_assertion : panic := PanicMsg "interface conversion".

(** A call into the data coordinator. *)
Fixpoint in_data {A} (p : prog DataCoord.dataE A) : cprog A :=
  match p with
  | Ret a => Ret a
  | Vis e k => Vis (CData e) (fun x => in_data (k x))
  end.

(** What the cluster coordinator uses of the data coordinator. *)
Class DataCoordinatorIface := {
  dc_StartPartitionReplica : string -> Z -> Z -> prog DataCoord.dataE unit;
  dc_StopPartitionReplica : string -> Z -> Z -> prog DataCoord.dataE unit
}.

#[export] Instance DataCoordinator : DataCoordinatorIface := {
  dc_StartPartitionReplica := DataCoord.StartPartitionReplica;
  dc_StopPartitionReplica := DataCoord.StopPartitionReplica
}.

(** ** Names and paths *)

(** The class [[a-zA-Z0-9._-]]. *)
Definition topic_char (a : ascii) : bool :=
  let n := Z.of_nat (nat_of_ascii a) in
  ((97 <=? n) && (n <=? 122)) || ((65 <=? n) && (n <=? 90)) || ((48 <=? n) && (n <=? 57)) ||
  (n =? 46) || (n =? 95) || (n =? 45).

(** [topicNameRe]: one to 255 characters of the class. *)
Definition topicNameRe (name : string) : bool :=
  (1 <=? Z.of_nat (String.length name)) && (Z.of_nat (String.length name) <=? 255) &&
  forallb topic_char (String.list_ascii_of_string name).

(** The elements of a path between slashes. *)
Fixpoint path_split (l : list ascii) : list (list ascii) :=
  match l with
  | [] => [[]]
  | a :: l' =>
      match path_split l' with
      | c :: cs => if bool_decide (a = "/"%char) then [] :: c :: cs else (a :: c) :: cs
      | [] => [[a]]
      end
  end.

(** [filepath.Clean]'s stack, last element first: empty elements and dots are dropped, two dots
    take an element away, and are dropped at the root. *)
Definition path_push (rooted : bool) (stack : list string) (c : list ascii) : list string :=
  let s := String.string_of_list_ascii c in
  if String.eqb s "" || String.eqb s "." then stack
  else if String.eqb s ".." then
    match stack with
    | [] => if rooted then [] else [s]
    | top :: rest => if String.eqb top ".." then s :: stack else rest
    end
  else s :: stack.

Definition Clean (path : string) : string :=
  let l := String.list_ascii_of_string path in
  let rooted := match l with a :: _ => bool_decide (a = "/"%char) | [] => false end in
  let elements := rev (fold_left (path_push rooted) (path_split l) []) in
  let joined := String.concat "/" elements in
  if rooted then String.append "/" joined else if String.eqb joined "" then "." else joined.

(** [filepath.Join]: the elements from the first that is not empty, joined and cleaned. *)
Fixpoint Join (elems : list string) : string :=
  match elems with
  | [] => ""
  | e :: elems' => if String.eqb e "" then Join elems' else Clean (String.concat "/" elems)
  end.

Definition partitionDir (dataDir topic : string) (partitionID : Z) : string :=
  Join [dataDir; "partitions"; topic; fmt_d partitionID].

(** ** Replica placement *)

Definition fnv32a (s : string) : Z :=
  Fnv.Sum32a (map (fun a => byte.of_Z (Z.of_nat (nat_of_ascii a))) (String.list_ascii_of_string s)).

(** [n] replicas from index [r]. *)
Fixpoint replica_loop (n : nat) (r start partitionID : Z) (sorted : list NodeInfo) : outcome (list Z) :=
  match n with
  | O => Ok []
  | S n' =>
      node ← index sorted (Z.rem (start + partitionID + r) (len sorted));
      rest ← replica_loop n' (r + 1) start partitionID sorted;
      Ok (NodeID node :: rest)
  end.

Definition assignReplicas (nodes : list NodeInfo) (topicName : string) (partitionID rf : Z) : outcome (list Z) :=
  let sorted := merge_sort node_le nodes in
  if len sorted =? 0 then Panic PanicDivide else
  let start := Z.rem (fnv32a topicName) (len sorted) in
  if rf <? 0 then Panic PanicMakeSlice else
  replica_loop (Z.to_nat rf) 0 start partitionID sorted.

(** The assignments of [n] partitions from [p] on. *)
Fixpoint assignments (n : nat) (p : Z) (nodes : list NodeInfo) (topicName : string) (rf : Z)
  : outcome (list (list Z)) :=
  match n with
  | O => Ok []
  | S n' =>
      a ← assignReplicas nodes topicName p rf;
      rest ← assignments n' (p + 1) nodes topicName rf;
      Ok (a :: rest)
  end.

Definition buildPeerMap (replicaIDs : list Z) (raftPeers : gmap Z string) : gmap Z string :=
  fold_left (fun peers id => match raftPeers !! id with Some addr => <[id := addr]> peers | None => peers end)
    replicaIDs ∅.

Definition topicInfoFromMeta (m : TopicMeta) : TopicInfo :=
  {| ti_Name := Name m; ti_PartitionCount := PartitionCount m; ti_ReplicationFactor := ReplicationFactor m;
     ti_RetentionMs := RetentionMs m; ti_RetentionBytes := RetentionBytes m; ti_CreatedAtMs := CreatedAtMs m |}.

Definition partitionInfo (pm : PartitionMeta) : PartitionInfo :=
  {| pi_PartitionID := pPartitionID pm; pi_ShardID := ShardID pm; pi_LeaderNodeID := LeaderNodeID pm;
     pi_LeaderEpoch := LeaderEpoch pm; pi_ReplicaNodeIDs := ReplicaNodeIDs pm |}.

(** The JSON of a [RetentionConfigPayload]. *)
Definition quoted (s : string) : string := String (ascii_of_nat 34) (String.append s (String (ascii_of_nat 34) EmptyString)).
Definition retention_json (retentionMs retentionBytes : Z) : string :=
  String.concat "" ["{"; quoted "retention_ms"; ":"; fmt_d retentionMs; ",";
                    quoted "retention_bytes"; ":"; fmt_d retentionBytes; "}"].
Definition retention_payload (retentionMs retentionBytes : Z) : list byte :=
  map (fun a => byte.of_Z (Z.of_nat (nat_of_ascii a)))
    (String.list_ascii_of_string (retention_json retentionMs retentionBytes)).

(** ** Topic administration *)

(** A topic that is missing is [ErrTopicNotFound]. *)
Definition topic_error (e : error) : error :=
  if errors_is e sErrNotFound then ErrTopicNotFound else ErrWrap "lookup topic" e.

Section calls.
Context `{DataCoordinatorIface}.
Variable config : CoordinatorConfig.

(** ** Reconciliation *)

(** The partitions of one topic that this node hosts. *)
Definition add_hosted (pms : list PartitionMeta) (expected : running_shards) : running_shards :=
  fold_left (fun exp pm =>
    if bool_decide (ccNodeID config ∈ ReplicaNodeIDs pm) then
      <[ShardID pm := {| si_Topic := pTopic pm; si_PartitionID := pPartitionID pm; si_ShardID := ShardID pm;
                         si_Peers := buildPeerMap (ReplicaNodeIDs pm) (Peers config) |}]> exp
    else exp) pms expected.

Fixpoint expected_shards (topics : list TopicMeta) (expected : running_shards) : cprog (outcome running_shards) :=
  match topics with
  | [] => Ret (Ok expected)
  | tm :: topics' =>
      r ← trigger (CLookup (QueryGetPartitions (Name tm)));
      match r with
      | Ok (APartitions pms) => expected_shards topics' (add_hosted pms expected)
      | Ok _ => Ret (Panic type_assertion)
      | Err _ => expected_shards topics' expected
      | Panic p => Ret (Panic p)
      | OutOfFuel => Ret OutOfFuel
      end
  end.

(** What to start and what to stop, given the running shards. *)
Definition reconcile_tasks (expected running : running_shards) : list task :=
  map (fun p => GoStartShard p.1 p.2)
    (filter (fun p => running !! p.1 = None) (map_to_list expected)) ++
  map (fun p => GoStopShard p.1 p.2)
    (filter (fun p => expected !! p.1 = None) (map_to_list running)).

Definition reconcileOnce : cprog (outcome unit) :=
  r ← trigger (CLookup QueryListTopics);
  match r with
  | Err _ => Ret (Ok tt)
  | Ok (ATopics topics) =>
      call (expected_shards topics ∅) id (fun expected =>
      _ ← trigger (CGoLocked (reconcile_tasks expected)); Ret (Ok tt))
  | Ok _ => Ret (Panic type_assertion)
  | Panic p => Ret (Panic p)
  | OutOfFuel => Ret OutOfFuel
  end.

Definition startShard (shardID : Z) (info : shardInfo) : cprog unit :=
  r ← trigger (CStartPartitionShard shardID (si_Peers info) false (si_Topic info) (si_PartitionID info));
  match r with
  | Ok _ =>
      _ ← in_data (dc_StartPartitionReplica (si_Topic info) (si_PartitionID info) shardID);
      trigger (CSetRunning (fun m => <[shardID := info]> m))
  | _ => Ret tt
  end.

Definition stopShard (shardID : Z) (info : shardInfo) : cprog unit :=
  _ ← in_data (dc_StopPartitionReplica (si_Topic info) (si_PartitionID info) shardID);
  _ ← trigger (CStopPartitionShard shardID);
  _ ← trigger (CSetRunning (fun m => delete shardID m));
  _ ← trigger (CRemoveAll (partitionDir (DataDir config) (si_Topic info) (si_PartitionID info)));
  Ret tt.

(** The ticker loops; [fuel] bounds the number of ticks. [time.NewTicker] panics on an interval
    that is not positive. *)
Fixpoint ticks (fuel : nat) (ms : Z) (body : cprog (outcome unit)) : cprog (outcome unit) :=
  match fuel with
  | O => Ret OutOfFuel
  | S fuel' =>
      t ← trigger (CTick ms);
      match t with
      | true => call body id (fun _ => ticks fuel' ms body)
      | false => Ret (Ok tt)
      end
  end.

Definition ticker (fuel : nat) (ms : Z) (body : cprog (outcome unit)) : cprog (outcome unit) :=
  if ms <=? 0 then Ret (Panic (PanicMsg "non-positive interval for NewTicker")) else ticks fuel ms body.

Definition reconcileLoop (fuel : nat) : cprog (outcome unit) :=
  ticker fuel (ReconcileIntervalMs config) reconcileOnce.

(** ** Leaders *)

Definition zeroRecord : leaderRecord := {| lr_nodeID := 0; lr_term := 0 |}.

Definition sweep_shard (shardID : Z) (info : shardInfo) : cprog unit :=
  r ← trigger (CGetLeaderID shardID);
  match r with
  | Ok (leaderID, term, true) =>
      known ← trigger CLeaders;
      let last := default zeroRecord (known !! shardID) in
      if (leaderID =? lr_nodeID last) && (term =? lr_term last) then Ret tt else
      p ← trigger (CPropose (CmdAssignPartitionLeader (Some
             {| al_Topic := si_Topic info; al_PartitionID := si_PartitionID info; al_LeaderNodeID := leaderID;
                al_LeaderEpoch := i64 term |})));
      match p with
      | Ok _ => trigger (CSetLeaders (fun m => <[shardID := {| lr_nodeID := leaderID; lr_term := term |}]> m))
      | _ => Ret tt
      end
  | _ => Ret tt
  end.

Fixpoint sweep_shards (shards : running_shards) (ids : list Z) : cprog unit :=
  match ids with
  | [] => Ret tt
  | id :: ids' =>
      match shards !! id with
      | Some info => _ ← sweep_shard id info; sweep_shards shards ids'
      | None => sweep_shards shards ids'
      end
  end.

Definition sweepLeaders : cprog (outcome unit) :=
  shards ← trigger CRunning;
  ids ← trigger (COrder (map_to_list shards).*1);
  _ ← sweep_shards shards ids;
  Ret (Ok tt).

Definition leaderSweepLoop (fuel : nat) : cprog (outcome unit) :=
  ticker fuel (LeaderCheckIntervalMs config) sweepLeaders.

(** ** Topics *)

Definition CreateTopic (name : string) (partitionCount replicationFactor : Z) (configOverrides : TopicConfigOverrides)
  : cprog (outcome TopicInfo) :=
  if negb (topicNameRe name) then Ret (Err (ErrWrap "topic name is invalid" ErrInvalidArgument)) else
  if partitionCount <? 1 then Ret (Err (ErrWrap "partitionCount must be >= 1" ErrInvalidArgument)) else
  if replicationFactor <? 1 then Ret (Err (ErrWrap "replicationFactor must be >= 1" ErrInvalidArgument)) else
  call (trigger (CLookup QueryListNodes)) (ErrWrap "lookup nodes") (fun a =>
  match a with
  | ANodes nodes =>
      if len nodes <? replicationFactor then
        Ret (Err (ErrWrap "replicationFactor exceeds cluster size" ErrInvalidArgument)) else
      call (Ret (assignments (Z.to_nat partitionCount) 0 nodes name replicationFactor)) id (fun replicaNodeIDs =>
      let retentionMs := default 0 (ov_RetentionMs configOverrides) in
      let retentionBytes := default (-1) (ov_RetentionBytes configOverrides) in
      now ← trigger CNow;
      call (trigger (CPropose (CmdCreateTopic (Some
              {| ct_Name := name; ct_PartitionCount := partitionCount; ct_ReplicationFactor := replicationFactor;
                 ct_RetentionMs := retentionMs; ct_RetentionBytes := retentionBytes; ct_CreatedAtMs := now;
                 ct_ReplicaNodeIDs := replicaNodeIDs |})))) (ErrWrap "propose create topic") (fun result =>
      if negb (Value result =? ResultOK) then
        if Value result =? ResultErrAlreadyExists then Ret (Err ErrTopicAlreadyExists)
        else Ret (Err (ErrNew "create topic FSM error"))
      else
        let info := {| ti_Name := name; ti_PartitionCount := partitionCount;
                       ti_ReplicationFactor := replicationFactor; ti_RetentionMs := retentionMs;
                       ti_RetentionBytes := retentionBytes; ti_CreatedAtMs := now |} in
        if EagerReconcileOnCreate config then call reconcileOnce id (fun _ => Ret (Ok info))
        else Ret (Ok info)))
  | _ => Ret (Panic type_assertion)
  end).

Definition DeleteTopic (name : string) : cprog (outcome unit) :=
  call (trigger (CLookup (QueryGetTopic name))) topic_error (fun _ =>
  call (trigger (CPropose (CmdDeleteTopic (Some name)))) id (fun _ => Ret (Ok tt))).

Definition ListTopics : cprog (outcome (list TopicInfo)) :=
  call (trigger (CLookup QueryListTopics)) id (fun a =>
  match a with
  | ATopics metas => Ret (Ok (map topicInfoFromMeta metas))
  | _ => Ret (Panic type_assertion)
  end).

Definition DescribeTopic (name : string) : cprog (outcome TopicDescription) :=
  call (trigger (CLookup (QueryGetTopic name))) topic_error (fun a =>
  match a with
  | ATopic tm =>
      call (trigger (CLookup (QueryGetPartitions name))) (ErrWrap "lookup partitions") (fun a =>
      match a with
      | APartitions pms =>
          Ret (Ok {| td_TopicInfo := topicInfoFromMeta tm; td_Partitions := map partitionInfo pms |})
      | _ => Ret (Panic type_assertion)
      end)
  | _ => Ret (Panic type_assertion)
  end).

Definition AlterTopicPartitionCount (name : string) (newCount : Z) : cprog (outcome unit) :=
  call (trigger (CLookup (QueryGetTopic name))) topic_error (fun a =>
  match a with
  | ATopic tm =>
      if newCount <=? PartitionCount tm then
        Ret (Err (ErrWrap "newCount must be greater than current" ErrInvalidArgument)) else
      call (trigger (CLookup QueryListNodes)) (ErrWrap "lookup nodes") (fun a =>
      match a with
      | ANodes nodes =>
          let addCount := i32 (newCount - PartitionCount tm) in
          if addCount <? 0 then Ret (Panic PanicMakeSlice) else
          call (Ret (assignments (Z.to_nat addCount) (PartitionCount tm) nodes name (ReplicationFactor tm))) id
            (fun newAssignments =>
          call (trigger (CPropose (CmdAlterTopicPartCount (Some
            {| at_Name := name; at_NewPartitionCount := newCount; at_NewReplicaAssignments := newAssignments |}))))
            id (fun _ => Ret (Ok tt)))
      | _ => Ret (Panic type_assertion)
      end)
  | _ => Ret (Panic type_assertion)
  end).

(** The goroutines that send the retention to the partition shards. *)
Fixpoint propagate (payload : list byte) (pms : list PartitionMeta) : cprog unit :=
  match pms with
  | [] => Ret tt
  | pm :: pms' =>
      _ ← trigger (CGo (GoProposePartition (ShardID pm)
            {| Partition.Type_ := Partition.CmdRetentionConfig; Partition.Payload := payload |}));
      propagate payload pms'
  end.

Definition AlterTopicRetention (name : string) (retentionMs retentionBytes : Z) : cprog (outcome unit) :=
  call (trigger (CLookup (QueryGetTopic name))) topic_error (fun _ =>
  call (trigger (CPropose (CmdAlterTopicRetention (Some
    {| ar_Name := name; ar_RetentionMs := retentionMs; ar_RetentionBytes := retentionBytes |})))) id (fun _ =>
  r ← trigger (CLookup (QueryGetPartitions name));
  match r with
  | Err _ => Ret (Ok tt)
  | Ok (APartitions pms) =>
      _ ← propagate (retention_payload retentionMs retentionBytes) pms; Ret (Ok tt)
  | Ok _ => Ret (Panic type_assertion)
  | Panic p => Ret (Panic p)
  | OutOfFuel => Ret OutOfFuel
  end)).

Definition DescribeCluster : cprog (outcome (list NodeDescriptor)) :=
  call (trigger (CLookup QueryListNodes)) id (fun a =>
  match a with
  | ANodes nodes => Ret (Ok (map (fun n => {| nd_NodeID := NodeID n; nd_Address := Address n |}) nodes))
  | _ => Ret (Panic type_assertion)
  end).

(** ** Bootstrap *)

(** Retry [attempt] every 200 ms until it succeeds, the deadline passes or the context ends;
    [fuel] bounds the number of attempts. *)
Fixpoint retry {B} (fuel : nat) (attempt : cprog (outcome B)) (deadline : Z) (timed_out : error -> error)
  : cprog (outcome unit) :=
  match fuel with
  | O => Ret OutOfFuel
  | S fuel' =>
      r ← attempt;
      match r with
      | Ok _ => Ret (Ok tt)
      | Err e =>
          now ← trigger CNow;
          if deadline <? now then Ret (Err (timed_out e)) else
          w ← trigger (CWait 200);
          match w with
          | Some e => Ret (Err e)
          | None => retry fuel' attempt deadline timed_out
          end
      | Panic p => Ret (Panic p)
      | OutOfFuel => Ret OutOfFuel
      end
  end.

(** The address registered for clients: the advertised one, else the data one, else raft's. *)
Definition regAddr : string :=
  let a := AdvertiseDataAddr config in
  let a := if String.eqb a "" then DataAddr config else a in
  if String.eqb a "" then RaftAddress config else a.

Definition Bootstrap (fuel : nat) : cprog (outcome unit) :=
  call (trigger (CStartMetadataShard (Peers config) false)) (ErrWrap "start metadata shard") (fun _ =>
  now ← trigger CNow;
  let deadline := now + BootstrapTimeoutMs config in
  call (retry fuel (trigger (CLookup QueryListNodes)) deadline
    (fun _ => ErrNew "bootstrap: timed out waiting for metadata shard leader")) id (fun _ =>
  call (retry fuel (trigger (CPropose (CmdRegisterNode (Some
    {| NodeID := ccNodeID config; Address := regAddr |})))) deadline (ErrWrap "register node")) id (fun _ =>
  call reconcileOnce id (fun _ =>
  _ ← trigger (CGo GoReconcileLoop);
  _ ← trigger (CGo GoLeaderSweepLoop);
  Ret (Ok tt))))).

(** The body of a goroutine; the failed proposal of a retention is logged only. *)
Definition task_body (fuel : nat) (t : task) : cprog (outcome unit) :=
  match t with
  | GoStartShard shard info => _ ← startShard shard info; Ret (Ok tt)
  | GoStopShard shard info => _ ← stopShard shard info; Ret (Ok tt)
  | GoProposePartition shard cmd => _ ← trigger (CProposePartition shard cmd); Ret (Ok tt)
  | GoReconcileLoop => reconcileLoop fuel
  | GoLeaderSweepLoop => leaderSweepLoop fuel
  end.

End calls.

End ClusterCoord.
