(* ===== verification/Bootstrap.v ===== *)
(** * The bootstrap ends

    [Bootstrap] of internal/coordinator/cluster/cluster.go retries twice until a deadline, with a
    pause of 200 ms. With a clock that does not go back and pauses that are as long as they say, it
    returns, whatever the cluster answers: the bound on its attempts is never reached. *)

From S2P Require Import Prelude Metadata Prog DataCoord ClusterCoord.
Local Open Scope Z_scope.

Module Bootstrap.
Import Metadata ClusterCoord.

(** A call of the library returns or panics. *)
Definition returns {A} (r : outcome A) : Prop := match r with OutOfFuel => False | _ => True end.

(** What a request can be answered at the time [now], and when: the time is in milliseconds. *)
Definition answer_at X (e : clusterE X) (now : Z) (x : X) (now' : Z) : Prop :=
  now <= now' /\
  match e in clusterE X return X -> Prop with
  | CNow => fun x => now <= x <= now'
  | CWait ms => fun x => x = None -> now + ms <= now'
  | CLookup _ => returns
  | CPropose _ => returns
  | CStartMetadataShard _ _ => returns
  | _ => fun _ => True
  end x.

Abbreviation ends p := (wp answer_at (fun _ _ => False) p (fun r _ => returns r)).
Abbreviation later p := (fun now => wp answer_at (fun _ _ => False) p (fun r now' => returns r /\ now <= now') now).

Lemma no_steps (w w' : Z) : rtc (fun _ _ : Z => False) w w' -> w' = w.
Proof. by intros []. Qed.

Lemma retry_ends {B} fuel (attempt : clusterE (outcome B)) deadline timed_out now :
  (forall now x now', answer_at _ attempt now x now' -> returns x) ->
  deadline < now + 200 * (Z.of_nat fuel - 1) -> (0 < fuel)%nat -> later (retry fuel (trigger attempt) deadline timed_out) now.
Proof.
  intros Ha. revert now. induction fuel as [|fuel IH]; intros now Hd Hf; [lia|]. cbn [retry]. apply wp_bind.
  intros w1 r w2 ->%no_steps Hr w3 ->%no_steps. pose proof (Ha _ _ _ Hr) as Hret. destruct Hr as [Hle _].
  destruct r as [b|e|q|]; [by intros ? ->%no_steps| |by intros ? ->%no_steps|done].
  apply wp_bind. intros w4 t w5 ->%no_steps [H5 Ht] w6 ->%no_steps. cbn in Ht.
  destruct (Z.ltb_spec deadline t) as [Hlt|Hge]; [intros w7 ->%no_steps; split; [done|lia]|].
  apply wp_bind. intros w7 u w8 ->%no_steps [H8 Hu] w9 ->%no_steps. cbn in Hu.
  destruct u as [e'|]; [intros w10 ->%no_steps; split; [done|lia]|]. specialize (Hu eq_refl).
  destruct fuel as [|fuel]; [lia|]. eapply wp_mono; [|apply IH; lia]. cbn. intros r w' [? ?]. split; [done|lia].
Qed.

Section bootstrap.
Variable config : CoordinatorConfig.

Lemma expected_ends topics expected now : ends (expected_shards config topics expected) now.
Proof.
  revert expected now. induction topics as [|tm topics IH]; intros expected now; cbn [expected_shards]; [by intros ? ->%no_steps|].
  apply wp_bind. intros w1 r w2 ->%no_steps [_ Hr] w3 ->%no_steps. cbn in Hr. destruct r as [[]|e|q|]; try done; try (by intros ? ->%no_steps); apply IH.
Qed.

Lemma reconcile_ends now : ends (reconcileOnce config) now.
Proof.
  unfold reconcileOnce. apply wp_bind. intros w1 r w2 ->%no_steps [_ Hr] w3 ->%no_steps. cbn in Hr.
  destruct r as [[]|e|q|]; try done; try (by intros ? ->%no_steps). apply wp_call. eapply wp_mono; [|apply expected_ends].
  intros [ex|e|q|] w' Hex; try done; try (by intros ? ->%no_steps).
Qed.

(** C18: [Bootstrap] returns. Whatever the library and the cluster answer, however often the cluster has
    no leader and whenever the context ends: with a clock that does not go back and pauses of
    at least 200 ms, as many attempts as pauses fit in the timeout, and two more, are enough. *)
Theorem bootstrap_ends fuel now now' r :
  BootstrapTimeoutMs config < 200 * (Z.of_nat fuel - 1) -> (0 < fuel)%nat ->
  exec answer_at (fun _ _ => False) (Bootstrap config fuel) now now' r -> r <> OutOfFuel.
Proof.
  intros Hd Hf He. assert (ends (Bootstrap config fuel) now) as Hw; [|pose proof (wp_exec _ _ _ _ _ _ _ Hw He) as H; by destruct r].
  unfold Bootstrap. apply wp_call. intros w1 x w2 ->%no_steps [_ Hx] w3 ->%no_steps. cbn in Hx.
  destruct x as [u|e|q|]; try done; try (by intros ? ->%no_steps).
  apply wp_bind. intros w4 t w5 ->%no_steps [_ Ht] w6 ->%no_steps. cbn in Ht.
  apply wp_call. eapply wp_mono; [|apply retry_ends; [by intros ? ? ? [_ ?]|lia|done]]. cbn beta.
  intros [u1|e|q|] w7 [Hr7 H7]; try done; try (by intros ? ->%no_steps).
  apply wp_call. eapply wp_mono; [|apply retry_ends; [by intros ? ? ? [_ ?]|lia|done]]. cbn beta.
  intros [u2|e|q|] w8 [Hr8 H8]; try done; try (by intros ? ->%no_steps).
  apply wp_call. eapply wp_mono; [|apply reconcile_ends]. intros [u3|e|q|] w9 H9; try done; try (by intros ? ->%no_steps).
Qed.

End bootstrap.

(** ** Witness: a cluster that never has a leader. *)

(** Replies to the requests of the data coordinator, which the bootstrap does not make. *)
Definition data_up X (e : DataCoord.dataE X) : X :=
  match e in DataCoord.dataE X return X with
  | DataCoord.DLookupMetadata q => Ok None
  | DataCoord.DLookupPartition _ _ => Err (ErrNew "no shard")
  | DataCoord.DSyncPropose _ _ => Ok 0
  | DataCoord.DPropose _ _ => Ok tt
  | DataCoord.DNow => 0
  | DataCoord.DSelect _ _ => DataCoord.WakeTimeout
  | DataCoord.DRegistry => ∅
  | DataCoord.DSetRegistry _ => tt
  | DataCoord.DCache => ∅
  | DataCoord.DSetCache _ => tt
  end.

Definition leaderless X (e : clusterE X) (now : Z) : X * Z :=
  match e in clusterE X return X * Z with
  | CLookup _ => (Err (ErrNew "no leader"), now)
  | CPropose _ => (Err (ErrNew "no leader"), now)
  | CProposePartition _ _ => (Ok tt, now)
  | CStartMetadataShard _ _ => (Ok tt, now)
  | CStartPartitionShard _ _ _ _ _ => (Ok tt, now)
  | CStopPartitionShard _ => (Ok tt, now)
  | CGetLeaderID _ => (Ok (0, 0, false), now)
  | CData e => (data_up _ e, now)
  | CRemoveAll _ => (Ok tt, now)
  | CNow => (now, now)
  | CWait ms => (None, now + Z.max 0 ms)
  | CTick _ => (false, now)
  | COrder keys => (keys, now)
  | CRunning => (∅, now)
  | CSetRunning _ => (tt, now)
  | CGoLocked _ => (tt, now)
  | CGo _ => (tt, now)
  | CLeaders => (∅, now)
  | CSetLeaders _ => (tt, now)
  end.

Definition hurried : CoordinatorConfig :=
  {| ccNodeID := 1; RaftAddress := "b:7000"; DataAddr := ":9092"; AdvertiseDataAddr := ""; DataDir := "/data"; Peers := ∅;
     BootstrapTimeoutMs := 500; ReconcileIntervalMs := 1000; LeaderCheckIntervalMs := 1000; EagerReconcileOnCreate := false |}.

Lemma bootstrap_ends_witness :
  run leaderless (Bootstrap hurried 4) 0 = (Err (ErrNew "bootstrap: timed out waiting for metadata shard leader"), 600) /\
  (run leaderless (Bootstrap hurried 4) 0).1 <> OutOfFuel.
Proof.
  split; [reflexivity|]. eapply (bootstrap_ends hurried 4 0); [vm_compute; reflexivity|lia|]. apply run_exec.
  intros X e now. split; [destruct e; cbn; lia|]. destruct e; cbn; try done; lia.
Defined.

End Bootstrap.
