(* ===== verification/Placement.v ===== *)
(** * Replica placement

    [assignReplicas] of coordinator/cluster/cluster.go on the list of registered nodes: the
    replicas of a partition are distinct registered nodes, do not depend on the order of the
    list, and rotate over the nodes from partition to partition, so that over as many consecutive
    partitions as there are nodes every node holds every replica position exactly once. *)

From S2P Require Import Prelude Hash SegName Keys Metadata Prog Partition DataCoord ClusterCoord.
Local Open Scope Z_scope.

Module Placement.
Import Metadata ClusterCoord.

Abbreviation node_ids nodes := (NodeID <$> nodes : list Z).

(** The [k]-th node of the sorted list, counted around. *)
Definition rot (ids : list Z) (k : Z) : Z := default 0 (ids !! Z.to_nat (k mod len ids)).

Lemma rot_elem ids k : 0 < len ids -> rot ids k ∈ ids.
Proof.
  intros H. unfold rot. pose proof (Z.mod_pos_bound k (len ids) H).
  destruct (lookup_lt_is_Some_2 ids (Z.to_nat (k mod len ids))) as [x Hx]; [unfold len in *; lia|].
  rewrite Hx. by eapply list_elem_of_lookup_2.
Qed.

Lemma rot_inj ids a b :
  NoDup ids -> 0 < len ids -> rot ids a = rot ids b -> a mod len ids = b mod len ids.
Proof.
  intros Hn H E. unfold rot in E.
  pose proof (Z.mod_pos_bound a (len ids) H). pose proof (Z.mod_pos_bound b (len ids) H).
  destruct (lookup_lt_is_Some_2 ids (Z.to_nat (a mod len ids))) as [x Hx]; [unfold len in *; lia|].
  destruct (lookup_lt_is_Some_2 ids (Z.to_nat (b mod len ids))) as [y Hy]; [unfold len in *; lia|].
  rewrite Hx, Hy in E. cbn in E. subst y. pose proof (NoDup_lookup _ _ _ _ Hn Hx Hy). lia.
Qed.

(** [n] consecutive nodes from [k] on. *)
Definition window (ids : list Z) (k : Z) (n : nat) : list Z := (fun i => rot ids (k + Z.of_nat i)) <$> seq 0 n.

Lemma mod_window L k i j : 0 < L -> 0 <= i < L -> 0 <= j < L -> (k + i) mod L = (k + j) mod L -> i = j.
Proof.
  intros HL Hi Hj E. pose proof (Z.div_mod (k + i) L ltac:(lia)). pose proof (Z.div_mod (k + j) L ltac:(lia)).
  rewrite E in H. revert H H0. generalize ((k + i) / L), ((k + j) / L), ((k + j) mod L). clear E.
  intros q1 q2 m H1 H2. assert (L * (q1 - q2) = i - j) by lia. assert (q1 = q2) by nia. nia.
Qed.

Lemma window_NoDup ids k n : NoDup ids -> 0 < len ids -> Z.of_nat n <= len ids -> NoDup (window ids k n).
Proof.
  intros Hd HL Hn. apply NoDup_fmap_2_strong; [|apply NoDup_seq].
  intros i j Hi Hj E. rewrite elem_of_seq in Hi, Hj. apply rot_inj in E; [|done|done].
  apply mod_window in E; lia.
Qed.

Lemma window_elem ids k n x : 0 < len ids -> x ∈ window ids k n -> x ∈ ids.
Proof. intros HL (i & -> & _)%list_elem_of_fmap. by apply rot_elem. Qed.

(** A full turn meets every node once. *)
Lemma window_full ids k : NoDup ids -> 0 < len ids -> window ids k (length ids) ≡ₚ ids.
Proof.
  intros Hd HL. apply submseteq_length_Permutation.
  - apply NoDup_submseteq; [by apply window_NoDup|]. intros x. by apply window_elem.
  - unfold window. by rewrite length_fmap, length_seq.
Qed.

Lemma replica_loop_window n r start p sorted :
  0 <= start + p + r -> 0 < len sorted ->
  replica_loop n r start p sorted = Ok (window (node_ids sorted) (start + p + r) n).
Proof.
  intros H0 HL. revert r H0. induction n as [|n IH]; intros r H0; [done|]. cbn [replica_loop].
  rewrite Z.rem_mod_nonneg by lia. pose proof (Z.mod_pos_bound (start + p + r) (len sorted) HL).
  destruct (index_is_Ok sorted ((start + p + r) mod len sorted)) as (x & Hx & ->); [lia|].
  cbn [mbind outcome_bind]. rewrite IH by lia. cbn [mbind outcome_bind]. f_equal.
  unfold window. cbn [seq]. rewrite fmap_cons, <- fmap_S_seq, <- list_fmap_compose. f_equal.
  - unfold rot. rewrite Z.add_0_r, len_map, list_lookup_fmap, Hx. done.
  - apply list_fmap_ext. intros i j _. cbn. f_equal. lia.
Qed.

(** ** The sorted node list *)

Definition sorted_ids (nodes : list NodeInfo) : list Z := node_ids (merge_sort node_le nodes).

#[local] Instance node_le_total : Total node_le.
Proof. intros a b. unfold node_le. lia. Qed.
#[local] Instance node_le_trans : Transitive node_le.
Proof. intros a b c. unfold node_le. lia. Qed.

Lemma sorted_ids_perm nodes : sorted_ids nodes ≡ₚ node_ids nodes.
Proof. unfold sorted_ids. by rewrite merge_sort_Permutation. Qed.

Lemma len_sorted_ids nodes : len (sorted_ids nodes) = len nodes.
Proof. unfold len. rewrite sorted_ids_perm, length_fmap. done. Qed.

Lemma sorted_ids_sorted nodes : StronglySorted Z.le (sorted_ids nodes).
Proof.
  unfold sorted_ids. pose proof (StronglySorted_merge_sort node_le nodes) as H.
  induction H as [|x l Hs IH Hx]; cbn; constructor; [done|]. by apply Forall_fmap.
Qed.

Lemma sorted_ids_order nodes nodes' : nodes ≡ₚ nodes' -> sorted_ids nodes = sorted_ids nodes'.
Proof.
  intros Hp. eapply (StronglySorted_unique Z.le); [apply sorted_ids_sorted..|].
  by rewrite !sorted_ids_perm, Hp.
Qed.

(** The first index of the rotation for a topic. *)
Definition start_of (nodes : list NodeInfo) (topic : string) : Z := fnv32a topic mod len nodes.

Lemma assignReplicas_window nodes topic p rf :
  0 < len nodes -> 0 <= p -> 0 <= rf ->
  assignReplicas nodes topic p rf =
  Ok (window (sorted_ids nodes) (start_of nodes topic + p) (Z.to_nat rf)).
Proof.
  intros HL Hp Hrf. unfold assignReplicas.
  assert (len (merge_sort node_le nodes) = len nodes) as E.
  { rewrite <- (len_map NodeID). fold (sorted_ids nodes). apply len_sorted_ids. }
  rewrite E, (proj2 (Z.eqb_neq _ _)), (proj2 (Z.ltb_ge _ _)) by lia.
  assert (in_u32 (fnv32a topic)) as Hf by apply Fnv.Sum32a_range. unfold in_u32 in Hf.
  rewrite Z.rem_mod_nonneg by lia. fold (start_of nodes topic).
  assert (0 <= start_of nodes topic) by (apply Z.mod_pos_bound; lia).
  rewrite replica_loop_window by lia. f_equal. unfold sorted_ids. f_equal. lia.
Qed.

(** What a placement owes a partition. *)
Definition placement (nodes : list Z) (rf : Z) (replicas : list Z) : Prop :=
  len replicas = rf /\ NoDup replicas /\ forall id, id ∈ replicas -> id ∈ nodes.

Lemma assign_placement nodes topic p rf :
  NoDup (node_ids nodes) -> 0 <= p -> 0 < rf <= len nodes ->
  exists l, assignReplicas nodes topic p rf = Ok l /\ placement (node_ids nodes) rf l.
Proof.
  intros Hd Hp Hrf. rewrite assignReplicas_window by lia. eexists. split; [done|].
  pose proof (sorted_ids_perm nodes) as Hs. pose proof (len_sorted_ids nodes) as HL.
  assert (NoDup (sorted_ids nodes)) by (by rewrite Hs). split_and!.
  - unfold len, window. rewrite length_fmap, length_seq. lia.
  - apply window_NoDup; [done|lia..].
  - intros id Hid. apply window_elem in Hid; [|lia]. by rewrite <- Hs.
Qed.

Lemma assignments_ok n p nodes topic rf :
  NoDup (node_ids nodes) -> 0 <= p -> 0 < rf <= len nodes ->
  exists ls, assignments n p nodes topic rf = Ok ls /\ len ls = Z.of_nat n /\
    Forall (placement (node_ids nodes) rf) ls.
Proof.
  intros Hd. revert p. induction n as [|n IH]; intros p Hp Hrf; [by exists []|]. cbn [assignments].
  destruct (assign_placement nodes topic p rf Hd Hp Hrf) as (l & -> & Hl). cbn [mbind outcome_bind].
  destruct (IH (p + 1)) as (ls & -> & Hlen & Hls); [lia|lia|]. exists (l :: ls). cbn [mbind outcome_bind].
  split_and!; [done|rewrite len_cons; lia|by constructor].
Qed.

(** The placement of a topic's replicas. With distinct node ids and a replication factor no larger
    than the cluster, every partition gets that many distinct registered nodes; the choice does
    not depend on the order in which the nodes are listed; and over any run of consecutive
    partitions as long as the node list, each replica position falls on every node exactly once. *)
Theorem assignReplicas_balanced nodes topic rf :
  NoDup (NodeID <$> nodes) -> 0 < rf <= len nodes ->
  (forall p, 0 <= p -> exists l, assignReplicas nodes topic p rf = Ok l /\ placement (NodeID <$> nodes) rf l) /\
  (forall nodes' p, 0 <= p -> nodes ≡ₚ nodes' -> assignReplicas nodes' topic p rf = assignReplicas nodes topic p rf) /\
  (forall p r, 0 <= p -> 0 <= r < rf ->
     (fun i => match assignReplicas nodes topic (p + Z.of_nat i) rf with
               | Ok l => default 0 (l !! Z.to_nat r) | _ => 0 end) <$> seq 0 (length nodes)
     ≡ₚ NodeID <$> nodes).
Proof.
  intros Hd Hrf. pose proof (sorted_ids_perm nodes) as Hs. pose proof (len_sorted_ids nodes) as HL.
  assert (NoDup (sorted_ids nodes)) as Hds by (by rewrite Hs). split_and!.
  - intros p Hp. by apply assign_placement.
  - intros nodes' p Hp Hperm. assert (len nodes' = len nodes) as El by (unfold len; by rewrite Hperm).
    rewrite !assignReplicas_window by lia. unfold start_of. by rewrite El, (sorted_ids_order _ _ Hperm).
  - intros p r Hp Hr. rewrite <- Hs. rewrite <- (window_full _ (start_of nodes topic + p + r) Hds) by lia.
    replace (length (sorted_ids nodes)) with (length nodes) by (unfold len in HL; lia).
    apply (reflexive_eq (R := (≡ₚ))). apply list_fmap_ext. intros i j _.
    rewrite assignReplicas_window by lia. unfold window.
    rewrite list_lookup_fmap, lookup_seq_lt by lia. cbn. f_equal. lia.
Qed.

(** ** Witness: three nodes, two replicas. *)

Definition three : list NodeInfo :=
  [{| NodeID := 1; Address := "a:1" |}; {| NodeID := 2; Address := "b:1" |}; {| NodeID := 3; Address := "c:1" |}].

Lemma assignReplicas_balanced_witness :
  exists l, assignReplicas three "orders" 4 2 = Ok l /\ placement [1; 2; 3] 2 l.
Proof.
  apply (assignReplicas_balanced three "orders" 2); [|vm_compute; split; congruence|lia].
  apply (bool_decide_unpack (NoDup (NodeID <$> three))). vm_compute. done.
Defined.

End Placement.
