(* ===== verification/ClusterPlace.v ===== *)
(** * Placement among concurrent administrators

    Several nodes create and extend topics at the same time. The world is the committed log of
    metadata commands and how far the local replica has applied it: a lookup reads the local
    replica, which may lag behind; a proposal is appended to the log. As long as no topic is
    deleted, every partition of every state of the log has as many distinct registered replicas
    as its topic's replication factor ([calls_place_replicas]). A deletion between the lookup
    and the proposal of [AlterTopicPartitionCount] breaks this ([alter_race_unplaced]). *)

From S2P Require Import Prelude Hash SegName Keys Metadata MetadataInv Prog Partition DataCoord ClusterCoord Placement.
Local Open Scope Z_scope.

Module ClusterPlace.
Import Metadata MetadataInv ClusterCoord Placement.

(** ** Well placed states *)

Definition node_keys (s : MetadataState) : list Z := (map_to_list (Nodes s)).*1.

Record placed (s : MetadataState) : Prop := {
  pl_nodes : forall id n, Nodes s !! id = Some n -> NodeID n = id;
  pl_topics : forall t m, Topics s !! t = Some m ->
    0 < PartitionCount m < 2 ^ 31 /\ 0 < ReplicationFactor m <= len (node_keys s);
  pl_parts : forall k p, Partitions s !! k = Some p ->
    exists m, Topics s !! pk_topic k = Some m /\ placement (node_keys s) (ReplicationFactor m) (ReplicaNodeIDs p)
}.

(** What no command but a deletion takes back. *)
Record grow (s s' : MetadataState) : Prop := {
  gr_nodes : forall id, id ∈ node_keys s -> id ∈ node_keys s';
  gr_topics : forall t m, Topics s !! t = Some m -> exists m', Topics s' !! t = Some m' /\
    PartitionCount m <= PartitionCount m' /\ ReplicationFactor m' = ReplicationFactor m
}.

Lemma grow_refl s : grow s s.
Proof. constructor; [done|]. intros t m H. exists m. split_and!; [done|lia|done]. Qed.

Lemma grow_trans s1 s2 s3 : grow s1 s2 -> grow s2 s3 -> grow s1 s3.
Proof.
  intros [A1 A2] [B1 B2]. constructor; [auto|]. intros t m H. destruct (A2 _ _ H) as (m2 & H2 & L2 & R2).
  destruct (B2 _ _ H2) as (m3 & H3 & L3 & R3). exists m3. split_and!; [done|lia|congruence].
Qed.

Lemma elem_node_keys s id : id ∈ node_keys s <-> is_Some (Nodes s !! id).
Proof.
  unfold node_keys. rewrite list_elem_of_fmap. split.
  - intros ([i n] & -> & H%elem_of_map_to_list). eauto.
  - intros [n Hn]. exists (id, n). split; [done|]. by apply elem_of_map_to_list.
Qed.

Lemma NoDup_node_keys s : NoDup (node_keys s).
Proof. apply NoDup_fst_map_to_list. Qed.

Lemma grow_keys s s' : grow s s' -> len (node_keys s) <= len (node_keys s').
Proof.
  intros [H _]. unfold len. apply inj_le, submseteq_length, NoDup_submseteq; [apply NoDup_node_keys|exact H].
Qed.

Lemma placement_mono ns ns' rf l : (forall id, id ∈ ns -> id ∈ ns') -> placement ns rf l -> placement ns' rf l.
Proof. intros H (H1 & H2 & H3). split_and!; auto. Qed.

(** The nodes a lookup lists. *)
Lemma listNodes_ids s : placed s -> NodeID <$> listNodes s ≡ₚ node_keys s.
Proof.
  intros Hp. unfold listNodes, node_keys. rewrite merge_sort_Permutation, <- list_fmap_compose.
  apply (reflexive_eq (R := (≡ₚ))). apply list_fmap_ext. intros i [id n] H. cbn.
  apply (pl_nodes _ Hp). apply elem_of_map_to_list. by eapply list_elem_of_lookup_2.
Qed.

Lemma listNodes_facts s :
  placed s -> NoDup (NodeID <$> listNodes s) /\ len (listNodes s) = len (node_keys s) /\
    forall rf l, placement (NodeID <$> listNodes s) rf l -> placement (node_keys s) rf l.
Proof.
  intros Hp. pose proof (listNodes_ids s Hp) as H. split_and!.
  - rewrite H. apply NoDup_node_keys.
  - rewrite <- (len_map NodeID). unfold len. by rewrite H.
  - intros rf l. apply placement_mono. intros id. by rewrite H.
Qed.

(** ** Commands *)

Definition admissible (s : MetadataState) (cmd : option MetadataCommand) : Prop :=
  match cmd with
  | Some (CmdCreateTopic (Some c)) =>
      in_i32 (ct_PartitionCount c) /\ 0 < ct_ReplicationFactor c <= len (node_keys s) /\
      Forall (placement (node_keys s) (ct_ReplicationFactor c)) (ct_ReplicaNodeIDs c)
  | Some (CmdAlterTopicPartCount (Some c)) =>
      in_i32 (at_NewPartitionCount c) /\
      forall m, Topics s !! at_Name c = Some m ->
        Forall (placement (node_keys s) (ReplicationFactor m)) (at_NewReplicaAssignments c) /\
        at_NewPartitionCount c - PartitionCount m <= len (at_NewReplicaAssignments c)
  | Some (CmdDeleteTopic _) => False
  | _ => True
  end.

Definition kept (s s' : MetadataState) : Prop := placed s' /\ grow s s'.

Lemma kept_same s s' :
  placed s -> Topics s' = Topics s -> Partitions s' = Partitions s -> Nodes s' = Nodes s -> kept s s'.
Proof.
  intros [] Et Ep En. assert (node_keys s' = node_keys s) as Ek by (unfold node_keys; by rewrite En).
  split; constructor; rewrite ?Et, ?Ep, ?En, ?Ek; try done. intros t m H. exists m. split_and!; [done|lia|done].
Qed.

(** New partitions of a topic, with good replicas, and a topic entry that covers them. *)
Lemma kept_extend s s' name m :
  placed s -> Nodes s' = Nodes s -> Topics s' = <[name := m]> (Topics s) ->
  0 < PartitionCount m < 2 ^ 31 -> 0 < ReplicationFactor m <= len (node_keys s) ->
  (forall m0, Topics s !! name = Some m0 -> PartitionCount m0 <= PartitionCount m /\
     ReplicationFactor m = ReplicationFactor m0) ->
  (forall k p, Partitions s' !! k = Some p -> Partitions s !! k = Some p \/
     (pk_topic k = name /\ placement (node_keys s) (ReplicationFactor m) (ReplicaNodeIDs p))) ->
  kept s s'.
Proof.
  intros [] En Et Hc Hr Hm Hp. assert (node_keys s' = node_keys s) as Ek by (unfold node_keys; by rewrite En).
  split; constructor; rewrite ?En, ?Ek; try done.
  - intros t m' H. rewrite Et in H. apply lookup_insert_Some in H as [[_ <-]|[_ H]]; [done|]. by apply (pl_topics0 t).
  - intros k p H. rewrite Et. destruct (Hp _ _ H) as [Ho|(Ek' & Hpl)].
    + destruct (pl_parts0 _ _ Ho) as (m0 & H0 & Hpl). destruct (decide (pk_topic k = name)) as [E|E].
      * rewrite E in *. exists m. rewrite lookup_insert_eq. destruct (Hm _ H0) as [_ ->]. done.
      * exists m0. by rewrite lookup_insert_ne.
    + exists m. rewrite Ek', lookup_insert_eq. done.
  - intros t m0 H. rewrite Et. destruct (decide (t = name)) as [->|Hne].
    + exists m. rewrite lookup_insert_eq. destruct (Hm _ H). done.
    + exists m0. rewrite lookup_insert_ne by done. split_and!; [done|lia|done].
Qed.

Lemma placed_nth ns rf ls j : Forall (placement ns rf) ls -> 0 <= j < len ls ->
  placement ns rf (default [] (ls !! Z.to_nat j)).
Proof.
  intros H Hj. destruct (lookup_lt_is_Some_2 ls (Z.to_nat j)) as [l Hl]; [unfold len in Hj; lia|].
  rewrite Hl. cbn. by eapply Forall_lookup_1.
Qed.

Lemma create_kept s c s' r :
  placed s -> admissible s (Some (CmdCreateTopic (Some c))) -> applyCreateTopic s c = Ok (s', r) -> kept s s'.
Proof.
  intros Hp (Hi & Hrf & Hls) H. unfold applyCreateTopic in H.
  destruct (Topics s !! ct_Name c) as [m|] eqn:Et; [injection H as <- <-; by apply kept_same|].
  destruct (Z.leb_spec (ct_PartitionCount c) 0); [injection H as <- <-; by apply kept_same|]. cbn [orb] in H.
  destruct (ct_ReplicationFactor c <=? 0); [injection H as <- <-; by apply kept_same|].
  destruct (Z.eqb_spec (i32 (len (ct_ReplicaNodeIDs c))) (ct_PartitionCount c)) as [El|];
    [cbn [negb] in H|injection H as <- <-; by apply kept_same].
  assert (ct_PartitionCount c <= len (ct_ReplicaNodeIDs c)) as Hlen.
  { pose proof (len_nonneg (ct_ReplicaNodeIDs c)). rewrite <- El. unfold i32. Z.div_mod_to_equations. lia. }
  unfold in_i32 in Hi. cbn [set_topics NextShardID Partitions] in H.
  destruct (create_partitions_spec (Z.to_nat (ct_PartitionCount c)) 0 (ct_Name c) (NextShardID s)
    (ct_ReplicaNodeIDs c) (Partitions s)) as (parts & E & H1 & H2); [lia|lia|].
  rewrite E in H. cbn [mbind outcome_bind] in H. injection H as <- <-.
  eapply (kept_extend s _ (ct_Name c)); [done|reflexivity|reflexivity|cbn; lia|exact Hrf| |]; [by rewrite Et|].
  intros [t i] p. cbn [Partitions set_partitions set_nextShardID pk_topic pk_partition]. intros Hk.
  destruct (decide (t = ct_Name c /\ 0 <= i < ct_PartitionCount c)) as [[-> Hr]|Hn].
  - right. destruct (H1 i) as (l & Hl & Hq); [lia|]. rewrite Hq in Hk. injection Hk as <-.
    split; [done|]. by eapply (Forall_lookup_1 _ _ _ _ Hls).
  - left. rewrite H2 in Hk; [done|]. rewrite Z2Nat.id by lia. exact Hn.
Qed.

Lemma alter_kept s c s' r :
  placed s -> admissible s (Some (CmdAlterTopicPartCount (Some c))) -> applyAlterTopicPartCount s c = Ok (s', r) ->
  kept s s'.
Proof.
  intros Hp (Hi & Ha) H. unfold applyAlterTopicPartCount in H.
  destruct (Topics s !! at_Name c) as [m|] eqn:Et; [|injection H as <- <-; by apply kept_same].
  destruct (Z.leb_spec (at_NewPartitionCount c) (PartitionCount m)); [injection H as <- <-; by apply kept_same|].
  destruct (Ha _ eq_refl) as [Hls Hlen]. pose proof (pl_topics _ Hp _ _ Et) as [Hc Hrf]. unfold in_i32 in Hi.
  rewrite i32_id in H by (unfold in_i32; lia).
  destruct (add_partitions_spec (Z.to_nat (at_NewPartitionCount c - PartitionCount m)) 0 (at_Name c)
    (PartitionCount m) (NextShardID s) (at_NewReplicaAssignments c) (Partitions s)) as [H1 H2]; [lia..|].
  injection H as <- <-. eapply (kept_extend s _ (at_Name c)); [done|reflexivity|reflexivity|cbn; lia|exact Hrf| |].
  { intros m0 Hm0. rewrite Et in Hm0. injection Hm0 as <-. split; [cbn; lia|done]. }
  intros [t i] p. cbn [Partitions set_partitions set_nextShardID set_topics pk_topic pk_partition]. intros Hk.
  destruct (decide (t = at_Name c /\ PartitionCount m <= i < at_NewPartitionCount c)) as [[-> Hr]|Hn].
  - right. pose proof (H1 (i - PartitionCount m) ltac:(lia)) as Hq.
    replace (PartitionCount m + (i - PartitionCount m)) with i in Hq by lia.
    rewrite Hq in Hk. injection Hk as <-. split; [done|]. apply placed_nth; [exact Hls|lia].
  - left. rewrite H2 in Hk; [done|]. intros [E1 E2]. apply Hn. cbn in E1, E2. split; [exact E1|lia].
Qed.

Lemma retention_kept s c s' r : placed s -> applyAlterTopicRetention s c = Ok (s', r) -> kept s s'.
Proof.
  intros Hp H. unfold applyAlterTopicRetention in H.
  destruct (Topics s !! ar_Name c) as [m|] eqn:Et; [|injection H as <- <-; by apply kept_same].
  pose proof (pl_topics _ Hp _ _ Et) as [Hc Hrf]. injection H as <- <-.
  eapply (kept_extend s _ (ar_Name c)); [done|reflexivity|reflexivity|exact Hc|exact Hrf| |auto].
  intros m0 Hm0. rewrite Et in Hm0. injection Hm0 as <-. split; [cbn; lia|done].
Qed.

Lemma register_kept s n s' r : placed s -> applyRegisterNode s n = Ok (s', r) -> kept s s'.
Proof.
  intros Hp H. injection H as <- <-. set (s' := set_nodes _ _).
  assert (grow s s') as Hg.
  { constructor; [|intros t m H; exists m; split_and!; [done|lia|done]]. intros id. rewrite !elem_node_keys. cbn.
    intros [n' Hn']. destruct (decide (id = NodeID n)) as [->|Hne]; [rewrite lookup_insert_eq; eauto|].
    rewrite lookup_insert_ne by done. eauto. }
  split; [|done]. pose proof (grow_keys _ _ Hg). destruct Hp. constructor.
  - intros id n'. cbn. intros [[<- <-]|[_ H']]%lookup_insert_Some; [done|]. by apply pl_nodes0.
  - intros t m Hm. destruct (pl_topics0 _ _ Hm). split; [done|lia].
  - intros k p Hk. destruct (pl_parts0 _ _ Hk) as (m & Hm & Hpl). exists m. split; [exact Hm|].
    eapply placement_mono; [apply (gr_nodes _ _ Hg)|exact Hpl].
Qed.

Lemma leader_kept s c s' r : placed s -> applyAssignPartitionLeader s c = Ok (s', r) -> kept s s'.
Proof.
  intros Hp H. unfold applyAssignPartitionLeader in H.
  destruct (Partitions s !! _) as [p|] eqn:Ek; [|injection H as <- <-; by apply kept_same].
  destruct (_ <=? _); [injection H as <- <-; by apply kept_same|]. injection H as <- <-.
  split; [|constructor; [done|intros t m H; exists m; split_and!; [done|lia|done]]].
  destruct Hp. constructor; [done|done|]. intros k p'. cbn.
  intros [[<- <-]|[_ H']]%lookup_insert_Some; [exact (pl_parts0 _ _ Ek)|by apply pl_parts0].
Qed.

Lemma group_kept s o s' r : placed s -> group_only s o -> o = Ok (s', r) -> kept s s'.
Proof. intros Hp (s1 & r1 & -> & E1 & E2 & E3 & _) [= <- <-]. by apply kept_same. Qed.

Lemma update_kept s cmd s' r : placed s -> admissible s cmd -> Update s cmd = Ok (s', r) -> kept s s'.
Proof.
  intros Hp Ha H. destruct cmd as [cmd|]; cbn [Update] in H; [|injection H as <- <-; by apply kept_same].
  destruct cmd as [[c|]|c|[c|]|[c|]|[c|]|[c|]|[c|]|[c|]|[c|]|[c|]|[c|]|]; try done; cbn [applyCommand deref] in H.
  - by eapply create_kept.
  - by eapply alter_kept.
  - by eapply retention_kept.
  - by eapply register_kept.
  - by eapply leader_kept.
  - eapply group_kept; [done|apply join_groups|exact H].
  - eapply group_kept; [done|apply leave_groups|exact H].
  - eapply group_kept; [done|apply heartbeat_groups|exact H].
  - eapply group_kept; [done|apply commit_groups|exact H].
  - eapply group_kept; [done|apply rebalance_groups|exact H].
  - injection H as <- <-. by apply kept_same.
Qed.

(** ** The committed log *)

Record world := { w_log : list (option MetadataCommand); w_applied : nat }.

(** The local replica's state, and the state at the end of the log. *)
Definition local (w : world) (s : MetadataState) : Prop :=
  follows NewMetadataFSM (take (w_applied w) (w_log w)) s.
Definition head (w : world) (s : MetadataState) : Prop := follows NewMetadataFSM (w_log w) s.

(** A lookup reads the local replica; a proposal is committed, applied here and answered, or
    fails; the other requests do not touch the metadata and may be answered in any way. *)
Definition sem X (e : clusterE X) : world -> X -> world -> Prop :=
  match e in clusterE X return world -> X -> world -> Prop with
  | CLookup q => fun w x w' => w' = w /\ ((exists s, local w s /\ x = Lookup s q) \/ exists err, x = Err err)
  | CPropose cmd => fun w x w' =>
      (exists s s' r, head w s /\ Update s (Some cmd) = Ok (s', r) /\ x = Ok r /\
         w' = {| w_log := w_log w ++ [Some cmd]; w_applied := S (length (w_log w)) |}) \/
      (exists err, x = Err err /\ w' = w)
  | _ => fun w x w' => w' = w
  end.

(** Other nodes commit commands; the local replica catches up. *)
Inductive env_with (ok : MetadataState -> option MetadataCommand -> Prop) : world -> world -> Prop :=
| env_commit w s cmd s' r : head w s -> ok s cmd -> Update s cmd = Ok (s', r) ->
    env_with ok w {| w_log := w_log w ++ [cmd]; w_applied := w_applied w |}
| env_apply w n : (w_applied w <= n <= length (w_log w))%nat -> env_with ok w {| w_log := w_log w; w_applied := n |}.

Definition env := env_with admissible.

Lemma follows_fun s cmds s1 s2 : follows s cmds s1 -> follows s cmds s2 -> s1 = s2.
Proof.
  intros H. revert s2. induction H as [|cmds cmd s1 s3 r H IH HU]; intros s2 H2.
  - inversion H2 as [E|cmds' c]; [done|]. by destruct cmds'.
  - inversion H2 as [E|cmds' c s1' s2' r' H' HU' E]; [by destruct cmds|].
    apply app_inj_tail in E as [-> ->]. apply IH in H' as ->. congruence.
Qed.

(** A log all of whose commands were admissible when they were applied. *)
Inductive hist : list (option MetadataCommand) -> MetadataState -> Prop :=
| hist_nil : hist [] NewMetadataFSM
| hist_snoc cmds cmd s s' r : hist cmds s -> admissible s cmd -> Update s cmd = Ok (s', r) -> hist (cmds ++ [cmd]) s'.

Lemma placed_init : placed NewMetadataFSM.
Proof. constructor; intros ? ?; cbn; by rewrite lookup_empty. Qed.

Lemma hist_follows cmds s : hist cmds s -> follows NewMetadataFSM cmds s /\ placed s.
Proof.
  induction 1 as [|cmds cmd s s' r H [IH1 IH2] Ha HU]; [split; [constructor|apply placed_init]|].
  split; [by econstructor|]. by eapply update_kept.
Qed.

Lemma hist_prefix l1 l2 s : hist (l1 ++ l2) s -> exists s1, hist l1 s1 /\ grow s1 s.
Proof.
  revert s. induction l2 as [|c l2 IH] using rev_ind; intros s H.
  { rewrite app_nil_r in H. exists s. split; [done|apply grow_refl]. }
  rewrite app_assoc in H. inversion H as [E|cmds cmd s0 s' r H0 Ha HU E]; [by destruct (l1 ++ l2)|].
  apply app_inj_tail in E as [-> ->]. destruct (IH _ H0) as (s1 & H1 & Hg). exists s1. split; [done|].
  eapply grow_trans; [exact Hg|]. eapply update_kept; [|exact Ha|exact HU]. by apply (hist_follows _ _ H0).
Qed.

Definition Inv (w : world) : Prop := (w_applied w <= length (w_log w))%nat /\ exists s, hist (w_log w) s.

Lemma Inv_snoc w s cmd s' r n :
  Inv w -> head w s -> admissible s cmd -> Update s cmd = Ok (s', r) -> (n <= S (length (w_log w)))%nat ->
  Inv {| w_log := w_log w ++ [cmd]; w_applied := n |}.
Proof.
  intros (_ & s0 & Hh) Hs Ha HU Hn. split; [cbn; rewrite length_app; cbn; lia|].
  assert (s0 = s) as -> by (eapply follows_fun; [apply (hist_follows _ _ Hh)|exact Hs]).
  exists s'. by econstructor.
Qed.

(** Every state the log ends in is well placed. *)
Definition well_placed (w : world) : Prop := exists s, head w s /\ placed s.

Lemma Inv_placed w : Inv w -> well_placed w.
Proof. intros (_ & s & Hs). exists s. apply (hist_follows _ _ Hs). Qed.

Lemma commit_Inv w w' : Inv w -> env w w' -> Inv w'.
Proof.
  intros Hw He. destruct He as [w s cmd s' r Hs Ha HU|w n Hn].
  - eapply Inv_snoc; [done..|]. destruct Hw. lia.
  - destruct Hw as [_ Hw]. split; [apply Hn|exact Hw].
Qed.

(** ** What a call has seen stays true *)

(** The state [s] was read: it is a state of the local replica's past. *)
Definition seen (s : MetadataState) (w : world) : Prop :=
  exists l, l `prefix_of` take (w_applied w) (w_log w) /\ hist l s.

Lemma env_seen s w w' : Inv w -> seen s w -> env w w' -> seen s w'.
Proof.
  intros [Hle _] (l & Hl & Hs) He. exists l. split; [|done]. destruct He as [w s1 cmd s2 r _ _ _|w n Hn]; cbn.
  - rewrite take_app_le by done. exact Hl.
  - etrans; [exact Hl|]. exists (drop (w_applied w) (take n (w_log w))).
    rewrite <- (take_drop (w_applied w) (take n (w_log w))) at 1. rewrite take_take. do 2 f_equal. lia.
Qed.

Lemma rtc_keep w w' : Inv w -> rtc env w w' -> Inv w' /\ forall s, seen s w -> seen s w'.
Proof.
  intros Hw H. revert Hw. induction H as [|w1 w2 w3 H12 _ IH]; intros Hw; [done|].
  destruct (IH (commit_Inv _ _ Hw H12)) as [H1 H2]. split; [done|]. intros s Hs. apply H2. exact (env_seen _ _ _ Hw Hs H12).
Qed.

Lemma hist_grow l1 l2 s1 s2 : l1 `prefix_of` l2 -> hist l1 s1 -> hist l2 s2 -> grow s1 s2.
Proof.
  intros [l Hl] H1 H2. rewrite Hl in H2. destruct (hist_prefix _ _ _ H2) as (s & Hs & Hg).
  replace s1 with s; [done|]. eapply follows_fun; [apply (hist_follows _ _ Hs)|apply (hist_follows _ _ H1)].
Qed.

Lemma seen_grow s w : seen s w -> Inv w -> placed s /\ exists s', head w s' /\ placed s' /\ grow s s'.
Proof.
  intros (l & Hl & Hs) (_ & s' & Hh). split; [apply (hist_follows _ _ Hs)|]. exists s'.
  split_and!; [apply (hist_follows _ _ Hh)..|]. eapply hist_grow; [|exact Hs|exact Hh].
  etrans; [exact Hl|]. exists (drop (w_applied w) (w_log w)). by rewrite take_drop.
Qed.

Lemma local_seen w s : Inv w -> local w s -> seen s w /\ forall s0, seen s0 w -> grow s0 s.
Proof.
  intros (_ & s' & Hh) Hl. assert (hist (take (w_applied w) (w_log w)) s) as Hs.
  { rewrite <- (take_drop (w_applied w) (w_log w)) in Hh. destruct (hist_prefix _ _ _ Hh) as (s1 & H1 & _).
    replace s with s1; [done|]. eapply follows_fun; [|exact Hl]. by apply hist_follows. }
  split; [by eexists|]. intros s0 (l0 & Hl0 & Hs0). by eapply hist_grow.
Qed.

Definition no_panic {A} (o : outcome A) : Prop := (forall p, o <> Panic p) /\ o <> OutOfFuel.
Definition good {A} (o : outcome A) (w : world) : Prop := Inv w /\ no_panic o.

Abbreviation cwp := (wp sem env).

Lemma wp_ret {A} (o : outcome A) w : Inv w -> no_panic o -> cwp (Ret o) good w.
Proof. intros Hw Ho w' H. split; [by eapply rtc_keep|done]. Qed.

Lemma no_panic_Ok {A} (a : A) : no_panic (Ok a).
Proof. done. Qed.
Lemma no_panic_Err {A} e : no_panic (@Err A e).
Proof. done. Qed.
#[local] Hint Resolve wp_ret no_panic_Ok no_panic_Err : core.

(** A lookup in a call: it fails, or it shows a state that stays in the past of the log. *)
Lemma wp_lookup {B} q wrap (k : answer -> cprog (outcome B)) w :
  Inv w -> (forall s, placed s -> no_panic (Lookup s q)) ->
  (forall w' s a, Inv w' -> (forall s0, seen s0 w -> seen s0 w' /\ grow s0 s) -> seen s w' -> Lookup s q = Ok a ->
     cwp (k a) good w') ->
  cwp (call (trigger (CLookup q)) wrap k) good w.
Proof.
  intros Hw Hq Hk. apply wp_call. intros w1 x w2 H1 [-> Hx].
  destruct (rtc_keep _ _ Hw H1) as [Hw1 Hs1]. intros w3 H3. destruct (rtc_keep _ _ Hw1 H3) as [Hw3 Hs3].
  destruct Hx as [(s & Hs & ->)|[e ->]]; [|by apply wp_ret].
  destruct (local_seen _ _ Hw1 Hs) as [Hseen Hgrow]. destruct (seen_grow _ _ Hseen Hw1) as [Hp _].
  destruct (Lookup s q) as [a|e|p|] eqn:E; [|by apply wp_ret|..].
  - apply (Hk w3 s a); auto.
  - destruct (Hq s Hp) as [H _]. rewrite E in H. by destruct (H p).
  - destruct (Hq s Hp) as [_ H]. by rewrite E in H.
Qed.

(** A proposal that is admissible in every state after the one seen. *)
Lemma wp_propose {B} cmd wrap (k : Result -> cprog (outcome B)) w s :
  Inv w -> seen s w -> (forall s', placed s -> placed s' -> grow s s' -> admissible s' (Some cmd)) ->
  (forall w' r, Inv w' -> cwp (k r) good w') ->
  cwp (call (trigger (CPropose cmd)) wrap k) good w.
Proof.
  intros Hw Hs Ha Hk. apply wp_call. intros w1 x w2 H1 Hx. destruct (rtc_keep _ _ Hw H1) as [Hw1 Hs1].
  assert (Inv w2 /\ ((exists r, x = Ok r) \/ exists e, x = Err e)) as [Hw2 Hr].
  { destruct Hx as [(s1 & s2 & r & Hh & HU & -> & ->)|(e & -> & ->)]; [|by eauto].
    split; [|eauto]. destruct (seen_grow _ _ (Hs1 _ Hs) Hw1) as (Hp & s' & Hh' & Hp' & Hg).
    assert (s1 = s') as -> by (eapply follows_fun; [exact Hh|exact Hh']).
    eapply Inv_snoc; [exact Hw1|exact Hh|by apply Ha|exact HU|lia]. }
  intros w3 H3. destruct (rtc_keep _ _ Hw2 H3) as [Hw3 _]. destruct Hr as [[r ->]|[e ->]]; [auto|by apply wp_ret].
Qed.

(** ** The calls *)

Section calls.
Variable config : CoordinatorConfig.

Lemma safe_expected topics expected : safe sem Inv no_panic (expected_shards config topics expected).
Proof.
  revert expected. induction topics as [|tm topics IH]; intros expected; cbn [expected_shards]; [done|].
  intros w x w' Hw [-> [(s & _ & ->)|[e ->]]]; (split; [exact Hw|]); cbn [Lookup found].
  - destruct (Topics s !! Name tm); apply IH.
  - apply IH.
Qed.

Lemma safe_reconcile : safe sem Inv no_panic (reconcileOnce config).
Proof.
  intros w x w' Hw [-> [(s & _ & ->)|[e ->]]]; (split; [exact Hw|]); [|done]. cbn [Lookup].
  unfold call. eapply safe_bind; [apply safe_expected|]. intros [r|e|p|] [H1 H2]; try done.
  - intros w1 x w2 Hw1 ->. by split.
  - by destruct (H1 p).
Qed.

Lemma wp_reconcile w : Inv w -> cwp (reconcileOnce config) good w.
Proof. intros Hw. by apply (safe_wp sem env Inv no_panic); [apply commit_Inv|apply safe_reconcile|]. Qed.

Lemma wp_CreateTopic name pc rf ov w :
  in_i32 pc -> Inv w -> cwp (CreateTopic config name pc rf ov) good w.
Proof.
  intros Hpc Hw. unfold CreateTopic. destruct (topicNameRe name); [cbn [negb]|by apply wp_ret].
  destruct (Z.ltb_spec pc 1); [by apply wp_ret|]. destruct (Z.ltb_spec rf 1); [by apply wp_ret|].
  apply wp_lookup; [done|done|]. intros w1 s a Hw1 _ Hs [= <-].
  destruct (seen_grow _ _ Hs Hw1) as [Hp _]. destruct (listNodes_facts s Hp) as (Hd & Hl & Hpl).
  destruct (Z.ltb_spec (len (listNodes s)) rf); [by apply wp_ret|].
  destruct (assignments_ok (Z.to_nat pc) 0 (listNodes s) name rf Hd) as (ls & -> & Hlen & Hls); [lia|lia|].
  apply wp_bind. intros w2 H2. destruct (rtc_keep _ _ Hw1 H2) as [Hw2 Hs2].
  intros w3 now w4 H3 ->. destruct (rtc_keep _ _ Hw2 H3) as [Hw3 Hs3].
  apply (wp_propose _ _ _ w3 s); [done|by apply Hs3, Hs2| |].
  - intros s' _ Hp' Hg. pose proof (grow_keys _ _ Hg). split_and!; [exact Hpc|cbn; lia..|].
    eapply Forall_impl; [exact Hls|]. intros l Hpl'. eapply placement_mono; [apply (gr_nodes _ _ Hg)|by apply Hpl].
  - intros w5 r Hw5. destruct (negb (Value r =? ResultOK)); [destruct (Value r =? ResultErrAlreadyExists); by apply wp_ret|].
    destruct (EagerReconcileOnCreate config); [|by apply wp_ret].
    apply wp_call. eapply wp_mono; [|by apply wp_reconcile]. intros [u|e|p|] w6 [Hw6 [Hn1 Hn2]]; try (by apply wp_ret).
    by destruct (Hn1 p).
Qed.

Lemma wp_Alter name n w : in_i32 n -> Inv w -> cwp (AlterTopicPartitionCount name n) good w.
Proof.
  intros Hn Hw. unfold AlterTopicPartitionCount.
  apply wp_lookup; [done|intros s _; cbn; by destruct (Topics s !! name)|]. intros w1 s a Hw1 _ Hs Ha.
  destruct (seen_grow _ _ Hs Hw1) as [Hp _]. cbn in Ha. destruct (Topics s !! name) as [tm|] eqn:Et; [|done].
  injection Ha as <-. pose proof (pl_topics _ Hp _ _ Et) as [Hc Hrf].
  destruct (Z.leb_spec n (PartitionCount tm)); [by apply wp_ret|].
  apply wp_lookup; [done|done|]. intros w2 s2 a Hw2 Hseen Hs2 [= <-]. destruct (Hseen _ Hs) as [Hs' Hg].
  destruct (seen_grow _ _ Hs2 Hw2) as [Hp2 _]. destruct (listNodes_facts s2 Hp2) as (Hd & Hl & Hpl).
  unfold in_i32 in Hn. rewrite i32_id by (unfold in_i32; lia). rewrite (proj2 (Z.ltb_ge _ _)) by lia.
  pose proof (grow_keys _ _ Hg).
  destruct (assignments_ok (Z.to_nat (n - PartitionCount tm)) (PartitionCount tm) (listNodes s2) name
    (ReplicationFactor tm) Hd) as (ls & -> & Hlen & Hls); [lia|lia|].
  apply wp_bind. intros w3 H3. destruct (rtc_keep _ _ Hw2 H3) as [Hw3 Hs3].
  apply (wp_propose _ _ _ w3 s2); [done|by apply Hs3| |].
  - intros s' _ Hp' Hg2. split; [exact Hn|]. cbn [at_Name at_NewReplicaAssignments at_NewPartitionCount].
    intros m Hm. destruct (gr_topics _ _ (grow_trans _ _ _ Hg Hg2) _ _ Et) as (m' & Hm' & Hcnt & Hrf').
    rewrite Hm in Hm'. injection Hm' as <-. rewrite Hrf'. split; [|lia].
    eapply Forall_impl; [exact Hls|]. intros l Hpl'. eapply placement_mono; [apply (gr_nodes _ _ Hg2)|by apply Hpl].
  - intros w4 r Hw4. by apply wp_ret.
Qed.

(** C27: concurrent administration keeps replicas well placed. Whatever the other nodes commit in
    between (short of deleting topics) and however far the local replica lags, creating a topic
    or adding partitions never panics and leaves a log at whose end every partition has as many
    distinct, registered replica nodes as its topic's replication factor. *)
Theorem calls_place_replicas w :
  Inv w ->
  (forall name pc rf ov w' o, in_i32 pc -> exec sem env (CreateTopic config name pc rf ov) w w' o ->
     no_panic o /\ well_placed w') /\
  (forall name n w' o, in_i32 n -> exec sem env (AlterTopicPartitionCount name n) w w' o ->
     no_panic o /\ well_placed w').
Proof.
  intros Hw. split.
  - intros name pc rf ov w' o Hi He.
    destruct (wp_exec _ _ _ _ _ _ _ (wp_CreateTopic name pc rf ov w Hi Hw) He). split; [done|by apply Inv_placed].
  - intros name n w' o Hi He.
    destruct (wp_exec _ _ _ _ _ _ _ (wp_Alter name n w Hi Hw) He). split; [done|by apply Inv_placed].
Qed.
End calls.

(** ** Two nodes and a topic, extended alone and in a race *)

Definition c_reg (id : Z) : MetadataCommand := CmdRegisterNode (Some {| NodeID := id; Address := "" |}).
Definition c_topic (n : Z) (replicas : list (list Z)) : MetadataCommand :=
  CmdCreateTopic (Some {| ct_Name := "t"; ct_PartitionCount := n; ct_ReplicationFactor := 2; ct_RetentionMs := 0;
    ct_RetentionBytes := -1; ct_CreatedAtMs := 0; ct_ReplicaNodeIDs := replicas |}).
Definition log3 : list (option MetadataCommand) :=
  [Some (c_reg 1); Some (c_reg 2); Some (c_topic 3 [[1; 2]; [2; 1]; [1; 2]])].
Definition w3 : world := {| w_log := log3; w_applied := 3 |}.

Fixpoint replay (s : MetadataState) (cmds : list (option MetadataCommand)) : option MetadataState :=
  match cmds with
  | [] => Some s
  | c :: cmds' => match Update s c with Ok (s', _) => replay s' cmds' | _ => None end
  end.

Lemma follows_cons s c s1 r cmds s2 : Update s c = Ok (s1, r) -> follows s1 cmds s2 -> follows s (c :: cmds) s2.
Proof.
  intros HU H. induction H as [|cmds cmd s2 s3 r' H IH HU']; [by apply (follows_step _ [] _ s _ r); [constructor|]|].
  apply (follows_step s (c :: cmds) cmd s2 s3 r'); done.
Qed.

Lemma replay_follows s cmds s' : replay s cmds = Some s' -> follows s cmds s'.
Proof.
  revert s. induction cmds as [|c cmds IH]; intros s; cbn [replay]; [intros [= <-]; constructor|].
  destruct (Update s c) as [[s1 r]| | |] eqn:E; try done. intros H. by eapply follows_cons, IH.
Qed.

Definition after (cmds : list (option MetadataCommand)) : MetadataState :=
  default NewMetadataFSM (replay NewMetadataFSM cmds).

Lemma w3_Inv : Inv w3.
Proof.
  split; [cbn; lia|]. exists (after log3).
  apply (hist_snoc [Some (c_reg 1); Some (c_reg 2)] (Some (c_topic 3 [[1; 2]; [2; 1]; [1; 2]]))
    (after [Some (c_reg 1); Some (c_reg 2)]) _ OKResult).
  - apply (hist_snoc [Some (c_reg 1)] (Some (c_reg 2)) (after [Some (c_reg 1)]) _ OKResult); [|done|reflexivity].
    apply (hist_snoc [] (Some (c_reg 1)) NewMetadataFSM _ OKResult); [constructor|done|reflexivity].
  - split_and!; [vm_compute; split; congruence|vm_compute; congruence..|].
    assert (forall l, bool_decide (NoDup l) && forallb (fun x => bool_decide (x ∈ [1; 2])) l = true -> len l = 2 ->
      placement (node_keys (after [Some (c_reg 1); Some (c_reg 2)])) 2 l) as Hpl.
    { intros l [Hd Hl]%andb_true_iff Hn. split_and!; [done|by apply bool_decide_eq_true in Hd|].
      intros id Hid. rewrite forallb_forall in Hl. apply list_elem_of_In in Hid. specialize (Hl _ Hid).
      apply bool_decide_eq_true in Hl. rewrite elem_node_keys.
      apply elem_of_cons in Hl as [->|Hl%list_elem_of_singleton]; [|subst]; vm_compute; eauto. }
    do 3 (apply Forall_cons_2; [apply Hpl; vm_compute; reflexivity|]). constructor.
  - vm_compute. reflexivity.
Qed.

Definition c_alter : MetadataCommand :=
  CmdAlterTopicPartCount (Some {| at_Name := "t"; at_NewPartitionCount := 4; at_NewReplicaAssignments := [[1; 2]] |}).

(** The world after [AlterTopicPartitionCount "t" 4] from [w3], when the others commit [cmds]
    between its lookups and its proposal. *)
Definition w_race (cmds : list (option MetadataCommand)) : world :=
  {| w_log := (log3 ++ cmds) ++ [Some c_alter]; w_applied := S (length (log3 ++ cmds)) |}.

Lemma alter_runs ok cmds s :
  rtc (env_with ok) w3 {| w_log := log3 ++ cmds; w_applied := 3 |} ->
  replay NewMetadataFSM (log3 ++ cmds) = Some s -> is_ok (Update s (Some c_alter)) = true ->
  exec sem (env_with ok) (AlterTopicPartitionCount "t" 4) w3 (w_race cmds) (Ok tt).
Proof.
  intros Henv Hs HU. destruct (Update s (Some c_alter)) as [[s' r]| | |] eqn:E; try discriminate.
  assert (local w3 (after log3)) as Hl by (apply replay_follows; vm_compute; reflexivity).
  exists w3, (Lookup (after log3) (QueryGetTopic "t")), w3. split_and!; [constructor|by split; [|left; eexists]|].
  exists w3, (Lookup (after log3) QueryListNodes), w3. split_and!; [constructor|by split; [|left; eexists]|].
  exists {| w_log := log3 ++ cmds; w_applied := 3 |}, (Ok r), (w_race cmds). split; [exact Henv|]. split; [|split; [constructor|done]].
  left. exists s, s', r. split_and!; [by apply replay_follows|exact E|done|done].
Qed.

Lemma calls_place_replicas_witness :
  Inv w3 /\ exec sem env (AlterTopicPartitionCount "t" 4) w3 (w_race []) (Ok tt) /\ well_placed (w_race []).
Proof.
  assert (exec sem env (AlterTopicPartitionCount "t" 4) w3 (w_race []) (Ok tt)) as He.
  { apply (alter_runs admissible [] (after log3)); [constructor|vm_compute; reflexivity..]. }
  split; [exact w3_Inv|]. split; [exact He|].
  apply (proj2 (calls_place_replicas
    {| ccNodeID := 1; RaftAddress := ""; DataAddr := ""; AdvertiseDataAddr := ""; DataDir := ""; Peers := ∅;
       BootstrapTimeoutMs := 0; ReconcileIntervalMs := 1; LeaderCheckIntervalMs := 1; EagerReconcileOnCreate := false |}
    w3 w3_Inv) "t" 4 (w_race []) (Ok tt)); [vm_compute; split; congruence|exact He].
Defined.

(** The topic is deleted and created anew, smaller, while it is being extended. *)
Definition recreate : list (option MetadataCommand) := [Some (CmdDeleteTopic (Some "t")); Some (c_topic 1 [[2; 1]])].

Lemma recreate_env : rtc (env_with (fun _ _ => True)) w3 {| w_log := log3 ++ recreate; w_applied := 3 |}.
Proof.
  eapply rtc_l; [|eapply rtc_l; [|constructor]].
  - apply (env_commit _ w3 (after log3) (Some (CmdDeleteTopic (Some "t")))
      (after (log3 ++ [Some (CmdDeleteTopic (Some "t"))])) OKResult);
      [apply replay_follows; vm_compute; reflexivity|done|vm_compute; reflexivity].
  - apply (env_commit _ {| w_log := log3 ++ [Some (CmdDeleteTopic (Some "t"))]; w_applied := 3 |}
      (after (log3 ++ [Some (CmdDeleteTopic (Some "t"))])) (Some (c_topic 1 [[2; 1]])) (after (log3 ++ recreate)) OKResult);
      [apply replay_follows; vm_compute; reflexivity|done|vm_compute; reflexivity].
Qed.

(** What deletions can do. [AlterTopicPartitionCount] computes the new replicas from a lookup and
    the state machine does not check how many it is given: when the topic is deleted and created
    again with fewer partitions in between, the call succeeds and the topic has partitions
    without any replica, which no node will ever run. *)
Theorem alter_race_unplaced :
  exists w' s p, exec sem (env_with (fun _ _ => True)) (AlterTopicPartitionCount "t" 4) w3 w' (Ok tt) /\
    head w' s /\ Partitions s !! PKey "t" 3 = Some p /\ ReplicaNodeIDs p = [].
Proof.
  exists (w_race recreate), (after (w_log (w_race recreate))). eexists. split_and!.
  - apply (alter_runs _ recreate (after (log3 ++ recreate))); [exact recreate_env|vm_compute; reflexivity..].
  - apply replay_follows. vm_compute. reflexivity.
  - vm_compute. reflexivity.
  - reflexivity.
Qed.

End ClusterPlace.
