(* ===== verification/ApiData.v ===== *)
(** * The data API

    internal/api/data: validation of produced batches, the RPC handlers over the coordinator
    interfaces, and the mapping of coordinator errors to gRPC statuses. The handlers are written
    against the classes [DataCoordinatorIface] and [GroupCoordinatorIface] of coordinator.go; the
    instances are the coordinators of DataCoord.v and GroupCoord.v. *)

From S2P Require Import Prelude Hash Batch LogSegment BatchLog Keys Metadata Prog Storage Partition GroupCoord DataCoord.
Local Open Scope Z_scope.

Module ApiData.
Import Keys.

(** ** Statuses *)

Inductive code := InvalidArgument | FailedPrecondition | OutOfRange | NotFound | Internal | Canceled | DeadlineExceeded.

(** [BunnyErrorCode] of errors.proto, as far as this package uses it. *)
Inductive BunnyErrorCode :=
| INVALID_MESSAGE_FORMAT | BATCH_TOO_LARGE | NOT_LEADER | OFFSET_OUT_OF_RANGE | OFFSET_NOT_FOUND
| NOT_GROUP_MEMBER | STALE_GENERATION.

(** A gRPC status with the details the handlers attach; the leader detail has the node id and
    the address. *)
Record status := { st_code : code; st_bunny : option BunnyErrorCode; st_leader : option (Z * string) }.

Definition plain (c : code) : status := {| st_code := c; st_bunny := None; st_leader := None |}.
Definition detailed (c : code) (b : BunnyErrorCode) : status := {| st_code := c; st_bunny := Some b; st_leader := None |}.

(** What an RPC answers. *)
Inductive reply (A : Type) :=
| Reply (a : A)
| Status (st : status)
| Crash (p : panic)
| NoFuel.
Arguments Reply {A} _.
Arguments Status {A} _.
Arguments Crash {A} _.
Arguments NoFuel {A}.

(** A coordinator call whose errors are mapped to statuses. *)
Definition rpc {E A B} (m : prog E (outcome A)) (map_error : error -> status) (k : A -> B) : prog E (reply B) :=
  o ← m;
  Ret match o with
      | Ok a => Reply (k a)
      | Err e => Status (map_error e)
      | Panic p => Crash p
      | OutOfFuel => NoFuel
      end.

(** ** Validation *)

Definition maxBatchBytes : Z := 4 * 1024 * 1024.

Definition invalidFormat : status := detailed InvalidArgument INVALID_MESSAGE_FORMAT.

(** [None] is a batch that passes. *)
Definition validateBatch (data : list byte) : outcome (option status) :=
  if len data <? 38 then Ok (Some invalidFormat) else
  batchLength ← getUint32 data 8;
  if (batchLength <? 38) || (batchLength >? len data) then Ok (Some invalidFormat) else
  if len data >? maxBatchBytes then Ok (Some (detailed InvalidArgument BATCH_TOO_LARGE)) else
  records ← slice data 38 batchLength;
  crc ← getUint32 data 16;
  if negb (Crc32.Checksum records Crc32.crcTable =? crc) then Ok (Some invalidFormat) else Ok None.

(** ** Errors *)

Definition mapGroupError (e : error) : status :=
  if errors_is e GroupCoord.sNotGroupMember then detailed NotFound NOT_GROUP_MEMBER else
  if errors_is e GroupCoord.sStaleGeneration then detailed FailedPrecondition STALE_GENERATION else
  if errors_is e GroupCoord.sInvalidArgument then plain InvalidArgument else
  plain Internal.

Definition mapDataError (e : error) : status :=
  match errors_as_notLeader e with
  | Some (node, addr) =>
      {| st_code := FailedPrecondition; st_bunny := Some NOT_LEADER; st_leader := Some (node, addr) |}
  | None =>
      if errors_is e DataCoord.sOffsetOutOfRange then detailed OutOfRange OFFSET_OUT_OF_RANGE else
      if errors_is e DataCoord.sOffsetNotFound then detailed NotFound OFFSET_NOT_FOUND else
      plain Internal
  end.

Definition notLeaderStatus (leaderAddr : string) : status :=
  {| st_code := FailedPrecondition; st_bunny := Some NOT_LEADER; st_leader := Some (0, leaderAddr) |}.

(** ** The coordinator interfaces *)

Class DataCoordinatorIface (E : Type -> Type) := {
  dc_Produce : string -> Z -> list byte -> DataCoord.AcksMode -> prog E (outcome Z);
  dc_Fetch : string -> Z -> Z -> Z -> Z -> prog E (outcome (list byte * Z));
  dc_GetEarliestOffset : string -> Z -> prog E (outcome Z);
  dc_GetLatestOffset : string -> Z -> prog E (outcome Z);
  dc_GetOffsetByTimestamp : string -> Z -> Z -> prog E (outcome Z)
}.

Class GroupCoordinatorIface (E : Type -> Type) := {
  gc_JoinGroup : GroupCoord.JoinGroupRequest -> prog E (outcome GroupCoord.JoinGroupResponse);
  gc_LeaveGroup : string -> string -> prog E (outcome unit);
  gc_Heartbeat : string -> string -> Z -> prog E (outcome bool);
  gc_CommitOffset : string -> string -> Z -> gmap TopicPartition Z -> prog E (outcome unit);
  gc_FetchCommittedOffsets : string -> list TopicPartition -> prog E (outcome (gmap TopicPartition Z))
}.

(** The coordinators of this repository; [fuel] bounds the wake-ups of a long poll. *)
#[export] Instance DataCoordinator (config : DataCoord.DataCoordinatorConfig) (fuel : nat)
  : DataCoordinatorIface DataCoord.dataE := {
  dc_Produce := DataCoord.Produce config;
  dc_Fetch := DataCoord.Fetch config fuel;
  dc_GetEarliestOffset := DataCoord.GetEarliestOffset config;
  dc_GetLatestOffset := DataCoord.GetLatestOffset config;
  dc_GetOffsetByTimestamp := DataCoord.GetOffsetByTimestamp config
}.

#[export] Instance GroupCoordinator (config : GroupCoord.GroupCoordinatorConfig)
  : GroupCoordinatorIface GroupCoord.groupE := {
  gc_JoinGroup := GroupCoord.JoinGroup config;
  gc_LeaveGroup := GroupCoord.LeaveGroup;
  gc_Heartbeat := GroupCoord.Heartbeat;
  gc_CommitOffset := GroupCoord.CommitOffset;
  gc_FetchCommittedOffsets := GroupCoord.FetchCommittedOffsets
}.

(** ** Produce, fetch and offsets *)

Definition defaultFetchMaxBytes : Z := 1 * 1024 * 1024.
Definition defaultSessionTimeoutMs : Z := 30000.
Definition defaultHeartbeatIntervalMs : Z := 3000.

Inductive OffsetQueryType := EARLIEST | LATEST | BY_TIMESTAMP | UNKNOWN_QUERY.

Section data.
Context {E : Type -> Type} `{DataCoordinatorIface E}.

Definition Produce (topic : string) (partitionID : Z) (batchData : list byte) (acksZero : bool)
  : prog E (reply (Z * Z)) :=
  match validateBatch batchData with
  | Ok (Some st) => Ret (Status st)
  | Ok None =>
      let acks := if acksZero then DataCoord.AcksZero else DataCoord.AcksAll in
      rpc (dc_Produce topic partitionID batchData acks) mapDataError (fun offset => (partitionID, offset))
  | Err _ => Ret (Status (plain Internal))
  | Panic p => Ret (Crash p)
  | OutOfFuel => Ret NoFuel
  end.

(** [ctxErr] is [ctx.Err()] after a failed fetch, as the status made from it. *)
Definition Fetch (topic : string) (partitionID offset maxBytes maxWaitMs : Z) (ctxErr : option code)
  : prog E (reply (list byte * Z)) :=
  if offset <? 0 then Ret (Status (plain InvalidArgument)) else
  let maxBytes := if maxBytes <=? 0 then defaultFetchMaxBytes else maxBytes in
  rpc (dc_Fetch topic partitionID offset maxBytes maxWaitMs)
    (fun e => match ctxErr with Some c => plain c | None => mapDataError e end)
    (fun r => if len r.1 =? 0 then ([], offset) else r).

Definition GetOffsets (topic : string) (partitionID : Z) (queryType : OffsetQueryType) (timestampMs : Z)
  : prog E (reply Z) :=
  match queryType with
  | EARLIEST => rpc (dc_GetEarliestOffset topic partitionID) mapDataError id
  | LATEST => rpc (dc_GetLatestOffset topic partitionID) mapDataError id
  | BY_TIMESTAMP => rpc (dc_GetOffsetByTimestamp topic partitionID timestampMs) mapDataError id
  | UNKNOWN_QUERY => Ret (Status (plain InvalidArgument))
  end.
End data.

(** ** Consumer groups *)

Section group.
Context {E : Type -> Type} `{GroupCoordinatorIface E}.
(** [isMetadataLeader]: whether this node leads the metadata shard, and who does. *)
Variable isMetadataLeader : bool * string.

Definition on_leader {A} (k : prog E (reply A)) : prog E (reply A) :=
  if negb isMetadataLeader.1 then Ret (Status (notLeaderStatus isMetadataLeader.2)) else k.

Definition JoinGroup (groupID memberID : string) (topics : list string) (sessionTimeoutMs heartbeatIntervalMs : Z)
  : prog E (reply GroupCoord.JoinGroupResponse) :=
  on_leader (
    let sessionTimeoutMs := if sessionTimeoutMs =? 0 then defaultSessionTimeoutMs else sessionTimeoutMs in
    let heartbeatIntervalMs := if heartbeatIntervalMs =? 0 then defaultHeartbeatIntervalMs else heartbeatIntervalMs in
    rpc (gc_JoinGroup
      {| GroupCoord.jq_GroupID := groupID; GroupCoord.jq_MemberID := memberID; GroupCoord.jq_Topics := topics;
         GroupCoord.jq_SessionTimeoutMs := sessionTimeoutMs;
         GroupCoord.jq_HeartbeatIntervalMs := heartbeatIntervalMs |}) mapGroupError id).

(** [true] is HEARTBEAT_REBALANCE_REQUIRED. *)
Definition Heartbeat (groupID memberID : string) (generationID : Z) : prog E (reply bool) :=
  on_leader (rpc (gc_Heartbeat groupID memberID generationID) mapGroupError id).

Definition LeaveGroup (groupID memberID : string) : prog E (reply unit) :=
  on_leader (rpc (gc_LeaveGroup groupID memberID) mapGroupError id).

(** The offsets of the request in order; of two entries for a partition the later one counts. *)
Definition CommitOffset (groupID memberID : string) (generationID : Z) (offsets : list (TopicPartition * Z))
  : prog E (reply unit) :=
  on_leader (
    let m := fold_left (fun m po => <[po.1 := po.2]> m) offsets (∅ : gmap TopicPartition Z) in
    rpc (gc_CommitOffset groupID memberID generationID m) mapGroupError id).

(** The answer lists the entries of the result map in some order. *)
Definition FetchCommittedOffsets (groupID : string) (partitions : list TopicPartition)
  : prog E (reply (list (TopicPartition * Z))) :=
  on_leader (rpc (gc_FetchCommittedOffsets groupID partitions) mapGroupError (fun m => map_to_list m)).
End group.

(** ** Validation, in terms of well-formed batches *)

Lemma validate_spec data :
  exists r, validateBatch data = Ok r /\
    (r = None <-> 38 <= len data <= maxBatchBytes /\ 38 <= be_Z (sub data 8 12) <= len data /\
       Crc32.Checksum (sub data 38 (be_Z (sub data 8 12))) Crc32.crcTable = be_Z (sub data 16 20)).
Proof.
  unfold validateBatch. destruct (Z.ltb_spec (len data) 38).
  { eexists. split; [done|]. split; [done|lia]. }
  rewrite BatchLog.get_len by lia. cbn [mbind outcome_bind]. rewrite !Z.gtb_ltb.
  destruct (Z.ltb_spec (be_Z (sub data 8 12)) 38); cbn [orb]; [eexists; split; [done|]; split; [done|lia]|].
  destruct (Z.ltb_spec (len data) (be_Z (sub data 8 12))); [eexists; split; [done|]; split; [done|lia]|].
  destruct (Z.ltb_spec maxBatchBytes (len data)); [eexists; split; [done|]; split; [done|lia]|].
  rewrite slice_Ok by lia. cbn [mbind outcome_bind]. rewrite BatchLog.get_crc by lia. cbn [mbind outcome_bind].
  unfold BatchLog.batch_crc.
  destruct (Z.eqb_spec (Crc32.Checksum (sub data 38 (be_Z (sub data 8 12))) Crc32.crcTable) (be_Z (sub data 16 20)));
    cbn [negb]; (eexists; split; [done|]); split; try done; intros (_ & _ & ?); done.
Qed.

End ApiData.
