(* ===== verification/DataRun.v ===== *)
(** * The data path, end to end

    The data coordinator and the data API on a node: the local metadata replica, the partition
    state machines of the shards it runs, the shard registry, the address cache and the clock.
    A record batch that a producer encodes passes validation, is replicated and stored at the
    end of the partition's log, and a fetch at the offset the producer was told returns it
    ([api_produce_fetch]); requests to a node that is not the leader are sent to the leader
    ([request_not_leader]); a long poll, run among appends and retention, misses no batch
    ([no_lost_wakeup]). What validation lets through beyond the batches of a producer is shown
    last ([trailing_bytes_lose_batches]). *)

From S2P Require Import Prelude Hash Batch LogSegment BatchLog Keys Metadata Prog Segment Recovery Storage StorageOpen StorageCut StorageExamples Partition GroupCoord DataCoord ApiData.
Local Open Scope Z_scope.

Module DataRun.
Import Keys BatchLog Seg.

Record node := {
  n_meta : Metadata.MetadataState;
  n_shards : gmap Z Partition.PartitionFSM;
  n_registry : gmap PartitionKey DataCoord.shardEntry;
  n_cache : gmap Z DataCoord.nodeAddrEntry;
  n_clock : Z;
  n_index : Z   (** the next raft index *)
}.

Definition set_shard (n : node) (shard : Z) (p : Partition.PartitionFSM) : node :=
  {| n_meta := n_meta n; n_shards := <[shard := p]> (n_shards n); n_registry := n_registry n; n_cache := n_cache n;
     n_clock := n_clock n; n_index := n_index n + 1 |}.
Definition set_registry (n : node) r : node :=
  {| n_meta := n_meta n; n_shards := n_shards n; n_registry := r; n_cache := n_cache n; n_clock := n_clock n;
     n_index := n_index n |}.
Definition set_cache (n : node) c : node :=
  {| n_meta := n_meta n; n_shards := n_shards n; n_registry := n_registry n; n_cache := c; n_clock := n_clock n;
     n_index := n_index n |}.
Definition set_clock (n : node) c : node :=
  {| n_meta := n_meta n; n_shards := n_shards n; n_registry := n_registry n; n_cache := n_cache n; n_clock := c;
     n_index := n_index n |}.

Section node.
Variable cfg : StorageConfig.
Variable unmarshal : list byte -> option (Z * Z).

(** A proposal on a shard of this node: committed and applied at the next index. *)
Definition propose (n : node) (shard : Z) (cmd : Partition.PartitionCommand) : outcome Z * node :=
  match n_shards n !! shard with
  | None => (Err (ErrNew "shard not found"), n)
  | Some p =>
      match Partition.Update unmarshal cfg p [{| Partition.Index := n_index n; Partition.Cmd := Partition.Marshal cmd |}] with
      | (p', Ok [v]) => (Ok v, set_shard n shard p')
      | (p', _) => (Err (ErrNew "timeout"), set_shard n shard p')
      end
  end.

(** Requests on a host that does not fail and without other processes: a wait ends when its
    channel is closed, else when the time is over. Channels are numbered per storage, and the wait
    does not know of which one its channel is, so it also ends when another shard has closed a
    channel of that number; this only sends the poll round its loop once more. Waits of one storage
    among other goroutines are the subject of [no_lost_wakeup]. *)
Definition handle X (e : DataCoord.dataE X) : node -> X * node :=
  match e in DataCoord.dataE X return node -> X * node with
  | DataCoord.DLookupMetadata q => fun n =>
      (match Metadata.Lookup (n_meta n) q with
       | Ok (Metadata.AGroupState None) => Ok None
       | Ok a => Ok (Some a)
       | Err e => Err e
       | Panic p => Panic p
       | OutOfFuel => OutOfFuel
       end, n)
  | DataCoord.DLookupPartition shard q => fun n =>
      (match n_shards n !! shard with
       | None => Err (ErrNew "shard not found")
       | Some p => Partition.Lookup p q
       end, n)
  | DataCoord.DSyncPropose shard cmd => fun n => propose n shard cmd
  | DataCoord.DPropose shard cmd => fun n =>
      let '(r, n') := propose n shard cmd in
      (match r with Ok _ => Ok tt | Err e => Err e | Panic p => Panic p | OutOfFuel => OutOfFuel end, n')
  | DataCoord.DNow => fun n => (n_clock n, n)
  | DataCoord.DSelect ch remaining => fun n =>
      if existsb (fun sp => match Partition.storage sp.2 with Some s => Storage.ch_closed s ch | None => false end)
           (map_to_list (n_shards n))
      then (DataCoord.WakeData, n) else (DataCoord.WakeTimeout, set_clock n (n_clock n + remaining))
  | DataCoord.DRegistry => fun n => (n_registry n, n)
  | DataCoord.DSetRegistry f => fun n => (tt, set_registry n (f (n_registry n)))
  | DataCoord.DCache => fun n => (n_cache n, n)
  | DataCoord.DSetCache f => fun n => (tt, set_cache n (f (n_cache n)))
  end.

Variable config : DataCoord.DataCoordinatorConfig.

(** This node leads the partition and runs its shard. *)
Record leads (n : node) (topic : string) (id shard : Z) (p : Partition.PartitionFSM) : Prop := {
  ld_meta : exists pm, Metadata.Partitions (n_meta n) !! PKey topic id = Some pm /\
    Metadata.LeaderNodeID pm = DataCoord.dcNodeID config;
  ld_registry : exists e, n_registry n !! PKey topic id = Some e /\ DataCoord.se_ShardID e = shard;
  ld_shard : n_shards n !! shard = Some p
}.

Lemma run_leaderCheck n topic id shard p :
  leads n topic id shard p -> run handle (DataCoord.leaderCheck config topic id) n = (Ok shard, n).
Proof.
  intros [(pm & Hpm & Hl) (e & He & <-) _]. unfold DataCoord.leaderCheck.
  rewrite run_bind, run_trigger. cbn [handle Metadata.Lookup]. rewrite Hpm. cbn [Metadata.found].
  unfold DataCoord.check_leader. rewrite Hl, Z.eqb_refl. cbn [negb].
  rewrite run_bind, run_trigger. cbn [handle]. by rewrite He.
Qed.

(** A produce with full acknowledgement, up to the state machine of the shard. *)
Lemma run_Produce n topic id shard p off l b :
  cfg_ok cfg -> leads n topic id shard p -> Partition.fsm_live cfg p off l -> wf_batch b ->
  end_off off l + batch_count b < 2 ^ 63 -> in_u64 (n_index n) ->
  exists p', run handle (DataCoord.Produce config topic id b DataCoord.AcksAll) n =
      (Ok (end_off off l), set_shard n shard p') /\
    Partition.fsm_ok cfg p' off (l ++ [Batch.withBaseOffset b (end_off off l)]) (n_index n).
Proof.
  intros Hcfg Hl Hok Hwf Hend Hi. pose proof Hok as [(s & _ & Hrep) _].
  pose proof (Storage.represents_log _ _ _ _ Hrep) as (_ & Hlat & _ & H0 & Hmax). pose proof (end_off_mono off l).
  set (e := {| Partition.Index := n_index n; Partition.Cmd := Partition.Marshal (DataCoord.append_cmd b) |}).
  destruct (Partition.update_ok unmarshal cfg p off l [e] [b] Hcfg Hok) as (p' & Hu & Hok');
    [done|by repeat constructor|by apply Forall_singleton|done|cbn; lia|].
  exists p'. split; [|exact Hok'].
  unfold DataCoord.Produce. rewrite run_call, (run_leaderCheck _ _ _ _ _ Hl), run_call, run_trigger.
  cbn [handle]. unfold propose. rewrite (ld_shard _ _ _ _ _ Hl). fold e. rewrite Hu. cbn [Partition.offsets_from].
  cbn [run]. rewrite i64_u64, i64_id by (unfold in_i64; lia). done.
Qed.

Lemma leads_set n topic id shard p p' :
  leads n topic id shard p -> leads (set_shard n shard p') topic id shard p'.
Proof. intros [H1 H2 H3]. constructor; [exact H1|exact H2|apply lookup_insert_eq]. Qed.

Lemma validate_encoded records enc :
  Batch.EncodeBatch records = Ok enc -> len enc <= ApiData.maxBatchBytes -> ApiData.validateBatch enc = Ok None /\ wf_batch enc.
Proof.
  intros He Hl. assert (len enc <= BatchLog.maxBatchBytes) as Hl' by (unfold ApiData.maxBatchBytes, BatchLog.maxBatchBytes in *; lia).
  pose proof (EncodeBatch_wf _ _ He Hl') as Hwf. split; [|done]. destruct (ApiData.validate_spec enc) as (r & -> & Hr).
  f_equal. apply Hr. pose proof Hwf as ([_ Hf] & Hlen & _ & Hcrc). rewrite Hf. split_and!; try lia.
  symmetry. exact Hcrc.
Qed.

(** End to end through the API. On the node that leads a partition, records encoded by a producer
    are accepted, the answer is the offset at the end of the log, and a fetch at that offset
    returns data that decodes to exactly these records under that offset, with the next offset to
    ask for; this holds for every log, fetch size and long-poll bound. *)
Theorem api_produce_fetch fuel n topic id shard p off l records enc maxBytes :
  cfg_ok cfg -> leads n topic id shard p -> Partition.fsm_live cfg p off l ->
  Batch.EncodeBatch records = Ok enc -> len enc <= ApiData.maxBatchBytes ->
  Forall (fun r => in_i64 (Batch.TimestampMs r)) records -> end_off off l + len records < 2 ^ 63 -> in_u64 (n_index n) ->
  let coordinator := ApiData.DataCoordinator config fuel in
  let base := end_off off l in
  exists n' data b, run handle (ApiData.Produce topic id enc false) n = (ApiData.Reply (id, base), n') /\
    run handle (ApiData.Fetch topic id base maxBytes 0 None) n' = (ApiData.Reply (data, base + len records), n') /\
    Batch.DecodeBatch data = Ok b /\ Batch.BaseOffset (Batch.bHeader b) = base /\ Batch.bRecords b = records.
Proof.
  intros Hcfg Hl Hok Henc Hlen Hts Hend Hi. cbv zeta. destruct (validate_encoded _ _ Henc Hlen) as [Hv Hwf].
  assert (len enc <= BatchLog.maxBatchBytes) as Hlen' by (unfold ApiData.maxBatchBytes, BatchLog.maxBatchBytes in *; lia).
  pose proof (StorageExamples.encoded_count _ _ Henc Hlen') as Hcnt.
  destruct (run_Produce n topic id shard p off l enc Hcfg Hl Hok Hwf ltac:(lia) Hi) as (p' & HP & Hok').
  pose proof Hok' as [(s' & Hs' & Hrep' & _) _ Hop].
  pose proof (Storage.represents_log _ _ _ _ Hrep') as (_ & _ & _ & H0 & _). pose proof (end_off_mono off l).
  set (mb := if maxBytes <=? 0 then ApiData.defaultFetchMaxBytes else maxBytes).
  destruct (StorageExamples.read_encoded cfg s' off l records enc mb Hcfg Hrep' Henc Hlen' Hts)
    as (data & b & HR & Hdec & Hb & Hr).
  exists (set_shard n shard p'), data, b. split_and!; try done.
  - unfold ApiData.Produce. rewrite Hv. unfold ApiData.rpc. rewrite run_bind. cbn [ApiData.dc_Produce ApiData.DataCoordinator].
    rewrite HP. done.
  - unfold ApiData.Fetch. rewrite (proj2 (Z.ltb_ge _ _)) by lia. fold mb. unfold ApiData.rpc. rewrite run_bind.
    cbn [ApiData.dc_Fetch ApiData.DataCoordinator]. unfold DataCoord.Fetch.
    rewrite run_call, (run_leaderCheck _ _ _ _ _ (leads_set _ _ _ _ _ p' Hl)). cbn [Z.eqb].
    unfold DataCoord.read_batches. rewrite run_call, run_trigger. cbn [handle].
    rewrite (ld_shard _ _ _ _ _ (leads_set _ _ _ _ _ p' Hl)). unfold Partition.Lookup. rewrite Hop, Hs', HR.
    cbn [mbind outcome_bind run fst Partition.Batches Partition.NextOffset].
    destruct (Z.eqb_spec (len data) 0) as [E|]; [|done].
    exfalso. destruct data; [|len_lia]. vm_compute in Hdec. discriminate.
Qed.

(** ** Requests to a node that is not the leader *)

Definition nodes_ok (s : Metadata.MetadataState) : Prop :=
  forall k ni, Metadata.Nodes s !! k = Some ni -> Metadata.NodeID ni = k.

Definition address_of (s : Metadata.MetadataState) (id : Z) : string :=
  match Metadata.Nodes s !! id with Some ni => Metadata.Address ni | None => "" end.

Lemma find_address_unique nodes id ni :
  (forall x y, x ∈ nodes -> y ∈ nodes -> Metadata.NodeID x = Metadata.NodeID y -> x = y) ->
  ni ∈ nodes -> Metadata.NodeID ni = id -> DataCoord.find_address nodes id = Metadata.Address ni.
Proof.
  induction nodes as [|x nodes IH]; intros Hu Hin Hid; [by apply not_elem_of_nil in Hin|].
  cbn [DataCoord.find_address]. destruct (Z.eqb_spec (Metadata.NodeID x) id) as [E|E].
  - f_equal. apply Hu; [apply elem_of_cons; auto|done|congruence].
  - apply elem_of_cons in Hin as [->|Hin]; [done|]. apply IH; [|done|done].
    intros a b Ha Hb. apply Hu; apply elem_of_cons; auto.
Qed.

Lemma find_address_none nodes id : (forall x, x ∈ nodes -> Metadata.NodeID x <> id) -> DataCoord.find_address nodes id = "".
Proof.
  induction nodes as [|x nodes IH]; intros H; [done|]. cbn [DataCoord.find_address].
  destruct (Z.eqb_spec (Metadata.NodeID x) id) as [E|E]; [exfalso; apply (H x); [apply elem_of_cons; auto|done]|].
  apply IH. intros y Hy. apply H, elem_of_cons. auto.
Qed.

Lemma listed_address s id : nodes_ok s -> DataCoord.find_address (Metadata.listNodes s) id = address_of s id.
Proof.
  intros Hok. assert (forall x, x ∈ Metadata.listNodes s <-> Metadata.Nodes s !! Metadata.NodeID x = Some x) as Hl.
  { intros x. unfold Metadata.listNodes. rewrite merge_sort_Permutation, list_elem_of_fmap. split.
    - intros ((k & ni) & -> & Hin%elem_of_map_to_list). cbn. by rewrite (Hok _ _ Hin).
    - intros Hx. exists (Metadata.NodeID x, x). split; [done|]. by apply elem_of_map_to_list. }
  unfold address_of. destruct (Metadata.Nodes s !! id) as [ni|] eqn:E.
  - pose proof (Hok _ _ E) as Hid. apply find_address_unique; [|by apply Hl; rewrite Hid|done].
    intros x y Hx%Hl Hy%Hl Exy. rewrite Exy in Hx. congruence.
  - apply find_address_none. intros x Hx%Hl Hid. rewrite Hid in Hx. congruence.
Qed.

Lemma run_nodeAddress n id :
  nodes_ok (n_meta n) -> n_cache n !! id = None ->
  exists c, run handle (DataCoord.nodeAddress config id) n = (address_of (n_meta n) id, set_cache n c).
Proof.
  intros Hok Hc. unfold DataCoord.nodeAddress. rewrite run_bind, run_trigger. cbn [handle].
  rewrite run_bind, run_trigger. cbn [handle]. unfold DataCoord.cached. rewrite Hc.
  rewrite run_bind, run_trigger. cbn [handle Metadata.Lookup]. rewrite run_bind, run_trigger. cbn [handle].
  rewrite run_bind, run_trigger. cbn [handle run]. rewrite listed_address by done. eauto.
Qed.

(** A produce, fetch or offset request for a partition that another node leads is refused
    with NOT_LEADER, the leader's id and the address it registered, and changes nothing but the
    address cache. *)
Theorem request_not_leader fuel n topic id pm batch maxBytes maxWait :
  Metadata.Partitions (n_meta n) !! PKey topic id = Some pm -> Metadata.LeaderNodeID pm <> DataCoord.dcNodeID config ->
  nodes_ok (n_meta n) -> n_cache n !! Metadata.LeaderNodeID pm = None ->
  ApiData.validateBatch batch = Ok None ->
  let coordinator := ApiData.DataCoordinator config fuel in
  let st := {| ApiData.st_code := ApiData.FailedPrecondition; ApiData.st_bunny := Some ApiData.NOT_LEADER;
               ApiData.st_leader := Some (Metadata.LeaderNodeID pm, address_of (n_meta n) (Metadata.LeaderNodeID pm)) |} in
  exists c, forall acks offset, 0 <= offset ->
    run handle (ApiData.Produce topic id batch acks) n = (ApiData.Status st, set_cache n c) /\
    run handle (ApiData.Fetch topic id offset maxBytes maxWait None) n = (ApiData.Status st, set_cache n c) /\
    run handle (ApiData.GetOffsets topic id ApiData.LATEST 0) n = (ApiData.Status st, set_cache n c).
Proof.
  intros Hpm Hne Hok Hc Hv. cbv zeta. destruct (run_nodeAddress n _ Hok Hc) as [c Hrun]. exists c.
  assert (run handle (DataCoord.leaderCheck config topic id) n =
    (Err (ErrNotLeader (Metadata.LeaderNodeID pm) (address_of (n_meta n) (Metadata.LeaderNodeID pm))), set_cache n c)) as Hlc.
  { unfold DataCoord.leaderCheck. rewrite run_bind, run_trigger. cbn [handle Metadata.Lookup]. rewrite Hpm.
    cbn [Metadata.found]. unfold DataCoord.check_leader. rewrite (proj2 (Z.eqb_neq _ _)) by done. cbn [negb].
    rewrite run_bind, Hrun. done. }
  intros acks offset Ho. split_and!.
  - unfold ApiData.Produce, ApiData.rpc. rewrite Hv, run_bind. cbn [ApiData.dc_Produce ApiData.DataCoordinator].
    unfold DataCoord.Produce. by rewrite run_call, Hlc.
  - unfold ApiData.Fetch, ApiData.rpc. rewrite (proj2 (Z.ltb_ge _ _)), run_bind by lia.
    cbn [ApiData.dc_Fetch ApiData.DataCoordinator]. unfold DataCoord.Fetch. by rewrite run_call, Hlc.
  - unfold ApiData.GetOffsets, ApiData.rpc. rewrite run_bind. cbn [ApiData.dc_GetLatestOffset ApiData.DataCoordinator].
    unfold DataCoord.GetLatestOffset. by rewrite run_call, Hlc.
Qed.

(** What clients see of two ordinary failures: a fetch below the start of the log (which
    retention moves) and a request for a partition that does not exist both answer with a plain
    internal error, because the storage's out-of-range error is not the one the API maps and an
    unknown partition is reported as unavailable. *)
Theorem failures_are_internal fuel n topic id shard p off l idx offset maxBytes batch acks :
  cfg_ok cfg -> leads n topic id shard p -> Partition.fsm_ok cfg p off l idx -> 0 <= offset < off ->
  ApiData.validateBatch batch = Ok None ->
  let coordinator := ApiData.DataCoordinator config fuel in
  run handle (ApiData.Fetch topic id offset maxBytes 0 None) n = (ApiData.Status (ApiData.plain ApiData.Internal), n) /\
  forall topic' id', Metadata.Partitions (n_meta n) !! PKey topic' id' = None ->
    run handle (ApiData.Produce topic' id' batch acks) n = (ApiData.Status (ApiData.plain ApiData.Internal), n).
Proof.
  intros Hcfg Hl [(s & Hs & Hrep & _) _ Hop] Ho Hv. cbv zeta. split.
  - unfold ApiData.Fetch. rewrite (proj2 (Z.ltb_ge _ _)) by lia. unfold ApiData.rpc. rewrite run_bind.
    cbn [ApiData.dc_Fetch ApiData.DataCoordinator]. unfold DataCoord.Fetch.
    rewrite run_call, (run_leaderCheck _ _ _ _ _ Hl). cbn [Z.eqb].
    unfold DataCoord.read_batches. rewrite run_call, run_trigger. cbn [handle].
    rewrite (ld_shard _ _ _ _ _ Hl). unfold Partition.Lookup. rewrite Hop, Hs.
    pose proof (fun mb => proj1 (Storage.read_outside cfg s off l offset mb Hrep) ltac:(lia)) as HR.
    rewrite HR. done.
  - intros topic' id' Hnone. unfold ApiData.Produce, ApiData.rpc. rewrite Hv, run_bind.
    cbn [ApiData.dc_Produce ApiData.DataCoordinator]. unfold DataCoord.Produce, DataCoord.leaderCheck.
    rewrite run_call, run_bind, run_trigger. cbn [handle Metadata.Lookup]. rewrite Hnone. done.
Qed.

End node.

(** ** Waiting for data *)

Section waiting.
Variable cfg : StorageConfig.

(** How far an append in flight has come after it stored its batch: it has released the lock of
    the segments, then put a new channel in place of the old one, then closed the old one. *)
Inductive phase := Idle | Stored | Replaced.
Record world := { st : Storage.storageImpl; inflight : phase }.

(** The channel numbered [ch] is closed; the one just replaced is not yet. *)
Definition closed (w : world) (ch : Z) : bool :=
  match inflight w with
  | Replaced => ch <? Storage.dataCh (st w) - 1
  | _ => Storage.ch_closed (st w) ch
  end.

(** The world once the append in flight, if there is one, has returned. *)
Definition finish (w : world) : world :=
  {| st := match inflight w with Stored => Storage.set_dataCh (st w) (Storage.dataCh (st w) + 1) | _ => st w end;
     inflight := Idle |}.

(** What other goroutines do to a storage while a long poll runs: appends, which raft applies one
    after the other, in their three steps, changes of the retention limits, and deletions of the
    oldest segment. *)
Inductive storage_step : world -> world -> Prop :=
| step_store s b s' base :
    Storage.Append cfg s b = (s', Ok base) -> wf_batch b -> Storage.LatestOffset s + batch_count b < 2 ^ 63 ->
    storage_step {| st := s; inflight := Idle |} {| st := Storage.set_dataCh s' (Storage.dataCh s); inflight := Stored |}
| step_replace s :
    storage_step {| st := s; inflight := Stored |} {| st := Storage.set_dataCh s (Storage.dataCh s + 1); inflight := Replaced |}
| step_close s : storage_step {| st := s; inflight := Replaced |} {| st := s; inflight := Idle |}
| step_retention s ph ms bytes :
    storage_step {| st := s; inflight := ph |} {| st := Storage.SetRetentionConfig s ms bytes; inflight := ph |}
| step_delete s ph oldest second rest : Storage.segments s = oldest :: second :: rest ->
    storage_step {| st := s; inflight := ph |} {| st := Storage.delete_segment s (baseOffset oldest); inflight := ph |}.

(** The storage holds a log. *)
Definition intact (w : world) : Prop := exists off l, Storage.represents cfg (st w) off l.

Lemma set_dataCh_represents s off l n : Storage.represents cfg s off l -> Storage.represents cfg (Storage.set_dataCh s n) off l.
Proof. intros (segs & bss & act & bs & [] & E). exists segs, bss, act, bs. split; [by constructor|done]. Qed.

Lemma step_intact w w' : cfg_ok cfg -> storage_step w w' -> intact w -> intact w'.
Proof.
  intros Hcfg H (off & l & Hrep). destruct H as [s b s' base Ha Hb Hroom|s|s|s ph ms bytes|s ph oldest second rest Es]; cbn [st] in *.
  - destruct (Storage.append_represents cfg s off l b Hcfg Hrep Hb Hroom) as (s1 & E & Hrep' & _). rewrite Ha in E. injection E as <- _.
    eexists _, _. by apply set_dataCh_represents.
  - exists off, l. by apply set_dataCh_represents.
  - by exists off, l.
  - destruct Hrep as (segs & bss & act & bs & [] & E). exists off, l, segs, bss, act, bs. split; [by constructor|done].
  - destruct Hrep as (segs & bss & act & bs & Hok & E). pose proof (Storage.so_segments _ _ _ _ _ _ _ Hok) as E1. rewrite Es in E1.
    destruct segs as [|seg segs]; [done|]. injection E1 as <- _. pose proof (Storage.so_sealed _ _ _ _ _ _ _ Hok) as Hs.
    destruct bss as [|bs0 bss]; [done|]. eexists _, _, segs, bss, act, bs. split; [by eapply StorageCut.delete_oldest|done].
Qed.

Lemma steps_intact w w' : cfg_ok cfg -> rtc storage_step w w' -> intact w -> intact w'.
Proof. intros Hcfg. induction 1; eauto using step_intact. Qed.

Lemma step_channel w w' : cfg_ok cfg -> intact w -> storage_step w w' ->
  Storage.dataCh (st w) <= Storage.dataCh (st w') /\ Storage.dataCh (st (finish w)) <= Storage.dataCh (st (finish w')) /\
  (Storage.LatestOffset (st w) < Storage.LatestOffset (st w') -> Storage.dataCh (st w) < Storage.dataCh (st (finish w'))).
Proof.
  intros Hcfg (off & l & Hrep) H. unfold Storage.LatestOffset.
  destruct H as [s b s' base Ha Hb Hroom|s|s|s ph ms bytes|s ph oldest second rest Es]; cbn [st] in *; cbn; try lia.
  all: destruct ph; cbn; lia.
Qed.

(** A step that moves the end of the log leads to the close of the channel. *)
Lemma steps_channel w w' : cfg_ok cfg -> intact w -> rtc storage_step w w' ->
  Storage.dataCh (st w) <= Storage.dataCh (st w') /\ Storage.dataCh (st (finish w)) <= Storage.dataCh (st (finish w')) /\
  (Storage.LatestOffset (st w) < Storage.LatestOffset (st w') -> Storage.dataCh (st w) < Storage.dataCh (st (finish w'))).
Proof.
  intros Hcfg Hi H. induction H as [w|w w1 w' H1 H2 IH]; [lia|].
  pose proof (step_channel _ _ Hcfg Hi H1) as (A1 & A2 & A3). destruct (IH (step_intact _ _ Hcfg H1 Hi)) as (B1 & B2 & B3).
  split; [lia|]. split; [lia|]. intros Hlt.
  destruct (Z.lt_ge_cases (Storage.LatestOffset (st w)) (Storage.LatestOffset (st w1))) as [|Hge]; [lia|]. specialize (B3 ltac:(lia)). lia.
Qed.

(** A read that finds nothing is at the end of the log or after it. *)
Lemma read_nothing w offset maxBytes next :
  cfg_ok cfg -> intact w -> Storage.Read (st w) offset maxBytes = Ok ([], next) -> Storage.LatestOffset (st w) <= offset.
Proof.
  intros Hcfg (off & l & Hrep) HR. destruct (Z.le_gt_cases (Storage.LatestOffset (st w)) offset) as [|Hgt]; [done|exfalso].
  destruct (Z.lt_ge_cases offset off) as [Hlt|Hge].
  { pose proof (proj1 (Storage.read_outside cfg _ off l offset maxBytes Hrep) Hlt) as E. congruence. }
  pose proof (Storage.represents_log _ _ _ _ Hrep) as (Hc & _).
  destruct (Storage.read_inside cfg (st w) off l offset maxBytes Hcfg Hrep ltac:(lia)) as (pre & b & rest & post & -> & HR' & _).
  rewrite HR in HR'. injection HR' as E _. apply chain_app in Hc as [_ Hc]. destruct Hc as (Hwf & _).
  apply wf_len in Hwf. apply (f_equal len) in E. rewrite len_app in E. pose proof (len_nonneg (concat rest)).
  change (len (@nil byte)) with 0 in E. lia.
Qed.

(** *** The long poll among the other goroutines *)

Variables (config : DataCoord.DataCoordinatorConfig) (deadline : Z) (topic : string) (partitionID shardID offset maxBytes : Z).
Abbreviation poll := (prog DataCoord.dataE (outcome (list byte * Z))).
Abbreviation longPoll fuel := (DataCoord.longPoll config fuel deadline topic partitionID shardID offset maxBytes).

(** The answers to a request: the state machine of the shard looks into the storage as it is now,
    or the host fails; a wait ends with data only if its channel is closed; the clock, the metadata and
    everything else may answer anything. *)
Definition answers X (e : DataCoord.dataE X) : world -> X -> Prop :=
  match e in DataCoord.dataE X return world -> X -> Prop with
  | DataCoord.DLookupPartition shard q => fun w x =>
      shard = shardID -> (exists err, x = Err err) \/ exists p, Partition.storage p = Some (st w) /\ x = Partition.Lookup p q
  | DataCoord.DSelect ch remaining => fun w x => x = DataCoord.WakeData -> closed w ch = true
  | _ => fun _ _ => True
  end.

(** One turn: another goroutine makes a step, or the poll makes its next request. *)
Definition turn (c c' : poll * world) : Prop :=
  (c'.1 = c.1 /\ storage_step c.2 c'.2) \/
  match c.1 with
  | Ret _ => False
  | Vis e k => exists x, answers _ e c.2 x /\ c' = (k x, c.2)
  end.

(** What holds when the poll waits. *)
Definition at_select fuel X (e : DataCoord.dataE X) : (X -> poll) -> world -> Prop :=
  match e in DataCoord.dataE X return (X -> poll) -> world -> Prop with
  | DataCoord.DSelect ch _ => fun k w =>
      (offset < Storage.LatestOffset (st w) -> closed (finish w) ch = true) /\
      exists fuel', (fuel' < fuel)%nat /\ k DataCoord.WakeData = longPoll fuel'
  | _ => fun _ _ => True
  end.

(** Every wait the program comes to, among steps of the others, is such. *)
Fixpoint watched fuel (p : poll) (w : world) : Prop :=
  match p with
  | Ret _ => True
  | Vis e k => forall w1, rtc storage_step w w1 ->
      at_select fuel _ e k w1 /\ forall x, answers _ e w1 x -> watched fuel (k x) w1
  end.

Lemma watched_turns fuel c c' : rtc turn c c' -> watched fuel c.1 c.2 -> watched fuel c'.1 c'.2.
Proof.
  induction 1 as [c|[p w] [p1 w1] c' H _ IH]; [done|]. intros Hw. apply IH. clear IH. cbn [fst snd] in *. destruct H as [[Ep Hs]|H]; cbn [fst snd] in *; [subst p1|].
  - destruct p as [a|X e k]; [done|]. cbn [watched] in *. intros w2 H2. apply Hw. by econstructor.
  - destruct p as [a|X e k]; [done|]. destruct H as (x & Hx & [= -> ->]). destruct (Hw w (rtc_refl _ _)) as [_ Hk]. by apply Hk.
Qed.

Lemma turns_intact c c' : cfg_ok cfg -> rtc turn c c' -> intact c.2 -> intact c'.2.
Proof.
  intros Hcfg. induction 1 as [c|[p w] [p1 w1] c' H _ IH]; [done|]. intros Hi. apply IH. destruct H as [[_ Hs]|H]; cbn [fst snd] in *; [by eapply step_intact|].
  destruct p as [a|X e k]; [done|]. by destruct H as (x & _ & [= _ ->]).
Qed.

Ltac request x := cbn [mbind prog_bind trigger watched]; intros ? ?; split; [exact I|]; intros x ?.

Lemma watched_leader fuel pm (k : poll) w :
  (forall w', rtc storage_step w w' -> watched fuel k w') -> watched fuel (DataCoord.check_leader config pm k) w.
Proof.
  intros Hk. unfold DataCoord.check_leader. destruct (negb _); [|apply Hk; constructor]. unfold DataCoord.nodeAddress.
  request c. request now. destruct (DataCoord.cached _ _ _ _); [exact I|]. request r. destruct r as [[[]|]|e|q|]; try exact I.
  request now'. request u. exact I.
Qed.

(** The channel is taken before the read, so that a wait after an empty read ends with the append
    that stores the record. *)
Lemma longPoll_watched fuel n w : cfg_ok cfg -> intact w -> (n <= fuel)%nat -> watched fuel (longPoll n) w.
Proof.
  intros Hcfg. revert w. induction n as [|n IH]; intros w Hi Hn; [exact I|]. cbn [DataCoord.longPoll]. unfold call.
  cbn [mbind prog_bind trigger watched]. intros w1 H1. split; [exact I|]. intros now _. destruct (deadline - now <=? 0); [exact I|].
  cbn [mbind prog_bind watched]. intros w2 H2. split; [exact I|]. intros r Hr.
  assert (intact w2) as Hi2 by exact (steps_intact _ _ Hcfg H2 (steps_intact _ _ Hcfg H1 Hi)). specialize (Hr eq_refl).
  destruct r as [[]|e|q|]; try exact I. destruct Hr as [[e E]|(p & Ep & E)]; [done|].
  assert (ch = Storage.dataCh (st w2)) as ->.
  { unfold Partition.Lookup in E. rewrite Ep in E. destruct (Partition.fsm_closed p); [done|]. by injection E. }
  cbn [mbind prog_bind trigger watched]. intros w3 H3. split; [exact I|]. intros m _. destruct m as [[[]|]|e|q|]; try exact I.
  apply watched_leader. intros w4 H4. unfold DataCoord.read_batches, call.
  cbn [mbind prog_bind trigger watched]. intros w5 H5. split; [exact I|]. intros r' Hr. specialize (Hr eq_refl).
  assert (rtc storage_step w2 w5) as H25 by (do 2 (etrans; [done|]); done). pose proof (steps_intact _ _ Hcfg H25 Hi2) as Hi5.
  destruct r' as [[b| |]|e|q|]; try exact I. destruct (Z.ltb_spec 0 (len (Partition.Batches b))) as [|Hlen]; [exact I|].
  destruct Hr as [[e' E']|(p' & Ep' & E')]; [done|]. assert (Storage.LatestOffset (st w5) <= offset) as Hle.
  { unfold Partition.Lookup in E'. rewrite Ep' in E'. destruct (Partition.fsm_closed p'); [done|].
    destruct (Storage.Read (st w5) offset maxBytes) as [[data next]|e'|q|] eqn:ER; try done. injection E' as ->. cbn in Hlen.
    apply (read_nothing w5 offset maxBytes next Hcfg Hi5). by destruct data as [|x data]; [|rewrite len_cons in Hlen; pose proof (len_nonneg data); lia]. }
  cbn [mbind prog_bind watched]. intros w6 H6. destruct (steps_channel _ _ Hcfg Hi2 H25) as (C1 & _).
  destruct (steps_channel _ _ Hcfg Hi5 H6) as (_ & _ & C2). split.
  - split; [|exists n; split; [lia|done]]. intros Hlt. unfold closed, Storage.ch_closed. cbn [finish inflight]. apply Z.ltb_lt. lia.
  - intros [] _; [|exact I..]. apply IH; [|lia]. by eapply steps_intact.
Qed.

(** A read below the end of an intact log finds batches, or the offset has been dropped. *)
Lemma read_there w : cfg_ok cfg -> intact w -> offset < Storage.LatestOffset (st w) ->
  Storage.Read (st w) offset maxBytes = Err Storage.ErrOffsetOutOfRange \/
  exists data next, Storage.Read (st w) offset maxBytes = Ok (data, next) /\ 0 < len data.
Proof.
  intros Hcfg Hi Hlt. pose proof Hi as (off & l & Hrep). destruct (Z.lt_ge_cases offset off) as [Ho|Ho].
  - left. by apply (Storage.read_outside cfg _ off l offset maxBytes Hrep).
  - right. destruct (Storage.read_inside cfg (st w) off l offset maxBytes Hcfg Hrep ltac:(lia)) as (pre & b & rest & post & _ & HR & _).
    rewrite HR. eexists _, _. split; [done|]. pose proof (len_nonneg (concat (b :: rest))) as H0.
    destruct (Z.eq_dec (len (concat (b :: rest))) 0) as [E|]; [|lia]. destruct (concat (b :: rest)) as [|x d] eqn:Ed; [|rewrite len_cons in E; pose proof (len_nonneg d); lia].
    pose proof (read_nothing w offset maxBytes _ Hcfg Hi HR). lia.
Qed.

(** C33: A long poll misses no batch. Run [longPoll] among other goroutines that append batches (an
    append stores its batch, puts a new channel in place of the old one and closes the old one, as
    three steps), delete the oldest segments and change the retention limits of its storage, between
    any two of its requests, with any answers of the clock and of the metadata. Whenever it waits
    and there is a record at its offset or after it, the channel it waits on is closed, or will be by
    the append in flight when that returns. Woken, it goes round its loop and reads again, and such a read
    finds batches, or reports that retention has dropped the offset. *)
Theorem no_lost_wakeup fuel w0 ch remaining (k : DataCoord.wake -> poll) w :
  cfg_ok cfg -> intact w0 -> rtc turn (longPoll fuel, w0) (Vis (DataCoord.DSelect ch remaining) k, w) ->
  (exists fuel', (fuel' < fuel)%nat /\ k DataCoord.WakeData = longPoll fuel') /\
  (offset < Storage.LatestOffset (st w) ->
     closed (finish w) ch = true /\
     (Storage.Read (st w) offset maxBytes = Err Storage.ErrOffsetOutOfRange \/
      exists data next, Storage.Read (st w) offset maxBytes = Ok (data, next) /\ 0 < len data)).
Proof.
  intros Hcfg Hi Hrun. pose proof (watched_turns fuel _ _ Hrun (longPoll_watched fuel fuel w0 Hcfg Hi (le_n _))) as Hw.
  destruct (Hw w (rtc_refl _ _)) as [[H1 H2] _]. split; [exact H2|]. intros Hlt. split; [by apply H1|].
  apply read_there; [done| |done]. exact (turns_intact _ _ Hcfg Hrun Hi).
Qed.

End waiting.

(** ** Validation *)

(** Validation is total, and it accepts every batch a producer encodes, up to 4 MiB; an accepted
    batch whose length field is its length and whose record count is sensible is one the storage
    can hold. *)
Theorem validateBatch_sound data :
  (exists r, ApiData.validateBatch data = Ok r) /\
  (forall records, Batch.EncodeBatch records = Ok data -> len data <= ApiData.maxBatchBytes ->
     ApiData.validateBatch data = Ok None) /\
  (ApiData.validateBatch data = Ok None -> be_Z (sub data 8 12) = len data ->
     1 <= batch_count data <= len data - 38 -> wf_batch data).
Proof.
  split_and!.
  - destruct (ApiData.validate_spec data) as (r & Hr & _). eauto.
  - intros records He Hl. by eapply validate_encoded.
  - intros Hv Hf Hc. destruct (ApiData.validate_spec data) as (r & Hr & Hspec). rewrite Hr in Hv. injection Hv as ->.
    destruct Hspec as [Hspec _]. destruct (Hspec eq_refl) as (H1 & H2 & H3). rewrite Hf in *.
    unfold wf_batch, ApiData.maxBatchBytes, BatchLog.maxBatchBytes in *. split; [split; [lia|exact Hf]|].
    split; [lia|]. split; [lia|]. symmetry. exact H3.
Qed.

Definition cfg1 : StorageConfig :=
  {| SegmentMaxBytes := 10000; IndexSampleBytes := 4000; RetentionCheckIntervalMs := 1000;
     DefaultRetentionMs := -1; DefaultRetentionBytes := -1 |}.
Definition q0 : Storage.storageImpl := match Storage.Open ∅ cfg1 with Ok s => s | _ => StorageExamples.no_storage end.

(** A batch followed by twelve more bytes, and the storage after it and a good batch. *)
Definition trailing : list byte := StorageExamples.b0 ++ replicate 12 Byte.x00.
Definition q1 : Storage.storageImpl := (Storage.Append cfg1 q0 trailing).1.
Definition q2 : Storage.storageImpl := (Storage.Append cfg1 q1 StorageExamples.b0).1.

(** Validation accepts bytes after the batch, which the log cannot skip: once such data has been
    stored, a batch appended after it is acknowledged at offset 2 and can never be read, and
    when the directory is opened again it is gone and its offset is given out anew. *)
Theorem trailing_bytes_lose_batches :
  ApiData.validateBatch trailing = Ok None /\
  (Storage.Append cfg1 q0 trailing).2 = Ok 0 /\ (Storage.Append cfg1 q1 StorageExamples.b0).2 = Ok 2 /\
  Storage.LatestOffset q2 = 4 /\ Storage.Read q2 2 1000 = Ok ([], 2) /\
  exists s, Storage.Open (Storage.dir q2) cfg1 = Ok s /\ Storage.LatestOffset s = 2.
Proof.
  split_and!; [vm_compute; reflexivity..|]. eexists. split; vm_compute; reflexivity.
Qed.

(** ** Witnesses: node 1 leads partition 0 of a topic with one batch. *)

Definition meta1 (leader : Z) : Metadata.MetadataState :=
  {| Metadata.Topics := ∅;
     Metadata.Partitions := {[ PKey "t" 0 := Metadata.set_leader (Metadata.new_partition "t" 0 7 [1]) leader 1 ]};
     Metadata.Nodes := {[ 2 := {| Metadata.NodeID := 2; Metadata.Address := "b:9000" |} ]};
     Metadata.Groups := ∅; Metadata.GroupStates := ∅; Metadata.NextShardID := 8 |}.
Definition node1 (leader : Z) : node :=
  {| n_meta := meta1 leader; n_shards := {[ 7 := Partition.p_at StorageExamples.st1 ]};
     n_registry := {[ PKey "t" 0 := {| DataCoord.se_ShardID := 7; DataCoord.se_Topic := "t"; DataCoord.se_PartitionID := 0 |} ]};
     n_cache := ∅; n_clock := 0; n_index := 8 |}.
Definition conf1 : DataCoord.DataCoordinatorConfig := {| DataCoord.dcNodeID := 1; DataCoord.NodeAddressCacheTTLMs := 0 |}.

Lemma node1_leads : leads conf1 (node1 1) "t" 0 7 (Partition.p_at StorageExamples.st1).
Proof. constructor; [eexists; split; reflexivity|eexists; split; reflexivity|reflexivity]. Qed.

Lemma api_produce_fetch_witness :
  exists n' data b,
    run (handle StorageExamples.cfg0 Partition.no_json)
      (@ApiData.Produce _ (ApiData.DataCoordinator conf1 1) "t" 0 Batch.sample_encoded false) (node1 1) =
      (ApiData.Reply (0, 2), n') /\
    run (handle StorageExamples.cfg0 Partition.no_json)
      (@ApiData.Fetch _ (ApiData.DataCoordinator conf1 1) "t" 0 2 0 0 None) n' = (ApiData.Reply (data, 4), n') /\
    Batch.DecodeBatch data = Ok b /\ Batch.bRecords b = Batch.sample_records.
Proof.
  destruct (api_produce_fetch StorageExamples.cfg0 Partition.no_json conf1 1 (node1 1) "t" 0 7 (Partition.p_at StorageExamples.st1) 0
    [StorageExamples.b0_at 0] Batch.sample_records Batch.sample_encoded 0 StorageExamples.cfg0_ok node1_leads
    (Partition.fsm_ok_live _ _ _ _ _ (Partition.p_at_ok _ _ (proj1 StorageExamples.st1_ok)))) as (n' & data & b & H1 & H2 & H3 & _ & H4).
  - vm_compute. reflexivity.
  - vm_compute. congruence.
  - repeat constructor; vm_compute; congruence.
  - vm_compute. reflexivity.
  - vm_compute. split; congruence.
  - exists n', data, b. split; [exact H1|]. split; [exact H2|]. split; [exact H3|exact H4].
Defined.

Lemma request_not_leader_witness :
  exists n', run (handle StorageExamples.cfg0 Partition.no_json)
      (@ApiData.Produce _ (ApiData.DataCoordinator conf1 1) "t" 0 Batch.sample_encoded false) (node1 2) =
    (ApiData.Status {| ApiData.st_code := ApiData.FailedPrecondition; ApiData.st_bunny := Some ApiData.NOT_LEADER;
                       ApiData.st_leader := Some (2, "b:9000") |}, n').
Proof.
  destruct (request_not_leader StorageExamples.cfg0 Partition.no_json conf1 1 (node1 2) "t" 0
    (Metadata.set_leader (Metadata.new_partition "t" 0 7 [1]) 2 1) Batch.sample_encoded 0 0) as (c & H).
  - reflexivity.
  - discriminate.
  - intros k ni Hk. cbn [node1 n_meta meta1 Metadata.Nodes] in Hk. apply lookup_singleton_Some in Hk as [<- <-]. reflexivity.
  - reflexivity.
  - vm_compute. reflexivity.
  - eexists. apply (H false 0). lia.
Defined.

(** An empty log at offset 5, as retention can leave it. *)
Lemma log_at_5 : exists s, Storage.represents StorageExamples.cfg0 s 5 [].
Proof.
  destruct (NewSegmentStorage_ok StorageExamples.cfg0 ∅ 5) as (fs' & seg & _ & F & Eb & Hseg & Hact);
    [exact StorageExamples.cfg0_ok|by vm_compute|done..|].
  exists {| Storage.dir := fs'; Storage.segments := [seg]; Storage.nextOffset := 5; Storage.dataCh := 0;
            Storage.retentionMs := -1; Storage.retentionBytes := -1; Storage.closed := false |}.
  exists [], [], seg, []. split; [|done].
  constructor; cbn [Storage.segments Storage.dir Storage.nextOffset Storage.closed]; try done.
  intros n c Hn. destruct (decide (n ∈ seg_files 5)) as [Hin|Hnin].
  - exists seg. rewrite Eb. split; [by apply list_elem_of_singleton|done].
  - by rewrite F, lookup_empty in Hn.
Qed.

Lemma failures_are_internal_witness :
  exists n, run (handle StorageExamples.cfg0 Partition.no_json)
      (@ApiData.Fetch _ (ApiData.DataCoordinator conf1 1) "t" 0 0 0 0 None) n =
    (ApiData.Status (ApiData.plain ApiData.Internal), n).
Proof.
  destruct log_at_5 as [s Hs].
  exists {| n_meta := meta1 1; n_shards := {[ 7 := Partition.p_at s ]}; n_registry := n_registry (node1 1);
            n_cache := ∅; n_clock := 0; n_index := 8 |}.
  eapply (failures_are_internal StorageExamples.cfg0 Partition.no_json conf1 1 _ "t" 0 7 (Partition.p_at s) 5 [] 7 0 0
    Batch.sample_encoded false StorageExamples.cfg0_ok).
  - constructor; [eexists; split; reflexivity|eexists; split; reflexivity|reflexivity].
  - constructor; [exists s; split; [reflexivity|split; [exact Hs|reflexivity]]| |reflexivity].
    split; [reflexivity|vm_compute; split; congruence].
  - lia.
  - vm_compute. reflexivity.
Defined.

(** A poll at the end of a log of one batch: it takes the channel, reads, another batch is stored
    and it waits, before the append has closed the channel. *)
Lemma no_lost_wakeup_witness : exists k,
  let w := {| st := Storage.set_dataCh StorageExamples.st2 (Storage.dataCh StorageExamples.st1); inflight := Stored |} in
  rtc (turn StorageExamples.cfg0 7)
    (DataCoord.longPoll conf1 2 10 "t" 0 7 2 100, {| st := StorageExamples.st1; inflight := Idle |})
    (Vis (DataCoord.DSelect (Storage.NewDataCh StorageExamples.st1) 10) k, w) /\
  closed w (Storage.NewDataCh StorageExamples.st1) = false /\ closed (finish w) (Storage.NewDataCh StorageExamples.st1) = true.
Proof.
  eexists. cbv zeta. match goal with |- ?R /\ _ => assert R as Hrun end.
  { eapply rtc_l; [right; cbn; exists 0; split; [exact I|reflexivity]|].
    eapply rtc_l; [right; cbn; exists (Ok (Partition.RChannel (Storage.NewDataCh StorageExamples.st1))); split; [|reflexivity]|].
    { intros _. right. exists (Partition.p_at StorageExamples.st1). split; reflexivity. }
    eapply rtc_l; [right; cbn; exists (Ok (Some (Metadata.APartition (Metadata.set_leader (Metadata.new_partition "t" 0 7 [1]) 1 1)))); split; [exact I|reflexivity]|].
    eapply rtc_l; [right; cbn; exists (Ok (Partition.RBatches {| Partition.Batches := []; Partition.NextOffset := 2 |})); split; [|reflexivity]|].
    { intros _. right. exists (Partition.p_at StorageExamples.st1). split; [reflexivity|vm_compute; reflexivity]. }
    eapply (rtc_l _ _ (_, {| st := _; inflight := Stored |})); [left; split; [reflexivity|]|].
    { apply (step_store _ _ StorageExamples.b0 StorageExamples.st2 2); [vm_compute; reflexivity|apply StorageExamples.b0_wf|vm_compute; reflexivity]. }
    constructor. }
  split; [exact Hrun|]. split; [vm_compute; reflexivity|].
  apply (no_lost_wakeup StorageExamples.cfg0 conf1 10 "t" 0 7 2 100 2 _ _ _ _ _ StorageExamples.cfg0_ok) in Hrun as [_ H].
  - apply H. vm_compute. reflexivity.
  - exists 0, [StorageExamples.b0_at 0]. apply StorageExamples.st1_ok.
Defined.

End DataRun.
