(* ===== verification/StorageTime.v ===== *)
(** * Offsets by time

    [ReadByTime] (internal/storage/storage.go, segment_storage.go) and [GetOffsetByTimestamp]
    (internal/coordinator/data/data.go), which is to find the first batch that has a record at or
    after a time. It looks at the batches with an entry in the sparse time index only, and does not
    scan the log before the entry it finds: [seek_by_time] says exactly which batch is found. What
    is found has a record at or after the time; what lies between two entries, at most the
    configured bytes between samples and a batch ([sample_gap]), is skipped; and of a log
    that is too short for an entry nothing is found ([seek_by_time], last part). *)

From S2P Require Import Prelude LogSegment OffsetIndex TimeIndex BatchLog Keys Metadata Prog Segment Recovery Storage StorageOpen StorageExamples Partition DataCoord ApiData DataRun.
Local Open Scope Z_scope.

Module StorageTime.
Import BatchLog Seg Storage.

(** ** What is found *)

(** The batches of a segment that have an index entry. *)
Definition sampled (cfg : StorageConfig) (bs : list (list byte)) : list (list byte) := (marks (IndexSampleBytes cfg) bs).1.*2.

(** The first batch that has a record at or after [t]. *)
Definition first_at (t : Z) (bs : list (list byte)) : option (list byte) := head (filter (fun b => t <= batch_max_ts b) bs).

Definition max_ts_le (b1 b2 : list byte) : Prop := batch_max_ts b1 <= batch_max_ts b2.

Lemma mark_all_sampled sample st bs pos : exists x, (mark_all sample st bs pos).1.*2 = st.1.*2 ++ x /\ x `sublist_of` bs.
Proof.
  revert st pos. induction bs as [|b bs IH]; intros st pos; cbn [mark_all]; [exists []; split; [by rewrite app_nil_r|done]|].
  destruct (IH (mark sample st b pos) (pos + len b)) as (x & -> & Hx). destruct st as [ms since]. cbn [mark].
  destruct (sample <=? since); cbn [fst].
  - exists (b :: x). split; [by rewrite fmap_app, <- app_assoc|by constructor].
  - exists x. split; [done|by constructor].
Qed.

Lemma sampled_sublist cfg bs : sampled cfg bs `sublist_of` bs.
Proof. destruct (mark_all_sampled (IndexSampleBytes cfg) ([], 0) bs 0) as (x & E & Hx). unfold sampled, marks. by rewrite E. Qed.

Lemma sorted_sublist {A} (R : A -> A -> Prop) l1 l2 : l1 `sublist_of` l2 -> StronglySorted R l2 -> StronglySorted R l1.
Proof.
  induction 1 as [|x l1 l2 Hs IH|x l1 l2 Hs IH]; intros H; [done| |].
  - apply StronglySorted_inv in H as [H Hx]. constructor; [by apply IH|]. rewrite Forall_forall in *. intros y Hy. apply Hx.
    by eapply elem_of_sublist.
  - apply StronglySorted_inv in H as [H _]. by apply IH.
Qed.

Lemma head_filter_fmap {A B} (f : A -> B) (P : B -> Prop) `{!forall x, Decision (P x)} (l : list A) :
  head (filter P (f <$> l)) = f <$> head (filter (fun x => P (f x)) l).
Proof.
  induction l as [|x l IH]; [done|]. rewrite fmap_cons. destruct (decide (P (f x))).
  - by rewrite !filter_cons_True.
  - by rewrite !filter_cons_False.
Qed.

Lemma sorted_entries base (ms : list (Z * list byte)) :
  StronglySorted max_ts_le ms.*2 -> StronglySorted (fun e1 e2 => TimeIdx.timestampMs e1 <= TimeIdx.timestampMs e2) (time_entry base <$> ms).
Proof.
  induction ms as [|m ms IH]; intros H; [constructor|]. rewrite !fmap_cons in *. inversion_clear H as [|? ? H1 H2]. constructor; [by apply IH|].
  apply Forall_forall. intros e (m' & -> & Hm')%list_elem_of_fmap. rewrite Forall_forall in H2. apply (H2 m'.2), list_elem_of_fmap. by exists m'.
Qed.

(** Within a segment. *)
Lemma segment_by_time cfg fs s bs t n :
  cfg_ok cfg -> seg_ok cfg fs s bs -> StronglySorted max_ts_le bs ->
  Seg.ReadByTime fs s t n = match first_at t (sampled cfg bs) with
    | Some b => Ok (fetch bs (batch_base b) n)
    | None => Err ErrTimestampNotFound
    end.
Proof.
  intros Hcfg Hok Hs. pose proof (ok_batches _ _ _ _ Hok) as Hb. unfold Seg.ReadByTime.
  rewrite (TimeIdx.TimeLookup_repr _ _ _ t (ix_time _ _ _ _ (ok_indexes _ _ _ _ Hok))).
  - unfold TimeIdx.ceil_offset, time_entries, first_at, sampled. rewrite !head_filter_fmap. cbn [time_entry TimeIdx.timestampMs].
    destruct (head (filter (fun m => t <= batch_max_ts m.2) (marks (IndexSampleBytes cfg) bs).1)) as [m|] eqn:Em; [|done].
    cbn [fmap option_fmap option_map mbind outcome_bind negb time_entry TimeIdx.relativeOffset].
    assert (m ∈ (marks (IndexSampleBytes cfg) bs).1) as Hm.
    { destruct (filter _ _) as [|m' l] eqn:Ef in Em; [done|]. injection Em as ->.
      assert (m ∈ m :: l) as Hin by (apply elem_of_cons; by left). rewrite <- Ef in Hin. by apply list_elem_of_filter in Hin as [_ ?]. }
    pose proof (marks_ok _ _ _ Hcfg Hb) as Hms. rewrite Forall_forall in Hms. specialize (Hms _ Hm).
    pose proof (mark_bounds _ _ _ Hb Hms) as (_ & Hrel & _).
    replace (baseOffset s + (batch_base m.2 - baseOffset s)) with (batch_base m.2) by lia.
    rewrite i64_id by apply i64_range. apply (Read_fetch cfg); [done|done|lia|lia].
  - unfold TimeIdx.time_sorted, time_entries. pose proof (sorted_sublist _ _ _ (sampled_sublist cfg bs) Hs) as H. unfold sampled in H.
    by apply sorted_entries.
Qed.

(** A read at the offset of a batch starts with that batch. *)
Lemma fetch_at base bs b n : chain base bs -> b ∈ bs -> exists rest, (fetch bs (batch_base b) n).1 = b ++ rest.
Proof.
  intros Hc Hb. apply list_elem_of_split in Hb as (l1 & l2 & ->). pose proof Hc as Hc'. apply chain_app in Hc' as [H1 (Hwf & Hbase & H2)].
  destruct Hwf as (_ & _ & Hcnt & _). pose proof (end_off_mono base l1). pose proof (end_off_mono (end_off base l1 + batch_count b) l2).
  destruct (fetched_spec base (l1 ++ b :: l2) (batch_base b) n Hc) as (pre & b' & rest & post & E & Ef & Hpre & Hin & _).
  { rewrite end_off_app. cbn [end_off]. lia. }
  unfold fetch. rewrite Ef. cbn [fst concat]. exists (concat rest). f_equal.
  assert (length pre = length l1) as Hlen.
  { destruct (Nat.lt_trichotomy (length pre) (length l1)) as [Hl|[Hl|Hl]]; [exfalso|done|exfalso].
    - assert (l1 = pre ++ b' :: drop (S (length pre)) l1) as El.
      { rewrite <- (take_drop_middle l1 (length pre) b') at 1; [f_equal|].
        - apply (f_equal (take (length pre))) in E. rewrite take_app_le in E by lia. rewrite E. by rewrite take_app_length.
        - apply (f_equal (fun l => l !! length pre)) in E. rewrite lookup_app_l in E by done. rewrite E. cbn [app]. by rewrite list_lookup_middle. }
      rewrite El in H1. apply chain_app in H1 as [_ (_ & Hb' & H1)]. rewrite El, end_off_app in Hbase. cbn [end_off] in Hbase.
      pose proof (end_off_mono (end_off base pre + batch_count b') (drop (S (length pre)) l1)). unfold batch_end in Hin. lia.
    - assert (b ∈ pre) as Hb.
      { apply (f_equal (fun l => l !! length l1)) in E. rewrite list_lookup_middle in E by done. rewrite lookup_app_l in E by done.
        symmetry in E. by apply list_elem_of_lookup_2 in E. }
      rewrite Forall_forall in Hpre. specialize (Hpre _ Hb). unfold batch_end in Hpre. lia. }
  apply (f_equal (fun l => l !! length pre)) in E. cbn [app] in E. rewrite list_lookup_middle in E by done.
  rewrite list_lookup_middle in E by done. by injection E.
Qed.

(** ** The storage *)

Lemma first_at_app t l1 l2 : first_at t (l1 ++ l2) = match first_at t l1 with Some b => Some b | None => first_at t l2 end.
Proof. unfold first_at. rewrite filter_app. by destruct (filter _ l1). Qed.

Lemma first_at_elem t l b : first_at t l = Some b -> b ∈ l /\ t <= batch_max_ts b.
Proof.
  unfold first_at. destruct (filter _ l) as [|b' l'] eqn:E; [done|]. intros [= ->].
  assert (b ∈ b :: l') as H by (apply elem_of_cons; by left). rewrite <- E in H. by apply list_elem_of_filter in H as [??].
Qed.

Lemma sealed_segments cfg fs off segs bss : sealed_ok cfg fs off segs bss -> Forall2 (seg_ok cfg fs) segs bss.
Proof.
  revert off bss. induction segs as [|seg segs IH]; intros off [|bs bss] H; try done; constructor.
  - by destruct H as (_ & _ & Hs & _).
  - destruct H as (_ & _ & _ & _ & _ & _ & H). by eapply IH.
Qed.

(** The batches with an index entry, segment by segment. *)
Definition indexed (cfg : StorageConfig) (parts : list (list (list byte))) : list (list byte) := concat (sampled cfg <$> parts).

Lemma loop_by_time cfg fs segs parts t n :
  cfg_ok cfg -> Forall2 (seg_ok cfg fs) segs parts -> StronglySorted max_ts_le (concat parts) ->
  match first_at t (indexed cfg parts) with
  | None => ReadByTime_loop fs segs t n = Err ErrTimestampNotFound
  | Some b => wf_batch b /\ exists rest next, ReadByTime_loop fs segs t n = Ok (b ++ rest, next)
  end.
Proof.
  intros Hcfg H. unfold indexed. induction H as [|seg bs segs parts Hok _ IH]; intros Hs; [done|]. cbn [concat] in Hs.
  assert (StronglySorted max_ts_le bs /\ StronglySorted max_ts_le (concat parts)) as [S1 S2].
  { split; eapply sorted_sublist; [|exact Hs| |exact Hs]; [by apply sublist_inserts_r|by apply sublist_inserts_l]. }
  rewrite fmap_cons. cbn [concat ReadByTime_loop]. rewrite first_at_app, (segment_by_time cfg fs seg bs t n Hcfg Hok S1).
  destruct (first_at t (sampled cfg bs)) as [b|] eqn:Ef; [|by apply IH].
  apply first_at_elem in Ef as [Hin _]. pose proof (elem_of_sublist _ _ _ Hin (sampled_sublist cfg bs)) as Hb.
  pose proof (bo_chain _ _ (ok_batches _ _ _ _ Hok)) as Hc. assert (wf_batch b) as Hwf.
  { apply list_elem_of_split in Hb as (l1 & l2 & ->). by apply chain_app in Hc as [_ (Hwf & _)]. }
  split; [done|]. destruct (fetch_at _ bs b n Hc Hb) as (rest & E). destruct (fetch bs (batch_base b) n) as [data next]. cbn [fst] in E. subst data.
  exists rest, next. pose proof (wf_len _ Hwf). destruct (Z.eqb_spec (len (b ++ rest)) 0); [exfalso; len_lia|done].
Qed.

(** Reading by time finds the first indexed batch with a record at or after the time. *)
Lemma ReadByTime_exact cfg s off l :
  cfg_ok cfg -> represents cfg s off l -> StronglySorted max_ts_le l ->
  exists parts, Forall2 (seg_ok cfg (dir s)) (segments s) parts /\ l = concat parts /\ forall t n,
    match first_at t (indexed cfg parts) with
    | None => ReadByTime s t n = Err ErrTimestampNotFound
    | Some b => wf_batch b /\ exists rest next, ReadByTime s t n = Ok (b ++ rest, next)
    end.
Proof.
  intros Hcfg (segs & bss & act & bs & [] & ->) Hs. assert (concat bss ++ bs = concat (bss ++ [bs])) as El
    by (rewrite concat_app; cbn [concat]; by rewrite app_nil_r).
  assert (Forall2 (seg_ok cfg (dir s)) (segments s) (bss ++ [bs])) as Hparts.
  { rewrite so_segments0. apply Forall2_app; [by eapply sealed_segments|constructor; [done|constructor]]. }
  exists (bss ++ [bs]). split; [done|]. split; [done|]. intros t n. rewrite El in Hs. by apply loop_by_time.
Qed.

(** ** What is skipped *)

(** After the configured bytes without an entry the next batch has one. *)
Lemma sample_gap cfg pre mid b post :
  0 < IndexSampleBytes cfg -> IndexSampleBytes cfg <= len (concat mid) ->
  exists c, c ∈ mid ++ [b] /\ c ∈ sampled cfg (pre ++ mid ++ b :: post).
Proof.
  intros H0 Hm. unfold sampled, marks. rewrite mark_all_app. set (st := mark_all _ ([], 0) pre 0).
  assert (0 <= st.2) as Hst.
  { unfold st. assert (forall st0 pos, 0 <= st0.2 -> 0 <= (mark_all (IndexSampleBytes cfg) st0 pre pos).2) as H; [|by apply H].
    clear. induction pre as [|x pre IH]; intros [ms since] pos H; [done|]. cbn [mark_all mark]. apply IH. destruct (_ <=? _); cbn in *; [lia|].
    pose proof (len_nonneg x). lia. }
  clearbody st. generalize (0 + len (concat pre)). intros pos. replace (mid ++ b :: post) with ((mid ++ [b]) ++ post) by (by rewrite <- app_assoc).
  assert (forall mid st pos, 0 <= st.2 -> IndexSampleBytes cfg <= st.2 + len (concat mid) ->
    exists c, c ∈ mid ++ [b] /\ c ∈ (mark_all (IndexSampleBytes cfg) st (mid ++ [b]) pos).1.*2) as Hgen.
  { clear. induction mid as [|x mid IH]; intros [ms since] pos H0 H; cbn [app mark_all mark snd concat] in *.
    - exists b. rewrite (proj2 (Z.leb_le _ _)) by len_lia. cbn [fst]. rewrite fmap_app, elem_of_app. split; [by left|right; by left].
    - destruct (Z.leb_spec (IndexSampleBytes cfg) since) as [Hle|Hgt].
      + exists x. split; [by left|]. destruct (mark_all_sampled (IndexSampleBytes cfg) (ms ++ [(pos, x)], 0) (mid ++ [b]) (pos + len x)) as (y & -> & _).
        cbn [fst]. rewrite fmap_app, !elem_of_app. left. right. by left.
      + destruct (IH (ms, since + len x) (pos + len x)) as (c & H1 & H2); cbn [snd]; [pose proof (len_nonneg x); lia|rewrite len_app in H; lia|].
        exists c. split; [by right|done]. }
  destruct (Hgen mid st pos Hst ltac:(lia)) as (c & H1 & H2). exists c. split; [done|]. rewrite mark_all_app.
  destruct (mark_all_sampled (IndexSampleBytes cfg) (mark_all (IndexSampleBytes cfg) st (mid ++ [b]) pos) post (pos + len (concat (mid ++ [b])))) as (y & -> & _).
  rewrite elem_of_app. by left.
Qed.

(** A segment with fewer bytes before its last batch has no entry. *)
Lemma short_unsampled cfg bs : len (concat (removelast bs)) < IndexSampleBytes cfg -> sampled cfg bs = [].
Proof.
  unfold sampled. destruct bs as [|b bs _] using rev_ind; [done|]. rewrite removelast_snoc. intros H. rewrite marks_snoc.
  assert (marks (IndexSampleBytes cfg) bs = ([], len (concat bs))) as ->.
  { revert H. induction bs as [|x bs IH] using rev_ind; intros H; [done|]. rewrite concat_app, len_app in H |- *. cbn [concat] in *. rewrite app_nil_r in *.
    pose proof (len_nonneg x). rewrite marks_snoc, IH by lia. cbn [mark]. rewrite (proj2 (Z.leb_gt _ _)) by lia. done. }
  cbn [mark]. by rewrite (proj2 (Z.leb_gt _ _)) by lia.
Qed.

Lemma chain_bases off bs : chain off bs -> StronglySorted (fun b1 b2 => batch_base b1 <= batch_base b2) bs /\ Forall (fun b => off <= batch_base b) bs.
Proof.
  revert off. induction bs as [|b bs IH]; intros off H; [split; constructor|]. destruct H as (Hwf & Hb & H). destruct Hwf as (_ & _ & Hc & _).
  destruct (IH _ H) as [H1 H2]. split; constructor; [done| |lia|]; (eapply Forall_impl; [exact H2|cbn; lia]).
Qed.

Lemma indexed_sublist cfg parts : indexed cfg parts `sublist_of` concat parts.
Proof. unfold indexed. induction parts as [|bs parts IH]; [done|]. rewrite fmap_cons. cbn [concat]. by apply sublist_app; [apply sampled_sublist|]. Qed.

(** What is found is no later than the end of the first stretch of the configured length. *)
Lemma found_by cfg off parts t k pre mid c post :
  0 < IndexSampleBytes cfg -> chain off (concat parts) -> parts !! k = Some (pre ++ mid ++ c :: post) ->
  IndexSampleBytes cfg <= len (concat mid) -> Forall (fun b => t <= batch_max_ts b) (mid ++ [c]) ->
  exists b, first_at t (indexed cfg parts) = Some b /\ batch_base b <= batch_base c.
Proof.
  intros H0 Hc Hk Hm Ht. destruct (sample_gap cfg pre mid c post H0 Hm) as (c0 & Hin & Hs).
  assert (c0 ∈ indexed cfg parts) as Hi.
  { unfold indexed. rewrite <- (take_drop_middle parts k _ Hk), fmap_app, concat_app, fmap_cons. cbn [concat]. rewrite !elem_of_app. by right; left. }
  assert (batch_base c0 <= batch_base c) as Hle.
  { destruct (chain_bases _ _ Hc) as [Hb _]. rewrite <- (take_drop_middle parts k _ Hk), concat_app in Hb. cbn [concat] in Hb.
    assert ((mid ++ [c]) `sublist_of` concat (take k parts) ++ (pre ++ mid ++ c :: post) ++ concat (drop (S k) parts)) as Hsub.
    { apply sublist_inserts_l, sublist_inserts_r, sublist_inserts_l. change (c :: post) with ([c] ++ post). rewrite app_assoc. by apply sublist_inserts_r. }
    pose proof (sorted_sublist _ _ _ Hsub Hb) as Hb'. apply elem_of_app in Hin as [Hin| ->%list_elem_of_singleton]; [|lia].
    clear -Hb' Hin. induction mid as [|x mid IH]; [by apply not_elem_of_nil in Hin|]. apply StronglySorted_inv in Hb' as [H1 H2].
    apply elem_of_cons in Hin as [-> |Hin]; [|by apply IH]. rewrite Forall_forall in H2. apply H2, elem_of_app. right. by left. }
  rewrite Forall_forall in Ht. specialize (Ht _ Hin). destruct (chain_bases _ _ Hc) as [Hb _].
  pose proof (sorted_sublist _ _ _ (indexed_sublist cfg parts) Hb) as Hbi. unfold first_at. revert Hi Hbi. generalize (indexed cfg parts). clear -Ht Hle.
  intros l Hi Hb. induction l as [|x l IH]; [by apply not_elem_of_nil in Hi|]. destruct (decide (t <= batch_max_ts x)).
  - rewrite filter_cons_True by done. exists x. split; [done|]. apply StronglySorted_inv in Hb as [_ Hb]. rewrite Forall_forall in Hb.
    apply elem_of_cons in Hi as [-> |Hi]; [done|]. specialize (Hb _ Hi). lia.
  - rewrite filter_cons_False by done. apply StronglySorted_inv in Hb as [Hb _]. apply IH; [|done]. by apply elem_of_cons in Hi as [-> |Hi].
Qed.

Lemma short_parts cfg parts : len (concat (concat parts)) < IndexSampleBytes cfg -> indexed cfg parts = [].
Proof.
  unfold indexed. induction parts as [|bs parts IH]; intros H; [done|]. cbn [concat] in H. rewrite concat_app, len_app in H. rewrite fmap_cons. cbn [concat].
  pose proof (len_nonneg (concat bs)). pose proof (len_nonneg (concat (concat parts))). rewrite IH by lia. rewrite short_unsampled; [done|].
  destruct bs as [|b bs _] using rev_ind; [cbn [removelast concat] in *; lia|]. rewrite removelast_snoc. rewrite concat_app, len_app in *. pose proof (len_nonneg (concat [b])). lia.
Qed.

(** ** Through the coordinator *)

Section node.
Variables (cfg : StorageConfig) (unmarshal : list byte -> option (Z * Z)) (config : DataCoord.DataCoordinatorConfig).
Abbreviation seek topic id t := (run (DataRun.handle cfg unmarshal) (DataCoord.GetOffsetByTimestamp config topic id t)).

Lemma run_seek n topic id shard p off l :
  cfg_ok cfg -> DataRun.leads config n topic id shard p -> Partition.fsm_live cfg p off l -> StronglySorted max_ts_le l ->
  exists s parts, Partition.storage p = Some s /\ Forall2 (seg_ok cfg (dir s)) (segments s) parts /\ l = concat parts /\ forall t,
    seek topic id t n = (match first_at t (indexed cfg parts) with Some b => Ok (batch_base b) | None => Err DataCoord.ErrOffsetNotFound end, n).
Proof.
  intros Hcfg Hl Hok Hs. pose proof Hok as [(s & Es & Hrep) Hcl]. destruct (ReadByTime_exact cfg s off l Hcfg Hrep Hs) as (parts & Hparts & El & H).
  exists s, parts. split; [done|]. split; [done|]. split; [done|]. intros t. specialize (H t 512). unfold DataCoord.GetOffsetByTimestamp.
  rewrite run_call, (DataRun.run_leaderCheck _ _ _ _ _ _ _ _ Hl), run_call, run_trigger. cbn [DataRun.handle].
  rewrite (DataRun.ld_shard _ _ _ _ _ _ Hl). unfold Partition.Lookup. rewrite Hcl, Es.
  destruct (first_at t (indexed cfg parts)) as [b|]; [|by rewrite H].
  destruct H as (Hwf & rest & next & ->). cbn [mbind outcome_bind Partition.Batches run]. pose proof (wf_len _ Hwf). pose proof (len_nonneg rest).
  rewrite (proj2 (Z.ltb_ge _ _)) by len_lia. rewrite get_base by len_lia. rewrite sub_app_l by lia. done.
Qed.

(** C35: What a lookup by time finds. On the leader of a partition whose timestamps do not go back,
    the log is cut into the segments of the storage ([parts], one list of batches for each segment
    file), and of each segment the batches with an entry in the time index are those before which
    the configured bytes went by without one. The lookup of the offset for a time answers with the
    first of these batches, over all segments, that has a record at or after the time, and with
    OFFSET_NOT_FOUND when there is none. So what it answers is never a batch that ends before the
    time; once a segment has a stretch of at least the sampling distance and one more batch, all at or after the time,
    the lookup succeeds and answers nothing later than that batch; and of a log shorter
    than the sampling distance no time is found, whatever records it has. *)
Theorem seek_by_time n topic id shard p off l :
  cfg_ok cfg -> DataRun.leads config n topic id shard p -> Partition.fsm_live cfg p off l -> StronglySorted max_ts_le l ->
  exists s parts, Partition.storage p = Some s /\ Forall2 (seg_ok cfg (dir s)) (segments s) parts /\ l = concat parts /\
    (forall t, seek topic id t n =
       (match first_at t (indexed cfg parts) with Some b => Ok (batch_base b) | None => Err DataCoord.ErrOffsetNotFound end, n)) /\
    (forall t o, seek topic id t n = (Ok o, n) -> exists b, b ∈ l /\ o = batch_base b /\ t <= batch_max_ts b) /\
    (forall t k pre mid c post, parts !! k = Some (pre ++ mid ++ c :: post) -> IndexSampleBytes cfg <= len (concat mid) ->
       Forall (fun b => t <= batch_max_ts b) (mid ++ [c]) -> exists o, seek topic id t n = (Ok o, n) /\ o <= batch_base c) /\
    (len (concat l) < IndexSampleBytes cfg -> forall t, seek topic id t n = (Err DataCoord.ErrOffsetNotFound, n)).
Proof.
  intros Hcfg Hl Hok Hs. destruct (run_seek n topic id shard p off l Hcfg Hl Hok Hs) as (s & parts & Es & Hparts & El & H). exists s, parts.
  split; [done|]. split; [done|]. split; [done|]. split; [done|]. split; [|split].
  - intros t o. rewrite H. destruct (first_at t (indexed cfg parts)) as [b|] eqn:E; [|done]. intros [= <-].
    apply first_at_elem in E as [Hin Ht]. exists b. split_and!; [|done|done]. rewrite El. by eapply elem_of_sublist, indexed_sublist.
  - intros t k pre mid c post Hk Hm Ht. pose proof Hok as [(s' & _ & Hrep) _]. pose proof (represents_log _ _ _ _ Hrep) as (Hc & _). rewrite El in Hc.
    destruct (found_by cfg off parts t k pre mid c post (cfg_sample _ Hcfg) Hc Hk Hm Ht) as (b & E & Hle). exists (batch_base b). by rewrite H, E.
  - intros Hshort t. rewrite El in Hshort. by rewrite H, short_parts by done.
Qed.

End node.

(** Two batches, the second with an index entry: the first, which has records after the time too,
    is skipped. *)
Definition node2 : DataRun.node :=
  {| DataRun.n_meta := DataRun.meta1 1; DataRun.n_shards := {[ 7 := Partition.p_at StorageExamples.st2 ]};
     DataRun.n_registry := DataRun.n_registry (DataRun.node1 1); DataRun.n_cache := ∅; DataRun.n_clock := 0; DataRun.n_index := 8 |}.

Lemma node2_leads : DataRun.leads DataRun.conf1 node2 "t" 0 7 (Partition.p_at StorageExamples.st2).
Proof. constructor; [eexists; split; reflexivity|eexists; split; reflexivity|reflexivity]. Qed.

Lemma seek_by_time_witness :
  run (DataRun.handle StorageExamples.cfg0 Partition.no_json) (DataCoord.GetOffsetByTimestamp DataRun.conf1 "t" 0 0) node2 = (Ok 2, node2) /\
  0 <= batch_max_ts (StorageExamples.b0_at 0) /\ batch_base (StorageExamples.b0_at 0) = 0 /\
  exists b, b ∈ [StorageExamples.b0_at 0; StorageExamples.b0_at 2] /\ 2 = batch_base b /\ 0 <= batch_max_ts b.
Proof.
  destruct (seek_by_time StorageExamples.cfg0 Partition.no_json DataRun.conf1 node2 "t" 0 7 (Partition.p_at StorageExamples.st2) 0
    [StorageExamples.b0_at 0; StorageExamples.b0_at 2] StorageExamples.cfg0_ok node2_leads
    (Partition.fsm_ok_live _ _ _ _ _ (Partition.p_at_ok _ _ (proj1 StorageExamples.st2_ok)))) as (s & parts & _ & _ & _ & _ & H & _ & _).
  { constructor; [constructor; [constructor|constructor]|]. constructor; [vm_compute; congruence|constructor]. }
  assert (run (DataRun.handle StorageExamples.cfg0 Partition.no_json) (DataCoord.GetOffsetByTimestamp DataRun.conf1 "t" 0 0) node2 = (Ok 2, node2)) as E
    by (vm_compute; reflexivity).
  split; [exact E|]. split; [vm_compute; congruence|]. split; [vm_compute; reflexivity|]. exact (H 0 2 E).
Defined.

End StorageTime.
