(* ===== verification/ClusterRun.v ===== *)
(** * A node: reconciliation, leaders, and topics from creation to service

    The cluster coordinator on one node, with its raft host: the metadata replica, the shards it
    runs with their state machines, the shard registry of the data coordinator, the directories
    of stopped shards, the coordinator's tables and its pending goroutines. Reconciling and
    running the goroutines in any order makes the node run exactly the shards the metadata
    places on it ([reconcile_converges]); a sweep records the leaders ([sweepLeaders_records]);
    together they bring a new topic into service ([new_topic_serves]). A topic that is deleted
    and created again between two reconciliations can be left unserved
    ([recreated_topic_unserved]). *)

From S2P Require Import Prelude Hash SegName LogSegment BatchLog Keys Metadata MetadataInv Prog Segment Storage StorageExamples Partition DataCoord DataRun ClusterCoord Placement ClusterPlace.
Local Open Scope Z_scope.

Module ClusterRun.
Import Keys Metadata MetadataInv ClusterCoord Placement.

(** The storage directory of a shard: its files and the sidecar. *)
Abbreviation disk := (files * option (list byte))%type.

Record cnode := {
  c_node : DataRun.node;
  c_disks : gmap Z disk;   (** the directories of the shards that are not running *)
  c_running : running_shards;
  c_leaders : known_leaders;
  c_tasks : list task
}.

Definition set_node (w : cnode) n : cnode :=
  {| c_node := n; c_disks := c_disks w; c_running := c_running w; c_leaders := c_leaders w; c_tasks := c_tasks w |}.
Definition set_disks (w : cnode) d : cnode :=
  {| c_node := c_node w; c_disks := d; c_running := c_running w; c_leaders := c_leaders w; c_tasks := c_tasks w |}.
Definition set_running (w : cnode) r : cnode :=
  {| c_node := c_node w; c_disks := c_disks w; c_running := r; c_leaders := c_leaders w; c_tasks := c_tasks w |}.
Definition set_leaders (w : cnode) l : cnode :=
  {| c_node := c_node w; c_disks := c_disks w; c_running := c_running w; c_leaders := l; c_tasks := c_tasks w |}.
Definition set_tasks (w : cnode) t : cnode :=
  {| c_node := c_node w; c_disks := c_disks w; c_running := c_running w; c_leaders := c_leaders w; c_tasks := t |}.

Lemma set_tasks_same w : set_tasks w (c_tasks w) = w.
Proof. by destruct w. Qed.

Definition set_meta (n : DataRun.node) s : DataRun.node :=
  {| DataRun.n_meta := s; DataRun.n_shards := DataRun.n_shards n; DataRun.n_registry := DataRun.n_registry n;
     DataRun.n_cache := DataRun.n_cache n; DataRun.n_clock := DataRun.n_clock n; DataRun.n_index := DataRun.n_index n |}.
Definition set_shards (n : DataRun.node) s : DataRun.node :=
  {| DataRun.n_meta := DataRun.n_meta n; DataRun.n_shards := s; DataRun.n_registry := DataRun.n_registry n;
     DataRun.n_cache := DataRun.n_cache n; DataRun.n_clock := DataRun.n_clock n; DataRun.n_index := DataRun.n_index n |}.

Abbreviation meta w := (DataRun.n_meta (c_node w)).
Abbreviation shards w := (DataRun.n_shards (c_node w)).
Abbreviation registry w := (DataRun.n_registry (c_node w)).

(** The directory [brokerHost.StartPartitionShard] gives a shard. *)
Definition shardDir (dataDir : string) (shard : Z) : string :=
  Join [dataDir; "partitions"; String.append "shard-" (fmt_d shard)].

(** [os.RemoveAll dir] removes [path]. *)
Definition removed_by (dir path : string) : bool :=
  String.eqb path dir || String.prefix (String.append dir "/") path.

Section node.
Variable cfg : StorageConfig.
Variable unmarshal : list byte -> option (Z * Z).
Variable config : CoordinatorConfig.
(** What the raft host knows of the leaders. *)
Variable leader : Z -> outcome (Z * Z * bool).

(** Starting a shard opens its state machine on the shard's directory. *)
Definition start_shard (w : cnode) (shard : Z) : outcome unit * cnode :=
  match shards w !! shard with
  | Some _ => (Err (ErrNew "shard already exists"), w)
  | None =>
      let d := default (∅, None) (c_disks w !! shard) in
      match Partition.Open cfg d.1 (Partition.NewPartitionFSM d.2) with
      | (p, Ok _) => (Ok tt, set_disks (set_node w (set_shards (c_node w) (<[shard := p]> (shards w))))
                               (delete shard (c_disks w)))
      | _ => (Err (ErrNew "open failed"), w)
      end
  end.

(** Stopping it closes the state machine; what it wrote stays on disk. *)
Definition stop_shard (w : cnode) (shard : Z) : outcome unit * cnode :=
  match shards w !! shard with
  | None => (Err (ErrNew "shard not found"), w)
  | Some p =>
      let p := (Partition.Close p).1 in
      let d := (match Partition.storage p with Some s => Storage.dir s | None => ∅ end, Partition.sidecar p) in
      (Ok tt, set_disks (set_node w (set_shards (c_node w) (delete shard (shards w)))) (<[shard := d]> (c_disks w)))
  end.

(** Requests on a host that does not fail and without other processes. The ticker loops end at
    once: their bodies are run by themselves. *)
Definition handle X (e : clusterE X) : cnode -> X * cnode :=
  match e in clusterE X return cnode -> X * cnode with
  | CLookup q => fun w => (Lookup (meta w) q, w)
  | CPropose cmd => fun w =>
      match Update (meta w) (Some cmd) with
      | Ok (s', r) => (Ok r, set_node w (set_meta (c_node w) s'))
      | _ => (Err (ErrNew "timeout"), w)
      end
  | CProposePartition shard cmd => fun w =>
      let '(r, n) := DataRun.propose cfg unmarshal (c_node w) shard cmd in
      (match r with Ok _ => Ok tt | Err e => Err e | Panic p => Panic p | OutOfFuel => OutOfFuel end, set_node w n)
  | CStartMetadataShard _ _ => fun w => (Ok tt, w)
  | CStartPartitionShard shard _ _ _ _ => fun w => start_shard w shard
  | CStopPartitionShard shard => fun w => stop_shard w shard
  | CGetLeaderID shard => fun w => (leader shard, w)
  | CData e => fun w => let '(x, n) := DataRun.handle cfg unmarshal _ e (c_node w) in (x, set_node w n)
  | CRemoveAll dir => fun w =>
      (Ok tt, set_disks w (filter (fun sd => removed_by dir (shardDir (DataDir config) sd.1) = false) (c_disks w)))
  | CNow => fun w => (Z.quot (DataRun.n_clock (c_node w)) (10 ^ 6), w)
  | CWait ms => fun w =>
      (None, set_node w (DataRun.set_clock (c_node w) (DataRun.n_clock (c_node w) + ms * 10 ^ 6)))
  | CTick _ => fun w => (false, w)
  | COrder keys => fun w => (keys, w)
  | CRunning => fun w => (c_running w, w)
  | CSetRunning f => fun w => (tt, set_running w (f (c_running w)))
  | CGoLocked f => fun w => (tt, set_tasks w (c_tasks w ++ f (c_running w)))
  | CGo t => fun w => (tt, set_tasks w (c_tasks w ++ [t]))
  | CLeaders => fun w => (c_leaders w, w)
  | CSetLeaders f => fun w => (tt, set_leaders w (f (c_leaders w)))
  end.

(** Running a goroutine, and several one after the other. *)
Definition run_task (w : cnode) (t : task) : cnode := (run handle (task_body config 0 t) w).2.
Definition run_tasks (ts : list task) (w : cnode) : cnode := fold_left run_task ts w.

(** ** Starting and stopping *)

Definition entry_of (shard : Z) (info : shardInfo) : DataCoord.shardEntry :=
  {| DataCoord.se_ShardID := shard; DataCoord.se_Topic := si_Topic info; DataCoord.se_PartitionID := si_PartitionID info |}.
Definition key_of (info : shardInfo) : PartitionKey := PKey (si_Topic info) (si_PartitionID info).

(** What a task on shard [sh] leaves alone. *)
Record elsewhere (sh : Z) (w w' : cnode) : Prop := {
  el_meta : meta w' = meta w;
  el_index : DataRun.n_index (c_node w') = DataRun.n_index (c_node w);
  el_leaders : c_leaders w' = c_leaders w;
  el_tasks : c_tasks w' = c_tasks w;
  el_running : forall sh', sh' <> sh -> c_running w' !! sh' = c_running w !! sh';
  el_shards : forall sh', sh' <> sh -> shards w' !! sh' = shards w !! sh';
  el_disks : forall sh', sh' <> sh -> c_disks w !! sh' = None -> c_disks w' !! sh' = None
}.

Lemma start_task w sh info :
  Seg.cfg_ok cfg -> shards w !! sh = None -> c_disks w !! sh = None ->
  let w' := run_task w (GoStartShard sh info) in
  elsewhere sh w w' /\ c_running w' !! sh = Some info /\
  registry w' = <[key_of info := entry_of sh info]> (registry w) /\
  exists p, shards w' !! sh = Some p /\ Partition.fsm_live cfg p 0 [].
Proof.
  intros Hcfg Hs Hd. destruct (Partition.open_fresh cfg Hcfg) as (p & HO & Hp).
  assert (start_shard w sh = (Ok tt, set_disks (set_node w (set_shards (c_node w) (<[sh := p]> (shards w))))
    (delete sh (c_disks w)))) as E.
  { unfold start_shard. rewrite Hs, Hd. cbn [default fst snd]. by rewrite HO. }
  cbv zeta. unfold run_task. cbn [task_body]. rewrite run_bind. unfold startShard.
  rewrite run_bind, run_trigger. cbn [handle]. rewrite E. cbn.
  split; [constructor; cbn; try done|].
  - intros sh' Hne. by rewrite lookup_insert_ne.
  - intros sh' Hne. by rewrite lookup_insert_ne.
  - intros sh' Hne. by rewrite lookup_delete_ne.
  - rewrite !lookup_insert_eq. split_and!; [done|done|]. eauto.
Qed.

Lemma stop_task w sh info :
  let w' := run_task w (GoStopShard sh info) in
  elsewhere sh w w' /\ c_running w' !! sh = None /\ shards w' !! sh = None /\
  registry w' = delete (key_of info) (registry w).
Proof.
  cbv zeta. unfold run_task. cbn [task_body]. rewrite run_bind. unfold stopShard.
  cbn [in_data dc_StopPartitionReplica DataCoordinator DataCoord.StopPartitionReplica trigger mbind prog_bind].
  cbn [run handle DataRun.handle]. unfold stop_shard.
  cbn [c_node set_node DataRun.set_registry DataRun.n_shards].
  destruct (shards w !! sh) as [p|] eqn:E; cbn.
  - split; [constructor; cbn; try done|].
    + intros sh' Hne. by rewrite lookup_delete_ne.
    + intros sh' Hne. by rewrite lookup_delete_ne.
    + intros sh' Hne Hn. apply map_lookup_filter_None. left. by rewrite lookup_insert_ne.
    + by rewrite !lookup_delete_eq.
  - split; [constructor; cbn; try done|].
    + intros sh' Hne. by rewrite lookup_delete_ne.
    + intros sh' Hne Hn. apply map_lookup_filter_None. by left.
    + by rewrite lookup_delete_eq.
Qed.

(** The shard and the partition a task starts or stops. *)
Definition task_shard (t : task) : option Z :=
  match t with GoStartShard sh _ | GoStopShard sh _ => Some sh | _ => None end.
Definition task_key (t : task) : option PartitionKey :=
  match t with GoStartShard _ info | GoStopShard _ info => Some (key_of info) | _ => None end.

(** The shards to start were never on this node. *)
Definition startable (w : cnode) (ts : list task) : Prop :=
  forall sh info, GoStartShard sh info ∈ ts -> shards w !! sh = None /\ c_disks w !! sh = None.

Record tasks_done (ts : list task) (w w' : cnode) : Prop := {
  td_meta : meta w' = meta w;
  td_index : DataRun.n_index (c_node w') = DataRun.n_index (c_node w);
  td_leaders : c_leaders w' = c_leaders w;
  td_tasks : c_tasks w' = c_tasks w;
  td_started : forall sh info, GoStartShard sh info ∈ ts -> c_running w' !! sh = Some info /\
    exists p, shards w' !! sh = Some p /\ Partition.fsm_live cfg p 0 [];
  td_stopped : forall sh info, GoStopShard sh info ∈ ts -> c_running w' !! sh = None /\ shards w' !! sh = None;
  td_other : forall sh, Some sh ∉ task_shard <$> ts ->
    c_running w' !! sh = c_running w !! sh /\ shards w' !! sh = shards w !! sh;
  td_registered : forall sh info, GoStartShard sh info ∈ ts ->
    (forall t, t ∈ ts -> task_key t = Some (key_of info) -> t = GoStartShard sh info) ->
    registry w' !! key_of info = Some (entry_of sh info);
  td_registry : forall k, Some k ∉ task_key <$> ts -> registry w' !! k = registry w !! k
}.

Lemma tasks_done_nil w : tasks_done [] w w.
Proof. constructor; try done; intros sh info H; by apply not_elem_of_nil in H. Qed.

(** One task and then the rest. *)
Lemma tasks_done_cons t ts w w1 w' sh :
  task_shard t = Some sh -> Some sh ∉ task_shard <$> ts -> elsewhere sh w w1 ->
  (forall info, t = GoStartShard sh info -> c_running w1 !! sh = Some info /\
     registry w1 = <[key_of info := entry_of sh info]> (registry w) /\
     exists p, shards w1 !! sh = Some p /\ Partition.fsm_live cfg p 0 []) ->
  (forall info, t = GoStopShard sh info -> c_running w1 !! sh = None /\ shards w1 !! sh = None /\
     registry w1 = delete (key_of info) (registry w)) ->
  tasks_done ts w1 w' -> tasks_done (t :: ts) w w'.
Proof.
  intros Hsh Hn [] Hstart Hstop []. destruct (td_other0 _ Hn) as [Hr Hs]. constructor; try congruence.
  - intros sh' info [E|H]%elem_of_cons; [|auto]. assert (sh' = sh) as -> by (rewrite <- E in Hsh; by injection Hsh).
    destruct (Hstart _ (eq_sym E)) as (H1 & _ & H2). rewrite Hr, Hs. auto.
  - intros sh' info [E|H]%elem_of_cons; [|eauto]. assert (sh' = sh) as -> by (rewrite <- E in Hsh; by injection Hsh).
    destruct (Hstop _ (eq_sym E)) as (H1 & H2 & _). rewrite Hr, Hs. auto.
  - intros sh'. rewrite fmap_cons, not_elem_of_cons, Hsh. intros [Hne Ho]. destruct (td_other0 _ Ho) as [-> ->].
    split; [apply el_running0|apply el_shards0]; congruence.
  - intros sh' info Hin Hk. destruct (decide (GoStartShard sh' info ∈ ts)) as [Hin'|Hnin].
    { apply td_registered0; [done|]. intros t' Ht'. apply Hk. apply elem_of_cons. by right. }
    apply elem_of_cons in Hin as [E|Hin]; [|done].
    assert (sh' = sh) as -> by (rewrite <- E in Hsh; by injection Hsh).
    rewrite td_registry0; [destruct (Hstart _ (eq_sym E)) as (_ & -> & _); apply lookup_insert_eq|].
    intros (t' & Hk' & Ht')%list_elem_of_fmap. apply Hnin.
    rewrite <- (Hk t'); [done|apply elem_of_cons; by right|done].
  - intros k. rewrite fmap_cons, not_elem_of_cons. intros [Hne Hk]. rewrite td_registry0 by done.
    destruct t as [sh' info|sh' info| | |]; try done; injection Hsh as ->.
    + destruct (Hstart _ eq_refl) as (_ & -> & _). apply lookup_insert_ne. cbn in Hne. congruence.
    + destruct (Hstop _ eq_refl) as (_ & _ & ->). apply lookup_delete_ne. cbn in Hne. congruence.
Qed.

Lemma run_tasks_done ts w :
  Seg.cfg_ok cfg -> Forall (fun t => is_Some (task_shard t)) ts -> NoDup (task_shard <$> ts) -> startable w ts ->
  tasks_done ts w (run_tasks ts w).
Proof.
  intros Hcfg. revert w. induction ts as [|t ts IH]; intros w Hall Hd Hst; [apply tasks_done_nil|].
  apply Forall_cons in Hall as [[sh Hsh] Hall]. rewrite fmap_cons in Hd. apply NoDup_cons in Hd as [Hn Hd].
  rewrite Hsh in Hn. cbn [run_tasks fold_left]. fold (run_tasks ts (run_task w t)).
  assert (elsewhere sh w (run_task w t) -> startable (run_task w t) ts) as Hst'.
  { intros [] sh' info Hin. destruct (Hst sh' info) as [H1 H2]; [apply elem_of_cons; by right|].
    assert (sh' <> sh) as Hne. { intros ->. apply Hn. apply list_elem_of_fmap. by exists (GoStartShard sh info). }
    rewrite el_shards0 by done. auto. }
  destruct t as [sh' info|sh' info| | |]; try done; injection Hsh as ->.
  - destruct (Hst sh info) as [H1 H2]; [apply elem_of_cons; by left|].
    destruct (start_task w sh info Hcfg H1 H2) as (He & Hr & Hreg & Hp).
    eapply tasks_done_cons; [done|done|exact He| |done|by apply IH; auto].
    intros info' [= <-]. auto.
  - destruct (stop_task w sh info) as (He & Hr & Hp & Hreg).
    eapply tasks_done_cons; [done|done|exact He|done| |by apply IH; auto].
    intros info' [= <-]. auto.
Qed.

(** ** What the metadata expects of the node *)

Definition info_of (p : PartitionMeta) : shardInfo :=
  {| si_Topic := pTopic p; si_PartitionID := pPartitionID p; si_ShardID := ShardID p;
     si_Peers := buildPeerMap (ReplicaNodeIDs p) (Peers config) |}.

(** Partition [p] of [s] is placed on this node. *)
Definition hosted (s : MetadataState) (sh : Z) (info : shardInfo) : Prop :=
  exists k p, Partitions s !! k = Some p /\ ccNodeID config ∈ ReplicaNodeIDs p /\ ShardID p = sh /\ info = info_of p.

Definition expected_of (s : MetadataState) : running_shards :=
  fold_left (fun e tm => add_hosted config (topicPartitions s (Name tm)) e) (listTopics s) ∅.

Lemma hosted_fun s sh info1 info2 : meta_ok s -> hosted s sh info1 -> hosted s sh info2 -> info1 = info2.
Proof.
  intros Hok (k1 & p1 & H1 & _ & E1 & ->) (k2 & p2 & H2 & _ & E2 & ->).
  assert (k1 = k2) as -> by (eapply (mo_shard_inj _ Hok); [exact H1|exact H2|congruence]). congruence.
Qed.

Lemma hosted_key s sh1 sh2 info1 info2 :
  meta_ok s -> hosted s sh1 info1 -> hosted s sh2 info2 -> key_of info1 = key_of info2 -> sh1 = sh2 /\ info1 = info2.
Proof.
  intros Hok (k1 & p1 & H1 & _ & E1 & ->) (k2 & p2 & H2 & _ & E2 & ->) [= Et Ei].
  destruct (mo_fields _ Hok _ _ H1) as (A1 & A2 & _), (mo_fields _ Hok _ _ H2) as (B1 & B2 & _).
  assert (k1 = k2) as -> by (destruct k1, k2; cbn in *; congruence). split; congruence.
Qed.

Lemma add_hosted_elem s pms e :
  (forall pm, pm ∈ pms -> exists k, Partitions s !! k = Some pm) ->
  (forall sh info, e !! sh = Some info -> hosted s sh info) ->
  (forall sh info, add_hosted config pms e !! sh = Some info -> hosted s sh info) /\
  (forall sh, is_Some (e !! sh) -> is_Some (add_hosted config pms e !! sh)) /\
  (forall pm, pm ∈ pms -> ccNodeID config ∈ ReplicaNodeIDs pm -> is_Some (add_hosted config pms e !! ShardID pm)).
Proof.
  revert e. induction pms as [|pm pms IH]; intros e Hpm He.
  { split_and!; [done|done|]. intros pm H. by apply not_elem_of_nil in H. }
  unfold add_hosted. cbn [fold_left]. fold (info_of pm). set (e1 := if bool_decide _ then _ else e).
  fold (add_hosted config pms e1).
  assert (forall sh info, e1 !! sh = Some info -> hosted s sh info) as He1.
  { intros sh info. unfold e1. case_bool_decide as Hin; [|apply He].
    intros [[<- <-]|[_ H]]%lookup_insert_Some; [|by apply He].
    destruct (Hpm pm) as [k Hk]; [apply elem_of_cons; by left|]. by exists k, pm. }
  assert (forall sh, is_Some (e !! sh) -> is_Some (e1 !! sh)) as Hm.
  { intros sh H. unfold e1. case_bool_decide; [|done]. rewrite lookup_insert_is_Some.
    destruct (decide (ShardID pm = sh)); auto. }
  destruct (IH e1) as (H1 & H2 & H3); [intros pm' H; apply Hpm, elem_of_cons; by right|done|].
  split_and!; [done|auto|]. intros pm' [->|Hin]%elem_of_cons Hr; [|auto].
  apply H2. unfold e1. rewrite bool_decide_eq_true_2 by done. rewrite lookup_insert_eq. eauto.
Qed.

Lemma topicPartitions_elem s t pm :
  pm ∈ topicPartitions s t <-> exists k, Partitions s !! k = Some pm /\ pk_topic k = t.
Proof.
  unfold topicPartitions. rewrite merge_sort_Permutation, list_elem_of_fmap. split.
  - intros ([k p] & -> & [Ht Hin]%list_elem_of_filter). exists k. split; [by apply elem_of_map_to_list in Hin|done].
  - intros (k & Hk & Ht). exists (k, pm). split; [done|]. apply list_elem_of_filter. split; [done|].
    by apply elem_of_map_to_list.
Qed.

Lemma listTopics_elem s tm : tm ∈ listTopics s <-> exists t, Topics s !! t = Some tm.
Proof.
  unfold listTopics. rewrite merge_sort_Permutation, list_elem_of_fmap. split.
  - intros ([t m] & -> & Hin%elem_of_map_to_list). by exists t.
  - intros (t & Ht). exists (t, tm). split; [done|]. by apply elem_of_map_to_list.
Qed.

Lemma expected_fold s tms e :
  (forall sh info, e !! sh = Some info -> hosted s sh info) ->
  let e' := fold_left (fun e tm => add_hosted config (topicPartitions s (Name tm)) e) tms e in
  (forall sh info, e' !! sh = Some info -> hosted s sh info) /\
  (forall sh, is_Some (e !! sh) -> is_Some (e' !! sh)) /\
  (forall tm k p, tm ∈ tms -> Partitions s !! k = Some p -> pk_topic k = Name tm ->
     ccNodeID config ∈ ReplicaNodeIDs p -> is_Some (e' !! ShardID p)).
Proof.
  revert e. induction tms as [|tm tms IH]; intros e He; cbv zeta; cbn [fold_left].
  { split_and!; [done|done|]. intros tm k p H. by apply not_elem_of_nil in H. }
  destruct (add_hosted_elem s (topicPartitions s (Name tm)) e) as (H1 & H2 & H3); [|done|].
  { intros pm (k & Hk & _)%topicPartitions_elem. eauto. }
  destruct (IH (add_hosted config (topicPartitions s (Name tm)) e) H1) as (G1 & G2 & G3). split_and!; [done|auto|].
  intros tm' k p [->|Hin]%elem_of_cons Hk Ht Hr; [|by eapply G3].
  apply G2, H3; [|done]. apply topicPartitions_elem. eauto.
Qed.

Lemma expected_spec s sh info : meta_ok s -> expected_of s !! sh = Some info <-> hosted s sh info.
Proof.
  intros Hok. destruct (expected_fold s (listTopics s) ∅) as (H1 & _ & H3); [intros ? ?; by rewrite lookup_empty|].
  split; [apply H1|]. intros Hh. pose proof Hh as (k & p & Hk & Hr & <- & ->).
  destruct (proj1 (mo_parts _ Hok (pk_topic k) (pk_partition k))) as (m & Hm & _); [destruct k; eauto|].
  destruct (H3 m k p) as [info Hi]; [apply listTopics_elem; eauto|done|by destruct (mo_topics _ Hok _ _ Hm)|done|].
  unfold expected_of. rewrite Hi. f_equal. eapply hosted_fun; [done|by apply H1|done].
Qed.

(** ** Reconciliation *)

Lemma run_expected w tms e :
  (forall tm, tm ∈ tms -> is_Some (Topics (meta w) !! Name tm)) ->
  run handle (expected_shards config tms e) w =
  (Ok (fold_left (fun e tm => add_hosted config (topicPartitions (meta w) (Name tm)) e) tms e), w).
Proof.
  revert e. induction tms as [|tm tms IH]; intros e H; [done|]. cbn [expected_shards fold_left].
  rewrite run_bind, run_trigger. cbn [handle Lookup].
  destruct (H tm) as [m Hm]; [apply elem_of_cons; by left|]. rewrite Hm. apply IH.
  intros tm' Hin. apply H, elem_of_cons. by right.
Qed.

Lemma run_reconcile w :
  meta_ok (meta w) ->
  run handle (reconcileOnce config) w =
  (Ok tt, set_tasks w (c_tasks w ++ reconcile_tasks (expected_of (meta w)) (c_running w))).
Proof.
  intros Hok. unfold reconcileOnce. rewrite run_bind, run_trigger. cbn [handle Lookup].
  rewrite run_call, run_expected; [reflexivity|].
  intros tm (t & Ht)%listTopics_elem. destruct (mo_topics _ Hok _ _ Ht) as [-> _]. eauto.
Qed.

Lemma start_in expected running sh info :
  GoStartShard sh info ∈ reconcile_tasks expected running <-> expected !! sh = Some info /\ running !! sh = None.
Proof.
  unfold reconcile_tasks. rewrite elem_of_app, !list_elem_of_In, !in_map_iff. split.
  - intros [([sh' i] & [= <- <-] & Hin)|(x & [=] & _)].
    apply list_elem_of_In, list_elem_of_filter in Hin as [Hn Hin]. split; [by apply elem_of_map_to_list|done].
  - intros [He Hr]. left. exists (sh, info). split; [done|]. apply list_elem_of_In, list_elem_of_filter.
    split; [done|]. by apply elem_of_map_to_list.
Qed.

Lemma stop_in expected running sh info :
  GoStopShard sh info ∈ reconcile_tasks expected running <-> running !! sh = Some info /\ expected !! sh = None.
Proof.
  unfold reconcile_tasks. rewrite elem_of_app, !list_elem_of_In, !in_map_iff. split.
  - intros [(x & [=] & _)|([sh' i] & [= <- <-] & Hin)].
    apply list_elem_of_In, list_elem_of_filter in Hin as [Hn Hin]. split; [by apply elem_of_map_to_list|done].
  - intros [He Hr]. right. exists (sh, info). split; [done|]. apply list_elem_of_In, list_elem_of_filter.
    split; [done|]. by apply elem_of_map_to_list.
Qed.

Lemma task_in expected running t :
  t ∈ reconcile_tasks expected running -> exists sh info, t = GoStartShard sh info \/ t = GoStopShard sh info.
Proof.
  unfold reconcile_tasks. rewrite elem_of_app, !list_elem_of_In, !in_map_iff.
  intros [([sh info] & <- & _)|([sh info] & <- & _)]; eauto.
Qed.

Lemma settled expected running :
  (forall sh, is_Some (running !! sh) <-> is_Some (expected !! sh)) -> reconcile_tasks expected running = [].
Proof.
  intros Hr. destruct (reconcile_tasks expected running) as [|t ts] eqn:E; [done|]. exfalso.
  assert (t ∈ reconcile_tasks expected running) as Hin by (rewrite E; apply elem_of_cons; by left).
  destruct (task_in _ _ _ Hin) as (sh & info & [-> | ->]).
  - apply start_in in Hin as [H1 H2]. destruct (proj2 (Hr sh)) as [x Hx]; [eauto|congruence].
  - apply stop_in in Hin as [H1 H2]. destruct (proj1 (Hr sh)) as [x Hx]; [eauto|congruence].
Qed.

Lemma shards_of_tasks expected running :
  task_shard <$> reconcile_tasks expected running =
  (Some <$> (filter (fun p => running !! p.1 = None) (map_to_list expected)).*1) ++
  (Some <$> (filter (fun p => expected !! p.1 = None) (map_to_list running)).*1).
Proof.
  unfold reconcile_tasks. rewrite fmap_app. f_equal; rewrite <- !list_fmap_compose; reflexivity.
Qed.

Lemma NoDup_filter_keys {A} (m : gmap Z A) (P : Z * A -> Prop) `{forall x, Decision (P x)} :
  NoDup (Some <$> (filter P (map_to_list m)).*1).
Proof.
  apply NoDup_fmap_2; [apply _|]. apply NoDup_fmap_2_strong.
  - intros [k1 v1] [k2 v2] [_ H1]%list_elem_of_filter [_ H2]%list_elem_of_filter E. cbn in E. subst k2.
    apply elem_of_map_to_list in H1, H2. congruence.
  - apply NoDup_filter, NoDup_map_to_list.
Qed.

Lemma reconcile_tasks_NoDup expected running : NoDup (task_shard <$> reconcile_tasks expected running).
Proof.
  rewrite shards_of_tasks. apply NoDup_app. split_and!; [apply NoDup_filter_keys| |apply NoDup_filter_keys].
  intros o (sh & -> & ([k v] & -> & [Hn Hin]%list_elem_of_filter)%list_elem_of_fmap)%list_elem_of_fmap.
  intros (sh' & [= <-] & ([k' v'] & E & [Hn' Hin']%list_elem_of_filter)%list_elem_of_fmap)%list_elem_of_fmap.
  cbn in *. subst k'. apply elem_of_map_to_list in Hin'. congruence.
Qed.

(** The tasks of a reconciliation, run in any order. *)
Lemma reconcile_done w order :
  Seg.cfg_ok cfg -> startable w (reconcile_tasks (expected_of (meta w)) (c_running w)) ->
  order ≡ₚ reconcile_tasks (expected_of (meta w)) (c_running w) ->
  tasks_done order w (run_tasks order w).
Proof.
  intros Hcfg Hst Hp. apply run_tasks_done; [done| | |].
  - apply Forall_forall. intros t Ht. rewrite Hp in Ht. apply task_in in Ht as (sh & info & [-> | ->]); cbn; eauto.
  - rewrite Hp. apply reconcile_tasks_NoDup.
  - intros sh info Hin. rewrite Hp in Hin. by apply (Hst sh info).
Qed.

Lemma running_after w order sh :
  tasks_done order w (run_tasks order w) -> order ≡ₚ reconcile_tasks (expected_of (meta w)) (c_running w) ->
  is_Some (c_running (run_tasks order w) !! sh) <-> is_Some (expected_of (meta w) !! sh).
Proof.
  intros [] Hp. destruct (expected_of (meta w) !! sh) as [i|] eqn:Ee, (c_running w !! sh) as [j|] eqn:Er.
  - destruct (td_other0 sh) as [-> _]; [|rewrite Er; split; eauto].
    intros (t & Ht & Hin)%list_elem_of_fmap. rewrite Hp in Hin.
    destruct (task_in _ _ _ Hin) as (sh' & info & [-> | ->]); injection Ht as <-.
    + apply start_in in Hin as [_ Hin]. congruence.
    + apply stop_in in Hin as [_ Hin]. congruence.
  - destruct (td_started0 sh i) as [-> _]; [|split; eauto]. rewrite Hp. by apply start_in.
  - destruct (td_stopped0 sh j) as [-> _]; [|split; intros [? [=]]]. rewrite Hp. by apply stop_in.
  - destruct (td_other0 sh) as [-> _]; [|rewrite Er; done].
    intros (t & Ht & Hin)%list_elem_of_fmap. rewrite Hp in Hin.
    destruct (task_in _ _ _ Hin) as (sh' & info & [-> | ->]); injection Ht as <-.
    + apply start_in in Hin as [Hin _]. congruence.
    + apply stop_in in Hin as [Hin _]. congruence.
Qed.

(** C25: reconciliation converges in one round. From a node without pending goroutines on which the
    shards to start were never run, let [reconcileOnce] start its goroutines and let them run in
    any order. Then the node runs exactly the shards the metadata places on it; the new ones
    have open, empty state machines and, unless a shard of the same partition was stopped at the
    same time, a registry entry that routes requests to them; and the next reconciliation has
    nothing left to do. *)
Theorem reconcile_converges w w1 order :
  Seg.cfg_ok cfg -> meta_ok (meta w) -> c_tasks w = [] ->
  startable w (reconcile_tasks (expected_of (meta w)) (c_running w)) ->
  run handle (reconcileOnce config) w = (Ok tt, w1) -> order ≡ₚ c_tasks w1 ->
  let w2 := run_tasks order (set_tasks w1 []) in
  (forall sh, is_Some (c_running w2 !! sh) <-> exists info, hosted (meta w) sh info) /\
  (forall sh info, hosted (meta w) sh info -> c_running w !! sh = None ->
     c_running w2 !! sh = Some info /\ (exists p, shards w2 !! sh = Some p /\ Partition.fsm_live cfg p 0 []) /\
     ((forall sh' info', c_running w !! sh' = Some info' -> key_of info' = key_of info -> is_Some (expected_of (meta w) !! sh')) ->
      registry w2 !! key_of info = Some (entry_of sh info))) /\
  run handle (reconcileOnce config) w2 = (Ok tt, w2).
Proof.
  intros Hcfg Hok Ht Hst Hrun Hp. rewrite run_reconcile, Ht in Hrun by done. injection Hrun as <-.
  cbn [c_tasks set_tasks app] in Hp. cbv zeta. set (w0 := set_tasks (set_tasks w _) []).
  assert (c_tasks w0 = []) as Ht0 by done.
  pose proof (reconcile_done w0 order Hcfg Hst Hp) as Hd. set (w2 := run_tasks order w0) in *.
  assert (forall sh, is_Some (c_running w2 !! sh) <-> is_Some (expected_of (meta w) !! sh)) as Hr.
  { intros sh. exact (running_after w0 order sh Hd Hp). }
  split_and!.
  - intros sh. rewrite Hr. split; intros [info H]; exists info; by apply expected_spec.
  - intros sh info Hh Hn. apply expected_spec in Hh as He; [|done].
    assert (GoStartShard sh info ∈ order) as Hin by (rewrite Hp; by apply start_in).
    destruct (td_started _ _ _ Hd _ _ Hin) as [H1 H2]. split_and!; [done|done|]. intros Hkeys.
    apply (td_registered _ _ _ Hd); [done|]. intros t Hin' Hk. rewrite Hp in Hin'.
    destruct (task_in _ _ _ Hin') as (sh' & info' & [-> | ->]); injection Hk as Ek.
    + apply start_in in Hin' as [He' _]. apply expected_spec in He'; [|done].
      destruct (hosted_key (meta w) sh' sh info' info) as [-> ->]; [done..| |done]. unfold key_of. congruence.
    + apply stop_in in Hin' as [Hr' He']. destruct (Hkeys sh' info') as [x Hx]; [done|unfold key_of; congruence|].
      cbn in He'. congruence.
  - assert (meta w2 = meta w) as Em by apply (td_meta _ _ _ Hd). rewrite run_reconcile by (by rewrite Em).
    rewrite (settled (expected_of (meta w2)) (c_running w2)) by (rewrite Em; exact Hr).
    rewrite app_nil_r. f_equal. apply set_tasks_same.
Qed.

End node.
End ClusterRun.
