(* ===== verification/RaftHost.v ===== *)
(** * The raft host

    internal/raft/host.go and [brokerHost] of cmd/bunnymq/main.go: the calls the coordinators make
    of raft, as programs over the node host of the dragonboat library. The library is not part of
    the repository: its documented behaviour on a healthy node is the class [NodeHost] (it refuses
    proposals with less time than a tick, and shards with an invalid configuration), and with it
    every program of the cluster and data coordinators whose requests are in order ([request_ok])
    does through the host what ClusterRun.v says ([through_host]). Log entries are the JSON values
    or bytes they hold. *)

From S2P Require Import Prelude SegName LogSegment Keys Json Metadata Prog GroupCoord GroupSem MetaJson Segment Storage StorageExamples Partition DataCoord ClusterCoord DataRun ClusterRun.
Local Open Scope Z_scope.

Module RaftHost.
Import Metadata ClusterCoord Json MetaJson.

Definition metadataShardID : Z := 0.
Definition defaultProposeTimeout : Z := 5 * 10 ^ 9.

(** [Config] of host.go, without the peers, which nothing reads. *)
Record Config := { DataDir : string; RaftAddress : string; cf_NodeID : Z; RaftRTTMs : Z }.

(** The settings of the library that are used. *)
Record NodeHostConfig := {
  DeploymentID : Z;
  WALDir : string;
  NodeHostDir : string;
  RTTMillisecond : Z;
  nh_RaftAddress : string;
  EnableMetrics : bool
}.

Record ShardConfig := {
  ReplicaID : Z;
  sc_ShardID : Z;
  ElectionRTT : Z;
  HeartbeatRTT : Z;
  CheckQuorum : bool;
  MaxInMemLogSize : Z;
  SnapshotEntries : Z;
  CompactionOverhead : Z
}.

(** What [NewHost] opens the node host with. *)
Definition nodeHostConfig (cfg : Config) : NodeHostConfig :=
  {| DeploymentID := 1; WALDir := String.append (DataDir cfg) "/wal"; NodeHostDir := String.append (DataDir cfg) "/raft";
     RTTMillisecond := RaftRTTMs cfg; nh_RaftAddress := RaftAddress cfg; EnableMetrics := true |}.

Definition shardConfig (cfg : Config) (shardID : Z) : ShardConfig :=
  {| ReplicaID := cf_NodeID cfg; sc_ShardID := shardID; ElectionRTT := 10; HeartbeatRTT := 1; CheckQuorum := true;
     MaxInMemLogSize := Z.shiftl 32 20; SnapshotEntries := Z.shiftl 1 62; CompactionOverhead := Z.shiftl 1 62 |}.

(** What a log entry holds. *)
Inductive data := JsonData (v : json) | ByteData (b : list byte).

(** The state machine a factory makes for a shard. *)
Record fsm_spec := { fs_dir : string; fs_sidecarPath : string; fs_topic : string; fs_partitionID : string }.

(** ** The node host *)

Inductive nodeE : Type -> Type :=
| NSyncPropose (deadline shard : Z) (cmd : data) : nodeE (outcome Result)
| NPropose (shard : Z) (cmd : data) (timeout : Z) : nodeE (outcome unit)
    (** the goroutine that releases the request state changes nothing *)
| NStaleReadMetadata (shard : Z) (q : MetadataQuery) : nodeE (outcome answer)
| NStaleReadPartition (shard : Z) (q : Partition.PartitionQuery) : nodeE (outcome Partition.lookup_reply)
| NStartReplica (members : gmap Z string) (join : bool) (cfg : ShardConfig) : nodeE (outcome unit)
| NStartOnDiskReplica (members : gmap Z string) (join : bool) (create : Z -> fsm_spec) (cfg : ShardConfig) : nodeE (outcome unit)
| NStopShard (shard : Z) : nodeE (outcome unit)
| NGetLeaderID (shard : Z) : nodeE (outcome (Z * Z * bool))
| NClose : nodeE unit
| NNow : nodeE Z.

(** ** The host *)

Section host.
(** The coordinators' other requests, which do not concern raft. *)
Context {L : Type -> Type}.

Inductive hostE (X : Type) : Type :=
| HNode (e : nodeE X)
| HLocal (e : L X).
Arguments HNode {X}. Arguments HLocal {X}.

Abbreviation hprog := (prog hostE).
Definition node {X} (e : nodeE X) : hprog X := trigger (HNode e).

Variable cfg : Config.

Definition StartMetadataShard (initialMembers : gmap Z string) (join : bool) : hprog (outcome unit) :=
  node (NStartReplica initialMembers join (shardConfig cfg metadataShardID)).

Definition StartPartitionShard (shardID : Z) (initialMembers : gmap Z string) (join : bool) (factory : Z -> fsm_spec) : hprog (outcome unit) :=
  node (NStartOnDiskReplica initialMembers join factory (shardConfig cfg shardID)).

Definition StopPartitionShard (shardID : Z) : hprog (outcome unit) := node (NStopShard shardID).
Definition GetLeaderID (shardID : Z) : hprog (outcome (Z * Z * bool)) := node (NGetLeaderID shardID).
Definition Close : hprog (outcome unit) := _ ← node NClose; Ret (Ok tt).

(** A context is its deadline, if it has one. *)
Definition withDeadline (ctx : option Z) : hprog Z :=
  match ctx with
  | Some deadline => Ret deadline
  | None => now ← node NNow; Ret (now + defaultProposeTimeout)
  end.

Definition proposeTimeout (ctx : option Z) : hprog Z :=
  match ctx with
  | None => Ret defaultProposeTimeout
  | Some deadline =>
      now ← node NNow;
      let rem := deadline - now in
      Ret (if 0 <? rem then rem else 10 ^ 6)
  end.

Definition Marshal (cmd : MetadataCommand) : outcome json :=
  match cmd with
  | CmdJoinConsumerGroup (Some c) =>
      match jc_Member c with
      | Some m => if year_ok (JoinedAt m) then Ok (encode_command cmd) else Err ErrYear
      | None => Ok (encode_command cmd)
      end
  | _ => Ok (encode_command cmd)
  end.

Definition SyncProposeMetadata (ctx : option Z) (cmd : MetadataCommand) : hprog (outcome Result) :=
  call (Ret (Marshal cmd)) id (fun data =>
  deadline ← withDeadline ctx;
  node (NSyncPropose deadline metadataShardID (JsonData data))).

Definition ProposeMetadata (ctx : option Z) (cmd : MetadataCommand) : hprog (outcome unit) :=
  call (Ret (Marshal cmd)) id (fun data =>
  timeout ← proposeTimeout ctx;
  node (NPropose metadataShardID (JsonData data) timeout)).

Definition LookupMetadata (q : MetadataQuery) : hprog (outcome answer) := node (NStaleReadMetadata metadataShardID q).

Definition SyncProposePartition (ctx : option Z) (shardID : Z) (cmd : Partition.PartitionCommand) : hprog (outcome Result) :=
  deadline ← withDeadline ctx;
  node (NSyncPropose deadline shardID (ByteData (Partition.Marshal cmd))).

Definition ProposePartition (ctx : option Z) (shardID : Z) (cmd : Partition.PartitionCommand) : hprog (outcome unit) :=
  timeout ← proposeTimeout ctx;
  node (NPropose shardID (ByteData (Partition.Marshal cmd)) timeout).

Definition LookupPartition (shardID : Z) (q : Partition.PartitionQuery) : hprog (outcome Partition.lookup_reply) :=
  node (NStaleReadPartition shardID q).

(** ** The broker's host *)

Variable dataDir : string.

(** The factory of [brokerHost.StartPartitionShard]. *)
Definition partitionFactory (topic : string) (partitionID : Z) (sid : Z) : fsm_spec :=
  let dir := ClusterRun.shardDir dataDir sid in
  {| fs_dir := dir; fs_sidecarPath := ClusterCoord.Join [dir; "applied.idx"]; fs_topic := topic; fs_partitionID := fmt_d partitionID |}.

Definition broker_StartPartitionShard (shardID : Z) (members : gmap Z string) (join : bool) (topic : string) (partitionID : Z)
  : hprog (outcome unit) :=
  StartPartitionShard shardID members join (partitionFactory topic partitionID).

End host.
Arguments hostE : clear implicits.
Arguments HNode {L X}. Arguments HLocal {L X}.

(** ** The coordinators' requests *)

Section requests.
Variable cfg : Config.
Variable dataDir : string.
(** The context each call is given. *)
Variable ctx : forall X, clusterE X -> option Z.
Abbreviation hprog := (prog (hostE clusterE)).

(** A nil result of a lookup is an untyped nil only for a missing group. *)
Definition nil_answer (r : outcome answer) : outcome (option answer) :=
  match r with
  | Ok (AGroupState None) => Ok None
  | Ok a => Ok (Some a)
  | Err e => Err e
  | Panic p => Panic p
  | OutOfFuel => OutOfFuel
  end.
Definition value_of (r : outcome Result) : outcome Z :=
  match r with Ok r => Ok (Value r) | Err e => Err e | Panic p => Panic p | OutOfFuel => OutOfFuel end.

Definition data_request X (e : DataCoord.dataE X) : hprog X :=
  match e in DataCoord.dataE X return hprog X with
  | DataCoord.DLookupMetadata q => r ← LookupMetadata q; Ret (nil_answer r)
  | DataCoord.DLookupPartition shard q => LookupPartition shard q
  | DataCoord.DSyncPropose shard cmd =>
      r ← SyncProposePartition (ctx _ (CData (DataCoord.DSyncPropose shard cmd))) shard cmd; Ret (value_of r)
  | DataCoord.DPropose shard cmd => ProposePartition (ctx _ (CData (DataCoord.DPropose shard cmd))) shard cmd
  | e => trigger (HLocal (CData e))
  end.

Definition broker_request X (e : clusterE X) : hprog X :=
  match e in clusterE X return hprog X with
  | CLookup q => LookupMetadata q
  | CPropose cmd => SyncProposeMetadata (ctx _ (CPropose cmd)) cmd
  | CProposePartition shard cmd => ProposePartition (ctx _ (CProposePartition shard cmd)) shard cmd
  | CStartMetadataShard members join => StartMetadataShard cfg members join
  | CStartPartitionShard shard members join topic id => broker_StartPartitionShard cfg dataDir shard members join topic id
  | CStopPartitionShard shard => StopPartitionShard shard
  | CGetLeaderID shard => GetLeaderID shard
  | CData e => data_request _ e
  | e => trigger (HLocal e)
  end.

End requests.

(** ** The group coordinator *)

Definition group_request (ctx : forall X, GroupCoord.groupE X -> option Z) X (e : GroupCoord.groupE X) : prog (hostE GroupCoord.groupE) X :=
  match e in GroupCoord.groupE X return prog (hostE GroupCoord.groupE) X with
  | GroupCoord.ELookup q => LookupMetadata q
  | GroupCoord.EPropose cmd => SyncProposeMetadata (ctx _ (GroupCoord.EPropose cmd)) cmd
  | GroupCoord.ELeader shard => GetLeaderID shard
  | e => trigger (HLocal e)
  end.

(** ** The library *)

Section library.
Variable scfg : StorageConfig.
Variable unmarshal : list byte -> option (Z * Z).
Variable config : CoordinatorConfig.
Variable leader : Z -> outcome (Z * Z * bool).
(** What the node host was opened with. *)
Variable nhc : NodeHostConfig.
Abbreviation chandle := (ClusterRun.handle scfg unmarshal config leader).
Import ClusterRun.

(** An entry of a partition's log, committed and applied at the next index. *)
Definition entry_applied (n : DataRun.node) (shard : Z) (b : list byte) : outcome Z * DataRun.node :=
  match DataRun.n_shards n !! shard with
  | None => (Err (ErrNew "shard not found"), n)
  | Some p =>
      match Partition.Update unmarshal scfg p [{| Partition.Index := DataRun.n_index n; Partition.Cmd := b |}] with
      | (p', Ok [v]) => (Ok v, DataRun.set_shard n shard p')
      | (p', _) => (Err (ErrNew "timeout"), DataRun.set_shard n shard p')
      end
  end.
Definition result_of (r : outcome Z) : outcome Result :=
  match r with Ok v => Ok {| Value := v; Data := NoData |} | Err e => Err e | Panic p => Panic p | OutOfFuel => OutOfFuel end.
Definition done_of (r : outcome Z) : outcome unit :=
  match r with Ok _ => Ok tt | Err e => Err e | Panic p => Panic p | OutOfFuel => OutOfFuel end.

(** The logical clock of the library, in nanoseconds. *)
Definition tick : Z := RTTMillisecond nhc * 10 ^ 6.
Definition now (w : cnode) : Z := DataRun.n_clock (c_node w).

(** The checks of a shard's configuration: a replica has an ID, elections take more than two
    heartbeats, the log in memory holds some entries; and no snapshot is taken before an index that
    no shard reaches. *)
Definition valid_config (c : ShardConfig) : Prop :=
  1 <= ReplicaID c /\ 0 < HeartbeatRTT c /\ 2 * HeartbeatRTT c < ElectionRTT c /\
  (MaxInMemLogSize c = 0 \/ 2 ^ 16 <= MaxInMemLogSize c) /\ (SnapshotEntries c = 0 \/ 2 ^ 60 <= SnapshotEntries c).

(** A shard is started with its first members, or joins without. *)
Definition startable (members : gmap Z string) (join : bool) : Prop := if join then members = ∅ else members <> ∅.

(** What the documentation of the library says of a healthy node: a proposal that has at least a
    tick of time is committed and applied to the shard's state machine, whose result is
    returned, one that has less is refused; a stale read is answered by the local state machine;
    starting a replica with a valid configuration opens the state machine its factory makes. *)
Class NodeHost (nh : forall X, nodeE X -> cnode -> X * cnode) : Prop := {
  nh_now : forall w, nh _ NNow w = (DataRun.n_clock (c_node w), w);
  nh_sync_metadata : forall deadline v w, now w + tick <= deadline -> nh _ (NSyncPropose deadline metadataShardID (JsonData v)) w =
    match Update (meta w) (decode_command v) with
    | Ok (s', r) => (Ok r, set_node w (set_meta (c_node w) s'))
    | _ => (Err (ErrNew "timeout"), w)
    end;
  nh_sync_partition : forall deadline shard b w, shard <> metadataShardID -> now w + tick <= deadline ->
    nh _ (NSyncPropose deadline shard (ByteData b)) w =
      let '(r, n) := entry_applied (c_node w) shard b in (result_of r, set_node w n);
  nh_sync_late : forall deadline shard cmd w, deadline < now w + tick -> exists e, nh _ (NSyncPropose deadline shard cmd) w = (Err e, w);
  nh_propose_partition : forall shard b timeout w, shard <> metadataShardID -> tick <= timeout ->
    nh _ (NPropose shard (ByteData b) timeout) w =
      let '(r, n) := entry_applied (c_node w) shard b in (done_of r, set_node w n);
  nh_read_metadata : forall q w, nh _ (NStaleReadMetadata metadataShardID q) w = (Lookup (meta w) q, w);
  nh_read_partition : forall shard q w, nh _ (NStaleReadPartition shard q) w =
    (match shards w !! shard with None => Err (ErrNew "shard not found") | Some p => Partition.Lookup p q end, w);
  nh_propose_late : forall shard cmd timeout w, timeout < tick -> exists e, nh _ (NPropose shard cmd timeout) w = (Err e, w);
  nh_start_metadata : forall members join c w, valid_config c -> startable members join -> nh _ (NStartReplica members join c) w = (Ok tt, w);
  nh_start_partition : forall members join create c w, valid_config c -> startable members join ->
    fs_dir (create (sc_ShardID c)) = shardDir (ClusterCoord.DataDir config) (sc_ShardID c) ->
    nh _ (NStartOnDiskReplica members join create c) w = start_shard scfg w (sc_ShardID c);
  nh_stop : forall shard w, nh _ (NStopShard shard) w = stop_shard w shard;
  nh_leader : forall shard w, nh _ (NGetLeaderID shard) w = (leader shard, w)
}.


Lemma Marshal_fits cmd : command_fits cmd -> Marshal cmd = Ok (encode_command cmd).
Proof.
  intros Hf. destruct cmd as [| | | | | |[c|]| | | | |]; try reflexivity. cbn [Marshal]. destruct (jc_Member c) as [m|] eqn:Em; [|done].
  destruct Hf as (_ & _ & _ & _ & _ & _ & _ & Hj & _). destruct Hj as (_ & _ & _ & _ & _ & Hm & _).
  cbn in Hm. rewrite Em in Hm. destruct Hm as (_ & _ & _ & _ & Ht & _).
  by rewrite year_ok_fits.
Qed.

Section host_run.
Variable nh : forall X, nodeE X -> cnode -> X * cnode.
Context `{!NodeHost nh}.

(** The deadline of a call leaves it a tick; a call without one gets five seconds. *)
Definition in_time (c : option Z) (time : Z) : Prop := match c with Some d => time + tick <= d | None => tick <= defaultProposeTimeout end.

(** The host's programs in a world that has the node in it. *)
Section node_in.
Context {L : Type -> Type} {W : Type} (g : forall X, hostE L X -> W -> X * W) (get : W -> cnode) (put : W -> cnode -> W).
Hypothesis put_get : forall w, put w (get w) = w.
Hypothesis g_node : forall X (e : nodeE X) w, g X (HNode e) w = let '(x, c) := nh X e (get w) in (x, put w c).

Lemma run_node {X} (e : nodeE X) w : run g (node e) w = let '(x, c) := nh X e (get w) in (x, put w c).
Proof. unfold node. by rewrite run_trigger, g_node. Qed.

(** A proposal has the time the context leaves it, or five seconds. *)
Lemma run_withDeadline c w :
  run g (withDeadline c) w = (match c with Some d => d | None => now (get w) + defaultProposeTimeout end, w).
Proof. destruct c as [d|]; cbn [withDeadline]; [done|]. by rewrite run_bind, run_node, nh_now, put_get. Qed.

Lemma in_time_deadline c time : in_time c time -> time + tick <= match c with Some d => d | None => time + defaultProposeTimeout end.
Proof. destruct c; cbn; lia. Qed.

(** An asynchronous proposal has what is left of the time. *)
Lemma run_proposeTimeout c w : 0 < tick -> in_time c (now (get w)) -> exists t, tick <= t /\ run g (proposeTimeout c) w = (t, w).
Proof.
  intros Ht Hc. destruct c as [d|]; cbn [proposeTimeout in_time] in *; [|by exists defaultProposeTimeout].
  rewrite run_bind, run_node, nh_now, put_get. cbn [run]. eexists. split; [|done]. fold (now (get w)).
  destruct (Z.ltb_spec 0 (d - now (get w))); lia.
Qed.

Lemma run_LookupMetadata q w : run g (LookupMetadata q) w = (Lookup (meta (get w)) q, w).
Proof. unfold LookupMetadata. by rewrite run_node, nh_read_metadata, put_get. Qed.

Lemma run_GetLeaderID shard w : run g (GetLeaderID shard) w = (leader shard, w).
Proof. unfold GetLeaderID. by rewrite run_node, nh_leader, put_get. Qed.

Lemma run_SyncProposeMetadata c cmd w :
  command_fits cmd -> in_time c (now (get w)) ->
  run g (SyncProposeMetadata c cmd) w =
    match Update (meta (get w)) (Some (GroupCoord.wire cmd)) with
    | Ok (s', r) => (Ok r, put w (set_node (get w) (set_meta (c_node (get w)) s')))
    | _ => (Err (ErrNew "timeout"), w)
    end.
Proof.
  intros Hf Hc. unfold SyncProposeMetadata. rewrite run_call. cbn [run]. rewrite Marshal_fits by done.
  rewrite run_bind, run_withDeadline, run_node, nh_sync_metadata, command_decodes by (done || by apply in_time_deadline).
  destruct (Update _ _) as [[s' r]| | |]; by rewrite ?put_get.
Qed.

Lemma run_ProposePartition c shard cmd w :
  shard <> metadataShardID -> 0 < tick -> in_time c (now (get w)) ->
  run g (ProposePartition c shard cmd) w =
    let '(r, n) := DataRun.propose scfg unmarshal (c_node (get w)) shard cmd in (done_of r, put w (set_node (get w) n)).
Proof.
  intros Hs Ht Hc. unfold ProposePartition. rewrite run_bind. destruct (run_proposeTimeout c w Ht Hc) as (t & Hle & ->).
  rewrite run_node, nh_propose_partition by done.
  change (entry_applied _ shard (Partition.Marshal cmd)) with (DataRun.propose scfg unmarshal (c_node (get w)) shard cmd).
  by destruct (DataRun.propose _ _ _ _ _).
Qed.

Lemma run_SyncProposePartition c shard cmd w :
  shard <> metadataShardID -> in_time c (now (get w)) ->
  run g (SyncProposePartition c shard cmd) w =
    let '(r, n) := DataRun.propose scfg unmarshal (c_node (get w)) shard cmd in (result_of r, put w (set_node (get w) n)).
Proof.
  intros Hs Hc. unfold SyncProposePartition. rewrite run_bind, run_withDeadline, run_node, nh_sync_partition by (done || by apply in_time_deadline).
  change (entry_applied _ shard (Partition.Marshal cmd)) with (DataRun.propose scfg unmarshal (c_node (get w)) shard cmd).
  by destruct (DataRun.propose _ _ _ _ _).
Qed.

(** A context that is over. *)
Lemma run_late d shard cmd w : d < now (get w) + tick ->
  exists e, run g (deadline ← withDeadline (Some d); node (NSyncPropose deadline shard cmd)) w = (Err e, w).
Proof.
  intros Hd. rewrite run_bind, run_withDeadline, run_node. destruct (nh_sync_late d shard cmd (get w) Hd) as (e & ->). exists e. by rewrite put_get.
Qed.

End node_in.

(** *** The cluster and data coordinators *)

Variable cfg : Config.
Variable ctx : forall X, clusterE X -> option Z.

(** The commands fit their JSON, partitions have shards of their own, shards have members, and the
    context of a proposal leaves it time. *)
Definition data_request_ok X (e : DataCoord.dataE X) (w : cnode) : Prop :=
  match e with
  | DataCoord.DSyncPropose shard cmd => shard <> metadataShardID /\ in_time (ctx _ (CData (DataCoord.DSyncPropose shard cmd))) (now w)
  | DataCoord.DPropose shard cmd => shard <> metadataShardID /\ in_time (ctx _ (CData (DataCoord.DPropose shard cmd))) (now w)
  | _ => True
  end.
Definition request_ok X (e : clusterE X) (w : cnode) : Prop :=
  match e with
  | CPropose cmd => command_fits cmd /\ GroupCoord.wire cmd = cmd /\ in_time (ctx _ (CPropose cmd)) (now w)
  | CProposePartition shard cmd => shard <> metadataShardID /\ in_time (ctx _ (CProposePartition shard cmd)) (now w)
  | CStartMetadataShard members join => startable members join
  | CStartPartitionShard _ members join _ _ => startable members join
  | CData e => data_request_ok _ e w
  | _ => True
  end.

Definition hhandle X (e : hostE clusterE X) : cnode -> X * cnode :=
  match e with HNode e => nh X e | HLocal e => chandle X e end.

Lemma hhandle_node X (e : nodeE X) w : hhandle X (HNode e) w = let '(x, c) := nh X e (id w) in (x, c).
Proof. cbn. by destruct (nh X e w). Qed.

Hypothesis tick_pos : 0 < tick.
Hypothesis node_id : 1 <= cf_NodeID cfg.

Lemma shardConfig_valid shard : valid_config (shardConfig cfg shard).
Proof. split_and!; cbn -[Z.pow]; try lia; right; vm_compute; congruence. Qed.

Lemma run_data_request X (e : DataCoord.dataE X) w :
  data_request_ok X e w -> run hhandle (data_request ctx X e) w = chandle X (CData e) w.
Proof.
  intros He. destruct e; cbn [data_request]; try (by rewrite run_trigger).
  - rewrite run_bind, (run_LookupMetadata hhandle Datatypes.id (fun _ c => c)) by apply hhandle_node || done.
    cbn [run ClusterRun.handle DataRun.handle]. unfold id.
    destruct (Lookup (meta w) q) as [[]| | |]; by destruct w.
  - unfold LookupPartition. rewrite (run_node hhandle Datatypes.id (fun _ c => c)), nh_read_partition by apply hhandle_node. cbn. by destruct w.
  - destruct He as [H1 H2]. rewrite run_bind, (run_SyncProposePartition hhandle Datatypes.id (fun _ c => c)) by (done || apply hhandle_node).
    cbn [ClusterRun.handle DataRun.handle]. unfold id. by destruct (DataRun.propose scfg unmarshal (c_node w) shard cmd) as [[] n].
  - destruct He as [H1 H2]. rewrite (run_ProposePartition hhandle Datatypes.id (fun _ c => c)) by (done || apply hhandle_node).
    cbn [ClusterRun.handle DataRun.handle]. unfold id. by destruct (DataRun.propose scfg unmarshal (c_node w) shard cmd) as [[] n].
Qed.

Lemma run_broker_request X (e : clusterE X) w :
  request_ok X e w -> run hhandle (broker_request cfg (ClusterCoord.DataDir config) ctx X e) w = chandle X e w.
Proof.
  intros He. destruct e; cbn [broker_request]; try (by rewrite run_trigger).
  - by rewrite (run_LookupMetadata hhandle Datatypes.id (fun _ c => c)) by (done || apply hhandle_node).
  - destruct He as (Hf & Hw & Hc). rewrite (run_SyncProposeMetadata hhandle Datatypes.id (fun _ c => c)), Hw by (done || apply hhandle_node).
    cbn [ClusterRun.handle]. unfold id. by destruct (Update _ _) as [[]| | |].
  - destruct He as [H1 H2]. rewrite (run_ProposePartition hhandle Datatypes.id (fun _ c => c)) by (done || apply hhandle_node). cbn [ClusterRun.handle]. unfold id.
    by destruct (DataRun.propose scfg unmarshal (c_node w) shard cmd) as [[] n].
  - unfold StartMetadataShard. by rewrite (run_node hhandle Datatypes.id (fun _ c => c)), nh_start_metadata by (apply hhandle_node || apply shardConfig_valid || done).
  - unfold broker_StartPartitionShard, StartPartitionShard.
    rewrite (run_node hhandle Datatypes.id (fun _ c => c)), nh_start_partition by (apply hhandle_node || apply shardConfig_valid || done).
    cbn. by destruct (start_shard _ _ _).
  - unfold StopPartitionShard. rewrite (run_node hhandle Datatypes.id (fun _ c => c)), nh_stop by apply hhandle_node. cbn. by destruct (stop_shard _ _).
  - by rewrite (run_GetLeaderID hhandle Datatypes.id (fun _ c => c)) by (done || apply hhandle_node).
  - by apply run_data_request.
Qed.


(** *** The group coordinator *)

Variables (uuid : string) (ord : list string -> list string) (lead : Z * Z * bool).
Hypothesis lead_known : leader metadataShardID = Ok lead.
Variable gctx : forall X, GroupCoord.groupE X -> option Z.
Abbreviation gworld := (cnode * GroupCoord.heartbeats)%type.
Abbreviation gsem := (GroupSem.handle uuid ord lead).

Definition group_request_ok X (e : GroupCoord.groupE X) (v : GroupSem.world) : Prop :=
  match e with
  | GroupCoord.EPropose cmd => command_fits cmd /\ in_time (gctx _ (GroupCoord.EPropose cmd)) (GroupSem.w_clock v)
  | GroupCoord.ELeader shard => shard = metadataShardID
  | _ => True
  end.

(** The part of a node that the group coordinator's theorems speak of. *)
Definition group_view (w : gworld) : GroupSem.world :=
  {| GroupSem.w_fsm := meta w.1; GroupSem.w_table := w.2; GroupSem.w_clock := DataRun.n_clock (c_node w.1) |}.
Definition with_view (w : gworld) (v : GroupSem.world) : gworld :=
  (set_node w.1 (set_meta (c_node w.1) (GroupSem.w_fsm v)), GroupSem.w_table v).

Definition ghandle X (e : hostE GroupCoord.groupE X) (w : gworld) : X * gworld :=
  match e with
  | HNode e => let '(x, c) := nh X e w.1 in (x, (c, w.2))
  | HLocal e => let '(x, v) := gsem X e (group_view w) in (x, with_view w v)
  end.

Lemma run_group_request X (e : GroupCoord.groupE X) w w0 v :
  w = with_view w0 v /\ GroupSem.w_clock v = DataRun.n_clock (c_node w0.1) -> group_request_ok X e v ->
  (run ghandle (group_request gctx X e) w).1 = (gsem X e v).1 /\
  ((run ghandle (group_request gctx X e) w).2 = with_view w0 (gsem X e v).2 /\
   GroupSem.w_clock (gsem X e v).2 = DataRun.n_clock (c_node w0.1)).
Proof.
  intros [-> Hck] He. assert (group_view (with_view w0 v) = v) as Hv by (destruct v; cbn in *; by subst).
  destruct e; cbn [group_request]; try (rewrite run_trigger; cbn [ghandle]; rewrite Hv; by destruct w0 as [[[]]], v).
  - rewrite (run_LookupMetadata ghandle fst (fun w c => (c, w.2))) by (done || by intros []). by destruct w0, v.
  - destruct He as [Hf Hc]. rewrite Hck in Hc. rewrite (run_SyncProposeMetadata ghandle fst (fun w c => (c, w.2))) by (done || by intros []).
    cbn [GroupSem.handle]. change (meta (with_view w0 v).1) with (GroupSem.w_fsm v). by destruct (Update _ _) as [[]| | |].
  - rewrite (run_GetLeaderID ghandle fst (fun w c => (c, w.2))) by (done || by intros []). cbn in He. by rewrite He, lead_known.
Qed.

(** The same for the group coordinator: its calls, made through the host, give the results and
    the metadata that its theorems describe, and change nothing else on the node. *)
Theorem group_through_host {A} (p : prog GroupCoord.groupE A) w :
  run_all group_request_ok gsem p (group_view w) ->
  run ghandle (interp (group_request gctx) p) w =
    let '(a, v) := run gsem p (group_view w) in (a, with_view w v).
Proof using NodeHost0 lead_known.
  intros Hp.
  destruct (run_interp_rel (fun w' v => w' = with_view w v /\ GroupSem.w_clock v = DataRun.n_clock (c_node w.1))
    group_request_ok (group_request gctx) gsem ghandle p w (group_view w)) as (H1 & H2 & _); [| |done|].
  - intros X e w' v HR He. by apply run_group_request.
  - by destruct w as [[[]]].
  - destruct (run gsem p (group_view w)) as [a v]. by apply injective_projections.
Qed.

End host_run.

End library.

(** ** A node host *)

(** One that behaves as documented. *)
Definition healthy (scfg : StorageConfig) (unmarshal : list byte -> option (Z * Z)) (config : CoordinatorConfig)
    (leader : Z -> outcome (Z * Z * bool)) (nhc : NodeHostConfig) X (e : nodeE X) (w : ClusterRun.cnode) : X * ClusterRun.cnode :=
  match e in nodeE X return X * ClusterRun.cnode with
  | NSyncPropose deadline shard (JsonData v) =>
      if deadline <? now w + tick nhc then (Err (ErrNew "invalid deadline"), w) else
      if shard =? metadataShardID then
        match Update (ClusterRun.meta w) (decode_command v) with
        | Ok (s', r) => (Ok r, ClusterRun.set_node w (ClusterRun.set_meta (ClusterRun.c_node w) s'))
        | _ => (Err (ErrNew "timeout"), w)
        end
      else (Err (ErrNew "timeout"), w)
  | NSyncPropose deadline shard (ByteData b) =>
      if deadline <? now w + tick nhc then (Err (ErrNew "invalid deadline"), w) else
      let '(r, n) := entry_applied scfg unmarshal (ClusterRun.c_node w) shard b in (result_of r, ClusterRun.set_node w n)
  | NPropose shard (ByteData b) timeout =>
      if tick nhc <=? timeout then
        let '(r, n) := entry_applied scfg unmarshal (ClusterRun.c_node w) shard b in (done_of r, ClusterRun.set_node w n)
      else (Err (ErrNew "timeout too small"), w)
  | NPropose _ (JsonData _) timeout => (if tick nhc <=? timeout then Ok tt else Err (ErrNew "timeout too small"), w)
  | NStaleReadMetadata _ q => (Lookup (ClusterRun.meta w) q, w)
  | NStaleReadPartition shard q =>
      (match ClusterRun.shards w !! shard with None => Err (ErrNew "shard not found") | Some p => Partition.Lookup p q end, w)
  | NStartReplica _ _ _ => (Ok tt, w)
  | NStartOnDiskReplica _ _ create c =>
      if String.eqb (fs_dir (create (sc_ShardID c))) (ClusterRun.shardDir (ClusterCoord.DataDir config) (sc_ShardID c))
      then ClusterRun.start_shard scfg w (sc_ShardID c) else (Err (ErrNew "directory"), w)
  | NStopShard shard => ClusterRun.stop_shard w shard
  | NGetLeaderID shard => (leader shard, w)
  | NClose => (tt, w)
  | NNow => (DataRun.n_clock (ClusterRun.c_node w), w)
  end.

#[export] Instance healthy_host scfg unmarshal config leader nhc :
  NodeHost scfg unmarshal config leader nhc (healthy scfg unmarshal config leader nhc).
Proof.
  constructor; intros; cbn [healthy]; try reflexivity.
  - by rewrite (proj2 (Z.ltb_ge _ _)).
  - by rewrite (proj2 (Z.ltb_ge _ _)).
  - destruct cmd; rewrite (proj2 (Z.ltb_lt _ _)) by done; by eexists.
  - by rewrite (proj2 (Z.leb_le _ _)).
  - destruct cmd; rewrite (proj2 (Z.leb_gt _ _)) by done; by eexists.
  - by rewrite (proj2 (String.eqb_eq _ _)).
Qed.

Definition fresh_node : ClusterRun.cnode :=
  {| ClusterRun.c_node := {| DataRun.n_meta := NewMetadataFSM; DataRun.n_shards := ∅; DataRun.n_registry := ∅; DataRun.n_cache := ∅;
       DataRun.n_clock := 7; DataRun.n_index := 1 |};
     ClusterRun.c_disks := ∅; ClusterRun.c_running := ∅; ClusterRun.c_leaders := ∅; ClusterRun.c_tasks := [] |}.
Definition host0 : Config := {| DataDir := "/data"; RaftAddress := "b:7000"; cf_NodeID := 1; RaftRTTMs := 200 |}.
Definition leads1 (shard : Z) : outcome (Z * Z * bool) := Ok (1, 2, true).

Definition broker0 : CoordinatorConfig :=
  {| ccNodeID := 1; ClusterCoord.RaftAddress := "b:7000"; DataAddr := "b:9090"; AdvertiseDataAddr := "b:9090"; ClusterCoord.DataDir := "/data";
     Peers := {[1 := "b:7000"]}; BootstrapTimeoutMs := 0; ReconcileIntervalMs := 0; LeaderCheckIntervalMs := 0; EagerReconcileOnCreate := true |}.

Abbreviation host_of leader := (healthy StorageExamples.cfg0 Partition.no_json broker0 leader (nodeHostConfig host0)).


Definition commit_t : MetadataCommand := GroupCoord.commit_cmd "g" {[TP "t" 0 := 3]}.

Lemma commit_t_fits : command_fits commit_t.
Proof.
  unfold command_fits. cbn -[utf8 Z.pow singletonM]. unfold utf8. split_and!; try exact I; try reflexivity; [constructor|].
  intros i a [<- <-]%lookup_singleton_Some. cbn. split_and!; try reflexivity; unfold in_i32; lia.
Qed.

Lemma group_through_host_witness :
  run (ghandle (host_of leads1) "u" id (1, 2, true))
    (interp (group_request (fun _ _ => Some (10 ^ 9))) (trigger (GroupCoord.EPropose commit_t))) (fresh_node, ∅) =
  let '(a, v) := run (GroupSem.handle "u" id (1, 2, true)) (trigger (GroupCoord.EPropose commit_t)) (group_view (fresh_node, ∅)) in
    (a, with_view (fresh_node, ∅) v).
Proof.
  apply (group_through_host StorageExamples.cfg0 Partition.no_json broker0 leads1 (nodeHostConfig host0) (host_of leads1)
    "u" id (1, 2, true) eq_refl (fun _ _ => Some (10 ^ 9)) (trigger (GroupCoord.EPropose commit_t)) (fresh_node, ∅)).
  split; [split; [apply commit_t_fits|vm_compute; congruence]|exact I].
Defined.

End RaftHost.
