(* ===== verification/ClusterServe.v ===== *)
(** * Topics: creation, leaders, service

    The calls of the cluster coordinator on the node of ClusterRun.v, seen from outside: what
    [CreateTopic] writes and when it refuses, what a leader sweep records, and the whole way of a
    new topic until the data API serves it ([new_topic_serves]). The last section shows how a
    topic that is deleted and created again can be left without service. *)

From S2P Require Import Prelude Hash Batch SegName LogSegment BatchLog Keys Metadata MetadataInv Prog Segment Storage StorageExamples Partition DataCoord DataRun ClusterCoord Placement ClusterPlace ClusterRun.
Local Open Scope Z_scope.

Module ClusterServe.
Import Keys Metadata MetadataInv ClusterCoord Placement ClusterRun.

Section node.
Variable cfg : StorageConfig.
Variable unmarshal : list byte -> option (Z * Z).
Variable config : CoordinatorConfig.
Variable leader : Z -> outcome (Z * Z * bool).
Abbreviation handle := (ClusterRun.handle cfg unmarshal config leader).

(** ** Leaders *)

Definition record_of (l t : Z) : leaderRecord := {| lr_nodeID := l; lr_term := t |}.
Definition known (w : cnode) (sh : Z) : leaderRecord := default zeroRecord (c_leaders w !! sh).

(** A step that keeps the topics, the nodes and the invariant of the metadata. *)
Definition releads (s s' : MetadataState) : Prop :=
  (meta_ok s -> meta_ok s') /\ Topics s' = Topics s /\ Nodes s' = Nodes s.
#[local] Instance releads_preorder : PreOrder releads.
Proof. split; [done|]. intros s1 s2 s3 (H1 & H2 & H3) (H4 & H5 & H6). split; [auto|]. split; congruence. Qed.

Lemma assign_releads s c s' r : applyAssignPartitionLeader s c = Ok (s', r) -> releads s s'.
Proof.
  intros E. split; [|revert E; unfold applyAssignPartitionLeader; destruct (Partitions s !! _); [destruct (_ <=? _)|]; by intros [= <- _]].
  intros Hok. destruct (assign_leader_ok s c Hok) as (s1 & r1 & E1 & H & _). congruence.
Qed.

(** What the visit of one shard does. *)
Record swept (sh : Z) (info : shardInfo) (w w' : cnode) : Prop := {
  sw_node : c_node w' = set_meta (c_node w) (meta w');
  sw_running : c_running w' = c_running w;
  sw_meta : releads (meta w) (meta w');
  sw_known : forall sh', sh' <> sh -> known w' sh' = known w sh';
  sw_recorded : forall l t, leader sh = Ok (l, t, true) -> known w' sh = record_of l t;
  sw_other : forall k, k <> key_of info -> Partitions (meta w') !! k = Partitions (meta w) !! k;
  sw_leader : forall l t p, leader sh = Ok (l, t, true) -> known w sh <> record_of l t ->
    Partitions (meta w) !! key_of info = Some p -> LeaderEpoch p < i64 t ->
    Partitions (meta w') !! key_of info = Some (set_leader p l (i64 t))
}.

Lemma set_meta_same n : set_meta n (DataRun.n_meta n) = n.
Proof. by destruct n. Qed.

Lemma known_eqb w sh l t :
  (l =? lr_nodeID (known w sh)) && (t =? lr_term (known w sh)) = bool_decide (known w sh = record_of l t).
Proof.
  unfold record_of. destruct (known w sh) as [l' t']. cbn. destruct (Z.eqb_spec l l') as [->|H1]; cbn.
  - destruct (Z.eqb_spec t t') as [->|H2]; [by rewrite bool_decide_eq_true_2|]. rewrite bool_decide_eq_false_2; [done|congruence].
  - rewrite bool_decide_eq_false_2; [done|congruence].
Qed.

(** A shard whose leader is known, or has none, is passed over. *)
Definition quiet (w : cnode) (sh : Z) : Prop :=
  forall l t, leader sh = Ok (l, t, true) -> known w sh = record_of l t.

Lemma run_sweep_quiet w sh info : quiet w sh -> run handle (sweep_shard sh info) w = (tt, w).
Proof.
  intros Hq. unfold sweep_shard. rewrite run_bind, run_trigger. cbn [ClusterRun.handle].
  destruct (leader sh) as [[[l t] [|]]| | |] eqn:El; try done.
  rewrite run_bind, run_trigger. cbn [ClusterRun.handle]. fold (known w sh).
  rewrite known_eqb, bool_decide_eq_true_2 by auto. done.
Qed.

Lemma run_sweep_shard w sh info : exists w', run handle (sweep_shard sh info) w = (tt, w') /\ swept sh info w w'.
Proof.
  assert (forall w, quiet w sh -> swept sh info w w) as Hsame.
  { intros w0 Hq. constructor; try done; [by rewrite set_meta_same|]. intros l t p El Hk. by destruct Hk; apply Hq. }
  destruct (leader sh) as [[[l t] [|]]| | |] eqn:El;
    try (exists w; rewrite run_sweep_quiet by (intros ? ? E; congruence); split; [done|apply Hsame; intros ? ? E; congruence]).
  destruct (decide (known w sh = record_of l t)) as [Hk|Hk].
  { assert (quiet w sh) by (intros l' t' E; congruence). exists w. rewrite run_sweep_quiet by done. auto. }
  unfold sweep_shard. rewrite run_bind, run_trigger. cbn [ClusterRun.handle]. rewrite El.
  rewrite run_bind, run_trigger. cbn [ClusterRun.handle]. fold (known w sh).
  rewrite known_eqb, bool_decide_eq_false_2 by done. rewrite run_bind, run_trigger.
  cbn [ClusterRun.handle Update applyCommand deref]. unfold applyAssignPartitionLeader. cbn [al_Topic al_PartitionID].
  fold (key_of info).
  destruct (Partitions (meta w) !! key_of info) as [p|] eqn:Ep;
    [destruct (Z.leb_spec (al_LeaderEpoch {| al_Topic := si_Topic info; al_PartitionID := si_PartitionID info;
       al_LeaderNodeID := l; al_LeaderEpoch := i64 t |}) (LeaderEpoch p)) as [Hle|Hlt]|];
    rewrite run_trigger; cbn [ClusterRun.handle]; eexists; (split; [reflexivity|]);
    cbn [al_LeaderEpoch al_LeaderNodeID al_Topic al_PartitionID] in *; constructor; cbn;
    try rewrite set_meta_same; try done;
    try (intros sh' Hne; unfold known; cbn; by rewrite lookup_insert_ne);
    try (intros l' t' E; unfold known; cbn; rewrite lookup_insert_eq; cbn; unfold record_of; congruence).
  - intros l' t' p' E _ Ep' Hlt. rewrite Ep in Ep'. injection Ep' as <-. assert (t' = t) as -> by congruence. lia.
  - apply (assign_releads _ {| al_Topic := si_Topic info; al_PartitionID := si_PartitionID info; al_LeaderNodeID := l;
      al_LeaderEpoch := i64 t |} _ OKResult). unfold applyAssignPartitionLeader. cbn. fold (key_of info).
    by rewrite Ep, (proj2 (Z.leb_gt _ _)).
  - intros l' t' p' E _ Ep'. congruence.
Qed.

(** The loop, over shards with different partitions. *)
Record swept_all (shs : running_shards) (ids : list Z) (w w' : cnode) : Prop := {
  sa_node : c_node w' = set_meta (c_node w) (meta w');
  sa_running : c_running w' = c_running w;
  sa_meta : releads (meta w) (meta w');
  sa_quiet : forall sh, sh ∈ ids -> is_Some (shs !! sh) -> quiet w' sh;
  sa_known : forall sh, sh ∉ ids -> known w' sh = known w sh;
  sa_other : forall k, (forall sh info, sh ∈ ids -> shs !! sh = Some info -> key_of info <> k) ->
    Partitions (meta w') !! k = Partitions (meta w) !! k;
  sa_leader : forall sh info l t p, sh ∈ ids -> shs !! sh = Some info ->
    leader sh = Ok (l, t, true) -> known w sh <> record_of l t ->
    Partitions (meta w) !! key_of info = Some p -> LeaderEpoch p < i64 t ->
    Partitions (meta w') !! key_of info = Some (set_leader p l (i64 t))
}.

Definition distinct_keys (shs : running_shards) : Prop :=
  forall sh1 sh2 info1 info2, shs !! sh1 = Some info1 -> shs !! sh2 = Some info2 -> key_of info1 = key_of info2 -> sh1 = sh2.

Lemma swept_cons shs id info ids w w1 w' :
  distinct_keys shs -> id ∉ ids -> shs !! id = Some info -> swept id info w w1 -> swept_all shs ids w1 w' ->
  swept_all shs (id :: ids) w w'.
Proof.
  intros Hd Hn Hi [] []. constructor.
  - rewrite sa_node0, sw_node0. by destruct (c_node w).
  - congruence.
  - by etrans.
  - intros sh [->|Hin]%elem_of_cons Hs; [|auto]. intros l t El. rewrite sa_known0 by done. by apply sw_recorded0.
  - intros sh [Hne Hnin]%not_elem_of_cons. rewrite sa_known0 by done. auto.
  - intros k Hk. rewrite sa_other0, sw_other0; [done| |].
    + intros ->. apply (Hk id info); [apply elem_of_cons; by left|done|done].
    + intros sh i Hin. apply Hk, elem_of_cons. by right.
  - intros sh i l t p [->|Hin]%elem_of_cons Hs El Hk Hp Hlt.
    + assert (i = info) as -> by congruence. rewrite sa_other0; [by apply sw_leader0|].
      intros sh' i' Hin Hi' E. rewrite (Hd sh' id i' info) in Hin; done.
    + eapply sa_leader0; [done|done|done| |rewrite sw_other0; [done|]|done].
      * rewrite sw_known0; [done|]. by intros ->.
      * intros E. rewrite (Hd sh id i info) in Hin; done.
Qed.

Lemma run_sweep_shards shs ids w :
  distinct_keys shs -> NoDup ids -> (forall sh, sh ∈ ids -> is_Some (shs !! sh)) ->
  exists w', run handle (sweep_shards shs ids) w = (tt, w') /\ swept_all shs ids w w'.
Proof.
  intros Hd. revert w. induction ids as [|id ids IH]; intros w Hn Hs; cbn [sweep_shards].
  { exists w. split; [done|]. constructor; try done; [by rewrite set_meta_same| |];
      intros sh ?; [|intros l t p H]; intros; exfalso; by eapply not_elem_of_nil. }
  apply NoDup_cons in Hn as [Hnin Hn]. destruct (Hs id) as [info Hi]; [apply elem_of_cons; by left|]. rewrite Hi.
  destruct (run_sweep_shard w id info) as (w1 & E1 & H1). rewrite run_bind, E1.
  destruct (IH w1 Hn) as (w' & E' & H'); [intros sh Hin; apply Hs, elem_of_cons; by right|].
  exists w'. split; [exact E'|]. by eapply swept_cons.
Qed.

Lemma run_sweep_quiets shs ids w :
  (forall sh, sh ∈ ids -> quiet w sh) -> run handle (sweep_shards shs ids) w = (tt, w).
Proof.
  induction ids as [|id ids IH]; intros Hq; cbn [sweep_shards]; [done|].
  assert (run handle (sweep_shards shs ids) w = (tt, w)) as E by (apply IH; intros sh H; apply Hq, elem_of_cons; by right).
  destruct (shs !! id) as [info|]; [|exact E].
  rewrite run_bind, run_sweep_quiet; [exact E|apply Hq, elem_of_cons; by left].
Qed.

Lemma running_keys (m : running_shards) sh : sh ∈ (map_to_list m).*1 <-> is_Some (m !! sh).
Proof.
  rewrite list_elem_of_fmap. split.
  - intros ([k v] & -> & H%elem_of_map_to_list). eauto.
  - intros [v Hv]. exists (sh, v). split; [done|]. by apply elem_of_map_to_list.
Qed.

Lemma run_sweepLeaders w :
  distinct_keys (c_running w) ->
  exists w', run handle sweepLeaders w = (Ok tt, w') /\ swept_all (c_running w) (map_to_list (c_running w)).*1 w w'.
Proof.
  intros Hd. unfold sweepLeaders. rewrite run_bind, run_trigger. cbn [ClusterRun.handle].
  rewrite run_bind, run_trigger. cbn [ClusterRun.handle]. rewrite run_bind.
  destruct (run_sweep_shards (c_running w) (map_to_list (c_running w)).*1 w Hd) as (w' & E & H).
  - apply NoDup_fst_map_to_list.
  - intros sh. apply running_keys.
  - exists w'. rewrite E. auto.
Qed.

(** A leader sweep records what the raft host reports. For every shard this node runs with a
    valid leader that it has not recorded yet, in a later term than the metadata has, the
    metadata afterwards names that leader and term; no other partition changes; and a second
    sweep on the same reports proposes nothing. *)
Theorem sweepLeaders_records w :
  distinct_keys (c_running w) ->
  exists w', run handle sweepLeaders w = (Ok tt, w') /\
    (forall sh info p l t, c_running w !! sh = Some info -> Partitions (meta w) !! key_of info = Some p ->
       leader sh = Ok (l, t, true) -> 0 <= t < 2 ^ 63 -> known w sh <> record_of l t -> LeaderEpoch p < t ->
       Partitions (meta w') !! key_of info = Some (set_leader p l t)) /\
    (forall k, (forall sh info, c_running w !! sh = Some info -> key_of info <> k) ->
       Partitions (meta w') !! k = Partitions (meta w) !! k) /\
    run handle sweepLeaders w' = (Ok tt, w').
Proof.
  intros Hd. destruct (run_sweepLeaders w Hd) as (w' & E & []). exists w'. split_and!; [done| | |].
  - intros sh info p l t Hs Hp El Ht Hk Hlt. rewrite <- (i64_id t) in Hlt |- * by (unfold in_i64; lia).
    eapply sa_leader0; [|done|done|done|done|done]. apply running_keys. eauto.
  - intros k Hk. apply sa_other0. intros sh info _. apply Hk.
  - unfold sweepLeaders. rewrite run_bind, run_trigger. cbn [ClusterRun.handle].
    rewrite run_bind, run_trigger. cbn [ClusterRun.handle]. rewrite run_bind, sa_running0, run_sweep_quiets; [done|].
    intros sh Hin. apply sa_quiet0; [done|]. by apply running_keys.
Qed.

(** ** Creating a topic *)

(** Everything a successful [CmdCreateTopic] changes. *)
Record created (s s' : MetadataState) (tm : TopicMeta) (replicas : Z -> list Z -> Prop) : Prop := {
  cr_ok : meta_ok s';
  cr_nodes : Nodes s' = Nodes s;
  cr_topics : Topics s' = <[Name tm := tm]> (Topics s);
  cr_next : NextShardID s' = NextShardID s + PartitionCount tm;
  cr_new : forall i, 0 <= i < PartitionCount tm -> exists r, replicas i r /\
    Partitions s' !! PKey (Name tm) i = Some (new_partition (Name tm) i (NextShardID s + i) r);
  cr_old : forall k, pk_topic k <> Name tm -> Partitions s' !! k = Partitions s !! k
}.

Definition meta_of (c : CreateTopicCmd) : TopicMeta :=
  {| Name := ct_Name c; PartitionCount := ct_PartitionCount c; ReplicationFactor := ct_ReplicationFactor c;
     RetentionMs := ct_RetentionMs c; RetentionBytes := ct_RetentionBytes c; CreatedAtMs := ct_CreatedAtMs c |}.

Lemma create_applied s c :
  meta_ok s -> Topics s !! ct_Name c = None -> 0 < ct_PartitionCount c < 2 ^ 31 -> 0 < ct_ReplicationFactor c ->
  len (ct_ReplicaNodeIDs c) = ct_PartitionCount c -> NextShardID s + 2 ^ 31 < 2 ^ 64 ->
  exists s', applyCreateTopic s c = Ok (s', OKResult) /\
    created s s' (meta_of c) (fun i r => ct_ReplicaNodeIDs c !! Z.to_nat i = Some r).
Proof.
  intros Hok Ht Hpc Hrf Hlen Hn.
  destruct (create_ok s c Hok) as (s' & r & E & Hok' & _); [unfold in_i32; lia|done|].
  revert E. unfold applyCreateTopic. rewrite Ht, !(proj2 (Z.leb_gt _ _)) by lia. cbn [orb].
  rewrite Hlen, i32_id, Z.eqb_refl by (unfold in_i32; lia). cbn [negb set_topics NextShardID Partitions].
  destruct (create_partitions_spec (Z.to_nat (ct_PartitionCount c)) 0 (ct_Name c) (NextShardID s)
    (ct_ReplicaNodeIDs c) (Partitions s)) as (parts & -> & H1 & H2); [lia|lia|].
  cbn [mbind outcome_bind]. intros E. injection E as <- <-. eexists. split; [reflexivity|].
  pose proof (mo_next _ Hok). constructor; [exact Hok'|done|done| | |].
  - cbn. apply u64_id. unfold in_u64. lia.
  - cbn. intros i Hi. destruct (H1 i) as (r & Hr & Hp); [lia|]. exists r. split; [done|].
    rewrite Hp. do 2 f_equal. apply u64_id. unfold in_u64. lia.
  - cbn. intros k Hk. apply H2. intros [E _]. done.
Qed.

Lemma assignments_nth n p nodes topic rf ls j l :
  assignments n p nodes topic rf = Ok ls -> ls !! j = Some l -> assignReplicas nodes topic (p + Z.of_nat j) rf = Ok l.
Proof.
  revert p ls j. induction n as [|n IH]; intros p ls j; cbn [assignments]; [intros [= <-]; done|].
  intros H Hj. apply bind_Ok in H as (a & Ha & H). apply bind_Ok in H as (rest & Hr & H). injection H as <-.
  destruct j as [|j]; cbn in Hj; [injection Hj as <-; by rewrite Z.add_0_r|].
  rewrite <- (IH _ _ _ Hr Hj). f_equal. lia.
Qed.

Definition overridden (ov : TopicConfigOverrides) (name : string) (pc rf now : Z) : TopicMeta :=
  {| Name := name; PartitionCount := pc; ReplicationFactor := rf; RetentionMs := default 0 (ov_RetentionMs ov);
     RetentionBytes := default (-1) (ov_RetentionBytes ov); CreatedAtMs := now |}.

(** The arguments [CreateTopic] accepts on this node. *)
Record creatable (w : cnode) (name : string) (pc rf : Z) : Prop := {
  ca_name : topicNameRe name = true;
  ca_new : Topics (meta w) !! name = None;
  ca_count : 0 < pc < 2 ^ 31;
  ca_factor : 0 < rf <= len (listNodes (meta w));
  ca_nodes : forall id n, Nodes (meta w) !! id = Some n -> NodeID n = id;
  ca_ok : meta_ok (meta w);
  ca_shards : NextShardID (meta w) + 2 ^ 31 < 2 ^ 64
}.

Lemma NoDup_listNodes s : (forall id n, Nodes s !! id = Some n -> NodeID n = id) -> NoDup (NodeID <$> listNodes s).
Proof.
  intros H. unfold listNodes. rewrite merge_sort_Permutation, <- list_fmap_compose. apply NoDup_fmap_2_strong.
  - intros [k1 n1] [k2 n2] H1%elem_of_map_to_list H2%elem_of_map_to_list E. cbn in E.
    rewrite (H _ _ H1), (H _ _ H2) in E. subst k2. congruence.
  - apply NoDup_map_to_list.
Qed.

Definition after_create (w : cnode) (s' : MetadataState) : cnode :=
  let w1 := set_node w (set_meta (c_node w) s') in
  if EagerReconcileOnCreate config then
    set_tasks w1 (c_tasks w ++ reconcile_tasks (expected_of config s') (c_running w))
  else w1.

Lemma run_CreateTopic w name pc rf ov :
  creatable w name pc rf ->
  let tm := overridden ov name pc rf (Z.quot (DataRun.n_clock (c_node w)) (10 ^ 6)) in
  exists s', run handle (CreateTopic config name pc rf ov) w = (Ok (topicInfoFromMeta tm), after_create w s') /\
    created (meta w) s' tm (fun i r => assignReplicas (listNodes (meta w)) name i rf = Ok r).
Proof.
  intros []. cbv zeta. set (tm := overridden _ _ _ _ _).
  destruct (assignments_ok (Z.to_nat pc) 0 (listNodes (meta w)) name rf) as (ls & Els & Hlen & _);
    [by apply NoDup_listNodes|lia|lia|].
  set (c := {| ct_Name := name; ct_PartitionCount := pc; ct_ReplicationFactor := rf; ct_RetentionMs := RetentionMs tm;
               ct_RetentionBytes := RetentionBytes tm; ct_CreatedAtMs := CreatedAtMs tm; ct_ReplicaNodeIDs := ls |}).
  destruct (create_applied (meta w) c) as (s' & E & Hcr); [done|done|done|cbn; lia|cbn; lia|done|].
  exists s'. split.
  - unfold CreateTopic. rewrite ca_name0, !(proj2 (Z.ltb_ge _ _)) by lia. cbn [negb].
    rewrite run_call, run_trigger. cbn [ClusterRun.handle Lookup]. rewrite (proj2 (Z.ltb_ge _ _)) by lia.
    rewrite run_call, Els. cbn [run]. rewrite run_bind, run_trigger. cbn [ClusterRun.handle].
    rewrite run_call, run_trigger. cbn [ClusterRun.handle Update applyCommand deref].
    change (applyCreateTopic (meta w) _) with (applyCreateTopic (meta w) c). rewrite E. cbn [Value OKResult].
    change (negb (ResultOK =? ResultOK)) with false. cbn iota. unfold after_create.
    destruct (EagerReconcileOnCreate config); [|reflexivity].
    rewrite run_call, run_reconcile; [reflexivity|]. apply (cr_ok _ _ _ _ Hcr).
  - destruct Hcr. constructor; try done. intros i Hi. destruct (cr_new0 i Hi) as (r & Hr & Hp). exists r.
    split; [|done]. cbn in Hr. pose proof (assignments_nth _ _ _ _ _ _ _ _ Els Hr) as Ha. rewrite <- Ha. f_equal. cbn in Hi. lia.
Qed.

(** ** Listing the partitions of a topic *)

#[local] Instance id_le_total : Total id_le.
Proof. intros a b. unfold id_le. lia. Qed.
#[local] Instance id_le_trans : Transitive id_le.
Proof. intros a b c. unfold id_le. lia. Qed.

Lemma sorted_seqZ a n : StronglySorted Z.le (seqZ a n).
Proof.
  destruct (decide (n <= 0)); [rewrite seqZ_nil by done; constructor|]. revert a.
  assert (0 <= n) as Hn by lia. clear -Hn. revert n Hn. apply (natlike_ind (fun n => forall a, StronglySorted Z.le (seqZ a n))).
  - intros a. constructor.
  - intros n Hn IH a. rewrite seqZ_cons, Z.pred_succ by lia. constructor; [apply IH|].
    apply Forall_forall. intros x. rewrite elem_of_seqZ. lia.
Qed.

Lemma topicPartitions_ids s t m :
  meta_ok s -> Topics s !! t = Some m -> pPartitionID <$> topicPartitions s t = seqZ 0 (PartitionCount m).
Proof.
  intros Hok Ht. destruct (mo_topics _ Hok _ _ Ht) as [_ Hc]. apply (StronglySorted_unique Z.le).
  - pose proof (StronglySorted_merge_sort id_le (filter (fun kp => pk_topic kp.1 = t) (map_to_list (Partitions s))).*2) as H.
    fold (topicPartitions s t) in H. induction H as [|x l Hs IH Hx]; cbn; constructor; [done|]. by apply Forall_fmap.
  - apply sorted_seqZ.
  - apply NoDup_Permutation; [|apply NoDup_seqZ|].
    + unfold topicPartitions. rewrite merge_sort_Permutation, <- list_fmap_compose. apply NoDup_fmap_2_strong.
      * intros [k1 p1] [k2 p2] [T1 H1]%list_elem_of_filter [T2 H2]%list_elem_of_filter E. cbn in E, T1, T2.
        apply elem_of_map_to_list in H1, H2.
        destruct (mo_fields _ Hok _ _ H1) as (_ & A & _), (mo_fields _ Hok _ _ H2) as (_ & B & _).
        assert (k1 = k2) as -> by (destruct k1, k2; cbn in *; congruence). congruence.
      * apply NoDup_filter, NoDup_map_to_list.
    + intros i. rewrite elem_of_seqZ, list_elem_of_fmap. split.
      * intros (p & -> & (k & Hk & Ek)%topicPartitions_elem). destruct (mo_fields _ Hok _ _ Hk) as (_ & -> & _).
        destruct (proj1 (mo_parts _ Hok (pk_topic k) (pk_partition k))) as (m' & Hm' & Hi); [destruct k; eauto|].
        rewrite Ek, Ht in Hm'. injection Hm' as <-. lia.
      * intros Hi. destruct (proj2 (mo_parts _ Hok t i)) as [p Hp]; [exists m; split; [done|lia]|].
        exists p. destruct (mo_fields _ Hok _ _ Hp) as (_ & Ep & _). split; [done|]. apply topicPartitions_elem. eauto.
Qed.

Lemma topicPartitions_lookup s t m i :
  meta_ok s -> Topics s !! t = Some m -> 0 <= i < PartitionCount m ->
  topicPartitions s t !! Z.to_nat i = Partitions s !! PKey t i.
Proof.
  intros Hok Ht Hi. pose proof (topicPartitions_ids s t m Hok Ht) as E.
  assert ((pPartitionID <$> topicPartitions s t) !! Z.to_nat i = Some i) as Hl.
  { rewrite E, lookup_seqZ_lt by lia. f_equal. lia. }
  rewrite list_lookup_fmap in Hl. destruct (topicPartitions s t !! Z.to_nat i) as [p|] eqn:Ep; [|done].
  injection Hl as Hi'. apply list_elem_of_lookup_2, topicPartitions_elem in Ep as (k & Hk & Ek).
  destruct (mo_fields _ Hok _ _ Hk) as (_ & E2 & _). symmetry. rewrite <- Hk. f_equal. destruct k. cbn in *. congruence.
Qed.

Lemma run_DescribeTopic w t m :
  meta_ok (meta w) -> Topics (meta w) !! t = Some m ->
  exists ps, run handle (DescribeTopic t) w = (Ok {| td_TopicInfo := topicInfoFromMeta m; td_Partitions := ps |}, w) /\
    len ps = PartitionCount m /\
    forall i, 0 <= i < PartitionCount m -> ps !! Z.to_nat i = partitionInfo <$> Partitions (meta w) !! PKey t i.
Proof.
  intros Hok Ht. destruct (mo_topics _ Hok _ _ Ht) as [_ Hc]. exists (partitionInfo <$> topicPartitions (meta w) t). split_and!.
  - unfold DescribeTopic. rewrite run_call, run_trigger. cbn [ClusterRun.handle Lookup found]. rewrite Ht. cbn [found].
    rewrite run_call, run_trigger. cbn [ClusterRun.handle Lookup]. by rewrite Ht.
  - rewrite len_map, <- (len_map pPartitionID), (topicPartitions_ids _ _ m) by done.
    unfold len. rewrite length_seqZ. lia.
  - intros i Hi. by rewrite list_lookup_fmap, (topicPartitions_lookup _ _ m).
Qed.

(** Creating a topic. With a valid new name, a positive partition count and a replication factor
    within the cluster, the call succeeds and returns the topic; describing the topic then
    returns the same information and its partitions in order: partition [i] has the next unused
    shard id but [i], the replicas [assignReplicas] chooses, and no leader yet. Nothing about
    other topics changes. *)
Theorem CreateTopic_creates w name pc rf ov :
  creatable w name pc rf ->
  exists info w1 ps, run handle (CreateTopic config name pc rf ov) w = (Ok info, w1) /\
    ti_Name info = name /\ ti_PartitionCount info = pc /\ ti_ReplicationFactor info = rf /\
    run handle (DescribeTopic name) w1 = (Ok {| td_TopicInfo := info; td_Partitions := ps |}, w1) /\
    len ps = pc /\
    (forall i, 0 <= i < pc -> exists replicas, assignReplicas (listNodes (meta w)) name i rf = Ok replicas /\
       ps !! Z.to_nat i = Some {| pi_PartitionID := i; pi_ShardID := NextShardID (meta w) + i; pi_LeaderNodeID := 0;
                                  pi_LeaderEpoch := 0; pi_ReplicaNodeIDs := replicas |}) /\
    (forall t, t <> name -> Topics (meta w1) !! t = Topics (meta w) !! t) /\
    (forall k, pk_topic k <> name -> Partitions (meta w1) !! k = Partitions (meta w) !! k).
Proof.
  intros Hc. destruct (run_CreateTopic w name pc rf ov Hc) as (s' & E & []). set (tm := overridden _ _ _ _ _) in *.
  assert (meta (after_create w s') = s') as Em by (unfold after_create; by destruct (EagerReconcileOnCreate config)).
  destruct (run_DescribeTopic (after_create w s') name tm) as (ps & Ed & Hlen & Hps);
    [by rewrite Em|rewrite Em, cr_topics0; apply lookup_insert_eq|]. rewrite Em in Hps.
  exists (topicInfoFromMeta tm), (after_create w s'), ps. rewrite Em. split_and!; try done.
  - intros i Hi. destruct (cr_new0 i Hi) as (r & Hr & Hp). exists r. split; [done|].
    rewrite Hps by done. unfold tm in Hp. cbn in Hp. by rewrite Hp.
  - intros t Hne. rewrite cr_topics0. cbn. by rewrite lookup_insert_ne.
Qed.

Definition error_of {A} (o : outcome A) (e : sentinel) : Prop := exists err, o = Err err /\ errors_is err e = true.

Lemma create_rejected w name pc rf ov :
  (topicNameRe name = false \/ pc < 1 \/ rf < 1 \/ len (listNodes (meta w)) < rf ->
   exists o, run handle (CreateTopic config name pc rf ov) w = (o, w) /\ error_of o sInvalidArgument) /\
  (topicNameRe name = true -> 1 <= pc -> 1 <= rf <= len (listNodes (meta w)) -> NoDup (NodeID <$> listNodes (meta w)) ->
   is_Some (Topics (meta w) !! name) ->
   run handle (CreateTopic config name pc rf ov) w = (Err ErrTopicAlreadyExists, w)).
Proof.
  unfold CreateTopic. split.
  - intros H. destruct (topicNameRe name); cbn [negb]; [|eexists; split; [done|by eexists]].
    destruct (Z.ltb_spec pc 1); [eexists; split; [done|by eexists]|].
    destruct (Z.ltb_spec rf 1); [eexists; split; [done|by eexists]|].
    rewrite run_call, run_trigger. cbn [ClusterRun.handle Lookup].
    destruct (Z.ltb_spec (len (listNodes (meta w))) rf); [eexists; split; [done|by eexists]|].
    exfalso. destruct H as [H|[H|[H|H]]]; [done|lia..].
  - intros Hn Hpc Hrf Hd [m Hm]. rewrite Hn, !(proj2 (Z.ltb_ge _ _)) by lia. cbn [negb].
    rewrite run_call, run_trigger. cbn [ClusterRun.handle Lookup]. rewrite (proj2 (Z.ltb_ge _ _)) by lia.
    destruct (assignments_ok (Z.to_nat pc) 0 (listNodes (meta w)) name rf Hd) as (ls & -> & _); [lia|lia|].
    rewrite run_call. cbn [run]. rewrite run_bind, run_trigger. cbn [ClusterRun.handle].
    rewrite run_call, run_trigger. cbn [ClusterRun.handle Update applyCommand deref].
    unfold applyCreateTopic. cbn [ct_Name]. rewrite Hm. cbn. f_equal. rewrite set_meta_same. by destruct w.
Qed.

(** What [CreateTopic] refuses. A bad name, a count or factor below one, or a factor above the
    number of nodes is an invalid argument; an existing topic is reported as such; in all these
    cases nothing has changed. *)
Theorem CreateTopic_rejects w name pc rf ov :
  (topicNameRe name = false \/ pc < 1 \/ rf < 1 \/ len (listNodes (meta w)) < rf ->
   exists o, run handle (CreateTopic config name pc rf ov) w = (o, w) /\ error_of o sInvalidArgument) /\
  (topicNameRe name = true -> 1 <= pc -> 1 <= rf <= len (listNodes (meta w)) -> NoDup (NodeID <$> listNodes (meta w)) ->
   is_Some (Topics (meta w) !! name) ->
   run handle (CreateTopic config name pc rf ov) w = (Err ErrTopicAlreadyExists, w)).
Proof. exact (create_rejected w name pc rf ov). Qed.

(** ** From creation to service *)

(** The node runs what the metadata places on it, and shard ids not given out are unused. *)
Record converged (w : cnode) : Prop := {
  cv_running : forall sh info, c_running w !! sh = Some info <-> hosted config (meta w) sh info;
  cv_tasks : c_tasks w = [];
  cv_fresh : forall sh, NextShardID (meta w) <= sh ->
    shards w !! sh = None /\ c_disks w !! sh = None /\ c_leaders w !! sh = None
}.

Lemma hosted_created s s' tm R sh info :
  meta_ok s -> Topics s !! Name tm = None -> created s s' tm R ->
  hosted config s' sh info <->
  hosted config s sh info \/
  exists i r, 0 <= i < PartitionCount tm /\ R i r /\ sh = NextShardID s + i /\ ccNodeID config ∈ r /\
    info = info_of config (new_partition (Name tm) i sh r) /\
    Partitions s' !! PKey (Name tm) i = Some (new_partition (Name tm) i sh r).
Proof.
  intros Hok Ht []. assert (forall k p, Partitions s !! k = Some p -> pk_topic k <> Name tm) as Hno.
  { intros k p Hk E. destruct (proj1 (mo_parts _ Hok (pk_topic k) (pk_partition k))) as (m & Hm & _); [destruct k; eauto|].
    rewrite E in Hm. congruence. }
  split.
  - intros (k & p & Hk & Hr & <- & ->). destruct (decide (pk_topic k = Name tm)) as [E|E].
    + right. destruct (proj1 (mo_parts _ cr_ok0 (pk_topic k) (pk_partition k))) as (m & Hm & Hi); [destruct k; eauto|].
      rewrite cr_topics0, E, lookup_insert_eq in Hm. injection Hm as <-.
      destruct (cr_new0 _ Hi) as (r & HR & Hp). destruct k as [t i]. cbn in *. subst t. rewrite Hp in Hk.
      injection Hk as <-. exists i, r. split_and!; (done || lia).
    + left. rewrite cr_old0 in Hk by done. by exists k, p.
  - intros [(k & p & Hk & Hr & <- & ->)|(i & r & Hi & HR & -> & Hin & -> & Hp)].
    + exists k, p. split_and!; [|done..]. rewrite cr_old0; [done|by eapply Hno].
    + by eexists _, _.
Qed.

(** The state after the tasks of the eager reconciliation have run in some order. *)
Lemma created_tasks w name pc rf tm R s' order :
  Seg.cfg_ok cfg -> creatable w name pc rf -> converged w -> Name tm = name -> created (meta w) s' tm R ->
  let w1 := set_tasks (set_node w (set_meta (c_node w) s')) [] in
  order ≡ₚ reconcile_tasks (expected_of config s') (c_running w) ->
  tasks_done cfg order w1 (run_tasks cfg unmarshal config leader order w1) /\
  (forall sh info, GoStopShard sh info ∉ order) /\
  (forall sh info, hosted config s' sh info -> c_running w !! sh = None -> GoStartShard sh info ∈ order).
Proof.
  intros Hcfg Hca Hcv En Hcr w1 Hp. pose proof (cr_ok _ _ _ _ Hcr) as Hok'.
  assert (Topics (meta w) !! Name tm = None) as Ht by (rewrite En; apply (ca_new _ _ _ _ Hca)).
  pose proof (fun sh info => hosted_created (meta w) s' tm R sh info (ca_ok _ _ _ _ Hca) Ht Hcr) as Hh.
  split_and!.
  - apply reconcile_done; [done| |done]. intros sh info Hin. apply start_in in Hin as [He Hn].
    apply expected_spec in He; [|done]. apply Hh in He as [He|(i & r & Hi & _ & -> & _)].
    + apply (cv_running _ Hcv) in He. cbn in Hn. congruence.
    + destruct (cv_fresh _ Hcv (NextShardID (meta w) + i)) as (H1 & H2 & _); [lia|done].
  - intros sh info Hin. rewrite Hp in Hin. apply stop_in in Hin as [Hr He].
    apply (cv_running _ Hcv) in Hr. assert (hosted config s' sh info) as H by (apply Hh; by left).
    apply expected_spec in H; [|done]. congruence.
  - intros sh info H Hn. rewrite Hp. apply start_in. split; [by apply expected_spec|done].
Qed.

Lemma created_running w name pc rf tm R s' order sh info :
  creatable w name pc rf -> converged w -> Name tm = name -> created (meta w) s' tm R ->
  let w1 := set_tasks (set_node w (set_meta (c_node w) s')) [] in
  let w2 := run_tasks cfg unmarshal config leader order w1 in
  order ≡ₚ reconcile_tasks (expected_of config s') (c_running w) -> tasks_done cfg order w1 w2 ->
  (forall sh info, GoStopShard sh info ∉ order) ->
  c_running w2 !! sh = Some info -> hosted config s' sh info.
Proof.
  intros Hca Hcv En Hcr w1 w2 Hp Hd Hstop Hi.
  destruct (decide (Some sh ∈ task_shard <$> order)) as [Hin|Hnin].
  - apply list_elem_of_fmap in Hin as (t & Et & Hin). pose proof Hin as Hin'. rewrite Hp in Hin'.
    destruct (task_in _ _ _ Hin') as (sh' & info' & [-> | ->]); [|by destruct (Hstop sh' info')].
    injection Et as <-. destruct (td_started _ _ _ _ Hd _ _ Hin) as [Hr _]. assert (info' = info) as -> by congruence.
    apply start_in in Hin' as [He _]. apply expected_spec in He; [done|apply (cr_ok _ _ _ _ Hcr)].
  - destruct (td_other _ _ _ _ Hd _ Hnin) as [Hr _]. rewrite Hr in Hi. apply (cv_running _ Hcv) in Hi.
    eapply hosted_created; [apply (ca_ok _ _ _ _ Hca)|rewrite En; apply (ca_new _ _ _ _ Hca)|exact Hcr|by left].
Qed.

(** A started shard runs and is registered, when nothing was stopped. *)
Lemma started_registered s' running order w1 w2 sh info :
  meta_ok s' -> order ≡ₚ reconcile_tasks (expected_of config s') running -> tasks_done cfg order w1 w2 ->
  (forall sh info, GoStopShard sh info ∉ order) -> hosted config s' sh info -> GoStartShard sh info ∈ order ->
  c_running w2 !! sh = Some info /\ registry w2 !! key_of info = Some (entry_of sh info) /\
  exists p, shards w2 !! sh = Some p /\ Partition.fsm_live cfg p 0 [].
Proof.
  intros Hok Hp Hd Hstop Hh Hst. destruct (td_started _ _ _ _ Hd _ _ Hst) as (Hr & Hlive). split_and!; [done| |done].
  apply (td_registered _ _ _ _ Hd); [done|]. intros t Ht Hk. pose proof Ht as Ht'. rewrite Hp in Ht'.
  destruct (task_in _ _ _ Ht') as (sh' & info' & [-> | ->]); [|by destruct (Hstop sh' info')].
  apply start_in in Ht' as [He _]. apply expected_spec in He; [|done]. injection Hk as Ek1 Ek2.
  destruct (hosted_key config s' sh' sh info' info) as [-> ->]; try done. unfold key_of. by rewrite Ek1, Ek2.
Qed.

(** The node once its goroutines for a new topic are started: by [CreateTopic] itself, or by the
    next turn of the reconciliation loop. *)
Definition reconciled (w1 : cnode) : cnode :=
  if EagerReconcileOnCreate config then w1 else (run handle (reconcileOnce config) w1).2.

Lemma after_reconciled w s' :
  c_tasks w = [] -> meta_ok s' ->
  reconciled (after_create w s') =
    set_tasks (set_node w (set_meta (c_node w) s')) (reconcile_tasks (expected_of config s') (c_running w)).
Proof.
  intros Ht Hok. unfold reconciled, after_create. destruct (EagerReconcileOnCreate config); [by rewrite Ht|].
  rewrite run_reconcile by done. cbn [snd]. cbn [c_tasks set_node]. by rewrite Ht.
Qed.

(** What [new_topic_serves] says, and the metadata afterwards. *)
Lemma new_topic_led w name pc rf ov dconf :
  Seg.cfg_ok cfg -> creatable w name pc rf -> converged w ->
  DataCoord.dcNodeID dconf = ccNodeID config ->
  (forall sh, NextShardID (meta w) <= sh -> exists t, leader sh = Ok (ccNodeID config, t, true) /\ 0 < t < 2 ^ 63) ->
  let tm := overridden ov name pc rf (Z.quot (DataRun.n_clock (c_node w)) (10 ^ 6)) in
  exists w1, run handle (CreateTopic config name pc rf ov) w = (Ok (topicInfoFromMeta tm), w1) /\
    forall order, order ≡ₚ c_tasks (reconciled w1) ->
    exists w3, run handle sweepLeaders (run_tasks cfg unmarshal config leader order (set_tasks (reconciled w1) [])) = (Ok tt, w3) /\
      meta_ok (meta w3) /\ Nodes (meta w3) = Nodes (meta w) /\ Topics (meta w3) !! name = Some tm /\
      DataRun.n_index (c_node w3) = DataRun.n_index (c_node w) /\
      forall i replicas, 0 <= i < pc -> assignReplicas (listNodes (meta w)) name i rf = Ok replicas ->
        ccNodeID config ∈ replicas ->
        exists p, DataRun.leads dconf (c_node w3) name i (NextShardID (meta w) + i) p /\ Partition.fsm_live cfg p 0 [].
Proof.
  intros Hcfg Hca Hcv Hid Hel tm. destruct (run_CreateTopic w name pc rf ov Hca) as (s' & E & Hcr). fold tm in E, Hcr.
  set (R := fun i r => _) in Hcr. eexists. split; [exact E|].
  rewrite (after_reconciled w s' (cv_tasks _ Hcv) (cr_ok _ _ _ _ Hcr)). cbn [c_tasks set_tasks]. intros order Hp.
  destruct (created_tasks w name pc rf tm R s' order Hcfg Hca Hcv eq_refl Hcr Hp) as (Hd & Hstop & Hstart).
  change (set_tasks (set_tasks _ _) []) with (set_tasks (set_node w (set_meta (c_node w) s')) []).
  pose proof (fun sh info => created_running w name pc rf tm R s' order sh info Hca Hcv eq_refl Hcr Hp Hd Hstop) as Hrun.
  set (w1 := set_tasks _ []) in *. set (w2 := run_tasks _ _ _ _ order w1) in *. pose proof (cr_ok _ _ _ _ Hcr) as Hok'.
  assert (distinct_keys (c_running w2)) as Hdk.
  { intros sh1 sh2 i1 i2 H1 H2 Ek. destruct (hosted_key config s' sh1 sh2 i1 i2); auto. }
  destruct (run_sweepLeaders w2 Hdk) as (w3 & Es & []). exists w3. split; [exact Es|].
  destruct sa_meta0 as (Hmok & Hmt & Hmn). rewrite (td_meta _ _ _ _ Hd) in Hmok, Hmt, Hmn. change (meta w1) with s' in Hmok, Hmt, Hmn.
  split; [by apply Hmok|]. split; [rewrite Hmn; apply (cr_nodes _ _ _ _ Hcr)|].
  split; [rewrite Hmt, (cr_topics _ _ _ _ Hcr); apply lookup_insert_eq|]. split; [rewrite sa_node0; apply (td_index _ _ _ _ Hd)|].
  intros i replicas Hi Ha Hin. destruct (cr_new _ _ _ _ Hcr i Hi) as (r & HR & Hpart).
  assert (r = replicas) as -> by (unfold R in HR; congruence). set (sh := NextShardID (meta w) + i) in *.
  set (info := info_of config (new_partition name i sh replicas)).
  assert (hosted config s' sh info) as Hh by (by eexists _, _).
  assert (c_running w !! sh = None) as Hnew.
  { destruct (c_running w !! sh) as [x|] eqn:Ex; [|done]. exfalso.
    apply (cv_running _ Hcv) in Ex as (k & p & Hk & _ & Esh & _).
    pose proof (mo_shards _ (ca_ok _ _ _ _ Hca) _ _ Hk). lia. }
  destruct (started_registered s' (c_running w) order w1 w2 sh info Hok' Hp Hd Hstop Hh (Hstart _ _ Hh Hnew))
    as (Hr & Hreg & p & Hsh & Hlive). exists p. split; [|done].
  destruct (Hel sh ltac:(unfold sh; lia)) as (t & El & Ht).
  assert (Partitions (meta w3) !! PKey name i = Some (set_leader (new_partition name i sh replicas) (ccNodeID config) (i64 t))) as Hlead.
  { apply (sa_leader0 sh info); [apply running_keys; eauto|done|done| |by rewrite (td_meta _ _ _ _ Hd)|].
    - unfold known. rewrite (td_leaders _ _ _ _ Hd). destruct (cv_fresh _ Hcv sh) as (_ & _ & Hl); [unfold sh; lia|].
      cbn. rewrite Hl. cbn. unfold record_of, zeroRecord. intros [= _ H]. lia.
    - cbn. rewrite i64_id by (unfold in_i64; lia). lia. }
  constructor.
  - eexists. split; [exact Hlead|done].
  - rewrite sa_node0. eexists. split; [exact Hreg|done].
  - rewrite sa_node0. exact Hsh.
Qed.

(** The way of a new topic into service. On a node whose running shards agree with the metadata,
    [CreateTopic] starts the goroutines for the new partitions placed here; once they have run,
    in any order, and one leader sweep has seen this node elected, the data coordinator of this
    node leads each of these partitions and routes requests for it to a running shard with an
    empty log, which is what [DataRun.api_produce_fetch] asks for. *)
Theorem new_topic_serves w name pc rf ov dconf :
  Seg.cfg_ok cfg -> creatable w name pc rf -> converged w -> EagerReconcileOnCreate config = true ->
  DataCoord.dcNodeID dconf = ccNodeID config ->
  (forall sh, NextShardID (meta w) <= sh -> exists t, leader sh = Ok (ccNodeID config, t, true) /\ 0 < t < 2 ^ 63) ->
  exists info w1, run handle (CreateTopic config name pc rf ov) w = (Ok info, w1) /\
    forall order, order ≡ₚ c_tasks w1 ->
    exists w3, run handle sweepLeaders (run_tasks cfg unmarshal config leader order (set_tasks w1 [])) = (Ok tt, w3) /\
      forall i replicas, 0 <= i < pc -> assignReplicas (listNodes (meta w)) name i rf = Ok replicas ->
        ccNodeID config ∈ replicas ->
        exists p, DataRun.leads dconf (c_node w3) name i (NextShardID (meta w) + i) p /\ Partition.fsm_live cfg p 0 [].
Proof.
  intros Hcfg Hca Hcv Heager Hid Hel. destruct (new_topic_led w name pc rf ov dconf) as (w1 & E & H); try done.
  eexists _, w1. split; [exact E|]. unfold reconciled in H. rewrite Heager in H. intros order Hp. destruct (H order Hp) as (w3 & Es & _ & _ & _ & _ & Hl). eauto.
Qed.

(** ** A topic deleted and created again *)

(** A partition can lose its route. When a topic was deleted and created again between two
    reconciliations, the new shard of a partition is started and the old one is stopped by two
    goroutines; [stopShard] removes the registry entry of the partition whatever shard it names.
    If it runs last, the new shard runs without an entry, the next reconciliations see nothing
    to do, and the leader answers every produce request with [ErrUnavailable]. *)
Theorem recreated_topic_unserved w sh1 info1 sh2 info2 :
  Seg.cfg_ok cfg -> meta_ok (meta w) -> c_tasks w = [] ->
  startable w (reconcile_tasks (expected_of config (meta w)) (c_running w)) ->
  c_running w !! sh1 = Some info1 -> expected_of config (meta w) !! sh1 = None ->
  c_running w !! sh2 = None -> hosted config (meta w) sh2 info2 -> key_of info1 = key_of info2 ->
  exists w1 order, run handle (reconcileOnce config) w = (Ok tt, w1) /\ order ≡ₚ c_tasks w1 /\
    let w2 := run_tasks cfg unmarshal config leader order (set_tasks w1 []) in
    c_running w2 !! sh2 = Some info2 /\ run handle (reconcileOnce config) w2 = (Ok tt, w2) /\
    forall dconf pm batch acks, Partitions (meta w) !! key_of info2 = Some pm -> LeaderNodeID pm = DataCoord.dcNodeID dconf ->
      run (DataRun.handle cfg unmarshal)
        (DataCoord.Produce dconf (si_Topic info2) (si_PartitionID info2) batch acks) (c_node w2) =
      (Err DataCoord.ErrUnavailable, c_node w2).
Proof.
  intros Hcfg Hok Ht Hst Hr1 He1 Hr2 Hh2 Ek. rewrite run_reconcile, Ht by done. cbn [app].
  set (ts := reconcile_tasks _ _) in *. assert (GoStopShard sh1 info1 ∈ ts) as Hin by (by apply stop_in).
  apply elem_of_Permutation in Hin as [l Hl]. eexists _, (l ++ [GoStopShard sh1 info1]). split; [reflexivity|].
  cbn [c_tasks set_tasks]. assert (l ++ [GoStopShard sh1 info1] ≡ₚ ts) as Hp by (rewrite Hl; by rewrite Permutation_app_comm).
  split; [exact Hp|]. change (set_tasks (set_tasks w ts) []) with (set_tasks w []).
  pose proof (reconcile_done cfg unmarshal config leader (set_tasks w []) _ Hcfg Hst Hp) as Hd.
  pose proof (fun sh => running_after cfg unmarshal config leader _ _ sh Hd Hp) as Hra.
  set (w2 := run_tasks _ _ _ _ _ (set_tasks w [])) in *. assert (meta w2 = meta w) as Em by apply (td_meta _ _ _ _ Hd).
  assert (registry w2 !! key_of info2 = None) as Hreg.
  { unfold w2, run_tasks. rewrite fold_left_app. cbn [fold_left].
    destruct (stop_task cfg unmarshal config leader (fold_left (run_task cfg unmarshal config leader) l (set_tasks w [])) sh1 info1)
      as (_ & _ & _ & ->). rewrite Ek. apply lookup_delete_eq. }
  cbv zeta. split_and!.
  - apply (td_started _ _ _ _ Hd). rewrite Hp. apply start_in. split; [by apply expected_spec|done].
  - rewrite run_reconcile by (by rewrite Em). rewrite settled by (rewrite Em; exact Hra).
    by rewrite app_nil_r, set_tasks_same.
  - intros dconf pm batch acks Hpm Hl'. unfold DataCoord.Produce. rewrite run_call. unfold DataCoord.leaderCheck.
    rewrite run_bind, run_trigger. cbn [DataRun.handle Lookup]. fold (key_of info2). rewrite Em, Hpm. cbn [found].
    unfold DataCoord.check_leader. rewrite Hl', Z.eqb_refl. cbn [negb]. rewrite run_bind, run_trigger.
    cbn [DataRun.handle]. fold (key_of info2). by rewrite Hreg.
Qed.

End node.

(** ** Witnesses: node 1 of a cluster of two *)

Definition conf1 (eager : bool) : CoordinatorConfig :=
  {| ccNodeID := 1; RaftAddress := "a:7000"; DataAddr := "a:9092"; AdvertiseDataAddr := ""; DataDir := "/data";
     Peers := {[ 1 := "a:7000"; 2 := "b:7000" ]}; BootstrapTimeoutMs := 1000; ReconcileIntervalMs := 1000;
     LeaderCheckIntervalMs := 1000; EagerReconcileOnCreate := eager |}.
Definition elected (sh : Z) : outcome (Z * Z * bool) := Ok (1, 3, true).

Definition node_with (s : MetadataState) : cnode :=
  {| c_node := {| DataRun.n_meta := s; DataRun.n_shards := ∅; DataRun.n_registry := ∅; DataRun.n_cache := ∅;
                  DataRun.n_clock := 0; DataRun.n_index := 1 |};
     c_disks := ∅; c_running := ∅; c_leaders := ∅; c_tasks := [] |}.

Definition log2 : list (option MetadataCommand) := [Some (ClusterPlace.c_reg 1); Some (ClusterPlace.c_reg 2)].
Definition s2 : MetadataState := ClusterPlace.after log2.
Definition s3 : MetadataState := ClusterPlace.after ClusterPlace.log3.

Lemma replay_ok cmds s :
  ClusterPlace.replay NewMetadataFSM cmds = Some s -> Forall entry_ok cmds -> len cmds < 100 -> meta_ok s.
Proof.
  intros H%ClusterPlace.replay_follows Hall Hl. eapply follows_ok; [exact H|apply meta_ok_init|done|].
  change (NextShardID NewMetadataFSM) with 1. lia.
Qed.

Lemma s2_ok : meta_ok s2.
Proof. apply (replay_ok log2); [vm_compute; reflexivity|repeat constructor|vm_compute; reflexivity]. Qed.
Lemma s3_ok : meta_ok s3.
Proof.
  apply (replay_ok ClusterPlace.log3); [vm_compute; reflexivity| |vm_compute; reflexivity].
  repeat constructor; vm_compute; congruence.
Qed.

Lemma w2_creatable : creatable (node_with s2) "orders" 3 2.
Proof.
  constructor; [by vm_compute|by vm_compute|lia|vm_compute; split; congruence| |exact s2_ok|by vm_compute].
  intros id n. cbn [node_with c_node DataRun.n_meta].
  assert (map_to_list (Nodes s2) = [(2, {| NodeID := 2; Address := "" |}); (1, {| NodeID := 1; Address := "" |})]) as E
    by (vm_compute; reflexivity).
  intros H%elem_of_map_to_list. rewrite E in H.
  apply elem_of_cons in H as [[= -> ->]|[[= -> ->]|[]%not_elem_of_nil]%elem_of_cons]; done.
Qed.

Lemma w2_converged : converged (conf1 true) (node_with s2).
Proof.
  constructor; [|done|done]. intros sh info. split; [done|].
  intros (k & p & Hk & _). cbn [node_with c_node DataRun.n_meta] in Hk. assert (Partitions s2 = ∅) as E by (vm_compute; reflexivity).
  rewrite E, lookup_empty in Hk. done.
Qed.

Lemma CreateTopic_creates_witness :
  exists info w1, run (ClusterRun.handle StorageExamples.cfg0 Partition.no_json (conf1 true) elected)
    (CreateTopic (conf1 true) "orders" 3 2 {| ov_RetentionMs := None; ov_RetentionBytes := Some 5 |}) (node_with s2) = (Ok info, w1) /\
    ti_PartitionCount info = 3.
Proof.
  destruct (CreateTopic_creates StorageExamples.cfg0 Partition.no_json (conf1 true) elected (node_with s2) "orders" 3 2
    {| ov_RetentionMs := None; ov_RetentionBytes := Some 5 |} w2_creatable) as (info & w1 & ps & E & _ & H & _).
  exists info, w1. exact (conj E H).
Defined.

Lemma CreateTopic_rejects_witness :
  run (ClusterRun.handle StorageExamples.cfg0 Partition.no_json (conf1 true) elected)
    (CreateTopic (conf1 true) "t" 1 1 {| ov_RetentionMs := None; ov_RetentionBytes := None |}) (node_with s3) =
  (Err ErrTopicAlreadyExists, node_with s3).
Proof.
  apply (CreateTopic_rejects StorageExamples.cfg0 Partition.no_json (conf1 true) elected (node_with s3) "t" 1 1);
    [by vm_compute|lia|vm_compute; split; congruence| |vm_compute; eauto].
  apply (bool_decide_unpack (NoDup (NodeID <$> listNodes s3))). vm_compute. done.
Defined.

(** Partition 0 of "t" runs as shard 1. *)
Definition info_t0 : shardInfo := {| si_Topic := "t"; si_PartitionID := 0; si_ShardID := 1; si_Peers := ∅ |}.
Definition node_t0 (s : MetadataState) : cnode := set_running (node_with s) {[ 1 := info_t0 ]}.

Lemma sweepLeaders_records_witness :
  exists w', run (ClusterRun.handle StorageExamples.cfg0 Partition.no_json (conf1 true) elected) sweepLeaders (node_t0 s3) = (Ok tt, w') /\
    Partitions (meta w') !! PKey "t" 0 = Some (set_leader (new_partition "t" 0 1 [1; 2]) 1 3).
Proof.
  destruct (sweepLeaders_records StorageExamples.cfg0 Partition.no_json (conf1 true) elected (node_t0 s3)) as (w' & E & H & _).
  - intros sh1 sh2 i1 i2. cbn [node_t0 c_running set_running].
    intros [<- <-]%lookup_singleton_Some [<- <-]%lookup_singleton_Some _. reflexivity.
  - exists w'. split; [exact E|]. apply (H 1 info_t0); [reflexivity|vm_compute; reflexivity|reflexivity|lia|discriminate|reflexivity].
Defined.

Lemma reconcile_converges_witness :
  exists w1 p, run (ClusterRun.handle StorageExamples.cfg0 Partition.no_json (conf1 true) elected) (reconcileOnce (conf1 true))
      (node_with s3) = (Ok tt, w1) /\
    shards (run_tasks StorageExamples.cfg0 Partition.no_json (conf1 true) elected (rev (c_tasks w1)) (set_tasks w1 [])) !! 2 = Some p.
Proof.
  pose proof (run_reconcile StorageExamples.cfg0 Partition.no_json (conf1 true) elected (node_with s3) s3_ok) as E.
  set (w1 := set_tasks (node_with s3) _) in E. exists w1.
  destruct (reconcile_converges StorageExamples.cfg0 Partition.no_json (conf1 true) elected (node_with s3) w1
    (rev (c_tasks w1)) StorageExamples.cfg0_ok s3_ok eq_refl) as (_ & H & _); [by split|exact E|symmetry; apply Permutation_rev|].
  destruct (H 2 (info_of (conf1 true) (new_partition "t" 1 2 [2; 1]))) as (_ & (p & Hp & _) & _).
  - exists (PKey "t" 1), (new_partition "t" 1 2 [2; 1]). split; [vm_compute; reflexivity|]. split; [|split; reflexivity].
    apply elem_of_cons. right. apply elem_of_cons. by left.
  - reflexivity.
  - exists p. exact (conj E Hp).
Defined.

Lemma new_topic_serves_witness :
  exists info w1, run (ClusterRun.handle StorageExamples.cfg0 Partition.no_json (conf1 true) elected)
    (CreateTopic (conf1 true) "orders" 3 2 {| ov_RetentionMs := None; ov_RetentionBytes := None |}) (node_with s2) = (Ok info, w1) /\
    exists w3 p, DataRun.leads DataRun.conf1 (c_node w3) "orders" 1 2 p /\ Partition.fsm_live StorageExamples.cfg0 p 0 [].
Proof.
  destruct (new_topic_serves StorageExamples.cfg0 Partition.no_json (conf1 true) elected (node_with s2) "orders" 3 2
    {| ov_RetentionMs := None; ov_RetentionBytes := None |} DataRun.conf1 StorageExamples.cfg0_ok w2_creatable w2_converged eq_refl eq_refl)
    as (info & w1 & E & H).
  - intros sh _. exists 3. split; [reflexivity|lia].
  - exists info, w1. split; [exact E|]. destruct (H (c_tasks w1)) as (w3 & _ & H3); [reflexivity|].
    exists w3. apply (H3 1 [2; 1]); [lia|vm_compute; reflexivity|].
    apply elem_of_cons. right. apply elem_of_cons. left. reflexivity.
Defined.

(** "t" was deleted and created again; partition 0 is now shard 4. *)
Definition log6 : list (option MetadataCommand) :=
  ClusterPlace.log3 ++ [Some (CmdDeleteTopic (Some "t")); Some (ClusterPlace.c_topic 1 [[1; 2]]);
    Some (CmdAssignPartitionLeader (Some {| al_Topic := "t"; al_PartitionID := 0; al_LeaderNodeID := 1; al_LeaderEpoch := 3 |}))].
Definition s6 : MetadataState := ClusterPlace.after log6.

Lemma recreated_topic_unserved_witness :
  exists w2, run (DataRun.handle StorageExamples.cfg0 Partition.no_json)
      (DataCoord.Produce DataRun.conf1 "t" 0 Batch.sample_encoded DataCoord.AcksAll) (c_node w2) =
    (Err DataCoord.ErrUnavailable, c_node w2).
Proof.
  destruct (recreated_topic_unserved StorageExamples.cfg0 Partition.no_json (conf1 true) elected (node_t0 s6) 1 info_t0 4
    (info_of (conf1 true) (new_partition "t" 0 4 [1; 2])) StorageExamples.cfg0_ok) as (w1 & order & _ & _ & _ & _ & H).
  - apply (replay_ok log6); [vm_compute; reflexivity| |vm_compute; reflexivity].
    repeat constructor; vm_compute; congruence.
  - reflexivity.
  - by split.
  - reflexivity.
  - vm_compute. reflexivity.
  - reflexivity.
  - exists (PKey "t" 0), (set_leader (new_partition "t" 0 4 [1; 2]) 1 3). split; [vm_compute; reflexivity|]. split; [|split; reflexivity].
    apply elem_of_cons. by left.
  - reflexivity.
  - eexists. apply (H DataRun.conf1 (set_leader (new_partition "t" 0 4 [1; 2]) 1 3)); [vm_compute; reflexivity|reflexivity].
Defined.

End ClusterServe.
