(* ===== verification/ApiMgmt.v ===== *)
(** * The management API

    internal/api/management: the RPC handlers over the classes [ClusterCoordinatorIface] and
    [DataQueryIface] of coordinator.go, and the mapping of coordinator errors to statuses. The
    instances are the coordinators of ClusterCoord.v and DataCoord.v. [mgmt_describes_created]
    composes API, coordinator and state machine; [mgmt_errors_internal] shows that the mapping
    compares with error values of its own package, which no coordinator returns. *)

From S2P Require Import Prelude Hash SegName LogSegment BatchLog Keys Metadata MetadataInv Prog Segment Storage StorageExamples Partition DataCoord DataRun ClusterCoord Placement ClusterPlace ClusterRun ClusterServe.
Local Open Scope Z_scope.

Module ApiMgmt.
Import Metadata MetadataInv ClusterCoord.

(** errors.go. *)
Definition sTopicNotFound : sentinel := Sentinel "management" "ErrTopicNotFound".
Definition sTopicAlreadyExists : sentinel := Sentinel "management" "ErrTopicAlreadyExists".
Definition sInvalidArgument : sentinel := Sentinel "management" "ErrInvalidArgument".
Definition sUnavailable : sentinel := Sentinel "management" "ErrUnavailable".

(** The gRPC codes and the [BunnyErrorCode]s this package uses. *)
Inductive code := AlreadyExists | NotFound | InvalidArgument | Unavailable | Internal.
Inductive BunnyErrorCode := TOPIC_ALREADY_EXISTS | TOPIC_NOT_FOUND | INVALID_ARGUMENT | UNAVAILABLE | UNKNOWN.

(** A status with its [BunnyErrorDetail]; encoding the detail does not fail. *)
Record status := { st_code : code; st_bunny : BunnyErrorCode }.

Definition mapCoordError (e : error) : status :=
  if errors_is e sTopicAlreadyExists then {| st_code := AlreadyExists; st_bunny := TOPIC_ALREADY_EXISTS |} else
  if errors_is e sTopicNotFound then {| st_code := NotFound; st_bunny := TOPIC_NOT_FOUND |} else
  if errors_is e sInvalidArgument then {| st_code := InvalidArgument; st_bunny := INVALID_ARGUMENT |} else
  if errors_is e sUnavailable then {| st_code := Unavailable; st_bunny := UNAVAILABLE |} else
  {| st_code := Internal; st_bunny := UNKNOWN |}.

(** What an RPC answers. *)
Inductive reply (A : Type) :=
| Reply (a : A)
| Status (st : status)
| Crash (p : panic)
| NoFuel.
Arguments Reply {A} _.
Arguments Status {A} _.
Arguments Crash {A} _.
Arguments NoFuel {A}.

(** ** The coordinator interfaces *)

Class ClusterCoordinatorIface (E : Type -> Type) := {
  cc_CreateTopic : string -> Z -> Z -> TopicConfigOverrides -> prog E (outcome TopicInfo);
  cc_DeleteTopic : string -> prog E (outcome unit);
  cc_ListTopics : prog E (outcome (list TopicInfo));
  cc_DescribeTopic : string -> prog E (outcome TopicDescription);
  cc_AlterTopicPartitionCount : string -> Z -> prog E (outcome unit);
  cc_AlterTopicRetention : string -> Z -> Z -> prog E (outcome unit);
  cc_DescribeCluster : prog E (outcome (list NodeDescriptor))
}.

Class DataQueryIface (E : Type -> Type) := { dq_PartitionOffsets : Z -> prog E (outcome (Z * Z)) }.

#[export] Instance ClusterCoordinator (config : CoordinatorConfig) : ClusterCoordinatorIface clusterE := {
  cc_CreateTopic := CreateTopic config;
  cc_DeleteTopic := DeleteTopic;
  cc_ListTopics := ListTopics;
  cc_DescribeTopic := DescribeTopic;
  cc_AlterTopicPartitionCount := AlterTopicPartitionCount;
  cc_AlterTopicRetention := AlterTopicRetention;
  cc_DescribeCluster := DescribeCluster
}.

#[export] Instance DataQuery : DataQueryIface clusterE := {
  dq_PartitionOffsets := fun shard => in_data (DataCoord.PartitionOffsets shard)
}.

(** ** Handlers *)

(** [pb.PartitionInfoWithOffsets]. *)
Record PartitionInfoWithOffsets := { po_Info : PartitionInfo; po_EarliestOffset : Z; po_LatestOffset : Z }.

(** [protoTopicInfo] and [protoPartitionInfo] copy the fields to messages with the same fields. *)
Definition protoTopicInfo (t : TopicInfo) : TopicInfo :=
  {| ti_Name := ti_Name t; ti_PartitionCount := ti_PartitionCount t; ti_ReplicationFactor := ti_ReplicationFactor t;
     ti_RetentionMs := ti_RetentionMs t; ti_RetentionBytes := ti_RetentionBytes t; ti_CreatedAtMs := ti_CreatedAtMs t |}.
Definition protoPartitionInfo (p : PartitionInfo) : PartitionInfo :=
  {| pi_PartitionID := pi_PartitionID p; pi_ShardID := pi_ShardID p; pi_LeaderNodeID := pi_LeaderNodeID p;
     pi_LeaderEpoch := pi_LeaderEpoch p; pi_ReplicaNodeIDs := pi_ReplicaNodeIDs p |}.

Section server.
Context {E : Type -> Type} `{ClusterCoordinatorIface E} `{DataQueryIface E}.

(** A coordinator call whose errors are mapped to statuses. *)
Definition rpc {A B} (m : prog E (outcome A)) (k : A -> prog E (reply B)) : prog E (reply B) :=
  o ← m;
  match o with
  | Ok a => k a
  | Err e => Ret (Status (mapCoordError e))
  | Panic p => Ret (Crash p)
  | OutOfFuel => Ret NoFuel
  end.

Definition nonzero (z : Z) : option Z := if negb (z =? 0) then Some z else None.

Definition CreateTopic (name : string) (partitionCount replicationFactor retentionMs retentionBytes : Z)
  : prog E (reply TopicInfo) :=
  rpc (cc_CreateTopic name partitionCount replicationFactor
         {| ov_RetentionMs := nonzero retentionMs; ov_RetentionBytes := nonzero retentionBytes |})
    (fun info => Ret (Reply (protoTopicInfo info))).

Definition DeleteTopic (name : string) : prog E (reply unit) := rpc (cc_DeleteTopic name) (fun _ => Ret (Reply tt)).

Definition ListTopics : prog E (reply (list TopicInfo)) :=
  rpc cc_ListTopics (fun topics => Ret (Reply (map protoTopicInfo topics))).

Definition DescribeTopic (name : string) : prog E (reply (TopicInfo * list PartitionInfo)) :=
  rpc (cc_DescribeTopic name) (fun desc =>
    Ret (Reply (protoTopicInfo (td_TopicInfo desc), map protoPartitionInfo (td_Partitions desc)))).

Definition AlterTopicPartitions (name : string) (newPartitionCount : Z) : prog E (reply unit) :=
  rpc (cc_AlterTopicPartitionCount name newPartitionCount) (fun _ => Ret (Reply tt)).

Definition AlterTopicRetention (name : string) (retentionMs retentionBytes : Z) : prog E (reply unit) :=
  rpc (cc_AlterTopicRetention name retentionMs retentionBytes) (fun _ => Ret (Reply tt)).

Definition DescribeCluster : prog E (reply (list NodeDescriptor)) :=
  rpc cc_DescribeCluster (fun nodes =>
    Ret (Reply (map (fun n => {| nd_NodeID := nd_NodeID n; nd_Address := nd_Address n |}) nodes))).

(** The offsets of each partition, -1 when the local replica does not answer. *)
Fixpoint with_offsets (ps : list PartitionInfo) : prog E (outcome (list PartitionInfoWithOffsets)) :=
  match ps with
  | [] => Ret (Ok [])
  | p :: ps' =>
      let entry e l := {| po_Info := protoPartitionInfo p; po_EarliestOffset := e; po_LatestOffset := l |} in
      r ← dq_PartitionOffsets (pi_ShardID p);
      match r with
      | Ok (e, l) => call (with_offsets ps') id (fun rest => Ret (Ok (entry e l :: rest)))
      | Err _ => call (with_offsets ps') id (fun rest => Ret (Ok (entry (-1) (-1) :: rest)))
      | Panic p => Ret (Panic p)
      | OutOfFuel => Ret OutOfFuel
      end
  end.

Definition ListPartitions (topic : string) : prog E (reply (list PartitionInfoWithOffsets)) :=
  rpc (cc_DescribeTopic topic) (fun desc => rpc (with_offsets (td_Partitions desc)) (fun ps => Ret (Reply ps))).

End server.

(** ** What clients see *)

Section node.
Variable cfg : StorageConfig.
Variable unmarshal : list byte -> option (Z * Z).
Variable config : CoordinatorConfig.
Variable leader : Z -> outcome (Z * Z * bool).
Abbreviation handle := (ClusterRun.handle cfg unmarshal config leader).
#[local] Instance coordinator : ClusterCoordinatorIface clusterE := ClusterCoordinator config.

Lemma run_rpc {A B} (m : cprog (outcome A)) (k : A -> cprog (reply B)) w :
  run handle (rpc m k) w =
  match run handle m w with
  | (Ok a, w') => run handle (k a) w'
  | (Err e, w') => (Status (mapCoordError e), w')
  | (Panic p, w') => (Crash p, w')
  | (OutOfFuel, w') => (NoFuel, w')
  end.
Proof. unfold rpc. rewrite run_bind. by destruct (run handle m w) as [[]]. Qed.

(** An error of the cluster coordinator, or of the state machine below it, never wraps a
    sentinel of the management package. *)
Lemma foreign_error e s :
  (forall t, errors_is e t = true -> sent_pkg t <> "management") -> sent_pkg s = "management" -> errors_is e s = false.
Proof. intros H Hs. destruct (errors_is e s) eqn:E; [|done]. by destruct (H s E). Qed.

Lemma errors_is_sentinel s t : errors_is (ErrSentinel s) t = true -> s = t.
Proof. cbn. apply bool_decide_eq_true. Qed.

Definition internal {A} : reply A := Status {| st_code := Internal; st_bunny := UNKNOWN |}.

Lemma map_foreign e : (forall t, errors_is e t = true -> sent_pkg t <> "management") ->
  mapCoordError e = {| st_code := Internal; st_bunny := UNKNOWN |}.
Proof. intros H. unfold mapCoordError. by rewrite !(foreign_error e) by done. Qed.

Lemma map_cluster s : sent_pkg s = "cluster" -> mapCoordError (ErrSentinel s) = {| st_code := Internal; st_bunny := UNKNOWN |}.
Proof. intros Hs. apply map_foreign. intros t <-%errors_is_sentinel. by rewrite Hs. Qed.

Lemma map_wrapped msg s :
  sent_pkg s = "cluster" -> mapCoordError (ErrWrap msg (ErrSentinel s)) = {| st_code := Internal; st_bunny := UNKNOWN |}.
Proof. intros Hs. apply map_foreign. intros t Ht. cbn [errors_is] in Ht. apply errors_is_sentinel in Ht as <-. by rewrite Hs. Qed.

(** A topic that is missing. *)
Lemma run_missing {A B} name (k : answer -> cprog (outcome A)) (k' : A -> cprog (reply B)) w :
  Topics (ClusterRun.meta w) !! name = None ->
  run handle (rpc (call (trigger (CLookup (QueryGetTopic name))) topic_error k) k') w = (internal, w).
Proof.
  intros Hn. rewrite run_rpc, run_call, run_trigger. cbn [ClusterRun.handle Lookup]. rewrite Hn. cbn [found].
  change (topic_error ErrNotFound) with (ErrSentinel ClusterCoord.sTopicNotFound). by rewrite map_cluster.
Qed.

(** Clients cannot tell the errors of the management API apart. [mapCoordError] compares with the
    sentinels of its own package, while the coordinator returns those of coordinator/cluster, so
    an invalid argument, an existing topic and a missing topic are all answered as an internal
    server error with the code UNKNOWN. *)
Theorem mgmt_errors_internal w name :
  (forall pc rf ms bytes, topicNameRe name = false \/ pc < 1 \/ rf < 1 ->
     run handle (CreateTopic name pc rf ms bytes) w = (internal, w)) /\
  (forall pc rf ms bytes, topicNameRe name = true -> 1 <= pc -> 1 <= rf <= len (listNodes (ClusterRun.meta w)) ->
     NoDup (NodeID <$> listNodes (ClusterRun.meta w)) -> is_Some (Topics (ClusterRun.meta w) !! name) ->
     run handle (CreateTopic name pc rf ms bytes) w = (internal, w)) /\
  (Topics (ClusterRun.meta w) !! name = None ->
     run handle (DeleteTopic name) w = (internal, w) /\ run handle (DescribeTopic name) w = (internal, w) /\
     (forall n, run handle (AlterTopicPartitions name n) w = (internal, w)) /\
     (forall ms bytes, run handle (AlterTopicRetention name ms bytes) w = (internal, w))).
Proof.
  split_and!.
  - intros pc rf ms bytes H. unfold CreateTopic. rewrite run_rpc. cbn [cc_CreateTopic coordinator ClusterCoordinator].
    unfold ClusterCoord.CreateTopic, ErrInvalidArgument. destruct (topicNameRe name); cbn [negb]; [|cbn [run]; by rewrite map_wrapped].
    destruct (Z.ltb_spec pc 1); [cbn [run]; by rewrite map_wrapped|].
    destruct (Z.ltb_spec rf 1); [cbn [run]; by rewrite map_wrapped|]. exfalso. destruct H as [H|[H|H]]; [done|lia..].
  - intros pc rf ms bytes Hn Hpc Hrf Hd Hs. unfold CreateTopic. rewrite run_rpc. cbn [cc_CreateTopic coordinator ClusterCoordinator].
    rewrite (proj2 (ClusterServe.create_rejected cfg unmarshal config leader w name pc rf _)) by done.
    unfold ErrTopicAlreadyExists. by rewrite map_cluster.
  - intros Hn. split_and!; intros; by apply run_missing.
Qed.

(** ** Listing partitions with their offsets *)

Lemma run_in_data {A} (p : prog DataCoord.dataE A) w :
  run handle (in_data p) w =
  let '(a, n) := run (DataRun.handle cfg unmarshal) p (ClusterRun.c_node w) in (a, ClusterRun.set_node w n).
Proof.
  revert w. induction p as [a|X e k IH]; intros w; cbn [in_data run]; [by destruct w|].
  cbn [ClusterRun.handle]. destruct (DataRun.handle cfg unmarshal X e (ClusterRun.c_node w)) as [x n]. by rewrite IH.
Qed.

(** The offsets this node knows of a shard. *)
Definition offsets_of (w : ClusterRun.cnode) (sh : Z) (e l : Z) : Prop :=
  match ClusterRun.shards w !! sh with
  | None => e = -1 /\ l = -1
  | Some p => exists bs, Partition.fsm_live cfg p e bs /\ l = BatchLog.end_off e bs
  end.

Definition all_live (w : ClusterRun.cnode) : Prop :=
  forall sh p, ClusterRun.shards w !! sh = Some p -> exists off bs, Partition.fsm_live cfg p off bs.

Lemma run_offsets w sh :
  all_live w ->
  exists r, run handle (dq_PartitionOffsets sh) w = (r, w) /\
    ((exists e l, r = Ok (e, l) /\ offsets_of w sh e l) \/ (exists err, r = Err err) /\ offsets_of w sh (-1) (-1)).
Proof.
  intros Hl. cbn [dq_PartitionOffsets DataQuery]. rewrite run_in_data. unfold DataCoord.PartitionOffsets, DataCoord.read_offset.
  rewrite run_call, run_call, run_trigger. cbn [DataRun.handle]. unfold offsets_of.
  destruct (ClusterRun.shards w !! sh) as [p|] eqn:Ep.
  - destruct (Hl sh p Ep) as (off & bs & Hp). pose proof Hp as [(s & Hs & Hrep) Hop].
    pose proof (Storage.represents_log _ _ _ _ Hrep) as (_ & Hlat & Hear & _).
    unfold Partition.Lookup at 1. rewrite Hop, Hs. cbn [run]. rewrite run_call, run_call, run_trigger. cbn [DataRun.handle].
    rewrite Ep. unfold Partition.Lookup. rewrite Hop, Hs. cbn [run]. eexists. split; [by destruct w|]. left.
    eexists _, _. split; [reflexivity|]. rewrite Hear, Hlat. eauto.
  - cbn. eexists. split; [by destruct w|]. right. eauto.
Qed.

Lemma run_with_offsets w ps :
  all_live w ->
  exists rs, run handle (with_offsets ps) w = (Ok rs, w) /\
    Forall2 (fun p r => po_Info r = p /\ offsets_of w (pi_ShardID p) (po_EarliestOffset r) (po_LatestOffset r)) ps rs.
Proof.
  intros Hl. induction ps as [|p ps (rs & E & IH)]; [by exists []|]. cbn [with_offsets].
  destruct (run_offsets w (pi_ShardID p) Hl) as (r & Er & Hr). rewrite run_bind, Er.
  assert (protoPartitionInfo p = p) as Ep by (by destruct p).
  destruct Hr as [(e & l & -> & Ho)|[[err ->] Ho]]; rewrite run_call, E; eexists; (split; [reflexivity|]); by constructor.
Qed.

(** [ListPartitions] reports every partition of the topic in order, with the replicas and leader
    the metadata has, and the bounds of the local replica's log: the first offset it keeps and
    the offset the next record will get; -1 for both where this node runs no replica. *)
Theorem ListPartitions_reports w t m :
  meta_ok (ClusterRun.meta w) -> Topics (ClusterRun.meta w) !! t = Some m -> all_live w ->
  exists rs, run handle (ListPartitions t) w = (Reply rs, w) /\ len rs = PartitionCount m /\
    forall i, 0 <= i < PartitionCount m -> exists pm r, Partitions (ClusterRun.meta w) !! PKey t i = Some pm /\
      rs !! Z.to_nat i = Some r /\ po_Info r = partitionInfo pm /\
      offsets_of w (ShardID pm) (po_EarliestOffset r) (po_LatestOffset r).
Proof.
  intros Hok Ht Hl. destruct (ClusterServe.run_DescribeTopic cfg unmarshal config leader w t m Hok Ht) as (ps & E & Hlen & Hps).
  destruct (run_with_offsets w ps Hl) as (rs & Er & Hf). exists rs. split_and!.
  - unfold ListPartitions. rewrite run_rpc. cbn [cc_DescribeTopic coordinator ClusterCoordinator]. rewrite E. cbn [td_Partitions].
    by rewrite run_rpc, Er.
  - unfold len in *. by rewrite <- (Forall2_length _ _ _ Hf).
  - intros i Hi. destruct (proj2 (mo_parts _ Hok t i)) as [pm Hpm]; [eauto|]. exists pm.
    specialize (Hps i Hi). rewrite Hpm in Hps. cbn in Hps.
    destruct (Forall2_lookup_l _ _ _ _ _ Hf Hps) as (r & Hr & Ei & Ho). exists r. split_and!; done.
Qed.

End node.

Lemma mgmt_errors_internal_witness :
  run (ClusterRun.handle StorageExamples.cfg0 Partition.no_json (ClusterServe.conf1 true) ClusterServe.elected)
    (@DeleteTopic _ (coordinator (ClusterServe.conf1 true)) "gone") (ClusterServe.node_with ClusterServe.s3) =
  (internal, ClusterServe.node_with ClusterServe.s3).
Proof.
  destruct (mgmt_errors_internal StorageExamples.cfg0 Partition.no_json (ClusterServe.conf1 true) ClusterServe.elected
    (ClusterServe.node_with ClusterServe.s3) "gone") as (_ & _ & H).
  assert (Topics ClusterServe.s3 !! "gone" = None) as Hn by (vm_compute; reflexivity).
  exact (proj1 (H Hn)).
Defined.

Lemma ListPartitions_reports_witness :
  exists rs, run (ClusterRun.handle StorageExamples.cfg0 Partition.no_json (ClusterServe.conf1 true) ClusterServe.elected)
    (@ListPartitions _ (coordinator (ClusterServe.conf1 true)) DataQuery "t") (ClusterServe.node_with ClusterServe.s3) =
  (Reply rs, ClusterServe.node_with ClusterServe.s3) /\ len rs = 3.
Proof.
  destruct (ListPartitions_reports StorageExamples.cfg0 Partition.no_json (ClusterServe.conf1 true) ClusterServe.elected
    (ClusterServe.node_with ClusterServe.s3) "t"
    {| Name := "t"; PartitionCount := 3; ReplicationFactor := 2; RetentionMs := 0; RetentionBytes := -1; CreatedAtMs := 0 |})
    as (rs & E & H & _).
  - exact ClusterServe.s3_ok.
  - vm_compute. reflexivity.
  - intros sh p H. discriminate H.
  - exists rs. exact (conj E H).
Defined.

End ApiMgmt.
