(* ===== verification/ClientCodec.v ===== *)
(** * The batch codec of the client library

    internal/client/batch_encoder.go and batch_decoder.go. A record of the client has its headers
    in a map; the encoder writes them in the order in which Go iterates over the map, which is
    any order. The decoder reads several batches one after the other and gives every record its
    offset. *)

From S2P Require Import Prelude Hash Varint Batch BatchLog StorageExamples.
Local Open Scope Z_scope.

#[export] Instance byte_countable : Countable byte.
Proof. refine (inj_countable' byte.unsigned byte.of_Z _). apply byte.of_Z_unsigned. Defined.

Module ClientCodec.
Import BatchLog.

(** [map[string][]byte]: a Go string is its bytes; a nil map reads like an empty one. *)
Abbreviation headers := (gmap (list byte) (list byte)).

Record BatchRecord := { br_Key : option (list byte); br_Value : list byte; br_Headers : headers; br_TimestampMs : Z }.

Record DecodedRecord := {
  dr_Offset : Z;
  dr_Key : option (list byte);
  dr_Value : list byte;
  dr_Headers : headers;
  dr_TimestampMs : Z
}.

Section encoder.
(** The order in which the headers of the [i]th record are visited. *)
Variable range : nat -> headers -> list (list byte * list byte).

Definition storageRecord (i : nat) (r : BatchRecord) : Batch.record :=
  {| Batch.TimestampMs := br_TimestampMs r; Batch.rKey := br_Key r; Batch.rValue := br_Value r;
     Batch.Headers := fold_left (fun hs kv => hs ++ [{| Batch.hKey := kv.1; Batch.hValue := kv.2 |}])
                        (range i (br_Headers r)) [] |}.

Definition Encode (records : list BatchRecord) : outcome (list byte) :=
  Batch.EncodeBatch (imap storageRecord records).
End encoder.

Definition decodedHeaders (hs : list Batch.RecordHeader) : headers :=
  if 0 <? len hs then fold_left (fun m h => <[Batch.hKey h := Batch.hValue h]> m) hs ∅ else ∅.

Definition decodedRecord (base : Z) (i : nat) (r : Batch.record) : DecodedRecord :=
  {| dr_Offset := i64 (base + Z.of_nat i); dr_Key := Batch.rKey r; dr_Value := Batch.rValue r;
     dr_Headers := decodedHeaders (Batch.Headers r); dr_TimestampMs := Batch.TimestampMs r |}.

(** The records decoded so far are returned also with an error. *)
Fixpoint decode_loop (fuel : nat) (data : list byte) (pos : Z) (out : list DecodedRecord)
  : outcome (list DecodedRecord * option error) :=
  match fuel with
  | O => OutOfFuel
  | S fuel' =>
      if pos <? len data then
        match Batch.DecodeNextBatch data pos with
        | Ok (b, nextPos) =>
            decode_loop fuel' data nextPos
              (out ++ imap (decodedRecord (Batch.BaseOffset (Batch.bHeader b))) (Batch.bRecords b))
        | Err e => Ok (out, Some (ErrWrap "decode batch" e))
        | Panic p => Panic p
        | OutOfFuel => OutOfFuel
        end
      else Ok (out, None)
  end.

Definition Decode (data : list byte) : outcome (list DecodedRecord * option error) :=
  decode_loop (S (length data)) data 0 [].

(** ** Decoding a run of batches *)

(** A batch a producer made of [records], stored at offset [base]. *)
Definition stored (base : Z) (records : list Batch.record) (b : list byte) : Prop :=
  exists enc, Batch.EncodeBatch records = Ok enc /\ len enc <= maxBatchBytes /\ b = Batch.withBaseOffset enc base /\
    Forall (fun r => in_i64 (Batch.TimestampMs r)) records.

(** The records of consecutive batches with their offsets. *)
Fixpoint numbered (base : Z) (rss : list (list Batch.record)) : list DecodedRecord :=
  match rss with
  | [] => []
  | rs :: rss' => imap (decodedRecord base) rs ++ numbered (base + len rs) rss'
  end.

Lemma len_numbered base rss : len (numbered base rss) = len (concat rss).
Proof. revert base. induction rss as [|rs rss IH]; intros base; cbn [numbered concat]; [done|]. rewrite !len_app, IH. unfold len. by rewrite length_imap. Qed.

Fixpoint stored_run (base : Z) (rss : list (list Batch.record)) (bs : list (list byte)) : Prop :=
  match rss, bs with
  | [], [] => True
  | rs :: rss', b :: bs' => stored base rs b /\ stored_run (base + len rs) rss' bs'
  | _, _ => False
  end.

Lemma stored_len base rs b : stored base rs b -> 38 <= len b < 2 ^ 31.
Proof.
  intros (enc & He & Hl & -> & _). pose proof (wf_len _ (EncodeBatch_wf _ _ He Hl)).
  unfold maxBatchBytes in *. rewrite len_withBase by lia. lia.
Qed.

Lemma stored_decode base rs b rest :
  stored base rs b -> in_i64 base ->
  exists h, Batch.DecodeBatch (b ++ rest) = Ok {| Batch.bHeader := h; Batch.bRecords := rs |} /\
    Batch.BaseOffset h = base /\ Batch.BatchLength h = len b.
Proof.
  intros Hst Hb. pose proof (stored_len _ _ _ Hst) as Hlb. destruct Hst as (enc & He & Hl & -> & Hts).
  pose proof (wf_len _ (EncodeBatch_wf _ _ He Hl)) as Hle. unfold maxBatchBytes in *.
  destruct (Batch.decode_encode rs enc base rest He ltac:(lia) Hb Hts) as (r0 & _ & ->).
  eexists. split; [done|]. split; [done|]. cbn [Batch.encodedHeader Batch.BatchLength].
  rewrite len_sub, len_withBase by lia. lia.
Qed.

(** The loop reads the batches of a run one by one, whatever follows them. *)
Lemma decode_run fuel pre rss bs rest out base :
  stored_run base rss bs -> in_i64 base -> base + len (concat rss) < 2 ^ 63 ->
  decode_loop (length bs + fuel) (pre ++ concat bs ++ rest) (len pre) out =
  decode_loop fuel ((pre ++ concat bs) ++ rest) (len (pre ++ concat bs)) (out ++ numbered base rss).
Proof.
  revert pre rss out base. induction bs as [|b bs IH]; intros pre [|rs rss] out base Hrun Hb He; try done.
  - cbn [concat numbered length Nat.add]. by rewrite !app_nil_r.
  - destruct Hrun as [Hst Hrun]. pose proof (stored_len _ _ _ Hst) as Hlb.
    cbn [decode_loop concat numbered length Nat.add] in *. pose proof (len_nonneg (concat bs)). pose proof (len_nonneg rest).
    rewrite (proj2 (Z.ltb_lt _ _)) by len_lia. unfold Batch.DecodeNextBatch.
    rewrite (proj2 (Z.leb_gt _ _)) by len_lia. rewrite slice_Ok by len_lia. cbn [mbind outcome_bind].
    rewrite (sub_tail pre ((b ++ concat bs) ++ rest)), <- app_assoc by len_lia.
    destruct (stored_decode base rs b (concat bs ++ rest) Hst Hb) as (h & -> & Hh & Hbl).
    cbn [mbind outcome_bind Batch.bHeader Batch.bRecords].
    rewrite Hh, Hbl, (app_assoc pre b). replace (len pre + len b) with (len (pre ++ b)) by len_lia.
    rewrite (IH (pre ++ b) rss _ (base + len rs)); [by rewrite <- !app_assoc|done| |len_lia].
    unfold in_i64 in *. len_lia.
Qed.

Lemma stored_run_length base rss bs : stored_run base rss bs -> (length bs <= length (concat bs))%nat.
Proof.
  revert base rss. induction bs as [|b bs IH]; intros base [|rs rss] H; cbn [concat length] in *; try lia; [done|].
  destruct H as [Hst H]. pose proof (stored_len _ _ _ Hst). specialize (IH _ _ H). rewrite length_app. unfold len in *. lia.
Qed.

Lemma Decode_prefix base rss bs rest :
  stored_run base rss bs -> in_i64 base -> base + len (concat rss) < 2 ^ 63 ->
  exists fuel, Decode (concat bs ++ rest) = decode_loop (S fuel) (concat bs ++ rest) (len (concat bs)) (numbered base rss).
Proof.
  intros Hrun Hb He. unfold Decode. pose proof (stored_run_length _ _ _ Hrun).
  exists (length (concat bs ++ rest) - length bs)%nat. rewrite length_app.
  replace (S (length (concat bs) + length rest))
    with (length bs + S (length (concat bs) + length rest - length bs))%nat by lia.
  exact (decode_run _ [] rss bs rest [] base Hrun Hb He).
Qed.

(** Decoding what a fetch returns: the records of all its batches, in order, with consecutive
    offsets. *)
Lemma Decode_run base rss bs :
  stored_run base rss bs -> in_i64 base -> base + len (concat rss) < 2 ^ 63 ->
  Decode (concat bs) = Ok (numbered base rss, None).
Proof.
  intros Hrun Hb He. destruct (Decode_prefix base rss bs [] Hrun Hb He) as (fuel & E). rewrite app_nil_r in E.
  rewrite E. cbn [decode_loop]. by rewrite (proj2 (Z.ltb_ge _ _)) by lia.
Qed.

(** A batch that does not decode: the records before it come with the error. *)
Lemma Decode_partial base rss bs rest e :
  stored_run base rss bs -> in_i64 base -> base + len (concat rss) < 2 ^ 63 ->
  rest <> [] -> Batch.DecodeBatch rest = Err e ->
  Decode (concat bs ++ rest) = Ok (numbered base rss, Some (ErrWrap "decode batch" e)).
Proof.
  intros Hrun Hb He Hne Hbad. destruct (Decode_prefix base rss bs rest Hrun Hb He) as (fuel & ->). cbn [decode_loop].
  assert (0 < len rest) by (destruct rest; [done|len_lia]). pose proof (len_nonneg (concat bs)).
  rewrite (proj2 (Z.ltb_lt _ _)) by len_lia. unfold Batch.DecodeNextBatch. rewrite (proj2 (Z.leb_gt _ _)) by len_lia.
  rewrite slice_Ok by len_lia. cbn [mbind outcome_bind]. rewrite (sub_tail (concat bs) rest) by len_lia. by rewrite Hbad.
Qed.

(** Runs and logs: a run is a chain, and it ends after its last record. *)
Lemma stored_count base rs b : stored base rs b -> batch_count b = len rs.
Proof.
  intros (enc & He & Hl & -> & _). pose proof (wf_len _ (EncodeBatch_wf _ _ He Hl)).
  rewrite withBase_count by lia. by apply StorageExamples.encoded_count.
Qed.

Lemma stored_run_end base rss bs : stored_run base rss bs -> end_off base bs = base + len (concat rss).
Proof.
  revert base rss. induction bs as [|b bs IH]; intros base [|rs rss] H; try done; cbn [end_off concat]; [len_lia|].
  destruct H as [Hst H]. rewrite (stored_count _ _ _ Hst), (IH _ _ H). len_lia.
Qed.

Lemma stored_run_app base rss bs1 bs2 :
  stored_run base rss (bs1 ++ bs2) ->
  exists r1 r2, rss = r1 ++ r2 /\ stored_run base r1 bs1 /\ stored_run (base + len (concat r1)) r2 bs2.
Proof.
  revert base rss. induction bs1 as [|b bs1 IH]; intros base rss H; cbn [app] in H.
  - exists [], rss. split; [done|]. split; [done|]. cbn [concat]. by rewrite len_nil, Z.add_0_r.
  - destruct rss as [|rs rss]; [done|]. destruct H as [Hst H]. destruct (IH _ _ H) as (r1 & r2 & -> & H1 & H2).
    exists (rs :: r1), r2. split; [done|]. split; [done|]. cbn [concat]. by rewrite len_app, Z.add_assoc.
Qed.

Lemma numbered_app base r1 r2 : numbered base (r1 ++ r2) = numbered base r1 ++ numbered (base + len (concat r1)) r2.
Proof.
  revert base. induction r1 as [|rs r1 IH]; intros base; cbn [numbered concat app]; [by rewrite len_nil, Z.add_0_r|].
  rewrite IH, <- app_assoc. by rewrite len_app, Z.add_assoc.
Qed.

(** ** Termination *)

Lemma decoded_advances data b : Batch.DecodeBatch data = Ok b -> 38 <= Batch.BatchLength (Batch.bHeader b).
Proof.
  unfold Batch.DecodeBatch. destruct (len data <? 38); [done|].
  destruct (Batch.decodeHeader data) as [bh| | |]; cbn [mbind outcome_bind]; [|done..].
  destruct (Z.ltb_spec (Batch.BatchLength bh) 38); cbn [orb]; [done|]. destruct (len data <? _); [done|].
  destruct (slice data 38 _); cbn [mbind outcome_bind]; [|done..]. destruct (negb _); [done|].
  destruct (Batch.make_check _ _); cbn [mbind outcome_bind]; [|done..].
  destruct (Batch.decodeRecords _ _ _ _); cbn [mbind outcome_bind]; [|done..]. by intros [= <-].
Qed.

Lemma decode_loop_ends fuel data pos out :
  0 <= pos -> (Z.to_nat (len data - pos) < fuel)%nat -> decode_loop fuel data pos out <> OutOfFuel.
Proof.
  revert pos out. induction fuel as [|fuel IH]; intros pos out Hp Hf; [lia|]. cbn [decode_loop].
  destruct (Z.ltb_spec pos (len data)); [|done]. unfold Batch.DecodeNextBatch. rewrite (proj2 (Z.leb_gt _ _)) by lia.
  rewrite slice_Ok by lia. cbn [mbind outcome_bind]. set (d := sub data pos (len data)).
  pose proof (Batch.DecodeBatch_terminates d). destruct (Batch.DecodeBatch d) as [b|e|q|] eqn:E; cbn [mbind outcome_bind]; [|done..].
  pose proof (decoded_advances _ _ E). apply IH; lia.
Qed.

(** Decoding ends on every input. *)
Lemma Decode_terminates data : Decode data <> OutOfFuel.
Proof. apply decode_loop_ends; [lia|]. unfold len. lia. Qed.

(** ** Client records *)

Lemma headers_list (l : list (list byte * list byte)) acc :
  fold_left (fun hs kv => hs ++ [{| Batch.hKey := kv.1; Batch.hValue := kv.2 |}]) l acc =
  acc ++ ((fun kv => {| Batch.hKey := kv.1; Batch.hValue := kv.2 |}) <$> l).
Proof.
  revert acc. induction l as [|kv l IH]; intros acc; cbn; [by rewrite app_nil_r|]. by rewrite IH, <- app_assoc.
Qed.

Lemma decoded_headers (l : list (list byte * list byte)) (m : headers) :
  l ≡ₚ map_to_list m -> decodedHeaders ((fun kv => {| Batch.hKey := kv.1; Batch.hValue := kv.2 |}) <$> l) = m.
Proof.
  intros Hp. unfold decodedHeaders. rewrite len_map. destruct (Z.ltb_spec 0 (len l)) as [Hl|Hl].
  - assert (NoDup l.*1) as Hd by (rewrite Hp; apply NoDup_fst_map_to_list).
    transitivity (fold_left (fun (m : headers) kv => <[kv.1 := kv.2]> m) l ∅).
    + clear. generalize (∅ : headers). induction l as [|kv l IH]; intros acc; [done|]. cbn. by rewrite IH.
    + rewrite fold_insert, map_union_empty, (list_to_map_proper l (map_to_list m)) by done. apply list_to_map_to_list.
  - destruct l; [|len_lia]. apply Permutation_nil_l in Hp. symmetry. by apply map_to_list_empty_iff.
Qed.

(** What a consumer sees of the [i]th record of a batch at [base]. *)
Definition delivered (base : Z) (i : nat) (r : BatchRecord) : DecodedRecord :=
  {| dr_Offset := base + Z.of_nat i; dr_Key := br_Key r; dr_Value := br_Value r; dr_Headers := br_Headers r;
     dr_TimestampMs := br_TimestampMs r |}.

Lemma decoded_delivered range base i r :
  (forall i m, range i m ≡ₚ map_to_list m) -> in_i64 (base + Z.of_nat i) ->
  decodedRecord base i (storageRecord range i r) = delivered base i r.
Proof.
  intros Hr Hi. unfold decodedRecord, delivered, storageRecord. cbn [Batch.rKey Batch.rValue Batch.Headers Batch.TimestampMs].
  by rewrite i64_id, headers_list, app_nil_l, (decoded_headers _ (br_Headers r)).
Qed.

Lemma delivered_all range base rs :
  (forall i m, range i m ≡ₚ map_to_list m) -> in_i64 base -> base + len rs <= 2 ^ 63 ->
  imap (decodedRecord base) (imap (storageRecord range) rs) = imap (delivered base) rs.
Proof.
  intros Hr Hb He. apply list_eq. intros i. rewrite !list_lookup_imap.
  destruct (rs !! i) as [r|] eqn:E; cbn; [|done]. f_equal. apply decoded_delivered; [done|].
  apply lookup_lt_Some in E. unfold in_i64, len in *. lia.
Qed.

Lemma encode_stored range rs enc base :
  Encode range rs = Ok enc -> len enc <= maxBatchBytes -> Forall (fun r => in_i64 (br_TimestampMs r)) rs ->
  stored base (imap (storageRecord range) rs) (Batch.withBaseOffset enc base).
Proof.
  intros He Hl Hts. exists enc. split_and!; [done|done|done|]. apply Forall_lookup_2. intros i r.
  rewrite list_lookup_imap. destruct (rs !! i) as [x|] eqn:E; cbn; [|done]. intros [= <-]. cbn.
  by eapply Forall_lookup_1 in Hts.
Qed.

(** C37: What a producer encodes and the storage stores at [base] is decoded by a consumer to the same
    keys, values, headers and timestamps in the same order, at offsets from [base] on, whatever
    the order in which the headers were written. *)
Theorem Decode_Encode range rs enc base :
  (forall i m, range i m ≡ₚ map_to_list m) -> Encode range rs = Ok enc -> len enc <= maxBatchBytes ->
  Forall (fun r => in_i64 (br_TimestampMs r)) rs -> in_i64 base -> base + len rs < 2 ^ 63 ->
  Decode (Batch.withBaseOffset enc base) = Ok (imap (delivered base) rs, None).
Proof.
  intros Hr He Hl Hts Hb Hend. pose proof (encode_stored range rs enc base He Hl Hts) as Hst.
  assert (len (imap (storageRecord range) rs) = len rs) as Hlen by (unfold len; by rewrite length_imap).
  pose proof (Decode_run base [imap (storageRecord range) rs] [Batch.withBaseOffset enc base]) as H.
  cbn [concat numbered] in H. rewrite !app_nil_r in H. rewrite H by (cbn [stored_run]; try done; lia).
  by rewrite delivered_all by (done || lia).
Qed.

End ClientCodec.
