(* ===== verification/Config.v ===== *)
(** * Configuration

    internal/config/config.go: the broker's configuration from environment variables
    ([LoadFromEnv]) or from a decoded configuration file ([Load]), and the way cmd/bunnymq/main.go
    hands it to the coordinators. The environment is a function from names to values, empty where
    a variable is not set. *)

From S2P Require Import Prelude SegName Keys Segment DataCoord GroupCoord ClusterCoord.
From Stdlib Require Import Ascii.
Local Open Scope Z_scope.

Module Config.
Import SegName Keys.

#[local] Arguments String.append (s1 s2)%_string_scope : simpl nomatch.

(** ** Package [strings] *)

(** [strings.Split] with a separator of one character. *)
Fixpoint Split (s : string) (sep : ascii) : list string :=
  match s with
  | EmptyString => [EmptyString]
  | String c s' =>
      if Ascii.eqb c sep then EmptyString :: Split s' sep
      else match Split s' sep with
           | [] => [String c EmptyString]
           | p :: ps => String c p :: ps
           end
  end.

(** [strings.SplitN(s, sep, 2)]: at the first separator. *)
Fixpoint cut (s : string) (sep : ascii) : option (string * string) :=
  match s with
  | EmptyString => None
  | String c s' =>
      if Ascii.eqb c sep then Some (EmptyString, s')
      else match cut s' sep with
           | Some (a, b) => Some (String c a, b)
           | None => None
           end
  end.
Definition SplitN2 (s : string) (sep : ascii) : list string :=
  match cut s sep with Some (a, b) => [a; b] | None => [s] end.

(** White space: the ASCII characters, and the UTF-8 encodings of U+0085, U+00A0, U+1680,
    U+2000 to U+200A, U+2028, U+2029, U+202F, U+205F and U+3000. *)
Definition spaces : list (list ascii) :=
  map (map (fun z => ascii_of_N (Z.to_N z)))
    ([[9]; [10]; [11]; [12]; [13]; [32]; [194; 133]; [194; 160]; [225; 154; 128]] ++
     map (fun k => [226; 128; 128 + k]) [0; 1; 2; 3; 4; 5; 6; 7; 8; 9; 10; 40; 41; 47] ++
     [[226; 129; 159]; [227; 128; 128]]).

Fixpoint strip (prefix l : list ascii) : option (list ascii) :=
  match prefix, l with
  | [], _ => Some l
  | c :: prefix', d :: l' => if Ascii.eqb c d then strip prefix' l' else None
  | _, [] => None
  end.

Fixpoint trim_left (fuel : nat) (sps : list (list ascii)) (l : list ascii) : list ascii :=
  match fuel with
  | O => l
  | S fuel' =>
      match head (omap (fun sp => strip sp l) sps) with
      | Some l' => trim_left fuel' sps l'
      | None => l
      end
  end.

Definition TrimSpace (s : string) : string :=
  let l := String.list_ascii_of_string s in
  let l := trim_left (length l) spaces l in
  let r := trim_left (length l) (map (@rev ascii) spaces) (rev l) in
  String.string_of_list_ascii (rev r).

(** ** Package [strconv] *)

Definition ParseUint64 (s : string) : outcome Z :=
  match parse_unsigned s with
  | None => Err (ErrSentinel (Sentinel "strconv" "ErrSyntax"))
  | Some v => if v <? 2 ^ 64 then Ok v else Err (ErrSentinel (Sentinel "strconv" "ErrRange"))
  end.

(** [int] is 64 bits wide. *)
Definition Atoi (s : string) : outcome Z := ParseInt64 s.

(** ** The configuration *)

Record CoordinatorConfig := {
  cf_ReconcileIntervalMs : Z;
  cf_LeaderCheckIntervalMs : Z;
  cf_BootstrapTimeoutMs : Z;
  cf_EagerReconcileOnCreate : bool;
  cf_GroupSweepIntervalMs : Z
}.

Record Config := {
  NodeID : Z;
  RaftAddress : string;
  ManagementAddr : string;
  DataAddr : string;
  AdvertiseDataAddr : string;
  DataDir : string;
  RaftRTTMs : Z;
  Peers : gmap Z string;
  AuthTokens : list string;
  Storage : StorageConfig;
  Coordinator : CoordinatorConfig;
  MetricsAddr : string;
  PprofAddr : string
}.

(** What viper reads from a file. *)
Record rawConfig := {
  rw_NodeID : Z;
  rw_RaftAddress : string;
  rw_ManagementAddr : string;
  rw_DataAddr : string;
  rw_DataDir : string;
  rw_RaftRTTMs : Z;
  rw_Peers : list (string * string);   (** the entries of the map, in the order of the iteration *)
  rw_AuthTokens : list string;
  rw_Storage : StorageConfig;
  rw_Coordinator : CoordinatorConfig;
  rw_MetricsAddr : string;
  rw_PprofAddr : string
}.

Definition wrapped {A} (msg : string) (m : outcome A) : outcome A :=
  match m with Err e => Err (ErrWrap msg e) | _ => m end.

Definition parsePeers (entries : list (string * string)) : outcome (gmap Z string) :=
  fold_left (fun acc kv => peers ← acc; id ← wrapped "invalid peer node id" (ParseUint64 kv.1); Ok (<[id := kv.2]> peers))
    entries (Ok ∅).

(** [Load] after viper has read the file ([raw] is its result). *)
Definition Load (raw : outcome rawConfig) : outcome Config :=
  raw ← raw;
  peers ← parsePeers (rw_Peers raw);
  Ok {| NodeID := rw_NodeID raw; RaftAddress := rw_RaftAddress raw; ManagementAddr := rw_ManagementAddr raw;
        DataAddr := rw_DataAddr raw; AdvertiseDataAddr := ""; DataDir := rw_DataDir raw; RaftRTTMs := rw_RaftRTTMs raw;
        Peers := peers; AuthTokens := rw_AuthTokens raw; Storage := rw_Storage raw; Coordinator := rw_Coordinator raw;
        MetricsAddr := rw_MetricsAddr raw; PprofAddr := rw_PprofAddr raw |}.

Definition parseInitialMember (peers : gmap Z string) (part : string) : outcome (gmap Z string) :=
  match SplitN2 (TrimSpace part) "=" with
  | [k; v] =>
      id ← wrapped "invalid node id" (ParseUint64 (TrimSpace k));
      Ok (<[id := TrimSpace v]> peers)
  | _ => Err (ErrNew "invalid entry")
  end.

Definition parseInitialMembers (s : string) : outcome (gmap Z string) :=
  if String.eqb s "" then Ok ∅ else
  fold_left (fun acc part => peers ← acc; parseInitialMember peers part) (Split s ",") (Ok ∅).

Section env.
Variable Getenv : string -> string.

Definition envInt64 (key : string) (def : Z) : outcome Z :=
  let raw := Getenv key in
  if String.eqb raw "" then Ok def else wrapped key (ParseInt64 raw).

Definition envInt (key : string) (def : Z) : outcome Z :=
  let raw := Getenv key in
  if String.eqb raw "" then Ok def else wrapped key (Atoi raw).

Definition envStr (key def : string) : string :=
  let v := Getenv key in if negb (String.eqb v "") then v else def.

Definition LoadFromEnv : outcome Config :=
  nodeID ← wrapped "NODE_ID" (ParseUint64 (Getenv "NODE_ID"));
  peers ← wrapped "INITIAL_MEMBERS" (parseInitialMembers (Getenv "INITIAL_MEMBERS"));
  rttMs ← (let raw := Getenv "RAFT_RTT_MS" in
           if negb (String.eqb raw "") then wrapped "RAFT_RTT_MS" (ParseUint64 raw) else Ok 200);
  let dataAddr := envStr "DATA_ADDR" ":9092" in
  groupSweepIntervalMs ← envInt64 "GROUP_SWEEP_INTERVAL_MS" 0;
  retentionCheckIntervalMs ← envInt64 "RETENTION_CHECK_INTERVAL_MS" 0;
  segmentMaxBytes ← envInt64 "SEGMENT_MAX_BYTES" (128 * 1024 * 1024);
  indexSampleBytes ← envInt "INDEX_SAMPLE_BYTES" 4096;
  bootstrapTimeoutMs ← envInt64 "BOOTSTRAP_TIMEOUT_MS" 30000;
  reconcileIntervalMs ← envInt64 "RECONCILE_INTERVAL_MS" 500;
  leaderCheckIntervalMs ← envInt64 "LEADER_CHECK_INTERVAL_MS" 1000;
  Ok {| NodeID := nodeID; RaftAddress := Getenv "RAFT_ADDR"; ManagementAddr := envStr "MGMT_ADDR" ":9091";
        DataAddr := dataAddr; AdvertiseDataAddr := envStr "ADVERTISE_DATA_ADDR" dataAddr; DataDir := Getenv "DATA_DIR";
        RaftRTTMs := rttMs; Peers := peers; AuthTokens := [];
        Coordinator :=
          {| cf_GroupSweepIntervalMs := groupSweepIntervalMs; cf_BootstrapTimeoutMs := bootstrapTimeoutMs;
             cf_ReconcileIntervalMs := reconcileIntervalMs; cf_LeaderCheckIntervalMs := leaderCheckIntervalMs;
             cf_EagerReconcileOnCreate := false |};
        Storage :=
          {| RetentionCheckIntervalMs := retentionCheckIntervalMs; SegmentMaxBytes := segmentMaxBytes;
             IndexSampleBytes := indexSampleBytes; DefaultRetentionMs := 0; DefaultRetentionBytes := 0 |};
        MetricsAddr := ""; PprofAddr := "" |}.
End env.

(** The configurations [run] of main.go gives the coordinators. *)
Definition dataConfig (c : Config) : DataCoord.DataCoordinatorConfig :=
  {| DataCoord.dcNodeID := NodeID c; DataCoord.NodeAddressCacheTTLMs := 5000 |}.

Definition clusterConfig (c : Config) : ClusterCoord.CoordinatorConfig :=
  {| ClusterCoord.ccNodeID := NodeID c; ClusterCoord.RaftAddress := RaftAddress c; ClusterCoord.DataAddr := DataAddr c;
     ClusterCoord.AdvertiseDataAddr := AdvertiseDataAddr c; ClusterCoord.DataDir := DataDir c;
     ClusterCoord.Peers := Peers c; ClusterCoord.BootstrapTimeoutMs := cf_BootstrapTimeoutMs (Coordinator c);
     ClusterCoord.ReconcileIntervalMs := cf_ReconcileIntervalMs (Coordinator c);
     ClusterCoord.LeaderCheckIntervalMs := cf_LeaderCheckIntervalMs (Coordinator c);
     ClusterCoord.EagerReconcileOnCreate := cf_EagerReconcileOnCreate (Coordinator c) |}.

Definition groupConfig (c : Config) : GroupCoord.GroupCoordinatorConfig :=
  {| GroupCoord.MetadataShardID := 0; GroupCoord.ThisNodeID := NodeID c;
     GroupCoord.SessionTimeoutMinMs := 0; GroupCoord.SessionTimeoutMaxMs := 0;
     GroupCoord.SweepIntervalMs := cf_GroupSweepIntervalMs (Coordinator c) |}.

(** ** Member lists *)

(** Visible ASCII. *)
Definition visible (c : ascii) : Prop := (33 <= Z.of_N (N_of_ascii c) <= 126).
#[local] Instance visible_dec c : Decision (visible c).
Proof. unfold visible. apply _. Defined.

Definition chars (P : ascii -> Prop) (s : string) : Prop := Forall P (String.list_ascii_of_string s).

Lemma chars_app P s t : chars P (String.append s t) <-> chars P s /\ chars P t.
Proof.
  unfold chars. induction s as [|c s IH]; cbn; [split; [intros; by split; [constructor|]|by intros []]|].
  rewrite !Forall_cons, IH. tauto.
Qed.

Lemma strip_other sp l c d : head sp = Some c -> head l = Some d -> c <> d -> strip sp l = None.
Proof. destruct sp, l; cbn; try done. intros [= ->] [= ->] Hne. by destruct (Ascii.eqb_spec c d). Qed.

Lemma trim_visible fuel sps l :
  Forall (fun sp => exists c, head sp = Some c /\ ~ visible c) sps -> Forall visible l -> trim_left fuel sps l = l.
Proof.
  intros Hs Hl. destruct fuel; cbn; [done|]. assert (omap (fun sp => strip sp l) sps = []) as ->; [|done].
  induction Hs as [|sp sps (c & Hc & Hn) _ IH]; [done|]. cbn. assert (strip sp l = None) as ->; [|done].
  destruct l as [|d l]; [by destruct sp|]. inversion_clear Hl. apply (strip_other _ _ c d); [done|done|]. by intros ->.
Qed.

Lemma spaces_invisible :
  Forall (fun sp => exists c, head sp = Some c /\ ~ visible c) spaces /\
  Forall (fun sp => exists c, head sp = Some c /\ ~ visible c) (map (@rev ascii) spaces).
Proof.
  assert (forall sp, match head sp with Some c => bool_decide (visible c) = false | None => False end ->
    exists c, head sp = Some c /\ ~ visible c) as H.
  { intros [|c sp]; cbn; [done|]. intros Hc%bool_decide_eq_false. eauto. }
  split; (eapply Forall_impl; [|exact H]); repeat constructor.
Qed.

Lemma TrimSpace_visible s : chars visible s -> TrimSpace s = s.
Proof.
  intros Hs. unfold TrimSpace. pose proof spaces_invisible as [H1 H2].
  rewrite (trim_visible _ spaces) by done. rewrite trim_visible; [|exact H2|by apply Forall_rev].
  rewrite rev_involutive. apply String.string_of_list_ascii_of_string.
Qed.

Lemma cut_app a sep b : chars (fun c => c <> sep) a -> cut (String.append a (String sep b)) sep = Some (a, b).
Proof.
  unfold chars. induction a as [|c a IH]; cbn; intros H; [by rewrite Ascii.eqb_refl|]. inversion_clear H.
  destruct (Ascii.eqb_spec c sep); [done|]. by rewrite IH.
Qed.

Lemma Split_one a sep : chars (fun c => c <> sep) a -> Split a sep = [a].
Proof.
  unfold chars. induction a as [|c a IH]; cbn; intros H; [done|]. inversion_clear H.
  destruct (Ascii.eqb_spec c sep); [done|]. by rewrite IH.
Qed.

Lemma Split_app a sep b :
  chars (fun c => c <> sep) a -> Split (String.append a (String sep b)) sep = a :: Split b sep.
Proof.
  unfold chars. induction a as [|c a IH]; cbn; intros H; [by rewrite Ascii.eqb_refl|]. inversion_clear H.
  destruct (Ascii.eqb_spec c sep); [done|]. by rewrite IH.
Qed.

(** A member, and a list of them, the way INITIAL_MEMBERS has them. *)
Definition member_text (m : Z * string) : string := String.append (fmt_u m.1) (String "=" m.2).
Fixpoint members_text (ms : list (Z * string)) : string :=
  match ms with
  | [] => ""
  | [m] => member_text m
  | m :: ms' => String.append (member_text m) (String "," (members_text ms'))
  end.

Definition member_ok (m : Z * string) : Prop :=
  in_u64 m.1 /\ chars (fun c => visible c /\ c <> ","%char) m.2.

Lemma fmt_u_chars n (P : ascii -> Prop) : (forall d, 0 <= d < 10 -> P (digit_char d)) -> chars P (fmt_u n).
Proof.
  intros HP. unfold fmt_u, chars. induction (ndigits 20 n) as [|k IH]; cbn; constructor; [|exact IH].
  apply HP. apply Z.mod_pos_bound. lia.
Qed.

Lemma digit_cases (P : ascii -> Prop) :
  Forall (fun d => P (digit_char d)) [0; 1; 2; 3; 4; 5; 6; 7; 8; 9] -> forall d, 0 <= d < 10 -> P (digit_char d).
Proof.
  intros H d Hd. rewrite Forall_forall in H. apply (H d).
  assert (d = 0 \/ d = 1 \/ d = 2 \/ d = 3 \/ d = 4 \/ d = 5 \/ d = 6 \/ d = 7 \/ d = 8 \/ d = 9) as Hc by lia.
  repeat destruct Hc as [-> | Hc]; set_solver.
Qed.

Lemma member_chars m : member_ok m -> chars (fun c => visible c /\ c <> ","%char) (member_text m).
Proof.
  intros [_ Ha]. apply chars_app. split.
  - apply fmt_u_chars, (digit_cases (fun c => visible c /\ c <> ","%char)). repeat constructor; cbn; try lia; discriminate.
  - unfold chars. cbn. constructor; [|done]. repeat constructor; cbn; try lia; discriminate.
Qed.

Lemma chars_mono (P Q : ascii -> Prop) s : (forall c, P c -> Q c) -> chars P s -> chars Q s.
Proof. unfold chars. intros HPQ H. eapply Forall_impl; [exact H|exact HPQ]. Qed.

Lemma parse_member peers m : member_ok m -> parseInitialMember peers (member_text m) = Ok (<[m.1 := m.2]> peers).
Proof.
  intros Hm. pose proof (member_chars m Hm) as Hc. destruct Hm as [Hi Ha]. unfold parseInitialMember.
  rewrite TrimSpace_visible by (eapply chars_mono; [|exact Hc]; by intros ? []). unfold SplitN2, member_text.
  assert (chars (fun c => visible c /\ c <> "="%char) (fmt_u m.1)) as Hd
    by (apply fmt_u_chars, (digit_cases (fun c => visible c /\ c <> "="%char)); repeat constructor; cbn; try lia; discriminate).
  rewrite cut_app by (eapply chars_mono; [|exact Hd]; by intros ? []).
  rewrite !TrimSpace_visible by (eapply chars_mono; [|eassumption]; by intros ? []).
  unfold ParseUint64. unfold in_u64 in Hi. rewrite parse_fmt_u by lia. by rewrite (proj2 (Z.ltb_lt _ _)) by lia.
Qed.

Lemma Split_members m ms : Forall member_ok (m :: ms) -> Split (members_text (m :: ms)) "," = member_text <$> (m :: ms).
Proof.
  assert (forall m, member_ok m -> chars (fun c => c <> ","%char) (member_text m)) as Hc.
  { intros x Hx. eapply chars_mono; [|by apply member_chars]. by intros ? []. }
  revert m. induction ms as [|m' ms IH]; intros m H; inversion_clear H; cbn [members_text].
  - by rewrite Split_one by auto.
  - rewrite Split_app by auto. cbn [fmap list_fmap]. f_equal. by apply IH.
Qed.

Lemma parse_members ms peers :
  Forall member_ok ms ->
  fold_left (fun acc part => peers ← acc; parseInitialMember peers part) (member_text <$> ms) (Ok peers) =
  Ok (fold_left (fun m kv => <[kv.1 := kv.2]> m) ms peers).
Proof.
  intros H. revert peers. induction H as [|m ms Hm _ IH]; intros peers; [done|].
  cbn [fmap list_fmap fold_left mbind outcome_bind]. by rewrite parse_member.
Qed.

(** The list of initial members is read back exactly: for any members with distinct 64-bit ids and
    addresses in visible ASCII without commas, [parseInitialMembers] of the list written as
    "id=address" separated by commas is the map of those members; also where an address contains
    "=" or is empty. *)
Theorem parseInitialMembers_text ms :
  Forall member_ok ms -> NoDup ms.*1 -> parseInitialMembers (members_text ms) = Ok (list_to_map ms).
Proof.
  intros Hok Hd. destruct ms as [|m ms]; [done|]. unfold parseInitialMembers.
  assert (String.eqb (members_text (m :: ms)) "" = false) as ->.
  { apply String.eqb_neq. intros E. pose proof (Split_members m ms Hok) as H. rewrite E in H. cbn in H.
    injection H as H _. unfold member_text in H. destruct (fmt_u_cons m.1) as (d & rest & _ & E'). by rewrite E' in H. }
  rewrite Split_members, parse_members by done. by rewrite fold_insert, map_union_empty by done.
Qed.

Lemma parseInitialMembers_text_witness :
  parseInitialMembers "1=a:9000,2=b:9000" = Ok (list_to_map [(1, "a:9000"); (2, "b:9000")]).
Proof.
  apply (parseInitialMembers_text [(1, "a:9000"); (2, "b:9000")]).
  - repeat constructor; cbn; try lia; discriminate.
  - apply (bool_decide_unpack _). vm_compute. exact I.
Defined.

End Config.
