(* ===== verification/BrokerConfig.v ===== *)
(** * What the configuration does to retention

    [startRetentionLoop] (internal/storage/retention.go) enforces the limits that [Open] took from
    the storage configuration, until a retention command replaces them. [LoadFromEnv]
    (internal/config/config.go) leaves these defaults at zero, and a byte limit of zero deletes
    every sealed segment. *)

From S2P Require Import Prelude Batch SegName LogSegment BatchLog Segment Recovery Storage StorageOpen StorageCut StorageExamples Partition Config.
Local Open Scope Z_scope.

Module BrokerConfig.
Import BatchLog Seg Storage StorageCut.

(** One tick of the retention loop. *)
Definition retention_tick (s : storageImpl) (nowMs : Z) : storageImpl :=
  (EnforceRetention s (retentionMs s) (retentionBytes s) nowMs).1.

(** The limits in force. *)
Definition limits (s : storageImpl) : Z * Z := (retentionMs s, retentionBytes s).
Definition default_limits (cfg : StorageConfig) : Z * Z := (DefaultRetentionMs cfg, DefaultRetentionBytes cfg).

Lemma append_limits cfg s b : limits (Append cfg s b).1 = limits s.
Proof.
  unfold Append. destruct (closed s); [done|]. destruct (putUint64 b 0 _) as [b'|e|q|]; [|done..].
  destruct (active s) as [seg|e|q|]; [|done..]. destruct (Seg.Append cfg (dir s) seg b') as [[fs seg'] [r|e|q|]]; [|done..].
  destruct (getUint32 b' 12) as [c|e|q|]; [|done..]. set (s1 := set_nextOffset _ _). assert (limits s1 = limits s) as <- by done.
  clearbody s1. destruct (SegmentMaxBytes cfg <=? LogSize seg'); [|done]. unfold roll.
  destruct (active s1) as [seg2|e|q|]; [|done..]. destruct (Seg.Seal (dir s1) seg2) as [fs2 seg3].
  by destruct (NewSegmentStorage fs2 _ cfg) as [[fs3 newSeg]|e|q|].
Qed.

Lemma entries_limits unmarshal cfg es bs s :
  Partition.entries_of es bs -> limits (Partition.apply_entries unmarshal cfg s es).1 = limits s.
Proof.
  intros He. revert s. induction He as [|e b es bs Hc _ IH]; intros s; [done|]. cbn [Partition.apply_entries].
  rewrite Hc. change (index _ 0) with (Ok (A:=byte) (byte.of_Z 1)). cbn iota beta.
  change (byte.unsigned (byte.of_Z 1) =? Partition.CmdAppendBatch) with true. cbn iota.
  pose proof (append_limits cfg s (drop 1 (Partition.Marshal {| Partition.Type_ := Partition.CmdAppendBatch; Partition.Payload := b |}))) as Ha.
  destruct (Append cfg s _) as [s1 [v|e'|q|]]; cbn [fst] in *; try done.
  rewrite <- Ha. specialize (IH s1). by destruct (Partition.apply_entries unmarshal cfg s1 es).
Qed.

(** Updates that append batches and do nothing else. *)
Definition appends (unmarshal : list byte -> option (Z * Z)) (cfg : StorageConfig) (p p' : Partition.PartitionFSM) : Prop :=
  exists es bs vs, Partition.entries_of es bs /\ Partition.Update unmarshal cfg p es = (p', Ok vs).

Definition fsm_limits (p : Partition.PartitionFSM) : option (Z * Z) := limits <$> Partition.storage p.

Lemma update_limits unmarshal cfg p p' : appends unmarshal cfg p p' -> fsm_limits p' = fsm_limits p.
Proof.
  intros (es & bs & vs & He & Hu). unfold Partition.Update, fsm_limits in *. destruct (Partition.storage p) as [s|]; [|done].
  pose proof (entries_limits unmarshal cfg es bs s He) as Hl.
  destruct (Partition.apply_entries unmarshal cfg s es) as [s1 [v|e|q|]]; cbn [fst] in *; try done.
  destruct (index es _) as [e|e|q|]; [|done..]. injection Hu as <- _. cbn. by rewrite Hl.
Qed.

(** Opening a partition, whatever was configured before, sets the defaults. *)
Lemma truncate_limits cfg s off s' : TruncateTo cfg s off = Ok s' -> limits s' = limits s.
Proof.
  unfold TruncateTo. destruct (off =? nextOffset s); [by intros [= <-]|]. destruct (nextOffset s <? off); [done|].
  destruct (len (segments s) =? 0); [by intros [= <-]|]. intros (lo & _ & H)%bind_Ok.
  apply bind_Ok in H as (seg & _ & H). apply bind_Ok in H as ([fs seg'] & _ & [= <-]). done.
Qed.

Lemma storage_limits cfg fs s : Storage.Open fs cfg = Ok s -> limits s = default_limits cfg.
Proof.
  unfold Storage.Open. destruct (Recovery.recoverStorage fs cfg) as [[[[fs' segs] next] crc]|e|q|]; [|done..]. by intros [= <-].
Qed.

Lemma open_limits cfg fs p p' idx :
  Partition.Open cfg fs p = (p', Ok idx) -> fsm_limits p' = Some (default_limits cfg).
Proof.
  unfold Partition.Open, fsm_limits. destruct (Storage.Open fs cfg) as [s|e|q|] eqn:Es; [|done..].
  pose proof (storage_limits _ _ _ Es) as Hs.
  destruct (Partition.readSidecar _) as [side|e|q|]; [|destruct (errors_is e _); [|done]|done..].
  - destruct (Partition.sLatestOffset side <? LatestOffset s); [|intros [= <- _]; cbn; by rewrite Hs].
    destruct (TruncateTo cfg s _) as [s'|e|q|] eqn:Et; [|done..]. intros [= <- _]. cbn.
    by rewrite (truncate_limits _ _ _ _ Et), Hs.
  - intros [= <- _]. cbn. by rewrite Hs.
Qed.

(** A sealed segment is not empty. *)
Lemma sealed_sizes cfg fs off segs bss : sealed_ok cfg fs off segs bss -> total_size segs <= 0 -> segs = [].
Proof.
  assert (forall seg bs, seg_ok cfg fs seg bs -> 0 <= LogSize seg /\ (bs <> [] -> 0 < LogSize seg)) as Hsz.
  { intros seg bs [[Hc _ _ _] _ _ Hl _]. unfold LogSize. rewrite Hl. split; [apply len_nonneg|].
    destruct bs as [|b bs]; [done|]. intros _. destruct Hc as (Hwf & _). apply wf_len in Hwf. cbn [concat]. len_lia. }
  assert (forall off segs bss, sealed_ok cfg fs off segs bss -> 0 <= total_size segs) as Hnn.
  { clear off segs bss. intros off segs. revert off. induction segs as [|seg segs IH]; intros off [|bs bss] H; cbn; try done.
    destruct H as (_ & _ & Hs & _ & _ & _ & H). fold (total_size segs). pose proof (proj1 (Hsz _ _ Hs)). specialize (IH _ _ H). lia. }
  destruct segs as [|seg segs], bss as [|bs bss]; try done. intros (_ & _ & Hs & _ & Hne & _ & H) Ht. exfalso.
  cbn in Ht. fold (total_size segs) in Ht. pose proof (proj2 (Hsz _ _ Hs) Hne). pose proof (Hnn _ _ _ H). lia.
Qed.

Lemma zero_limit_drops cfg s off l nowMs :
  represents cfg s off l -> limits s = (0, 0) ->
  exists dropped kept, l = dropped ++ kept /\ represents cfg (retention_tick s nowMs) (end_off off dropped) kept /\
    LatestOffset (retention_tick s nowMs) = LatestOffset s /\
    segments (retention_tick s nowMs) = option_list (last (segments s)).
Proof.
  intros Hrep [= Hm Hb]. unfold retention_tick. rewrite Hm, Hb.
  destruct (enforce_suffix cfg s off l 0 0 nowMs Hrep ltac:(lia)) as (s' & n & dropped & kept & -> & Hl & Hrep' & Hlat & Hlast & Hsz).
  exists dropped, kept. cbn [fst]. split_and!; try done. rewrite <- Hlast. specialize (Hsz ltac:(lia) ltac:(lia)).
  destruct Hrep' as (segs & bss & act & bs & [] & _). rewrite so_segments0 in *. rewrite last_snoc. cbn.
  rewrite total_size_app in Hsz. assert (0 <= total_size [act]) as Ha.
  { cbn. unfold LogSize. rewrite (ok_log_size _ _ _ _ so_act0). pose proof (len_nonneg (concat bs)). lia. }
  assert (segs = []) as ->; [|done]. destruct Hsz as [Hsz|Hsz].
  - eapply sealed_sizes; [exact so_sealed0|lia].
  - destruct segs; [done|exfalso; len_lia].
Qed.

(** A broker configured from the environment keeps only the active segment. [LoadFromEnv] leaves
    the default byte limit of retention at zero, and a topic's own limits reach a partition only
    when they are altered; so after a partition was opened (again) and any batches were appended,
    the next tick of the retention loop deletes every sealed segment, whatever limits the topic
    was created with. *)
Theorem env_retention_drops_sealed Getenv c unmarshal fs p0 p idx p' off l nowMs :
  Config.LoadFromEnv Getenv = Ok c -> let cfg := Config.Storage c in
  Partition.Open cfg fs p0 = (p, Ok idx) -> rtc (appends unmarshal cfg) p p' -> Partition.fsm_live cfg p' off l ->
  exists s dropped kept, Partition.storage p' = Some s /\ l = dropped ++ kept /\
    represents cfg (retention_tick s nowMs) (end_off off dropped) kept /\
    LatestOffset (retention_tick s nowMs) = LatestOffset s /\
    segments (retention_tick s nowMs) = option_list (last (segments s)).
Proof.
  intros Hc cfg Ho Hs [(s & Es & Hrep) _]. assert (default_limits cfg = (0, 0)) as Hd.
  { unfold Config.LoadFromEnv in Hc. repeat (apply bind_Ok in Hc as (? & _ & Hc)). by injection Hc as <-. }
  assert (fsm_limits p' = fsm_limits p) as Hp.
  { clear - Hs. induction Hs as [|p p1 p' H1 _ IH]; [done|]. rewrite IH. by eapply update_limits. }
  rewrite (open_limits _ _ _ _ _ Ho), Hd in Hp. unfold fsm_limits in Hp. rewrite Es in Hp. injection Hp as Hm Hb.
  destruct (zero_limit_drops cfg s off l nowMs Hrep) as (dropped & kept & H); [unfold limits; by rewrite Hm, Hb|].
  exists s, dropped, kept. done.
Qed.

(** ** A broker with small segments *)

Definition env1 (key : string) : string :=
  if String.eqb key "NODE_ID" then "1" else
  if String.eqb key "SEGMENT_MAX_BYTES" then "100" else
  if String.eqb key "INDEX_SAMPLE_BYTES" then "40" else "".

Definition cfg1 : StorageConfig :=
  {| SegmentMaxBytes := 100; IndexSampleBytes := 40; RetentionCheckIntervalMs := 0; DefaultRetentionMs := 0;
     DefaultRetentionBytes := 0 |}.

Lemma cfg1_ok : cfg_ok cfg1.
Proof. constructor; vm_compute; repeat split; congruence. Qed.

Definition append_at (i : Z) : Partition.entry :=
  {| Partition.Index := i;
     Partition.Cmd := Partition.Marshal {| Partition.Type_ := Partition.CmdAppendBatch; Partition.Payload := StorageExamples.b0 |} |}.

(** Five batches of two records fill two segments; the tick leaves one. *)
Definition es5 : list Partition.entry := append_at <$> [1; 2; 3; 4; 5].
Definition fsm0 : Partition.PartitionFSM := (Partition.Open cfg1 ∅ (Partition.NewPartitionFSM None)).1.
Definition fsm5 : Partition.PartitionFSM := (Partition.Update Partition.no_json cfg1 fsm0 es5).1.
Definition st5 : storageImpl := match Partition.storage fsm5 with Some s => s | None => StorageExamples.no_storage end.

Lemma env_retention_drops_sealed_witness :
  len (segments st5) = 3 /\ len (segments (retention_tick st5 0)) = 1 /\
  exists dropped kept, Partition.placed 0 (replicate 5 StorageExamples.b0) = dropped ++ kept /\
    represents cfg1 (retention_tick st5 0) (end_off 0 dropped) kept.
Proof.
  destruct (Partition.open_fresh cfg1 cfg1_ok) as (p & Ho & Hl).
  assert (p = fsm0) as -> by (unfold fsm0; by rewrite Ho).
  destruct (Partition.update_ok Partition.no_json cfg1 fsm0 0 [] es5 (replicate 5 StorageExamples.b0) cfg1_ok Hl) as (p' & Hu & Hok).
  - discriminate.
  - repeat constructor.
  - apply Forall_replicate. exact StorageExamples.b0_wf.
  - vm_compute. split; congruence.
  - vm_compute. reflexivity.
  - assert (p' = fsm5) as -> by (unfold fsm5; by rewrite Hu).
    destruct (Config.LoadFromEnv env1) as [c|e|q|] eqn:Ec; [|vm_compute in Ec; discriminate..].
    assert (Config.Storage c = cfg1) as Ecfg by (vm_compute in Ec; injection Ec as <-; reflexivity).
    pose proof (env_retention_drops_sealed env1 c Partition.no_json ∅ (Partition.NewPartitionFSM None) fsm0 0 fsm5 0
      ([] ++ Partition.placed (end_off 0 []) (replicate 5 StorageExamples.b0)) 0 Ec) as H. cbv zeta in H. rewrite Ecfg in H.
    destruct (H Ho) as (s & dropped & kept & Hs & E & Hrep & _ & _).
    + eapply rtc_l; [|apply rtc_refl]. eexists _, _, _. split; [|exact Hu]. repeat constructor.
    + exact (Partition.fsm_ok_live _ _ _ _ _ Hok).
    + assert (s = st5) as -> by (unfold st5; by rewrite Hs).
      split; [vm_compute; reflexivity|]. split; [vm_compute; reflexivity|]. exists dropped, kept. split; [exact E|exact Hrep].
Defined.

End BrokerConfig.
