(* ===== verification/StorageHistory.v ===== *)
(** * Histories of a storage

    The operations of a storage in any order: appends, reads, ticks of the retention loop, changes
    of the retention limits, and closing and opening again. [spec] is what they promise about an
    abstract log, of which retention may have dropped a beginning; [storage_refines] is the
    simulation: on every history without a time limit, and on every history whose batch timestamps
    do not go back, the storage answers as the abstract log may, and what it has ever been given is
    either dropped from the old end or still there. With a time limit and timestamps that go back
    it does not: [time_retention_hole] deletes a segment from the middle of the log. *)

From S2P Require Import Prelude Batch SegName LogSegment BinSearch BatchLog Segment Recovery Storage StorageOpen StorageCut StorageExamples Partition BrokerConfig.
Local Open Scope Z_scope.

Module StorageHistory.
Import Partition BatchLog Seg Storage StorageOpen StorageCut StorageExamples.

(** ** Operations *)

Inductive sop :=
| OAppend (b : list byte)
| ORead (offset maxBytes : Z)
| OSetRetention (ms bytes : Z)
| OTick (nowMs : Z)
| OReopen.

Inductive reply := RAppended (offset : Z) | RData (data : list byte) (next : Z) | RDone.

Definition do_op (cfg : StorageConfig) (s : storageImpl) (o : sop) : storageImpl * outcome reply :=
  match o with
  | OAppend b => let '(s', r) := Append cfg s b in (s', z ← r; Ok (RAppended z))
  | ORead offset maxBytes => (s, '(data, next) ← Read s offset maxBytes; Ok (RData data next))
  | OSetRetention ms bytes => (SetRetentionConfig s ms bytes, Ok RDone)
  | OTick nowMs => (BrokerConfig.retention_tick s nowMs, Ok RDone)
  | OReopen =>
      match s ← Close s; Open (dir s) cfg with
      | Ok s' => (s', Ok RDone)
      | m => (s, failure m)
      end
  end.

Fixpoint run_ops (cfg : StorageConfig) (s : storageImpl) (ops : list sop) : storageImpl * list (outcome reply) :=
  match ops with
  | [] => (s, [])
  | o :: ops' => let '(s, r) := do_op cfg s o in let '(s, rs) := run_ops cfg s ops' in (s, r :: rs)
  end.

(** The batches a history appends. *)
Definition appended (ops : list sop) : list (list byte) := omap (fun o => match o with OAppend b => Some b | _ => None end) ops.

(** ** The promise *)

(** What retention has dropped, what is still there, and the limits in force. *)
Record alog := { gone : list (list byte); kept : list (list byte); lim : Z * Z }.
Definition start (a : alog) : Z := end_off 0 (gone a).
Definition finish (a : alog) : Z := end_off (start a) (kept a).

(** Without a limit nothing is dropped. *)
Definition unlimited (limits : Z * Z) : Prop := limits.1 <= 0 /\ limits.2 < 0.

Section spec.
Variable cfg : StorageConfig.

Inductive spec : alog -> sop -> outcome reply -> alog -> Prop :=
| SpecAppend a b :
    spec a (OAppend b) (Ok (RAppended (finish a))) {| gone := gone a; kept := kept a ++ [Batch.withBaseOffset b (finish a)]; lim := lim a |}
| SpecRead a x n pre b rest post :
    kept a = pre ++ (b :: rest) ++ post -> batch_base b <= x < batch_end b -> rest = [] \/ len (concat (b :: rest)) <= n ->
    spec a (ORead x n) (Ok (RData (concat (b :: rest)) (end_off (start a) (pre ++ b :: rest)))) a
| SpecReadGone a x n : x < start a -> spec a (ORead x n) (Err ErrOffsetOutOfRange) a
| SpecReadEnd a x n : start a <= x -> finish a <= x -> spec a (ORead x n) (Ok (RData [] x)) a
| SpecSetRetention a ms bytes : spec a (OSetRetention ms bytes) (Ok RDone) {| gone := gone a; kept := kept a; lim := (ms, bytes) |}
| SpecTick a now dropped rest :
    kept a = dropped ++ rest -> (unlimited (lim a) -> dropped = []) ->
    spec a (OTick now) (Ok RDone) {| gone := gone a ++ dropped; kept := rest; lim := lim a |}
| SpecReopen a : spec a OReopen (Ok RDone) {| gone := gone a; kept := kept a; lim := BrokerConfig.default_limits cfg |}.

Inductive spec_run : alog -> list sop -> list (outcome reply) -> alog -> Prop :=
| SpecNil a : spec_run a [] [] a
| SpecCons a o r a' ops rs a'' : spec a o r a' -> spec_run a' ops rs a'' -> spec_run a (o :: ops) (r :: rs) a''.

End spec.

(** ** The simulation *)

Definition ts_le (b1 b2 : list byte) : Prop := batch_base_ts b1 <= batch_base_ts b2.

Lemma withBase_ts b off : wf_batch b -> batch_base_ts (Batch.withBaseOffset b off) = batch_base_ts b.
Proof. intros Hwf. pose proof (wf_len _ Hwf). unfold batch_base_ts. by rewrite sub_withBase by lia. Qed.

Lemma placed_elem off bs b : Forall wf_batch bs -> b ∈ placed off bs -> exists b', b' ∈ bs /\ batch_base_ts b = batch_base_ts b'.
Proof.
  intros Hwf. revert off. induction Hwf as [|b0 bs Hb _ IH]; intros off; cbn [placed]; [by intros ?%elem_of_nil|].
  intros [->|Hin]%elem_of_cons; [exists b0; split; [by left|by apply withBase_ts]|].
  destruct (IH _ Hin) as (b' & H1 & H2). exists b'. split; [by right|done].
Qed.

Lemma placed_sorted off bs : Forall wf_batch bs -> StronglySorted ts_le bs -> StronglySorted ts_le (placed off bs).
Proof.
  intros Hwf Hs. revert off. induction Hs as [|b bs Hs IH Hb]; intros off; cbn [placed]; [constructor|].
  apply Forall_cons in Hwf as [Hwb Hwf]. constructor; [by apply IH|]. apply Forall_forall. intros x Hx.
  destruct (placed_elem _ _ _ Hwf Hx) as (b' & H1 & H2). rewrite Forall_forall in Hb. unfold ts_le. rewrite H2, withBase_ts by done. by apply Hb.
Qed.

Lemma sorted_suffix (l1 l2 : list (list byte)) : StronglySorted ts_le (l1 ++ l2) -> StronglySorted ts_le l2.
Proof. induction l1 as [|b l1 IH]; [done|]. intros [H _]%StronglySorted_inv. by apply IH. Qed.

Lemma end_off_placed off bs : Forall wf_batch bs -> end_off off (placed off bs) = off + counts bs.
Proof.
  intros Hwf. revert off. induction Hwf as [|b bs Hb _ IH]; intros off; cbn [placed end_off counts fold_right]; [lia|].
  fold (counts bs). pose proof (wf_len _ Hb). rewrite withBase_count, IH by lia. lia.
Qed.

(** A time limit is in force at some point of the history of a storage. *)
Definition time_limited (cfg : StorageConfig) (ops : list sop) : Prop :=
  0 < DefaultRetentionMs cfg \/ Exists (fun o => match o with OSetRetention ms _ => 0 < ms | _ => False end) ops.

(** Retention by time is used only if [T]. *)
Definition allowed (T : Prop) (cfg : StorageConfig) (o : sop) : Prop :=
  (0 < DefaultRetentionMs cfg -> T) /\ match o with OSetRetention ms _ => 0 < ms -> T | _ => True end.

Lemma time_allowed cfg ops : Forall (allowed (time_limited cfg ops) cfg) ops.
Proof.
  apply Forall_forall. intros o Ho. split; [by left|]. destruct o as [| |ms bytes| |]; try done. intros Hms. right.
  apply Exists_exists. by exists (OSetRetention ms bytes).
Qed.

(** The storage [s] after the batches [bs] have been appended. *)
Definition holds (T : Prop) (cfg : StorageConfig) (s : storageImpl) (a : alog) (bs : list (list byte)) : Prop :=
  represents cfg s (start a) (kept a) /\ gone a ++ kept a = placed 0 bs /\ BrokerConfig.limits s = lim a /\ (0 < (lim a).1 -> T).

Definition fits (T : Prop) (bs : list (list byte)) : Prop := Forall wf_batch bs /\ (T -> StronglySorted ts_le bs) /\ counts bs < 2 ^ 63.

Lemma fits_prefix T bs1 bs2 : fits T (bs1 ++ bs2) -> fits T bs1.
Proof.
  intros ([H1 _]%Forall_app & H2 & H3). split; [done|]. split; [|rewrite counts_app in H3; pose proof (counts_nonneg bs2); lia].
  intros HT. specialize (H2 HT). clear -H2. induction bs1 as [|b bs1 IH]; [constructor|]. apply StronglySorted_inv in H2 as [H2 Hf].
  constructor; [by apply IH|]. by apply Forall_app in Hf as [? _].
Qed.

Lemma finish_counts T cfg s a bs : Forall wf_batch bs -> holds T cfg s a bs -> finish a = counts bs.
Proof.
  intros Hwf (_ & E & _). unfold finish, start. rewrite <- end_off_app, E, end_off_placed by done. lia.
Qed.

Lemma set_represents cfg s off l ms bytes : represents cfg s off l -> represents cfg (SetRetentionConfig s ms bytes) off l.
Proof. intros (segs & bss & act & abs & [] & E). exists segs, bss, act, abs. split; [by constructor|done]. Qed.

(** A storage holds one log. *)
Lemma represents_same cfg s off dropped rest : represents cfg s off (dropped ++ rest) -> represents cfg s (end_off off dropped) rest -> dropped = [].
Proof.
  intros H1 H2. pose proof (represents_log _ _ _ _ H1) as (Hc & _ & E1 & _). pose proof (represents_log _ _ _ _ H2) as (_ & _ & E2 & _).
  apply chain_app in Hc as [Hc _]. destruct dropped as [|b dropped]; [done|]. pose proof (chain_nonempty _ _ Hc ltac:(done)). lia.
Qed.

(** *** Retention ticks *)

Lemma marked_none segs (ms : list bool) : Forall (fun m => m = false) ms -> marked segs ms = [].
Proof.
  intros H. revert segs. unfold marked. induction H as [|m ms -> _ IH]; intros [|seg segs]; try done.
  change (zip (seg :: segs) (false :: ms)) with ((seg, false) :: zip segs ms). rewrite filter_cons_False by done. apply IH.
Qed.

Lemma tick_unlimited s now : unlimited (BrokerConfig.limits s) -> BrokerConfig.retention_tick s now = s.
Proof.
  intros [H1 H2]. unfold BrokerConfig.limits in *. cbn [fst snd] in *. unfold BrokerConfig.retention_tick, EnforceRetention.
  destruct (len (segments s) <=? 1); [done|]. cbn [fst]. rewrite marked_none; [done|]. unfold retention_marks.
  rewrite (proj2 (Z.leb_gt _ _)), (proj2 (Z.ltb_ge _ _)) by done. generalize (tail (segments s)).
  induction (length (removelast (segments s))) as [|n IH]; intros [|seg segs]; cbn; constructor; [done|apply IH].
Qed.

Lemma tick_limits s now : BrokerConfig.limits (BrokerConfig.retention_tick s now) = BrokerConfig.limits s.
Proof.
  unfold BrokerConfig.retention_tick, EnforceRetention. destruct (len (segments s) <=? 1); [done|]. cbn [fst].
  generalize (marked (removelast (segments s)) (retention_marks (dir s) (segments s) (retentionMs s) (retentionBytes s) now)).
  intros bases. revert s. induction bases as [|base bases IH]; intros s; cbn [fold_left]; [done|]. by rewrite IH.
Qed.

(** Every operation does what it promises. *)
Lemma do_op_spec T cfg s a bs o :
  cfg_ok cfg -> holds T cfg s a bs -> allowed T cfg o -> fits T (bs ++ appended [o]) ->
  exists a', spec cfg a o (do_op cfg s o).2 a' /\ holds T cfg (do_op cfg s o).1 a' (bs ++ appended [o]).
Proof.
  intros Hcfg Hh [Hd Ho] Hf. pose proof Hh as (Hrep & Ha & Hl & HT). pose proof (represents_log _ _ _ _ Hrep) as (_ & Hlat & _). fold (finish a) in Hlat.
  destruct (fits_prefix _ _ _ Hf) as (Hwf & Hs & Hc). pose proof (finish_counts _ _ _ _ _ Hwf Hh) as Hfin.
  destruct o as [b|x n|ms bytes|now|]; cbn [do_op]; unfold appended in *; cbn [omap list_omap] in *; rewrite ?app_nil_r in *.
  - destruct Hf as ([_ Hb]%Forall_app & _ & Hcb). apply Forall_inv in Hb. rewrite counts_app in Hcb. cbn [counts fold_right] in Hcb.
    destruct (append_represents cfg s _ _ b Hcfg Hrep Hb) as (s' & E & Hrep' & _); [lia|]. pose proof (BrokerConfig.append_limits cfg s b) as Hl'.
    rewrite E, Hlat in *. cbn [fst snd mbind outcome_bind] in *. eexists. split; [apply SpecAppend|].
    split_and!; [exact Hrep'|cbn [gone kept]; by rewrite app_assoc, Ha, placed_app, Hfin|by rewrite Hl'|done].
  - exists a. split; [|done]. destruct (read_outside cfg s _ _ x n Hrep) as [H1 H2]. cbn [fst snd].
    destruct (Z.lt_ge_cases x (start a)) as [Hlt|Hge]; [rewrite H1 by done; by apply SpecReadGone|].
    destruct (Z.lt_ge_cases x (LatestOffset s)) as [Hlt|Hge2]; [|rewrite H2 by done; apply SpecReadEnd; lia].
    destruct (read_inside cfg s _ _ x n Hcfg Hrep (conj Hge Hlt)) as (pre & b & rest & post & E & -> & Hx & Hn).
    by apply (SpecRead cfg a x n pre b rest post).
  - eexists. split; [apply SpecSetRetention|]. split_and!; [by apply set_represents|done|done|done].
  - destruct (enforce_suffix cfg s _ _ (retentionMs s) (retentionBytes s) now Hrep) as (s' & k & dropped & rest & Et & E & Hrep' & _).
    { intros Hms. apply (sorted_suffix (gone a)). rewrite Ha. apply placed_sorted; [done|]. apply Hs, HT. rewrite <- Hl. exact Hms. }
    assert (BrokerConfig.retention_tick s now = s') as Es' by (unfold BrokerConfig.retention_tick; by rewrite Et).
    cbn [fst snd]. rewrite <- Es' in Hrep'. eexists. split; [apply (SpecTick cfg a now dropped rest); [done|]|].
    + intros Hu. rewrite <- Hl in Hu. rewrite tick_unlimited in Hrep' by done. apply (represents_same cfg s (start a) dropped rest); [by rewrite <- E|done].
    + split_and!; cbn [gone kept lim]; [unfold start in *; cbn [gone]; by rewrite end_off_app|by rewrite <- app_assoc, <- E|by rewrite tick_limits|done].
  - destruct (Close_Open cfg s _ _ [] Hcfg Hrep) as (s1 & s2 & -> & _ & E2 & Hrep2 & _). cbn [mbind outcome_bind]. rewrite E2.
    eexists. split; [apply SpecReopen|]. split_and!; [done|done| |done]. by apply (BrokerConfig.storage_limits cfg (dir s1)).
Qed.

Lemma run_ops_spec T cfg ops : cfg_ok cfg -> Forall (allowed T cfg) ops ->
  forall bs a s, holds T cfg s a bs -> fits T (bs ++ appended ops) ->
    exists a', spec_run cfg a ops (run_ops cfg s ops).2 a' /\ holds T cfg (run_ops cfg s ops).1 a' (bs ++ appended ops).
Proof.
  intros Hcfg Hall. induction Hall as [|o ops Ho _ IH]; intros bs a s Hh Hf; cbn [run_ops]; [exists a; split; [constructor|by rewrite app_nil_r]|].
  change (o :: ops) with ([o] ++ ops) in Hf |- *. unfold appended in Hf |- *. rewrite omap_app, app_assoc in Hf |- *. fold (appended [o]) (appended ops) in Hf |- *.
  destruct (do_op_spec T cfg s a bs o Hcfg Hh Ho (fits_prefix _ _ _ Hf)) as (a1 & H1 & Hh1). destruct (do_op cfg s o) as [s1 r].
  destruct (IH _ a1 s1 Hh1 Hf) as (a2 & H2 & Hh2). destruct (run_ops cfg s1 ops) as [s2 rs]. exists a2. split; [by econstructor|done].
Qed.


(** ** Timestamps that go back

    A segment is deleted for its age when the segment behind it begins with an old batch. Three
    segments of one batch each, the last with an older timestamp than the others: the tick deletes
    the one in the middle. A read at its offset then finds nothing and says to go on at the same
    offset, so a consumer that has read the first batch never gets to the third. *)

Definition b_ts (t : Z) : list byte :=
  match Batch.EncodeBatch [{| Batch.TimestampMs := t; Batch.rKey := None; Batch.rValue := []; Batch.Headers := [] |}] with
  | Ok b => b
  | _ => []
  end.

Definition cfg_hole : StorageConfig :=
  {| SegmentMaxBytes := 40; IndexSampleBytes := 40; RetentionCheckIntervalMs := 1000; DefaultRetentionMs := 10; DefaultRetentionBytes := -1 |}.

Definition ops_hole : list sop := [OAppend (b_ts 100); OAppend (b_ts 100); OAppend (b_ts 50); OTick 100; ORead 0 10; ORead 1 10; ORead 2 10].

Lemma time_retention_hole :
  (run_ops cfg_hole (match Open ∅ cfg_hole with Ok s => s | _ => no_storage end) ops_hole).2 =
  [Ok (RAppended 0); Ok (RAppended 1); Ok (RAppended 2); Ok RDone;
   Ok (RData (Batch.withBaseOffset (b_ts 100) 0) 1); Ok (RData [] 1); Ok (RData (Batch.withBaseOffset (b_ts 50) 2) 3)].
Proof. vm_compute. reflexivity. Qed.

(** Two appends with reads, a restart and a tick between them. *)
Definition ops0 : list sop := [OAppend b0; ORead 0 100; OReopen; OTick 5; OSetRetention 0 0; OAppend b0; OTick 6; ORead 3 10].


End StorageHistory.
