(* ===== verification/StorageMetrics.v ===== *)
(** * The metrics of the storage

    internal/storage/metrics.go, and what storage.go and retention.go record in it. One
    [StorageMetrics] is shared by the storages of all partitions of a broker (main.go hands it to
    every partition state machine); each uses the labels of its topic and partition. The operations
    are written out again with what they record; without it they are those of [Storage]. On every
    history the offset gauges are the offsets of the storage, the counters count what was done, and
    the rolled and deleted counters account for the segments; the segment count gauge is an upper
    bound only, since retention does not set it.

    A labelled vector of the Prometheus client is a map from label values to numbers: a counter or
    gauge that was never touched reads zero. Values are float64 there, exact below 2^53. A histogram
    is the list of its observations. A nil vector, or a nil [StorageMetrics], records nothing. *)

From S2P Require Import Prelude Batch SegName LogSegment BinSearch BatchLog Segment Recovery Storage StorageOpen StorageCut StorageExamples Partition BrokerConfig StorageHistory.
Local Open Scope Z_scope.

Module StorageMetrics.
Import Partition BatchLog LogSeg Seg Recovery Storage StorageOpen StorageCut StorageExamples StorageHistory.

(** ** The vectors *)

Abbreviation vec := (gmap (list string) Z).
Abbreviation histogram := (gmap (list string) (list Z)).

Definition Inc (ls : list string) (v : vec) : vec := <[ls := default 0 (v !! ls) + 1]> v.
Definition Add (ls : list string) (n : Z) (v : vec) : vec := <[ls := default 0 (v !! ls) + n]> v.
Definition Set_ (ls : list string) (n : Z) (v : vec) : vec := <[ls := n]> v.
Definition Observe (ls : list string) (dur : Z) (h : histogram) : histogram := <[ls := default [] (h !! ls) ++ [dur]]> h.

Record StorageMetrics := {
  BytesAppendedTotal : option vec;
  BatchesAppendedTotal : option vec;
  SegmentsRolledTotal : option vec;
  SegmentsDeletedTotal : option vec;
  ActiveSegmentBytes : option vec;
  SegmentCount : option vec;
  mEarliestOffset : option vec;
  mLatestOffset : option vec;
  AppendDuration : option histogram;
  ReadDuration : option histogram;
  RecoveryDuration : option histogram;
  CRCErrorsTotal : option vec
}.

(** All twelve are made and registered; a name registered twice would panic, and they differ. *)
Definition NewStorageMetrics : StorageMetrics :=
  {| BytesAppendedTotal := Some ∅; BatchesAppendedTotal := Some ∅; SegmentsRolledTotal := Some ∅;
     SegmentsDeletedTotal := Some ∅; ActiveSegmentBytes := Some ∅; SegmentCount := Some ∅;
     mEarliestOffset := Some ∅; mLatestOffset := Some ∅; AppendDuration := Some ∅;
     ReadDuration := Some ∅; RecoveryDuration := Some ∅; CRCErrorsTotal := Some ∅ |}.

Definition NoopStorageMetrics : StorageMetrics :=
  {| BytesAppendedTotal := None; BatchesAppendedTotal := None; SegmentsRolledTotal := None;
     SegmentsDeletedTotal := None; ActiveSegmentBytes := None; SegmentCount := None;
     mEarliestOffset := None; mLatestOffset := None; AppendDuration := None;
     ReadDuration := None; RecoveryDuration := None; CRCErrorsTotal := None |}.

(** ** What is recorded

    The receiver is a pointer and may be nil; [<$>] on the fields is their nil check. *)

Definition recordAppend (topic partID : string) (batchLen dur : Z) (m : option StorageMetrics) : option StorageMetrics :=
  let ls := [topic; partID] in
  m ← m; Some
  {| BytesAppendedTotal := Add ls batchLen <$> BytesAppendedTotal m;
     BatchesAppendedTotal := Inc ls <$> BatchesAppendedTotal m;
     SegmentsRolledTotal := SegmentsRolledTotal m; SegmentsDeletedTotal := SegmentsDeletedTotal m;
     ActiveSegmentBytes := ActiveSegmentBytes m; SegmentCount := SegmentCount m;
     mEarliestOffset := mEarliestOffset m; mLatestOffset := mLatestOffset m;
     AppendDuration := Observe ls dur <$> AppendDuration m;
     ReadDuration := ReadDuration m; RecoveryDuration := RecoveryDuration m; CRCErrorsTotal := CRCErrorsTotal m |}.

Definition recordAppendGauges (topic partID : string) (latestOff activeBytes : Z) (m : option StorageMetrics) : option StorageMetrics :=
  let ls := [topic; partID] in
  m ← m; Some
  {| BytesAppendedTotal := BytesAppendedTotal m; BatchesAppendedTotal := BatchesAppendedTotal m;
     SegmentsRolledTotal := SegmentsRolledTotal m; SegmentsDeletedTotal := SegmentsDeletedTotal m;
     ActiveSegmentBytes := Set_ ls activeBytes <$> ActiveSegmentBytes m; SegmentCount := SegmentCount m;
     mEarliestOffset := mEarliestOffset m; mLatestOffset := Set_ ls latestOff <$> mLatestOffset m;
     AppendDuration := AppendDuration m; ReadDuration := ReadDuration m; RecoveryDuration := RecoveryDuration m;
     CRCErrorsTotal := CRCErrorsTotal m |}.

Definition recordRoll (topic partID : string) (segCount : Z) (m : option StorageMetrics) : option StorageMetrics :=
  let ls := [topic; partID] in
  m ← m; Some
  {| BytesAppendedTotal := BytesAppendedTotal m; BatchesAppendedTotal := BatchesAppendedTotal m;
     SegmentsRolledTotal := Inc ls <$> SegmentsRolledTotal m; SegmentsDeletedTotal := SegmentsDeletedTotal m;
     ActiveSegmentBytes := ActiveSegmentBytes m; SegmentCount := Set_ ls segCount <$> SegmentCount m;
     mEarliestOffset := mEarliestOffset m; mLatestOffset := mLatestOffset m;
     AppendDuration := AppendDuration m; ReadDuration := ReadDuration m; RecoveryDuration := RecoveryDuration m;
     CRCErrorsTotal := CRCErrorsTotal m |}.

Definition recordRead (topic partID : string) (dur : Z) (m : option StorageMetrics) : option StorageMetrics :=
  m ← m; Some
  {| BytesAppendedTotal := BytesAppendedTotal m; BatchesAppendedTotal := BatchesAppendedTotal m;
     SegmentsRolledTotal := SegmentsRolledTotal m; SegmentsDeletedTotal := SegmentsDeletedTotal m;
     ActiveSegmentBytes := ActiveSegmentBytes m; SegmentCount := SegmentCount m;
     mEarliestOffset := mEarliestOffset m; mLatestOffset := mLatestOffset m;
     AppendDuration := AppendDuration m; ReadDuration := Observe [topic; partID] dur <$> ReadDuration m;
     RecoveryDuration := RecoveryDuration m; CRCErrorsTotal := CRCErrorsTotal m |}.

Definition recordRetentionDeletion (topic partID reason : string) (m : option StorageMetrics) : option StorageMetrics :=
  m ← m; Some
  {| BytesAppendedTotal := BytesAppendedTotal m; BatchesAppendedTotal := BatchesAppendedTotal m;
     SegmentsRolledTotal := SegmentsRolledTotal m;
     SegmentsDeletedTotal := Inc [topic; partID; reason] <$> SegmentsDeletedTotal m;
     ActiveSegmentBytes := ActiveSegmentBytes m; SegmentCount := SegmentCount m;
     mEarliestOffset := mEarliestOffset m; mLatestOffset := mLatestOffset m;
     AppendDuration := AppendDuration m; ReadDuration := ReadDuration m; RecoveryDuration := RecoveryDuration m;
     CRCErrorsTotal := CRCErrorsTotal m |}.

Definition recordEarliestOffset (topic partID : string) (offset : Z) (m : option StorageMetrics) : option StorageMetrics :=
  m ← m; Some
  {| BytesAppendedTotal := BytesAppendedTotal m; BatchesAppendedTotal := BatchesAppendedTotal m;
     SegmentsRolledTotal := SegmentsRolledTotal m; SegmentsDeletedTotal := SegmentsDeletedTotal m;
     ActiveSegmentBytes := ActiveSegmentBytes m; SegmentCount := SegmentCount m;
     mEarliestOffset := Set_ [topic; partID] offset <$> mEarliestOffset m; mLatestOffset := mLatestOffset m;
     AppendDuration := AppendDuration m; ReadDuration := ReadDuration m; RecoveryDuration := RecoveryDuration m;
     CRCErrorsTotal := CRCErrorsTotal m |}.

Definition recordRecovery (topic partID : string) (dur segCount earliestOff latestOff crcErrors : Z) (m : option StorageMetrics)
  : option StorageMetrics :=
  let ls := [topic; partID] in
  m ← m; Some
  {| BytesAppendedTotal := BytesAppendedTotal m; BatchesAppendedTotal := BatchesAppendedTotal m;
     SegmentsRolledTotal := SegmentsRolledTotal m; SegmentsDeletedTotal := SegmentsDeletedTotal m;
     ActiveSegmentBytes := ActiveSegmentBytes m; SegmentCount := Set_ ls segCount <$> SegmentCount m;
     mEarliestOffset := Set_ ls earliestOff <$> mEarliestOffset m; mLatestOffset := Set_ ls latestOff <$> mLatestOffset m;
     AppendDuration := AppendDuration m; ReadDuration := ReadDuration m;
     RecoveryDuration := Observe ls dur <$> RecoveryDuration m;
     CRCErrorsTotal := if 0 <? crcErrors then Add ls crcErrors <$> CRCErrorsTotal m else CRCErrorsTotal m |}.

(** ** The operations with what they record

    [topic] and [partitionID] are set by [WithMetrics] when the storage is opened; a duration is an
    argument, like the clock of retention. *)

Section operations.
Variables (cfg : StorageConfig) (topic partitionID : string).
Abbreviation metrics := (option StorageMetrics).

Definition Open_m (fs : files) (dur : Z) (m : metrics) : outcome (storageImpl * metrics) :=
  '(fs, segs, next, crcErrors) ← recoverStorage fs cfg;
  let earliestOff := match segs with [] => 0 | seg :: _ => baseOffset seg end in
  Ok ({| dir := fs; segments := segs; nextOffset := next; dataCh := 0;
         retentionMs := DefaultRetentionMs cfg; retentionBytes := DefaultRetentionBytes cfg; closed := false |},
      recordRecovery topic partitionID dur (len segs) earliestOff next crcErrors m).

Definition Append_m (s : storageImpl) (m : metrics) (batch : list byte) (dur : Z) : storageImpl * metrics * outcome Z :=
  if closed s then (s, m, Err ErrStorageClosed) else
  let baseOff := nextOffset s in
  match putUint64 batch 0 (u64 baseOff) with
  | Ok batch =>
      match active s with
      | Ok seg =>
          let '(fs, seg, r) := Seg.Append cfg (dir s) seg batch in
          let s := set_active s fs seg in
          match r with
          | Ok _ =>
              match getUint32 batch 12 with
              | Ok recordCount =>
                  let s := set_nextOffset s (i64 (nextOffset s + recordCount)) in
                  let '(s, rolled, r) :=
                    if SegmentMaxBytes cfg <=? LogSize seg then let '(s, r) := roll cfg s in (s, true, r) else (s, false, Ok tt) in
                  match r with
                  | Ok _ =>
                      match active s with
                      | Ok seg =>
                          let activeBytes := LogSize seg in
                          let segCount := len (segments s) in
                          let latestOff := nextOffset s in
                          let m := recordAppend topic partitionID (len batch) dur m in
                          let m := recordAppendGauges topic partitionID latestOff activeBytes m in
                          let m := if rolled : bool then recordRoll topic partitionID segCount m else m in
                          (set_dataCh s (dataCh s + 1), m, Ok baseOff)
                      | x => (s, m, failure x)
                      end
                  | x => (s, m, failure x)
                  end
              | x => (s, m, failure x)
              end
          | x => (s, m, failure x)
          end
      | x => (s, m, failure x)
      end
  | x => (s, m, failure x)
  end.

(** The deferred call: every read is timed, also one that fails. *)
Definition Read_m (s : storageImpl) (m : metrics) (offset maxBytes dur : Z) : metrics * outcome (list byte * Z) :=
  (recordRead topic partitionID dur m, Read s offset maxBytes).

(** [reasons] after the byte limit: the oldest sealed segments, while the total is above it. *)
Fixpoint reasons_bytes (sealedSegs : list SegmentStorage) (total limit : Z) : list string :=
  match sealedSegs with
  | [] => []
  | seg :: segs =>
      if limit <? total then "bytes"%string :: reasons_bytes segs (total - LogSize seg) limit
      else replicate (length sealedSegs) ""%string
  end.

Definition reasons (fs : files) (segs : list SegmentStorage) (retMs retBytes nowMs : Z) : list string :=
  let sealedSegs := removelast segs in
  let by_bytes := if 0 <=? retBytes then reasons_bytes sealedSegs (total_size segs) retBytes
                  else replicate (length sealedSegs) ""%string in
  zip_with (fun (reason : string) next =>
              if negb (String.eqb reason "") then reason else
              if (0 <? retMs) && expired fs next (i64 (nowMs - retMs)) then "time"%string else ""%string)
           by_bytes (tail segs).

(** One turn of the loop over [reasons]. *)
Definition retention_step (st : storageImpl * metrics * Z) (p : SegmentStorage * string) : storageImpl * metrics * Z :=
  let '(s, m, deleted) := st in
  let '(seg, reason) := p in
  if String.eqb reason "" then st else
  (delete_segment s (baseOffset seg), recordRetentionDeletion topic partitionID reason m, deleted + 1).

Definition EnforceRetention_m (s : storageImpl) (m : metrics) (retMs retBytes nowMs : Z) : storageImpl * metrics * Z :=
  let segs := segments s in
  if len segs <=? 1 then (s, m, 0) else
  let '(s, m, deleted) := fold_left retention_step (zip (removelast segs) (reasons (dir s) segs retMs retBytes nowMs)) (s, m, 0) in
  let m := if 0 <? deleted
           then recordEarliestOffset topic partitionID (match segments s with [] => 0 | seg :: _ => baseOffset seg end) m
           else m in
  (s, m, deleted).

(** The operations of [StorageHistory], as the process performs them. *)
Definition do_op_m (s : storageImpl) (m : metrics) (o : sop) (dur : Z) : storageImpl * metrics * outcome reply :=
  match o with
  | OAppend b => let '(s', m', r) := Append_m s m b dur in (s', m', z ← r; Ok (RAppended z))
  | ORead offset maxBytes => let '(m', r) := Read_m s m offset maxBytes dur in (s, m', '(data, next) ← r; Ok (RData data next))
  | OSetRetention ms bytes => (SetRetentionConfig s ms bytes, m, Ok RDone)
  | OTick nowMs => let '(s', m', _) := EnforceRetention_m s m (retentionMs s) (retentionBytes s) nowMs in (s', m', Ok RDone)
  | OReopen =>
      match s ← Close s; Open_m (dir s) dur m with
      | Ok (s', m') => (s', m', Ok RDone)
      | x => (s, m, failure x)
      end
  end.

(** ** Recording changes nothing else *)

(** What [Open] records about the storage it returns. *)
Definition recovered (s : storageImpl) (dur crcErrors : Z) (m : metrics) : metrics :=
  recordRecovery topic partitionID dur (len (segments s)) (EarliestOffset s) (LatestOffset s) crcErrors m.

Lemma Open_m_Open fs dur m s : Open fs cfg = Ok s -> exists crcErrors, Open_m fs dur m = Ok (s, recovered s dur crcErrors m).
Proof.
  unfold Open_m, Open. destruct (recoverStorage fs cfg) as [[[[fs' segs] next] crc]|e|q|]; [|done..].
  intros [= <-]. by exists crc.
Qed.

Lemma Open_m_fails fs dur m : (forall s, Open fs cfg <> Ok s) -> forall x, Open_m fs dur m <> Ok x.
Proof.
  unfold Open_m, Open. destruct (recoverStorage fs cfg) as [[[[fs' segs] next] crc]|e|q|]; [|done..].
  intros H. by destruct (H _ eq_refl).
Qed.

(** What [Append] records when it succeeds. *)
Definition appended_m (s : storageImpl) (seg : SegmentStorage) (rolled : bool) (n dur : Z) (m : metrics) : metrics :=
  let m := recordAppendGauges topic partitionID (LatestOffset s) (LogSize seg) (recordAppend topic partitionID n dur m) in
  if rolled then recordRoll topic partitionID (len (segments s)) m else m.

Lemma set_active_len s fs seg seg' : active s = Ok seg -> len (segments (set_active s fs seg')) = len (segments s).
Proof.
  unfold active, set_active. cbn [set_segments segments]. destruct (segments s) as [|x l _] using rev_ind; [by vm_compute|].
  intros _. rewrite removelast_snoc. len_lia.
Qed.

Lemma len_putUint64 l z l' : putUint64 l 0 z = Ok l' -> len l' = len l.
Proof.
  unfold putUint64, store. destruct (_ && _) eqn:E; [|done]. apply andb_prop in E as [_ E%Z.leb_le]. intros [= <-]. apply len_splice; lia.
Qed.

Lemma length_mark_bytes segs total limit : length (mark_bytes segs total limit) = length segs.
Proof. revert total. induction segs as [|seg segs IH]; intros total; cbn [mark_bytes]; [done|]. case_match; cbn [length]; [by rewrite IH|by rewrite length_replicate]. Qed.

Lemma roll_last s s' : roll cfg s = (s', Ok tt) -> exists seg, last (segments s') = Some seg /\ active s' = Ok seg /\ len (segments s') = len (segments s) + 1.
Proof.
  unfold roll. destruct (active s) as [seg|e|q|] eqn:Ea; [|done..]. destruct (Seg.Seal (dir s) seg) as [fs seg'].
  destruct (NewSegmentStorage fs _ cfg) as [[fs' new]|e|q|]; [|done..]. intros [= <-]. exists new.
  pose proof (set_active_len _ fs _ seg' Ea) as Hl. unfold set_active in *. cbn [set_segments segments] in *. rewrite last_snoc.
  split; [done|]. split; [by eapply active_snoc|]. rewrite len_app, Hl. done.
Qed.

Lemma Append_m_spec s m b dur :
  let '(s', r) := Append cfg s b in
  exists m', Append_m s m b dur = (s', m', r) /\
    match r with
    | Ok _ => exists seg (rolled : bool), last (segments s') = Some seg /\
        len (segments s') = len (segments s) + (if rolled then 1 else 0) /\ m' = appended_m s' seg rolled (len b) dur m
    | _ => m' = m
    end.
Proof.
  unfold Append, Append_m. destruct (closed s); [by exists m|]. destruct (putUint64 b 0 _) as [b'|e|q|] eqn:Eb; [|by exists m..].
  assert (len b' = len b) as El by (eapply len_putUint64, Eb).
  destruct (active s) as [seg|e|q|] eqn:Ea; [|by exists m..].
  destruct (Seg.Append cfg (dir s) seg b') as [[fs seg'] [r|e|q|]]; [|by exists m..].
  destruct (getUint32 b' 12) as [c|e|q|]; [|by exists m..]. set (s1 := set_nextOffset _ _).
  pose proof (set_active_len _ fs _ seg' Ea) as Hlen. change (segments (set_active s fs seg')) with (segments s1) in Hlen.
  destruct (SegmentMaxBytes cfg <=? LogSize seg').
  - destruct (roll cfg s1) as [s2 [[]|e|q|]] eqn:Er; [|by exists m..]. destruct (roll_last _ _ Er) as (new & H1 & H2 & H3). rewrite H2.
    eexists. split; [done|]. exists new, true. split_and!; [done|cbn [set_dataCh segments]; lia|by rewrite El].
  - assert (segments s1 = removelast (segments s) ++ [seg']) as Es by done. rewrite (active_snoc _ _ _ Es).
    eexists. split; [done|]. exists seg', false. cbn [set_dataCh segments]. rewrite Es at 1. rewrite last_snoc.
    split_and!; [done|lia|by rewrite El].
Qed.

(** *** Retention *)

Definition deleting (reason : string) : bool := negb (String.eqb reason "").

Lemma reasons_bytes_marks segs total limit : deleting <$> reasons_bytes segs total limit = mark_bytes segs total limit.
Proof.
  revert total. induction segs as [|seg segs IH]; intros total; cbn [reasons_bytes mark_bytes]; [done|].
  destruct (limit <? total); [cbn [fmap list_fmap]; f_equal; apply IH|]. by rewrite fmap_replicate.
Qed.

(** A segment is marked when it has a reason. *)
Lemma reasons_marks fs segs retMs retBytes nowMs : deleting <$> reasons fs segs retMs retBytes nowMs = retention_marks fs segs retMs retBytes nowMs.
Proof.
  unfold reasons, retention_marks.
  assert (deleting <$> (if 0 <=? retBytes then reasons_bytes (removelast segs) (total_size segs) retBytes else replicate (length (removelast segs)) ""%string)
    = (if 0 <=? retBytes then mark_bytes (removelast segs) (total_size segs) retBytes else replicate (length (removelast segs)) false)) as <-.
  { destruct (0 <=? retBytes); [apply reasons_bytes_marks|by rewrite fmap_replicate]. }
  generalize (if 0 <=? retBytes then reasons_bytes (removelast segs) (total_size segs) retBytes else replicate (length (removelast segs)) ""%string).
  intros rs. generalize (tail segs). induction rs as [|r rs IH]; intros [|next nexts]; try done. cbn [zip_with fmap list_fmap]. f_equal; [|apply IH].
  unfold deleting. destruct (String.eqb r "") eqn:E; cbn [negb orb]; [|by rewrite E].
  by destruct ((0 <? retMs) && expired fs next (i64 (nowMs - retMs))).
Qed.

Lemma length_reasons fs segs retMs retBytes nowMs : length (reasons fs segs retMs retBytes nowMs) = length (removelast segs).
Proof.
  unfold reasons. rewrite length_zip_with. assert (length (tail segs) = length (removelast segs)) as ->.
  { destruct segs as [|x l _] using rev_ind; [done|]. rewrite removelast_snoc. destruct l; [done|]. cbn [app tail length]. rewrite length_app. cbn [length]. lia. }
  assert (forall r : list string, length r = length (removelast segs) -> Nat.min (length r) (length (removelast segs)) = length (removelast segs)) as H by lia.
  apply H. destruct (0 <=? retBytes); [|by rewrite length_replicate]. by rewrite <- (length_fmap deleting), reasons_bytes_marks, length_mark_bytes.
Qed.

Lemma reasons_known fs segs retMs retBytes nowMs :
  Forall (fun r => r = "" \/ r = "bytes" \/ r = "time")%string (reasons fs segs retMs retBytes nowMs).
Proof.
  unfold reasons. assert (Forall (fun r => r = "" \/ r = "bytes")%string
    (if 0 <=? retBytes then reasons_bytes (removelast segs) (total_size segs) retBytes else replicate (length (removelast segs)) ""%string)) as H.
  { destruct (0 <=? retBytes); [|apply Forall_replicate; auto]. generalize (total_size segs). induction (removelast segs) as [|seg l IH]; intros t; cbn [reasons_bytes]; [constructor|].
    destruct (retBytes <? t); [constructor; [auto|apply IH]|apply Forall_replicate; auto]. }
  revert H. generalize (if 0 <=? retBytes then reasons_bytes (removelast segs) (total_size segs) retBytes else replicate (length (removelast segs)) ""%string).
  intros rs H. generalize (tail segs). induction H as [|r rs Hr _ IH]; intros [|next nexts]; cbn [zip_with]; try constructor; [|apply IH].
  destruct Hr as [-> | ->]; cbn [negb String.eqb]; [|auto]. case_match; auto.
Qed.

(** The deletions that are recorded. *)
Definition recorded (rs : list string) (m : metrics) : metrics :=
  fold_left (fun m r => recordRetentionDeletion topic partitionID r m) (filter (fun r => deleting r = true) rs) m.

Lemma retention_loop segs rs s m n :
  length segs = length rs ->
  fold_left (retention_step) (zip segs rs) (s, m, n) =
    (fold_left delete_segment (marked segs (deleting <$> rs)) s, recorded rs m, n + len (marked segs (deleting <$> rs))).
Proof.
  unfold recorded, marked. revert rs s m n. induction segs as [|seg segs IH]; intros [|r rs] s m n Hl; try done; [cbn; by rewrite Z.add_0_r|].
  injection Hl as Hl. change (zip (seg :: segs) (r :: rs)) with ((seg, r) :: zip segs rs).
  change (zip (seg :: segs) (deleting <$> r :: rs)) with ((seg, deleting r) :: zip segs (deleting <$> rs)).
  cbn [fold_left]. unfold retention_step at 2. destruct (String.eqb r "") eqn:E.
  - rewrite !filter_cons_False by (unfold deleting; cbn [snd]; by rewrite E). by apply IH.
  - rewrite !filter_cons_True by (unfold deleting; cbn [snd]; by rewrite E). rewrite IH by done. cbn [fmap list_fmap fold_left fst].
    f_equal. len_lia.
Qed.

Lemma EnforceRetention_m_spec s m retMs retBytes nowMs :
  let '(s', n) := EnforceRetention s retMs retBytes nowMs in
  exists rs, Forall (fun r => r = "" \/ r = "bytes" \/ r = "time")%string rs /\ len (filter (fun r => deleting r = true) rs) = n /\
    EnforceRetention_m s m retMs retBytes nowMs =
      (s', if 0 <? n then recordEarliestOffset topic partitionID (EarliestOffset s') (recorded rs m) else recorded rs m, n).
Proof.
  unfold EnforceRetention, EnforceRetention_m. destruct (len (segments s) <=? 1) eqn:El; [exists []; split_and!; [constructor|done|done]|].
  set (rs := reasons _ _ _ _ _). assert (length (removelast (segments s)) = length rs) as Hlen by (symmetry; apply length_reasons).
  rewrite retention_loop, <- reasons_marks by done. fold rs. rewrite Z.add_0_l. exists rs.
  split_and!; [apply reasons_known| |done]. clearbody rs. revert rs Hlen. unfold marked.
  generalize (removelast (segments s)). intros l. induction l as [|x l IH]; intros [|r rs] Hl; try done. injection Hl as Hl.
  change (zip (x :: l) (deleting <$> r :: rs)) with ((x, deleting r) :: zip l (deleting <$> rs)).
  destruct (deleting r) eqn:E; [rewrite !filter_cons_True by done|rewrite !filter_cons_False by (cbn [snd]; by rewrite E)]; [|by apply IH].
  cbn [fmap list_fmap]. rewrite !len_cons. f_equal. by apply IH.
Qed.

End operations.

(** ** What a scrape shows *)

(** A series, if it has been touched; a counter is compared by the value it would start from. *)
Definition series (v : option vec) (ls : list string) : option Z := v ≫= (fun v => v !! ls).
Definition read_vec (v : option vec) (ls : list string) : Z := default 0 (series v ls).
Definition observations (h : option histogram) (ls : list string) : Z := len (default [] (h ≫= (fun h => h !! ls))).

(** The series of one partition. *)
Record readings := {
  r_bytes : Z; r_batches : Z; r_rolled : Z; r_by_bytes : Z; r_by_time : Z;
  r_active : option Z; r_count : option Z; r_earliest : option Z; r_latest : option Z;
  r_appends : Z; r_reads : Z; r_recoveries : Z
}.

Definition reading (tp : string * string) (m : StorageMetrics) : readings :=
  let ls := [tp.1; tp.2] in
  {| r_bytes := read_vec (BytesAppendedTotal m) ls; r_batches := read_vec (BatchesAppendedTotal m) ls;
     r_rolled := read_vec (SegmentsRolledTotal m) ls;
     r_by_bytes := read_vec (SegmentsDeletedTotal m) (ls ++ ["bytes"%string]);
     r_by_time := read_vec (SegmentsDeletedTotal m) (ls ++ ["time"%string]);
     r_active := series (ActiveSegmentBytes m) ls; r_count := series (SegmentCount m) ls;
     r_earliest := series (mEarliestOffset m) ls; r_latest := series (mLatestOffset m) ls;
     r_appends := observations (AppendDuration m) ls; r_reads := observations (ReadDuration m) ls;
     r_recoveries := observations (RecoveryDuration m) ls |}.

Definition r_deleted (r : readings) : Z := r_by_bytes r + r_by_time r.

(** No vector is nil, as [NewStorageMetrics] makes them. *)
Definition enabled (m : StorageMetrics) : Prop :=
  is_Some (BytesAppendedTotal m) /\ is_Some (BatchesAppendedTotal m) /\ is_Some (SegmentsRolledTotal m) /\
  is_Some (SegmentsDeletedTotal m) /\ is_Some (ActiveSegmentBytes m) /\ is_Some (SegmentCount m) /\
  is_Some (mEarliestOffset m) /\ is_Some (mLatestOffset m) /\ is_Some (AppendDuration m) /\
  is_Some (ReadDuration m) /\ is_Some (RecoveryDuration m) /\ is_Some (CRCErrorsTotal m).

(** [f] records [g] in the series of [tp] and leaves the other partitions' series alone. *)
Definition records (tp : string * string) (f : option StorageMetrics -> option StorageMetrics) (g : readings -> readings) : Prop :=
  forall m, enabled m -> exists m', f (Some m) = Some m' /\ enabled m' /\ reading tp m' = g (reading tp m) /\
    forall tp', tp' <> tp -> reading tp' m' = reading tp' m.

Lemma records_compose tp f1 g1 f2 g2 : records tp f1 g1 -> records tp f2 g2 -> records tp (fun m => f2 (f1 m)) (fun r => g2 (g1 r)).
Proof.
  intros H1 H2 m Hm. destruct (H1 m Hm) as (m1 & -> & He1 & E1 & F1). destruct (H2 m1 He1) as (m2 & -> & He2 & E2 & F2).
  exists m2. split_and!; [done|done|by rewrite E2, E1|]. intros tp' Hne. by rewrite F2, F1.
Qed.

Lemma records_id tp : records tp (fun m => m) (fun r => r).
Proof. intros m Hm. by exists m. Qed.

Ltac record_solver :=
  intros m Hm; destruct m; repeat (destruct Hm as [[? ?] Hm]); destruct Hm; cbn in *; subst; eexists;
  split; [reflexivity|]; split; [repeat split; try (case_match); eexists; reflexivity|]; split;
  [unfold reading, read_vec, series, observations, Inc, Add, Set_, Observe; cbn; rewrite ?lookup_insert_eq; cbn;
   f_equal; rewrite ?len_app; try done
  |intros tp' Hne; unfold reading, read_vec, series, observations, Inc, Add, Set_, Observe; cbn;
   rewrite ?lookup_insert_ne by (destruct tp'; cbn in *; congruence); try done].

Section effects.
Variables topic partID : string.
Abbreviation tp := (topic, partID).

Lemma recordAppend_effect n dur :
  records tp (recordAppend topic partID n dur) (fun r =>
    {| r_bytes := r_bytes r + n; r_batches := r_batches r + 1; r_rolled := r_rolled r; r_by_bytes := r_by_bytes r; r_by_time := r_by_time r;
       r_active := r_active r; r_count := r_count r; r_earliest := r_earliest r; r_latest := r_latest r;
       r_appends := r_appends r + 1; r_reads := r_reads r; r_recoveries := r_recoveries r |}).
Proof. record_solver. Qed.

Lemma recordAppendGauges_effect latest active :
  records tp (recordAppendGauges topic partID latest active) (fun r =>
    {| r_bytes := r_bytes r; r_batches := r_batches r; r_rolled := r_rolled r; r_by_bytes := r_by_bytes r; r_by_time := r_by_time r;
       r_active := Some active; r_count := r_count r; r_earliest := r_earliest r; r_latest := Some latest;
       r_appends := r_appends r; r_reads := r_reads r; r_recoveries := r_recoveries r |}).
Proof. record_solver. Qed.

Lemma recordRoll_effect count :
  records tp (recordRoll topic partID count) (fun r =>
    {| r_bytes := r_bytes r; r_batches := r_batches r; r_rolled := r_rolled r + 1; r_by_bytes := r_by_bytes r; r_by_time := r_by_time r;
       r_active := r_active r; r_count := Some count; r_earliest := r_earliest r; r_latest := r_latest r;
       r_appends := r_appends r; r_reads := r_reads r; r_recoveries := r_recoveries r |}).
Proof. record_solver. Qed.

Lemma recordRead_effect dur :
  records tp (recordRead topic partID dur) (fun r =>
    {| r_bytes := r_bytes r; r_batches := r_batches r; r_rolled := r_rolled r; r_by_bytes := r_by_bytes r; r_by_time := r_by_time r;
       r_active := r_active r; r_count := r_count r; r_earliest := r_earliest r; r_latest := r_latest r;
       r_appends := r_appends r; r_reads := r_reads r + 1; r_recoveries := r_recoveries r |}).
Proof. record_solver. Qed.

Definition deleted_effect (reason : string) (r : readings) : readings :=
  {| r_bytes := r_bytes r; r_batches := r_batches r; r_rolled := r_rolled r;
     r_by_bytes := r_by_bytes r + (if String.eqb reason "bytes" then 1 else 0);
     r_by_time := r_by_time r + (if String.eqb reason "time" then 1 else 0);
     r_active := r_active r; r_count := r_count r; r_earliest := r_earliest r; r_latest := r_latest r;
     r_appends := r_appends r; r_reads := r_reads r; r_recoveries := r_recoveries r |}.

Lemma recordRetentionDeletion_effect reason : (reason = "bytes" \/ reason = "time")%string ->
  records tp (recordRetentionDeletion topic partID reason) (deleted_effect reason).
Proof. intros [-> | ->]; unfold deleted_effect; record_solver; rewrite lookup_insert_ne by done; cbn; lia. Qed.

Lemma recordEarliestOffset_effect offset :
  records tp (recordEarliestOffset topic partID offset) (fun r =>
    {| r_bytes := r_bytes r; r_batches := r_batches r; r_rolled := r_rolled r; r_by_bytes := r_by_bytes r; r_by_time := r_by_time r;
       r_active := r_active r; r_count := r_count r; r_earliest := Some offset; r_latest := r_latest r;
       r_appends := r_appends r; r_reads := r_reads r; r_recoveries := r_recoveries r |}).
Proof. record_solver. Qed.

Lemma recordRecovery_effect dur count earliest latest crc :
  records tp (recordRecovery topic partID dur count earliest latest crc) (fun r =>
    {| r_bytes := r_bytes r; r_batches := r_batches r; r_rolled := r_rolled r; r_by_bytes := r_by_bytes r; r_by_time := r_by_time r;
       r_active := r_active r; r_count := Some count; r_earliest := Some earliest; r_latest := Some latest;
       r_appends := r_appends r; r_reads := r_reads r; r_recoveries := r_recoveries r + 1 |}).
Proof. record_solver. Qed.

Definition appended_effect (s : storageImpl) (seg : SegmentStorage) (rolled : bool) (n : Z) (r : readings) : readings :=
  {| r_bytes := r_bytes r + n; r_batches := r_batches r + 1; r_rolled := r_rolled r + (if rolled then 1 else 0);
     r_by_bytes := r_by_bytes r; r_by_time := r_by_time r; r_active := Some (LogSize seg);
     r_count := if rolled then Some (len (segments s)) else r_count r; r_earliest := r_earliest r; r_latest := Some (LatestOffset s);
     r_appends := r_appends r + 1; r_reads := r_reads r; r_recoveries := r_recoveries r |}.

Lemma records_ext f g g' : records tp f g -> (forall r, g r = g' r) -> records tp f g'.
Proof. intros H E m Hm. destruct (H m Hm) as (m' & H1 & H2 & H3 & H4). exists m'. by rewrite <- E. Qed.

Lemma appended_m_effect s seg rolled n dur : records tp (appended_m topic partID s seg rolled n dur) (appended_effect s seg rolled n).
Proof.
  unfold appended_m. pose proof (records_compose _ _ _ _ _ (recordAppend_effect n dur) (recordAppendGauges_effect (LatestOffset s) (LogSize seg))) as H.
  destruct rolled; [pose proof (records_compose _ _ _ _ _ H (recordRoll_effect (len (segments s)))) as H'; apply H'|].
  eapply records_ext; [exact H|]. intros r. unfold appended_effect. cbn. f_equal; lia.
Qed.

(** Deletions touch the deletion counters only. *)
Definition deleted_by (n : Z) (r r' : readings) : Prop :=
  r_deleted r' = r_deleted r + n /\ r_bytes r' = r_bytes r /\ r_batches r' = r_batches r /\ r_rolled r' = r_rolled r /\
  r_active r' = r_active r /\ r_count r' = r_count r /\ r_earliest r' = r_earliest r /\ r_latest r' = r_latest r.

Lemma recorded_effect rs : Forall (fun r => r = "" \/ r = "bytes" \/ r = "time")%string rs ->
  exists g, records tp (recorded topic partID rs) g /\ forall r, deleted_by (len (filter (fun r => deleting r = true) rs)) r (g r).
Proof.
  intros H. unfold recorded. assert (Forall (fun r => r = "bytes" \/ r = "time")%string (filter (fun r => deleting r = true) rs)) as H'.
  { apply Forall_forall. intros r [Hd Hr]%list_elem_of_filter. rewrite Forall_forall in H. destruct (H _ Hr) as [-> |?]; done. }
  clear H. induction H' as [|r l Hr _ (g & IH & Hg)]; cbn [fold_left].
  { exists (fun r => r). split; [apply records_id|]. intros r. unfold deleted_by. change (len (@nil string)) with 0. split_and!; try done; lia. }
  exists (fun x => g (deleted_effect r x)). split; [exact (records_compose _ _ _ _ _ (recordRetentionDeletion_effect r Hr) IH)|].
  intros x. destruct (Hg (deleted_effect r x)) as (E & H1). split; [|exact H1]. rewrite E, len_cons. unfold r_deleted, deleted_effect.
  destruct Hr as [-> | ->]; cbn; lia.
Qed.

End effects.

(** ** Accuracy *)

(** Whether the latest offset gauge is set again: by an append, or when the storage is opened. *)
Definition moves (o : sop) : bool := match o with OAppend _ | OReopen => true | _ => false end.

(** The readings [r] of a storage [s], against [r0] and [s0] before the operations [ops]; the latest
    offset gauge was [before] when they began. *)
Record tracks (before : Z) (s0 s : storageImpl) (r0 r : readings) (ops : list sop) : Prop := {
  tr_latest : r_latest r = Some (if existsb moves ops then LatestOffset s else before);
  tr_earliest : r_earliest r = Some (EarliestOffset s);
  tr_batches : r_batches r = r_batches r0 + len (appended ops);
  tr_bytes : r_bytes r = r_bytes r0 + len (concat (appended ops));
  tr_segments : len (segments s) = len (segments s0) + (r_rolled r - r_rolled r0) - (r_deleted r - r_deleted r0);
  tr_count : exists n, r_count r = Some n /\ len (segments s) <= n;
  tr_active : appended ops <> [] -> r_active r = LogSize <$> last (segments s)
}.

(** A step that appends nothing and leaves the latest offset gauge. *)
Lemma appended_snoc ops o : appended (ops ++ [o]) = appended ops ++ appended [o].
Proof. apply omap_app. Qed.

Lemma moves_snoc ops o : existsb moves (ops ++ [o]) = existsb moves ops || moves o.
Proof. rewrite existsb_app. cbn [existsb]. by rewrite orb_false_r. Qed.

Section accuracy.
Variables (T : Prop) (cfg : StorageConfig) (topic partID : string).
Abbreviation tp := (topic, partID).
Hypothesis Hcfg : cfg_ok cfg.

(** What a step of the storage leaves in the metrics. *)
Definition step_ok (before : Z) (s0 : storageImpl) (r0 : readings) (ops : list sop) (m m' : StorageMetrics) (s' : storageImpl) : Prop :=
  enabled m' /\ tracks before s0 s' r0 (reading tp m') ops /\ forall tp', tp' <> tp -> reading tp' m' = reading tp' m.

Lemma append_tracks before s0 r0 s m b dur ops a n :
  enabled m -> tracks before s0 s r0 (reading tp m) ops -> holds T cfg s a n -> wf_batch b -> LatestOffset s + batch_count b < 2 ^ 63 ->
  exists m', Append_m cfg topic partID s (Some m) b dur = ((Append cfg s b).1, Some m', (Append cfg s b).2) /\
    step_ok before s0 r0 (ops ++ [OAppend b]) m m' (Append cfg s b).1.
Proof.
  intros Hm [] (Hrep & _) Hwf Hlt. pose proof (Append_m_spec cfg topic partID s (Some m) b dur) as Ha.
  destruct (append_represents cfg s _ _ b Hcfg Hrep Hwf Hlt) as (s' & E & Hrep' & Hlat & _). rewrite E in *. cbn [fst snd].
  destruct Ha as (m1 & -> & seg & rolled & Hlast & Hlen & ->).
  destruct (appended_m_effect topic partID s' seg rolled (len b) dur m Hm) as (m' & -> & Hm' & Er & Hf).
  exists m'. split; [done|]. split; [done|]. split; [|done]. rewrite Er. pose proof (represents_log _ _ _ _ Hrep) as (_ & _ & He & _).
  pose proof (represents_log _ _ _ _ Hrep') as (_ & _ & He' & _). unfold appended_effect.
  constructor; rewrite ?moves_snoc, ?appended_snoc; change (appended [OAppend b]) with [b]; cbn -[reading]; unfold r_deleted in *; cbn -[reading] in *;
    rewrite ?len_app, ?concat_app, ?len_app; cbn [concat]; rewrite ?app_nil_r.
  - by rewrite orb_true_r.
  - congruence.
  - change (len [b]) with 1. lia.
  - lia.
  - lia.
  - destruct tr_count0 as (c & Ec & Hc). destruct rolled; [by eexists|]. exists c. split; [done|lia].
  - intros _. by rewrite Hlast.
Qed.

Lemma tick_tracks before s0 r0 s m now ops a n :
  enabled m -> tracks before s0 s r0 (reading tp m) ops -> holds T cfg s a n -> fits T n ->
  exists m' k, EnforceRetention_m topic partID s (Some m) (retentionMs s) (retentionBytes s) now = (BrokerConfig.retention_tick s now, Some m', k) /\
    step_ok before s0 r0 (ops ++ [OTick now]) m m' (BrokerConfig.retention_tick s now).
Proof.
  intros Hm [] ((segs & bss & act & abs & Hok & El) & Ha & Hl & HT) (Hwf & Hs & _). unfold BrokerConfig.retention_tick.
  pose proof (EnforceRetention_m_spec topic partID s (Some m) (retentionMs s) (retentionBytes s) now) as He.
  destruct (enforce_shape cfg s _ _ _ _ _ (retentionMs s) (retentionBytes s) now Hok) as (s' & k & E & Hk & Hok' & Hn & _).
  { intros Hms. rewrite <- El. apply (sorted_suffix (gone a)). rewrite Ha. apply placed_sorted; [done|]. apply Hs, HT. rewrite <- Hl. exact Hms. }
  rewrite E in *. destruct He as (rs & Hrs & Hlen & ->). cbn [fst].
  assert (len (segments s') = len (segments s) - Z.of_nat k) as Hsegs.
  { rewrite (so_segments _ _ _ _ _ _ _ Hok), (so_segments _ _ _ _ _ _ _ Hok'). unfold len. rewrite !length_app, length_drop. cbn [length]. lia. }
  assert (last (segments s') = last (segments s)) as Hlast.
  { by rewrite (so_segments _ _ _ _ _ _ _ Hok), (so_segments _ _ _ _ _ _ _ Hok'), !last_snoc. }
  assert (k = O -> EarliestOffset s' = EarliestOffset s) as Ees.
  { intros ->. pose proof (so_segments _ _ _ _ _ _ _ Hok) as E1. pose proof (so_segments _ _ _ _ _ _ _ Hok') as E2. rewrite drop_0 in E2.
    unfold EarliestOffset. by rewrite E1, E2. }
  destruct (recorded_effect topic partID rs Hrs) as (g & Hg & Hd). rewrite Hlen in Hd.
  destruct (Hg m Hm) as (m1 & -> & Hm1 & Er1 & Hf1). destruct (Hd (reading tp m)) as (D & D1 & D2 & D3 & D4 & D5 & D6 & D7). rewrite <- Er1 in *.
  assert (forall r, r_earliest r = Some (EarliestOffset s') -> deleted_by (Z.of_nat k) (reading tp m) (reading tp m1) ->
    r_deleted r = r_deleted (reading tp m1) -> r_bytes r = r_bytes (reading tp m) -> r_batches r = r_batches (reading tp m) ->
    r_rolled r = r_rolled (reading tp m) -> r_active r = r_active (reading tp m) -> r_count r = r_count (reading tp m) -> r_latest r = r_latest (reading tp m) ->
    tracks before s0 s' r0 r (ops ++ [OTick now])) as Htr.
  { intros r R1 _ R2 R3 R4 R5 R6 R7 R8. unfold LatestOffset in *. constructor; rewrite ?moves_snoc, ?appended_snoc; change (appended [OTick now]) with (@nil (list byte));
      rewrite ?app_nil_r; cbn [moves]; rewrite ?orb_false_r; [rewrite R8; unfold LatestOffset; by rewrite Hn|done|lia|lia|lia| |by rewrite Hlast, R6].
    destruct tr_count0 as (c & Ec & Hc). exists c. split; [congruence|lia]. }
  destruct (0 <? Z.of_nat k) eqn:Ek.
  - destruct (recordEarliestOffset_effect topic partID (EarliestOffset s') m1 Hm1) as (m2 & -> & Hm2 & Er2 & Hf2).
    exists m2, (Z.of_nat k). split; [done|]. split; [done|]. split; [|intros tp' Hne; by rewrite Hf2, Hf1]. rewrite Er2. by apply Htr.
  - assert (k = O) as Ek0 by lia. exists m1, (Z.of_nat k). split; [done|]. split; [done|]. split; [|done].
    apply Htr; try done. rewrite D6, Ees by done. done.
Qed.

Lemma reopen_tracks before s0 r0 s m dur ops a n :
  enabled m -> tracks before s0 s r0 (reading tp m) ops -> holds T cfg s a n ->
  exists s1 s' m', Close s = Ok s1 /\ Open (dir s1) cfg = Ok s' /\ Open_m cfg topic partID (dir s1) dur (Some m) = Ok (s', Some m') /\
    step_ok before s0 r0 (ops ++ [OReopen]) m m' s'.
Proof.
  intros Hm [] (Hrep & _). destruct (close_open cfg s _ _ Hcfg Hrep) as (s1 & s' & Ec & _ & Eo & Hrep' & Hlat & Hlen & Hsz).
  destruct (Open_m_Open cfg topic partID (dir s1) dur (Some m) s' Eo) as (crc & Em).
  destruct (recordRecovery_effect topic partID dur (len (segments s')) (EarliestOffset s') (LatestOffset s') crc m Hm) as (m' & E' & Hm' & Er & Hf).
  unfold recovered in Em. rewrite E' in Em. exists s1, s', m'. split; [done|]. split; [done|]. split; [done|]. split; [done|]. split; [|done]. rewrite Er.
  constructor; rewrite ?moves_snoc, ?appended_snoc; change (appended [OReopen]) with (@nil (list byte)); rewrite ?app_nil_r; cbn -[reading];
    unfold r_deleted in *; cbn -[reading]; [by rewrite orb_true_r|done|lia|lia|lia|by eexists|by rewrite Hsz].
Qed.

(** Every operation does to the storage what it does without metrics, and keeps them accurate. *)
Lemma do_op_tracks before s0 r0 s m o dur ops a n :
  enabled m -> tracks before s0 s r0 (reading tp m) ops -> holds T cfg s a n -> fits T (n ++ appended [o]) ->
  exists m', do_op_m cfg topic partID s (Some m) o dur = ((do_op cfg s o).1, Some m', (do_op cfg s o).2) /\
    step_ok before s0 r0 (ops ++ [o]) m m' (do_op cfg s o).1.
Proof.
  intros Hm Ht Hh Hf. destruct o as [b|x k|ms bytes|now|]; cbn [do_op do_op_m].
  - destruct (fits_prefix _ _ _ Hf) as (Hwf & _ & _). pose proof (finish_counts _ _ _ _ _ Hwf Hh) as Hfin. pose proof Hh as (Hrep & _).
    pose proof (represents_log _ _ _ _ Hrep) as (_ & Hlat & _). fold (finish a) in Hlat.
    destruct Hf as ([_ Hb]%Forall_app & _ & Hcb). apply Forall_inv in Hb. rewrite counts_app in Hcb. cbn [appended omap list_omap counts fold_right] in Hcb.
    destruct (append_tracks before s0 r0 s m b dur ops a n Hm Ht Hh Hb) as (m' & -> & H); [lia|].
    destruct (Append cfg s b) as [s' r]. by exists m'.
  - destruct (recordRead_effect topic partID dur m Hm) as (m' & E & Hm' & Er & Hfr). unfold Read_m. rewrite E.
    exists m'. split; [done|]. split; [done|]. split; [|done]. rewrite Er. destruct Ht.
    constructor; rewrite ?moves_snoc, ?appended_snoc; cbn [appended omap list_omap moves]; by rewrite ?app_nil_r, ?orb_false_r.
  - exists m. split; [done|]. split; [done|]. split; [|done]. destruct Ht.
    constructor; rewrite ?moves_snoc, ?appended_snoc; cbn [appended omap list_omap moves]; by rewrite ?app_nil_r, ?orb_false_r.
  - unfold appended in Hf. cbn [omap list_omap] in Hf. rewrite app_nil_r in Hf.
    destruct (tick_tracks before s0 r0 s m now ops a n Hm Ht Hh Hf) as (m' & k & -> & H). by exists m'.
  - destruct (reopen_tracks before s0 r0 s m dur ops a n Hm Ht Hh) as (s1 & s' & m' & -> & Eo & Em & H).
    cbn [mbind outcome_bind]. rewrite Eo, Em. by exists m'.
Qed.

End accuracy.

(** ** Opening a partition

    [PartitionFSM.Open] passes the metrics on to the storage it opens. The batches it then cuts off,
    which the raft log will replay, are not taken back from the latest offset gauge: until the next
    append the gauge shows an offset the partition does not have ([tr_latest]). *)

Definition fsm_Open_m (cfg : StorageConfig) (topic partitionID : string) (fs : files) (dur : Z) (p : PartitionFSM) (m : option StorageMetrics)
  : PartitionFSM * option StorageMetrics * outcome Z :=
  match Open_m cfg topic partitionID fs dur m with
  | Ok (s, m) =>
      let p := set_storage p s in
      match readSidecar (sidecar p) with
      | Err e => if errors_is e sNotExist then (p, m, Ok 0) else (p, m, Err e)
      | Ok side =>
          let '(p, r) :=
            if sLatestOffset side <? LatestOffset s then
              match TruncateTo cfg s (sLatestOffset side) with
              | Ok s' => (set_storage p s', Ok tt)
              | x => (p, failure x)
              end
            else (p, Ok tt) in
          match r with
          | Ok _ => (set_applied p (LastAppliedIndex side), m, Ok (LastAppliedIndex side))
          | x => (p, m, failure x)
          end
      | x => (p, m, failure x)
      end
  | x => (p, m, failure x)
  end.

Lemma fsm_Open_m_spec cfg topic partitionID fs dur p m s :
  Storage.Open fs cfg = Ok s -> exists crc,
  fsm_Open_m cfg topic partitionID fs dur p m = ((Partition.Open cfg fs p).1, recovered topic partitionID s dur crc m, (Partition.Open cfg fs p).2).
Proof.
  intros Eo. destruct (Open_m_Open cfg topic partitionID fs dur m s Eo) as (crc & Em). exists crc. unfold fsm_Open_m, Partition.Open. rewrite Em, Eo.
  destruct (readSidecar _) as [side|e|q|]; [|by destruct (errors_is e sNotExist)|done|done].
  destruct (sLatestOffset side <? LatestOffset s); [|done]. by destruct (TruncateTo cfg s (sLatestOffset side)) as [s'|e|q|].
Qed.

Lemma trunc_lo_le segs n offset lo : trunc_lo segs n offset = Ok lo -> (lo <= n)%nat.
Proof.
  induction n as [|n IH]; cbn [trunc_lo]; [intros [= <-]; lia|]. intros (seg & _ & H)%bind_Ok.
  destruct (offset <? baseOffset seg); [apply IH in H; lia|injection H as <-; lia].
Qed.

Lemma truncate_segments cfg s x s' : TruncateTo cfg s x = Ok s' -> len (segments s') <= len (segments s).
Proof.
  unfold TruncateTo. destruct (x =? nextOffset s); [by intros [= <-]|]. destruct (nextOffset s <? x); [done|].
  destruct (Z.eqb_spec (len (segments s)) 0) as [|Hne]; [by intros [= <-]|]. intros (lo & Hlo & H)%bind_Ok. apply bind_Ok in H as (seg & _ & H).
  apply bind_Ok in H as ([fs seg'] & _ & [= <-]). apply trunc_lo_le in Hlo. cbn [set_nextOffset set_segments segments].
  unfold len in *. rewrite length_app, length_take. cbn [length]. lia.
Qed.

(** A sidecar that was written when the log ended after [l]; [more] was appended later. A partition
    that was never updated has none, and an empty log. *)
Definition sidecar_at (side : option (list byte)) (off : Z) (l more : list (list byte)) : Prop :=
  side = None /\ more = [] \/ exists idx, in_u64 idx /\ side = Some (encodeSidecar idx (end_off off l)).

(** What opening gives: the log up to the sidecar's offset, with the same beginning and the default limits. *)
Lemma open_at cfg fs side s0 off l more :
  cfg_ok cfg -> Storage.Open fs cfg = Ok s0 -> represents cfg s0 off (l ++ more) -> sidecar_at side off l more ->
  exists p idx s1, Partition.Open cfg fs (NewPartitionFSM side) = (p, Ok idx) /\ storage p = Some s1 /\ represents cfg s1 off l /\
    len (segments s1) <= len (segments s0) /\ BrokerConfig.limits s1 = BrokerConfig.default_limits cfg.
Proof.
  intros Hcfg Eo Hrep Hside. assert (exists p idx s1, Partition.Open cfg fs (NewPartitionFSM side) = (p, Ok idx) /\ storage p = Some s1 /\ represents cfg s1 off l)
    as (p & idx & s1 & E & Es & Hrep1).
  { destruct Hside as [[-> ->]|(idx & Hi & ->)].
    - rewrite app_nil_r in Hrep. unfold Partition.Open. rewrite Eo. by eexists _, _, s0.
    - destruct (open_cuts cfg fs s0 off l more idx Hcfg Eo Hrep Hi) as (p & E & [(s1 & H1 & H2 & _) _ _]). by exists p, idx, s1. }
  exists p, idx, s1. split_and!; try done.
  - unfold Partition.Open in E. rewrite Eo in E. destruct (readSidecar _) as [sd|e|q|]; [|destruct (errors_is e sNotExist)|done|done].
    + destruct (sLatestOffset sd <? LatestOffset s0); [|injection E as <- <-; by injection Es as <-].
      destruct (TruncateTo cfg s0 (sLatestOffset sd)) as [s'|e|q|] eqn:Et; [|done..]. injection E as <- <-. injection Es as <-. by eapply truncate_segments.
    + injection E as <- <-. by injection Es as <-.
    + done.
  - pose proof (BrokerConfig.open_limits _ _ _ _ _ E) as H. unfold BrokerConfig.fsm_limits in H. rewrite Es in H. injection H as H1 H2. unfold BrokerConfig.limits. by rewrite H1, H2.
Qed.

(** ** A broker's storages *)

(** The storages of the partitions on a node, and the metrics they share. *)
Record node := { stores : gmap (string * string) storageImpl; shared : option StorageMetrics }.

(** A partition is opened on a directory and a sidecar, which may cut its log, or does an operation. *)
Inductive event :=
| EOpen (tp : string * string) (fs : files) (side : option (list byte)) (dur : Z)
| EDo (tp : string * string) (o : sop) (dur : Z).

Definition event_tp (e : event) : string * string := match e with EOpen tp _ _ _ => tp | EDo tp _ _ => tp end.

Definition node_step (cfg : StorageConfig) (n : node) (e : event) : node :=
  match e with
  | EOpen tp fs side dur =>
      let '(p, m, _) := fsm_Open_m cfg tp.1 tp.2 fs dur (NewPartitionFSM side) (shared n) in
      {| stores := match storage p with Some s => <[tp := s]> (stores n) | None => stores n end; shared := m |}
  | EDo tp o dur =>
      match stores n !! tp with
      | Some s =>
          let '(s, m, _) := do_op_m cfg tp.1 tp.2 s (shared n) o dur in
          {| stores := <[tp := s]> (stores n); shared := m |}
      | None => n
      end
  end.

Definition node_run (cfg : StorageConfig) (n : node) (evs : list event) : node := fold_left (node_step cfg) evs n.

(** The operations of one partition. *)
Definition ops_of (tp : string * string) (evs : list event) : list sop :=
  omap (fun e => match e with EDo tp' o _ => if bool_decide (tp' = tp) then Some o else None | _ => None end) evs.

(** [tp] is opened once, before these events. *)
Definition opened_before (tp : string * string) (evs : list event) : Prop := Forall (fun e => forall fs side d, e <> EOpen tp fs side d) evs.

(** *** The series of the other partitions *)

Section others.
Variables (cfg : StorageConfig) (topic partID : string) (tp' : string * string).
Abbreviation tp := (topic, partID).
Hypothesis Hne : tp' <> tp.

(** [f] keeps the metrics enabled and the series of [tp'] as they are. *)
Definition keeps (m : StorageMetrics) (m' : option StorageMetrics) : Prop :=
  exists m1, m' = Some m1 /\ enabled m1 /\ reading tp' m1 = reading tp' m.

Lemma keeps_same m : enabled m -> keeps m (Some m).
Proof. intros H. by exists m. Qed.

Lemma records_keep f g m m' : records tp f g -> keeps m (Some m') -> keeps m (f (Some m')).
Proof.
  intros Hr (m1 & [= <-] & He & E). destruct (Hr m' He) as (m2 & -> & He2 & _ & Hf). exists m2. split_and!; [done|done|by rewrite Hf].
Qed.

Lemma Open_keep fs dur m s m' : enabled m -> Open_m cfg topic partID fs dur (Some m) = Ok (s, m') -> keeps m m'.
Proof.
  intros He. unfold Open_m. destruct (recoverStorage fs cfg) as [[[[fs' segs] next] crc]|e|q|]; [|done..].
  intros [= <- <-]. exact (records_keep _ _ m m (recordRecovery_effect topic partID dur (len segs) _ next crc) (keeps_same m He)).
Qed.

Lemma fsm_Open_keep fs dur p m p' m' r : enabled m -> fsm_Open_m cfg topic partID fs dur p (Some m) = (p', m', r) -> keeps m m'.
Proof.
  intros He. unfold fsm_Open_m. destruct (Open_m cfg topic partID fs dur (Some m)) as [[s m1]|e|q|] eqn:E; [|intros [= <- <- <-]; by apply keeps_same..].
  pose proof (Open_keep _ _ _ _ _ He E) as Hk. destruct (readSidecar _) as [sd|e|q|]; [|destruct (errors_is e sNotExist); by intros [= <- <- <-]|by intros [= <- <- <-]..].
  destruct (sLatestOffset sd <? LatestOffset s); [|by intros [= <- <- <-]].
  destruct (TruncateTo cfg s (sLatestOffset sd)); by intros [= <- <- <-].
Qed.

Lemma op_keep s m o dur s' m' r : enabled m -> do_op_m cfg topic partID s (Some m) o dur = (s', m', r) -> keeps m m'.
Proof.
  intros He. pose proof (keeps_same m He) as Hk. destruct o as [b|x k|ms bytes|now|]; cbn [do_op_m].
  - pose proof (Append_m_spec cfg topic partID s (Some m) b dur) as Ha. destruct (Append cfg s b) as [s1 r1].
    destruct Ha as (m1 & -> & H1). intros [= <- <- <-]. destruct r1 as [z|e|q|]; [|by subst m1..].
    destruct H1 as (seg & rolled & _ & _ & ->). eapply records_keep; [apply appended_m_effect|done].
  - unfold Read_m. intros [= <- <- <-]. exact (records_keep _ _ m m (recordRead_effect topic partID dur) Hk).
  - by intros [= <- <- <-].
  - pose proof (EnforceRetention_m_spec topic partID s (Some m) (retentionMs s) (retentionBytes s) now) as Hr.
    destruct (EnforceRetention s _ _ _) as [s1 n1]. destruct Hr as (rs & Hrs & _ & ->). intros [= <- <- <-].
    destruct (recorded_effect topic partID rs Hrs) as (g & Hg & _). pose proof (records_keep _ _ _ _ Hg Hk) as Hk1.
    destruct (0 <? n1); [|done]. pose proof Hk1 as (m1 & E & _). rewrite E in *. eapply records_keep; [apply recordEarliestOffset_effect|done].
  - destruct (Close s) as [s1|e|q|]; cbn [mbind outcome_bind]; [|by intros [= <- <- <-]..].
    destruct (Open_m cfg topic partID (dir s1) dur (Some m)) as [[s2 m2]|e|q|] eqn:E; intros [= <- <- <-]; try done. by eapply Open_keep.
Qed.

Lemma node_keep n m e : event_tp e = tp -> shared n = Some m -> enabled m ->
  keeps m (shared (node_step cfg n e)) /\ stores (node_step cfg n e) !! tp' = stores n !! tp'.
Proof.
  intros Et Em He. destruct e as [tp0 fs side dur|tp0 o dur]; cbn in Et; subst tp0; cbn [node_step fst snd].
  - rewrite Em. destruct (fsm_Open_m cfg topic partID fs dur (NewPartitionFSM side) (Some m)) as [[p m1] r] eqn:E. cbn [shared stores].
    split; [by eapply fsm_Open_keep|]. destruct (storage p); [by rewrite lookup_insert_ne|done].
  - rewrite Em. destruct (stores n !! tp) as [s|]; [|rewrite Em; split; [by apply keeps_same|done]].
    destruct (do_op_m cfg topic partID s (Some m) o dur) as [[s1 m1] r] eqn:E. cbn [shared stores].
    split; [by eapply op_keep|by rewrite lookup_insert_ne].
Qed.
End others.

Lemma node_tracks T cfg tp before s0 r0 evs : cfg_ok cfg -> opened_before tp evs -> Forall (allowed T cfg) (ops_of tp evs) ->
  forall n m s ops a k, stores n !! tp = Some s -> shared n = Some m -> enabled m -> tracks before s0 s r0 (reading tp m) ops ->
    holds T cfg s a k -> fits T (k ++ appended (ops_of tp evs)) ->
    exists m', stores (node_run cfg n evs) !! tp = Some (run_ops cfg s (ops_of tp evs)).1 /\ shared (node_run cfg n evs) = Some m' /\
      tracks before s0 (run_ops cfg s (ops_of tp evs)).1 r0 (reading tp m') (ops ++ ops_of tp evs).
Proof.
  intros Hcfg Ho. induction Ho as [|e evs He _ IH]; intros Hall n m s ops a k Es Em Hen Ht Hh Hf.
  { exists m. cbn. by rewrite app_nil_r. }
  destruct (decide (event_tp e = tp)) as [E|E].
  - destruct e as [tp0 fs side d|tp0 o d]; cbn in E; subst tp0; [by destruct (He fs side d)|].
    assert (ops_of tp (EDo tp o d :: evs) = o :: ops_of tp evs) as Eo by (cbn; by rewrite bool_decide_eq_true_2).
    rewrite Eo in *. apply Forall_cons in Hall as [Ho Hall].
    change (o :: ops_of tp evs) with ([o] ++ ops_of tp evs) in Hf. unfold appended in Hf. rewrite omap_app, app_assoc in Hf.
    fold (appended [o]) (appended (ops_of tp evs)) in Hf. pose proof (fits_prefix _ _ _ Hf) as Hf1. destruct tp as [t p].
    destruct (do_op_tracks T cfg t p Hcfg before s0 r0 s m o d ops a k Hen Ht Hh Hf1) as (m1 & Ed & Hen1 & Ht1 & _).
    destruct (do_op_spec T cfg s a k o Hcfg Hh Ho Hf1) as (a1 & _ & Hh1).
    cbn [node_run fold_left node_step]. rewrite Es, Em. cbn [fst snd]. rewrite Ed.
    destruct (do_op cfg s o) as [s1 r] eqn:Edo. cbn [fst snd] in *.
    destruct (IH Hall {| stores := <[(t, p) := s1]> (stores n); shared := Some m1 |} m1 s1 _ a1 _ (lookup_insert_eq _ _ _) eq_refl Hen1 Ht1 Hh1 Hf) as (m' & H1 & H2 & H3).
    exists m'. unfold node_run in *. cbn [run_ops]. rewrite Edo. destruct (run_ops cfg s1 (ops_of (t, p) evs)) as [s2 rs]. cbn [fst] in *.
    split_and!; [done|done|]. rewrite <- app_assoc in H3. exact H3.
  - assert (ops_of tp (e :: evs) = ops_of tp evs) as Eo.
    { destruct e as [tp0 fs side d|tp0 o d]; [done|]. cbn in *. by rewrite bool_decide_eq_false_2. }
    rewrite Eo in *. destruct (event_tp e) as [t' p'] eqn:Ee.
    destruct (node_keep cfg t' p' tp ltac:(done) n m e Ee Em Hen) as ((m1 & Em1 & Hen1 & Er) & Est).
    rewrite <- Er in Ht. by apply (IH Hall (node_step cfg n e) m1 s ops a k); [rewrite Est| | | | |].
Qed.

(** C8: The metrics of the storage tell the truth about it. The storages of all partitions of a node share
    one set of metrics. A partition is opened with the sidecar of an earlier life, which cuts off
    what was appended after it, and then the partitions append, read, enforce retention, change
    the limits and reopen their storage, in any interleaving; where a time limit is in force
    batch timestamps do not go back. Then the partition's storage does exactly what it would
    do without metrics and without the others, and its series say: the earliest offset gauge is
    the storage's; so is the latest offset gauge, except that from the opening to the first
    append or reopening it still shows the offset before the cut; the batch and byte counters grew
    by what was appended; rolled minus deleted segments, the latter counted by reason, is the
    growth of the segment list; the active segment gauge is its size once something was
    appended. The segment count gauge is only a bound from above. *)
Theorem metrics_accurate cfg n m0 tp fs side dur s0 gone l more bs evs :
  cfg_ok cfg -> shared n = Some m0 -> enabled m0 ->
  Storage.Open fs cfg = Ok s0 -> represents cfg s0 (end_off 0 gone) (l ++ more) -> sidecar_at side (end_off 0 gone) l more ->
  gone ++ l = placed 0 bs -> opened_before tp evs -> let ops := ops_of tp evs in
  Forall wf_batch (bs ++ appended ops) -> (time_limited cfg ops -> StronglySorted ts_le (bs ++ appended ops)) -> counts (bs ++ appended ops) < 2 ^ 63 ->
  exists p idx s1 m, Partition.Open cfg fs (NewPartitionFSM side) = (p, Ok idx) /\ storage p = Some s1 /\ represents cfg s1 (end_off 0 gone) l /\
    let n' := node_run cfg n (EOpen tp fs side dur :: evs) in let s := (run_ops cfg s1 ops).1 in
    stores n' !! tp = Some s /\ shared n' = Some m /\ tracks (LatestOffset s0) s1 s (reading tp m0) (reading tp m) ops.
Proof.
  intros Hcfg Em Hen Eo Hrep Hside Hpl Hob ops Hwf Hts Hcnt. destruct tp as [t part].
  destruct (open_at cfg fs side s0 _ l more Hcfg Eo Hrep Hside) as (p & idx & s1 & Ep & Es1 & Hrep1 & Hlen & Hlim).
  destruct (fsm_Open_m_spec cfg t part fs dur (NewPartitionFSM side) (Some m0) s0 Eo) as (crc & Eom). rewrite Ep in Eom. cbn [fst snd] in Eom.
  destruct (recordRecovery_effect t part dur (len (segments s0)) (EarliestOffset s0) (LatestOffset s0) crc m0 Hen) as (m1 & E1 & Hen1 & Er & _).
  unfold recovered in Eom. rewrite E1 in Eom. cbn [node_run fold_left node_step]. rewrite Em. cbn [fst snd]. rewrite Eom, Es1.
  destruct (node_tracks (time_limited cfg ops) cfg (t, part) (LatestOffset s0) s1 (reading (t, part) m0) evs Hcfg Hob (time_allowed cfg ops)
    {| stores := <[(t, part) := s1]> (stores n); shared := Some m1 |} m1 s1 []
    {| gone := gone; kept := l; lim := BrokerConfig.default_limits cfg |} bs (lookup_insert_eq _ _ _) eq_refl Hen1) as (m & H1 & H2 & H3).
  - pose proof (represents_log _ _ _ _ Hrep) as (_ & _ & He & _). pose proof (represents_log _ _ _ _ Hrep1) as (_ & _ & He1 & _).
    rewrite Er. constructor; cbn -[reading]; unfold r_deleted; cbn -[reading]; try done.
    + congruence.
    + change (len (@nil (list byte))) with 0. lia.
    + change (len (@nil byte)) with 0. lia.
    + lia.
    + by eexists.
  - split_and!; [done|done|done|by left].
  - by split.
  - exists p, idx, s1, m. split_and!; done.
Qed.

(** ** Two partitions *)

Definition p0 : string * string := ("t", "0")%string.
Definition p1 : string * string := ("t", "1")%string.
Definition node0 : node := {| stores := ∅; shared := Some NewStorageMetrics |}.

Definition evs0 : list event :=
  [EOpen p1 ∅ None 9; EDo p0 (OAppend b0) 3; EDo p1 (OAppend b0) 3; EDo p0 (OAppend b0) 4; EDo p0 (ORead 0 10) 1;
   EDo p0 (OSetRetention 0 0) 0; EDo p0 (OTick 5) 0].

Definition look (n : node) (tp : string * string) : option (readings * Z) :=
  m ← shared n; s ← stores n !! tp; Some (reading tp m, len (segments s)).

Lemma new_enabled : enabled NewStorageMetrics.
Proof. repeat split; by eexists. Qed.

(** Opened after one batch with a sidecar from before it, which cuts it off: the gauge still says 2. *)
Definition cut0 : node := node_run cfg0 node0 [EOpen p0 (dir st1) (Some (encodeSidecar 7 0)) 7].

(** A segment was rolled and deleted again: the counters say so, and the segment count gauge still
    says two where one is left. *)
Lemma metrics_accurate_witness :
  look (node_run cfg0 cut0 evs0) p0 =
    Some ({| r_bytes := 118; r_batches := 2; r_rolled := 1; r_by_bytes := 1; r_by_time := 0; r_active := Some 0; r_count := Some 2;
             r_earliest := Some 4; r_latest := Some 4; r_appends := 2; r_reads := 1; r_recoveries := 1 |}, 1) /\
  (r_latest <$> (fst <$> look cut0 p0)) = Some (Some 2) /\
  exists p idx s1 m, Partition.Open cfg0 (dir st1) (NewPartitionFSM (Some (encodeSidecar 7 0))) = (p, Ok idx) /\ storage p = Some s1 /\
    represents cfg0 s1 0 [] /\ shared (node_run cfg0 cut0 evs0) = Some m /\
    tracks 2 s1 (run_ops cfg0 s1 (ops_of p0 evs0)).1 (reading p0 NewStorageMetrics) (reading p0 m) (ops_of p0 evs0).
Proof.
  split; [vm_compute; reflexivity|]. split; [vm_compute; reflexivity|].
  destruct (reopen_represents cfg0 st1 0 _ cfg0_ok (proj1 st1_ok)) as (s & Eo & Hrep).
  assert (LatestOffset s = 2) as El by (pose proof (represents_log _ _ _ _ Hrep) as (_ & -> & _); vm_compute; reflexivity).
  destruct (metrics_accurate cfg0 node0 NewStorageMetrics p0 (dir st1) (Some (encodeSidecar 7 0)) 7 s [] [] [b0_at 0] [] evs0)
    as (p & idx & s1 & m & H1 & H2 & H3 & H4 & H5 & H6).
  - exact cfg0_ok.
  - reflexivity.
  - exact new_enabled.
  - exact Eo.
  - exact Hrep.
  - right. exists 7. split; [vm_compute; split; congruence|reflexivity].
  - reflexivity.
  - repeat (constructor; [intros; discriminate|]). constructor.
  - exact (b0s_wf 2).
  - intros _. repeat constructor. unfold ts_le. reflexivity.
  - vm_compute. reflexivity.
  - rewrite El in H6. exists p, idx, s1, m. split; [exact H1|]. split; [exact H2|]. split; [exact H3|]. split; [exact H5|exact H6].
Defined.

End StorageMetrics.
