(* ===== verification/RaftMetrics.v ===== *)
(** * The metrics of raft

    internal/cluster/metrics.go; metrics.go of the cluster coordinator; what the coordinator's
    proposals and its leader sweep record (cluster.go), and what the metadata state machine records
    (internal/metadata/metadata.go). The coordinator's programs are those of [ClusterCoord], with the
    recording between their requests; under every handler of the requests they do the same as
    without it. The leader gauges are a copy of the table of known leaders, and the counter of leader
    changes counts the changes of that table.

    Vectors are those of [StorageMetrics]; of a histogram only the number of observations is kept. *)

From S2P Require Import Prelude Segment Keys Json Metadata Prog MetaJson StorageExamples Partition DataCoord ClusterCoord ClusterPlace DataRun ClusterRun ClusterServe StorageMetrics.
Local Open Scope Z_scope.

Module RaftMetrics.
Import Keys Metadata ClusterCoord.

Record RaftMetrics := {
  CommittedIndex : option (gmap (list string) Z);
  AppliedIndex : option (gmap (list string) Z);
  IsLeader : option (gmap (list string) Z);
  Term : option (gmap (list string) Z);
  ProposeDuration : option (gmap (list string) Z);
  SnapshotSaveDuration : option (gmap (list string) Z);
  SnapshotRecoverDuration : option (gmap (list string) Z);
  LeaderChangesTotal : option (gmap (list string) Z);
  FSMUpdateDuration : option (gmap (list string) Z)
}.

Definition NewRaftMetrics : RaftMetrics :=
  {| CommittedIndex := Some ∅; AppliedIndex := Some ∅; IsLeader := Some ∅; Term := Some ∅; ProposeDuration := Some ∅;
     SnapshotSaveDuration := Some ∅; SnapshotRecoverDuration := Some ∅; LeaderChangesTotal := Some ∅; FSMUpdateDuration := Some ∅ |}.

Definition NoopRaftMetrics : RaftMetrics :=
  {| CommittedIndex := None; AppliedIndex := None; IsLeader := None; Term := None; ProposeDuration := None;
     SnapshotSaveDuration := None; SnapshotRecoverDuration := None; LeaderChangesTotal := None; FSMUpdateDuration := None |}.

Definition Inc := StorageMetrics.Inc.
Definition Set_ := StorageMetrics.Set_.
Abbreviation series := StorageMetrics.series.
Abbreviation read_vec := StorageMetrics.read_vec.

(** ** The coordinator's programs with their recording *)

Inductive meteredE : Type -> Type :=
| MReq {X} (e : clusterE X) : meteredE X
| MRecord (f : RaftMetrics -> RaftMetrics) : meteredE unit.

Abbreviation mprog := (prog meteredE).

Definition metadataShardLabel : string := "0".

Definition observe_propose (shard acks : string) (m : RaftMetrics) : RaftMetrics :=
  {| CommittedIndex := CommittedIndex m; AppliedIndex := AppliedIndex m; IsLeader := IsLeader m; Term := Term m;
     ProposeDuration := Inc [shard; acks] <$> ProposeDuration m;
     SnapshotSaveDuration := SnapshotSaveDuration m; SnapshotRecoverDuration := SnapshotRecoverDuration m;
     LeaderChangesTotal := LeaderChangesTotal m; FSMUpdateDuration := FSMUpdateDuration m |}.

Definition syncProposeMetadata (cmd : MetadataCommand) : mprog (outcome Result) :=
  result ← trigger (MReq (CPropose cmd));
  _ ← trigger (MRecord (observe_propose metadataShardLabel "all"));
  Ret result.

Definition proposePartition (shardID : Z) (cmd : Partition.PartitionCommand) : mprog (outcome unit) :=
  err ← trigger (MReq (CProposePartition shardID cmd));
  _ ← trigger (MRecord (observe_propose (fmt_d shardID) "zero"));
  Ret err.

(** Every proposal of the coordinator goes through one of these two. *)
Definition meter_req {X} (e : clusterE X) : mprog X :=
  match e in clusterE X return mprog X with
  | CPropose cmd => syncProposeMetadata cmd
  | CProposePartition shard cmd => proposePartition shard cmd
  | e => trigger (MReq e)
  end.

Fixpoint meter {A} (p : cprog A) : mprog A :=
  match p with
  | Ret a => Ret a
  | Vis e k => x ← meter_req e; meter (k x)
  end.

(** What the sweep records of a new leader. *)
Definition record_leader (config : CoordinatorConfig) (shardID leaderID term : Z) (m : RaftMetrics) : RaftMetrics :=
  let shardStr := fmt_d shardID in
  {| CommittedIndex := CommittedIndex m; AppliedIndex := AppliedIndex m;
     IsLeader := Set_ [shardStr] (if leaderID =? ccNodeID config then 1 else 0) <$> IsLeader m;
     Term := Set_ [shardStr] term <$> Term m;
     ProposeDuration := ProposeDuration m;
     SnapshotSaveDuration := SnapshotSaveDuration m; SnapshotRecoverDuration := SnapshotRecoverDuration m;
     LeaderChangesTotal := Inc [shardStr] <$> LeaderChangesTotal m; FSMUpdateDuration := FSMUpdateDuration m |}.

Section programs.
Variable config : CoordinatorConfig.

Definition sweep_shard_m (shardID : Z) (info : shardInfo) : mprog unit :=
  r ← trigger (MReq (CGetLeaderID shardID));
  match r with
  | Ok (leaderID, term, true) =>
      known ← trigger (MReq CLeaders);
      let last := default zeroRecord (known !! shardID) in
      if (leaderID =? lr_nodeID last) && (term =? lr_term last) then Ret tt else
      p ← syncProposeMetadata (CmdAssignPartitionLeader (Some
             {| al_Topic := si_Topic info; al_PartitionID := si_PartitionID info; al_LeaderNodeID := leaderID;
                al_LeaderEpoch := i64 term |}));
      match p with
      | Ok _ =>
          _ ← trigger (MRecord (record_leader config shardID leaderID term));
          trigger (MReq (CSetLeaders (fun m => <[shardID := {| lr_nodeID := leaderID; lr_term := term |}]> m)))
      | _ => Ret tt
      end
  | _ => Ret tt
  end.

Fixpoint sweep_shards_m (shards : running_shards) (ids : list Z) : mprog unit :=
  match ids with
  | [] => Ret tt
  | id :: ids' =>
      match shards !! id with
      | Some info => _ ← sweep_shard_m id info; sweep_shards_m shards ids'
      | None => sweep_shards_m shards ids'
      end
  end.

Definition sweepLeaders_m : mprog (outcome unit) :=
  shards ← trigger (MReq CRunning);
  ids ← trigger (MReq (COrder (map_to_list shards).*1));
  _ ← sweep_shards_m shards ids;
  Ret (Ok tt).

End programs.

(** ** Recording changes nothing else *)

Section transparent.
Context {W : Type}.
Variable h : forall X, clusterE X -> W -> X * W.

(** Requests go to [h]; recording changes the metrics. *)
Definition metered X (e : meteredE X) : W * RaftMetrics -> X * (W * RaftMetrics) :=
  match e in meteredE X return W * RaftMetrics -> X * (W * RaftMetrics) with
  | MReq e => fun s => let '(x, w) := h _ e s.1 in (x, (w, s.2))
  | MRecord f => fun s => (tt, (s.1, f s.2))
  end.

(** [q] does on the requests what [p] does. *)
Definition same {A} (q : mprog A) (p : cprog A) : Prop :=
  forall w m, exists m', run metered q (w, m) = ((run h p w).1, ((run h p w).2, m')).

Lemma same_ret {A} (a : A) : same (Ret a) (Ret a).
Proof. intros w m. by exists m. Qed.

Lemma same_bind {A B} (q : mprog A) p (g : A -> mprog B) f :
  same q p -> (forall a, same (g a) (f a)) -> same (q ≫= g) (p ≫= f).
Proof.
  intros Hq Hg w m. rewrite !run_bind. destruct (Hq w m) as (m1 & ->). destruct (run h p w) as [a w1]. apply Hg.
Qed.

Lemma same_req {X} (e : clusterE X) : same (trigger (MReq e)) (trigger e).
Proof. intros w m. rewrite !run_trigger. cbn [metered fst snd]. destruct (h X e w). by exists m. Qed.

(** Recording before the rest. *)
Lemma same_record {A} f (q : mprog A) p : same q p -> same (_ ← trigger (MRecord f); q) p.
Proof. intros H w m. rewrite run_bind, run_trigger. cbn [metered fst snd]. apply H. Qed.

Lemma same_syncPropose cmd : same (syncProposeMetadata cmd) (trigger (CPropose cmd)).
Proof.
  intros w m. unfold syncProposeMetadata. rewrite run_bind, !run_trigger. cbn [metered fst snd]. destruct (h _ _ w) as [x w'].
  rewrite run_bind, run_trigger. by eexists.
Qed.

Lemma same_proposePartition shard cmd : same (proposePartition shard cmd) (trigger (CProposePartition shard cmd)).
Proof.
  intros w m. unfold proposePartition. rewrite run_bind, !run_trigger. cbn [metered fst snd]. destruct (h _ _ w) as [x w'].
  rewrite run_bind, run_trigger. by eexists.
Qed.

Lemma same_meter {A} (p : cprog A) : same (meter p) p.
Proof.
  induction p as [a|X e k IH]; [apply same_ret|]. change (Vis e k) with (trigger e ≫= k). cbn [meter].
  apply same_bind; [|exact IH]. destruct e; first [apply same_syncPropose|apply same_proposePartition|apply same_req].
Qed.

Lemma same_sweep_shard config shardID info : same (sweep_shard_m config shardID info) (sweep_shard shardID info).
Proof.
  unfold sweep_shard_m, sweep_shard. apply same_bind; [apply same_req|]. intros [[[l t] [|]]|e|q|]; try apply same_ret.
  apply same_bind; [apply same_req|]. intros known. cbv zeta. destruct (_ && _); [apply same_ret|].
  apply same_bind; [apply same_syncPropose|]. intros [r|e|q|]; try apply same_ret. apply same_record, same_req.
Qed.

Lemma same_sweepLeaders config : same (sweepLeaders_m config) sweepLeaders.
Proof.
  unfold sweepLeaders_m, sweepLeaders. apply same_bind; [apply same_req|]. intros shards. apply same_bind; [apply same_req|]. intros ids.
  apply same_bind; [|intros; apply same_ret]. induction ids as [|id ids IH]; cbn [sweep_shards_m sweep_shards]; [apply same_ret|].
  destruct (shards !! id) as [info|]; [|exact IH]. apply same_bind; [apply same_sweep_shard|done].
Qed.

(** *** Proposals are counted *)

(** The proposals to the metadata that a program makes. *)
Fixpoint proposals {A} (p : cprog A) (w : W) : Z :=
  match p with
  | Ret _ => 0
  | Vis e k => let '(x, w') := h _ e w in (match e with CPropose _ => 1 | _ => 0 end) + proposals (k x) w'
  end.

(** Two metrics that differ in the proposals only. *)
Definition only_proposals (m m' : RaftMetrics) : Prop :=
  CommittedIndex m' = CommittedIndex m /\ AppliedIndex m' = AppliedIndex m /\ IsLeader m' = IsLeader m /\ Term m' = Term m /\
  LeaderChangesTotal m' = LeaderChangesTotal m /\ FSMUpdateDuration m' = FSMUpdateDuration m /\
  (is_Some (ProposeDuration m) -> is_Some (ProposeDuration m')).

Definition proposed (m : RaftMetrics) : Z := read_vec (ProposeDuration m) [metadataShardLabel; "all"%string].

Lemma observe_only shard acks m : only_proposals m (observe_propose shard acks m).
Proof. repeat split; try done. cbn. by intros [v ->]. Qed.

Lemma only_proposals_trans m1 m2 m3 : only_proposals m1 m2 -> only_proposals m2 m3 -> only_proposals m1 m3.
Proof. unfold only_proposals. intuition congruence. Qed.

Lemma observe_count shard acks m : is_Some (ProposeDuration m) ->
  proposed (observe_propose shard acks m) = proposed m + (if String.eqb shard metadataShardLabel && String.eqb acks "all" then 1 else 0).
Proof.
  intros [v E]. unfold proposed, observe_propose, Inc, StorageMetrics.Inc, StorageMetrics.read_vec. cbn. rewrite E. cbn.
  destruct (String.eqb_spec shard metadataShardLabel) as [->|H1]; cbn [andb]; [destruct (String.eqb_spec acks "all") as [->|H2]|].
  - by rewrite lookup_insert_eq.
  - rewrite lookup_insert_ne by congruence. lia.
  - rewrite lookup_insert_ne by congruence. lia.
Qed.

Lemma meter_keeps {A} (p : cprog A) w m : exists m', run metered (meter p) (w, m) = ((run h p w).1, ((run h p w).2, m')) /\ only_proposals m m'.
Proof.
  revert w m. induction p as [a|X e k IH]; intros w m; [exists m; split; [done|repeat split; done]|]. cbn [meter run]. rewrite run_bind.
  assert (exists m1, run metered (meter_req e) (w, m) = ((h X e w).1, ((h X e w).2, m1)) /\ only_proposals m m1) as (m1 & -> & Ho).
  { destruct e; cbn [meter_req]; unfold syncProposeMetadata, proposePartition; rewrite ?run_bind, run_trigger; cbn [metered fst snd]; destruct (h _ _ w) as [x w'];
      rewrite ?run_bind, ?run_trigger; cbn [metered fst snd run]; eexists; (split; [done|]); first [apply observe_only|repeat split; done]. }
  destruct (h X e w) as [x w']. cbn [fst snd]. destruct (IH x w' m1) as (m2 & -> & Ho2). exists m2. split; [done|by eapply only_proposals_trans].
Qed.

Lemma meter_counts {A} (p : cprog A) w m : is_Some (ProposeDuration m) ->
  exists m', run metered (meter p) (w, m) = ((run h p w).1, ((run h p w).2, m')) /\
    only_proposals m m' /\ proposed m' = proposed m + proposals p w.
Proof.
  revert w m. induction p as [a|X e k IH]; intros w m Hm; [exists m; split_and!; [done|repeat split; done|cbn; lia]|].
  cbn [meter run proposals]. rewrite run_bind.
  assert (exists m1, run metered (meter_req e) (w, m) = ((h X e w).1, ((h X e w).2, m1)) /\ only_proposals m m1 /\
    proposed m1 = proposed m + (match e with CPropose _ => 1 | _ => 0 end)) as (m1 & -> & Ho & Hc).
  { destruct e; cbn [meter_req];
      try (exists m; rewrite run_trigger; cbn [metered fst snd]; destruct (h _ _ w); split_and!; [done|repeat split; done|lia]).
    - unfold syncProposeMetadata. rewrite run_bind, run_trigger. cbn [metered fst snd]. destruct (h _ _ w) as [x w']. rewrite run_bind, run_trigger.
      eexists. split; [done|]. cbn [fst snd]. split; [apply observe_only|by rewrite observe_count].
    - unfold proposePartition. rewrite run_bind, run_trigger. cbn [metered fst snd]. destruct (h _ _ w) as [x w']. rewrite run_bind, run_trigger.
      eexists. split; [done|]. cbn [fst snd]. split; [apply observe_only|rewrite observe_count by done; rewrite andb_false_r; lia]. }
  destruct (h X e w) as [x w']. cbn [fst snd]. destruct (IH x w' m1) as (m2 & -> & Ho2 & Hc2); [by apply Ho|].
  exists m2. split_and!; [done|by eapply only_proposals_trans|]. rewrite Hc2, Hc. destruct e; lia.
Qed.

End transparent.

(** ** The leader gauges *)

(** A handler with a table of known leaders: two requests read and write it, the others leave it
    alone, and a map is iterated in any order. *)
Class LeaderTable {W} (h : forall X, clusterE X -> W -> X * W) (lead : W -> known_leaders) : Prop := {
  lt_get : forall w, (h _ CLeaders w).1 = lead w;
  lt_set : forall f w, lead (h _ (CSetLeaders f) w).2 = f (lead w);
  lt_order : forall keys w, (h _ (COrder keys) w).1 ≡ₚ keys;
  lt_keep : forall X (e : clusterE X) w, match e with CSetLeaders _ => False | _ => True end -> lead (h X e w).2 = lead w
}.

(** The node of [ClusterRun] has one. *)
#[export] Instance node_table cfg unmarshal config leader : LeaderTable (ClusterRun.handle cfg unmarshal config leader) ClusterRun.c_leaders.
Proof.
  constructor; try done. intros X e w He. destruct e; try done; cbn [ClusterRun.handle].
  - by destruct (Update _ _) as [[s r]|err|q|].
  - by destruct (DataRun.propose _ _ _ _ _).
  - unfold ClusterRun.start_shard. destruct (_ !! shard); [done|]. by destruct (Partition.Open _ _ _) as [p [i|err|q|]].
  - unfold ClusterRun.stop_shard. by destruct (_ !! shard).
  - by destruct (DataRun.handle _ _ _ _ _).
Qed.

Definition leader_enabled (m : RaftMetrics) : Prop := is_Some (Term m) /\ is_Some (IsLeader m) /\ is_Some (LeaderChangesTotal m).

(** The series of a shard, where it has them: term, whether this node leads, and the number of changes. *)
Definition leader_reading (m : RaftMetrics) (shard : Z) : option Z * option Z * option Z :=
  (series (Term m) [fmt_d shard], series (IsLeader m) [fmt_d shard], series (LeaderChangesTotal m) [fmt_d shard]).
Definition changes (m : RaftMetrics) (shard : Z) : Z := default 0 (leader_reading m shard).2.

Definition leads (config : CoordinatorConfig) (r : leaderRecord) : Z := if lr_nodeID r =? ccNodeID config then 1 else 0.

Lemma fmt_u64_inj a b : in_u64 a -> in_u64 b -> fmt_d a = fmt_d b -> a = b.
Proof.
  unfold in_u64. intros Ha Hb E. assert (2 ^ 64 < 10 ^ 21) by done.
  pose proof (parse_fmt_d a ltac:(lia)) as H1. pose proof (parse_fmt_d b ltac:(lia)) as H2. rewrite E in H1. congruence.
Qed.

Lemma record_leader_reading config id l t m : leader_enabled m ->
  let m' := record_leader config id l t m in
  leader_enabled m' /\ leader_reading m' id = (Some t, Some (leads config {| lr_nodeID := l; lr_term := t |}), Some (changes m id + 1)) /\
  forall sh, in_u64 sh -> in_u64 id -> sh <> id -> leader_reading m' sh = leader_reading m sh.
Proof.
  intros ([v1 E1] & [v2 E2] & [v3 E3]). cbv zeta. unfold leader_enabled, changes, leader_reading, record_leader, Inc, Set_, StorageMetrics.Inc, StorageMetrics.Set_, StorageMetrics.series.
  cbn. rewrite E1, E2, E3. cbn. rewrite !lookup_insert_eq. split_and!; try (by eexists). intros sh Hs Hi Hne.
  rewrite !lookup_insert_ne; [done|..]; intros [= E]; by apply Hne, fmt_u64_inj.
Qed.

Section sweeps.
Context {W : Type} (h : forall X, clusterE X -> W -> X * W) (lead : W -> known_leaders) `{!LeaderTable h lead}.
Variable config : CoordinatorConfig.

(** What the visit of a shard leaves: all as it was, or a new record of the leader. *)
Definition visited (id : Z) (w : W) (m : RaftMetrics) (w' : W) (m' : RaftMetrics) : Prop :=
  leader_enabled m' /\
  ((lead w' = lead w /\ forall sh, leader_reading m' sh = leader_reading m sh) \/
   exists r, lead w' = <[id := r]> (lead w) /\ lead w !! id <> Some r /\
     leader_reading m' id = (Some (lr_term r), Some (leads config r), Some (changes m id + 1)) /\
     forall sh, in_u64 sh -> in_u64 id -> sh <> id -> leader_reading m' sh = leader_reading m sh).

Lemma visit id info w m : leader_enabled m ->
  exists w' m', run (metered h) (sweep_shard_m config id info) (w, m) = (tt, (w', m')) /\ visited id w m w' m'.
Proof.
  intros Hm. unfold sweep_shard_m. rewrite run_bind, run_trigger. cbn [metered fst snd].
  pose proof (lt_keep _ (CGetLeaderID id) w I) as K1. destruct (h _ (CGetLeaderID id) w) as [x w1]. cbn [fst snd] in *.
  assert (visited id w m w1 m) as Hv by (split; [done|left; done]).
  destruct x as [[[l t] [|]]|e|q|]; try (by exists w1, m).
  rewrite run_bind, run_trigger. cbn [metered fst snd]. pose proof (lt_get w1) as G. pose proof (lt_keep _ CLeaders w1 I) as K2.
  destruct (h _ CLeaders w1) as [known w2]. cbn [fst snd] in *. subst known. rewrite K1 in K2. rewrite K1. set (last := default _ _).
  destruct ((l =? lr_nodeID last) && (t =? lr_term last)) eqn:El; [exists w2, m; split; [done|split; [done|left; done]]|].
  rewrite run_bind. unfold syncProposeMetadata. rewrite run_bind, run_trigger. cbn [metered fst snd]. set (cmd := CmdAssignPartitionLeader _).
  pose proof (lt_keep _ (CPropose cmd) w2 I) as K3. destruct (h _ (CPropose cmd) w2) as [p w3]. cbn [fst snd] in *. rewrite run_bind, run_trigger.
  cbn [metered fst snd run]. set (m3 := observe_propose _ _ m).
  assert (leader_enabled m3 /\ forall sh, leader_reading m3 sh = leader_reading m sh) as [Hm3 R3] by done.
  destruct p as [res|e|q|]; try (exists w3, m3; split; [done|split; [done|left; split; [congruence|done]]]).
  rewrite run_bind, run_trigger. cbn [metered fst snd]. rewrite run_trigger. cbn [metered fst snd]. set (f := fun k : known_leaders => _).
  pose proof (lt_set f w3) as S. destruct (h _ (CSetLeaders f) w3) as [[] w4]. cbn [fst snd] in *.
  destruct (record_leader_reading config id l t m3 Hm3) as (H1 & H2 & H3).
  exists w4, (record_leader config id l t m3). split; [done|]. split; [done|]. right. exists {| lr_nodeID := l; lr_term := t |}.
  split; [rewrite S; unfold f; congruence|]. split; [|split; [rewrite H2; unfold changes; by rewrite R3|intros sh Hs Hi Hne; by rewrite H3, R3]].
  intros E. unfold last in El. rewrite E in El. cbn in El. by rewrite !Z.eqb_refl in El.
Qed.

(** The gauges agree with the table. *)
Definition gauges_ok (k : known_leaders) (m : RaftMetrics) : Prop :=
  forall sh, in_u64 sh -> match k !! sh with Some r => (leader_reading m sh).1 = (Some (lr_term r), Some (leads config r)) | None => leader_reading m sh = (None, None, None) end.

Definition changed (k k' : known_leaders) (sh : Z) : Z := if bool_decide (k' !! sh = k !! sh) then 0 else 1.

Lemma sweep_shards_leads shs ids w m :
  leader_enabled m -> NoDup ids -> Forall in_u64 ids ->
  exists w' m', run (metered h) (sweep_shards_m config shs ids) (w, m) = (tt, (w', m')) /\ leader_enabled m' /\
    (gauges_ok (lead w) m -> gauges_ok (lead w') m') /\ (forall sh, sh ∉ ids -> lead w' !! sh = lead w !! sh) /\
    (forall sh, in_u64 sh -> changes m' sh = changes m sh + changed (lead w) (lead w') sh).
Proof.
  revert w m. induction ids as [|id ids IH]; intros w m Hm Hd Hu; cbn [sweep_shards_m].
  { exists w, m. split_and!; try done. intros sh _. unfold changed. rewrite bool_decide_eq_true_2 by done. lia. }
  apply NoDup_cons in Hd as [Hn Hd]. apply Forall_cons in Hu as [Hid Hu]. destruct (shs !! id) as [info|].
  2: { destruct (IH w m Hm Hd Hu) as (w' & m' & H1 & H2 & H3 & H4 & H5). exists w', m'. split_and!; try done. intros sh [_ H]%not_elem_of_cons. auto. }
  rewrite run_bind. destruct (visit id info w m Hm) as (w1 & m1 & -> & Hm1 & Hv).
  destruct (IH w1 m1 Hm1 Hd Hu) as (w' & m' & -> & H2 & H3 & H4 & H5). exists w', m'. split_and!; try done.
  - intros Hg. apply H3. destruct Hv as [[E R]|(r & E & _ & R1 & R2)]; rewrite E; intros sh Hs; [rewrite R; by apply Hg|].
    destruct (decide (sh = id)) as [->|Hne]; [by rewrite lookup_insert_eq, R1|]. rewrite lookup_insert_ne, R2 by done. by apply Hg.
  - intros sh [Hne Hnin]%not_elem_of_cons. rewrite H4 by done. destruct Hv as [[-> _]|(r & -> & _)]; [done|]. by rewrite lookup_insert_ne.
  - intros sh Hs. rewrite H5 by done. destruct Hv as [[E R]|(r & E & Hr & R1 & R2)]; rewrite ?E; [unfold changes; by rewrite R|]. unfold changed, changes.
    destruct (decide (sh = id)) as [->|Hne].
    + rewrite (H4 id Hn), E, R1, lookup_insert_eq. cbn [snd]. fold (changes m id). cbn [default from_option]. unfold Datatypes.id. rewrite (bool_decide_eq_true_2 (Some r = Some r)) by done.
      rewrite bool_decide_eq_false_2 by congruence. lia.
    + by rewrite lookup_insert_ne, R2.
Qed.

End sweeps.

(** ** Histories of a coordinator *)

Section histories.
Context {W : Type} (lead : W -> known_leaders).
Variable config : CoordinatorConfig.

(** The coordinator's goroutines and calls, with what they record, and the steps of others. Raft may
    report different leaders in every sweep, and proposals may fail. *)
Inductive history : list known_leaders -> W -> RaftMetrics -> Prop :=
| HStart w : lead w = ∅ -> history [∅] w NewRaftMetrics
| HSweep h ks w m w' m' r :
    history ks w m -> LeaderTable h lead -> (forall sh, is_Some ((h _ CRunning w).1 !! sh) -> in_u64 sh) ->
    run (metered h) (sweepLeaders_m config) (w, m) = (r, (w', m')) -> history (lead w' :: ks) w' m'
| HCall A h ks w m (p : cprog A) r w' m' :
    history ks w m -> lead w' = lead w -> run (metered h) (meter p) (w, m) = (r, (w', m')) -> history (lead w' :: ks) w' m'
| HOther ks w m w' : history ks w m -> lead w' = lead w -> history (lead w' :: ks) w' m.

(** How often the record of a shard changed; the newest table is the first. *)
Fixpoint transitions (sh : Z) (ks : list known_leaders) : Z :=
  match ks with
  | k' :: (k :: _) as ks' => changed k k' sh + transitions sh ks'
  | _ => 0
  end.

Lemma history_head ks w m : history ks w m -> exists ks', ks = lead w :: ks'.
Proof. intros []; eexists; [by rewrite H|done..]. Qed.

Lemma transitions_cons sh k ks w m : history ks w m -> transitions sh (k :: ks) = changed (lead w) k sh + transitions sh ks.
Proof. intros (ks' & ->)%history_head. done. Qed.

Lemma unchanged sh k : changed k k sh = 0.
Proof. unfold changed. by rewrite bool_decide_eq_true_2. Qed.

Lemma sweep_leads h w m w' m' r : LeaderTable h lead -> (forall sh, is_Some ((h _ CRunning w).1 !! sh) -> in_u64 sh) -> leader_enabled m ->
  run (metered h) (sweepLeaders_m config) (w, m) = (r, (w', m')) ->
  leader_enabled m' /\ (gauges_ok config (lead w) m -> gauges_ok config (lead w') m') /\
  forall sh, in_u64 sh -> changes m' sh = changes m sh + changed (lead w) (lead w') sh.
Proof.
  intros Ht Hu Hm. unfold sweepLeaders_m. rewrite run_bind, run_trigger. cbn [metered fst snd].
  pose proof (lt_keep _ CRunning w I) as K1. destruct (h _ CRunning w) as [shs w1]. cbn [fst snd] in *.
  rewrite run_bind, run_trigger. cbn [metered fst snd]. pose proof (lt_keep _ (COrder (map_to_list shs).*1) w1 I) as K2.
  pose proof (lt_order (map_to_list shs).*1 w1) as P. destruct (h _ (COrder _) w1) as [ids w2]. cbn [fst snd] in *. rewrite run_bind.
  destruct (sweep_shards_leads h lead config shs ids w2 m Hm) as (w3 & m3 & -> & H1 & H2 & _ & H3).
  - rewrite P. apply NoDup_fst_map_to_list.
  - rewrite P. apply Forall_forall. intros sh Hin. apply Hu. apply list_elem_of_fmap in Hin as ([k v] & -> & Hk%elem_of_map_to_list). by eexists.
  - cbn [run]. intros [= _ <- <-]. rewrite K2, K1 in *. done.
Qed.

(** C26: The leader gauges are a copy of the coordinator's table of leaders. In every history of leader sweeps, with
    whatever raft reports and however the proposals end, and of the coordinator's other calls: for
    a shard with a known leader the term gauge is the term last recorded and the leader gauge says
    whether this node leads; a shard never seen has no series; and the counter of leader changes has
    counted exactly the changes of the table. *)
Theorem leader_gauges ks w m :
  history ks w m -> gauges_ok config (lead w) m /\ forall sh, in_u64 sh -> changes m sh = transitions sh ks.
Proof.
  intros H. enough (leader_enabled m /\ gauges_ok config (lead w) m /\ forall sh, in_u64 sh -> changes m sh = transitions sh ks) by tauto.
  induction H as [w E|h ks w m w' m' r Hh (Hm & Hg & Hc) Ht Hu Er|A h ks w m p r w' m' Hh (Hm & Hg & Hc) El Er|ks w m w' Hh (Hm & Hg & Hc) El].
  - split_and!; [by repeat split; eexists| |done]. intros sh _. by rewrite E, lookup_empty.
  - destruct (sweep_leads h w m w' m' r Ht Hu Hm Er) as (H1 & H2 & H3). split_and!; [done|by apply H2|].
    intros sh Hs. rewrite H3, Hc by done. rewrite (transitions_cons _ _ _ _ _ Hh). lia.
  - destruct (meter_keeps h p w m) as (m1 & E1 & (_ & _ & L1 & L2 & L3 & _)). rewrite E1 in Er. injection Er as _ _ <-.
    assert (forall sh, leader_reading m1 sh = leader_reading m sh) as R by (intros sh; unfold leader_reading; by rewrite L1, L2, L3).
    split_and!; [unfold leader_enabled; by rewrite L1, L2, L3|rewrite El; intros sh Hs; rewrite R; by apply Hg|].
    intros sh Hs. unfold changes in *. by rewrite R, (transitions_cons _ _ _ _ _ Hh), El, unchanged, Hc.
  - split_and!; [done|by rewrite El|]. intros sh Hs. by rewrite (transitions_cons _ _ _ _ _ Hh), El, unchanged, Hc.
Qed.

End histories.

(** ** The metadata state machine

    [metadataFSMMetrics] takes the series of one shard out of the vectors; an observer that was
    taken from a nil vector is nil and skipped. *)

Record MetadataFSMMetrics := {
  fm_label : string;
  fm_FSMUpdateDuration : bool;
  fm_SnapshotSaveDuration : bool;
  fm_SnapshotRecoverDuration : bool;
  fm_CommittedIndex : bool;
  fm_AppliedIndex : bool
}.

Definition present {A} (o : option A) : bool := match o with Some _ => true | None => false end.

Definition metadataFSMMetrics (m : option RaftMetrics) (shardLabel : string) : MetadataFSMMetrics :=
  match m with
  | None =>
      {| fm_label := shardLabel; fm_FSMUpdateDuration := false; fm_SnapshotSaveDuration := false;
         fm_SnapshotRecoverDuration := false; fm_CommittedIndex := false; fm_AppliedIndex := false |}
  | Some m =>
      {| fm_label := shardLabel; fm_FSMUpdateDuration := present (FSMUpdateDuration m);
         fm_SnapshotSaveDuration := present (SnapshotSaveDuration m);
         fm_SnapshotRecoverDuration := present (SnapshotRecoverDuration m);
         fm_CommittedIndex := present (CommittedIndex m); fm_AppliedIndex := present (AppliedIndex m) |}
  end.

(** The effects of the observers on the shared vectors. *)
Definition observe_update (f : MetadataFSMMetrics) (m : RaftMetrics) : RaftMetrics :=
  {| CommittedIndex := CommittedIndex m; AppliedIndex := AppliedIndex m; IsLeader := IsLeader m; Term := Term m;
     ProposeDuration := ProposeDuration m; SnapshotSaveDuration := SnapshotSaveDuration m;
     SnapshotRecoverDuration := SnapshotRecoverDuration m; LeaderChangesTotal := LeaderChangesTotal m;
     FSMUpdateDuration := if fm_FSMUpdateDuration f then Inc [fm_label f] <$> FSMUpdateDuration m else FSMUpdateDuration m |}.

Definition set_indexes (f : MetadataFSMMetrics) (idx : Z) (m : RaftMetrics) : RaftMetrics :=
  {| CommittedIndex := if fm_CommittedIndex f then Set_ [fm_label f] idx <$> CommittedIndex m else CommittedIndex m;
     AppliedIndex := if fm_AppliedIndex f then Set_ [fm_label f] idx <$> AppliedIndex m else AppliedIndex m;
     IsLeader := IsLeader m; Term := Term m; ProposeDuration := ProposeDuration m; SnapshotSaveDuration := SnapshotSaveDuration m;
     SnapshotRecoverDuration := SnapshotRecoverDuration m; LeaderChangesTotal := LeaderChangesTotal m; FSMUpdateDuration := FSMUpdateDuration m |}.

Definition observe_snapshot (save : bool) (f : MetadataFSMMetrics) (m : RaftMetrics) : RaftMetrics :=
  {| CommittedIndex := CommittedIndex m; AppliedIndex := AppliedIndex m; IsLeader := IsLeader m; Term := Term m; ProposeDuration := ProposeDuration m;
     SnapshotSaveDuration := if save && fm_SnapshotSaveDuration f then Inc [fm_label f] <$> SnapshotSaveDuration m else SnapshotSaveDuration m;
     SnapshotRecoverDuration :=
       if negb save && fm_SnapshotRecoverDuration f then Inc [fm_label f] <$> SnapshotRecoverDuration m else SnapshotRecoverDuration m;
     LeaderChangesTotal := LeaderChangesTotal m; FSMUpdateDuration := FSMUpdateDuration m |}.

(** [None] as the metrics of the state machine is the nil pointer, [None] as the command one that
    does not decode. *)
Definition Update_m (o : option MetadataFSMMetrics) (idx : Z) (cmd : option MetadataCommand) (s : MetadataState) (m : RaftMetrics)
  : outcome (MetadataState * Result) * RaftMetrics :=
  match cmd with
  | None =>
      (Ok (s, ErrorResult ResultErrInvalidArg "invalid command JSON"), match o with Some f => observe_update f m | None => m end)
  | Some cmd =>
      match applyCommand s cmd with
      | Ok x => (Ok x, match o with Some f => set_indexes f idx (observe_update f m) | None => m end)
      | x => (Seg.failure x, m)
      end
  end.

Definition SaveSnapshot_m (o : option MetadataFSMMetrics) (s : MetadataState) (done : bool) (m : RaftMetrics) : outcome Json.json * RaftMetrics :=
  if done then (MetaJson.SaveSnapshot s done, m) else
  (MetaJson.SaveSnapshot s done, match o with Some f => observe_snapshot true f m | None => m end).

(** A snapshot is timed only when it was read; the index gauges stay at what they were. *)
Definition RecoverFromSnapshot_m (o : option MetadataFSMMetrics) (s : MetadataState) (v : Json.json) (done : bool) (m : RaftMetrics)
  : outcome unit * MetadataState * RaftMetrics :=
  let '(r, s') := MetaJson.RecoverFromSnapshot s v done in
  (r, s', match r, o with Ok _, Some f => observe_snapshot false f m | _, _ => m end).

(** Entries of the raft log, one after the other. *)
Fixpoint Updates_m (o : option MetadataFSMMetrics) (es : list (Z * option MetadataCommand)) (s : MetadataState) (m : RaftMetrics)
  : outcome MetadataState * RaftMetrics :=
  match es with
  | [] => (Ok s, m)
  | (idx, cmd) :: es' =>
      match Update_m o idx cmd s m with
      | (Ok (s', _), m') => Updates_m o es' s' m'
      | (x, m') => (Seg.failure x, m')
      end
  end.

(** The last entry whose command decoded. *)
Definition last_applied (es : list (Z * option MetadataCommand)) (idx : Z) : Z :=
  fold_left (fun i e => match e.2 with Some _ => e.1 | None => i end) es idx.

Definition fsm_enabled (m : RaftMetrics) : Prop := is_Some (CommittedIndex m) /\ is_Some (AppliedIndex m) /\ is_Some (FSMUpdateDuration m).

Lemma Update_m_gauges m0 label idx cmd s m :
  fsm_enabled m0 -> fsm_enabled m -> forall x m', Update_m (Some (metadataFSMMetrics (Some m0) label)) idx cmd s m = (Ok x, m') ->
  Update s cmd = Ok x /\ fsm_enabled m' /\ read_vec (FSMUpdateDuration m') [label] = read_vec (FSMUpdateDuration m) [label] + 1 /\
  read_vec (AppliedIndex m') [label] = (if present cmd then idx else read_vec (AppliedIndex m) [label]) /\
  read_vec (CommittedIndex m') [label] = (if present cmd then idx else read_vec (CommittedIndex m) [label]).
Proof.
  intros ([a0 A0] & [b0 B0] & [c0 C0]) ([a A] & [b B] & [c C]) x m'. unfold Update_m, Update, metadataFSMMetrics. rewrite A0, B0, C0. cbn [present].
  destruct cmd as [cmd|]; [destruct (applyCommand s cmd) as [y|e|q|]; [|done..]|]; intros [= <- <-]; (split; [done|]);
    unfold fsm_enabled, observe_update, set_indexes, Inc, Set_, StorageMetrics.Inc, StorageMetrics.Set_, StorageMetrics.read_vec; cbn; rewrite A, B, C; cbn;
    rewrite !lookup_insert_eq; cbn; split_and!; try (by eexists); try done; rewrite ?A, ?B; done.
Qed.

(** The gauges of the metadata shard follow its log: every entry is timed, and both index gauges
    show the last entry whose command decoded. *)
Theorem metadata_gauges m0 label es s m s' m' :
  fsm_enabled m0 -> fsm_enabled m -> Updates_m (Some (metadataFSMMetrics (Some m0) label)) es s m = (Ok s', m') ->
  read_vec (FSMUpdateDuration m') [label] = read_vec (FSMUpdateDuration m) [label] + len es /\
  read_vec (AppliedIndex m') [label] = last_applied es (read_vec (AppliedIndex m) [label]) /\
  read_vec (CommittedIndex m') [label] = last_applied es (read_vec (CommittedIndex m) [label]).
Proof.
  intros H0. revert s m. induction es as [|[idx cmd] es IH]; intros s m Hm; cbn [Updates_m].
  { intros [= _ <-]. cbn. split_and!; [|done|done]. change (len (@nil (Z * option MetadataCommand))) with 0. lia. }
  destruct (Update_m _ idx cmd s m) as [[[s1 r]|e|q|] m1] eqn:E; [|done..]. intros H.
  destruct (Update_m_gauges m0 label idx cmd s m H0 Hm _ _ E) as (_ & Hm1 & E1 & E2 & E3).
  destruct (IH s1 m1 Hm1 H) as (F1 & F2 & F3). rewrite F1, F2, F3, E1, E2, E3, len_cons. unfold last_applied. cbn [fold_left fst snd].
  split_and!; [lia|by destruct cmd..].
Qed.

(** ** Two sweeps *)

(** This node is elected in term 3, then another one in term 4. *)
Definition deposed (sh : Z) : outcome (Z * Z * bool) := Ok (2, 4, true).
Abbreviation table leader := (ClusterRun.handle StorageExamples.cfg0 Partition.no_json (ClusterServe.conf1 true) leader).
Abbreviation swept leader x := (run (metered (table leader)) (sweepLeaders_m (ClusterServe.conf1 true)) x).2.

Definition sweep1 : ClusterRun.cnode * RaftMetrics := swept ClusterServe.elected (ClusterServe.node_t0 ClusterServe.s3, NewRaftMetrics).
Definition sweep2 : ClusterRun.cnode * RaftMetrics := swept deposed sweep1.

Lemma leader_gauges_witness :
  leader_reading sweep1.2 1 = (Some 3, Some 1, Some 1) /\ leader_reading sweep2.2 1 = (Some 4, Some 0, Some 2) /\ leader_reading sweep2.2 2 = (None, None, None) /\
  gauges_ok (ClusterServe.conf1 true) (ClusterRun.c_leaders sweep2.1) sweep2.2 /\
  changes sweep2.2 1 = transitions 1 [ClusterRun.c_leaders sweep2.1; ClusterRun.c_leaders sweep1.1; ∅].
Proof.
  split; [vm_compute; reflexivity|]. split; [vm_compute; reflexivity|]. split; [vm_compute; reflexivity|].
  destruct (leader_gauges ClusterRun.c_leaders (ClusterServe.conf1 true) [ClusterRun.c_leaders sweep2.1; ClusterRun.c_leaders sweep1.1; ∅] sweep2.1 sweep2.2) as [H1 H2].
  - apply (HSweep _ _ (table deposed) _ sweep1.1 sweep1.2 _ _ (Ok tt)); [|apply _| |vm_compute; reflexivity].
    + apply (HSweep _ _ (table ClusterServe.elected) _ (ClusterServe.node_t0 ClusterServe.s3) NewRaftMetrics _ _ (Ok tt)); [|apply _| |vm_compute; reflexivity].
      * apply HStart. vm_compute. reflexivity.
      * intros sh [i Hi]. change (({[ 1 := ClusterServe.info_t0 ]} : running_shards) !! sh = Some i) in Hi. apply lookup_singleton_Some in Hi as [<- _]. unfold in_u64. lia.
    + intros sh [i Hi]. assert (ClusterRun.c_running sweep1.1 = {[ 1 := ClusterServe.info_t0 ]}) as E by (vm_compute; reflexivity).
      change (ClusterRun.c_running sweep1.1 !! sh = Some i) in Hi. rewrite E in Hi. apply lookup_singleton_Some in Hi as [<- _]. unfold in_u64. lia.
  - split; [exact H1|]. apply H2. unfold in_u64. lia.
Defined.

End RaftMetrics.
