(* ===== verification/Replicas.v ===== *)
(** * The replicas of a partition

    Every replica of a shard applies the same log of entries, but in its own way: the library
    hands the entries over in chunks of its choice, retention runs by the local clock, the
    process is killed between updates, while a batch is being written or while the sidecar is
    replaced, and starts again. [replica] is the step relation of such a life; on every life the
    replica holds a suffix of the batches of the entries it has applied, so that two replicas
    agree wherever both hold an offset.

    One crash is left out: that of a replica's very first update between the first whole batch in
    its log and its first sidecar, after which the batch is stored twice
    ([Partition.first_update_duplicates]). The entries are appends, and where the configuration
    has a time limit batch timestamps do not go back. *)

From S2P Require Import Prelude Batch SegName LogSegment BinSearch BatchLog Segment Recovery Storage StorageOpen StorageCut StorageExamples Partition Sidecar BrokerConfig StorageHistory.
Local Open Scope Z_scope.

Module Replicas.
Import SegName LogSeg BatchLog Seg Storage StorageOpen StorageCut StorageExamples Partition Sidecar StorageHistory.

Section replicas.
Variable unmarshal : list byte -> option (Z * Z).
Variable cfg : StorageConfig.
(** The log of the shard. *)
Variable log : list entry.

(** The state machine after the local retention loop has ticked. *)
Definition tick (p : PartitionFSM) (nowMs : Z) : PartitionFSM :=
  match storage p with Some s => set_storage p (BrokerConfig.retention_tick s nowMs) | None => p end.

(** [replica es p]: a replica that has applied the entries [es] can be in the state [p]. *)
Inductive replica : list entry -> PartitionFSM -> Prop :=
| RNew p : Open cfg ∅ (NewPartitionFSM None) = (p, Ok 0) -> replica [] p
| RUpdate es p chunk p' vs : replica es p -> chunk <> [] -> (es ++ chunk) `prefix_of` log ->
    Update unmarshal cfg p chunk = (p', Ok vs) -> replica (es ++ chunk) p'
| RTick es p nowMs : replica es p -> replica es (tick p nowMs)
| RRestart es p s p' i :   (** killed between two updates *)
    replica es p -> storage p = Some s -> Open cfg (dir s) (NewPartitionFSM (sidecar p)) = (p', Ok i) -> replica es p'
| RTorn es p s done e b s1 act k fs' p' i :
    (** killed in the append of [b], after the entries [done] of the chunk: the file of the active
        segment ends anywhere behind the last sync; without a sidecar, no whole batch is found *)
    replica es p -> storage p = Some s -> Cmd e = Marshal {| Type_ := CmdAppendBatch; Payload := b |} ->
    (es ++ done ++ [e]) `prefix_of` log ->
    (apply_entries unmarshal cfg s done).1 = s1 -> last (segments s1) = Some act -> LogSize act < SegmentMaxBytes cfg ->
    frame (seg_files (baseOffset act)) (dir s1) fs' ->
    fs' !! logName (baseOffset act) =
      Some (take k (contents (dir s1) (logName (baseOffset act)) ++ Batch.withBaseOffset b (LatestOffset s1))) ->
    LogSize act - len (concat (drop 1 ∘ Cmd <$> done)) <= Z.of_nat k ->
    Open cfg fs' (NewPartitionFSM (sidecar p)) = (p', Ok i) ->
    (es = [] -> LatestOffset <$> storage p' = Some 0) -> replica es p'
| RPersist es p s chunk s1 path d n d1 d2 p' i :
    (** killed while the sidecar is replaced, or in place for the first time *)
    replica es p -> es <> [] \/ (3 <= n)%nat -> storage p = Some s -> chunk <> [] -> (es ++ chunk) `prefix_of` log ->
    (apply_entries unmarshal cfg s chunk).1 = s1 ->
    content d path = sidecar p -> (forall f, d !! path = Some f -> f_synced f = true) ->
    exec d (take n (persist_ops path (encodeSidecar (last_index chunk) (LatestOffset s1)))) = Ok d1 -> crashed d1 d2 ->
    Open cfg (dir s1) (NewPartitionFSM (content d2 path)) = (p', Ok i) ->
    replica (if decide (n < 3)%nat then es else es ++ chunk) p'.

(** ** What every life keeps *)

Variable bs : list (list byte).
Hypothesis cfg_fine : cfg_ok cfg.
Hypothesis log_appends : entries_of log bs.
Hypothesis log_fits : fits (0 < DefaultRetentionMs cfg) bs.
Abbreviation fits := (fits (0 < DefaultRetentionMs cfg)).
Hypothesis log_indexes : Forall (fun e => in_u64 (Index e)) log.

(** The batches of the entries [es]. *)
Definition batches_of (es : list entry) : list (list byte) := take (length es) bs.

Lemma next_batches es chunk :
  (es ++ chunk) `prefix_of` log -> exists bs', entries_of chunk bs' /\ batches_of (es ++ chunk) = batches_of es ++ bs' /\ fits (batches_of es ++ bs').
Proof.
  intros [k E]. pose proof log_appends as Hl. rewrite E in Hl. apply Forall2_app_inv_l in Hl as (b1 & b3 & H1 & _ & Eb).
  apply Forall2_app_inv_l in H1 as (b0 & b2 & H0 & H2 & ->). exists b2. unfold batches_of.
  pose proof (Forall2_length _ _ _ H0) as L0. pose proof (Forall2_length _ _ _ H2) as L2.
  assert (take (length es) bs = b0) as E0 by (rewrite Eb, <- app_assoc, L0; apply take_app_length).
  assert (take (length (es ++ chunk)) bs = b0 ++ b2) as E2 by (rewrite Eb, length_app, L0, L2, <- length_app; apply take_app_length).
  rewrite E0, E2. split_and!; [done|done|]. apply (fits_prefix _ _ b3). by rewrite <- Eb.
Qed.

Lemma payloads chunk bs' : entries_of chunk bs' -> drop 1 ∘ Cmd <$> chunk = bs'.
Proof. induction 1 as [|e b chunk bs' He _ IH]; [done|]. cbn. by rewrite He, IH. Qed.

Lemma last_in_u64 es chunk : (es ++ chunk) `prefix_of` log -> chunk <> [] -> in_u64 (last_index chunk) /\ last_index (es ++ chunk) = last_index chunk.
Proof.
  intros [k E] Hne. destruct (exists_last Hne) as (c & e & ->). unfold last_index. rewrite app_assoc, !last_snoc. split; [|done].
  pose proof log_indexes as Hi. rewrite E in Hi. apply Forall_app in Hi as [Hi _]. apply Forall_app in Hi as [_ Hi]. apply Forall_app in Hi as [_ Hi].
  by apply Forall_inv in Hi.
Qed.

(** The replica holds a suffix of its batches, at their offsets. *)
Record kept_log (es : list entry) (p : PartitionFSM) (gone l : list (list byte)) : Prop := {
  kl_log : gone ++ l = placed 0 (batches_of es);
  kl_live : fsm_live cfg p (end_off 0 gone) l;
  kl_ok : es <> [] -> fsm_ok cfg p (end_off 0 gone) l (last_index es);
  kl_new : es = [] -> sidecar p = None;
  kl_limits : BrokerConfig.fsm_limits p = Some (BrokerConfig.default_limits cfg)
}.

Lemma kept_end es p gone l : fits (batches_of es) -> kept_log es p gone l -> end_off (end_off 0 gone) l = counts (batches_of es).
Proof. intros [Hwf _] [E _ _ _ _]. rewrite <- end_off_app, E, end_off_placed by done. lia. Qed.

Lemma kept_more es chunk p p' gone l bs' :
  kept_log es p gone l -> batches_of (es ++ chunk) = batches_of es ++ bs' -> fits (batches_of es) -> chunk <> [] ->
  fsm_ok cfg p' (end_off 0 gone) (l ++ placed (end_off (end_off 0 gone) l) bs') (last_index (es ++ chunk)) ->
  BrokerConfig.fsm_limits p' = Some (BrokerConfig.default_limits cfg) ->
  kept_log (es ++ chunk) p' gone (l ++ placed (end_off (end_off 0 gone) l) bs').
Proof.
  intros Hk E Hf Hne Hok Hlim. rewrite (kept_end es p gone l Hf Hk) in *. constructor.
  - rewrite E, placed_app, app_assoc, (kl_log _ _ _ _ Hk). done.
  - by eapply fsm_ok_live.
  - done.
  - intros En. apply app_eq_nil in En as [_ En]. done.
  - done.
Qed.

Lemma batches_fit es : fits (batches_of es).
Proof. apply (fits_prefix _ _ (drop (length es) bs)). unfold batches_of. by rewrite take_drop. Qed.

(** *** The cases *)

Lemma keeps_new p : Open cfg ∅ (NewPartitionFSM None) = (p, Ok 0) -> kept_log [] p [] [].
Proof.
  intros E. pose proof (BrokerConfig.open_limits _ _ _ _ _ E) as Hlim. destruct (open_empty cfg cfg_fine) as (s & Es & Hrep & _). unfold Open in E. rewrite Es in E.
  injection E as <-. constructor; [done|constructor; [by exists s|done]|done|done|done].
Qed.

Lemma keeps_tick es p gone l now : kept_log es p gone l -> exists gone' l', kept_log es (tick p now) gone' l'.
Proof.
  intros Hk. pose proof Hk as [E [(s & Hs & Hrep) Hop] Hok Hnew Hlim]. unfold tick. rewrite Hs.
  destruct (enforce_suffix cfg s _ _ (retentionMs s) (retentionBytes s) now Hrep) as (s' & n & dropped & rest & Et & El & Hrep' & Hlat & _).
  { intros Hms. apply (sorted_suffix gone). rewrite E. destruct (batches_fit es) as (Hwf & Hso & _). apply placed_sorted; [done|]. apply Hso.
    unfold BrokerConfig.fsm_limits in Hlim. rewrite Hs in Hlim. injection Hlim as Hm _. lia. }
  assert (BrokerConfig.retention_tick s now = s') as -> by (unfold BrokerConfig.retention_tick; by rewrite Et).
  exists (gone ++ dropped), rest. constructor.
  - by rewrite <- app_assoc, <- El.
  - rewrite end_off_app. constructor; [by exists s'|done].
  - intros Hne. destruct (Hok Hne) as [(s0 & Hs0 & _ & Hside) Hi _]. rewrite Hs in Hs0. injection Hs0 as <-. rewrite end_off_app.
    constructor; [exists s'; split_and!; [done|done|by rewrite Hlat]|done|done].
  - done.
  - unfold BrokerConfig.fsm_limits in *. rewrite Hs in Hlim. cbn [set_storage storage fmap option_fmap option_map] in *. rewrite <- Hlim.
    pose proof (tick_limits s now) as Ht. unfold BrokerConfig.retention_tick in Ht. rewrite Et in Ht. cbn [fst] in Ht. by rewrite Ht.
Qed.

(** Opening what [kept_log] describes, or more, gives it back. *)
Lemma keeps_open es p p' i gone l fs s' more :
  kept_log es p gone l -> (es = [] -> more = []) -> Storage.Open fs cfg = Ok s' -> represents cfg s' (end_off 0 gone) (l ++ more) ->
  Open cfg fs (NewPartitionFSM (sidecar p)) = (p', Ok i) -> kept_log es p' gone l.
Proof.
  intros Hk Hm HO Hrep E. pose proof Hk as [El _ Hok Hnew _]. pose proof (BrokerConfig.open_limits _ _ _ _ _ E) as Hlim.
  destruct (decide (es = [])) as [Hn|Hne].
  - rewrite (Hm Hn), app_nil_r in Hrep. rewrite (Hnew Hn) in E. unfold Open in E. rewrite HO in E. injection E as <- _.
    constructor; [done|constructor; [by exists s'|done]|done|done|done].
  - pose proof (Hok Hne) as [(s & Hs & Hrep0 & Hside) [_ Hi] _]. rewrite Hside in E.
    pose proof (represents_log _ _ _ _ Hrep0) as (_ & Hlat & _). rewrite Hlat in E.
    destruct (open_cuts cfg fs s' _ l more (last_index es) cfg_fine HO Hrep Hi) as (p1 & E1 & Hok1). rewrite E in E1. injection E1 as -> _.
    constructor; [done|by eapply fsm_ok_live|done|done|done].
Qed.

Lemma keeps_update es p chunk p' vs gone l :
  kept_log es p gone l -> chunk <> [] -> (es ++ chunk) `prefix_of` log -> Update unmarshal cfg p chunk = (p', Ok vs) ->
  exists l', kept_log (es ++ chunk) p' gone l'.
Proof.
  intros Hk Hne Hp Hu. destruct (next_batches es chunk Hp) as (bs' & He & Eb & Hf). destruct (last_in_u64 es chunk Hp Hne) as [Hi El].
  pose proof (kept_end _ _ _ _ (batches_fit es) Hk) as Hend. destruct Hf as ([_ Hwf]%Forall_app & _ & Hc). rewrite counts_app in Hc.
  destruct (update_ok unmarshal cfg p _ l chunk bs' cfg_fine (kl_live _ _ _ _ Hk) Hne He Hwf Hi) as (p1 & E1 & Hok1); [by rewrite Hend|].
  rewrite Hu in E1. injection E1 as -> _. exists (l ++ placed (end_off (end_off 0 gone) l) bs').
  eapply kept_more; [done|done|apply batches_fit|done|by rewrite El|]. rewrite <- (kl_limits _ _ _ _ Hk).
  apply (BrokerConfig.update_limits unmarshal cfg). by eexists _, _, _.
Qed.

Lemma keeps_torn es p s done e b s1 act k fs' p' i gone l :
  kept_log es p gone l -> storage p = Some s -> Cmd e = Marshal {| Type_ := CmdAppendBatch; Payload := b |} ->
  (es ++ done ++ [e]) `prefix_of` log ->
  (apply_entries unmarshal cfg s done).1 = s1 -> last (segments s1) = Some act -> LogSize act < SegmentMaxBytes cfg ->
  frame (seg_files (baseOffset act)) (dir s1) fs' ->
  fs' !! logName (baseOffset act) =
    Some (take k (contents (dir s1) (logName (baseOffset act)) ++ Batch.withBaseOffset b (LatestOffset s1))) ->
  LogSize act - len (concat (drop 1 ∘ Cmd <$> done)) <= Z.of_nat k ->
  Open cfg fs' (NewPartitionFSM (sidecar p)) = (p', Ok i) -> (es = [] -> LatestOffset <$> storage p' = Some 0) -> kept_log es p' gone l.
Proof.
  intros Hk Hs He Hp Hs1 Hlast Hsz F Hlog Hk2 E H0. destruct (next_batches es (done ++ [e]) Hp) as (bs' & Hes & Eb & Hf).
  apply Forall2_app_inv_l in Hes as (bs1 & bs2 & Hdone & H2 & ->). apply Forall2_cons_inv_l in H2 as (b' & bs3 & Hb' & Hnil & ->). apply Forall2_nil_inv_l in Hnil as ->.
  assert (b' = b) as ->. { rewrite He in Hb'. by injection Hb'. }
  destruct Hf as ([_ Hwf]%Forall_app & _ & Hc). rewrite counts_app in Hc. pose proof (kept_end _ _ _ _ (batches_fit es) Hk) as Hend.
  rewrite (payloads _ _ Hdone) in Hk2.
  destruct (crash_keeps unmarshal cfg p _ l s done bs1 b s1 act k fs' cfg_fine (kl_live _ _ _ _ Hk) Hs Hdone Hwf) as (s' & more & HO & Hrep'); try done; [by rewrite Hend|].
  eapply (keeps_open es p p' i gone l fs' s' more); try done. intros Hn. specialize (H0 Hn).
  unfold Open in E. rewrite HO, (kl_new _ _ _ _ Hk Hn) in E. injection E as <- _. injection H0 as H0.
  pose proof (represents_log _ _ _ _ Hrep') as (Hch & Hlat & _ & Hoff & _). rewrite H0, end_off_app in Hlat.
  destruct more as [|x more]; [done|]. apply chain_app in Hch as [_ Hch]. pose proof (chain_nonempty _ _ Hch ltac:(done)).
  pose proof (end_off_mono (end_off 0 gone) l). lia.
Qed.

Lemma keeps_persist es p s chunk s1 path d n d1 d2 p' i gone l :
  kept_log es p gone l -> es <> [] \/ (3 <= n)%nat -> storage p = Some s -> chunk <> [] -> (es ++ chunk) `prefix_of` log ->
  (apply_entries unmarshal cfg s chunk).1 = s1 ->
  content d path = sidecar p -> (forall f, d !! path = Some f -> f_synced f = true) ->
  exec d (take n (persist_ops path (encodeSidecar (last_index chunk) (LatestOffset s1)))) = Ok d1 -> crashed d1 d2 ->
  Open cfg (dir s1) (NewPartitionFSM (content d2 path)) = (p', Ok i) ->
  exists l', kept_log (if decide (n < 3)%nat then es else es ++ chunk) p' gone l'.
Proof.
  intros Hk Hor Hs Hc Hp Hs1 Hd Hsy Ex Hcr E. destruct (next_batches es chunk Hp) as (bs' & He & Eb & Hf). destruct (last_in_u64 es chunk Hp Hc) as [Hi El].
  pose proof (kept_end _ _ _ _ (batches_fit es) Hk) as Hend. destruct Hf as ([_ Hwf]%Forall_app & _ & Hcn). rewrite counts_app in Hcn.
  pose proof (BrokerConfig.open_limits _ _ _ _ _ E) as Hlim. destruct (decide (n < 3)%nat) as [Hn|Hn].
  - destruct Hor as [Hne|?]; [|lia]. exists l.
    destruct (update_crash unmarshal cfg p _ l _ s chunk bs' s1 path d n d1 d2 cfg_fine (kl_ok _ _ _ _ Hk Hne) Hs Hc He Hwf Hi) as (p1 & i1 & E1 & H1);
      try done; [by rewrite Hend|]. rewrite E in E1. injection E1 as -> ->. destruct H1 as [(_ & Hok1 & _)|(_ & _ & ?)]; [|lia].
    constructor; [apply Hk|by eapply fsm_ok_live|done|done|done].
  - destruct (persist_atomic path _ d n d1 d2 Hsy Ex Hcr) as [[_ ?]|[E2 _]]; [lia|]. rewrite E2 in E.
    destruct (renamed_opens unmarshal cfg p _ l s chunk bs' s1 cfg_fine (kl_live _ _ _ _ Hk) Hs He Hwf Hi) as (p1 & E1 & Hok1 & _); try done; [by rewrite Hend|].
    rewrite E in E1. injection E1 as -> _. exists (l ++ placed (end_off (end_off 0 gone) l) bs').
    eapply kept_more; [done|done|apply batches_fit|done|by rewrite El|done].
Qed.

Lemma replica_keeps es p : replica es p -> exists gone l, kept_log es p gone l.
Proof.
  induction 1 as [p E|es p chunk p' vs _ (gone & l & Hk) Hne Hp Hu|es p now _ (gone & l & Hk)|es p s p' i _ (gone & l & Hk) Hs E
    |es p s done e b s1 act k fs' p' i _ (gone & l & Hk) Hs He Hp Hs1 Hlast Hsz F Hlog Hk2 E
    |es p s chunk s1 path d n d1 d2 p' i _ (gone & l & Hk) Hne Hs Hc Hp Hs1 Hd Hsy Ex Hcr E].
  - exists [], []. by apply keeps_new.
  - exists gone. by eapply keeps_update.
  - by eapply keeps_tick.
  - exists gone, l. destruct (kl_live _ _ _ _ Hk) as [(s0 & Hs0 & Hrep) _]. rewrite Hs in Hs0. injection Hs0 as <-.
    destruct (reopen_represents cfg s _ _ cfg_fine Hrep) as (s' & HO & Hrep'). eapply (keeps_open es p p' i gone l (dir s) s' []); try done. by rewrite app_nil_r.
  - exists gone, l. by eapply keeps_torn.
  - exists gone. by eapply keeps_persist.
Qed.

Lemma replica_prefix es p : replica es p -> es `prefix_of` log.
Proof.
  induction 1 as [| | | | |es p s chunk s1 path d n]; try done; [apply prefix_nil|]. by destruct (decide (n < 3)%nat).
Qed.

(** ** Reading from replicas *)

(** The batch at an offset is one place of a log. *)
Lemma place_unique (x : Z) pre1 b1 post1 pre2 b2 post2 :
  pre1 ++ b1 :: post1 = pre2 ++ b2 :: post2 ->
  end_off 0 pre1 <= x < end_off 0 pre1 + batch_count b1 -> end_off 0 pre2 <= x < end_off 0 pre2 + batch_count b2 ->
  pre1 = pre2 /\ b1 :: post1 = b2 :: post2.
Proof.
  intros E H1 H2. apply app_eq_app in E as (k & [[-> E]|[-> E]]); (destruct k as [|b k]; [by rewrite app_nil_r|]); exfalso; cbn in E; injection E as -> ->.
  - rewrite end_off_app in H1. cbn [end_off] in H1. pose proof (end_off_mono (end_off 0 pre2 + batch_count b) k). lia.
  - rewrite end_off_app in H2. cbn [end_off] in H2. pose proof (end_off_mono (end_off 0 pre1 + batch_count b) k). lia.
Qed.

(** What a read of a replica returns, in the batches of the whole log. *)
Lemma replica_read es p s x n data next :
  replica es p -> storage p = Some s -> Read s x n = Ok (data, next) -> data <> [] ->
  exists pre b rest post, placed 0 bs = pre ++ (b :: rest) ++ post /\ data = concat (b :: rest) /\ end_off 0 pre <= x < end_off 0 pre + batch_count b.
Proof.
  intros Hr Hs HR Hne. destruct (replica_keeps es p Hr) as (gone & l & Hk). destruct (replica_prefix es p Hr) as [k Ek].
  destruct (kl_live _ _ _ _ Hk) as [(s0 & Hs0 & Hrep) _]. rewrite Hs in Hs0. injection Hs0 as <-.
  destruct (read_outside cfg s _ _ x n Hrep) as [H1 H2].
  destruct (Z.lt_ge_cases x (end_off 0 gone)) as [Hlt|Hge]; [by rewrite H1 in HR|].
  destruct (Z.lt_ge_cases x (LatestOffset s)) as [Hlt|Hge2]; [|rewrite H2 in HR by done; by injection HR as <- _].
  destruct (read_inside cfg s _ _ x n cfg_fine Hrep (conj Hge Hlt)) as (pre & b & rest & post & El & ER & Hx & _).
  rewrite HR in ER. injection ER as -> _. pose proof (represents_log _ _ _ _ Hrep) as (Hc & _). rewrite El in Hc. apply chain_app in Hc as [_ (_ & Hb & _)].
  exists (gone ++ pre), b, rest, (post ++ placed (counts (batches_of es)) (drop (length es) bs)). split_and!.
  - rewrite <- (take_drop (length es) bs) at 1. fold (batches_of es). rewrite placed_app, <- (kl_log _ _ _ _ Hk), El. by rewrite <- !app_assoc.
  - done.
  - rewrite end_off_app, <- Hb. lia.
  - rewrite end_off_app, <- Hb. unfold batch_end in Hx. lia.
Qed.

Lemma concat_prefix (l1 l2 : list (list byte)) : l1 `prefix_of` l2 -> concat l1 `prefix_of` concat l2.
Proof. intros [k ->]. exists (concat k). by rewrite concat_app. Qed.

(** C5: Replicas agree. Two replicas apply the log of a shard, a log of appended batches (whose timestamps
    do not go back if the configuration has a time limit), each with its own chunks of entries,
    retention ticks, restarts and crashes: between updates, in the middle of an append, or while
    the sidecar is replaced; only a crash in a replica's first update that leaves a whole batch and
    no sidecar is left out. However far each of them is, two reads of the same offset that both
    return data return the same batches, one perhaps fewer than the other: a consumer can be moved
    from one replica to the other. *)
Theorem replicas_agree es1 p1 s1 n1 data1 next1 es2 p2 s2 n2 data2 next2 x :
  replica es1 p1 -> replica es2 p2 -> storage p1 = Some s1 -> storage p2 = Some s2 ->
  Read s1 x n1 = Ok (data1, next1) -> Read s2 x n2 = Ok (data2, next2) ->
  data1 `prefix_of` data2 \/ data2 `prefix_of` data1.
Proof.
  intros R1 R2 Hs1 Hs2 E1 E2. destruct (decide (data1 = [])) as [->|N1]; [left; apply prefix_nil|].
  destruct (decide (data2 = [])) as [->|N2]; [right; apply prefix_nil|].
  destruct (replica_read es1 p1 s1 x n1 data1 next1) as (pre1 & b1 & rest1 & post1 & L1 & -> & X1); try done.
  destruct (replica_read es2 p2 s2 x n2 data2 next2) as (pre2 & b2 & rest2 & post2 & L2 & -> & X2); try done.
  rewrite L1 in L2. destruct (place_unique x pre1 b1 (rest1 ++ post1) pre2 b2 (rest2 ++ post2) L2 X1 X2) as [_ E].
  destruct (prefix_weak_total (b1 :: rest1) (b2 :: rest2) (b1 :: rest1 ++ post1)) as [H|H].
  - by exists post1.
  - rewrite E. by exists post2.
  - left. by apply concat_prefix.
  - right. by apply concat_prefix.
Qed.

End replicas.

(** ** Witness: one replica applies two entries at once, the other one by one with a restart between. *)

Definition log2 : list entry := [e0 8; e0 9].
Definition born : PartitionFSM := (Open cfg0 ∅ (NewPartitionFSM None)).1.
Definition at_once : PartitionFSM := (Update no_json cfg0 born log2).1.
Definition first : PartitionFSM := (Update no_json cfg0 born [e0 8]).1.
Definition storage_of (p : PartitionFSM) : storageImpl := default no_storage (storage p).
Definition again : PartitionFSM := (Open cfg0 (dir (storage_of first)) (NewPartitionFSM (sidecar first))).1.
Definition second : PartitionFSM := (Update no_json cfg0 again [e0 9]).1.

Definition data_at (p : PartitionFSM) (x n : Z) : list byte := match Read (storage_of p) x n with Ok (data, _) => data | _ => [] end.

Lemma replicas_agree_witness :
  data_at at_once 0 1000 = b0_at 0 ++ b0_at 2 /\ data_at second 0 1 = b0_at 0 /\
  (data_at at_once 0 1000 `prefix_of` data_at second 0 1 \/ data_at second 0 1 `prefix_of` data_at at_once 0 1000).
Proof.
  split; [vm_compute; reflexivity|]. split; [vm_compute; reflexivity|].
  eapply (replicas_agree no_json cfg0 log2 [b0; b0] cfg0_ok) with (es1 := log2) (es2 := [e0 8] ++ [e0 9]) (p1 := at_once) (p2 := second)
    (s1 := storage_of at_once) (s2 := storage_of second) (x := 0) (n1 := 1000) (n2 := 1).
  - repeat constructor.
  - split; [exact (b0s_wf 2)|]. split; [intros _; repeat constructor; unfold ts_le; reflexivity|vm_compute; reflexivity].
  - repeat constructor; vm_compute; congruence.
  - apply (RUpdate no_json cfg0 log2 [] born log2 at_once [0; 2]); [apply RNew; vm_compute; reflexivity|discriminate|by exists []|vm_compute; reflexivity].
  - apply (RUpdate no_json cfg0 log2 [e0 8] again [e0 9] second [2]); [|discriminate|by exists []|vm_compute; reflexivity].
    apply (RRestart no_json cfg0 log2 [e0 8] first (storage_of first) again 8); [|vm_compute; reflexivity|vm_compute; reflexivity].
    apply (RUpdate no_json cfg0 log2 [] born [e0 8] first [0]); [apply RNew; vm_compute; reflexivity|discriminate|by exists [e0 9]|vm_compute; reflexivity].
  - vm_compute. reflexivity.
  - vm_compute. reflexivity.
  - vm_compute. reflexivity.
  - vm_compute. reflexivity.
Defined.

End Replicas.
