(* ===== verification/ClientNet.v ===== *)
(** * The ground of the client library

    internal/client/connpool.go, metacache.go and retry.go, and the requests a client makes: remote
    calls on connections, the clock, waiting, and atomic accesses to its own memory. A client
    object (producer, consumer, admin client) is shared by goroutines: every section of its code
    under a lock, and every unlocked read of shared memory, is one [Mem] request on the state [S]
    of the object. *)

From S2P Require Import Prelude Keys Metadata Prog GroupCoord DataCoord ClusterCoord ApiData ApiMgmt.
Local Open Scope Z_scope.

Module ClientNet.
Import Keys ClusterCoord.

(** ** Errors *)

Definition sNoReachableServer : sentinel := Sentinel "client" "ErrNoReachableServer".
Definition ErrNoReachableServer : error := ErrSentinel sNoReachableServer.
Definition errPoolClosed : error := ErrSentinel (Sentinel "client" "errPoolClosed").

(** gRPC codes, and the [BunnyErrorCode]s of errors.proto that clients test. *)
Definition codes_Unavailable : Z := 14.
Definition TOPIC_NOT_FOUND : Z := 3.
Definition TOPIC_ALREADY_EXISTS : Z := 4.
Definition NOT_LEADER : Z := 6.
Definition UNAVAILABLE : Z := 11.
Definition TIMEOUT : Z := 12.
Definition STALE_GENERATION : Z := 15.
Definition NOT_GROUP_MEMBER : Z := 16.

(** [status.FromError], for errors that carry a status. *)
Fixpoint status_FromError (e : error) : option (Z * list status_detail) :=
  match e with
  | ErrStatus code details => Some (code, details)
  | ErrWrap _ e' => status_FromError e'
  | _ => None
  end.

(** The code of the [BunnyErrorDetail] and the [NotLeaderDetail], the last one of each. *)
Definition extractBunnyError (e : error) : option Z * option (Z * string) :=
  match status_FromError e with
  | None => (None, None)
  | Some (_, details) =>
      fold_left (fun acc d =>
        match d with
        | BunnyErrorDetail code => (Some code, acc.2)
        | NotLeaderDetail node address => (acc.1, Some (node, address))
        end) details (None, None)
  end.

Definition isRetryable (code : Z) : bool := (code =? NOT_LEADER) || (code =? UNAVAILABLE) || (code =? TIMEOUT).

(** ** Back-off *)

(** The float64 operations of the back-off computation. *)
Class Float64 := {
  f64 : Type;
  f64_of_Z : Z -> f64;
  f64_mul : f64 -> f64 -> f64;
  f64_pow : f64 -> f64 -> f64;   (** [math.Pow] *)
  f64_ltb : f64 -> f64 -> bool;
  f64_eqb : f64 -> f64 -> bool;
  f64_trunc : f64 -> Z           (** the conversion to [time.Duration] *)
}.

Section config.
Context `{Float64}.

Record RetryPolicy := { MaxRetries : Z; InitialBackoff : Z; MaxBackoff : Z; BackoffFactor : f64 }.

Definition backoffDuration (attempt : Z) (policy : RetryPolicy) : Z :=
  if InitialBackoff policy <=? 0 then 0 else
  let d := f64_mul (f64_of_Z (InitialBackoff policy)) (f64_pow (BackoffFactor policy) (f64_of_Z attempt)) in
  if f64_ltb (f64_of_Z (MaxBackoff policy)) d then MaxBackoff policy else f64_trunc d.

(** [Config] of pkg/client/config.go; of the TLS configuration only its presence. *)
Record Config := {
  BootstrapServers : list string;
  AuthToken : string;
  TLS : bool;
  RequestTimeout : Z;
  Retry : RetryPolicy
}.

End config.

(** ** Connections *)

(** [grpc.DialOption]s. *)
Inductive DialOption := KeepaliveParams (time timeout : Z) | TransportCredentials (tls : bool) | AuthInterceptor (token : string).

Record conn := { cn_id : Z; cn_addr : string; cn_opts : list DialOption }.

(** [cp_conns] is [None] once the pool is closed; [cp_next] names the next connection. *)
Record ConnPool := { cp_conns : option (gmap string conn); cp_opts : list DialOption; cp_next : Z }.

Definition NewConnPool (opts : list DialOption) : ConnPool :=
  {| cp_conns := Some ∅; cp_opts := [KeepaliveParams 30000000000 10000000000] ++ opts; cp_next := 0 |}.

Definition pool_find (p : ConnPool) (addr : string) : option conn :=
  match cp_conns p with Some m => m !! addr | None => None end.

(** ** Topic metadata *)

Record TopicMeta := { PartitionCount : Z; Leaders : gmap Z string; FetchedAt : Z }.

(** The metadata objects made so far, by address, and the cached address of each topic. *)
Record MetaCache := { mc_objects : list TopicMeta; mc_cache : gmap string nat; mc_ttl : Z }.

Definition NewMetaCache (ttl : Z) : MetaCache := {| mc_objects := []; mc_cache := ∅; mc_ttl := ttl |}.

(** Replacing the leaders of an object, which every holder of its address sees. *)
Definition set_leaders (mc : MetaCache) (ref : nat) (f : gmap Z string -> gmap Z string) : MetaCache :=
  {| mc_objects := alter (fun m => {| PartitionCount := PartitionCount m; Leaders := f (Leaders m); FetchedAt := FetchedAt m |})
                     ref (mc_objects mc);
     mc_cache := mc_cache mc; mc_ttl := mc_ttl mc |}.

(** [Put]: the new object becomes the topic's entry; its address is returned. *)
Definition meta_Put (topic : string) (m : TopicMeta) (mc : MetaCache) : nat * MetaCache :=
  let ref := length (mc_objects mc) in
  (ref, {| mc_objects := mc_objects mc ++ [m]; mc_cache := <[topic := ref]> (mc_cache mc); mc_ttl := mc_ttl mc |}).

Definition meta_SetLeader (topic : string) (partitionID : Z) (addr : string) (mc : MetaCache) : MetaCache :=
  match mc_cache mc !! topic with
  | None => mc
  | Some ref => set_leaders mc ref (<[partitionID := addr]>)
  end.

Definition meta_Invalidate (topic : string) (mc : MetaCache) : MetaCache :=
  {| mc_objects := mc_objects mc; mc_cache := delete topic (mc_cache mc); mc_ttl := mc_ttl mc |}.

(** ** Requests *)

Inductive OffsetQuery := QUERY_EARLIEST | QUERY_LATEST.

(** A remote call answers or fails with a status error; [Done] is [ctx.Err()]; [Order] is the
    order of a map iteration. *)
Abbreviation rpc A := (error + A)%type.

Inductive netE (S : Type) : Type -> Type :=
| Mem {A} (f : S -> A * S) : netE S A
| Now : netE S Z
| Sleep (ns : Z) : netE S unit
| Done : netE S (option error)
| Order {A} (entries : list A) : netE S (list A)
| CloseConn (c : conn) : netE S (option error)
| RDescribeTopic (c : conn) (name : string) : netE S (rpc (option TopicInfo * list PartitionInfo))
| RDescribeCluster (c : conn) : netE S (rpc (list NodeDescriptor))
| RCreateTopic (c : conn) (name : string) (partitions replication retentionMs retentionBytes : Z)
    : netE S (rpc (option TopicInfo))
| RDeleteTopic (c : conn) (name : string) : netE S (rpc unit)
| RListTopics (c : conn) : netE S (rpc (list TopicInfo))
| RAlterPartitions (c : conn) (name : string) (count : Z) : netE S (rpc unit)
| RAlterRetention (c : conn) (name : string) (retentionMs retentionBytes : Z) : netE S (rpc unit)
| RListPartitions (c : conn) (topic : string) : netE S (rpc (list ApiMgmt.PartitionInfoWithOffsets))
| RProduce (c : conn) (topic : string) (partitionID : Z) (acks : Z) (batch : list byte) : netE S (rpc Z)
| RFetch (c : conn) (topic : string) (partitionID offset maxBytes maxWaitMs : Z) : netE S (rpc (list byte * Z))
| RGetOffsets (c : conn) (topic : string) (partitionID : Z) (q : OffsetQuery) : netE S (rpc Z)
| RJoinGroup (c : conn) (group member : string) (topics : list string) (sessionMs heartbeatMs : Z)
    : netE S (rpc GroupCoord.JoinGroupResponse)
| RHeartbeat (c : conn) (group member : string) (generation : Z) : netE S (rpc bool)
| RLeaveGroup (c : conn) (group member : string) : netE S (rpc unit)
| RCommitOffset (c : conn) (group member : string) (generation : Z) (offsets : list (TopicPartition * Z))
    : netE S (rpc unit)
| RFetchCommitted (c : conn) (group : string) (partitions : list TopicPartition)
    : netE S (rpc (list (TopicPartition * Z))).
Arguments Mem {S} {A} f.
Arguments Now {S}.
Arguments Sleep {S} ns.
Arguments Done {S}.
Arguments Order {S} {A} entries.
Arguments CloseConn {S} c.
Arguments RDescribeTopic {S} c name.
Arguments RDescribeCluster {S} c.
Arguments RCreateTopic {S} c name partitions replication retentionMs retentionBytes.
Arguments RDeleteTopic {S} c name.
Arguments RListTopics {S} c.
Arguments RAlterPartitions {S} c name count.
Arguments RAlterRetention {S} c name retentionMs retentionBytes.
Arguments RListPartitions {S} c topic.
Arguments RProduce {S} c topic partitionID acks batch.
Arguments RFetch {S} c topic partitionID offset maxBytes maxWaitMs.
Arguments RGetOffsets {S} c topic partitionID q.
Arguments RJoinGroup {S} c group member topics sessionMs heartbeatMs.
Arguments RHeartbeat {S} c group member generation.
Arguments RLeaveGroup {S} c group member.
Arguments RCommitOffset {S} c group member generation offsets.
Arguments RFetchCommitted {S} c group partitions.

(** What a request can answer: the code of a critical section runs on some state of the object,
    which other goroutines may have changed; an iteration visits every entry once; the network
    may answer anything. *)
Definition answers {S} X (e : netE S X) : X -> Prop :=
  match e in netE _ X return X -> Prop with
  | Mem f => fun x => exists s, x = (f s).1
  | Order entries => fun x => x ≡ₚ entries
  | _ => fun _ => True
  end.

(** A result or an error, and neither a panic nor a lack of fuel. *)
Definition returns {A} (o : outcome A) : Prop := match o with Ok _ | Err _ => True | _ => False end.

(** ** The pool as an object *)

Class HasPool (S : Type) := { pool : S -> ConnPool; with_pool : S -> ConnPool -> S }.

Section pool.
Context {S : Type} `{HasPool S}.
Abbreviation nprog := (prog (netE S)).
(** The error of [grpc.NewClient] for a target, which parses it and makes no connection yet. *)
Variable NewClient : string -> option error.

(** The section of [Get] under the write lock. *)
Definition dial (addr : string) (s : S) : outcome conn * S :=
  let p := pool s in
  match cp_conns p with
  | None => (Err errPoolClosed, s)
  | Some m =>
      match m !! addr with
      | Some c => (Ok c, s)
      | None =>
          match NewClient addr with
          | Some e => (Err (ErrWrap "connpool: dial" e), s)
          | None =>
              let c := {| cn_id := cp_next p; cn_addr := addr; cn_opts := cp_opts p |} in
              (Ok c, with_pool s {| cp_conns := Some (<[addr := c]> m); cp_opts := cp_opts p; cp_next := cp_next p + 1 |})
          end
      end
  end.

Definition pool_Get (addr : string) : nprog (outcome conn) :=
  c ← trigger (Mem (fun s => (pool_find (pool s) addr, s)));
  match c with
  | Some c => Ret (Ok c)
  | None => trigger (Mem (dial addr))
  end.

(** The errors [Close] joins; none is a nil error. *)
Fixpoint close_all (cs : list (string * conn)) : nprog (list error) :=
  match cs with
  | [] => Ret []
  | (_, c) :: cs' =>
      r ← trigger (CloseConn c);
      errs ← close_all cs';
      Ret (match r with Some e => e :: errs | None => errs end)
  end.

Definition pool_Close : nprog (list error) :=
  conns ← trigger (Mem (fun s =>
    (match cp_conns (pool s) with Some m => map_to_list m | None => [] end,
     with_pool s {| cp_conns := None; cp_opts := cp_opts (pool s); cp_next := cp_next (pool s) |})));
  conns ← trigger (Order conns);
  close_all conns.

(** ** Finding the leader of a partition

    [metaFor], [refreshMeta] and [leaderFor], which the producer and the consumer both have. *)

Class HasMeta := { meta : S -> MetaCache; with_meta : S -> MetaCache -> S }.
Context `{HasMeta}.
Variable knownAddrs : list string.

Definition meta_Get (topic : string) : nprog (option nat) :=
  m ← trigger (Mem (fun s =>
    (ref ← mc_cache (meta s) !! topic; m ← mc_objects (meta s) !! ref; Some (ref, FetchedAt m, mc_ttl (meta s)), s)));
  match m with
  | None => Ret None
  | Some (ref, fetchedAt, ttl) =>
      now ← trigger (Now);
      Ret (if now - fetchedAt >? ttl then None else Some ref)
  end.

Definition nodeAddrs (nodes : list NodeDescriptor) : gmap Z string :=
  fold_left (fun m n => <[nd_NodeID n := nd_Address n]> m) nodes ∅.

Definition leadersOf (addrs : gmap Z string) (parts : list PartitionInfo) : gmap Z string :=
  fold_left (fun m p =>
    match addrs !! pi_LeaderNodeID p with
    | Some a => <[pi_PartitionID p := a]> m
    | None => m
    end) parts ∅.

Definition partitionCountOf (topic : option TopicInfo) (parts : list PartitionInfo) : Z :=
  match topic with
  | Some t => if 0 <? ti_PartitionCount t then ti_PartitionCount t else i32 (len parts)
  | None => i32 (len parts)
  end.

Fixpoint refresh_from (addrs : list string) (topic : string) : nprog (outcome nat) :=
  match addrs with
  | [] => Ret (Err ErrNoReachableServer)
  | addr :: addrs' =>
      c ← pool_Get addr;
      match c with
      | Ok conn =>
          d ← trigger (RDescribeTopic conn topic);
          match d with
          | inr (topicInfo, parts) =>
              n ← trigger (RDescribeCluster conn);
              match n with
              | inr nodes =>
                  let leaders := leadersOf (nodeAddrs nodes) parts in
                  let partitionCount := partitionCountOf topicInfo parts in
                  now ← trigger (Now);
                  ref ← trigger (Mem (fun s =>
                    let '(ref, mc) := meta_Put topic {| PartitionCount := partitionCount; Leaders := leaders; FetchedAt := now |} (meta s) in
                    (ref, with_meta s mc)));
                  Ret (Ok ref)
              | inl _ => refresh_from addrs' topic
              end
          | inl _ => refresh_from addrs' topic
          end
      | _ => refresh_from addrs' topic
      end
  end.

Definition refreshMeta (topic : string) : nprog (outcome nat) := refresh_from knownAddrs topic.

Definition metaFor (topic : string) : nprog (outcome nat) :=
  m ← meta_Get topic;
  match m with
  | Some ref => Ret (Ok ref)
  | None => refreshMeta topic
  end.

(** [meta.Leaders[partID]], an unlocked read of the shared object; empty when it is not there. *)
Definition read_leader (ref : nat) (partID : Z) : nprog string :=
  trigger (Mem (fun s => (default "" (m ← mc_objects (meta s) !! ref; Leaders m !! partID), s))).

Definition leaderFor (topic : string) (partID : Z) : nprog (outcome string) :=
  call (metaFor topic) id (fun ref =>
  addr ← read_leader ref partID;
  if negb (String.eqb addr "") then Ret (Ok addr) else
  call (refreshMeta topic) id (fun ref =>
  addr ← read_leader ref partID;
  if negb (String.eqb addr "") then Ret (Ok addr) else
  Ret (Err (ErrNew "client: no leader known")))).

Definition SetLeader (topic : string) (partitionID : Z) (addr : string) : nprog unit :=
  trigger (Mem (fun s => (tt, with_meta s (meta_SetLeader topic partitionID addr (meta s))))).

Definition Invalidate (topic : string) : nprog unit :=
  trigger (Mem (fun s => (tt, with_meta s (meta_Invalidate topic (meta s))))).

(** ** Returning

    Each of these calls returns, whatever the replies are, and makes only requests of any kind
    that has memory accesses, the clock and the two describing calls. *)

Section returning.
Variable kind : forall X, netE S X -> Prop.
Hypothesis kind_Mem : forall A (f : S -> A * S), kind _ (Mem f).

Lemma only_pool_Get addr : only answers kind returns (pool_Get addr).
Proof.
  unfold pool_Get. cbn [trigger mbind prog_bind only]. split; [done|]. intros [c|] _; [done|]. cbn [trigger only].
  split; [done|]. intros x (s & ->). unfold dial. destruct (cp_conns (pool s)) as [m|]; [|done].
  destruct (m !! addr); [done|]. by destruct (NewClient addr).
Qed.

Hypothesis kind_Now : kind _ Now.
Hypothesis kind_Topic : forall c name, kind _ (RDescribeTopic c name).
Hypothesis kind_Cluster : forall c, kind _ (RDescribeCluster c).

Lemma only_refresh addrs topic : only answers kind returns (refresh_from addrs topic).
Proof.
  induction addrs as [|addr addrs IH]; cbn [refresh_from]; [done|].
  eapply only_bind; [apply only_pool_Get|]. intros [c|e|p|] _; [|exact IH..].
  cbn [trigger mbind prog_bind only]. split; [done|]. intros [e|[info parts]] _; [exact IH|].
  cbn [trigger mbind prog_bind only]. split; [done|]. intros [e|nodes] _; [exact IH|].
  cbn [trigger mbind prog_bind only]. split; [done|]. intros now _. split; [done|]. done.
Qed.

Lemma only_metaFor topic : only answers kind returns (metaFor topic).
Proof.
  unfold metaFor, meta_Get. cbn [trigger mbind prog_bind only]. split; [done|]. intros [[[ref at_] ttl]|] _.
  - cbn [trigger mbind prog_bind only]. split; [done|]. intros now _. cbn [mbind prog_bind].
    destruct (now - at_ >? ttl); [apply only_refresh|done].
  - cbn [mbind prog_bind]. apply only_refresh.
Qed.

Lemma only_leaderFor topic partID : only answers kind returns (leaderFor topic partID).
Proof.
  unfold leaderFor, call. eapply only_bind; [apply only_metaFor|]. intros [ref|e|p|] Hr; try done.
  unfold read_leader. cbn [trigger mbind prog_bind only]. split; [done|]. intros addr _.
  destruct (negb (String.eqb addr "")); [done|]. eapply only_bind; [apply only_refresh|]. intros [ref'|e|p|] Hr'; try done.
  cbn [trigger mbind prog_bind only]. split; [done|]. intros addr' _. by destruct (negb (String.eqb addr' "")).
Qed.
End returning.

End pool.

Arguments HasMeta : clear implicits.

End ClientNet.
