(* ===== verification/ClientWorld.v ===== *)
(** * Running a client

    The calls of ClientNet.v in a world with a client object and a clock: a connection is made for
    an address that has none, a fresh cache entry answers without requests, and a refresh asks
    the first known server. The worlds are those of the class [World]. *)

From S2P Require Import Prelude Keys Prog ClusterCoord ClientNet.
Local Open Scope Z_scope.

Module ClientWorld.
Import ClusterCoord ClientNet.

(** The parts of an object are independent. *)
Class ObjectLaws (S : Type) `{HasPool S} `{HasMeta S} := {
  pool_pool : forall s p, pool (with_pool s p) = p;
  meta_meta : forall s m, meta (with_meta s m) = m;
  pool_meta : forall s m, pool (with_meta s m) = pool s;
  meta_pool : forall s p, meta (with_pool s p) = meta s;
  with_pool_same : forall s, with_pool s (pool s) = s;
  with_meta_same : forall s, with_meta s (meta s) = s;
  with_pool_pool : forall s p1 p2, with_pool (with_pool s p1) p2 = with_pool s p2;
  with_meta_meta : forall s m1 m2, with_meta (with_meta s m1) m2 = with_meta s m2;
  with_pool_meta : forall s p m, with_pool (with_meta s m) p = with_meta (with_pool s p) m
}.

(** Only the pool and the cache have changed. *)
Definition touched {S} `{HasPool S} `{HasMeta S} (s s' : S) : Prop := exists p m, s' = with_meta (with_pool s p) m.

Section touched.
Context {S : Type} `{ObjectLaws S}.

#[export] Instance touched_refl : Reflexive touched.
Proof. intros s. exists (pool s), (meta s). by rewrite with_pool_same, with_meta_same. Qed.
#[export] Instance touched_trans : Transitive touched.
Proof.
  intros s1 s2 s3 (p & m & ->) (p' & m' & ->). exists p', m'. by rewrite with_pool_meta, with_pool_pool, with_meta_meta.
Qed.
Lemma touched_pool s p : touched s (with_pool s p).
Proof. exists p, (meta (with_pool s p)). by rewrite with_meta_same. Qed.
Lemma touched_meta s m : touched s (with_meta s m).
Proof. exists (pool s), m. by rewrite with_pool_same. Qed.
End touched.

Class World (S W : Type) (h : forall X, netE S X -> W -> X * W) := {
  obj : W -> S;
  upd : W -> S -> W;
  clock : W -> Z;
  obj_upd : forall w s, obj (upd w s) = s;
  upd_obj : forall w, upd w (obj w) = w;
  upd_upd : forall w s1 s2, upd (upd w s1) s2 = upd w s2;
  clock_upd : forall w s, clock (upd w s) = clock w;
  run_Mem : forall A (f : S -> A * S) w, h _ (Mem f) w = ((f (obj w)).1, upd w (f (obj w)).2);
  run_Now : forall w, h _ Now w = (clock w, w)
}.

(** The pool is open, and each connection leads to its address with the pool's options. *)
Record pool_ok (p : ConnPool) : Prop := {
  po_open : is_Some (cp_conns p);
  po_conns : forall a c, pool_find p a = Some c -> cn_addr c = a /\ cn_opts c = cp_opts p
}.

Lemma NewConnPool_ok opts : pool_ok (NewConnPool opts).
Proof. constructor; [by eexists|]. intros a c. unfold pool_find, NewConnPool. cbn. by rewrite lookup_empty. Qed.

(** The cache knows [a] as the leader of the partition. *)
Definition knows (mc : MetaCache) (now : Z) (topic : string) (partID : Z) (a : string) : Prop :=
  exists ref m, mc_cache mc !! topic = Some ref /\ mc_objects mc !! ref = Some m /\
    now - FetchedAt m <= mc_ttl mc /\ Leaders m !! partID = Some a.

(** The entries of other topics are the same. *)
Definition other_topics (topic : string) (m m' : MetaCache) : Prop :=
  forall topic', topic' <> topic -> mc_cache m' !! topic' = mc_cache m !! topic'.

Section running.
Context {S W : Type} {h : forall X, netE S X -> W -> X * W} `{World S W h} `{ObjectLaws S}.
Variable NewClient : string -> option error.

(** [Get] makes a connection at most, and changes nothing but the pool. *)
Lemma run_pool_Get addr w :
  pool_ok (pool (obj w)) -> NewClient addr = None ->
  exists c s', run h (pool_Get NewClient addr) w = (Ok c, upd w s') /\ cn_addr c = addr /\
    cn_opts c = cp_opts (pool (obj w)) /\ pool_ok (pool s') /\ meta s' = meta (obj w) /\
    cp_opts (pool s') = cp_opts (pool (obj w)) /\ touched (obj w) s'.
Proof.
  intros Hok Hn. pose proof Hok as [[m Hm] Hc]. unfold pool_Get. rewrite run_bind, run_trigger, run_Mem. cbn [fst snd].
  rewrite upd_obj. destruct (pool_find (pool (obj w)) addr) as [c|] eqn:Ef.
  - destruct (Hc _ _ Ef). exists c, (obj w). cbn [run]. rewrite upd_obj. by split_and!.
  - rewrite run_trigger, run_Mem. unfold pool_find in Ef. rewrite Hm in Ef. unfold dial. rewrite Hm, Ef, Hn. cbn [fst snd].
    set (c := {| cn_id := _; cn_addr := _; cn_opts := _ |}).
    set (p := {| cp_conns := _; cp_opts := _; cp_next := _ |}).
    exists c, (with_pool (obj w) p). rewrite pool_pool, meta_pool. split_and!; try done; [|apply touched_pool].
    constructor; [by eexists|]. intros a c'. unfold pool_find. cbn [cp_conns p cp_opts].
    destruct (decide (a = addr)) as [->|Hne].
    + rewrite lookup_insert_eq. by intros [= <-].
    + rewrite lookup_insert_ne by done. intros Ha. apply Hc. unfold pool_find. by rewrite Hm.
Qed.

Lemma run_read_leader ref m partID w :
  mc_objects (meta (obj w)) !! ref = Some m ->
  run h (read_leader ref partID) w = (default "" (Leaders m !! partID), w).
Proof.
  intros Hm. unfold read_leader. rewrite run_trigger, run_Mem. cbn [fst snd]. rewrite upd_obj, Hm. done.
Qed.

(** A fresh entry with a leader is all it takes. *)
Lemma run_leaderFor_known addrs topic partID a w :
  knows (meta (obj w)) (clock w) topic partID a -> a <> "" ->
  run h (leaderFor NewClient addrs topic partID) w = (Ok a, w).
Proof.
  intros (ref & m & Hc & Hm & Ht & Hl) Ha. unfold leaderFor, metaFor, meta_Get. rewrite run_call, run_bind, run_bind, run_trigger, run_Mem.
  cbn [fst snd]. rewrite Hc. cbn [mbind option_bind]. rewrite Hm, upd_obj. cbn [mbind option_bind].
  rewrite run_bind, run_trigger, run_Now. rewrite Z.gtb_ltb, (proj2 (Z.ltb_ge _ _)) by lia. cbn [run].
  rewrite run_bind, (run_read_leader ref m) by done. rewrite Hl. change (default "" (Some a)) with a.
  by rewrite (proj2 (String.eqb_neq a "")).
Qed.

Lemma run_metaFor_known addrs topic partID a w :
  knows (meta (obj w)) (clock w) topic partID a ->
  exists ref m, mc_cache (meta (obj w)) !! topic = Some ref /\ mc_objects (meta (obj w)) !! ref = Some m /\
    run h (metaFor NewClient addrs topic) w = (Ok ref, w).
Proof.
  intros (ref & m & Hc & Hm & Ht & _). exists ref, m. split; [done|]. split; [done|].
  unfold metaFor, meta_Get. rewrite run_bind, run_bind, run_trigger, run_Mem.
  cbn [fst snd]. rewrite Hc. cbn [mbind option_bind]. rewrite Hm, upd_obj. cbn [mbind option_bind].
  rewrite run_bind, run_trigger, run_Now. by rewrite Z.gtb_ltb, (proj2 (Z.ltb_ge _ _)) by lia.
Qed.

Lemma run_metaFor_absent addrs topic w :
  mc_cache (meta (obj w)) !! topic = None -> run h (metaFor NewClient addrs topic) w = run h (refreshMeta NewClient addrs topic) w.
Proof.
  intros Hn. unfold metaFor, meta_Get. rewrite run_bind, run_bind, run_trigger, run_Mem. cbn [fst snd].
  rewrite Hn, upd_obj. done.
Qed.

(** The object after a refresh: a new entry for the topic. *)
Definition refreshed (s : S) (topic : string) (m : TopicMeta) (s' : S) : Prop :=
  mc_objects (meta s') = mc_objects (meta s) ++ [m] /\
  mc_cache (meta s') = <[topic := length (mc_objects (meta s))]> (mc_cache (meta s)) /\
  mc_ttl (meta s') = mc_ttl (meta s) /\ pool_ok (pool s') /\ cp_opts (pool s') = cp_opts (pool s).

Lemma run_refresh addr addrs topic info parts nodes w :
  pool_ok (pool (obj w)) -> NewClient addr = None ->
  (forall c w', cn_addr c = addr -> cn_opts c = cp_opts (pool (obj w)) -> (exists s', w' = upd w s') ->
     h _ (RDescribeTopic c topic) w' = (inr (info, parts), w') /\ h _ (RDescribeCluster c) w' = (inr nodes, w')) ->
  exists s', run h (refreshMeta NewClient (addr :: addrs) topic) w = (Ok (length (mc_objects (meta (obj w)))), upd w s') /\
    refreshed (obj w) topic
      {| PartitionCount := partitionCountOf info parts; Leaders := leadersOf (nodeAddrs nodes) parts; FetchedAt := clock w |} s' /\ touched (obj w) s'.
Proof.
  intros Hok Hn Hd. destruct (run_pool_Get addr w Hok Hn) as (c & s1 & Er & Ha & Ho & Hok1 & Hm1 & Ho1 & Hs1).
  unfold refreshMeta. cbn [refresh_from]. rewrite run_bind, Er.
  destruct (Hd c (upd w s1) Ha Ho ltac:(eauto)) as [E1 E2].
  rewrite run_bind, run_trigger, E1. rewrite run_bind, run_trigger, E2.
  rewrite run_bind, run_trigger, run_Now. rewrite run_bind, run_trigger, run_Mem. rewrite obj_upd, Hm1, clock_upd, upd_upd.
  unfold meta_Put. cbn [fst snd run]. eexists. split; [reflexivity|]. unfold refreshed. rewrite meta_meta, pool_meta.
  split; [by split_and!|]. etrans; [exact Hs1|apply touched_meta].
Qed.

(** With an empty cache entry, the leader comes from the first known server. *)
Lemma run_leaderFor_refreshed addr addrs topic partID a info parts nodes w :
  mc_cache (meta (obj w)) !! topic = None -> pool_ok (pool (obj w)) -> NewClient addr = None ->
  (forall c w', cn_addr c = addr -> cn_opts c = cp_opts (pool (obj w)) -> (exists s', w' = upd w s') ->
     h _ (RDescribeTopic c topic) w' = (inr (info, parts), w') /\ h _ (RDescribeCluster c) w' = (inr nodes, w')) ->
  leadersOf (nodeAddrs nodes) parts !! partID = Some a -> a <> "" ->
  exists s', run h (leaderFor NewClient (addr :: addrs) topic partID) w = (Ok a, upd w s') /\
    refreshed (obj w) topic
      {| PartitionCount := partitionCountOf info parts; Leaders := leadersOf (nodeAddrs nodes) parts; FetchedAt := clock w |} s' /\ touched (obj w) s'.
Proof.
  intros Hnone Hok Hn Hd Hl Ha. destruct (run_refresh addr addrs topic info parts nodes w Hok Hn Hd) as (s' & Er & Hr & Ht).
  exists s'. split; [|done]. unfold leaderFor, metaFor, meta_Get. rewrite run_call, run_bind, run_bind, run_trigger, run_Mem.
  cbn [fst snd]. rewrite Hnone, upd_obj. cbn [mbind option_bind run]. rewrite Er. rewrite run_bind.
  pose proof Hr as (Ho & _). erewrite run_read_leader; [|rewrite obj_upd, Ho; by apply list_lookup_middle].
  cbn [Leaders]. rewrite Hl. change (default "" (Some a)) with a. by rewrite (proj2 (String.eqb_neq a "")).
Qed.

(** After a refresh the leader is known. *)
Lemma refreshed_knows s s' topic m partID a now :
  refreshed s topic m s' -> Leaders m !! partID = Some a -> now - FetchedAt m <= mc_ttl (meta s') ->
  knows (meta s') now topic partID a.
Proof.
  intros (Ho & Hc & _) Hl Ht. exists (length (mc_objects (meta s))), m. rewrite Hc, lookup_insert_eq, Ho.
  split_and!; [done| |done|done]. by apply list_lookup_middle.
Qed.

(** The leader of a partition, from a fresh entry or without one. *)
Lemma run_leaderFor addr addrs topic partID a info parts nodes w :
  knows (meta (obj w)) (clock w) topic partID a \/ mc_cache (meta (obj w)) !! topic = None ->
  pool_ok (pool (obj w)) -> 0 <= mc_ttl (meta (obj w)) -> NewClient addr = None ->
  (forall c w', cn_addr c = addr -> cn_opts c = cp_opts (pool (obj w)) -> (exists s', w' = upd w s') ->
     h _ (RDescribeTopic c topic) w' = (inr (info, parts), w') /\ h _ (RDescribeCluster c) w' = (inr nodes, w')) ->
  leadersOf (nodeAddrs nodes) parts !! partID = Some a -> a <> "" ->
  exists s', run h (leaderFor NewClient (addr :: addrs) topic partID) w = (Ok a, upd w s') /\ touched (obj w) s' /\
    knows (meta s') (clock w) topic partID a /\ pool_ok (pool s') /\ cp_opts (pool s') = cp_opts (pool (obj w)) /\
    mc_ttl (meta s') = mc_ttl (meta (obj w)) /\ other_topics topic (meta (obj w)) (meta s').
Proof.
  intros [Hk|Hnone] Hok Httl Hn Hd Hl Ha.
  - exists (obj w). rewrite run_leaderFor_known with (a := a) by done. rewrite upd_obj. by split_and!.
  - edestruct run_leaderFor_refreshed as (s' & Er & Hr & Ht); try done. exists s'. split; [exact Er|]. split; [exact Ht|].
    pose proof Hr as (_ & Hc & Htt & Hp & Ho).
    split; [eapply refreshed_knows; [exact Hr|exact Hl|]; cbn; lia|]. split_and!; try done.
    intros topic' Hne. by rewrite Hc, lookup_insert_ne.
Qed.

End running.
End ClientWorld.
