(* ===== verification/Producer.v ===== *)
(** * The producer

    pkg/client/producer.go: choice of the partition, discovery of its leader, and the retry loop of
    a produce request, as programs that any goroutine may run on the shared producer object. The
    theorems hold for every sequence of replies the network can give: a send makes at most
    MaxRetries + 1 produce requests, all with the same batch for the same partition, and reports
    an offset exactly when the last of them was acknowledged with it. *)

From S2P Require Import Prelude Keys Prog Batch BatchLog ClientCodec ClientNet.
Local Open Scope Z_scope.

Module Producer.
Import ClientNet ClientCodec.

Record Producer := { pr_pool : ConnPool; pr_meta : MetaCache; roundRobinCounter : Z }.

#[global] Instance Producer_pool : HasPool Producer :=
  {| pool := pr_pool;
     with_pool := fun s p => {| pr_pool := p; pr_meta := pr_meta s; roundRobinCounter := roundRobinCounter s |} |}.
#[global] Instance Producer_meta : HasMeta Producer :=
  {| meta := pr_meta;
     with_meta := fun s m => {| pr_pool := pr_pool s; pr_meta := m; roundRobinCounter := roundRobinCounter s |} |}.

(** ** Partitions *)

(** [hash/fnv]: FNV-1a, 32 bits. *)
Definition fnv32a (key : list byte) : Z :=
  fold_left (fun h b => u32 (Z.lxor h (byte.unsigned b) * 16777619)) key 2166136261.

(** The [%] of Go: truncated, and it panics on zero. *)
Definition rem (a b : Z) : outcome Z := if b =? 0 then Panic PanicDivide else Ok (Z.rem a b).

(** The counter is advanced by a request without a key. *)
Definition selectPartition (key : list byte) (partitionCount counter : Z) : outcome Z * Z :=
  if len key =? 0 then
    let counter := i64 (counter + 1) in
    let n := i64 (counter - 1) in
    ((fun r => i32 r) <$> rem n partitionCount, counter)
  else ((fun r => i32 r) <$> rem (fnv32a key) (u32 partitionCount), counter).

(** ** Choosing a partition *)

Lemma fnv32a_range key : 0 <= fnv32a key < 2 ^ 32.
Proof.
  unfold fnv32a. induction key as [|b key _] using rev_ind; [cbn; lia|]. rewrite fold_left_app. cbn [fold_left].
  apply u32_range.
Qed.

Lemma select_key key count n :
  key <> [] -> 0 < count < 2 ^ 31 -> selectPartition key count n = (Ok (fnv32a key mod count), n).
Proof.
  intros Hk Hc. unfold selectPartition. rewrite (proj2 (Z.eqb_neq (len key) 0)) by (destruct key; [done|len_lia]).
  pose proof (fnv32a_range key). rewrite (u32_id count) by (unfold in_u32; lia). unfold rem.
  rewrite (proj2 (Z.eqb_neq _ _)) by lia. cbn [fmap outcome_fmap]. rewrite Z.rem_mod_nonneg by lia.
  pose proof (Z.mod_pos_bound (fnv32a key) count ltac:(lia)). by rewrite i32_id by (unfold in_i32; lia).
Qed.

Lemma select_round count n :
  0 < count < 2 ^ 31 -> 0 <= n -> n + 1 < 2 ^ 63 -> selectPartition [] count n = (Ok (n mod count), n + 1).
Proof.
  intros Hc Hn Hb. unfold selectPartition. change (len [] =? 0) with true. cbn iota.
  rewrite !(i64_id (n + 1)) by (unfold in_i64; lia). replace (n + 1 - 1) with n by lia.
  rewrite i64_id by (unfold in_i64; lia). unfold rem. rewrite (proj2 (Z.eqb_neq _ _)) by lia. cbn [fmap outcome_fmap].
  rewrite Z.rem_mod_nonneg by lia. pose proof (Z.mod_pos_bound n count ltac:(lia)). by rewrite i32_id by (unfold in_i32; lia).
Qed.

(** [k] sends without a key, one after the other. *)
Fixpoint select_run (k : nat) (count n : Z) : list (outcome Z) :=
  match k with
  | O => []
  | S k' => let '(r, n') := selectPartition [] count n in r :: select_run k' count n'
  end.

Lemma select_run_eq k count n :
  0 < count < 2 ^ 31 -> 0 <= n -> n + Z.of_nat k < 2 ^ 63 ->
  select_run k count n = (fun i => Ok ((n + i) mod count)) <$> seqZ 0 (Z.of_nat k).
Proof.
  intros Hc. revert n. induction k as [|k IH]; intros n Hn Hb; [done|]. cbn [select_run].
  rewrite select_round by lia. rewrite IH by lia. rewrite Nat2Z.inj_succ, (seqZ_cons 0 (Z.succ _)) by lia.
  cbn [fmap list_fmap]. rewrite Z.add_0_r. f_equal. rewrite Z.pred_succ.
  replace (seqZ (Z.succ 0) (Z.of_nat k)) with (Z.add 1 <$> seqZ 0 (Z.of_nat k)) by (by rewrite fmap_add_seqZ).
  rewrite <- list_fmap_compose. apply list_fmap_ext. intros _ i _. cbn. do 2 f_equal. lia.
Qed.

Lemma round_permutation count n :
  0 < count -> (fun i => (n + i) mod count) <$> seqZ 0 count ≡ₚ seqZ 0 count.
Proof.
  intros Hc. apply submseteq_length_Permutation; [|by rewrite length_fmap].
  apply NoDup_submseteq.
  - apply NoDup_fmap_2_strong; [|apply NoDup_seqZ]. intros i j Hi%elem_of_seqZ Hj%elem_of_seqZ E.
    assert ((i - j) mod count = 0) as Hd.
    { replace (i - j) with ((n + i) - (n + j)) by lia. rewrite Zminus_mod, E, Z.sub_diag. apply Z.mod_0_l. lia. }
    apply Z.mod_divide in Hd as [k Hk]; [|lia]. assert (k = 0) by nia. lia.
  - intros x (i & -> & _)%list_elem_of_fmap. apply elem_of_seqZ. pose proof (Z.mod_pos_bound (n + i) count Hc). lia.
Qed.

(** C21: The partition of a send is always one of the topic's: records with a key always go to the
    same partition, whatever else the producer has sent, and [count] records without a key in a
    row go to each of the [count] partitions once. *)
Theorem selectPartition_spreads count :
  0 < count < 2 ^ 31 ->
  (forall key, key <> [] -> exists i, 0 <= i < count /\ forall n, selectPartition key count n = (Ok i, n)) /\
  (forall n, 0 <= n -> n + count < 2 ^ 63 -> select_run (Z.to_nat count) count n ≡ₚ Ok <$> seqZ 0 count).
Proof.
  intros Hc. split.
  - intros key Hk. exists (fnv32a key mod count). split; [apply Z.mod_pos_bound; lia|]. intros n. by apply select_key.
  - intros n Hn Hb. rewrite select_run_eq by lia. rewrite Z2Nat.id by lia.
    transitivity ((Ok : Z -> outcome Z) <$> ((fun i => (n + i) mod count) <$> seqZ 0 count)).
    + by rewrite <- list_fmap_compose.
    + by rewrite round_permutation by lia.
Qed.

Section producer.
Context `{Float64}.

Record ProducerConfig := { pc_Config : Config; DefaultAcks : Z; MetadataCacheTTL : Z }.

(** The retry settings every client constructor fills in. *)
Definition defaultRetry (r : RetryPolicy) : RetryPolicy :=
  {| MaxRetries := if MaxRetries r =? 0 then 3 else MaxRetries r;
     InitialBackoff := if InitialBackoff r <=? 0 then 50 * 10 ^ 6 else InitialBackoff r;
     MaxBackoff := if MaxBackoff r <=? 0 then 2 * 10 ^ 9 else MaxBackoff r;
     BackoffFactor := if f64_eqb (BackoffFactor r) (f64_of_Z 0) then f64_of_Z 2 else BackoffFactor r |}.

Definition defaultConfig (c : Config) : Config :=
  {| BootstrapServers := BootstrapServers c; AuthToken := AuthToken c; TLS := TLS c;
     RequestTimeout := if RequestTimeout c <=? 0 then 5 * 10 ^ 9 else RequestTimeout c; Retry := defaultRetry (Retry c) |}.

Definition dialOptions (c : Config) : list DialOption :=
  [TransportCredentials (TLS c)] ++ (if negb (String.eqb (AuthToken c) "") then [AuthInterceptor (AuthToken c)] else []).

(** The configuration in force and the new object; the known addresses are the bootstrap servers. *)
Definition NewProducer (config : ProducerConfig) : outcome (ProducerConfig * Producer) :=
  if len (BootstrapServers (pc_Config config)) =? 0 then Err (ErrNew "client: BootstrapServers must not be empty") else
  let ttl := if MetadataCacheTTL config <=? 0 then 60 * 10 ^ 9 else MetadataCacheTTL config in
  let c := defaultConfig (pc_Config config) in
  Ok ({| pc_Config := c; DefaultAcks := DefaultAcks config; MetadataCacheTTL := MetadataCacheTTL config |},
      {| pr_pool := NewConnPool (dialOptions c); pr_meta := NewMetaCache ttl; roundRobinCounter := 0 |}).

Definition extractErr (e : error) : option Z * option (Z * string) := extractBunnyError e.

Definition calcBackoff (attempt : Z) (policy : RetryPolicy) : Z := backoffDuration attempt policy.

Section calls.
Variable NewClient : string -> option error.
Variable range : nat -> headers -> list (list byte * list byte).
Variable config : Config.
Abbreviation pprog := (prog (netE Producer)).
Abbreviation knownAddrs := (BootstrapServers config).
Abbreviation maxRetries := (MaxRetries (Retry config)).

Definition metaFor (topic : string) : pprog (outcome nat) := ClientNet.metaFor NewClient knownAddrs topic.
Definition refreshMeta (topic : string) : pprog (outcome nat) := ClientNet.refreshMeta NewClient knownAddrs topic.
Definition leaderFor (topic : string) (partID : Z) : pprog (outcome string) :=
  ClientNet.leaderFor NewClient knownAddrs topic partID.

(** The loop's answer to a failed produce request; [again] is the next attempt. *)
Definition on_error (attempt : Z) (topic : string) (partID : Z) (rpcErr : error) (again : pprog (outcome Z))
  : pprog (outcome Z) :=
  let '(bunnyErr, notLeader) := extractErr rpcErr in
  match bunnyErr with
  | None =>
      match status_FromError rpcErr with
      | Some (code, _) =>
          if code =? codes_Unavailable then
            _ ← Invalidate topic;
            if attempt >=? maxRetries then Ret (Err rpcErr) else
            _ ← trigger (Sleep (calcBackoff attempt (Retry config))); again
          else Ret (Err rpcErr)
      | None => Ret (Err rpcErr)
      end
  | Some code =>
      if code =? NOT_LEADER then
        _ ← (match notLeader with
             | Some (_, address) => if negb (String.eqb address "") then SetLeader topic partID address else Ret tt
             | None => Ret tt
             end);
        if attempt >=? maxRetries then Ret (Err rpcErr) else again
      else if (code =? UNAVAILABLE) || (code =? TIMEOUT) then
        if attempt >=? maxRetries then Ret (Err rpcErr) else
        _ ← trigger (Sleep (calcBackoff attempt (Retry config))); again
      else Ret (Err rpcErr)
  end.

(** The loop of [sendToPartition]; [fuel] bounds the attempts. *)
Fixpoint send_loop (fuel : nat) (attempt : Z) (topic : string) (partID : Z) (batchData : list byte) (acks : Z)
  : pprog (outcome Z) :=
  match fuel with
  | O => Ret OutOfFuel
  | S fuel' =>
      let again := send_loop fuel' (attempt + 1) topic partID batchData acks in
      r ← leaderFor topic partID;
      match r with
      | Ok addr =>
          c ← pool_Get NewClient addr;
          match c with
          | Ok conn =>
              resp ← trigger (RProduce conn topic partID acks batchData);
              match resp with
              | inr offset => Ret (Ok offset)
              | inl rpcErr => on_error attempt topic partID rpcErr again
              end
          | Err e => if attempt >=? maxRetries then Ret (Err e) else _ ← trigger (Sleep (calcBackoff attempt (Retry config))); again
          | Panic p => Ret (Panic p)
          | OutOfFuel => Ret OutOfFuel
          end
      | Err e =>
          if errors_is e sNoReachableServer && (attempt <? maxRetries) then
            _ ← trigger (Sleep (calcBackoff attempt (Retry config))); again
          else Ret (Err e)
      | Panic p => Ret (Panic p)
      | OutOfFuel => Ret OutOfFuel
      end
  end.

(** One attempt and the retries. *)
Definition attempts : nat := S (Z.to_nat maxRetries).

Definition sendToPartition (topic : string) (partID : Z) (batchData : list byte) (acks : Z) : pprog (outcome Z) :=
  send_loop attempts 0 topic partID batchData acks.

(** The key is [None] for a nil slice. *)
Definition Send (topic : string) (key : option (list byte)) (value : list byte) (hs : headers) (acks : Z)
  : pprog (outcome Z) :=
  call (metaFor topic) id (fun ref =>
  count ← trigger (Mem (fun s => (default 0 (PartitionCount <$> mc_objects (meta s) !! ref), s)));
  sel ← trigger (Mem (fun s =>
    let '(r, counter) := selectPartition (default [] key) count (roundRobinCounter s) in
    (r, {| pr_pool := pr_pool s; pr_meta := pr_meta s; roundRobinCounter := counter |})));
  match sel with
  | Ok partID =>
      now ← trigger Now;
      match Encode range [{| br_Key := key; br_Value := value; br_Headers := hs; br_TimestampMs := now / 10 ^ 6 |}] with
      | Ok batchData => sendToPartition topic partID batchData acks
      | Err e => Ret (Err e)
      | Panic p => Ret (Panic p)
      | OutOfFuel => Ret OutOfFuel
      end
  | Err e => Ret (Err e)
  | Panic p => Ret (Panic p)
  | OutOfFuel => Ret OutOfFuel
  end).

Definition SendBatch (topic : string) (partitionID : Z) (batchData : list byte) (acks : Z) : pprog (outcome Z) :=
  sendToPartition topic partitionID batchData acks.

Definition Flush : outcome unit := Ok tt.

Definition Close : pprog (list error) := pool_Close.

(** ** The requests of a send *)

(** A produce request of a path, and its reply. *)
Definition request : Type := string * Z * Z * list byte.
Definition produced (o : obs (netE Producer)) : option (request * (error + Z)) :=
  match ob_request o in netE _ X return X -> option (request * (error + Z)) with
  | RProduce _ topic partID acks batch => fun r => Some ((topic, partID, acks, batch), r)
  | _ => fun _ => None
  end (ob_reply o).

Fixpoint sent (t : list (obs (netE Producer))) : list (request * (error + Z)) :=
  match t with
  | [] => []
  | o :: t' => match produced o with Some s => s :: sent t' | None => sent t' end
  end.

Lemma sent_app t1 t2 : sent (t1 ++ t2) = sent t1 ++ sent t2.
Proof. induction t1 as [|o t1 IH]; cbn; [done|]. rewrite IH. by destruct (produced o). Qed.

Definition silent X (e : netE Producer X) : Prop := match e with RProduce _ _ _ _ _ => False | _ => True end.

Lemma silent_produced t : Forall (fun o => silent _ (ob_request o)) t -> sent t = [].
Proof.
  induction 1 as [|[X e x] t He _ IH]; [done|]. cbn [sent]. by destruct e.
Qed.

Abbreviation ppath := (path (@answers Producer)).

(** A call without produce requests that returns. *)
Lemma quiet_path {A} (p : pprog (outcome A)) t r :
  only answers silent returns p -> ppath p t r -> sent t = [] /\ returns r.
Proof. intros Hp Ht. destruct (only_path _ _ _ _ _ _ Hp Ht) as [Hs Hr]. by rewrite silent_produced. Qed.

Lemma leaderFor_path topic partID t r : ppath (leaderFor topic partID) t r -> sent t = [] /\ returns r.
Proof. apply quiet_path. by apply only_leaderFor. Qed.

Lemma pool_path addr t r : ppath (pool_Get NewClient addr) t r -> sent t = [] /\ returns r.
Proof. apply quiet_path. by apply only_pool_Get. Qed.

Lemma quiet_unit (p : pprog unit) t x : only answers silent (fun _ => True) p -> ppath p t x -> sent t = [].
Proof. intros Hp Ht. destruct (only_path _ _ _ _ _ _ Hp Ht) as [Hs _]. by rewrite silent_produced. Qed.

(** The errors after which a request is sent again: NOT_LEADER, UNAVAILABLE, TIMEOUT, or a gRPC
    error UNAVAILABLE without details. *)
Definition retried (e : error) : bool :=
  match (extractErr e).1 with
  | Some code => (code =? NOT_LEADER) || (code =? UNAVAILABLE) || (code =? TIMEOUT)
  | None => match status_FromError e with Some (code, _) => code =? codes_Unavailable | None => false end
  end.

(** At most [n] requests, all for [q] and all but the last answered with an error that allows another
    one; success is the offset of the last answer. *)
Definition reported (q : request) (n : nat) (log : list (request * (error + Z))) (r : outcome Z) : Prop :=
  (length log <= n)%nat /\ Forall (fun s => s.1 = q) log /\
  match r with
  | Ok offset => exists errs, log.*2 = (inl <$> errs) ++ [inr offset] /\ Forall (fun e => retried e = true) errs
  | Err e => exists errs, log.*2 = inl <$> errs /\ Forall (fun e => retried e = true) (removelast errs)
  | _ => False
  end.

(** ** The retry loop *)

Section loop.
Variables (topic : string) (partID acks : Z) (batchData : list byte).
Abbreviation q := ((topic, partID, acks, batchData) : request).
Abbreviation produce c := (RProduce c topic partID acks batchData).
Abbreviation trace := (list (obs (netE Producer))).

(** The leader was found and there is a connection to it. *)
Definition connects (t : trace) (c : conn) : Prop :=
  exists t1 t2 addr, t = t1 ++ t2 /\ ppath (leaderFor topic partID) t1 (Ok addr) /\ ppath (pool_Get NewClient addr) t2 (Ok c).

(** It was not, or there is none; [again]: whether that is worth another attempt. *)
Inductive unreached : trace -> error -> bool -> Prop :=
| un_leader t e : ppath (leaderFor topic partID) t (Err e) -> unreached t e (errors_is e sNoReachableServer)
| un_conn t1 t2 addr e : ppath (leaderFor topic partID) t1 (Ok addr) -> ppath (pool_Get NewClient addr) t2 (Err e) -> unreached (t1 ++ t2) e true.

(** A send with [n] retries left: every attempt looks the leader up, connects and sends the same
    request; an acknowledgement is the result, an error is the result unless it allows another
    attempt and there is one left. *)
Inductive sends : nat -> trace -> outcome Z -> Prop :=
| sends_ok n t c offset : connects t c -> sends n (t ++ [Obs (produce c) (inr offset)]) (Ok offset)
| sends_error n t c e t' : connects t c -> retried e = false \/ n = O -> sent t' = [] -> sends n (t ++ Obs (produce c) (inl e) :: t') (Err e)
| sends_again n t c e t' t'' r :
    connects t c -> retried e = true -> sent t' = [] -> sends n t'' r -> sends (S n) (t ++ Obs (produce c) (inl e) :: t' ++ t'') r
| sends_unreached n t e again : unreached t e again -> again = false \/ n = O -> sends n t (Err e)
| sends_wait n t e t' t'' r : unreached t e true -> sent t' = [] -> sends n t'' r -> sends (S n) (t ++ t' ++ t'') r.

Lemma connects_sent t c : connects t c -> sent t = [].
Proof. intros (t1 & t2 & addr & -> & [H1 _]%leaderFor_path & [H2 _]%pool_path). by rewrite sent_app, H1, H2. Qed.

Lemma unreached_sent t e again : unreached t e again -> sent t = [].
Proof. intros [t' e' [Hs _]%leaderFor_path|t1 t2 addr e' [H1 _]%leaderFor_path [H2 _]%pool_path]; [done|]. by rewrite sent_app, H1, H2. Qed.

Lemma reported_more n log r : reported q n log r -> reported q (S n) log r.
Proof. intros (H1 & H2 & H3). split; [lia|done]. Qed.

Lemma reported_retry n log r e : retried e = true -> reported q n log r -> reported q (S n) ((q, inl e) :: log) r.
Proof.
  intros He (H1 & H2 & H3). split; [cbn; lia|]. split; [by constructor|]. destruct r as [off|e'|p|]; try done.
  - destruct H3 as (errs & E & Hr). exists (e :: errs). cbn. rewrite E. split; [done|by constructor].
  - destruct H3 as (errs & E & Hr). exists (e :: errs). cbn [fmap list_fmap]. cbn. rewrite E. split; [done|].
    destruct errs as [|e1 errs]; [constructor|]. by constructor.
Qed.

Lemma sends_reported n t r : sends n t r -> reported q (S n) (sent t) r.
Proof.
  induction 1 as [n t c off Hc|n t c e t' Hc _ Ht'|n t c e t' t'' r Hc He Ht' _ IH|n t e again Hu _|n t e t' t'' r Hu Ht' _ IH];
    rewrite ?sent_app, ?(connects_sent _ _ Hc), ?(unreached_sent _ _ _ Hu); cbn [app sent produced ob_request ob_reply]; rewrite ?sent_app, ?Ht'.
  - split; [cbn; lia|]. split; [by constructor|]. by exists [].
  - split; [cbn; lia|]. split; [by constructor|]. by exists [e].
  - by apply reported_retry.
  - split; [cbn; lia|]. split; [constructor|]. by exists [].
  - by apply reported_more.
Qed.

(** The reply to a produce request: the result, or another attempt. *)
Lemma on_error_path attempt e again t r :
  ppath (on_error attempt topic partID e again) t r ->
  (r = Err e /\ sent t = [] /\ (retried e = false \/ maxRetries <= attempt)) \/
  (retried e = true /\ attempt < maxRetries /\ exists t1 t2, t = t1 ++ t2 /\ sent t1 = [] /\ ppath again t2 r).
Proof.
  unfold on_error, retried. destruct (extractErr e) as [bunny notLeader]. cbn [fst].
  assert (forall t' b, b = true -> ppath (if attempt >=? maxRetries then Ret (Err e) else _ ← trigger (Sleep (calcBackoff attempt (Retry config))); again) t' r ->
    (r = Err e /\ sent t' = [] /\ (b = false \/ maxRetries <= attempt)) \/
    (b = true /\ attempt < maxRetries /\ exists t1 t2, t' = t1 ++ t2 /\ sent t1 = [] /\ ppath again t2 r)) as Hsleep.
  { intros t' b -> H1. rewrite Z.geb_leb in H1. destruct (Z.leb_spec maxRetries attempt); [left; destruct H1 as [-> ->]; auto|right].
    destruct H1 as (x & t2 & _ & -> & Ht). split; [done|]. split; [done|]. by eexists [_], t2. }
  destruct bunny as [code|].
  - destruct (Z.eqb_spec code NOT_LEADER) as [->|Hn]; cbn [orb].
    + intros (t1 & t2 & x & -> & H1 & H2)%path_bind. rewrite sent_app. assert (sent t1 = []) as Hs.
      { eapply quiet_unit; [|exact H1]. destruct notLeader as [[node a]|]; [|done]. by destruct (negb _). }
      rewrite Hs. cbn [app]. rewrite Z.geb_leb in H2. destruct (Z.leb_spec maxRetries attempt); [left; destruct H2 as [-> ->]; auto|right].
      split; [done|]. split; [done|]. by exists t1, t2.
    + destruct ((code =? UNAVAILABLE) || (code =? TIMEOUT)) eqn:Ec; [by apply Hsleep|]. intros [-> ->]. left. auto.
  - destruct (status_FromError e) as [[code ds]|]; [|intros [-> ->]; left; auto]. destruct (code =? codes_Unavailable); [|intros [-> ->]; left; auto].
    intros (x & t' & _ & -> & Ht). cbn [sent produced ob_request ob_reply]. destruct (Hsleep t' true eq_refl Ht) as [?|(H1 & H2 & t1 & t2 & -> & Hs & Hp)]; [by left|].
    right. split; [done|]. split; [done|]. by eexists (_ :: t1), t2.
Qed.

Lemma send_loop_sends fuel attempt t r :
  (Z.to_nat (maxRetries - attempt) < fuel)%nat -> 0 <= attempt ->
  ppath (send_loop fuel attempt topic partID batchData acks) t r -> sends (Z.to_nat (maxRetries - attempt)) t r.
Proof.
  revert attempt t r. induction fuel as [|fuel IH]; intros attempt t r Hf Ha; [lia|].
  assert (forall t' r', attempt < maxRetries -> ppath (send_loop fuel (attempt + 1) topic partID batchData acks) t' r' ->
    exists n, Z.to_nat (maxRetries - attempt) = S n /\ sends n t' r') as Hc.
  { intros t' r' Hlt Hp. apply IH in Hp; [|lia|lia]. exists (Z.to_nat (maxRetries - (attempt + 1))). split; [lia|done]. }
  assert (forall t0 e t' r', unreached t0 e true -> attempt < maxRetries ->
    ppath (_ ← trigger (Sleep (calcBackoff attempt (Retry config))); send_loop fuel (attempt + 1) topic partID batchData acks) t' r' ->
    sends (Z.to_nat (maxRetries - attempt)) (t0 ++ t') r') as Hwait.
  { intros t0 e t' r' Hu Hlt (x & t'' & _ & -> & Ht). destruct (Hc _ _ Hlt Ht) as (n & -> & Hn). by apply (sends_wait n t0 e [_] t''). }
  cbn [send_loop]. intros (t1 & t2 & l & -> & H1 & H2)%path_bind. pose proof (leaderFor_path _ _ _ _ H1) as [_ Hl].
  destruct l as [addr|e|p|]; [|clear Hl|done..]; cycle 1.
  { destruct (errors_is e sNoReachableServer) eqn:Ee; cbn [andb] in H2; [destruct (Z.ltb_spec attempt maxRetries)|].
    - eapply Hwait; [rewrite <- Ee; by constructor|done|done].
    - destruct H2 as [-> ->]. rewrite app_nil_r. eapply sends_unreached; [by constructor|right; lia].
    - destruct H2 as [-> ->]. rewrite app_nil_r. eapply sends_unreached; [by constructor|by left]. }
  apply path_bind in H2 as (t3 & t4 & c & -> & H3 & H4). pose proof (pool_path _ _ _ H3) as [_ Hp]. rewrite app_assoc.
  destruct c as [conn|e|p|]; [|clear Hp|done..]; cycle 1.
  { rewrite Z.geb_leb in H4. assert (unreached (t1 ++ t3) e true) as Hu by (by econstructor). destruct (Z.leb_spec maxRetries attempt).
    - destruct H4 as [-> ->]. rewrite app_nil_r. eapply sends_unreached; [done|right; lia].
    - by eapply Hwait. }
  assert (connects (t1 ++ t3) conn) as Hcn by (by exists t1, t3, addr).
  destruct H4 as (x & t' & _ & -> & Ht). destruct x as [e|offset]; [|destruct Ht as [-> ->]; by apply sends_ok].
  apply on_error_path in Ht as [(-> & Hs & He)|(He & Hlt & t5 & t6 & -> & Hs & Ht)].
  - apply sends_error; [done| |done]. destruct He; [by left|right; lia].
  - destruct (Hc _ _ Hlt Ht) as (n & -> & Hn). by apply sends_again.
Qed.
End loop.

(** C20: A send on a topic, partition and batch ends, whatever the cluster and the network do, with an
    offset or an error, after at most MaxRetries + 1 attempts. Every attempt looks the leader up,
    connects to it and sends the given batch for the given partition. An acknowledgement ends
    the send with its offset. An error ends it and is what the send reports: the answer to a
    request when it is not NOT_LEADER, UNAVAILABLE, TIMEOUT or a lost connection, the failure of
    the lookup when servers were reached; the errors that are left, and a failed connection, are
    reported when there is no attempt left, and otherwise followed by another attempt. So
    success means that the last request was acknowledged with this offset and all before it were
    answered with errors that allow another one. *)
Theorem sendToPartition_reported topic partID batchData acks t r :
  ppath (sendToPartition topic partID batchData acks) t r ->
  sends topic partID acks batchData (Z.to_nat maxRetries) t r /\
  reported (topic, partID, acks, batchData) attempts (sent t) r.
Proof.
  intros Ht. unfold sendToPartition in Ht. apply send_loop_sends in Ht; [|unfold attempts; lia|lia].
  rewrite Z.sub_0_r in Ht. split; [done|]. by apply sends_reported.
Qed.

End calls.
End producer.
End Producer.
