(* ===== verification/ProducerRun.v ===== *)
(** * A producer and a deposed leader

    [not_leader_stuck]: a broker that no longer leads a partition and does not know the new
    leader answers NOT_LEADER with an empty address. The producer then keeps the cached leader
    and asks the same broker on every attempt, also when the metadata it could fetch names the
    new leader. *)

From S2P Require Import Prelude Keys Prog ClusterCoord ClientCodec ClientNet ClientWorld Producer.
Local Open Scope Z_scope.

Module ProducerRun.
Import ClusterCoord ClientNet ClientWorld Producer.

#[global] Instance Producer_laws : ObjectLaws Producer.
Proof. constructor; by intros []. Qed.

Record pworld := { pw_obj : Producer; pw_clock : Z; pw_asked : list string }.

Section refusing.
(** What every server describes, and what every server answers to a produce request. *)
Variable parts : list PartitionInfo.
Variable nodes : list NodeDescriptor.
Variable refusal : error.

Definition handle X (e : netE Producer X) : pworld -> X * pworld :=
  match e in netE _ X return pworld -> X * pworld with
  | Mem f => fun w => ((f (pw_obj w)).1, {| pw_obj := (f (pw_obj w)).2; pw_clock := pw_clock w; pw_asked := pw_asked w |})
  | Now => fun w => (pw_clock w, w)
  | Sleep _ => fun w => (tt, w)
  | Done => fun w => (None, w)
  | Order entries => fun w => (entries, w)
  | CloseConn _ => fun w => (None, w)
  | RDescribeTopic _ _ => fun w => (inr (None, parts), w)
  | RDescribeCluster _ => fun w => (inr nodes, w)
  | RProduce c _ _ _ _ => fun w =>
      (inl refusal, {| pw_obj := pw_obj w; pw_clock := pw_clock w; pw_asked := pw_asked w ++ [cn_addr c] |})
  | RCreateTopic _ _ _ _ _ _ | RDeleteTopic _ _ | RListTopics _ | RAlterPartitions _ _ _ | RAlterRetention _ _ _ _
  | RListPartitions _ _ | RFetch _ _ _ _ _ _ | RGetOffsets _ _ _ _ | RJoinGroup _ _ _ _ _ _ | RHeartbeat _ _ _ _
  | RLeaveGroup _ _ _ | RCommitOffset _ _ _ _ _ | RFetchCommitted _ _ _ => fun w => (inl (ErrNew "unimplemented"), w)
  end.

#[export] Instance pworld_world : World Producer pworld handle.
Proof.
  unshelve refine {| obj := pw_obj; clock := pw_clock;
    upd := fun w s => {| pw_obj := s; pw_clock := pw_clock w; pw_asked := pw_asked w |} |}; try done. by intros [].
Defined.

Lemma handle_answers X (e : netE Producer X) w : answers X e (handle X e w).1.
Proof. destruct e; cbn; eauto. Qed.

Context `{Float64}.
Variable NewClient : string -> option error.
Variable config : Config.
Abbreviation maxRetries := (MaxRetries (Retry config)).

Lemma run_stuck fuel attempt topic partID batchData acks a w :
  (extractErr refusal).1 = Some NOT_LEADER -> from_option snd "" (extractErr refusal).2 = "" ->
  knows (pr_meta (pw_obj w)) (pw_clock w) topic partID a -> a <> "" -> pool_ok (pr_pool (pw_obj w)) -> NewClient a = None ->
  (Z.to_nat (maxRetries - attempt) < fuel)%nat -> 0 <= attempt ->
  exists w', run handle (send_loop NewClient config fuel attempt topic partID batchData acks) w = (Err refusal, w') /\
    pw_asked w' = pw_asked w ++ replicate (S (Z.to_nat (maxRetries - attempt))) a /\
    knows (pr_meta (pw_obj w')) (pw_clock w') topic partID a.
Proof.
  intros Hb Hl. revert attempt w. induction fuel as [|fuel IH]; intros attempt w Hk Ha Hp Hn Hf H0; [lia|].
  cbn [send_loop]. unfold leaderFor. rewrite run_bind, (run_leaderFor_known (h := handle) NewClient _ topic partID a w) by done.
  destruct (run_pool_Get (h := handle) NewClient a w) as (c & s1 & Er & Hca & _ & Hp1 & Hm1 & _ & _); [done|done|].
  change (pr_meta s1 = pr_meta (pw_obj w)) in Hm1.
  rewrite run_bind, Er. rewrite run_bind, run_trigger. cbn [handle]. rewrite Hca.
  set (w1 := {| pw_obj := _; pw_clock := _; pw_asked := _ |}).
  unfold on_error. destruct (extractErr refusal) as [b l]. cbn [fst snd] in Hb, Hl. rewrite Hb.
  change (NOT_LEADER =? NOT_LEADER) with true. cbn iota beta. rewrite run_bind.
  assert (run handle (match l with
      | Some (_, address) => if negb (String.eqb address "") then SetLeader topic partID address else Ret tt
      | None => Ret tt
      end) w1 = (tt, w1)) as ->.
  { destruct l as [[node address]|]; [|done]. cbn in Hl. by rewrite Hl. }
  rewrite Z.geb_leb. destruct (Z.leb_spec maxRetries attempt) as [Hle|Hlt].
  - exists w1. split; [done|]. cbn. rewrite Hm1. by replace (Z.to_nat (maxRetries - attempt)) with 0%nat by lia.
  - destruct (IH (attempt + 1) w1) as (w' & E & Hw & Hk'); try done.
    + cbn. by rewrite Hm1.
    + lia.
    + lia.
    + exists w'. split; [exact E|]. split; [|exact Hk']. rewrite Hw. cbn [w1 pw_asked upd pworld_world]. rewrite <- app_assoc. f_equal.
      change ([a] ++ ?l) with (a :: l). rewrite <- replicate_S. f_equal. lia.
Qed.

(** A broker that answers NOT_LEADER without an address is asked again on every attempt. The
    producer neither drops the cached leader nor fetches the metadata, whatever leader the
    servers describe; all MaxRetries + 1 requests go to the old leader [a], without a pause, the
    send fails, and the cache still names [a]. *)
Theorem not_leader_stuck topic partID batchData acks a w :
  (extractErr refusal).1 = Some NOT_LEADER -> from_option snd "" (extractErr refusal).2 = "" ->
  knows (pr_meta (pw_obj w)) (pw_clock w) topic partID a -> a <> "" -> pool_ok (pr_pool (pw_obj w)) -> NewClient a = None ->
  exists w', run handle (sendToPartition NewClient config topic partID batchData acks) w = (Err refusal, w') /\
    pw_asked w' = pw_asked w ++ replicate (attempts config) a /\
    knows (pr_meta (pw_obj w')) (pw_clock w') topic partID a.
Proof.
  intros Hb Hl Hk Ha Hp Hn. unfold sendToPartition, attempts.
  destruct (run_stuck (S (Z.to_nat maxRetries)) 0 topic partID batchData acks a w) as (w' & E & Hw & Hk'); try done.
  - rewrite Z.sub_0_r. lia.
  - exists w'. split; [exact E|]. rewrite Z.sub_0_r in Hw. done.
Qed.
End refusing.

End ProducerRun.
