(* ===== verification/Consumer.v ===== *)
(** * The consumer

    pkg/client/consumer.go: group membership, positions, polling and committing. The application's
    goroutine runs [Subscribe], [Poll], [Commit], [Close]; the heartbeat goroutine runs
    [heartbeat_tick] and, through it, [rebalance], on the same object: every section under the
    mutex is one [Mem] request. *)

From S2P Require Import Prelude Keys Prog Batch BatchLog GroupCoord ClusterCoord ClientCodec ClientNet Producer.
Local Open Scope Z_scope.

Module Consumer.
Import Keys ClientNet ClientCodec.
Import ClusterCoord(nd_Address).

Definition sStaleGeneration : sentinel := Sentinel "client" "ErrStaleGeneration".
Definition ErrStaleGeneration : error := ErrSentinel sStaleGeneration.

(** [Record] of pkg/client/record.go. *)
Record ConsumerRecord := {
  Topic : string;
  PartitionID : Z;
  Offset : Z;
  Key : option (list byte);
  Value : list byte;
  Headers : headers;
  TimestampMs : Z
}.

Inductive OffsetResetPolicy := OffsetResetLatest | OffsetResetEarliest.

(** [stopHeartbeat] is [None] before the heartbeat goroutine is started, then whether it has not
    been cancelled yet. *)
Record Consumer := {
  co_pool : ConnPool;
  co_meta : MetaCache;
  stopHeartbeat : option bool;
  fetchOffsets : gmap TopicPartition Z;
  soughtPartitions : list TopicPartition;
  subscribedTopics : list string;
  memberID : string;
  generationID : Z;
  coordAddr : string;
  assignedPartitions : list TopicPartition;
  rebalancing : bool
}.

Definition set_pool (c : Consumer) p : Consumer :=
  {| co_pool := p; co_meta := co_meta c; stopHeartbeat := stopHeartbeat c; fetchOffsets := fetchOffsets c;
     soughtPartitions := soughtPartitions c; subscribedTopics := subscribedTopics c; memberID := memberID c;
     generationID := generationID c; coordAddr := coordAddr c; assignedPartitions := assignedPartitions c;
     rebalancing := rebalancing c |}.
Definition set_meta (c : Consumer) m : Consumer :=
  {| co_pool := co_pool c; co_meta := m; stopHeartbeat := stopHeartbeat c; fetchOffsets := fetchOffsets c;
     soughtPartitions := soughtPartitions c; subscribedTopics := subscribedTopics c; memberID := memberID c;
     generationID := generationID c; coordAddr := coordAddr c; assignedPartitions := assignedPartitions c;
     rebalancing := rebalancing c |}.
Definition set_heartbeat (c : Consumer) b : Consumer :=
  {| co_pool := co_pool c; co_meta := co_meta c; stopHeartbeat := b; fetchOffsets := fetchOffsets c;
     soughtPartitions := soughtPartitions c; subscribedTopics := subscribedTopics c; memberID := memberID c;
     generationID := generationID c; coordAddr := coordAddr c; assignedPartitions := assignedPartitions c;
     rebalancing := rebalancing c |}.
Definition set_positions (c : Consumer) offs tps : Consumer :=
  {| co_pool := co_pool c; co_meta := co_meta c; stopHeartbeat := stopHeartbeat c; fetchOffsets := offs;
     soughtPartitions := tps; subscribedTopics := subscribedTopics c; memberID := memberID c;
     generationID := generationID c; coordAddr := coordAddr c; assignedPartitions := assignedPartitions c;
     rebalancing := rebalancing c |}.
Definition set_topics (c : Consumer) ts : Consumer :=
  {| co_pool := co_pool c; co_meta := co_meta c; stopHeartbeat := stopHeartbeat c; fetchOffsets := fetchOffsets c;
     soughtPartitions := soughtPartitions c; subscribedTopics := ts; memberID := memberID c;
     generationID := generationID c; coordAddr := coordAddr c; assignedPartitions := assignedPartitions c;
     rebalancing := rebalancing c |}.
Definition set_member (c : Consumer) member gen tps : Consumer :=
  {| co_pool := co_pool c; co_meta := co_meta c; stopHeartbeat := stopHeartbeat c; fetchOffsets := fetchOffsets c;
     soughtPartitions := soughtPartitions c; subscribedTopics := subscribedTopics c; memberID := member;
     generationID := gen; coordAddr := coordAddr c; assignedPartitions := tps; rebalancing := rebalancing c |}.
Definition set_coord (c : Consumer) a : Consumer :=
  {| co_pool := co_pool c; co_meta := co_meta c; stopHeartbeat := stopHeartbeat c; fetchOffsets := fetchOffsets c;
     soughtPartitions := soughtPartitions c; subscribedTopics := subscribedTopics c; memberID := memberID c;
     generationID := generationID c; coordAddr := a; assignedPartitions := assignedPartitions c;
     rebalancing := rebalancing c |}.
Definition set_rebalancing (c : Consumer) b : Consumer :=
  {| co_pool := co_pool c; co_meta := co_meta c; stopHeartbeat := stopHeartbeat c; fetchOffsets := fetchOffsets c;
     soughtPartitions := soughtPartitions c; subscribedTopics := subscribedTopics c; memberID := memberID c;
     generationID := generationID c; coordAddr := coordAddr c; assignedPartitions := assignedPartitions c;
     rebalancing := b |}.

#[global] Instance Consumer_pool : HasPool Consumer := {| pool := co_pool; with_pool := set_pool |}.
#[global] Instance Consumer_meta : HasMeta Consumer := {| meta := co_meta; with_meta := set_meta |}.

Abbreviation cprog := (prog (netE Consumer)).

(** A section under the lock that returns nothing. *)
Definition locked (f : Consumer -> Consumer) : cprog unit := trigger (Mem (fun c => (tt, f c))).
(** A snapshot of fields under the lock. *)
Definition snapshot {A} (f : Consumer -> A) : cprog A := trigger (Mem (fun c => (f c, c))).

(** A remote call as a call that can fail. *)
Definition remote {A} (e : netE Consumer (error + A)) : cprog (outcome A) :=
  r ← trigger e; Ret (match r with inl err => Err err | inr a => Ok a end).

(** ** Positions *)

Definition seek (tp : TopicPartition) (offset : Z) (c : Consumer) : Consumer :=
  set_positions c (<[tp := offset]> (fetchOffsets c))
    (match fetchOffsets c !! tp with None => soughtPartitions c ++ [tp] | Some _ => soughtPartitions c end).

Definition Seek (topic : string) (partitionID offset : Z) : cprog unit := locked (seek (TP topic partitionID) offset).

Section consumer.
Context `{Float64}.

Record ConsumerConfig := {
  cc_Config : Config;
  GroupID : string;
  MaxFetchBytes : Z;
  MaxFetchWaitMs : Z;
  AutoOffsetReset : OffsetResetPolicy;
  HeartbeatIntervalMs : Z;
  SessionTimeoutMs : Z
}.

Definition NewConsumer (config : ConsumerConfig) : outcome (ConsumerConfig * Consumer) :=
  if len (BootstrapServers (cc_Config config)) =? 0 then Err (ErrNew "client: BootstrapServers must not be empty") else
  let c := Producer.defaultConfig (cc_Config config) in
  Ok ({| cc_Config := c; GroupID := GroupID config;
         MaxFetchBytes := if MaxFetchBytes config <=? 0 then 2 ^ 20 else MaxFetchBytes config;
         MaxFetchWaitMs := if MaxFetchWaitMs config <=? 0 then 500 else MaxFetchWaitMs config;
         AutoOffsetReset := AutoOffsetReset config;
         HeartbeatIntervalMs := if HeartbeatIntervalMs config <=? 0 then 3000 else HeartbeatIntervalMs config;
         SessionTimeoutMs := SessionTimeoutMs config |},
      {| co_pool := NewConnPool (Producer.dialOptions c); co_meta := NewMetaCache (60 * 10 ^ 9); stopHeartbeat := None;
         fetchOffsets := ∅; soughtPartitions := []; subscribedTopics := []; memberID := ""; generationID := 0;
         coordAddr := ""; assignedPartitions := []; rebalancing := false |}).

Section calls.
Variable NewClient : string -> option error.
Variable config : ConsumerConfig.
Abbreviation knownAddrs := (BootstrapServers (cc_Config config)).

Definition metaFor (topic : string) : cprog (outcome nat) := ClientNet.metaFor NewClient knownAddrs topic.
Definition refreshMeta (topic : string) : cprog (outcome nat) := ClientNet.refreshMeta NewClient knownAddrs topic.
Definition leaderFor (topic : string) (partID : Z) : cprog (outcome string) :=
  ClientNet.leaderFor NewClient knownAddrs topic partID.

(** ** Joining a group *)

Fixpoint find_coordinator (addrs : list string) : cprog (outcome unit) :=
  match addrs with
  | [] => Ret (Err ErrNoReachableServer)
  | addr :: addrs' =>
      c ← pool_Get NewClient addr;
      match c with
      | Ok conn =>
          r ← trigger (RDescribeCluster conn);
          match r with
          | inr nodes =>
              _ ← locked (fun c => set_coord c (match nodes with n :: _ => nd_Address n | [] => addr end));
              Ret (Ok tt)
          | inl _ => find_coordinator addrs'
          end
      | _ => find_coordinator addrs'
      end
  end.

Definition findCoordinator : cprog (outcome unit) := find_coordinator knownAddrs.

Definition doJoinGroup (topics : list string) : cprog (outcome GroupCoord.JoinGroupResponse) :=
  s ← snapshot (fun c => (coordAddr c, memberID c));
  call (pool_Get NewClient s.1) id (fun conn =>
  remote (RJoinGroup conn (GroupID config) s.2 topics (SessionTimeoutMs config) (i32 (HeartbeatIntervalMs config)))).

Definition getPartitionOffset (tp : TopicPartition) (q : OffsetQuery) : cprog (outcome Z) :=
  call (leaderFor (tp_topic tp) (tp_partition tp)) id (fun addr =>
  call (pool_Get NewClient addr) id (fun conn =>
  remote (RGetOffsets conn (tp_topic tp) (tp_partition tp) q))).

(** The loop of [initFetchOffsets] over the assigned partitions. *)
Fixpoint seek_assigned (committed : gmap TopicPartition Z) (tps : list TopicPartition) : cprog (outcome unit) :=
  match tps with
  | [] => Ret (Ok tt)
  | tp :: tps' =>
      let reset :=
        match AutoOffsetReset config with
        | OffsetResetEarliest =>
            _ ← Seek (tp_topic tp) (tp_partition tp) 0; seek_assigned committed tps'
        | OffsetResetLatest =>
            call (getPartitionOffset tp QUERY_LATEST) id (fun latestOff =>
            _ ← Seek (tp_topic tp) (tp_partition tp) latestOff; seek_assigned committed tps')
        end in
      match committed !! tp with
      | Some off =>
          if off >? -1 then _ ← Seek (tp_topic tp) (tp_partition tp) off; seek_assigned committed tps' else reset
      | None => reset
      end
  end.

Definition initFetchOffsets : cprog (outcome unit) :=
  s ← snapshot (fun c => (assignedPartitions c, coordAddr c));
  let '(assigned, coordAddr) := s in
  if len assigned =? 0 then Ret (Ok tt) else
  call (pool_Get NewClient coordAddr) id (fun conn =>
  call (remote (RFetchCommitted conn (GroupID config) assigned)) id (fun offsets =>
  let committed := fold_left (fun m po => <[po.1 := po.2]> m) offsets (∅ : gmap TopicPartition Z) in
  seek_assigned committed assigned)).

Definition joined (resp : GroupCoord.JoinGroupResponse) : cprog (outcome unit) :=
  _ ← locked (fun c => set_member c (GroupCoord.jp_MemberID resp) (GroupCoord.jp_GenerationID resp)
                         (GroupCoord.jp_Assignments resp));
  initFetchOffsets.

Definition joinGroup (topics : list string) : cprog (outcome unit) :=
  call findCoordinator id (fun _ =>
  r ← doJoinGroup topics;
  match r with
  | Ok resp => joined resp
  | Err e =>
      let '(bunnyErr, notLeader) := Producer.extractErr e in
      if negb (bool_decide (bunnyErr = Some NOT_LEADER)) then Ret (Err e) else
      let retry := call (doJoinGroup topics) id joined in
      match notLeader with
      | Some (_, address) =>
          if negb (String.eqb address "") then _ ← locked (fun c => set_coord c address); retry
          else f ← findCoordinator; match f with Ok _ => retry | Err _ => Ret (Err e) | Panic p => Ret (Panic p) | OutOfFuel => Ret OutOfFuel end
      | None =>
          f ← findCoordinator; match f with Ok _ => retry | Err _ => Ret (Err e) | Panic p => Ret (Panic p) | OutOfFuel => Ret OutOfFuel end
      end
  | Panic p => Ret (Panic p)
  | OutOfFuel => Ret OutOfFuel
  end).

(** The heartbeat goroutine starts when the group has been joined. *)
Definition Subscribe (topics : list string) : cprog (outcome unit) :=
  _ ← locked (fun c => set_topics c topics);
  if String.eqb (GroupID config) "" then Ret (Ok tt) else
  call (joinGroup topics) id (fun _ =>
  _ ← locked (fun c => set_heartbeat c (Some true));
  Ret (Ok tt)).

(** ** Polling *)

Definition toRecord (tp : TopicPartition) (dr : DecodedRecord) : ConsumerRecord :=
  {| Topic := tp_topic tp; PartitionID := tp_partition tp; Offset := dr_Offset dr; Key := dr_Key dr; Value := dr_Value dr;
     Headers := dr_Headers dr; TimestampMs := dr_TimestampMs dr |}.

Definition fetchPartition (tp : TopicPartition) (offset waitMs : Z) : cprog (outcome (list ConsumerRecord * Z)) :=
  call (leaderFor (tp_topic tp) (tp_partition tp)) id (fun addr =>
  call (pool_Get NewClient addr) id (fun conn =>
  call (remote (RFetch conn (tp_topic tp) (tp_partition tp) offset (i32 (MaxFetchBytes config)) waitMs)) id (fun resp =>
  let '(records, nextOffset) := resp in
  if len records =? 0 then Ret (Ok ([], nextOffset)) else
  match Decode records with
  | Ok (decoded, None) => Ret (Ok (toRecord tp <$> decoded, nextOffset))
  | Ok (_, Some e) => Ret (Err e)
  | Err e => Ret (Err e)
  | Panic p => Ret (Panic p)
  | OutOfFuel => Ret OutOfFuel
  end))).

(** What a poll does with the error of a partition: [None] to go on with the next one. *)
Definition poll_error (tp : TopicPartition) (e : error) : cprog (option error) :=
  let '(bunnyErr, notLeader) := Producer.extractErr e in
  if bool_decide (bunnyErr = Some NOT_LEADER) then
    _ ← (match notLeader with
         | Some (_, address) =>
             if negb (String.eqb address "") then SetLeader (tp_topic tp) (tp_partition tp) address
             else Invalidate (tp_topic tp)
         | None => Invalidate (tp_topic tp)
         end);
    Ret None
  else if errors_is e sNoReachableServer then _ ← Invalidate (tp_topic tp); Ret None
  else match status_FromError e with
       | Some (code, _) => if code =? codes_Unavailable then _ ← Invalidate (tp_topic tp); Ret None else Ret (Some e)
       | None => Ret (Some e)
       end.

Fixpoint poll_loop (deadline : Z) (work : list (TopicPartition * Z)) (out : list ConsumerRecord)
  : cprog (outcome (list ConsumerRecord)) :=
  match work with
  | [] => Ret (Ok out)
  | (tp, off) :: work' =>
      now ← trigger Now;
      let remaining := deadline - now in
      if remaining <=? 0 then Ret (Ok out) else
      let perPartitionWaitMs := Z.quot (Z.quot remaining (10 ^ 6)) (len work) in
      let perPartitionWaitMs := if perPartitionWaitMs >? MaxFetchWaitMs config then MaxFetchWaitMs config else perPartitionWaitMs in
      r ← fetchPartition tp off perPartitionWaitMs;
      match r with
      | Ok (recs, nextOff) =>
          _ ← locked (fun c => set_positions c (<[tp := nextOff]> (fetchOffsets c)) (soughtPartitions c));
          poll_loop deadline work' (out ++ recs)
      | Err e =>
          stop ← poll_error tp e;
          match stop with
          | None => poll_loop deadline work' out
          | Some e => Ret (Err e)
          end
      | Panic p => Ret (Panic p)
      | OutOfFuel => Ret OutOfFuel
      end
  end.

(** The wait while the heartbeat goroutine rebalances; [fuel] bounds the ten-millisecond waits. *)
Fixpoint await (fuel : nat) (k : cprog (outcome (list ConsumerRecord))) : cprog (outcome (list ConsumerRecord)) :=
  match fuel with
  | O => Ret OutOfFuel
  | S fuel' =>
      b ← snapshot rebalancing;
      match b with
      | false => k
      | true =>
          d ← trigger Done;
          match d with
          | Some e => Ret (Err e)
          | None => _ ← trigger (Sleep (10 * 10 ^ 6)); await fuel' k
          end
      end
  end.

Definition poll_body (maxWaitMs : Z) : cprog (outcome (list ConsumerRecord)) :=
  work ← snapshot (fun c => (fun tp => (tp, default 0 (fetchOffsets c !! tp))) <$> soughtPartitions c);
  if len work =? 0 then Ret (Ok []) else
  now ← trigger Now;
  poll_loop (now + i64 (maxWaitMs * 10 ^ 6)) work [].

Definition Poll (fuel : nat) (maxWaitMs : Z) : cprog (outcome (list ConsumerRecord)) :=
  if negb (String.eqb (GroupID config) "") then await fuel (poll_body maxWaitMs) else poll_body maxWaitMs.

(** ** Committing *)

Definition CommitOffsets (offsets : gmap TopicPartition Z) : cprog (outcome unit) :=
  if String.eqb (GroupID config) "" then Ret (Ok tt) else
  protoOffsets ← trigger (Order (map_to_list offsets));
  s ← snapshot (fun c => (coordAddr c, memberID c, generationID c));
  let '(coordAddr, memberID, generationID) := s in
  call (pool_Get NewClient coordAddr) id (fun conn =>
  call (remote (RCommitOffset conn (GroupID config) memberID generationID protoOffsets))
    (fun e => if bool_decide ((Producer.extractErr e).1 = Some STALE_GENERATION) then ErrStaleGeneration else e)
    (fun _ => Ret (Ok tt))).

Definition positions (c : Consumer) : gmap TopicPartition Z :=
  fold_left (fun m tp => <[tp := default 0 (fetchOffsets c !! tp)]> m) (soughtPartitions c) ∅.

Definition Commit : cprog (outcome unit) :=
  if String.eqb (GroupID config) "" then Ret (Ok tt) else
  offsets ← snapshot positions;
  CommitOffsets offsets.

(** ** Heartbeats *)

Fixpoint seek_all (entries : list (TopicPartition * Z)) : cprog unit :=
  match entries with
  | [] => Ret tt
  | (tp, off) :: entries' => _ ← Seek (tp_topic tp) (tp_partition tp) off; seek_all entries'
  end.

Definition rebalance : cprog unit :=
  s ← trigger (Mem (fun c => ((fetchOffsets c, subscribedTopics c), set_positions c ∅ [])));
  let '(saved, topics) := s in
  r ← joinGroup topics;
  match r with
  | Ok _ =>
      assigned ← snapshot assignedPartitions;
      let toCommit := filter (fun p => p.1 ∈ assigned) saved in
      _ ← (if 0 <? len (map_to_list toCommit) then
             r ← CommitOffsets toCommit;
             match r with
             | Ok _ => entries ← trigger (Order (map_to_list toCommit)); seek_all entries
             | _ => Ret tt
             end
           else Ret tt);
      locked (fun c => set_rebalancing c false)
  | _ => locked (fun c => set_rebalancing c false)
  end.

Definition startRebalance : cprog unit := _ ← locked (fun c => set_rebalancing c true); rebalance.

(** The body of [heartbeatLoop] at a tick. *)
Definition heartbeat_tick : cprog unit :=
  s ← snapshot (fun c => (coordAddr c, memberID c, generationID c));
  let '(coordAddr, memberID, generationID) := s in
  c ← pool_Get NewClient coordAddr;
  match c with
  | Ok conn =>
      r ← trigger (RHeartbeat conn (GroupID config) memberID generationID);
      match r with
      | inl e =>
          let '(bunnyErr, notLeader) := Producer.extractErr e in
          match bunnyErr with
          | None => Ret tt
          | Some code =>
              if code =? NOT_LEADER then
                let find := _ ← findCoordinator; Ret tt in
                match notLeader with
                | Some (_, address) => if negb (String.eqb address "") then locked (fun c => set_coord c address) else find
                | None => find
                end
              else if code =? NOT_GROUP_MEMBER then startRebalance
              else Ret tt
          end
      | inr rebalanceRequired => match rebalanceRequired with true => startRebalance | false => Ret tt end
      end
  | _ => Ret tt
  end.

(** [heartbeatLoop]: [Done] is the wait for the next tick, which ends with an error once the
    context is cancelled; [fuel] bounds the ticks. *)
Fixpoint heartbeatLoop (fuel : nat) : cprog unit :=
  match fuel with
  | O => Ret tt
  | S fuel' =>
      d ← trigger Done;
      match d with
      | Some _ => Ret tt
      | None => _ ← heartbeat_tick; heartbeatLoop fuel'
      end
  end.

(** ** Leaving *)

(** Calling [c.stopHeartbeat]. *)
Definition cancelHeartbeat (c : Consumer) : Consumer := set_heartbeat c ((fun _ => false) <$> stopHeartbeat c).

Definition SimulateCrash : cprog unit :=
  _ ← locked cancelHeartbeat;
  _ ← pool_Close;
  Ret tt.

Definition Close : cprog (list error) :=
  stop ← snapshot stopHeartbeat;
  _ ← (if negb (String.eqb (GroupID config) "") && bool_decide (is_Some stop) then
         _ ← locked cancelHeartbeat;
         s ← snapshot (fun c => (coordAddr c, memberID c));
         let '(coordAddr, memberID) := s in
         if negb (String.eqb coordAddr "") && negb (String.eqb memberID "") then
           c ← pool_Get NewClient coordAddr;
           match c with
           | Ok conn => _ ← trigger (RLeaveGroup conn (GroupID config) memberID); Ret tt
           | _ => Ret tt
           end
         else Ret tt
       else Ret tt);
  pool_Close.

End calls.
End consumer.
End Consumer.
