(* ===== verification/ConsumerRun.v ===== *)
(** * A consumer in a group

    The calls of Consumer.v against a group coordinator that gives fixed answers.
    [rebalance_resumes] is what a rebalance means to do; [rebalance_starves] and
    [poll_rebalance_race] are two ways in which a member keeps its partitions and never polls
    them again. *)

From S2P Require Import Prelude Keys Prog GroupCoord ClusterCoord ClientCodec ClientNet ClientWorld Producer Consumer.
Local Open Scope Z_scope.

Module ConsumerRun.
Import Keys ClusterCoord ClientNet ClientWorld Consumer.

#[global] Instance Consumer_laws : ObjectLaws Consumer.
Proof. constructor; by intros []. Qed.

Record gworld := { gw_obj : Consumer; gw_clock : Z }.

(** What the cluster answers. A rebalance makes each of these requests at most once. *)
Record answers_of := {
  an_nodes : list NodeDescriptor;
  an_parts : list PartitionInfo;
  an_join : rpc GroupCoord.JoinGroupResponse;
  an_committed : rpc (list (TopicPartition * Z));
  an_commit : rpc unit;
  an_heartbeat : rpc bool;
  an_fetch : rpc (list byte * Z);
  an_latest : rpc Z
}.

Definition handle (g : answers_of) X (e : netE Consumer X) : gworld -> X * gworld :=
  match e in netE _ X return gworld -> X * gworld with
  | Mem f => fun w => ((f (gw_obj w)).1, {| gw_obj := (f (gw_obj w)).2; gw_clock := gw_clock w |})
  | Now => fun w => (gw_clock w, w)
  | Sleep ns => fun w => (tt, {| gw_obj := gw_obj w; gw_clock := gw_clock w + ns |})
  | Done => fun w => (None, w)
  | Order entries => fun w => (entries, w)
  | CloseConn _ => fun w => (None, w)
  | RDescribeTopic _ _ => fun w => (inr (None, an_parts g), w)
  | RDescribeCluster _ => fun w => (inr (an_nodes g), w)
  | RFetch _ _ _ _ _ _ => fun w => (an_fetch g, w)
  | RGetOffsets _ _ _ _ => fun w => (an_latest g, w)
  | RJoinGroup _ _ _ _ _ _ => fun w => (an_join g, w)
  | RHeartbeat _ _ _ _ => fun w => (an_heartbeat g, w)
  | RLeaveGroup _ _ _ => fun w => (inr tt, w)
  | RCommitOffset _ _ _ _ _ => fun w => (an_commit g, w)
  | RFetchCommitted _ _ _ => fun w => (an_committed g, w)
  | RCreateTopic _ _ _ _ _ _ | RDeleteTopic _ _ | RListTopics _ | RAlterPartitions _ _ _ | RAlterRetention _ _ _ _
  | RListPartitions _ _ | RProduce _ _ _ _ _ => fun w => (inl (ErrNew "unimplemented"), w)
  end.

Definition set_gw (w : gworld) (c : Consumer) : gworld := {| gw_obj := c; gw_clock := gw_clock w |}.

#[export] Instance gworld_world g : World Consumer gworld (handle g).
Proof. unshelve refine {| obj := gw_obj; clock := gw_clock; upd := set_gw |}; try done. by intros []. Defined.

(** ** Seeking *)

Lemma seek_offsets tp off c tp' :
  fetchOffsets (seek tp off c) !! tp' = if decide (tp' = tp) then Some off else fetchOffsets c !! tp'.
Proof.
  cbn. destruct (decide (tp' = tp)) as [->|Hne]; [apply lookup_insert_eq|by apply lookup_insert_ne].
Qed.

(** Seeking leaves the membership alone. *)
Definition membership (c : Consumer) : list TopicPartition * string * Z * bool :=
  (assignedPartitions c, memberID c, generationID c, rebalancing c).
Lemma seek_membership {A} (f : A -> TopicPartition * Z) l c :
  membership (fold_left (fun c x => seek (f x).1 (f x).2 c) l c) = membership c.
Proof. revert c. induction l as [|x l IH]; intros c; cbn [fold_left]; [done|]. by rewrite IH. Qed.

Lemma seek_pool {A} (f : A -> TopicPartition * Z) l c :
  co_pool (fold_left (fun c x => seek (f x).1 (f x).2 c) l c) = co_pool c.
Proof. revert c. induction l as [|x l IH]; intros c; cbn [fold_left]; [done|]. by rewrite IH. Qed.

Lemma seek_coord {A} (f : A -> TopicPartition * Z) l c :
  coordAddr (fold_left (fun c x => seek (f x).1 (f x).2 c) l c) = coordAddr c.
Proof. revert c. induction l as [|x l IH]; intros c; cbn [fold_left]; [done|]. by rewrite IH. Qed.

Lemma seek_meta {A} (f : A -> TopicPartition * Z) l c :
  co_meta (fold_left (fun c x => seek (f x).1 (f x).2 c) l c) = co_meta c.
Proof. revert c. induction l as [|x l IH]; intros c; cbn [fold_left]; [done|]. by rewrite IH. Qed.

(** Seeking partitions that have no position yet appends them. *)
Lemma seek_fresh (pos : TopicPartition -> Z) tps c :
  NoDup tps -> (forall tp, tp ∈ tps -> fetchOffsets c !! tp = None) ->
  let c' := fold_left (fun c tp => seek tp (pos tp) c) tps c in
  soughtPartitions c' = soughtPartitions c ++ tps /\
  forall tp, fetchOffsets c' !! tp = if decide (tp ∈ tps) then Some (pos tp) else fetchOffsets c !! tp.
Proof.
  revert c. induction tps as [|tp tps IH]; intros c Hd Hn; cbn [fold_left].
  { split; [by rewrite app_nil_r|]. intros tp. by rewrite decide_False by (by intros ?%not_elem_of_nil). }
  apply NoDup_cons in Hd as [Hnin Hd]. destruct (IH (seek tp (pos tp) c) Hd) as [H1 H2].
  { intros tp' Hin. rewrite seek_offsets, decide_False by (by intros ->). apply Hn. by right. }
  split.
  - rewrite H1. cbn. rewrite Hn by (by left). by rewrite <- app_assoc.
  - intros tp'. rewrite H2, seek_offsets. destruct (decide (tp' ∈ tps)) as [Hin|Hn'].
    + by rewrite decide_True by (by right).
    + destruct (decide (tp' = tp)) as [->|Hne]; [by rewrite decide_True by (by left)|].
      rewrite decide_False; [done|]. by intros [?|?]%elem_of_cons.
Qed.

(** Seeking partitions that have one moves them. *)
Lemma seek_known (entries : list (TopicPartition * Z)) c :
  NoDup entries.*1 -> (forall tp, tp ∈ entries.*1 -> is_Some (fetchOffsets c !! tp)) ->
  let c' := fold_left (fun c e => seek e.1 e.2 c) entries c in
  soughtPartitions c' = soughtPartitions c /\
  forall tp, fetchOffsets c' !! tp = match (list_to_map entries : gmap TopicPartition Z) !! tp with Some off => Some off | None => fetchOffsets c !! tp end.
Proof.
  revert c. induction entries as [|[tp off] es IH]; intros c Hd Hk; cbn [fold_left fst snd]; [done|].
  cbn [fmap list_fmap fst] in Hd, Hk. apply NoDup_cons in Hd as [Hnin Hd]. destruct (IH (seek tp off c) Hd) as [H1 H2].
  { intros tp' Hin. rewrite seek_offsets. destruct (decide (tp' = tp)); [done|]. apply Hk. by right. }
  split.
  - rewrite H1. cbn. destruct (Hk tp) as [x ->]; [by left|done].
  - intros tp'. rewrite H2, seek_offsets. cbn [list_to_map foldr curry]. cbn.
    destruct (decide (tp' = tp)) as [->|Hne].
    + rewrite lookup_insert_eq, not_elem_of_list_to_map_1 by done. done.
    + by rewrite lookup_insert_ne by done.
Qed.

(** What [Commit] sends. *)
Lemma positions_lookup c tp :
  positions c !! tp = if decide (tp ∈ soughtPartitions c) then Some (default 0 (fetchOffsets c !! tp)) else None.
Proof.
  unfold positions. assert (forall l (m : gmap TopicPartition Z),
    fold_left (fun m tp => <[tp := default 0 (fetchOffsets c !! tp)]> m) l m !! tp =
      if decide (tp ∈ l) then Some (default 0 (fetchOffsets c !! tp)) else m !! tp) as Hl; [|by rewrite Hl, lookup_empty].
  induction l as [|x l IH]; intros m; cbn [fold_left]; [by rewrite decide_False by (by intros ?%not_elem_of_nil)|].
  rewrite IH. destruct (decide (tp ∈ l)) as [Hin|Hn]; [by rewrite decide_True by (by right)|].
  destruct (decide (tp = x)) as [->|Hne]; [by rewrite lookup_insert_eq, decide_True by (by left)|].
  rewrite lookup_insert_ne by done. rewrite decide_False; [done|]. by intros [?|?]%elem_of_cons.
Qed.

(** ** Where to start *)

(** Where a partition starts: at the committed offset, or at 0. *)
Definition start (committed : gmap TopicPartition Z) (tp : TopicPartition) : Z :=
  match committed !! tp with Some off => if off >? -1 then off else 0 | None => 0 end.

Definition committed_of (offs : list (TopicPartition * Z)) : gmap TopicPartition Z :=
  fold_left (fun m po => <[po.1 := po.2]> m) offs ∅.

Lemma committed_of_map (m : gmap TopicPartition Z) : committed_of (map_to_list m) = m.
Proof. unfold committed_of. rewrite fold_insert, map_union_empty by apply NoDup_fst_map_to_list. apply list_to_map_to_list. Qed.

Section starting.
Context `{Float64}.
Context {W : Type} {h : forall X, netE Consumer X -> W -> X * W} `{World Consumer W h}.
Variable NewClient : string -> option error.
Variable config : ConsumerConfig.

(** No partition has to ask for its latest offset. *)
Definition settled (committed : gmap TopicPartition Z) (tps : list TopicPartition) : Prop :=
  forall tp, tp ∈ tps -> AutoOffsetReset config = OffsetResetEarliest \/ exists off, committed !! tp = Some off /\ -1 < off.

Lemma run_seek_assigned committed tps w :
  settled committed tps ->
  run h (seek_assigned NewClient config committed tps) w =
    (Ok tt, upd w (fold_left (fun c tp => seek tp (start committed tp) c) tps (obj w))).
Proof.
  revert w. induction tps as [|tp tps IH]; intros w Hs; cbn [seek_assigned fold_left]; [by rewrite upd_obj|].
  assert (settled committed tps) as Hs' by (intros tp' Hin; apply Hs; by right).
  assert (forall off, start committed tp = off -> run h (_ ← Seek (tp_topic tp) (tp_partition tp) off;
    seek_assigned NewClient config committed tps) w =
    (Ok tt, upd w (fold_left (fun c tp => seek tp (start committed tp) c) tps (seek tp (start committed tp) (obj w))))) as Hseek.
  { intros off Eo. unfold Seek, locked. rewrite run_bind, run_trigger, run_Mem. cbn [fst snd]. rewrite IH by done.
    rewrite obj_upd, upd_upd, Eo. by destruct tp. }
  destruct (committed !! tp) as [off|] eqn:Ec; [destruct (Z.gtb_spec off (-1)) as [Hgt|Hle]|].
  - apply Hseek. unfold start. rewrite Ec. by rewrite (proj2 (Z.gtb_lt _ _)) by lia.
  - destruct (Hs tp) as [->|(off' & E' & Hlt)]; [by left| |rewrite Ec in E'; injection E' as ->; lia].
    apply Hseek. unfold start. rewrite Ec, Z.gtb_ltb, (proj2 (Z.ltb_ge _ _)) by lia. done.
  - destruct (Hs tp) as [->|(off' & E' & Hlt)]; [by left| |congruence]. apply Hseek. unfold start. by rewrite Ec.
Qed.

End starting.

(** ** Joining *)

Section group.
Context `{Float64}.
Variable NewClient : string -> option error.
Hypothesis NewClient_ok : forall addr, NewClient addr = None.
Variable config : ConsumerConfig.
Variables (boot : string) (addrs : list string).
Hypothesis knows_boot : BootstrapServers (cc_Config config) = boot :: addrs.
Hypothesis in_group : GroupID config <> "".
Variable g : answers_of.
Abbreviation ghandle := (handle g).

Lemma run_conn addr w :
  pool_ok (co_pool (gw_obj w)) ->
  exists c p, pool_ok p /\ run ghandle (pool_Get NewClient addr) w = (Ok c, set_gw w (set_pool (gw_obj w) p)).
Proof.
  intros Hp. destruct (run_pool_Get (h := ghandle) NewClient addr w) as (c & s' & E & _ & _ & Hp' & Hm & _ & (p & m & ->)); [done|done|].
  exists c, p. split; [exact Hp'|]. rewrite E. cbn in Hm. by rewrite Hm.
Qed.

(** The address [findCoordinator] settles on. *)
Definition coordinator : string := match an_nodes g with n :: _ => nd_Address n | [] => boot end.

Lemma run_findCoordinator w :
  pool_ok (co_pool (gw_obj w)) ->
  exists p, pool_ok p /\
    run ghandle (findCoordinator NewClient config) w = (Ok tt, set_gw w (set_coord (set_pool (gw_obj w) p) coordinator)).
Proof.
  intros Hp. unfold findCoordinator. rewrite knows_boot. cbn [find_coordinator]. rewrite run_bind.
  destruct (run_conn boot w Hp) as (c & p & Hp' & ->). rewrite run_bind, run_trigger. cbn [handle].
  unfold locked. rewrite run_bind, run_trigger. cbn [handle fst snd run]. exists p. done.
Qed.

Lemma run_doJoinGroup topics w resp :
  pool_ok (co_pool (gw_obj w)) -> an_join g = inr resp ->
  exists p, pool_ok p /\ run ghandle (doJoinGroup NewClient config topics) w = (Ok resp, set_gw w (set_pool (gw_obj w) p)).
Proof.
  intros Hp Hj. unfold doJoinGroup, snapshot. rewrite run_bind, run_trigger. cbn [handle fst snd]. rewrite run_call.
  destruct (run_conn (coordAddr (gw_obj w)) (set_gw w (gw_obj w)) Hp) as (c & p & Hp' & E). exists p. split; [done|].
  change {| gw_obj := gw_obj w; gw_clock := gw_clock w |} with (set_gw w (gw_obj w)). rewrite E.
  unfold remote. rewrite run_bind, run_trigger. cbn [handle]. by rewrite Hj.
Qed.

(** The member after the coordinator has answered its join. *)
Definition after_join (c : Consumer) p (resp : GroupCoord.JoinGroupResponse) : Consumer :=
  set_member (set_coord (set_pool c p) coordinator) (GroupCoord.jp_MemberID resp) (GroupCoord.jp_GenerationID resp)
    (GroupCoord.jp_Assignments resp).

Lemma run_joinGroup topics w resp :
  pool_ok (co_pool (gw_obj w)) -> an_join g = inr resp ->
  exists p, pool_ok p /\ run ghandle (joinGroup NewClient config topics) w =
    run ghandle (initFetchOffsets NewClient config) (set_gw w (after_join (gw_obj w) p resp)).
Proof.
  intros Hp Hj. unfold joinGroup. rewrite run_call. destruct (run_findCoordinator w Hp) as (p & Hp' & ->). rewrite run_bind.
  destruct (run_doJoinGroup topics (set_gw w (set_coord (set_pool (gw_obj w) p) coordinator)) resp) as (p2 & Hp2 & ->); [done|done|].
  exists p2. split; [done|]. unfold joined, locked. rewrite run_bind, run_trigger. done.
Qed.

Lemma run_initFetchOffsets w offs :
  pool_ok (co_pool (gw_obj w)) -> an_committed g = inr offs -> settled config (committed_of offs) (assignedPartitions (gw_obj w)) ->
  exists p, pool_ok p /\ run ghandle (initFetchOffsets NewClient config) w =
    (Ok tt, set_gw w (fold_left (fun c tp => seek tp (start (committed_of offs) tp) c) (assignedPartitions (gw_obj w))
      (set_pool (gw_obj w) p))).
Proof.
  intros Hp Hc Hs. unfold initFetchOffsets, snapshot. rewrite run_bind, run_trigger. cbn [handle fst snd].
  change {| gw_obj := gw_obj w; gw_clock := gw_clock w |} with (set_gw w (gw_obj w)).
  destruct (assignedPartitions (gw_obj w)) as [|tp tps] eqn:Ea.
  { exists (co_pool (gw_obj w)). split; [done|]. cbn. by destruct w as [[]]. }
  change (len (tp :: tps) =? 0) with false. cbn iota. rewrite run_call.
  destruct (run_conn (coordAddr (gw_obj w)) (set_gw w (gw_obj w)) Hp) as (c & p & Hp' & ->). exists p. split; [done|].
  unfold remote. rewrite run_call, run_bind, run_trigger. cbn [handle]. rewrite Hc. cbn [run]. fold (committed_of offs).
  exact (run_seek_assigned (h := ghandle) NewClient config _ _ _ Hs).
Qed.

(** ** Rebalancing *)

Definition accepted {A} (r : rpc A) : bool := match r with inr _ => true | inl _ => false end.

Lemma run_CommitOffsets offsets w :
  pool_ok (co_pool (gw_obj w)) ->
  exists p r, pool_ok p /\ is_ok r = accepted (an_commit g) /\
    run ghandle (CommitOffsets NewClient config offsets) w = (r, set_gw w (set_pool (gw_obj w) p)).
Proof.
  intros Hp. unfold CommitOffsets, snapshot. rewrite (proj2 (String.eqb_neq _ _)) by done.
  rewrite run_bind, run_trigger. cbn [handle]. rewrite run_bind, run_trigger. cbn [handle fst snd].
  change {| gw_obj := gw_obj w; gw_clock := gw_clock w |} with (set_gw w (gw_obj w)). rewrite run_call.
  destruct (run_conn (coordAddr (gw_obj w)) (set_gw w (gw_obj w)) Hp) as (c & p & Hp' & ->). exists p.
  unfold remote. rewrite run_call, run_bind, run_trigger. cbn [handle]. destruct (an_commit g) as [e|[]]; (eexists; split; [done|split; [|reflexivity]]; reflexivity).
Qed.

Lemma run_seek_all entries w :
  run ghandle (seek_all entries) w = (tt, set_gw w (fold_left (fun c e => seek e.1 e.2 c) entries (gw_obj w))).
Proof.
  revert w. induction entries as [|[tp off] es IH]; intros w; cbn [seek_all fold_left]; [by destruct w|].
  unfold Seek, locked. rewrite run_bind, run_trigger. cbn [handle fst snd]. rewrite IH. by destruct tp.
Qed.

(** The partitions of [saved] that are still assigned, as [rebalance] collects them. *)
Abbreviation kept assigned saved := (filter (fun p => p.1 ∈ assigned) saved).

(** Committing the positions from before and, if that is accepted, going back to them. *)
Lemma run_restore (toCommit : gmap TopicPartition Z) w :
  pool_ok (co_pool (gw_obj w)) ->
  (forall tp, is_Some (toCommit !! tp) -> is_Some (fetchOffsets (gw_obj w) !! tp)) ->
  exists c', run ghandle (if 0 <? len (map_to_list toCommit) then
      r ← CommitOffsets NewClient config toCommit;
      match r with Ok _ => entries ← trigger (Order (map_to_list toCommit)); seek_all entries | _ => Ret tt end
    else Ret tt) w = (tt, set_gw w c') /\
    soughtPartitions c' = soughtPartitions (gw_obj w) /\
    (forall tp, fetchOffsets c' !! tp =
       match (if accepted (an_commit g) then toCommit !! tp else None) with Some off => Some off | None => fetchOffsets (gw_obj w) !! tp end) /\
    membership c' = membership (gw_obj w).
Proof.
  intros Hp Hk. destruct (Z.ltb_spec 0 (len (map_to_list toCommit))) as [Hl|Hl].
  - rewrite run_bind. destruct (run_CommitOffsets toCommit w Hp) as (p & r & Hp' & Hr & ->). rewrite <- Hr.
    destruct r as [u|e|q|]; [|by exists (set_pool (gw_obj w) p)..]. rewrite run_bind, run_trigger. cbn [handle is_ok].
    rewrite run_seek_all. change (gw_obj (set_gw w ?c)) with c.
    destruct (seek_known (map_to_list toCommit) (set_pool (gw_obj w) p)) as [H1 H2].
    + apply NoDup_fst_map_to_list.
    + intros tp ((tp' & off) & -> & Hin%elem_of_map_to_list)%list_elem_of_fmap. apply Hk. by eexists.
    + eexists. split; [reflexivity|]. split; [exact H1|]. split; [intros tp; rewrite H2, list_to_map_to_list; done|].
      apply (seek_membership id (map_to_list toCommit) (set_pool (gw_obj w) p)).
  - assert (toCommit = ∅) as -> by (apply map_to_list_empty_iff; destruct (map_to_list toCommit); [done|len_lia]).
    exists (gw_obj w). split; [by destruct w|]. split; [done|]. split; [by intros tp; destruct (accepted _); rewrite ?lookup_empty|done].
Qed.

(** The rebalance whose join and committed offsets are answered. *)
Lemma run_rebalance_ok w resp offs :
  pool_ok (co_pool (gw_obj w)) -> an_join g = inr resp -> an_committed g = inr offs ->
  NoDup (GroupCoord.jp_Assignments resp) -> settled config (committed_of offs) (GroupCoord.jp_Assignments resp) ->
  exists w', run ghandle (startRebalance NewClient config) w = (tt, w') /\
    soughtPartitions (gw_obj w') = GroupCoord.jp_Assignments resp /\
    membership (gw_obj w') = (GroupCoord.jp_Assignments resp, GroupCoord.jp_MemberID resp, GroupCoord.jp_GenerationID resp, false) /\
    forall tp, fetchOffsets (gw_obj w') !! tp =
      if decide (tp ∈ GroupCoord.jp_Assignments resp)
      then Some (default (start (committed_of offs) tp) (if accepted (an_commit g) then fetchOffsets (gw_obj w) !! tp else None)) else None.
Proof.
  intros Hp Hj Hc Hd Hs. unfold startRebalance, rebalance, locked. rewrite run_bind, run_trigger. cbn [handle fst snd].
  rewrite run_bind, run_trigger. cbn [handle fst snd gw_obj].
  set (c1 := set_positions _ ∅ []). set (w1 := {| gw_obj := c1; gw_clock := _ |}). rewrite run_bind.
  destruct (run_joinGroup (subscribedTopics (set_rebalancing (gw_obj w) true)) w1 resp) as (p & Hp' & Ej); [done|done|].
  destruct (run_initFetchOffsets (set_gw w1 (after_join c1 p resp)) offs) as (p2 & Hp2 & Ei); [done|done|done|].
  change (gw_obj w1) with c1 in Ej. rewrite Ei in Ej. rewrite Ej. clear Ej Ei.
  destruct (seek_fresh (start (committed_of offs)) (GroupCoord.jp_Assignments resp) (set_pool (after_join c1 p resp) p2) Hd) as [H1 H2]; [done|].
  pose proof (seek_membership (fun tp => (tp, start (committed_of offs) tp)) (GroupCoord.jp_Assignments resp)
    (set_pool (after_join c1 p resp) p2)) as H3. cbn [fst snd] in H3. pose proof Hp2 as Hp3.
  change (assignedPartitions (gw_obj _)) with (GroupCoord.jp_Assignments resp). change (gw_obj (set_gw w1 ?c)) with c.
  set (c2 := fold_left _ (GroupCoord.jp_Assignments resp) _) in *.
  unfold snapshot. rewrite run_bind, run_trigger. cbn [handle fst snd gw_obj set_gw]. rewrite run_bind.
  assert (assignedPartitions c2 = GroupCoord.jp_Assignments resp) as -> by (by injection H3).
  set (toCommit := filter _ _).
  assert (forall tp, toCommit !! tp = if decide (tp ∈ GroupCoord.jp_Assignments resp) then fetchOffsets (gw_obj w) !! tp else None) as Htc.
  { intros tp. apply option_eq. intros off. unfold toCommit. rewrite map_lookup_filter_Some. cbn [fst].
    destruct (decide (tp ∈ _)); naive_solver. }
  edestruct (run_restore toCommit) as (c3 & E3 & Hs3 & Hf3 & Hm3); [..|rewrite E3; eexists; split; [by rewrite run_trigger|]].
  - change (pool_ok (co_pool c2)). unfold c2. by rewrite (seek_pool (fun tp => (tp, start (committed_of offs) tp))).
  - intros tp Htp. rewrite Htc in Htp. change (is_Some (fetchOffsets c2 !! tp)). rewrite H2.
    destruct (decide (tp ∈ _)); [by eexists|by destruct Htp].
  - cbn [handle fst snd gw_obj set_gw] in *. split; [|split].
    + change (soughtPartitions c3 = GroupCoord.jp_Assignments resp). by rewrite Hs3, H1.
    + rewrite H3 in Hm3. unfold membership in *. cbn in *. congruence.
    + intros tp. change (fetchOffsets (set_rebalancing c3 false)) with (fetchOffsets c3). rewrite Hf3, Htc, H2.
      destruct (decide (tp ∈ _)); [|by destruct (accepted _)]. destruct (accepted _); [|done]. by destruct (fetchOffsets (gw_obj w) !! tp).
Qed.

(** The state a failed [initFetchOffsets] leaves behind. *)
Lemma run_rebalance_failed w resp e :
  pool_ok (co_pool (gw_obj w)) -> an_join g = inr resp -> an_committed g = inl e -> GroupCoord.jp_Assignments resp <> [] ->
  exists w', run ghandle (startRebalance NewClient config) w = (tt, w') /\ pool_ok (co_pool (gw_obj w')) /\
    membership (gw_obj w') = (GroupCoord.jp_Assignments resp, GroupCoord.jp_MemberID resp, GroupCoord.jp_GenerationID resp, false) /\
    soughtPartitions (gw_obj w') = [].
Proof.
  intros Hp Hj Hc Hne. unfold startRebalance, rebalance, locked. rewrite run_bind, run_trigger. cbn [handle fst snd].
  rewrite run_bind, run_trigger. cbn [handle fst snd gw_obj].
  set (c1 := set_positions _ ∅ []). set (w1 := {| gw_obj := c1; gw_clock := _ |}). rewrite run_bind.
  destruct (run_joinGroup (subscribedTopics (set_rebalancing (gw_obj w) true)) w1 resp) as (p & Hp' & ->); [done|done|].
  unfold initFetchOffsets, snapshot. rewrite run_bind, run_trigger. cbn [handle fst snd].
  change (gw_obj (set_gw w1 ?c)) with c. change (assignedPartitions (after_join _ _ _)) with (GroupCoord.jp_Assignments resp).
  rewrite (proj2 (Z.eqb_neq _ _)) by (destruct (GroupCoord.jp_Assignments resp); [done|len_lia]). rewrite run_call.
  set (w2 := {| gw_obj := after_join (gw_obj w1) p resp; gw_clock := _ |}).
  destruct (run_conn coordinator w2 Hp') as (c & p2 & Hp2 & E2).
  change (coordAddr (after_join (gw_obj w1) p resp)) with coordinator. rewrite E2. unfold remote.
  rewrite run_call, run_bind, run_trigger. cbn [handle]. rewrite Hc. cbn [run id]. rewrite run_trigger. cbn [handle fst snd].
  eexists. split; [reflexivity|]. done.
Qed.

(** C19: What a rebalance does when nothing runs beside it, the coordinator can be reached and answers the join with
    at least one partition, none of them twice; the policy for partitions without a commit is
    EARLIEST, or every assigned partition has one. The member has its new assignment and
    generation, and polls are let through again. If the committed offsets are answered, it polls
    exactly its new assignment, in order: a partition that is new to it starts at its committed
    offset, or at 0; a partition it keeps goes on where it was if the commit of the old positions is
    accepted, and falls back to the committed offset if it is not; the partitions it lost are
    forgotten. If the committed offsets cannot be read it polls nothing, although it has the
    assignment. *)
Theorem rebalance_resumes w resp :
  pool_ok (co_pool (gw_obj w)) -> an_join g = inr resp ->
  NoDup (GroupCoord.jp_Assignments resp) -> GroupCoord.jp_Assignments resp <> [] ->
  (forall offs, an_committed g = inr offs -> settled config (committed_of offs) (GroupCoord.jp_Assignments resp)) ->
  exists w', run ghandle (startRebalance NewClient config) w = (tt, w') /\
    membership (gw_obj w') = (GroupCoord.jp_Assignments resp, GroupCoord.jp_MemberID resp, GroupCoord.jp_GenerationID resp, false) /\
    match an_committed g with
    | inr offs =>
        soughtPartitions (gw_obj w') = GroupCoord.jp_Assignments resp /\
        forall tp, fetchOffsets (gw_obj w') !! tp =
          if decide (tp ∈ GroupCoord.jp_Assignments resp) then
            Some (match an_commit g, fetchOffsets (gw_obj w) !! tp with
                  | inr _, Some off => off
                  | _, _ => start (committed_of offs) tp
                  end)
          else None
    | inl _ => soughtPartitions (gw_obj w') = []
    end.
Proof.
  intros Hp Hj Hd Hne Hs. destruct (an_committed g) as [e|offs] eqn:Hc.
  - destruct (run_rebalance_failed w resp e Hp Hj Hc Hne) as (w' & E & _ & Hm & H0). by exists w'.
  - destruct (run_rebalance_ok w resp offs Hp Hj Hc Hd (Hs offs eq_refl)) as (w' & E & H1 & Hm & Hf). exists w'. split_and!; try done.
    intros tp. rewrite Hf. destruct (decide _); [|done]. by destruct (an_commit g) as [?|[]], (fetchOffsets (gw_obj w) !! tp).
Qed.

(** ** A rebalance that fails half-way *)

(** Heartbeats that are answered with OK change the pool at most. *)
Lemma run_heartbeats n w :
  pool_ok (co_pool (gw_obj w)) -> an_heartbeat g = inr false ->
  exists p, pool_ok p /\ run ghandle (heartbeatLoop NewClient config n) w = (tt, set_gw w (set_pool (gw_obj w) p)).
Proof.
  intros Hp Hh. revert w Hp. induction n as [|n IH]; intros w Hp; cbn [heartbeatLoop].
  { exists (co_pool (gw_obj w)). split; [done|]. by destruct w as [[]]. }
  rewrite run_bind, run_trigger. cbn [handle]. rewrite run_bind. unfold heartbeat_tick at 1, snapshot.
  rewrite run_bind, run_trigger. cbn [handle fst snd]. rewrite run_bind.
  change {| gw_obj := gw_obj w; gw_clock := gw_clock w |} with (set_gw w (gw_obj w)).
  destruct (run_conn (coordAddr (gw_obj w)) (set_gw w (gw_obj w)) Hp) as (c & p & Hp' & ->).
  rewrite run_bind, run_trigger. cbn [handle]. rewrite Hh. cbn [run].
  destruct (IH (set_gw (set_gw w (gw_obj w)) (set_pool (gw_obj (set_gw w (gw_obj w))) p))) as (p2 & Hp2 & ->); [done|].
  by exists p2.
Qed.

(** A member without positions polls nothing, and asks nobody. *)
Lemma run_Poll_idle fuel maxWaitMs w :
  soughtPartitions (gw_obj w) = [] -> rebalancing (gw_obj w) = false ->
  run ghandle (Poll NewClient config (S fuel) maxWaitMs) w = (Ok [], w).
Proof.
  intros Hs Hr. unfold Poll. rewrite (proj2 (String.eqb_neq _ _)) by done. cbn [negb await]. unfold snapshot.
  rewrite run_bind, run_trigger. cbn [handle fst snd]. rewrite Hr. unfold poll_body, snapshot.
  rewrite run_bind, run_trigger. cbn [handle fst snd gw_obj]. rewrite Hs. by destruct w.
Qed.

End group.

(** A member that joins and then cannot read its committed offsets is lost to the group without
    leaving it. The rebalance has cleared its positions and taken over the new generation, so
    all further heartbeats succeed and no rebalance is started again; it owns its partitions,
    and every poll returns no records and no error, without asking any broker. *)
Theorem rebalance_starves `{Float64} NewClient config boot addrs g g' w resp e fuel maxWaitMs n :
  (forall addr, NewClient addr = None) -> BootstrapServers (cc_Config config) = boot :: addrs -> GroupID config <> "" ->
  pool_ok (co_pool (gw_obj w)) -> an_join g = inr resp -> an_committed g = inl e -> GroupCoord.jp_Assignments resp <> [] ->
  an_heartbeat g' = inr false ->
  exists w1 w2, run (handle g) (startRebalance NewClient config) w = (tt, w1) /\
    run (handle g') (heartbeatLoop NewClient config n) w1 = (tt, w2) /\
    membership (gw_obj w2) = (GroupCoord.jp_Assignments resp, GroupCoord.jp_MemberID resp, GroupCoord.jp_GenerationID resp, false) /\
    run (handle g') (Poll NewClient config (S fuel) maxWaitMs) w2 = (Ok [], w2).
Proof.
  intros HN Hb Hg Hp Hj Hc Hne Hh.
  destruct (run_rebalance_failed NewClient HN config boot addrs Hb g w resp e Hp Hj Hc Hne) as (w1 & E1 & Hp1 & Hm1 & Hs1).
  destruct (run_heartbeats NewClient HN config g' n w1 Hp1 Hh) as (p & Hp2 & E2).
  exists w1. eexists. split; [exact E1|]. split; [exact E2|]. split; [exact Hm1|].
  apply run_Poll_idle; [done|exact Hs1|]. unfold membership in Hm1. by injection Hm1.
Qed.

End ConsumerRun.
