(* ===== verification/Auth.v ===== *)
(** * Authentication

    internal/api/auth/interceptor.go on the server, and [newAuthInterceptor] of
    pkg/client/producer.go on the client. Both API servers put the interceptor before every
    handler (internal/api/server.go). Incoming metadata is a map from lower-case keys to the
    values sent under them. *)

From S2P Require Import Prelude Prog ClusterCoord ClientNet Producer.
Local Open Scope Z_scope.

Module Auth.
Import ClientNet.

Definition codes_Unauthenticated : Z := 16.
Definition tokenKey : string := "bunnymq-auth-token".

Abbreviation metadata := (gmap string (list string)).

(** [metadata.AppendToOutgoingContext]. *)
Definition AppendToOutgoingContext (md : metadata) (key value : string) : metadata :=
  <[key := default [] (md !! key) ++ [value]]> md.

(** The interceptor a client installs for its token. *)
Definition newAuthInterceptor (token : string) (md : metadata) : metadata := AppendToOutgoingContext md tokenKey token.

(** What the interceptors of a connection add to a call's metadata. *)
Definition outgoing (opts : list DialOption) : metadata :=
  fold_left (fun md o => match o with AuthInterceptor token => newAuthInterceptor token md | _ => md end) opts ∅.

Definition unauthenticated : error := ErrStatus codes_Unauthenticated [].

(** [md] is [None] for a call without metadata; the result is the error, if any. *)
Definition validateToken (md : option metadata) (validTokens : list string) : option error :=
  if len validTokens =? 0 then None else
  match md with
  | None => Some unauthenticated
  | Some md =>
      match default [] (md !! tokenKey) with
      | [] => Some unauthenticated
      | t :: _ => if bool_decide (t ∈ validTokens) then None else Some unauthenticated
      end
  end.

(** A handler behind the interceptor. *)
Definition UnaryInterceptor {W A} (validTokens : list string) (md : option metadata) (handler : W -> (error + A) * W) (w : W)
  : (error + A) * W :=
  match validateToken md validTokens with
  | Some e => (inl e, w)
  | None => handler w
  end.

Definition StreamInterceptor {W} (validTokens : list string) (md : option metadata) (handler : W -> option error * W) (w : W)
  : option error * W :=
  match validateToken md validTokens with
  | Some e => (Some e, w)
  | None => handler w
  end.

Section gate.
Context `{Float64}.

Lemma outgoing_token (c : Config) opts :
  opts = [KeepaliveParams 30000000000 10000000000] ++ Producer.dialOptions c ->
  default [] (outgoing opts !! tokenKey) = if String.eqb (AuthToken c) "" then [] else [AuthToken c].
Proof.
  intros ->. unfold Producer.dialOptions, outgoing. destruct (String.eqb (AuthToken c) "") eqn:E; cbn; [done|].
  unfold newAuthInterceptor, AppendToOutgoingContext. by rewrite lookup_insert_eq.
Qed.

(** C23: The gate. A call of a client reaches the handler exactly when the broker has no tokens or the
    client is configured with one of them; else it is refused with UNAUTHENTICATED and nothing on
    the broker changes. *)
Theorem auth_gate {W A} (c : Config) (validTokens : list string) (handler : W -> (error + A) * W) (w : W) :
  let md := Some (outgoing (cp_opts (NewConnPool (Producer.dialOptions c)))) in
  (validTokens = [] \/ AuthToken c <> "" /\ AuthToken c ∈ validTokens ->
     UnaryInterceptor validTokens md handler w = handler w) /\
  (~ (validTokens = [] \/ AuthToken c <> "" /\ AuthToken c ∈ validTokens) ->
     UnaryInterceptor validTokens md handler w = (inl unauthenticated, w)).
Proof.
  cbv zeta. unfold UnaryInterceptor, validateToken. rewrite (outgoing_token c) by done.
  destruct validTokens as [|v vs]; [split; [done|intros Hn; exfalso; apply Hn; by left]|].
  change (len (v :: vs) =? 0) with false. cbn iota.
  destruct (String.eqb_spec (AuthToken c) "") as [E|E].
  - split; [intros [?|[? _]]; done|done].
  - destruct (bool_decide_reflect (AuthToken c ∈ v :: vs)) as [Hin|Hin]; split; try done.
    + intros Hn. exfalso. apply Hn. by right.
    + by intros [?|[_ ?]].
Qed.
End gate.

End Auth.
