(* ===== verification/Interceptors.v ===== *)
(** * The interceptors of the servers

    serverOptions of internal/api/server.go chains the authentication, the logging
    (internal/api/logging) and the metrics of the requests (internal/api/server_metrics.go) before
    the handlers of both APIs. What they write is kept in a [monitor]: the log, and the counters by
    method and status code. For the caller the chain is the authentication alone; every request
    that passes it is counted once. *)

From S2P Require Import Prelude ClientNet Auth.
Local Open Scope Z_scope.

Module Interceptors.
Import ClientNet.

Definition codes_OK : Z := 0.
Definition codes_Unknown : Z := 2.
Definition codes_Unimplemented : Z := 12.

(** [status.Code]. *)
Definition code_of {A} (r : error + A) : Z :=
  match r with
  | inr _ => codes_OK
  | inl e => match status_FromError e with Some (c, _) => c | None => codes_Unknown end
  end.

(** The lines of the log. *)
Inductive entry :=
| AuthFailed (method : string) (e : error)
| Received (method reqID : string)
| Unrecognized (method : string)
| HandlerError (method reqID : string) (e : error).

(** [GRPCRequestsTotal], and the number of observations of [GRPCRequestDuration]. *)
Record monitor := { log : list entry; requests : gmap (string * Z) Z; durations : gmap string Z }.

Definition monitor0 : monitor := {| log := []; requests := ∅; durations := ∅ |}.

Definition write (e : entry) (m : monitor) : monitor :=
  {| log := log m ++ [e]; requests := requests m; durations := durations m |}.

(** [Inc] of a labelled counter. *)
Definition inc {K} `{Countable K} (k : K) (c : gmap K Z) : gmap K Z := <[k := default 0 (c !! k) + 1]> c.

Definition count (method : string) (code : Z) (m : monitor) : monitor :=
  {| log := log m; requests := inc (method, code) (requests m); durations := inc method (durations m) |}.

Definition requestIDFromCtx (md : option Auth.metadata) : string :=
  match md with
  | None => ""
  | Some md => match default [] (md !! "x-request-id"%string) with [] => "" | v :: _ => v end
  end.

Section chain.
Context {W A : Type}.
(** The context and the method of the request. *)
Variables (md : option Auth.metadata) (method : string).
Abbreviation handler := (W * monitor -> (error + A) * (W * monitor))%type.

(** [auth.UnaryInterceptor] with its warning. *)
Definition auth_UnaryInterceptor (tokens : list string) (h : handler) : handler := fun s =>
  match Auth.validateToken md tokens with
  | Some e => (inl e, (s.1, write (AuthFailed method e) s.2))
  | None => h s
  end.

Definition logging_UnaryInterceptor (h : handler) : handler := fun s =>
  let reqID := requestIDFromCtx md in
  let '(r, (w, m)) := h (s.1, write (Received method reqID) s.2) in
  match r with
  | inr _ => (r, (w, m))
  | inl e =>
      (r, (w, write (if code_of r =? codes_Unimplemented then Unrecognized method else HandlerError method reqID e) m))
  end.

Definition ServerMetricsInterceptor (h : handler) : handler := fun s =>
  let '(r, (w, m)) := h s in (r, (w, count method (code_of r) m)).

(** The handlers do not see the monitor. *)
Definition plain (h : W -> (error + A) * W) : handler := fun s => let '(r, w) := h s.1 in (r, (w, s.2)).

(** The interceptors of a server, the outermost first. *)
Definition chain (tokens : list string) (metrics : bool) (h : W -> (error + A) * W) : handler :=
  auth_UnaryInterceptor tokens (logging_UnaryInterceptor (if metrics then ServerMetricsInterceptor (plain h) else plain h)).

End chain.

(** ** Histories of requests *)

Section history.
Context {W A : Type}.
Variable tokens : list string.
Abbreviation handler := (W -> (error + A) * W)%type.

Record call := { c_md : option Auth.metadata; c_method : string; c_handler : handler }.

Fixpoint serve (calls : list call) (s : W * monitor) : list (error + A) * (W * monitor) :=
  match calls with
  | [] => ([], s)
  | c :: calls' =>
      let '(r, s) := chain (c_md c) (c_method c) tokens true (c_handler c) s in
      let '(rs, s) := serve calls' s in (r :: rs, s)
  end.

(** The authentication alone. *)
Fixpoint gate (calls : list call) (w : W) : list (error + A) * W :=
  match calls with
  | [] => ([], w)
  | c :: calls' =>
      let '(r, w) := Auth.UnaryInterceptor tokens (c_md c) (c_handler c) w in
      let '(rs, w) := gate calls' w in (r :: rs, w)
  end.

Definition accepted (c : call) : bool := match Auth.validateToken (c_md c) tokens with None => true | Some _ => false end.

(** The lines of the log for a call and its reply. *)
Definition lines (c : call) (r : error + A) : list entry :=
  match Auth.validateToken (c_md c) tokens with
  | Some e => [AuthFailed (c_method c) e]
  | None =>
      Received (c_method c) (requestIDFromCtx (c_md c)) ::
      match r with
      | inr _ => []
      | inl e => [if code_of r =? codes_Unimplemented then Unrecognized (c_method c) else HandlerError (c_method c) (requestIDFromCtx (c_md c)) e]
      end
  end.

(** What the counters gain. *)
Definition counted (method : string) (code : Z) (c : call) (r : error + A) : Z :=
  if accepted c && String.eqb (c_method c) method && (code_of r =? code) then 1 else 0.
Definition timed (method : string) (c : call) : Z := if accepted c && String.eqb (c_method c) method then 1 else 0.

Fixpoint total {B} (f : B -> Z) (l : list B) : Z := match l with [] => 0 | x :: l' => f x + total f l' end.

Lemma default_inc {K} `{Countable K} (k k' : K) c : default 0 (inc k c !! k') = default 0 (c !! k') + (if bool_decide (k = k') then 1 else 0).
Proof. unfold inc. case_bool_decide as E; [subst; by rewrite lookup_insert_eq|rewrite lookup_insert_ne by done; lia]. Qed.

(** One request. *)
Lemma chain_step c w m :
  exists m', let '(r, w') := Auth.UnaryInterceptor tokens (c_md c) (c_handler c) w in
    chain (c_md c) (c_method c) tokens true (c_handler c) (w, m) = (r, (w', m')) /\
    log m' = log m ++ lines c r /\
    (forall method code, default 0 (requests m' !! (method, code)) = default 0 (requests m !! (method, code)) + counted method code c r) /\
    (forall method, default 0 (durations m' !! method) = default 0 (durations m !! method) + timed method c).
Proof.
  unfold Auth.UnaryInterceptor, chain, auth_UnaryInterceptor, lines, counted, timed, accepted.
  destruct (Auth.validateToken (c_md c) tokens) as [e|].
  { eexists. split; [reflexivity|]. split; [done|]. split; intros; cbn; lia. }
  unfold logging_UnaryInterceptor, ServerMetricsInterceptor, plain. cbn [fst snd].
  destruct (c_handler c w) as [r w'].
  assert (forall method code, default 0 (inc (c_method c, code_of r) (requests m) !! (method, code)) =
    default 0 (requests m !! (method, code)) + (if String.eqb (c_method c) method && (code_of r =? code) then 1 else 0)) as Hr.
  { intros method code. rewrite default_inc. f_equal.
    destruct (String.eqb_spec (c_method c) method), (Z.eqb_spec (code_of r) code); case_bool_decide; try done; congruence. }
  assert (forall method, default 0 (inc (c_method c) (durations m) !! method) =
    default 0 (durations m !! method) + (if String.eqb (c_method c) method then 1 else 0)) as Hd.
  { intros method. rewrite default_inc. f_equal. destruct (String.eqb_spec (c_method c) method); by case_bool_decide. }
  destruct r as [e|a]; eexists; (split; [reflexivity|]); cbn [log requests durations write count]; rewrite ?app_nil_r, <- ?app_assoc; auto.
Qed.

(** C24: What the operators see. For any requests in any order, the replies and the state behind the
    servers are those of the authentication and the handlers alone. The log has one line for a
    refused request and for every other one its arrival, followed by its error; a request that
    is let through is counted exactly once, under its method and the code it was answered with,
    and a refused one is not counted. *)
Theorem requests_accounted calls w m :
  exists m', let '(rs, w') := gate calls w in
    serve calls (w, m) = (rs, (w', m')) /\
    log m' = log m ++ concat (zip_with lines calls rs) /\
    (forall method code, default 0 (requests m' !! (method, code)) =
       default 0 (requests m !! (method, code)) + total (fun p => counted method code p.1 p.2) (zip calls rs)) /\
    (forall method, default 0 (durations m' !! method) = default 0 (durations m !! method) + total (timed method) calls).
Proof.
  revert w m. induction calls as [|c calls IH]; intros w m; cbn [gate serve].
  { exists m. cbn. rewrite app_nil_r. split; [done|]. split; [done|]. split; intros; lia. }
  destruct (chain_step c w m) as (m1 & H1). destruct (Auth.UnaryInterceptor _ _ _ _) as [r w1]. destruct H1 as (E1 & L1 & R1 & D1).
  destruct (IH w1 m1) as (m2 & H2). destruct (gate calls w1) as [rs w2]. destruct H2 as (E2 & L2 & R2 & D2).
  exists m2. rewrite E1, E2. split; [done|]. cbn [zip_with concat total fst snd]. split; [by rewrite L2, L1, app_assoc|].
  split; intros; [rewrite R2, R1|rewrite D2, D1]; lia.
Qed.

(** A chain with or without metrics is the authentication for its caller. *)
Lemma chain_gate metrics md method (h : handler) w m :
  exists m', let '(r, w') := Auth.UnaryInterceptor tokens md h w in chain md method tokens metrics h (w, m) = (r, (w', m')).
Proof.
  unfold Auth.UnaryInterceptor, chain, auth_UnaryInterceptor. destruct (Auth.validateToken md tokens); [by eexists|].
  unfold logging_UnaryInterceptor, ServerMetricsInterceptor, plain. destruct metrics; cbn [fst snd]; destruct (h w) as [[e|a] w']; by eexists.
Qed.

End history.

(** ** Build and uptime

    The other two metrics of internal/api/server_metrics.go: the build info is set once, by run; the uptime
    at every tick of its ticker, which comes every ten seconds until the process stops. *)

Record process_info := { BuildInfo : gmap (list string) Z; UptimeSeconds : Z }.

Definition RecordBuildInfo (version goVersion nodeID commit : string) (i : process_info) : process_info :=
  {| BuildInfo := <[[version; goVersion; nodeID; commit] := 1]> (BuildInfo i); UptimeSeconds := UptimeSeconds i |}.

(** The ticks of [StartUptimeTicker] at these times, in seconds. *)
Definition StartUptimeTicker (startTime : Z) (ticks : list Z) (i : process_info) : process_info :=
  fold_left (fun i now => {| BuildInfo := BuildInfo i; UptimeSeconds := now - startTime |}) ticks i.

(** The gauge is behind by less than a period, once the first tick has come. *)
Lemma uptime_recent startTime n now i :
  (0 < n)%nat -> startTime + 10 * Z.of_nat n <= now < startTime + 10 * Z.of_nat (S n) ->
  let i' := StartUptimeTicker startTime ((fun k => startTime + 10 * (Z.of_nat k + 1)) <$> seq 0 n) i in
  UptimeSeconds i' <= now - startTime < UptimeSeconds i' + 10 /\ BuildInfo i' = BuildInfo i.
Proof.
  intros Hn Hnow. destruct n as [|n]; [lia|]. rewrite seq_S, fmap_app. unfold StartUptimeTicker. rewrite fold_left_app. cbn [fmap list_fmap fold_left].
  cbn [UptimeSeconds BuildInfo]. split; [lia|]. generalize (seq 0 n). intros l. revert i. induction l as [|k l IH]; intros i; [done|].
  cbn [fmap list_fmap fold_left]. by rewrite IH.
Qed.

End Interceptors.
