(* ===== verification/Broker.v ===== *)
(** * The broker process

    cmd/bunnymq/main.go: [main], [healthCheck], [startObservability] and [run], the program that
    starts the raft host, the coordinators and the servers and stops them again, with the servers
    of internal/api (server.go, metrics_server.go, pprof_server.go). It makes requests to the
    operating system, to the raft library and, through the coordinators' own programs, to the
    cluster. [observe] keeps what the process holds after each request and its reply; the theorems
    are about every path of replies. *)

From S2P Require Import Prelude SegName Keys Segment Metadata Prog GroupCoord DataCoord ClusterCoord Bootstrap RaftHost Config Auth Interceptors.
From stdpp Require Import gmultiset.
Local Open Scope Z_scope.

Module Broker.
Import Metadata.

(** ** Requests *)

Inductive service := SvcMetrics | SvcPprof | SvcMgmt | SvcData.

#[export] Instance service_eq_dec : EqDecision service.
Proof. solve_decision. Defined.
#[export] Instance service_countable : Countable service.
Proof.
  refine (inj_countable' (fun s => match s with SvcMetrics => 0 | SvcPprof => 1 | SvcMgmt => 2 | SvcData => 3 end)
    (fun n => match n with 0 => SvcMetrics | 1 => SvcPprof | 2 => SvcMgmt | _ => SvcData end) _). by intros [].
Defined.

(** The interceptors of a gRPC server, the outermost first. *)
Inductive interceptor := IAuth (tokens : list string) | ILogging | IMetrics.

(** What runs beside [run] until its context ends. *)
Inductive goroutine := GoUptime | GoSessionSweep (config : GroupCoord.GroupCoordinatorConfig).

(** A listener is named by the address it is bound to. *)
Inductive brokerE : Type -> Type :=
| BListen (addr : string) : brokerE (error + string)
| BCloseListener (ln : string) : brokerE unit
| BServe (s : service) (opts : list interceptor) (ln : string) : brokerE unit   (** [go srv.Serve(ln)] *)
| BGracefulStop (s : service) : brokerE unit
| BShutdown (s : service) (timeoutMs : Z) : brokerE (outcome unit)
| BNewNodeHost (config : RaftHost.NodeHostConfig) : brokerE (outcome unit)
| BHostClose : brokerE unit
| BNotifyContext : brokerE unit
| BCancel : brokerE unit
| BGo (g : goroutine) : brokerE unit
| BDone : brokerE unit   (** [<-ctx.Done()] *)
| BDial (addr : string) (timeoutMs : Z) : brokerE (outcome unit)
| BCluster {X} (e : ClusterCoord.clusterE X) : brokerE X
| BGroup {X} (e : GroupCoord.groupE X) : brokerE X.

Abbreviation bprog := (prog brokerE).

(** [defer d] before [p]: [d] runs on every way out of [p], a panic included. *)
Definition deferred {A} (d : bprog unit) (p : bprog A) : bprog A := r ← p; _ ← d; Ret r.

Definition listen (addr : string) : bprog (outcome string) :=
  r ← trigger (BListen addr); Ret (match r with inr ln => Ok ln | inl e => Err e end).

(** ** The servers *)

(** The unary and the stream interceptors; [metrics]: whether [config.Metrics] is set. *)
Definition serverOptions (tokens : list string) (metrics : bool) : list interceptor * list interceptor :=
  ([IAuth tokens; ILogging] ++ (if metrics then [IMetrics] else []), [IAuth tokens; ILogging]).

(** The handler behind unary interceptors. *)
Fixpoint chain {W A} (opts : list interceptor) (md : option Auth.metadata) (method : string) (h : W -> (error + A) * W)
  : W * Interceptors.monitor -> (error + A) * (W * Interceptors.monitor) :=
  match opts with
  | [] => Interceptors.plain h
  | IAuth tokens :: opts' => Interceptors.auth_UnaryInterceptor md method tokens (chain opts' md method h)
  | ILogging :: opts' => Interceptors.logging_UnaryInterceptor md method (chain opts' md method h)
  | IMetrics :: opts' => Interceptors.ServerMetricsInterceptor method (chain opts' md method h)
  end.

(** To its caller a server of these options is the authentication with these tokens. *)
Definition guards (opts : list interceptor) (tokens : list string) : Prop :=
  forall W A md method (h : W -> (error + A) * W) w m,
    exists m', let '(r, w') := Auth.UnaryInterceptor tokens md h w in chain opts md method h (w, m) = (r, (w', m')).

Lemma serverOptions_guards tokens metrics : guards (serverOptions tokens metrics).1 tokens.
Proof.
  intros W A md method h w m. destruct (Interceptors.chain_gate tokens metrics md method h w m) as [m' Hm]. exists m'.
  destruct (Auth.UnaryInterceptor tokens md h w). rewrite <- Hm. by destruct metrics.
Qed.

(** [MetricsServer] and [PprofServer]. *)
Record httpServer := { hs_service : service; hs_addr : string; hs_started : bool }.

Definition NewMetricsServer (addr : string) : httpServer := {| hs_service := SvcMetrics; hs_addr := addr; hs_started := false |}.

Definition NewPprofServer (addr : string) : outcome httpServer :=
  if String.prefix "0.0.0.0" addr then Err (ErrNew "pprof server must not bind to public address 0.0.0.0")
  else Ok {| hs_service := SvcPprof; hs_addr := addr; hs_started := false |}.

Definition Start (s : httpServer) : bprog (outcome httpServer) :=
  call (listen (hs_addr s)) id (fun ln =>
  _ ← trigger (BServe (hs_service s) [] ln);
  Ret (Ok {| hs_service := hs_service s; hs_addr := ln; hs_started := true |})).

Definition Stop (s : httpServer) (timeoutMs : Z) : bprog (outcome unit) :=
  if hs_started s then trigger (BShutdown (hs_service s) timeoutMs) else Ret (Ok tt).

(** ** run *)

Definition or_default (addr def : string) : string := if String.eqb addr "" then def else addr.

(** A pprof address that is refused is logged only. *)
Definition startObservability (cfg : Config.Config) : bprog (outcome (httpServer * option httpServer)) :=
  let metricsAddr := or_default (Config.MetricsAddr cfg) ":9090" in
  call (Start (NewMetricsServer metricsAddr)) (ErrWrap (sprint ["start metrics server "; metricsAddr])) (fun metricsSrv =>
  if String.eqb (Config.PprofAddr cfg) "" then Ret (Ok (metricsSrv, None)) else
  match NewPprofServer (Config.PprofAddr cfg) with
  | Ok ps =>
      call (Start ps) (ErrWrap (sprint ["start pprof server "; Config.PprofAddr cfg])) (fun ps => Ret (Ok (metricsSrv, Some ps)))
  | _ => Ret (Ok (metricsSrv, None))
  end).

Definition hostConfig (cfg : Config.Config) : RaftHost.Config :=
  {| RaftHost.DataDir := Config.DataDir cfg; RaftHost.RaftAddress := Config.RaftAddress cfg; RaftHost.cf_NodeID := Config.NodeID cfg;
     RaftHost.RaftRTTMs := Config.RaftRTTMs cfg |}.

(** From the listeners to the end: the servers run until the context is done. *)
Definition serve (cfg : Config.Config) (metricsSrv : httpServer) (pprofSrv : option httpServer) : bprog (outcome unit) :=
  let mgmtAddr := or_default (Config.ManagementAddr cfg) ":9091" in
  let dataAddr := or_default (Config.DataAddr cfg) ":9092" in
  let opts := (serverOptions (Config.AuthTokens cfg) true).1 in
  call (listen mgmtAddr) (ErrWrap (sprint ["listen management "; mgmtAddr])) (fun mgmtLn =>
  r ← trigger (BListen dataAddr);
  match r with
  | inr dataLn =>
      _ ← trigger (BServe SvcMgmt opts mgmtLn);
      _ ← trigger (BServe SvcData opts dataLn);
      _ ← trigger BDone;
      _ ← trigger (BGracefulStop SvcMgmt);
      _ ← trigger (BGracefulStop SvcData);
      _ ← Stop metricsSrv 5000;
      _ ← match pprofSrv with Some ps => Stop ps 5000 | None => Ret (Ok tt) end;
      Ret (Ok tt)
  | inl e => _ ← trigger (BCloseListener mgmtLn); Ret (Err (ErrWrap (sprint ["listen data "; dataAddr]) e))
  end).

(** [fuel] bounds the attempts of [Bootstrap]. The constructors of the coordinators make no request,
    and both shutdowns share a context of five seconds. *)
Definition run (fuel : nat) (cfg : Config.Config) : bprog (outcome unit) :=
  call (startObservability cfg) id (fun servers =>
  call (trigger (BNewNodeHost (RaftHost.nodeHostConfig (hostConfig cfg)))) (ErrWrap "create raft host") (fun _ =>
  deferred (trigger BHostClose) (
  _ ← trigger BNotifyContext;
  deferred (trigger BCancel) (
  _ ← trigger (BGo GoUptime);
  call (interp (fun X e => trigger (BCluster e)) (ClusterCoord.Bootstrap (Config.clusterConfig cfg) fuel)) (ErrWrap "bootstrap") (fun _ =>
  let gc := GroupCoord.NewGroupCoordinator (Config.groupConfig cfg) in
  _ ← interp (fun X e => trigger (BGroup e)) GroupCoord.RebuildHeartbeatTable;
  _ ← trigger (BGo (GoSessionSweep gc));
  serve cfg servers.1 servers.2))))).

(** ** main *)

(** The exit code. *)
Definition healthCheck (getenv : string -> string) : bprog (outcome Z) :=
  r ← trigger (BDial (or_default (getenv "MGMT_ADDR") ":9091") 3000);
  Ret (match r with Ok _ => Ok 0 | Err _ => Ok 1 | Panic p => Panic p | OutOfFuel => OutOfFuel end).

(** [file]: what viper decodes from a path; [logger]: the error of [NewLogger], if any. *)
Definition main (fuel : nat) (args : list string) (getenv : string -> string) (file : string -> outcome Config.rawConfig)
    (logger : option error) : bprog (outcome Z) :=
  let health := match args with _ :: a :: _ => String.eqb a "--health-check" | _ => false end in
  if health then healthCheck getenv else
  match match args with _ :: path :: _ => Config.Load (file path) | _ => Config.LoadFromEnv getenv end with
  | Ok cfg =>
      match logger with
      | Some _ => Ret (Ok 1)
      | None =>
          r ← run fuel cfg;
          Ret (match r with Ok _ => Ok 0 | Err _ => Ok 1 | Panic p => Panic p | OutOfFuel => OutOfFuel end)
      end
  | Err _ => Ret (Ok 1)
  | Panic p => Ret (Panic p)
  | OutOfFuel => Ret OutOfFuel
  end.

(** ** What the process holds *)

Record process := {
  pr_bound : list (string * string);   (** every listener made: the address asked for, and its own *)
  pr_listeners : gmultiset string;   (** the open listeners that no server has *)
  pr_serving : gmap service (list interceptor * string);
  pr_host : bool;   (** the raft host is open *)
  pr_nodes : list NodeInfo;   (** the registrations the metadata shard has accepted *)
  pr_asked : bool;   (** the groups have been asked for, for the heartbeat table, whatever the answer *)
  pr_sweeping : bool   (** the sweep of the sessions runs *)
}.

Definition process0 : process :=
  {| pr_bound := []; pr_listeners := ∅; pr_serving := ∅; pr_host := false; pr_nodes := []; pr_asked := false; pr_sweeping := false |}.

Definition set_listeners (f : gmultiset string -> gmultiset string) (p : process) : process :=
  {| pr_bound := pr_bound p; pr_listeners := f (pr_listeners p); pr_serving := pr_serving p; pr_host := pr_host p; pr_nodes := pr_nodes p;
     pr_asked := pr_asked p; pr_sweeping := pr_sweeping p |}.
Definition add_bound (addr ln : string) (p : process) : process :=
  {| pr_bound := (addr, ln) :: pr_bound p; pr_listeners := {[+ ln +]} ⊎ pr_listeners p; pr_serving := pr_serving p; pr_host := pr_host p;
     pr_nodes := pr_nodes p; pr_asked := pr_asked p; pr_sweeping := pr_sweeping p |}.
Definition set_serving (f : gmap service (list interceptor * string) -> gmap service (list interceptor * string)) (p : process) : process :=
  {| pr_bound := pr_bound p; pr_listeners := pr_listeners p; pr_serving := f (pr_serving p); pr_host := pr_host p; pr_nodes := pr_nodes p;
     pr_asked := pr_asked p; pr_sweeping := pr_sweeping p |}.
Definition set_host (b : bool) (p : process) : process :=
  {| pr_bound := pr_bound p; pr_listeners := pr_listeners p; pr_serving := pr_serving p; pr_host := b; pr_nodes := pr_nodes p;
     pr_asked := pr_asked p; pr_sweeping := pr_sweeping p |}.
Definition add_node (n : NodeInfo) (p : process) : process :=
  {| pr_bound := pr_bound p; pr_listeners := pr_listeners p; pr_serving := pr_serving p; pr_host := pr_host p; pr_nodes := n :: pr_nodes p;
     pr_asked := pr_asked p; pr_sweeping := pr_sweeping p |}.
Definition set_groups (asked sweeping : bool) (p : process) : process :=
  {| pr_bound := pr_bound p; pr_listeners := pr_listeners p; pr_serving := pr_serving p; pr_host := pr_host p; pr_nodes := pr_nodes p;
     pr_asked := asked; pr_sweeping := sweeping |}.

(** What a request and its reply change; a server closes its listener when it stops. *)
Definition observe (p : process) (o : obs brokerE) : process :=
  match ob_request o in brokerE X return X -> process with
  | BListen addr => fun r => match r with inr ln => add_bound addr ln p | inl _ => p end
  | BCloseListener ln => fun _ => set_listeners (fun l => l ∖ {[+ ln +]}) p
  | BServe s opts ln => fun _ => set_listeners (fun l => l ∖ {[+ ln +]}) (set_serving <[s := (opts, ln)]> p)
  | BGracefulStop s => fun _ => set_serving (delete s) p
  | BShutdown s _ => fun _ => set_serving (delete s) p
  | BNewNodeHost _ => fun r => match r with Ok _ => set_host true p | _ => p end
  | BHostClose => fun _ => set_host false p
  | BGo (GoSessionSweep _) => fun _ => set_groups (pr_asked p) true p
  | BCluster e =>
      match e in ClusterCoord.clusterE X return X -> process with
      | ClusterCoord.CPropose (CmdRegisterNode (Some n)) => fun r => match r with Ok _ => add_node n p | _ => p end
      | _ => fun _ => p
      end
  | BGroup e =>
      match e in GroupCoord.groupE X return X -> process with
      | GroupCoord.ELookup QueryGetAllGroupStates => fun _ => set_groups true (pr_sweeping p) p
      | _ => fun _ => p
      end
  | _ => fun _ => p
  end (ob_reply o).

Definition after (t : list (obs brokerE)) : process := fold_left observe t process0.

(** The listeners that are open: those of the servers that run, and those no server has. *)
Definition open_listeners (p : process) : gmultiset string :=
  pr_listeners p ⊎ list_to_set_disj ((fun x => x.2.2) <$> map_to_list (pr_serving p)).

(** ** Following the process along a path *)

Abbreviation bpath := (path (E := brokerE) (fun _ _ _ => True)).

(** On every path of [p] from [s]: [Inv] before every request and at the end, and [Q] of the value
    returned. *)
Fixpoint tracks {A} (Inv : process -> Prop) (Q : A -> process -> Prop) (p : bprog A) (s : process) : Prop :=
  match p with
  | Ret a => Inv s /\ Q a s
  | Vis e k => Inv s /\ forall x, tracks Inv Q (k x) (observe s (Obs e x))
  end.

Lemma tracks_inv {A} Inv (Q : A -> process -> Prop) p s : tracks Inv Q p s -> Inv s.
Proof. destruct p; by intros [? _]. Qed.

Lemma tracks_path {A} Inv (Q : A -> process -> Prop) p s t a :
  tracks Inv Q p s -> bpath p t a ->
  (forall t1 t2, t = t1 ++ t2 -> Inv (fold_left observe t1 s)) /\ Q a (fold_left observe t s).
Proof.
  revert s t. induction p as [a'|X e k IH]; intros s t; cbn [tracks path].
  - intros [Hi Hq] [-> ->]. split; [|done]. by intros [|? ?] t2 [=].
  - intros [Hi Hk] (x & t' & _ & -> & Ht). destruct (IH x _ _ (Hk x) Ht) as [H1 H2]. split; [|done].
    intros [|o t1] t2; cbn [app fold_left]; [done|]. intros [= <- ->]. by eapply H1.
Qed.

Lemma tracks_mono {A} (Inv Inv' : process -> Prop) (Q Q' : A -> process -> Prop) p s :
  (forall s, Inv s -> Inv' s) -> (forall a s, Q a s -> Q' a s) -> tracks Inv Q p s -> tracks Inv' Q' p s.
Proof. intros Hi Hq. revert s. induction p as [a|X e k IH]; intros s; cbn [tracks]; [naive_solver|]. intros [H1 H2]. split; auto. Qed.

Lemma tracks_post {A} Inv (Q Q' : A -> process -> Prop) p s :
  (forall a s, Q a s -> Q' a s) -> tracks Inv Q p s -> tracks Inv Q' p s.
Proof. intros HQ. by apply tracks_mono. Qed.

Lemma tracks_bind {A B} Inv (Q : B -> process -> Prop) (p : bprog A) (f : A -> bprog B) s :
  tracks Inv (fun a s' => tracks Inv Q (f a) s') p s -> tracks Inv Q (p ≫= f) s.
Proof.
  revert s. induction p as [a|X e k IH]; intros s; cbn [tracks mbind prog_bind]; [by intros [_ ?]|]. intros [H1 H2]. split; auto.
Qed.

Lemma tracks_trigger {X} Inv (Q : X -> process -> Prop) (e : brokerE X) s :
  Inv s -> (forall x, Inv (observe s (Obs e x)) /\ Q x (observe s (Obs e x))) -> tracks Inv Q (trigger e) s.
Proof. intros H1 H2. by split. Qed.

(** A request, and what comes after it. *)
Lemma tracks_step {X B} Inv (Q : B -> process -> Prop) (e : brokerE X) (f : X -> bprog B) s :
  Inv s -> (forall x, tracks Inv Q (f x) (observe s (Obs e x))) -> tracks Inv Q (trigger e ≫= f) s.
Proof. intros H1 H2. split; [done|]. exact H2. Qed.

(** A call ends with its error, or goes on. *)
Definition failed {A} (r : outcome A) : Prop := match r with Ok _ => False | _ => True end.

Lemma tracks_call {B C} Inv (Q : outcome C -> process -> Prop) (m : bprog (outcome B)) wrap (k : B -> bprog (outcome C)) s :
  tracks Inv (fun o s' => match o with Ok b => tracks Inv Q (k b) s' | _ => forall r, failed r -> Q r s' end) m s ->
  tracks Inv Q (call m wrap k) s.
Proof.
  intros H. apply tracks_bind. assert (Inv s) as Hs by (by eapply tracks_inv).
  revert s H Hs. induction m as [o|X e f IH]; intros s; cbn [tracks].
  - intros [Hi Hq] _. split; [done|]. destruct o; [done|split; [done|by apply Hq]..].
  - intros [Hi Hf] _. split; [done|]. intros x. apply IH; [apply Hf|]. eapply tracks_inv, Hf.
Qed.

(** ** Programs of the coordinators *)

(** What a coordinator's program leaves as it is. *)
Record frame (s0 s : process) : Prop := {
  fr_bound : pr_bound s = pr_bound s0;
  fr_listeners : pr_listeners s = pr_listeners s0;
  fr_serving : pr_serving s = pr_serving s0;
  fr_host : pr_host s = pr_host s0;
  fr_nodes : pr_nodes s0 ⊆ pr_nodes s;
  fr_asked : pr_asked s0 = true -> pr_asked s = true;
  fr_sweeping : pr_sweeping s = pr_sweeping s0
}.

#[export] Instance frame_preorder : PreOrder frame.
Proof.
  split; [by constructor|]. intros s1 s2 s3 [] []. constructor; try congruence; [by etrans|auto].
Qed.

Definition coordinator_request X (e : brokerE X) : Prop := match e with BCluster _ | BGroup _ => True | _ => False end.

Lemma observe_frame s X (e : brokerE X) x : coordinator_request X e -> frame s (observe s (Obs e x)).
Proof.
  destruct e; try done; intros _; destruct e; cbn; try done.
  - destruct cmd as [ | | | |[n|]| | | | | | | ]; try done. destruct x; try done. constructor; cbn; try done. set_solver.
  - destruct q; try done.
Qed.

Section lifted.
Context {E : Type -> Type} (lift : forall X, E X -> brokerE X).
Abbreviation lifted := (interp (fun X e => trigger (lift X e))).

Lemma tracks_lifted_bind {A B} Inv (Q : B -> process -> Prop) (p : prog E A) (f : A -> prog E B) s :
  tracks Inv (fun a s' => tracks Inv Q (lifted (f a)) s') (lifted p) s -> tracks Inv Q (lifted (p ≫= f)) s.
Proof.
  revert s. induction p as [a|X e k IH]; intros s; cbn [tracks interp mbind prog_bind]; [by intros [_ ?]|].
  intros [H1 H2]. split; [done|]. intros x. apply IH, H2.
Qed.

Lemma tracks_lifted_call {B C} Inv (Q : outcome C -> process -> Prop) (m : prog E (outcome B)) wrap (k : B -> prog E (outcome C)) s :
  tracks Inv (fun o s' => match o with Ok b => tracks Inv Q (lifted (k b)) s' | _ => forall r, failed r -> Q r s' end) (lifted m) s ->
  tracks Inv Q (lifted (call m wrap k)) s.
Proof.
  intros H. apply tracks_lifted_bind. revert s H. induction m as [o|X e f IH]; intros s; cbn [tracks interp].
  - intros [Hi Hq]. split; [done|]. destruct o; [done|split; [done|by apply Hq]..].
  - intros [Hi Hf]. split; [done|]. intros x. apply IH, Hf.
Qed.

Lemma tracks_lifted_step {X B} Inv (Q : B -> process -> Prop) (e : E X) (f : X -> prog E B) s :
  Inv s -> (forall x, tracks Inv Q (lifted (f x)) (observe s (Obs (lift X e) x))) -> tracks Inv Q (lifted (trigger e ≫= f)) s.
Proof. intros H1 H2. split; [done|]. exact H2. Qed.

(** Whatever a coordinator does, the rest of the process stays as it is. *)
Lemma lifted_frame {A} (p : prog E A) s0 s :
  (forall X (e : E X), coordinator_request X (lift X e)) -> frame s0 s -> tracks (frame s0) (fun _ => frame s0) (lifted p) s.
Proof.
  intros Hl. revert s. induction p as [a|X e k IH]; intros s Hs; cbn [tracks interp]; [done|]. split; [done|].
  intros x. apply IH. etrans; [exact Hs|]. by apply observe_frame.
Qed.

End lifted.

Ltac fields :=
  cbn [pr_bound pr_listeners pr_serving pr_host pr_nodes pr_asked pr_sweeping set_listeners add_bound set_serving set_host add_node set_groups
       observe ob_request ob_reply].

Ltac ok H := apply H; simplify_map_eq; auto.

Ltac operators_fail := intros [] Hfailed; [destruct Hfailed|intros [] Hfail; [destruct Hfail|by split_and!; auto..]..].

Lemma take_listener (l : gmultiset string) ln : ({[+ ln +]} ⊎ l) ∖ {[+ ln +]} = l.
Proof. multiset_solver. Qed.

Lemma take_both (l : gmultiset string) a b : (({[+ b +]} ⊎ ({[+ a +]} ⊎ l)) ∖ {[+ a +]}) ∖ {[+ b +]} = l.
Proof. multiset_solver. Qed.

Section run.
Variable cfg : Config.Config.
Abbreviation cconfig := (Config.clusterConfig cfg).
Abbreviation opts := (serverOptions (Config.AuthTokens cfg) true).1.

(** The address the node is registered under. *)
Definition self : NodeInfo := {| NodeID := Config.NodeID cfg; Address := ClusterCoord.regAddr cconfig |}.

(** Where the servers of the two APIs listen. *)
Definition api_addr (svc : service) : option string :=
  match svc with
  | SvcMgmt => Some (or_default (Config.ManagementAddr cfg) ":9091")
  | SvcData => Some (or_default (Config.DataAddr cfg) ":9092")
  | _ => None
  end.

(** A server of the APIs runs only when everything behind it does, behind the authentication, and
    on the address of the configuration. *)
Definition served_ok (s : process) : Prop :=
  (pr_sweeping s = true -> pr_asked s = true) /\
  forall svc addr o ln, api_addr svc = Some addr -> pr_serving s !! svc = Some (o, ln) ->
    pr_host s = true /\ self ∈ pr_nodes s /\ pr_sweeping s = true /\ o = opts /\ (addr, ln) ∈ pr_bound s.

(** No API is served and no listener is without its server. *)
Definition quiet (s : process) : Prop :=
  pr_serving s !! SvcMgmt = None /\ pr_serving s !! SvcData = None /\ pr_listeners s = ∅ /\ (pr_sweeping s = true -> pr_asked s = true).

(** No API is served, which is all that is asked. *)
Definition no_api (s : process) : Prop :=
  pr_serving s !! SvcMgmt = None /\ pr_serving s !! SvcData = None /\ (pr_sweeping s = true -> pr_asked s = true).

Lemma no_api_ok s : no_api s -> served_ok s.
Proof. intros (H1 & H2 & H3). split; [done|]. intros [] addr o ln [=]; congruence. Qed.

Lemma quiet_ok s : quiet s -> served_ok s.
Proof. intros (H1 & H2 & _ & H3). by apply no_api_ok. Qed.

Lemma quiet_frame s0 s : quiet s0 -> frame s0 s -> quiet s.
Proof. intros (H1 & H2 & H3 & H4) []. unfold quiet. rewrite fr_serving0, fr_listeners0, fr_sweeping0. naive_solver. Qed.

Lemma coordinator_quiet {E} (lift : forall X, E X -> brokerE X) {A} (p : prog E A) s0 s :
  (forall X (e : E X), coordinator_request X (lift X e)) -> quiet s0 -> frame s0 s ->
  tracks served_ok (fun _ => frame s0) (interp (fun X e => trigger (lift X e)) p) s.
Proof.
  intros Hl Hq Hs. apply (tracks_mono (frame s0) served_ok (fun _ => frame s0)); [|auto|by apply lifted_frame]. intros s' H'. by eapply quiet_ok, quiet_frame.
Qed.

(** *** Bootstrap *)

Abbreviation cluster := (interp (fun X e => trigger (BCluster e))).

Lemma retry_registers fuel deadline wrap s0 s :
  quiet s0 -> frame s0 s ->
  tracks served_ok (fun r s' => frame s0 s' /\ match r with Ok _ => self ∈ pr_nodes s' | _ => True end)
    (cluster (ClusterCoord.retry fuel (trigger (ClusterCoord.CPropose (CmdRegisterNode (Some self)))) deadline wrap)) s.
Proof.
  intros Hq. revert s. induction fuel as [|fuel IH]; intros s Hs; cbn [ClusterCoord.retry].
  { split; [by eapply quiet_ok, quiet_frame|done]. }
  assert (forall s', frame s0 s' -> served_ok s') as Hok by (intros; by eapply quiet_ok, quiet_frame).
  apply (tracks_lifted_step (fun X => BCluster)); [auto|]. intros r.
  pose proof (observe_frame s _ (BCluster (ClusterCoord.CPropose (CmdRegisterNode (Some self)))) r I) as Hf.
  assert (frame s0 (observe s (Obs (BCluster (ClusterCoord.CPropose (CmdRegisterNode (Some self)))) r))) as H1 by (by etrans).
  destruct r as [r|e|q|].
  - split; [auto|]. split; [done|]. cbn. set_solver.
  - cbn [observe ob_request ob_reply] in H1 |- *. apply (tracks_lifted_step (fun X => BCluster)); [auto|]. intros now.
    destruct (deadline <? now); [split; auto|]. apply (tracks_lifted_step (fun X => BCluster)); [auto|]. intros [e'|]; [split; auto|]. by apply IH.
  - split; auto.
  - split; auto.
Qed.

(** When [Bootstrap] succeeds, the node is registered; nothing else of the process changes. *)
Lemma bootstrap_registers fuel s0 :
  quiet s0 ->
  tracks served_ok (fun r s' => frame s0 s' /\ match r with Ok _ => self ∈ pr_nodes s' | _ => True end)
    (cluster (ClusterCoord.Bootstrap cconfig fuel)) s0.
Proof.
  intros Hq. assert (forall s', frame s0 s' -> served_ok s') as Hok by (intros; by eapply quiet_ok, quiet_frame).
  unfold ClusterCoord.Bootstrap. apply (tracks_lifted_step (fun X => BCluster)); [by apply Hok|]. intros r. cbn [observe ob_request ob_reply].
  destruct r; try (split; [by apply Hok|by split]). apply (tracks_lifted_step (fun X => BCluster)); [by apply Hok|]. intros now.
  cbn [observe ob_request ob_reply]. apply (tracks_lifted_call (fun X => BCluster)).
  eapply tracks_post; [|by apply (coordinator_quiet (fun X => BCluster) _ s0)]. intros [u|e|q|] s1 H1; [|by intros []..].
  apply (tracks_lifted_call (fun X => BCluster)). eapply tracks_post; [|by apply (retry_registers _ _ _ s0)].
  intros [u'|e|q|] s2 [H2 Hself]; [|by intros []..]. apply (tracks_lifted_call (fun X => BCluster)).
  assert (quiet s2) as Hq2 by (by eapply quiet_frame).
  eapply tracks_post; [|by apply (coordinator_quiet (fun X => BCluster) _ s2)].
  intros [u2|e|q|] s3 H3; [|(intros []; try done; intros _; (split; [by etrans|done]))..]. assert (frame s0 s3) as H03 by (by etrans).
  apply (tracks_lifted_step (fun X => BCluster)); [auto|]. intros ?. apply (tracks_lifted_step (fun X => BCluster)); [auto|]. intros ?.
  cbn [observe ob_request ob_reply]. split; [auto|]. split; [done|]. by apply (fr_nodes _ _ H3).
Qed.

(** *** The other steps *)

Abbreviation btracks := (tracks served_ok).

(** The metrics server runs. *)
Definition metered (s : process) : Prop := exists ln, pr_serving s !! SvcMetrics = Some ([], ln).

(** The servers for the operators, and the process they leave. *)
Definition observed (servers : httpServer * option httpServer) (s : process) : Prop :=
  quiet s /\ pr_host s = false /\ pr_sweeping s = false /\ metered s /\ hs_service servers.1 = SvcMetrics /\ hs_started servers.1 = true /\
  match servers.2 with
  | Some ps => hs_service ps = SvcPprof /\ hs_started ps = true
  | None => pr_serving s !! SvcPprof = None
  end.

(** Whatever [run] returns, no API is served, no host is open and every listener is that of a server
    that runs; after success nothing is served at all, after an error the metrics server still is,
    if it was started. *)
Definition ended (r : outcome unit) (s : process) : Prop :=
  pr_host s = false /\ pr_listeners s = ∅ /\ pr_serving s !! SvcMgmt = None /\ pr_serving s !! SvcData = None /\
  (r = Ok tt -> pr_serving s = ∅) /\ (failed r -> pr_bound s = [] \/ metered s).

Lemma start_tracks srv (Q : outcome httpServer -> process -> Prop) s :
  quiet s -> hs_service srv = SvcMetrics \/ hs_service srv = SvcPprof ->
  (forall r, failed r -> Q r s) ->
  (forall ln s', quiet s' -> pr_host s' = pr_host s -> pr_sweeping s' = pr_sweeping s ->
     pr_serving s' = <[hs_service srv := ([], ln)]> (pr_serving s) ->
     Q (Ok {| hs_service := hs_service srv; hs_addr := ln; hs_started := true |}) s') ->
  btracks Q (Start srv) s.
Proof.
  intros Hq Hsvc Hfail Hok. unfold Start. pose proof Hq as (H1 & H2 & H3 & H4). apply tracks_call.
  apply tracks_step; [by apply quiet_ok|]. intros [e|ln]; fields; [split; [by apply quiet_ok|done]|].
  split; [by apply no_api_ok|]. apply tracks_step; [by apply no_api_ok|]. intros []. cbn [observe ob_request ob_reply].
  set (s' := set_listeners _ _). assert (quiet s') as Hq'.
  { unfold s'. split_and!; fields; [by rewrite lookup_insert_ne by (destruct Hsvc; congruence)|by rewrite lookup_insert_ne by (destruct Hsvc; congruence)| |done]. by rewrite H3, take_listener. }
  split; [by apply quiet_ok|]. by apply (Hok ln).
Qed.

Lemma quiet_ended r s : quiet s -> pr_host s = false -> pr_bound s = [] \/ metered s -> failed r -> ended r s.
Proof. intros (H1 & H2 & H3 & H4) Hh Hm Hr. unfold ended. split_and!; try done. by intros ->. Qed.

Lemma observability_tracks :
  btracks (fun r s => match r with Ok servers => observed servers s | _ => quiet s /\ pr_host s = false /\ (pr_bound s = [] \/ metered s) end)
    (startObservability cfg) process0.
Proof.
  assert (quiet process0) as Hq0 by done. unfold startObservability.
  apply tracks_call, start_tracks; [done|by left|operators_fail|].
  intros ln s Hq Eh Es Esv. cbn [hs_service NewMetricsServer] in *. assert (metered s) as Hmt by (exists ln; rewrite Esv; apply lookup_insert_eq).
  destruct (String.eqb _ _).
  { split; [by apply quiet_ok|]. unfold observed. cbn [fst snd]. rewrite Eh, Es, Esv. by split_and!. }
  destruct (NewPprofServer _) as [ps| | |] eqn:Ep; try (split; [by apply quiet_ok|]; unfold observed; cbn [fst snd]; rewrite Eh, Es, Esv; by split_and!).
  assert (hs_service ps = SvcPprof) as Hps. { unfold NewPprofServer in Ep. destruct (String.prefix _ _); [done|]. by injection Ep as <-. }
  apply tracks_call, start_tracks; [done|by right|operators_fail|].
  intros ln' s' Hq' Eh' Es' Esv'. split; [by apply quiet_ok|]. unfold observed. cbn [fst snd]. rewrite Eh', Es', Eh, Es. split_and!; try done.
  destruct Hmt as [l Hl]. exists l. by rewrite Esv', Hps, lookup_insert_ne.
Qed.

(** Before and after [serve]. *)
Definition serves_of (servers : httpServer * option httpServer) (s : process) : Prop :=
  metered s /\ hs_service servers.1 = SvcMetrics /\ hs_started servers.1 = true /\
  match servers.2 with
  | Some ps => hs_service ps = SvcPprof /\ hs_started ps = true
  | None => pr_serving s !! SvcPprof = None
  end.
Definition ready (s : process) : Prop :=
  quiet s /\ pr_host s = true /\ self ∈ pr_nodes s /\ pr_sweeping s = true /\ pr_asked s = true.
Definition served (r : outcome unit) (s : process) : Prop := quiet s /\ (r = Ok tt -> pr_serving s = ∅) /\ (failed r -> metered s).

Lemma delete_all (m : gmap service (list interceptor * string)) : delete SvcPprof (delete SvcMetrics (delete SvcData (delete SvcMgmt m))) = ∅.
Proof. apply map_eq. intros []; rewrite ?lookup_delete_eq; try done; by repeat (rewrite lookup_delete_ne by done; rewrite ?lookup_delete_eq). Qed.

(** While both servers run. *)
Lemma running_ok s mgmtLn dataLn :
  ready s -> forall serving, serving !! SvcMgmt = Some (opts, mgmtLn) \/ serving !! SvcMgmt = None ->
  serving !! SvcData = Some (opts, dataLn) \/ serving !! SvcData = None ->
  forall bound, (or_default (Config.ManagementAddr cfg) ":9091", mgmtLn) ∈ bound -> (or_default (Config.DataAddr cfg) ":9092", dataLn) ∈ bound ->
  forall l, served_ok {| pr_bound := bound; pr_listeners := l; pr_serving := serving; pr_host := pr_host s; pr_nodes := pr_nodes s;
                         pr_asked := pr_asked s; pr_sweeping := pr_sweeping s |}.
Proof.
  intros (Hq & Hh & Hn & Hs & Hr) serving Hm Hd bound Bm Bd l. split; [done|]. fields.
  intros [] addr o ln [= <-] E; [destruct Hm as [Hm|Hm]|destruct Hd as [Hd|Hd]]; rewrite ?Hm, ?Hd in E; try done; by injection E as <- <-.
Qed.

(** A process that differs from [s] in its listeners and servers. *)
Definition with_servers (s : process) bound l serving : process :=
  {| pr_bound := bound; pr_listeners := l; pr_serving := serving; pr_host := pr_host s; pr_nodes := pr_nodes s;
     pr_asked := pr_asked s; pr_sweeping := pr_sweeping s |}.

Lemma stop_tracks srv (Q : outcome unit -> process -> Prop) s :
  hs_started srv = true -> served_ok s -> served_ok (set_serving (delete (hs_service srv)) s) ->
  (forall r, Q r (set_serving (delete (hs_service srv)) s)) -> btracks Q (Stop srv 5000) s.
Proof. intros E H1 H2 HQ. unfold Stop. rewrite E. apply tracks_trigger; [done|]. intros r. by split. Qed.

(** Both listeners are there. *)
Lemma serving_tracks servers mgmtLn dataLn s0 bound :
  ready s0 -> serves_of servers s0 ->
  (or_default (Config.ManagementAddr cfg) ":9091", mgmtLn) ∈ bound -> (or_default (Config.DataAddr cfg) ":9092", dataLn) ∈ bound ->
  btracks (fun r s' => served r s' /\ pr_host s' = true)
    (_ ← trigger (BServe SvcMgmt opts mgmtLn);
     _ ← trigger (BServe SvcData opts dataLn);
     _ ← trigger BDone;
     _ ← trigger (BGracefulStop SvcMgmt);
     _ ← trigger (BGracefulStop SvcData);
     _ ← Stop servers.1 5000;
     _ ← match servers.2 with Some ps => Stop ps 5000 | None => Ret (Ok tt) end;
     Ret (Ok tt))
    (with_servers s0 bound ({[+ dataLn +]} ⊎ ({[+ mgmtLn +]} ⊎ pr_listeners s0)) (pr_serving s0)).
Proof.
  intros Hr (_ & Hm & Hms & Hp) Bm Bd. pose proof Hr as ((Q1 & Q2 & Q3 & Q4) & Hh & _).
  assert (forall l serving, serving !! SvcMgmt = Some (opts, mgmtLn) \/ serving !! SvcMgmt = None ->
    serving !! SvcData = Some (opts, dataLn) \/ serving !! SvcData = None -> served_ok (with_servers s0 bound l serving)) as Hok.
  { intros. by eapply (running_ok s0 mgmtLn dataLn). }
  unfold with_servers in *.
  apply tracks_step; [ok Hok|]. intros []. fields. apply tracks_step; [ok Hok|]. intros []. fields.
  do 3 (apply tracks_step; [ok Hok|]; intros []; fields).
  apply tracks_bind, stop_tracks; [done|ok Hok|rewrite Hm; ok Hok|]. intros _. rewrite Hm.
  assert (forall serving, serving = ∅ -> served (Ok tt) {| pr_bound := bound;
    pr_listeners := (({[+ dataLn +]} ⊎ ({[+ mgmtLn +]} ⊎ pr_listeners s0)) ∖ {[+ mgmtLn +]}) ∖ {[+ dataLn +]}; pr_serving := serving;
    pr_host := pr_host s0; pr_nodes := pr_nodes s0; pr_asked := pr_asked s0; pr_sweeping := pr_sweeping s0 |}) as Hend.
  { intros serving ->. split; [|split; [done|by intros []]]. unfold quiet. fields. by rewrite take_both. }
  apply tracks_bind. destruct servers.2 as [ps|].
  - destruct Hp as [Hps Hst]. apply stop_tracks; [done|ok Hok|rewrite Hps; ok Hok|]. intros _. rewrite Hps. split; [ok Hok|].
    split; [|done]. apply Hend, delete_all.
  - split; [ok Hok|]. split; [ok Hok|]. split; [|done]. apply Hend. rewrite <- (delete_id _ SvcPprof); [apply delete_all|]. fields. by simplify_map_eq.
Qed.

Lemma serve_tracks servers s :
  ready s -> serves_of servers s -> btracks (fun r s' => served r s' /\ pr_host s' = true) (serve cfg servers.1 servers.2) s.
Proof.
  intros Hr (Hmt & Hm & Hms & Hp). pose proof Hr as ((Q1 & Q2 & Q3 & Q4) & Hh & _). unfold serve. apply tracks_call.
  assert (forall bound l, served_ok (with_servers s bound l (pr_serving s))) as Hok by (intros; by apply no_api_ok).
  apply tracks_step; [by apply quiet_ok|].
  intros [e|mgmtLn]; fields; [split; [by apply quiet_ok|by intros r Hfail; split; [split; [|split; [intros ->|]]|]]|].
  split; [by apply Hok|]. apply tracks_step; [by apply Hok|].
  intros [e|dataLn]; fields.
  2:{ apply (serving_tracks servers mgmtLn dataLn s (_ :: _ :: pr_bound s)); [done|done|set_solver|set_solver]. }
  - apply tracks_step; [by apply Hok|]. intros []. fields. split; [by apply Hok|]. split; [|done]. split; [|split; [done|intros _; exact Hmt]].
    split_and!; fields; try done. by rewrite take_listener.
Qed.

(** From the registration on. *)
Lemma groups_tracks servers s0 s :
  quiet s0 -> frame s0 s -> pr_host s0 = true -> self ∈ pr_nodes s -> serves_of servers s0 ->
  btracks (fun r s' => served r s' /\ pr_host s' = true)
    (_ ← interp (fun X e => trigger (BGroup e)) GroupCoord.RebuildHeartbeatTable;
     _ ← trigger (BGo (GoSessionSweep (GroupCoord.NewGroupCoordinator (Config.groupConfig cfg))));
     serve cfg servers.1 servers.2) s.
Proof.
  intros Hq Hs Hh Hn Hsv. apply tracks_bind. assert (quiet s) as Hqs by (by eapply quiet_frame).
  apply (tracks_lifted_step (fun X => BGroup)); [by apply quiet_ok|]. intros raw. fields. set (s1 := set_groups _ _ _).
  assert (quiet s1) as Hq1 by (destruct Hqs as (H1 & H2 & H3 & H4); by split_and!).
  eapply tracks_post; [|by apply (coordinator_quiet (fun X => BGroup) _ s1)]. intros ? s2 H2. assert (quiet s2) as Hq2 by (by eapply quiet_frame).
  apply tracks_step; [by apply quiet_ok|]. intros []. fields. destruct Hs, H2. cbn in *. apply serve_tracks.
  - destruct Hq2 as (Q1 & Q2 & Q3 & Q4). split_and!; fields; try done; [congruence|set_solver|auto].
  - destruct Hsv as (S0 & S1 & S2 & S3). split_and!; try done; fields; [destruct S0 as [ln Hl]; exists ln; fields; congruence|destruct servers.2; [done|congruence]].
Qed.

(** The deferred calls. *)
Lemma closing_tracks r s :
  served r s -> btracks (fun r' s' => btracks ended (_ ← trigger BHostClose; Ret r') s') (_ ← trigger BCancel; Ret r) s.
Proof.
  intros (Hq & Hr & Hm). apply tracks_step; [by apply quiet_ok|]. intros []. fields. split; [by apply quiet_ok|].
  apply tracks_step; [by apply quiet_ok|]. intros []. fields. split; [by apply quiet_ok|].
  destruct Hq as (H1 & H2 & H3 & H4). split_and!; try done. right. by apply Hm.
Qed.

Lemma metered_frame s0 s : metered s0 -> frame s0 s -> metered s.
Proof. intros [ln H] []. exists ln. congruence. Qed.

Lemma run_tracks fuel : btracks ended (run fuel cfg) process0.
Proof.
  unfold run. apply tracks_call. eapply tracks_post; [|apply observability_tracks].
  intros [servers| | |] s; cbn beta; [|by intros (Hq & Hh & Hm) r; apply quiet_ended..]. intros (Hq & Hh & Hs & Hsv). pose proof Hsv as (Hmt & _).
  apply tracks_call, tracks_trigger; [by apply quiet_ok|]. intros [u| | |]; fields; [|split; [by apply quiet_ok|by intros r; apply quiet_ended; [..|right]]..].
  set (s1 := set_host true s). assert (quiet s1) as Hq1 by exact Hq. split; [by apply quiet_ok|].
  apply tracks_bind, tracks_step; [by apply quiet_ok|]. intros []. fields.
  apply tracks_bind, tracks_step; [by apply quiet_ok|]. intros []. fields. apply tracks_call.
  eapply tracks_post; [|by apply bootstrap_registers]. intros r s2 [H2 Hr].
  destruct r as [u'| | |].
  - eapply tracks_post; [|by apply (groups_tracks servers s1)]. intros r' s3 [H3 _]. by apply closing_tracks.
  - intros r Hf. apply closing_tracks. split; [by eapply quiet_frame|]. split; [by intros ->|]. intros _. by apply (metered_frame s1).
  - intros r Hf. apply closing_tracks. split; [by eapply quiet_frame|]. split; [by intros ->|]. intros _. by apply (metered_frame s1).
  - intros r Hf. apply closing_tracks. split; [by eapply quiet_frame|]. split; [by intros ->|]. intros _. by apply (metered_frame s1).
Qed.

End run.

(** ** The life of the process *)

(** C17: The broker's life cycle. Whatever the operating system, the raft library and the cluster
    answer, at every point of [run]: a server of the management or the data API runs only while
    the raft host is open, after the metadata shard has accepted the node's registration, after
    the groups have been asked for (whatever the answer) and the session sweep started, behind the
    authentication with the configured tokens, and on the configured address. However [run] ends,
    the host is closed, no API is served, and a listener is open only if it is that of the metrics
    or the pprof server; after a clean stop none is, after an error the metrics server still
    runs, unless nothing was started at all. *)
Theorem broker_lifecycle fuel cfg t r :
  bpath (run fuel cfg) t r ->
  (forall t1 t2 svc addr opts ln, t = t1 ++ t2 -> api_addr cfg svc = Some addr -> pr_serving (after t1) !! svc = Some (opts, ln) ->
     pr_host (after t1) = true /\ self cfg ∈ pr_nodes (after t1) /\ pr_asked (after t1) = true /\ pr_sweeping (after t1) = true /\
     guards opts (Config.AuthTokens cfg) /\ (addr, ln) ∈ pr_bound (after t1)) /\
  pr_host (after t) = false /\ pr_serving (after t) !! SvcMgmt = None /\ pr_serving (after t) !! SvcData = None /\
  (forall ln, ln ∈ open_listeners (after t) -> exists svc opts, (svc = SvcMetrics \/ svc = SvcPprof) /\ pr_serving (after t) !! svc = Some (opts, ln)) /\
  (r = Ok tt -> open_listeners (after t) = ∅) /\
  (failed r -> pr_bound (after t) = [] \/ exists ln, pr_serving (after t) !! SvcMetrics = Some ([], ln)).
Proof.
  intros Ht. destruct (tracks_path _ _ _ _ _ _ (run_tracks cfg fuel) Ht) as [Hinv (E1 & E2 & E3 & E4 & E5 & E6)].
  fold (after t) in *. split_and!; try done.
  - intros t1 t2 svc addr opts ln E Ha Hs. destruct (Hinv t1 t2 E) as [Hsw Hok]. destruct (Hok svc addr opts ln Ha Hs) as (H1 & H2 & H3 & H4 & H5).
    subst opts. split_and!; auto. apply serverOptions_guards.
  - intros ln Hln. unfold open_listeners in Hln. rewrite E2, (left_id_L ∅ (⊎)), elem_of_list_to_set_disj in Hln.
    apply list_elem_of_fmap in Hln as ([svc [opts ln']] & -> & Hin%elem_of_map_to_list). exists svc, opts. split; [|done].
    destruct svc; [by left|by right|congruence..].
  - intros Hr. unfold open_listeners. by rewrite E2, (E5 Hr), map_to_list_empty.
Qed.

(** Without a data address in its configuration file a broker serves clients on port 9092 and
    registers its raft address for them: [run] applies the default of the data address to its
    listener only, [Load] reads no address to advertise, and [Bootstrap] then takes the raft
    address. Every client that looks the broker up is sent to the raft port. *)
Theorem default_data_addr_unreachable fuel raw cfg t t1 t2 r opts ln :
  Config.Load (Ok raw) = Ok cfg -> Config.rw_DataAddr raw = "" ->
  bpath (run fuel cfg) t r -> t = t1 ++ t2 -> pr_serving (after t1) !! SvcData = Some (opts, ln) ->
  (":9092"%string, ln) ∈ pr_bound (after t1) /\
  {| NodeID := Config.rw_NodeID raw; Address := Config.rw_RaftAddress raw |} ∈ pr_nodes (after t1).
Proof.
  intros El Ed Ht E Hs. destruct (tracks_path _ _ _ _ _ _ (run_tracks cfg fuel) Ht) as [Hinv _].
  destruct (Hinv t1 t2 E) as [_ Hok]. destruct (Hok SvcData _ opts ln eq_refl Hs) as (_ & Hn & _ & _ & Hb).
  unfold Config.Load in El. cbn [mbind outcome_bind] in El. destruct (Config.parsePeers _) as [peers| | |]; try done. injection El as <-.
  unfold self, ClusterCoord.regAddr in Hn. cbn in Hn, Hb. rewrite Ed in Hn, Hb. done.
Qed.

(** ** Witnesses *)

(** The path along which every request gets the reply of [h]. *)
Fixpoint trace {E A} (h : forall X, E X -> X) (p : prog E A) : list (obs E) * A :=
  match p with
  | Ret a => ([], a)
  | Vis e k => let '(t, a) := trace h (k (h _ e)) in (Obs e (h _ e) :: t, a)
  end.

Lemma trace_path {E A} (h : forall X, E X -> X) (p : prog E A) : path (fun _ _ _ => True) p (trace h p).1 (trace h p).2.
Proof.
  induction p as [a|X e k IH]; cbn [trace path]; [done|]. specialize (IH (h X e)). destruct (trace h (k (h X e))) as [t a].
  exists (h X e), t. done.
Qed.

(** A machine on which everything works, and a metadata shard that is empty. *)
Definition cluster_up X (e : ClusterCoord.clusterE X) : X :=
  match e in ClusterCoord.clusterE X return X with
  | ClusterCoord.CLookup q => Lookup NewMetadataFSM q
  | ClusterCoord.CPropose _ => Ok OKResult
  | ClusterCoord.CProposePartition _ _ => Ok tt
  | ClusterCoord.CStartMetadataShard _ _ => Ok tt
  | ClusterCoord.CStartPartitionShard _ _ _ _ _ => Ok tt
  | ClusterCoord.CStopPartitionShard _ => Ok tt
  | ClusterCoord.CGetLeaderID _ => Ok (1, 1, true)
  | ClusterCoord.CData e => Bootstrap.data_up _ e
  | ClusterCoord.CRemoveAll _ => Ok tt
  | ClusterCoord.CNow => 0
  | ClusterCoord.CWait _ => None
  | ClusterCoord.CTick _ => false
  | ClusterCoord.COrder keys => keys
  | ClusterCoord.CRunning => ∅
  | ClusterCoord.CSetRunning _ => tt
  | ClusterCoord.CGoLocked _ => tt
  | ClusterCoord.CGo _ => tt
  | ClusterCoord.CLeaders => ∅
  | ClusterCoord.CSetLeaders _ => tt
  end.

Definition group_up X (e : GroupCoord.groupE X) : X :=
  match e in GroupCoord.groupE X return X with
  | GroupCoord.ELookup q => Lookup NewMetadataFSM q
  | GroupCoord.EPropose _ => Ok OKResult
  | GroupCoord.ELeader _ => Ok (1, 1, true)
  | GroupCoord.ENow => 0
  | GroupCoord.EUuid => "id"%string
  | GroupCoord.EOrder keys => keys
  | GroupCoord.EMembers _ => ∅
  | GroupCoord.EHeartbeats => ∅
  | GroupCoord.EUpdateHeartbeats _ => tt
  end.

Definition up X (e : brokerE X) : X :=
  match e in brokerE X return X with
  | BListen addr => inr (String.append "[::]" addr)
  | BShutdown _ _ => Ok tt
  | BNewNodeHost _ => Ok tt
  | BDial _ _ => Ok tt
  | BCluster e => cluster_up _ e
  | BGroup e => group_up _ e
  | _ => tt
  end.

Definition raw0 : Config.rawConfig :=
  {| Config.rw_NodeID := 1; Config.rw_RaftAddress := "b:7000"; Config.rw_ManagementAddr := ":9091"; Config.rw_DataAddr := "";
     Config.rw_DataDir := "/data"; Config.rw_RaftRTTMs := 200; Config.rw_Peers := [("1", "b:7000")]%string; Config.rw_AuthTokens := ["secret"]%string;
     Config.rw_Storage := {| SegmentMaxBytes := 1000; IndexSampleBytes := 100; RetentionCheckIntervalMs := 1000;
                             DefaultRetentionMs := -1; DefaultRetentionBytes := -1 |};
     Config.rw_Coordinator := {| Config.cf_ReconcileIntervalMs := 1000; Config.cf_LeaderCheckIntervalMs := 1000; Config.cf_BootstrapTimeoutMs := 30000;
                                 Config.cf_EagerReconcileOnCreate := false; Config.cf_GroupSweepIntervalMs := 1000 |};
     Config.rw_MetricsAddr := ""; Config.rw_PprofAddr := "127.0.0.1:6060" |}.

Definition cfg0 : Config.Config :=
  {| Config.NodeID := 1; Config.RaftAddress := "b:7000"; Config.ManagementAddr := ":9091"; Config.DataAddr := ""; Config.AdvertiseDataAddr := "";
     Config.DataDir := "/data"; Config.RaftRTTMs := 200; Config.Peers := {[1 := "b:7000"%string]}; Config.AuthTokens := ["secret"]%string;
     Config.Storage := Config.rw_Storage raw0; Config.Coordinator := Config.rw_Coordinator raw0; Config.MetricsAddr := "";
     Config.PprofAddr := "127.0.0.1:6060" |}.

Definition life : list (obs brokerE) := (trace up (run 1 cfg0)).1.

Lemma broker_lifecycle_witness :
  (pr_host (after (take 23 life)) = true /\ self cfg0 ∈ pr_nodes (after (take 23 life)) /\ (":9092"%string, "[::]:9092"%string) ∈ pr_bound (after (take 23 life))) /\
  pr_host (after life) = false /\ open_listeners (after life) = ∅.
Proof.
  destruct (broker_lifecycle 1 cfg0 life (Ok tt) (trace_path up (run 1 cfg0))) as (Hs & Hh & _ & _ & _ & He & _). split; [|split; [exact Hh|by apply He]].
  destruct (Hs (take 23 life) (drop 23 life) SvcData ":9092" [IAuth ["secret"%string]; ILogging; IMetrics] "[::]:9092") as (H1 & H2 & _ & _ & _ & H3);
    [reflexivity|reflexivity|vm_compute; reflexivity|done].
Defined.

Lemma default_data_addr_unreachable_witness :
  (":9092"%string, "[::]:9092"%string) ∈ pr_bound (after (take 23 life)) /\ {| NodeID := 1; Address := "b:7000" |} ∈ pr_nodes (after (take 23 life)).
Proof.
  apply (default_data_addr_unreachable 1 raw0 cfg0 life (take 23 life) (drop 23 life) (Ok tt) [IAuth ["secret"%string]; ILogging; IMetrics] "[::]:9092");
    [vm_compute; reflexivity|reflexivity|exact (trace_path up (run 1 cfg0))|reflexivity|vm_compute; reflexivity].
Defined.

End Broker.
