(* ===== verification/ClientRun.v ===== *)
(** * Clients and brokers

    A world with a client object, a clock and the brokers of a cluster, each with its
    configuration and the state of its coordinators: the requests of ClientNet.v are answered by
    the data and management APIs (ApiData.v, ApiMgmt.v) behind the authentication of Auth.v, over
    the coordinators and state machines below them. Requests of group membership are left to a
    parameter, which ClientGroup.v gives. *)

From S2P Require Import Prelude Batch LogSegment BatchLog Keys Metadata MetadataInv Prog Segment Storage StorageExamples Partition GroupCoord DataCoord ClusterCoord ApiData DataRun ClusterRun ClusterServe ApiMgmt ClientCodec Config ClientNet ClientWorld Producer Consumer Auth ProducerRun.
Local Open Scope Z_scope.

Module ClientRun.
Import Keys BatchLog Seg ClusterCoord ClientNet ClientWorld ClientCodec.

(** ** Brokers *)

Record server := {
  sv_config : Config.Config;
  sv_leader : Z -> outcome (Z * Z * bool);   (** what its raft host knows of the leaders *)
  sv_node : ClusterRun.cnode;
  sv_heartbeats : GroupCoord.heartbeats      (** the table of its group coordinator *)
}.

Definition set_sv_node (sv : server) (n : ClusterRun.cnode) : server :=
  {| sv_config := sv_config sv; sv_leader := sv_leader sv; sv_node := n; sv_heartbeats := sv_heartbeats sv |}.

(** Statuses on the wire. *)
Definition data_code (c : ApiData.code) : Z :=
  match c with
  | ApiData.InvalidArgument => 3 | ApiData.FailedPrecondition => 9 | ApiData.OutOfRange => 11 | ApiData.NotFound => 5
  | ApiData.Internal => 13 | ApiData.Canceled => 1 | ApiData.DeadlineExceeded => 4
  end.
Definition data_bunny (b : ApiData.BunnyErrorCode) : Z :=
  match b with
  | ApiData.INVALID_MESSAGE_FORMAT => 13 | ApiData.BATCH_TOO_LARGE => 9 | ApiData.NOT_LEADER => 6
  | ApiData.OFFSET_OUT_OF_RANGE => 7 | ApiData.OFFSET_NOT_FOUND => 14 | ApiData.NOT_GROUP_MEMBER => 16
  | ApiData.STALE_GENERATION => 15
  end.
Definition data_error (st : ApiData.status) : error :=
  ErrStatus (data_code (ApiData.st_code st))
    (match ApiData.st_bunny st with Some b => [BunnyErrorDetail (data_bunny b)] | None => [] end ++
     match ApiData.st_leader st with Some (n, a) => [NotLeaderDetail n a] | None => [] end).

Definition mgmt_code (c : ApiMgmt.code) : Z :=
  match c with
  | ApiMgmt.AlreadyExists => 6 | ApiMgmt.NotFound => 5 | ApiMgmt.InvalidArgument => 3 | ApiMgmt.Unavailable => 14
  | ApiMgmt.Internal => 13
  end.
Definition mgmt_bunny (b : ApiMgmt.BunnyErrorCode) : Z :=
  match b with
  | ApiMgmt.TOPIC_ALREADY_EXISTS => 4 | ApiMgmt.TOPIC_NOT_FOUND => 3 | ApiMgmt.INVALID_ARGUMENT => 2
  | ApiMgmt.UNAVAILABLE => 11 | ApiMgmt.UNKNOWN => 1
  end.
Definition mgmt_error (st : ApiMgmt.status) : error :=
  ErrStatus (mgmt_code (ApiMgmt.st_code st)) [BunnyErrorDetail (mgmt_bunny (ApiMgmt.st_bunny st))].

(** A connection that is refused or lost. *)
Definition unavailable : error := ErrStatus codes_Unavailable [].

Definition data_reply {A} (r : ApiData.reply A) : error + A :=
  match r with ApiData.Reply a => inr a | ApiData.Status st => inl (data_error st) | _ => inl unavailable end.
Definition mgmt_reply {A} (r : ApiMgmt.reply A) : error + A :=
  match r with ApiMgmt.Reply a => inr a | ApiMgmt.Status st => inl (mgmt_error st) | _ => inl unavailable end.

Section world.
Context {S : Type}.

Record world := { cw_obj : S; cw_clock : Z; cw_servers : gmap Z server }.

Definition set_obj (w : world) (s : S) : world := {| cw_obj := s; cw_clock := cw_clock w; cw_servers := cw_servers w |}.
Definition set_server (w : world) (n : Z) (sv : server) : world :=
  {| cw_obj := cw_obj w; cw_clock := cw_clock w; cw_servers := <[n := sv]> (cw_servers w) |}.

(** The node behind an address of the management and of the data API. *)
Variables (mgmt_addr data_addr : gmap string Z).
Variable unmarshal : list byte -> option (Z * Z).
(** The wake-ups a long poll may have. *)
Variable fuel : nat.
Variable rest : forall X, netE S X -> world -> X * world.

(** A call to a broker, behind its authentication. *)
Definition at_server {A} (addrs : gmap string Z) (c : conn) (handler : server -> (error + A) * server) (w : world)
  : (error + A) * world :=
  match addrs !! cn_addr c with
  | None => (inl unavailable, w)
  | Some n =>
      match cw_servers w !! n with
      | None => (inl unavailable, w)
      | Some sv =>
          Auth.UnaryInterceptor (Config.AuthTokens (sv_config sv)) (Some (Auth.outgoing (cn_opts c)))
            (fun w => let '(r, sv') := handler sv in (r, set_server w n sv')) w
      end
  end.

Definition data_call {A B} (p : DataCoord.DataCoordinatorConfig -> prog DataCoord.dataE (ApiData.reply A)) (k : A -> B)
    (sv : server) : (error + B) * server :=
  let '(r, nd) := run (DataRun.handle (Config.Storage (sv_config sv)) unmarshal) (p (Config.dataConfig (sv_config sv)))
                    (ClusterRun.c_node (sv_node sv)) in
  (match data_reply r with inl e => inl e | inr a => inr (k a) end, set_sv_node sv (ClusterRun.set_node (sv_node sv) nd)).

Definition mgmt_call {A B} (p : CoordinatorConfig -> prog clusterE (ApiMgmt.reply A)) (k : A -> B) (sv : server)
  : (error + B) * server :=
  let c := Config.clusterConfig (sv_config sv) in
  let '(r, nd) := run (ClusterRun.handle (Config.Storage (sv_config sv)) unmarshal c (sv_leader sv)) (p c) (sv_node sv) in
  (match mgmt_reply r with inl e => inl e | inr a => inr (k a) end, set_sv_node sv nd).

Definition offset_query (q : OffsetQuery) : ApiData.OffsetQueryType :=
  match q with QUERY_EARLIEST => ApiData.EARLIEST | QUERY_LATEST => ApiData.LATEST end.

Definition handle X (e : netE S X) : world -> X * world :=
  match e in netE _ X return world -> X * world with
  | Mem f => fun w => ((f (cw_obj w)).1, set_obj w (f (cw_obj w)).2)
  | Now => fun w => (cw_clock w, w)
  | Sleep ns => fun w => (tt, {| cw_obj := cw_obj w; cw_clock := cw_clock w + ns; cw_servers := cw_servers w |})
  | Done => fun w => (None, w)
  | Order entries => fun w => (entries, w)
  | CloseConn _ => fun w => (None, w)
  | RDescribeTopic c name => at_server mgmt_addr c
      (mgmt_call (fun cc => @ApiMgmt.DescribeTopic _ (ApiMgmt.ClusterCoordinator cc) name) (fun d => (Some d.1, d.2)))
  | RDescribeCluster c => at_server mgmt_addr c
      (mgmt_call (fun cc => @ApiMgmt.DescribeCluster _ (ApiMgmt.ClusterCoordinator cc)) id)
  | RProduce c topic partitionID acks batch => at_server data_addr c
      (data_call (fun dc => @ApiData.Produce _ (ApiData.DataCoordinator dc fuel) topic partitionID batch (acks =? 1)) snd)
  | RFetch c topic partitionID offset maxBytes maxWaitMs => at_server data_addr c
      (data_call (fun dc => @ApiData.Fetch _ (ApiData.DataCoordinator dc fuel) topic partitionID offset maxBytes maxWaitMs None) id)
  | RGetOffsets c topic partitionID q => at_server data_addr c
      (data_call (fun dc => @ApiData.GetOffsets _ (ApiData.DataCoordinator dc fuel) topic partitionID (offset_query q) 0) id)
  | RCreateTopic c name pc rf ms bytes => at_server mgmt_addr c
      (mgmt_call (fun cc => @ApiMgmt.CreateTopic _ (ApiMgmt.ClusterCoordinator cc) name pc rf ms bytes) Some)
  | RDeleteTopic c name => at_server mgmt_addr c
      (mgmt_call (fun cc => @ApiMgmt.DeleteTopic _ (ApiMgmt.ClusterCoordinator cc) name) id)
  | RListTopics c => at_server mgmt_addr c
      (mgmt_call (fun cc => @ApiMgmt.ListTopics _ (ApiMgmt.ClusterCoordinator cc)) id)
  | RAlterPartitions c name count => at_server mgmt_addr c
      (mgmt_call (fun cc => @ApiMgmt.AlterTopicPartitions _ (ApiMgmt.ClusterCoordinator cc) name count) id)
  | RAlterRetention c name ms bytes => at_server mgmt_addr c
      (mgmt_call (fun cc => @ApiMgmt.AlterTopicRetention _ (ApiMgmt.ClusterCoordinator cc) name ms bytes) id)
  | RListPartitions c topic => at_server mgmt_addr c
      (mgmt_call (fun cc => @ApiMgmt.ListPartitions _ (ApiMgmt.ClusterCoordinator cc) ApiMgmt.DataQuery topic) id)
  | e => rest _ e
  end.

#[export] Instance cluster_world : World S world handle.
Proof.
  unshelve refine {| obj := cw_obj; clock := cw_clock; upd := set_obj |}; try done. by intros [].
Defined.

End world.
Arguments world : clear implicits.

(** ** Fetching from the leader *)

Section fetching.
Variables (cfg : StorageConfig) (unmarshal : list byte -> option (Z * Z)) (config : DataCoord.DataCoordinatorConfig).
Abbreviation dhandle := (DataRun.handle cfg unmarshal).

Lemma run_lookup_partition n topic id shard p q :
  DataRun.leads config n topic id shard p ->
  run dhandle (trigger (DataCoord.DLookupPartition shard q)) n = (Partition.Lookup p q, n).
Proof. intros Hl. rewrite run_trigger. cbn [DataRun.handle]. by rewrite (DataRun.ld_shard _ _ _ _ _ _ Hl). Qed.

(** A read that finds something is answered at once, also by a long poll. *)
Lemma run_fetch n topic id shard p fuel offset maxBytes maxWaitMs data next :
  DataRun.leads config n topic id shard p -> 0 <= maxWaitMs -> 0 < len data ->
  Partition.Lookup p (Partition.QueryRead offset maxBytes) =
    Ok (Partition.RBatches {| Partition.Batches := data; Partition.NextOffset := next |}) ->
  is_ok (Partition.Lookup p Partition.QueryGetNewDataCh) = true ->
  run dhandle (DataCoord.Fetch config (S fuel) topic id offset maxBytes maxWaitMs) n = (Ok (data, next), n).
Proof.
  intros Hl Hw Hd Hr Hch. unfold DataCoord.Fetch. rewrite run_call, (DataRun.run_leaderCheck _ _ _ _ _ _ _ _ Hl).
  destruct (Z.eqb_spec maxWaitMs 0) as [->|Hne].
  - unfold DataCoord.read_batches. by rewrite run_call, (run_lookup_partition _ _ _ _ _ _ Hl), Hr.
  - unfold DataCoord.fetchWithLongPoll. rewrite run_bind, run_trigger. cbn [DataRun.handle DataCoord.longPoll].
    rewrite run_bind, run_trigger. cbn [DataRun.handle]. rewrite (proj2 (Z.leb_gt _ _)) by lia.
    rewrite run_call, (run_lookup_partition _ _ _ _ _ _ Hl).
    assert (exists ch, Partition.Lookup p Partition.QueryGetNewDataCh = Ok (Partition.RChannel ch)) as [ch ->].
    { revert Hch. unfold Partition.Lookup. destruct (Partition.fsm_closed p); [done|]. destruct (Partition.storage p); [|done]. eauto. }
    destruct (DataRun.ld_meta _ _ _ _ _ _ Hl) as (pm & Hpm & Hld).
    rewrite run_bind, run_trigger. cbn [DataRun.handle Metadata.Lookup]. rewrite Hpm. cbn [Metadata.found].
    unfold DataCoord.check_leader. rewrite Hld, Z.eqb_refl. cbn [negb].
    unfold DataCoord.read_batches. rewrite run_call, (run_lookup_partition _ _ _ _ _ _ Hl), Hr. cbn [Partition.Batches Partition.NextOffset].
    by rewrite (proj2 (Z.ltb_lt _ _)) by done.
Qed.

Lemma fetch_inside n topic id shard p off l fuel offset maxBytes maxWaitMs :
  cfg_ok cfg -> DataRun.leads config n topic id shard p -> Partition.fsm_live cfg p off l ->
  off <= offset < end_off off l -> 0 <= maxWaitMs ->
  exists pre b rest post, l = pre ++ (b :: rest) ++ post /\ batch_base b <= offset < batch_end b /\
    run dhandle (@ApiData.Fetch _ (ApiData.DataCoordinator config (S fuel)) topic id offset maxBytes maxWaitMs None) n =
      (ApiData.Reply (concat (b :: rest), end_off off (pre ++ b :: rest)), n).
Proof.
  intros Hcfg Hl Hp Ho Hw. pose proof Hp as [(s & Hs & Hrep) Hop].
  pose proof (Storage.represents_log _ _ _ _ Hrep) as (Hc & Hlat & _ & H0 & _).
  set (mb := if maxBytes <=? 0 then ApiData.defaultFetchMaxBytes else maxBytes).
  destruct (Storage.read_inside cfg s off l offset mb Hcfg Hrep ltac:(lia)) as (pre & b & rst & post & -> & HR & Hb & _).
  exists pre, b, rst, post. split; [done|]. split; [done|].
  assert (0 < len (concat (b :: rst))) as Hd.
  { apply chain_app in Hc as [_ Hc]. destruct Hc as (Hwf & _). apply wf_len in Hwf. cbn [concat]. len_lia. }
  unfold ApiData.Fetch. rewrite (proj2 (Z.ltb_ge _ _)) by lia. fold mb. unfold ApiData.rpc. rewrite run_bind.
  cbn [ApiData.dc_Fetch ApiData.DataCoordinator]. erewrite (run_fetch n topic id shard p fuel offset mb maxWaitMs); [|exact Hl|exact Hw|exact Hd| |].
  - cbn [run fst]. by rewrite (proj2 (Z.eqb_neq _ _)) by lia.
  - unfold Partition.Lookup. by rewrite Hop, Hs, HR.
  - unfold Partition.Lookup. by rewrite Hop, Hs.
Qed.

(** A fetch below the start of the log fails with a plain internal error. *)
Lemma fetch_below n topic id shard p off l fuel offset maxBytes maxWaitMs :
  DataRun.leads config n topic id shard p -> Partition.fsm_live cfg p off l -> 0 <= offset < off -> 0 <= maxWaitMs ->
  run dhandle (@ApiData.Fetch _ (ApiData.DataCoordinator config (S fuel)) topic id offset maxBytes maxWaitMs None) n =
    (ApiData.Status (ApiData.plain ApiData.Internal), n).
Proof.
  intros Hl [(s & Hs & Hrep) Hop] Ho Hw. set (mb := if maxBytes <=? 0 then ApiData.defaultFetchMaxBytes else maxBytes).
  assert (Partition.Lookup p (Partition.QueryRead offset mb) = Err Storage.ErrOffsetOutOfRange) as Hr.
  { unfold Partition.Lookup. rewrite Hop, Hs, (proj1 (Storage.read_outside cfg s off l offset mb Hrep)) by lia. done. }
  unfold ApiData.Fetch. rewrite (proj2 (Z.ltb_ge _ _)) by lia. fold mb. unfold ApiData.rpc. rewrite run_bind.
  cbn [ApiData.dc_Fetch ApiData.DataCoordinator]. unfold DataCoord.Fetch. rewrite run_call, (DataRun.run_leaderCheck _ _ _ _ _ _ _ _ Hl).
  destruct (Z.eqb_spec maxWaitMs 0) as [->|Hne].
  - unfold DataCoord.read_batches. by rewrite run_call, (run_lookup_partition _ _ _ _ _ _ Hl), Hr.
  - unfold DataCoord.fetchWithLongPoll. rewrite run_bind, run_trigger. cbn [DataRun.handle DataCoord.longPoll].
    rewrite run_bind, run_trigger. cbn [DataRun.handle]. rewrite (proj2 (Z.leb_gt _ _)) by lia.
    rewrite run_call, (run_lookup_partition _ _ _ _ _ _ Hl). unfold Partition.Lookup at 1. rewrite Hop, Hs.
    destruct (DataRun.ld_meta _ _ _ _ _ _ Hl) as (pm & Hpm & Hld).
    rewrite run_bind, run_trigger. cbn [DataRun.handle Metadata.Lookup]. rewrite Hpm. cbn [Metadata.found].
    unfold DataCoord.check_leader. rewrite Hld, Z.eqb_refl. cbn [negb].
    unfold DataCoord.read_batches. by rewrite run_call, (run_lookup_partition _ _ _ _ _ _ Hl), Hr.
Qed.

End fetching.

(** ** Finding the leader *)

(** The broker with id [m] describes the leader of a partition as node [n] at address [a]. *)
Record describes (sv : server) (topic : string) (id n : Z) (a : string) : Prop := {
  ds_meta : MetadataInv.meta_ok (DataRun.n_meta (ClusterRun.c_node (sv_node sv)));
  ds_nodes : DataRun.nodes_ok (DataRun.n_meta (ClusterRun.c_node (sv_node sv)));
  ds_leader : exists pm, Metadata.Partitions (DataRun.n_meta (ClusterRun.c_node (sv_node sv))) !! PKey topic id = Some pm /\
    Metadata.LeaderNodeID pm = n;
  ds_address : exists ni, Metadata.Nodes (DataRun.n_meta (ClusterRun.c_node (sv_node sv))) !! n = Some ni /\
    Metadata.Address ni = a
}.

Abbreviation sv_meta sv := (DataRun.n_meta (ClusterRun.c_node (sv_node sv))).

Lemma nodeAddrs_lookup s n ni :
  DataRun.nodes_ok s -> Metadata.Nodes s !! n = Some ni ->
  nodeAddrs (map (fun d => {| nd_NodeID := nd_NodeID d; nd_Address := nd_Address d |})
    (map (fun i => {| nd_NodeID := Metadata.NodeID i; nd_Address := Metadata.Address i |}) (Metadata.listNodes s))) !! n =
  Some (Metadata.Address ni).
Proof.
  intros Hok Hn. rewrite map_map. cbn [nd_NodeID nd_Address]. unfold nodeAddrs.
  assert (forall x, x ∈ Metadata.listNodes s <-> exists k, Metadata.Nodes s !! k = Some x) as Hl.
  { intros x. unfold Metadata.listNodes. rewrite merge_sort_Permutation, list_elem_of_fmap. split.
    - intros ((k & y) & -> & Hin%elem_of_map_to_list). eauto.
    - intros (k & Hk). exists (k, x). split; [done|]. by apply elem_of_map_to_list. }
  change (map ?f ?l) with (f <$> l). apply fold_insert_lookup.
  - intros x (i & -> & (k & Hk)%Hl)%list_elem_of_fmap Hid. cbn in *. rewrite (Hok _ _ Hk) in Hid. congruence.
  - right. eexists. split; [apply list_elem_of_fmap; exists ni; split; [reflexivity|apply Hl; eauto]|]. cbn. by apply Hok.
Qed.

(** The leaders a client makes of the two descriptions. *)
Lemma leadersOf_lookup (addrs : gmap Z string) parts id n a :
  (forall x, x ∈ parts -> pi_PartitionID x = id -> pi_LeaderNodeID x = n) -> (exists x, x ∈ parts /\ pi_PartitionID x = id) ->
  addrs !! n = Some a -> leadersOf addrs parts !! id = Some a.
Proof.
  intros Hp Hex Ha. unfold leadersOf.
  assert (forall m : gmap Z string, m !! id = Some a \/ (exists x, x ∈ parts /\ pi_PartitionID x = id) ->
    fold_left (fun m p => match addrs !! pi_LeaderNodeID p with Some a => <[pi_PartitionID p := a]> m | None => m end) parts m !! id = Some a) as H;
    [|apply H; by right].
  clear Hex. induction parts as [|x parts IH]; intros m Hk; cbn [fold_left].
  - destruct Hk as [Hk|(x & Hx & _)]; [done|by apply not_elem_of_nil in Hx].
  - apply IH; [intros y Hy; apply Hp; by right|]. destruct (decide (pi_PartitionID x = id)) as [E|E].
    + left. rewrite (Hp x) by (done || by left). rewrite Ha, E. apply lookup_insert_eq.
    + destruct Hk as [Hk|(y & [-> |Hy]%elem_of_cons & Hy')]; [|done|right; eauto].
      left. destruct (addrs !! pi_LeaderNodeID x); [by rewrite lookup_insert_ne|done].
Qed.

Section clients.
Context {S : Type}.
Variables (mgmt_addr data_addr : gmap string Z).
Variable unmarshal : list byte -> option (Z * Z).
Variable fuel : nat.
Variable rest : forall X, netE S X -> world S -> X * world S.
Abbreviation chandle := (handle mgmt_addr data_addr unmarshal (Datatypes.S fuel) rest).

(** A call with these options to this address arrives at broker [n]. *)
Record reaches (servers : gmap Z server) (addrs : gmap string Z) (addr : string) (opts : list DialOption) (n : Z) (sv : server) : Prop := {
  rc_addr : addrs !! addr = Some n;
  rc_server : servers !! n = Some sv;
  rc_auth : Auth.validateToken (Some (Auth.outgoing opts)) (Config.AuthTokens (sv_config sv)) = None
}.

Lemma at_server_reaches {A} addrs c n sv (handler : server -> (error + A) * server) (w : world S) :
  reaches (cw_servers w) addrs (cn_addr c) (cn_opts c) n sv ->
  at_server addrs c handler w = ((handler sv).1, set_server w n (handler sv).2).
Proof.
  intros [H1 H2 H3]. unfold at_server, Auth.UnaryInterceptor. rewrite H1, H2, H3. by destruct (handler sv).
Qed.

Lemma set_server_same (w : world S) n sv : cw_servers w !! n = Some sv -> set_server w n sv = w.
Proof. intros H. destruct w. unfold set_server. cbn in *. by rewrite insert_id. Qed.

Lemma set_sv_same sv : set_sv_node sv (sv_node sv) = sv.
Proof. by destruct sv. Qed.

(** What the bootstrap server answers: the leader's address, and the number of partitions. *)
Lemma run_describe servers addr opts m sv topic t id n a :
  reaches servers mgmt_addr addr opts m sv -> describes sv topic id n a ->
  Metadata.Topics (sv_meta sv) !! topic = Some t ->
  exists info parts nodes, (forall c (w' : world S), cn_addr c = addr -> cn_opts c = opts -> cw_servers w' = servers ->
      chandle _ (RDescribeTopic c topic) w' = (inr (Some info, parts), w') /\
      chandle _ (RDescribeCluster c) w' = (inr nodes, w')) /\
    leadersOf (nodeAddrs nodes) parts !! id = Some a /\
    partitionCountOf (Some info) parts = Metadata.PartitionCount t.
Proof.
  intros Hr [Hok Hn (pm & Hpm & Hl) (ni & Hni & <-)] Ht. set (s := sv_meta sv) in *.
  pose proof (MetadataInv.mo_topics _ Hok _ _ Ht) as [_ Hc].
  destruct (ClusterServe.run_DescribeTopic (Config.Storage (sv_config sv)) unmarshal (Config.clusterConfig (sv_config sv))
    (sv_leader sv) (sv_node sv) topic t Hok Ht) as (ps & E & Hlen & Hps).
  exists (ApiMgmt.protoTopicInfo (topicInfoFromMeta t)), (map ApiMgmt.protoPartitionInfo ps),
    (map (fun d => {| nd_NodeID := nd_NodeID d; nd_Address := nd_Address d |})
      (map (fun i => {| nd_NodeID := Metadata.NodeID i; nd_Address := Metadata.Address i |}) (Metadata.listNodes s))).
  split; [|split].
  - intros c w' Ec Eo Hw'. assert (reaches (cw_servers w') mgmt_addr (cn_addr c) (cn_opts c) m sv) as Hr' by (by rewrite Ec, Eo, Hw').
    pose proof (rc_server _ _ _ _ _ _ Hr') as Hsv. split; cbn [handle].
    + erewrite at_server_reaches by exact Hr'. unfold mgmt_call, ApiMgmt.DescribeTopic. rewrite ApiMgmt.run_rpc.
      cbn [ApiMgmt.cc_DescribeTopic ApiMgmt.ClusterCoordinator]. rewrite E. cbn [run fst snd mgmt_reply].
      by rewrite set_sv_same, set_server_same.
    + erewrite at_server_reaches by exact Hr'. unfold mgmt_call, ApiMgmt.DescribeCluster. rewrite ApiMgmt.run_rpc.
      cbn [ApiMgmt.cc_DescribeCluster ApiMgmt.ClusterCoordinator]. unfold DescribeCluster. rewrite run_call, run_trigger.
      cbn [ClusterRun.handle Metadata.Lookup run fst snd mgmt_reply]. by rewrite set_sv_same, set_server_same.
  - assert (forall x, x ∈ map ApiMgmt.protoPartitionInfo ps -> exists i p, 0 <= i < Metadata.PartitionCount t /\
      Metadata.Partitions s !! PKey topic i = Some p /\ pi_PartitionID x = i /\ pi_LeaderNodeID x = Metadata.LeaderNodeID p) as Hall.
    { change (map ?f ?l) with (f <$> l). intros x (y & -> & Hy)%list_elem_of_fmap. apply list_elem_of_lookup_1 in Hy as [i Hi].
      pose proof (lookup_lt_Some _ _ _ Hi) as Hlt. unfold len in Hlen. specialize (Hps (Z.of_nat i) ltac:(lia)). rewrite Nat2Z.id, Hi in Hps.
      destruct (Metadata.Partitions (ClusterRun.meta (sv_node sv)) !! PKey topic (Z.of_nat i)) as [p|] eqn:Ep; [|done]. injection Hps as ->.
      destruct (MetadataInv.mo_fields _ Hok _ _ Ep) as (_ & Hid & _). cbn in Hid. exists (Z.of_nat i), p. split_and!; [lia|lia|done|done|done]. }
    apply leadersOf_lookup with n.
    + intros x (i & p & _ & Hp & Hi & Hld)%Hall Hid. rewrite Hld. rewrite <- Hi, Hid in Hp. congruence.
    + assert (0 <= id < Metadata.PartitionCount t) as Hid.
      { destruct (proj1 (MetadataInv.mo_parts _ Hok topic id)) as (t' & Ht' & Hi); [by eexists|]. congruence. }
      pose proof (Hps id Hid) as Hx. change (ClusterRun.meta (sv_node sv)) with s in Hx. rewrite Hpm in Hx.
      exists (ApiMgmt.protoPartitionInfo (partitionInfo pm)). split.
      * change (map ?f ?l) with (f <$> l). apply list_elem_of_fmap. eexists. split; [reflexivity|]. by eapply list_elem_of_lookup_2.
      * cbn. apply (MetadataInv.mo_fields _ Hok _ _ Hpm).
    + by apply nodeAddrs_lookup.
  - unfold partitionCountOf. cbn. by rewrite (proj2 (Z.ltb_lt _ _)) by lia.
Qed.

End clients.

End ClientRun.
