(* ===== verification/ClientServe.v ===== *)
(** * From producer to consumer

    The clients of ClientRun.v on a cluster whose brokers answer: what a producer sends is what a
    consumer polls, record by record and in order, through the client libraries, the API servers,
    the coordinators, the state machines and the storage. *)

From S2P Require Import Prelude Batch LogSegment BatchLog Keys Metadata MetadataInv Prog Segment Storage StorageExamples Partition GroupCoord DataCoord ClusterCoord ApiData DataRun ClusterRun ClusterServe ApiMgmt ClientCodec Config ClientNet ClientWorld Producer Consumer ConsumerRun Auth ProducerRun ClientRun.
Local Open Scope Z_scope.

Module ClientServe.
Import Keys BatchLog Seg ClusterCoord ClientNet ClientWorld ClientCodec ClientRun.

(** The server [boot] describes [topic] and names the broker at [a] as the leader of partition
    [id], which leads it and holds the log [l] from offset [off] on; calls with the options
    [opts] pass the authentication of both. *)
Record serving (mgmt_addr data_addr : gmap string Z) (servers : gmap Z server) (boot : string) (opts : list DialOption)
    (topic : string) (t : Metadata.TopicMeta) (id n : Z) (a : string) (off : Z) (l : list (list byte)) : Prop := {
  se_boot : exists m sv, reaches servers mgmt_addr boot opts m sv /\ describes sv topic id n a /\
    Metadata.Topics (sv_meta sv) !! topic = Some t;
  se_addr : a <> "";
  se_leader : exists sv shard p, reaches servers data_addr a opts n sv /\
    DataRun.leads (Config.dataConfig (sv_config sv)) (ClusterRun.c_node (sv_node sv)) topic id shard p /\
    cfg_ok (Config.Storage (sv_config sv)) /\ Partition.fsm_live (Config.Storage (sv_config sv)) p off l
}.

Section clients.
Context {S : Type} `{ObjectLaws S}.
Variables (mgmt_addr data_addr : gmap string Z).
Variable unmarshal : list byte -> option (Z * Z).
Variable fuel : nat.
Variable rest : forall X, netE S X -> world S -> X * world S.
Variable NewClient : string -> option error.
Abbreviation chandle := (handle mgmt_addr data_addr unmarshal (Datatypes.S fuel) rest).
Abbreviation cserving servers boot opts := (serving mgmt_addr data_addr servers boot opts).

(** The client object can find the leader: it has it in its cache or has to ask. *)
Record ready (s : S) (now : Z) (topic : string) (id : Z) (a : string) : Prop := {
  rd_cache : knows (meta s) now topic id a \/ mc_cache (meta s) !! topic = None;
  rd_pool : pool_ok (pool s);
  rd_ttl : 0 <= mc_ttl (meta s)
}.

Lemma run_leader boot addrs topic t id n a off l w :
  cserving (cw_servers w) boot (cp_opts (pool (cw_obj w))) topic t id n a off l ->
  ready (cw_obj w) (cw_clock w) topic id a -> NewClient boot = None ->
  exists s', run chandle (leaderFor NewClient (boot :: addrs) topic id) w = (Ok a, set_obj w s') /\ touched (cw_obj w) s' /\
    ready s' (cw_clock w) topic id a /\ cp_opts (pool s') = cp_opts (pool (cw_obj w)) /\ knows (meta s') (cw_clock w) topic id a /\
    other_topics topic (meta (cw_obj w)) (meta s').
Proof.
  intros [(m & sv & Hr & Hd & Ht) Ha _] [Hc Hp Httl] Hn.
  destruct (run_describe mgmt_addr data_addr unmarshal fuel rest (cw_servers w) boot _ m sv topic t id n a Hr Hd Ht)
    as (info & parts & nodes & Hdesc & Hl & _).
  destruct (ClientWorld.run_leaderFor (h := chandle) NewClient boot addrs topic id a (Some info) parts nodes w)
    as (s' & Er & Ht' & Hk & Hp' & Ho & Htt & Hot); try done.
  - intros c w' Ec Eo (s' & ->). by apply Hdesc.
  - exists s'. split; [exact Er|]. split; [exact Ht'|]. split; [|done]. constructor; [by left|done|]. cbn in Htt. lia.
Qed.

(** A call on the leader. *)
Lemma run_at_leader {A B} (p : DataCoord.DataCoordinatorConfig -> prog DataCoord.dataE (ApiData.reply A)) (k : A -> B) c n sv r nd w :
  reaches (cw_servers w) data_addr (cn_addr c) (cn_opts c) n sv ->
  run (DataRun.handle (Config.Storage (sv_config sv)) unmarshal) (p (Config.dataConfig (sv_config sv)))
    (ClusterRun.c_node (sv_node sv)) = (ApiData.Reply r, nd) ->
  at_server (S := S) data_addr c (data_call unmarshal p k) w =
    (inr (k r), set_server w n (set_sv_node sv (ClusterRun.set_node (sv_node sv) nd))).
Proof.
  intros Hr E. rewrite (at_server_reaches _ _ _ _ _ _ Hr). unfold data_call. by rewrite E.
Qed.

(** Fetching from a partition, as a consumer's connection does. *)
Lemma run_RFetch servers boot opts topic t id n a off l c offset maxBytes maxWaitMs w :
  cserving servers boot opts topic t id n a off l -> cn_addr c = a -> cn_opts c = opts -> cw_servers w = servers ->
  off <= offset < end_off off l -> 0 <= maxWaitMs ->
  exists pre b rst post, l = pre ++ (b :: rst) ++ post /\ batch_base b <= offset < batch_end b /\
    chandle _ (RFetch c topic id offset maxBytes maxWaitMs) w = (inr (concat (b :: rst), end_off off (pre ++ b :: rst)), w).
Proof.
  intros [_ _ (sv & shard & p & Hr & Hl & Hcfg & Hp)] <- <- <- Ho Hw.
  destruct (fetch_inside (Config.Storage (sv_config sv)) unmarshal (Config.dataConfig (sv_config sv))
    (ClusterRun.c_node (sv_node sv)) topic id shard p off l fuel offset maxBytes maxWaitMs Hcfg Hl Hp Ho Hw)
    as (pre & b & rst & post & El & Hb & E).
  exists pre, b, rst, post. split; [exact El|]. split; [exact Hb|]. cbn [handle].
  rewrite (run_at_leader _ _ _ _ _ _ _ _ Hr E). f_equal. 
  assert (set_sv_node sv (ClusterRun.set_node (sv_node sv) (ClusterRun.c_node (sv_node sv))) = sv) as ->
    by (destruct sv as [? ? []]; done).
  apply set_server_same. exact (rc_server _ _ _ _ _ _ Hr).
Qed.

(** Replacing a broker by one with the same configuration and metadata. *)
Lemma reaches_replaced servers addrs addr opts m n sv sv0 sv' :
  reaches servers addrs addr opts m sv -> servers !! n = Some sv0 -> sv_config sv' = sv_config sv0 -> sv_meta sv' = sv_meta sv0 ->
  exists sv2, reaches (<[n := sv']> servers) addrs addr opts m sv2 /\ sv_config sv2 = sv_config sv /\ sv_meta sv2 = sv_meta sv.
Proof.
  intros [Ha Hs Ht] Hn Hc Hm. destruct (decide (m = n)) as [->|Hne].
  - rewrite Hn in Hs. injection Hs as ->. exists sv'. split; [|done].
    constructor; [done|apply lookup_insert_eq|by rewrite Hc].
  - exists sv. split; [|done]. constructor; [done|by rewrite lookup_insert_ne|done].
Qed.

Lemma describes_meta sv sv' topic id n a : sv_meta sv' = sv_meta sv -> describes sv topic id n a -> describes sv' topic id n a.
Proof. intros E []. constructor; by rewrite E. Qed.

(** Producing to a partition with full acknowledgement. *)
Lemma run_RProduce boot opts topic t id n a off l c records enc w :
  cserving (cw_servers w) boot opts topic t id n a off l -> cn_addr c = a -> cn_opts c = opts ->
  (forall sv, cw_servers w !! n = Some sv -> in_u64 (DataRun.n_index (ClusterRun.c_node (sv_node sv)))) ->
  Batch.EncodeBatch records = Ok enc -> len enc <= ApiData.maxBatchBytes -> end_off off l + len records < 2 ^ 63 ->
  exists sv', chandle _ (RProduce c topic id 0 enc) w = (inr (end_off off l), set_server w n sv') /\
    cserving (<[n := sv']> (cw_servers w)) boot opts topic t id n a off (l ++ [Batch.withBaseOffset enc (end_off off l)]).
Proof.
  intros [(m & svb & Hrb & Hd & Ht) Ha (sv & shard & p & Hr & Hl & Hcfg & Hp)] <- <- Hi He Hlen Hend.
  destruct (DataRun.validate_encoded _ _ He Hlen) as [Hv Hwf].
  assert (len enc <= BatchLog.maxBatchBytes) as Hlen' by (unfold ApiData.maxBatchBytes, BatchLog.maxBatchBytes in *; lia).
  pose proof (StorageExamples.encoded_count _ _ He Hlen') as Hcnt. pose proof (rc_server _ _ _ _ _ _ Hr) as Hsv.
  destruct (DataRun.run_Produce (Config.Storage (sv_config sv)) unmarshal (Config.dataConfig (sv_config sv))
    (ClusterRun.c_node (sv_node sv)) topic id shard p off l enc Hcfg Hl Hp Hwf ltac:(lia) (Hi _ Hsv)) as (p' & HP & Hok').
  set (nd := DataRun.set_shard (ClusterRun.c_node (sv_node sv)) shard p') in *.
  exists (set_sv_node sv (ClusterRun.set_node (sv_node sv) nd)). split.
  - cbn [handle]. erewrite (run_at_leader _ _ _ _ _ (id, end_off off l) nd); [done|exact Hr|].
    unfold ApiData.Produce. rewrite Hv. unfold ApiData.rpc. rewrite run_bind.
    cbn [ApiData.dc_Produce ApiData.DataCoordinator Z.eqb]. by rewrite HP.
  - constructor; [|done|].
    + destruct (reaches_replaced _ _ _ _ m n svb sv (set_sv_node sv (ClusterRun.set_node (sv_node sv) nd)) Hrb Hsv) as (sv2 & Hr2 & _ & Em); [done|done|].
      exists m, sv2. split; [exact Hr2|]. split; [by eapply describes_meta|]. by rewrite Em.
    + eexists _, shard, p'. split; [|split; [|split]].
      * constructor; [apply (rc_addr _ _ _ _ _ _ Hr)|apply lookup_insert_eq|apply (rc_auth _ _ _ _ _ _ Hr)].
      * cbn. exact (DataRun.leads_set _ _ _ _ _ _ p' Hl).
      * done.
      * cbn. by eapply Partition.fsm_ok_live.
Qed.

End clients.

(** ** Sending *)

Section producer.
Context `{Float64}.
Variables (mgmt_addr data_addr : gmap string Z).
Variable unmarshal : list byte -> option (Z * Z).
Variable fuel : nat.
Variable rest : forall X, netE Producer.Producer X -> world Producer.Producer -> X * world Producer.Producer.
Variable NewClient : string -> option error.
Variable range : nat -> headers -> list (list byte * list byte).
Variable config : Config.
Abbreviation phandle := (handle mgmt_addr data_addr unmarshal (Datatypes.S fuel) rest).
Abbreviation pserving servers boot opts := (serving mgmt_addr data_addr servers boot opts).

Lemma run_sendToPartition boot addrs topic t id n a off l records enc w :
  BootstrapServers config = boot :: addrs ->
  pserving (cw_servers w) boot (cp_opts (pool (cw_obj w))) topic t id n a off l ->
  ready (cw_obj w) (cw_clock w) topic id a -> NewClient boot = None -> NewClient a = None ->
  (forall sv, cw_servers w !! n = Some sv -> in_u64 (DataRun.n_index (ClusterRun.c_node (sv_node sv)))) ->
  Batch.EncodeBatch records = Ok enc -> len enc <= ApiData.maxBatchBytes -> end_off off l + len records < 2 ^ 63 ->
  exists w', run phandle (Producer.sendToPartition NewClient config topic id enc 0) w = (Ok (end_off off l), w') /\
    pserving (cw_servers w') boot (cp_opts (pool (cw_obj w))) topic t id n a off
      (l ++ [Batch.withBaseOffset enc (end_off off l)]) /\
    cw_clock w' = cw_clock w.
Proof.
  intros Hb Hs Hrd Hn1 Hn2 Hi He Hlen Hend. unfold Producer.sendToPartition, Producer.attempts.
  cbn [Producer.send_loop]. unfold Producer.leaderFor. rewrite Hb, run_bind.
  destruct (run_leader mgmt_addr data_addr unmarshal fuel rest NewClient boot addrs topic t id n a off l w Hs Hrd Hn1)
    as (s1 & Er & _ & [_ Hp1 _] & Ho1 & _). rewrite Er. rewrite run_bind.
  destruct (run_pool_Get (h := phandle) NewClient a (set_obj w s1)) as (c & s2 & Eg & Ha & Ho & _); [done|done|].
  rewrite Eg. rewrite run_bind, run_trigger. cbn in Ho.
  destruct (run_RProduce mgmt_addr data_addr unmarshal fuel rest boot (cp_opts (pool (cw_obj w))) topic t id n a off l c records enc
    (upd (World := cluster_world mgmt_addr data_addr unmarshal (Datatypes.S fuel) rest) (set_obj w s1) s2)) as (sv' & EP & Hs'); try done.
  { etrans; [exact Ho|exact Ho1]. }
  rewrite EP. eexists. split; [reflexivity|]. cbn. split; [exact Hs'|done].
Qed.

(** The number of partitions in the cache, if there is an entry. *)
Definition counted (s : Producer.Producer) (topic : string) (count : Z) : Prop :=
  forall ref m, mc_cache (meta s) !! topic = Some ref -> mc_objects (meta s) !! ref = Some m -> PartitionCount m = count.

Definition set_counter (s : Producer.Producer) (n : Z) : Producer.Producer :=
  {| Producer.pr_pool := Producer.pr_pool s; Producer.pr_meta := Producer.pr_meta s; Producer.roundRobinCounter := n |}.

Lemma run_Send_prefix boot addrs topic t id n a off l w :
  BootstrapServers config = boot :: addrs ->
  pserving (cw_servers w) boot (cp_opts (pool (cw_obj w))) topic t id n a off l ->
  ready (cw_obj w) (cw_clock w) topic id a -> counted (cw_obj w) topic (Metadata.PartitionCount t) -> NewClient boot = None ->
  exists s' ref m, run phandle (Producer.metaFor NewClient config topic) w = (Ok ref, set_obj w s') /\ touched (cw_obj w) s' /\
    mc_objects (meta s') !! ref = Some m /\ PartitionCount m = Metadata.PartitionCount t /\
    ready s' (cw_clock w) topic id a /\ cp_opts (pool s') = cp_opts (pool (cw_obj w)).
Proof.
  intros Hb [(m & sv & Hr & Hd & Ht) Ha _] [[Hk|Hc] Hp Httl] Hcnt Hn; unfold Producer.metaFor; rewrite Hb.
  - destruct (run_metaFor_known (h := phandle) NewClient (boot :: addrs) topic id a w) as (ref & mm & Hr1 & Hm1 & E); [done|].
    exists (cw_obj w), ref, mm. rewrite E. split; [by destruct w|]. split; [reflexivity|]. split; [done|]. split; [by eapply Hcnt|].
    split; [|done]. constructor; [by left|done|done].
  - destruct (run_describe mgmt_addr data_addr unmarshal fuel rest (cw_servers w) boot _ m sv topic t id n a Hr Hd Ht)
      as (info & parts & nodes & Hdesc & Hl & Hpc).
    destruct (run_refresh (h := phandle) NewClient boot addrs topic (Some info) parts nodes w) as (s' & E & Hrf & Ht'); try done.
    { intros c w' Ec Eo (s' & ->). by apply Hdesc. }
    rewrite (run_metaFor_absent (h := phandle) NewClient (boot :: addrs) topic w) by done. rewrite E.
    pose proof Hrf as (Ho & _ & Htt & Hp' & Hopt). change (mc_ttl (meta s') = mc_ttl (meta (cw_obj w))) in Htt.
    exists s', (length (mc_objects (meta (cw_obj w)))). eexists. split; [reflexivity|]. split; [exact Ht'|].
    split; [rewrite Ho; by apply list_lookup_middle|]. split; [exact Hpc|]. split; [|done].
    constructor; [left|done|lia]. eapply refreshed_knows; [exact Hrf|exact Hl|]. change (cw_clock w - cw_clock w <= mc_ttl (meta s')). lia.
Qed.

(** A send with a partition chosen by its key or its turn, on a cluster that serves it. *)
Lemma run_Send boot addrs topic t id n a off l key value hs counter enc w :
  let record := {| br_Key := key; br_Value := value; br_Headers := hs; br_TimestampMs := cw_clock w / 10 ^ 6 |} in
  BootstrapServers config = boot :: addrs ->
  Producer.selectPartition (default [] key) (Metadata.PartitionCount t) (Producer.roundRobinCounter (cw_obj w)) = (Ok id, counter) ->
  pserving (cw_servers w) boot (cp_opts (pool (cw_obj w))) topic t id n a off l ->
  ready (cw_obj w) (cw_clock w) topic id a -> counted (cw_obj w) topic (Metadata.PartitionCount t) ->
  NewClient boot = None -> NewClient a = None ->
  (forall sv, cw_servers w !! n = Some sv -> in_u64 (DataRun.n_index (ClusterRun.c_node (sv_node sv)))) ->
  Encode range [record] = Ok enc -> len enc <= ApiData.maxBatchBytes -> end_off off l + 1 < 2 ^ 63 ->
  exists w', run phandle (Producer.Send NewClient range config topic key value hs 0) w = (Ok (end_off off l), w') /\
    pserving (cw_servers w') boot (cp_opts (pool (cw_obj w))) topic t id n a off
      (l ++ [Batch.withBaseOffset enc (end_off off l)]) /\
    cw_clock w' = cw_clock w.
Proof.
  intros record Hb Hsel Hs Hrd Hcnt Hn1 Hn2 Hi He Hlen Hend. unfold Producer.Send. rewrite run_call.
  destruct (run_Send_prefix boot addrs topic t id n a off l w) as (s1 & ref & m & E & (p' & m' & Es1) & Hm & Hpc & Hrd1 & Ho1); try done.
  rewrite E. rewrite run_bind, run_trigger. cbn [handle cw_obj set_obj fst snd]. rewrite Hm. cbn [fmap option_fmap option_map].
  change (default 0 (Some (PartitionCount m))) with (PartitionCount m). rewrite Hpc.
  assert (Producer.roundRobinCounter s1 = Producer.roundRobinCounter (cw_obj w)) as Ec by (by rewrite Es1).
  rewrite run_bind, run_trigger. cbn [handle cw_obj set_obj]. rewrite Ec, Hsel. cbn [fst snd].
  rewrite run_bind, run_trigger. cbn [handle]. fold record. cbn [cw_clock set_obj]. fold record. rewrite He.
  destruct (run_sendToPartition boot addrs topic t id n a off l (imap (storageRecord range) [record]) enc
    (set_obj (set_obj w s1) (set_counter s1 counter))) as (w' & Ew & Hs' & Hc'); try done.
  - cbn. cbn in Ho1. by rewrite Ho1.
  - destruct Hrd1 as [H1 H2 H3]. by constructor.
  - exists w'. split; [exact Ew|]. cbn in Hs', Ho1. rewrite Ho1 in Hs'. done.
Qed.

End producer.

(** ** Polling *)

Section consumer.
Context `{Float64}.
Variables (mgmt_addr data_addr : gmap string Z).
Variable unmarshal : list byte -> option (Z * Z).
Variable fuel : nat.
Variable rest : forall X, netE Consumer.Consumer X -> world Consumer.Consumer -> X * world Consumer.Consumer.
Variable NewClient : string -> option error.
Variable config : Consumer.ConsumerConfig.
Abbreviation chandle := (handle mgmt_addr data_addr unmarshal (Datatypes.S fuel) rest).
Abbreviation cserving servers boot opts := (serving mgmt_addr data_addr servers boot opts).
Abbreviation copts w := (cp_opts (pool (cw_obj w))).

(** A fetch at a batch boundary returns whole batches from there on. *)
Lemma run_RFetch_boundary boot opts topic t id n a off pre sfx c maxBytes maxWaitMs w :
  cserving (cw_servers w) boot opts topic t id n a off (pre ++ sfx) -> cn_addr c = a -> cn_opts c = opts ->
  sfx <> [] -> 0 <= maxWaitMs ->
  exists s1 s2, sfx = s1 ++ s2 /\ s1 <> [] /\
    chandle _ (RFetch c topic id (end_off off pre) maxBytes maxWaitMs) w = (inr (concat s1, end_off off (pre ++ s1)), w) /\
    0 < len (concat s1) /\ 0 <= off /\ end_off off (pre ++ sfx) < 2 ^ 63.
Proof.
  intros Hs Ha Ho Hne Hw. pose proof Hs as [_ _ (sv & shard & p & _ & _ & _ & [(st & _ & Hrep) _])].
  pose proof (Storage.represents_log _ _ _ _ Hrep) as (Hc & Hlat & _ & H0 & Hmax).
  assert (end_off off pre < end_off off (pre ++ sfx)) as Hlt.
  { rewrite end_off_app. apply chain_app in Hc as [_ Hc]. by apply Storage.chain_nonempty. }
  pose proof (end_off_mono off pre).
  destruct (run_RFetch mgmt_addr data_addr unmarshal fuel rest (cw_servers w) boot opts topic t id n a off (pre ++ sfx) c
    (end_off off pre) maxBytes maxWaitMs w) as (pre' & b & rst & post & El & Hb & E); try done.
  assert (chain off (pre' ++ b :: (rst ++ post))) as Hc' by (rewrite El in Hc; exact Hc).
  pose proof Hc' as Hc2. apply chain_app in Hc2 as [_ (Hwf & Hbb & _)]. unfold batch_end in Hb. rewrite Hbb in Hb.
  destruct (Storage.chain_split_unique off pre sfx pre' b (rst ++ post)) as [<- ->]; [done|exact El|done|].
  exists (b :: rst), post. split; [done|]. split; [done|]. split; [exact E|]. split; [|split; [done|lia]].
  apply wf_len in Hwf. cbn [concat]. len_lia.
Qed.

Lemma touched_consumer (c c' : Consumer.Consumer) :
  touched c c' -> Consumer.fetchOffsets c' = Consumer.fetchOffsets c /\ Consumer.soughtPartitions c' = Consumer.soughtPartitions c /\
    Consumer.rebalancing c' = Consumer.rebalancing c.
Proof. by intros (p & m & ->). Qed.

(** One partition's turn in a poll: the records of some whole batches after its position. *)
Lemma run_fetchPartition boot addrs topic t id n a off pre rss sfx waitMs w :
  BootstrapServers (Consumer.cc_Config config) = boot :: addrs ->
  cserving (cw_servers w) boot (copts w) topic t id n a off (pre ++ sfx) -> ready (cw_obj w) (cw_clock w) topic id a ->
  NewClient boot = None -> NewClient a = None -> stored_run (end_off off pre) rss sfx -> sfx <> [] -> 0 <= waitMs ->
  exists r1 r2 s1 s2 s', rss = r1 ++ r2 /\ sfx = s1 ++ s2 /\ s1 <> [] /\ stored_run (end_off off (pre ++ s1)) r2 s2 /\
    end_off off (pre ++ s1) = end_off off pre + len (concat r1) /\
    run chandle (Consumer.fetchPartition NewClient config (TP topic id) (end_off off pre) waitMs) w =
      (Ok (Consumer.toRecord (TP topic id) <$> numbered (end_off off pre) r1, end_off off (pre ++ s1)), set_obj w s') /\
    touched (cw_obj w) s' /\ ready s' (cw_clock w) topic id a /\ cp_opts (pool s') = copts w /\
    other_topics topic (meta (cw_obj w)) (meta s').
Proof.
  intros Hb Hs Hrd Hn1 Hn2 Hrun Hne Hw. unfold Consumer.fetchPartition, Consumer.leaderFor. cbn [tp_topic tp_partition].
  rewrite Hb, run_call.
  destruct (run_leader mgmt_addr data_addr unmarshal fuel rest NewClient boot addrs topic t id n a off (pre ++ sfx) w Hs Hrd Hn1)
    as (s1 & Er & Ht1 & [_ Hp1 Httl1] & Ho1 & Hk1 & Hot). rewrite Er. rewrite run_call.
  destruct (run_pool_Get (h := chandle) NewClient a (set_obj w s1)) as (c & s2 & Eg & Ha & Ho & Hp2 & Hm2 & Ho2 & Ht2); [done|done|].
  rewrite Eg. unfold Consumer.remote. rewrite run_call, run_bind, run_trigger.
  change (obj (set_obj w s1)) with s1 in *.
  destruct (run_RFetch_boundary boot (copts w) topic t id n a off pre sfx c (i32 (Consumer.MaxFetchBytes config)) waitMs (set_obj w s2))
    as (b1 & b2 & -> & Hne1 & Ef & Hlen & H0 & Hmax); [done|done|by rewrite Ho, Ho1|done|done|].
  change (upd (set_obj w s1) s2) with (set_obj w s2). rewrite Ef. cbn [run].
  destruct (stored_run_app _ _ _ _ Hrun) as (r1 & r2 & -> & H1 & H2). pose proof (stored_run_end _ _ _ H1) as Eend.
  rewrite (proj2 (Z.eqb_neq _ _)) by lia.
  assert (end_off off (pre ++ b1) = end_off off pre + len (concat r1)) as Ee by (by rewrite end_off_app).
  pose proof (end_off_mono off pre). rewrite app_assoc, end_off_app in Hmax. pose proof (end_off_mono (end_off off (pre ++ b1)) b2).
  rewrite (Decode_run (end_off off pre) r1 b1 H1) by (unfold in_i64; pose proof (len_nonneg (concat r1)); lia).
  exists r1, r2, b1, b2, s2. split; [done|]. split; [done|]. split; [done|]. split; [by rewrite Ee|]. split; [exact Ee|].
  split; [reflexivity|]. split; [by etrans|]. split; [|split; [by rewrite Ho2, Ho1|by rewrite Hm2]].
  constructor; [left; by rewrite Hm2|done|by rewrite Hm2].
Qed.

(** A partition whose log starts after the consumer's position, as retention leaves it. *)
Definition out_of_range : error := data_error (ApiData.plain ApiData.Internal).

Lemma run_fetch_below boot addrs topic t id n a off l pos waitMs w :
  BootstrapServers (Consumer.cc_Config config) = boot :: addrs ->
  cserving (cw_servers w) boot (copts w) topic t id n a off l -> ready (cw_obj w) (cw_clock w) topic id a ->
  NewClient boot = None -> NewClient a = None -> 0 <= pos < off -> 0 <= waitMs ->
  exists s', run chandle (Consumer.fetchPartition NewClient config (TP topic id) pos waitMs) w = (Err out_of_range, set_obj w s') /\
    touched (cw_obj w) s'.
Proof.
  intros Hb Hs Hrd Hn1 Hn2 Hpos Hw. unfold Consumer.fetchPartition, Consumer.leaderFor. cbn [tp_topic tp_partition].
  rewrite Hb, run_call.
  destruct (run_leader mgmt_addr data_addr unmarshal fuel rest NewClient boot addrs topic t id n a off l w Hs Hrd Hn1)
    as (s1 & Er & Ht1 & [_ Hp1 Httl1] & Ho1 & Hk1 & Hot). rewrite Er. rewrite run_call.
  destruct (run_pool_Get (h := chandle) NewClient a (set_obj w s1)) as (c & s2 & Eg & Ha & Ho & Hp2 & Hm2 & Ho2 & Ht2); [done|done|].
  rewrite Eg. unfold Consumer.remote. rewrite run_call, run_bind, run_trigger. change (obj (set_obj w s1)) with s1 in *.
  change (upd (set_obj w s1) s2) with (set_obj w s2).
  pose proof Hs as [_ _ (sv & shard & p & Hr & Hl & Hcfg & Hp)].
  assert (reaches (cw_servers (set_obj w s2)) data_addr (cn_addr c) (cn_opts c) n sv) as Hr' by (by rewrite Ha, Ho, Ho1).
  cbn [handle]. rewrite (at_server_reaches _ _ _ _ _ _ Hr'). unfold data_call. erewrite fetch_below; [|exact Hl|exact Hp|done|done].
  cbn [run fst snd data_reply]. exists s2. split; [|by etrans]. f_equal.
  assert (set_sv_node sv (ClusterRun.set_node (sv_node sv) (ClusterRun.c_node (sv_node sv))) = sv) as ->
    by (destruct sv as [? ? []]; done).
  apply set_server_same. exact (rc_server _ _ _ _ _ _ Hr').
Qed.

(** A manual consumer of one partition, at a position. *)
Definition at_position (c : Consumer.Consumer) (tp : TopicPartition) (pos : Z) : Prop :=
  Consumer.soughtPartitions c = [tp] /\ Consumer.fetchOffsets c !! tp = Some pos.

(** The waiting time of a poll, as a duration. *)
Definition wait_ok (maxWaitMs : Z) : Prop := 0 < maxWaitMs /\ maxWaitMs * 10 ^ 6 < 2 ^ 63.

(** One turn of the loop of a poll that has time left. *)
Lemma run_poll_turn deadline tp pos work out w :
  0 <= Consumer.MaxFetchWaitMs config -> cw_clock w < deadline ->
  exists wait, 0 <= wait /\
    run chandle (Consumer.poll_loop NewClient config deadline ((tp, pos) :: work) out) w =
      let '(r, w1) := run chandle (Consumer.fetchPartition NewClient config tp pos wait) w in
      match r with
      | Ok (recs, next) =>
          run chandle (Consumer.poll_loop NewClient config deadline work (out ++ recs))
            (set_obj w1 (Consumer.set_positions (cw_obj w1) (<[tp := next]> (Consumer.fetchOffsets (cw_obj w1)))
              (Consumer.soughtPartitions (cw_obj w1))))
      | Err e =>
          let '(stop, w2) := run chandle (Consumer.poll_error tp e) w1 in
          match stop with
          | None => run chandle (Consumer.poll_loop NewClient config deadline work out) w2
          | Some e => (Err e, w2)
          end
      | Panic p => (Panic p, w1)
      | OutOfFuel => (OutOfFuel, w1)
      end.
Proof.
  intros Hmf Ht. set (q := Z.quot (Z.quot (deadline - cw_clock w) (10 ^ 6)) (len ((tp, pos) :: work))).
  assert (0 <= q) as Hq by (apply Z.quot_pos; [apply Z.quot_pos; lia|len_lia]).
  exists (if q >? Consumer.MaxFetchWaitMs config then Consumer.MaxFetchWaitMs config else q).
  split; [destruct (q >? Consumer.MaxFetchWaitMs config); lia|].
  cbn [Consumer.poll_loop]. rewrite run_bind, run_trigger. cbn [handle]. rewrite (proj2 (Z.leb_gt _ _)) by lia. fold q.
  rewrite run_bind. destruct (run chandle _ w) as [[[recs next]|e| |] w1]; try done. rewrite run_bind.
  by destruct (run chandle (Consumer.poll_error tp e) w1) as [[e'|] w2].
Qed.

(** A poll that fails loses records. A consumer of two partitions polls: the first has records
    after its position, the log of the second starts after the consumer's position there, as
    when retention has deleted segments and the consumer starts at 0 by its policy "earliest".
    The poll returns an error and no records, but the first position has moved past the records
    that were fetched, so no later poll returns them; the second position stays, so every poll
    fails. *)
Theorem failed_poll_loses pfuel boot addrs tp1 t1 n1 a1 off1 pre rss sfx tp2 t2 n2 a2 off2 l2 pos2 maxWaitMs w :
  Consumer.GroupID config = "" -> 0 <= Consumer.MaxFetchWaitMs config -> wait_ok maxWaitMs ->
  BootstrapServers (Consumer.cc_Config config) = boot :: addrs ->
  cserving (cw_servers w) boot (copts w) (tp_topic tp1) t1 (tp_partition tp1) n1 a1 off1 (pre ++ sfx) ->
  cserving (cw_servers w) boot (copts w) (tp_topic tp2) t2 (tp_partition tp2) n2 a2 off2 l2 ->
  tp_topic tp1 <> tp_topic tp2 -> mc_cache (meta (cw_obj w)) = ∅ -> pool_ok (pool (cw_obj w)) -> 0 <= mc_ttl (meta (cw_obj w)) ->
  NewClient boot = None -> NewClient a1 = None -> NewClient a2 = None ->
  Consumer.soughtPartitions (cw_obj w) = [tp1; tp2] ->
  Consumer.fetchOffsets (cw_obj w) !! tp1 = Some (end_off off1 pre) -> Consumer.fetchOffsets (cw_obj w) !! tp2 = Some pos2 ->
  0 <= pos2 < off2 -> stored_run (end_off off1 pre) rss sfx -> sfx <> [] ->
  exists w' next, run chandle (Consumer.Poll NewClient config pfuel maxWaitMs) w = (Err out_of_range, w') /\
    end_off off1 pre < next /\ Consumer.fetchOffsets (cw_obj w') !! tp1 = Some next /\
    Consumer.fetchOffsets (cw_obj w') !! tp2 = Some pos2 /\ Consumer.soughtPartitions (cw_obj w') = [tp1; tp2].
Proof.
  intros Hg Hmf [Hmw1 Hmw2] Hb Hs1 Hs2 Htp Hcache Hpool Httl Hn Hna1 Hna2 Hsp Hf1 Hf2 Hpos2 Hrun Hne.
  destruct tp1 as [topic1 id1], tp2 as [topic2 id2]. cbn [tp_topic tp_partition] in *.
  unfold Consumer.Poll. rewrite Hg. cbn [negb String.eqb]. unfold Consumer.poll_body, Consumer.snapshot.
  rewrite run_bind, run_trigger. cbn [handle fst snd]. rewrite Hsp. cbn [fmap list_fmap]. rewrite Hf1, Hf2.
  change (len [_; _] =? 0) with false. cbn iota. change (default 0 (Some ?x)) with x.
  rewrite run_bind, run_trigger. cbn [handle]. rewrite i64_id by (unfold in_i64; lia).
  change (cw_clock (set_obj w (cw_obj w))) with (cw_clock w). set (deadline := cw_clock w + maxWaitMs * 10 ^ 6).
  destruct (run_poll_turn deadline (TP topic1 id1) (end_off off1 pre) [(TP topic2 id2, pos2)] [] (set_obj w (cw_obj w)))
    as (wait & Hwait & ->); [done|cbn; lia|].
  destruct (run_fetchPartition boot addrs topic1 t1 id1 n1 a1 off1 pre rss sfx wait (set_obj w (cw_obj w)))
    as (r1 & r2 & s1 & s2 & s' & _ & -> & Hne1 & _ & _ & Ef & Ht & [_ Hp' Httl'] & Ho' & Hot); try done.
  { constructor; [right; cbn in *; by rewrite Hcache|done|done]. }
  rewrite Ef. destruct (touched_consumer _ _ Ht) as (Ef' & Es' & _). cbn [app set_obj cw_obj cw_clock cw_servers] in *.
  set (c' := Consumer.set_positions s' _ _).
  destruct (run_poll_turn deadline (TP topic2 id2) pos2 [] (Consumer.toRecord (TP topic1 id1) <$> numbered (end_off off1 pre) r1)
    (set_obj w c')) as (wait' & Hwait' & E2); [done|cbn; lia|].
  destruct (run_fetch_below boot addrs topic2 t2 id2 n2 a2 off2 l2 pos2 wait' (set_obj w c')) as (s'' & Ef2 & Ht2); try done.
  { change (cp_opts (pool (cw_obj (set_obj w c')))) with (cp_opts (pool s')). by rewrite Ho'. }
  { constructor; [right|done|done]. change (mc_cache (meta s') !! topic2 = None). rewrite (Hot topic2) by done. by rewrite Hcache. }
  rewrite Ef2 in E2. destruct (touched_consumer _ _ Ht2) as (Ef2' & Es2' & _). cbn [set_obj cw_obj] in Ef2', Es2'.
  exists (set_obj (set_obj w c') s''), (end_off off1 (pre ++ s1)). split; [exact E2|]. split.
  { pose proof Hs1 as [_ _ (sv & shard & p & _ & _ & _ & [(st & _ & Hrep) _])].
    pose proof (Storage.represents_log _ _ _ _ Hrep) as (Hc & _). apply chain_app in Hc as [_ Hc]. apply chain_app in Hc as [Hc _].
    rewrite end_off_app. by apply Storage.chain_nonempty. }
  change (cw_obj (set_obj _ s'')) with s''. rewrite Ef2', Es2'. unfold c'. cbn [Consumer.fetchOffsets Consumer.soughtPartitions Consumer.set_positions].
  split; [apply lookup_insert_eq|]. split; [|by rewrite Es'].
  rewrite lookup_insert_ne by congruence. by rewrite Ef'.
Qed.

(** A poll that does not wait for a rebalance. *)
Definition pollable (pfuel : nat) (c : Consumer.Consumer) : Prop :=
  Consumer.GroupID config = "" \/ (0 < pfuel)%nat /\ Consumer.rebalancing c = false.

Lemma run_Poll_body pfuel maxWaitMs w :
  pollable pfuel (cw_obj w) ->
  run chandle (Consumer.Poll NewClient config pfuel maxWaitMs) w = run chandle (Consumer.poll_body NewClient config maxWaitMs) w.
Proof.
  intros Hp. unfold Consumer.Poll. destruct (String.eqb_spec (Consumer.GroupID config) "") as [|Hne]; cbn [negb]; [done|].
  destruct Hp as [?|[Hf Hr]]; [done|]. destruct pfuel as [|pfuel]; [lia|]. cbn [Consumer.await]. unfold Consumer.snapshot at 1.
  rewrite run_bind, run_trigger. cbn [handle fst snd]. rewrite Hr. by destruct w.
Qed.

(** Polls change the pool, the cache and the positions. *)
Definition moved (c c' : Consumer.Consumer) : Prop :=
  exists p m offs, c' = Consumer.set_positions (Consumer.set_meta (Consumer.set_pool c p) m) offs (Consumer.soughtPartitions c).
#[local] Instance moved_refl : Reflexive moved.
Proof. intros c. exists (Consumer.co_pool c), (Consumer.co_meta c), (Consumer.fetchOffsets c). by destruct c. Qed.
#[local] Instance moved_trans : Transitive moved.
Proof. intros c1 c2 c3 (p & m & o & ->) (p' & m' & o' & ->). by exists p', m', o'. Qed.

Lemma run_Poll_one pfuel boot addrs topic t id n a off pre rss sfx maxWaitMs w :
  pollable pfuel (cw_obj w) -> 0 <= Consumer.MaxFetchWaitMs config -> wait_ok maxWaitMs ->
  BootstrapServers (Consumer.cc_Config config) = boot :: addrs ->
  cserving (cw_servers w) boot (copts w) topic t id n a off (pre ++ sfx) -> ready (cw_obj w) (cw_clock w) topic id a ->
  NewClient boot = None -> NewClient a = None -> at_position (cw_obj w) (TP topic id) (end_off off pre) ->
  stored_run (end_off off pre) rss sfx -> sfx <> [] ->
  exists r1 r2 s1 s2 w', rss = r1 ++ r2 /\ sfx = s1 ++ s2 /\ s1 <> [] /\ stored_run (end_off off (pre ++ s1)) r2 s2 /\
    end_off off (pre ++ s1) = end_off off pre + len (concat r1) /\
    run chandle (Consumer.Poll NewClient config pfuel maxWaitMs) w =
      (Ok (Consumer.toRecord (TP topic id) <$> numbered (end_off off pre) r1), w') /\
    cw_servers w' = cw_servers w /\ cw_clock w' = cw_clock w /\ copts w' = copts w /\
    ready (cw_obj w') (cw_clock w') topic id a /\ at_position (cw_obj w') (TP topic id) (end_off off (pre ++ s1)) /\
    moved (cw_obj w) (cw_obj w').
Proof.
  intros Hg Hmf [Hmw1 Hmw2] Hb Hs Hrd Hn1 Hn2 [Hsp Hfo] Hrun Hne. rewrite run_Poll_body by done.
  unfold Consumer.poll_body, Consumer.snapshot. rewrite run_bind, run_trigger. cbn [handle fst snd]. rewrite Hsp.
  cbn [fmap list_fmap]. rewrite Hfo. change (len [_] =? 0) with false. cbn iota. change (default 0 (Some ?x)) with x.
  rewrite run_bind, run_trigger. cbn [handle]. rewrite i64_id by (unfold in_i64; lia). cbn [Consumer.poll_loop].
  rewrite run_bind, run_trigger. cbn [handle]. change (cw_clock (set_obj w (cw_obj w))) with (cw_clock w).
  replace (cw_clock w + maxWaitMs * 10 ^ 6 - cw_clock w) with (maxWaitMs * 10 ^ 6) by lia.
  rewrite (proj2 (Z.leb_gt _ _)) by lia. change (len [(TP topic id, end_off off pre)]) with 1.
  rewrite Z.quot_1_r, Z.quot_mul by lia. rewrite run_bind.
  set (wait := if maxWaitMs >? Consumer.MaxFetchWaitMs config then Consumer.MaxFetchWaitMs config else maxWaitMs).
  destruct (run_fetchPartition boot addrs topic t id n a off pre rss sfx wait (set_obj w (cw_obj w)))
    as (r1 & r2 & s1 & s2 & s' & -> & -> & Hne1 & Hrun2 & Ee & Ef & Ht & Hrd' & Ho' & _); try done.
  { unfold wait. destruct (maxWaitMs >? Consumer.MaxFetchWaitMs config); lia. }
  rewrite Ef. cbn iota beta. unfold Consumer.locked. rewrite run_bind, run_trigger. cbn [handle fst snd Consumer.poll_loop run app].
  destruct (touched_consumer _ _ Ht) as (Ef' & Es' & _).
  eexists r1, r2, s1, s2, _. split; [done|]. split; [done|]. split; [done|]. split; [done|]. split; [done|]. split; [reflexivity|].
  split; [done|]. split; [done|]. split; [exact Ho'|]. split; [|split].
  - destruct Hrd' as [H1 H2 H3]. by constructor.
  - split; cbn [cw_obj set_obj Consumer.soughtPartitions Consumer.set_positions Consumer.fetchOffsets].
    + etrans; [exact Es'|exact Hsp].
    + apply lookup_insert_eq.
  - destruct Ht as (p & m & ->). by exists p, m, (<[TP topic id := end_off off (pre ++ s1)]> (Consumer.fetchOffsets (cw_obj w))).
Qed.

(** Polling [k] times. *)
Fixpoint poll_times (k : nat) (maxWaitMs : Z) : Consumer.cprog (outcome (list Consumer.ConsumerRecord)) :=
  match k with
  | O => Ret (Ok [])
  | Datatypes.S k' =>
      call (Consumer.Poll NewClient config 1 maxWaitMs) Datatypes.id (fun r1 =>
      call (poll_times k' maxWaitMs) Datatypes.id (fun r2 => Ret (Ok (r1 ++ r2))))
  end.

Lemma run_poll_times boot addrs topic t id n a off sfx rss pre maxWaitMs w :
  pollable 1 (cw_obj w) -> 0 <= Consumer.MaxFetchWaitMs config -> wait_ok maxWaitMs ->
  BootstrapServers (Consumer.cc_Config config) = boot :: addrs ->
  cserving (cw_servers w) boot (copts w) topic t id n a off (pre ++ sfx) -> ready (cw_obj w) (cw_clock w) topic id a ->
  NewClient boot = None -> NewClient a = None -> at_position (cw_obj w) (TP topic id) (end_off off pre) ->
  stored_run (end_off off pre) rss sfx ->
  exists k w', (k <= length sfx)%nat /\
    run chandle (poll_times k maxWaitMs) w = (Ok (Consumer.toRecord (TP topic id) <$> numbered (end_off off pre) rss), w') /\
    cw_servers w' = cw_servers w /\ at_position (cw_obj w') (TP topic id) (end_off off (pre ++ sfx)) /\ moved (cw_obj w) (cw_obj w').
Proof.
  intros Hg Hmf Hmw Hb. revert Hg. remember (length sfx) as m eqn:Em. revert sfx rss pre w Em.
  induction m as [m IH] using lt_wf_ind; intros sfx rss pre w -> Hg Hs Hrd Hn1 Hn2 Hpos Hrun.
  destruct sfx as [|b sfx].
  { destruct rss as [|rs rss]; [|done]. exists 0%nat, w. cbn [poll_times run numbered fmap list_fmap]. by rewrite app_nil_r. }
  destruct (run_Poll_one 1 boot addrs topic t id n a off pre rss (b :: sfx) maxWaitMs w)
    as (r1 & r2 & s1 & s2 & w1 & -> & Es & Hne1 & Hrun2 & Ee & E1 & Hsv & Hck & Hop & Hrd1 & Hpos1 & Hmv); try done.
  destruct s1 as [|x s1]; [done|]. injection Es as -> ->. 
  destruct (IH (length s2)) with (sfx := s2) (rss := r2) (pre := pre ++ x :: s1) (w := w1) as (k & w' & Hk & E2 & Hsv2 & Hpos2 & Hmv2); try done.
  { cbn [length]. rewrite length_app. lia. }
  { destruct Hg as [?|[? Hr]]; [by left|right]. split; [done|]. destruct Hmv as (p & m & o & ->). exact Hr. }
  { rewrite Hsv, Hop, <- app_assoc. exact Hs. }
  exists (Datatypes.S k), w'. split; [cbn [length]; rewrite length_app; lia|]. split; [|split; [congruence|rewrite <- app_assoc in Hpos2; split; [done|by etrans]]].
  cbn [poll_times]. rewrite run_call, E1, run_call, E2. cbn [run]. rewrite numbered_app, fmap_app, Ee. done.
Qed.

(** C14: End to end for consumers. On a cluster that serves a partition, a consumer that seeks to a
    batch boundary and polls gets, after at most one poll per batch, every record from there to
    the end of the log exactly once, in order, with its key, value, headers, timestamp and
    offset, and is left at the end of the log. *)
Theorem consumer_drains boot addrs topic t id n a off pre sfx rss maxWaitMs w :
  Consumer.GroupID config = "" -> 0 <= Consumer.MaxFetchWaitMs config -> wait_ok maxWaitMs ->
  BootstrapServers (Consumer.cc_Config config) = boot :: addrs ->
  cserving (cw_servers w) boot (copts w) topic t id n a off (pre ++ sfx) -> ready (cw_obj w) (cw_clock w) topic id a ->
  NewClient boot = None -> NewClient a = None ->
  Consumer.soughtPartitions (cw_obj w) = [] -> Consumer.fetchOffsets (cw_obj w) = ∅ ->
  stored_run (end_off off pre) rss sfx ->
  exists k w', (k <= length sfx)%nat /\
    run chandle (_ ← Consumer.Seek topic id (end_off off pre); poll_times k maxWaitMs) w =
      (Ok (Consumer.toRecord (TP topic id) <$> numbered (end_off off pre) rss), w') /\
    Consumer.fetchOffsets (cw_obj w') !! TP topic id = Some (end_off off (pre ++ sfx)).
Proof.
  intros Hg Hmf Hmw Hb Hs Hrd Hn1 Hn2 Hsp Hfo Hrun.
  set (w0 := set_obj w (Consumer.seek (TP topic id) (end_off off pre) (cw_obj w))).
  destruct (run_poll_times boot addrs topic t id n a off sfx rss pre maxWaitMs w0) as (k & w' & Hk & E & _ & (_ & Hpos) & _); try done.
  - by left.
  - destruct Hrd as [H1 H2 H3]. by constructor.
  - split; cbn [w0 cw_obj set_obj Consumer.seek Consumer.set_positions Consumer.soughtPartitions Consumer.fetchOffsets].
    + by rewrite Hfo, Hsp, lookup_empty.
    + apply lookup_insert_eq.
  - exists k, w'. split; [done|]. split; [|done]. unfold Consumer.Seek, Consumer.locked. rewrite run_bind, run_trigger. exact E.
Qed.

End consumer.

(** ** The path of a record *)

Section path.
Context `{Float64}.
Variables (mgmt_addr data_addr : gmap string Z).
Variable unmarshal : list byte -> option (Z * Z).
Variables (fuel pfuel : nat).
Variable prest : forall X, netE Producer.Producer X -> world Producer.Producer -> X * world Producer.Producer.
Variable crest : forall X, netE Consumer.Consumer X -> world Consumer.Consumer -> X * world Consumer.Consumer.
Variable NewClient : string -> option error.
Variable range : nat -> headers -> list (list byte * list byte).
Abbreviation phandle := (handle mgmt_addr data_addr unmarshal (Datatypes.S fuel) prest).
Abbreviation chandle := (handle mgmt_addr data_addr unmarshal (Datatypes.S fuel) crest).

Lemma new_producer_ready pc pc' P now topic id a :
  Producer.NewProducer pc = Ok (pc', P) -> ready P now topic id a /\
    (forall count, counted P topic count) /\ Producer.roundRobinCounter P = 0 /\
    Producer.pc_Config pc' = Producer.defaultConfig (Producer.pc_Config pc) /\
    cp_opts (pool P) = [KeepaliveParams 30000000000 10000000000] ++ Producer.dialOptions (Producer.defaultConfig (Producer.pc_Config pc)).
Proof.
  unfold Producer.NewProducer. destruct (len _ =? 0); [done|]. intros [= <- <-].
  split; [|split; [|done]].
  - constructor; [by right|apply NewConnPool_ok|]. cbn. destruct (Z.leb_spec (Producer.MetadataCacheTTL pc) 0); lia.
  - intros count ref m Hr. cbn in Hr. by rewrite lookup_empty in Hr.
Qed.

Lemma new_consumer_ready cc cc' C now topic id a :
  Consumer.NewConsumer cc = Ok (cc', C) -> ready C now topic id a /\
    Consumer.soughtPartitions C = [] /\ Consumer.fetchOffsets C = ∅ /\ Consumer.GroupID cc' = Consumer.GroupID cc /\
    0 <= Consumer.MaxFetchWaitMs cc' /\ Consumer.cc_Config cc' = Producer.defaultConfig (Consumer.cc_Config cc) /\
    cp_opts (pool C) = [KeepaliveParams 30000000000 10000000000] ++ Producer.dialOptions (Producer.defaultConfig (Consumer.cc_Config cc)).
Proof.
  unfold Consumer.NewConsumer. destruct (len _ =? 0); [done|]. intros [= <- <-].
  split; [|split_and!; try done].
  - constructor; [by right|apply NewConnPool_ok|]. cbn. lia.
  - cbn. destruct (Z.leb_spec (Consumer.MaxFetchWaitMs cc) 0); lia.
Qed.

(** The statement of [send_then_poll], for use with other theorems. *)
Lemma send_poll pc pc' P cc cc' C boot addrs topic t id n a off l key value hs enc maxWaitMs now servers :
  let record := {| br_Key := key; br_Value := value; br_Headers := hs; br_TimestampMs := now / 10 ^ 6 |} in
  Producer.NewProducer pc = Ok (pc', P) -> Consumer.NewConsumer cc = Ok (cc', C) ->
  Consumer.cc_Config cc = Producer.pc_Config pc -> BootstrapServers (Producer.pc_Config pc) = boot :: addrs ->
  Consumer.GroupID cc = "" -> wait_ok maxWaitMs -> NewClient boot = None -> NewClient a = None ->
  (forall i m, range i m ≡ₚ map_to_list m) ->
  (Producer.selectPartition (default [] key) (Metadata.PartitionCount t) 0).1 = Ok id ->
  serving mgmt_addr data_addr servers boot (cp_opts (pool P)) topic t id n a off l ->
  (forall sv, servers !! n = Some sv -> in_u64 (DataRun.n_index (ClusterRun.c_node (sv_node sv)))) ->
  Encode range [record] = Ok enc -> len enc <= ApiData.maxBatchBytes -> in_i64 (now / 10 ^ 6) -> end_off off l + 1 < 2 ^ 63 ->
  exists w1 w2,
    run phandle (Producer.Send NewClient range (Producer.pc_Config pc') topic key value hs 0)
      {| cw_obj := P; cw_clock := now; cw_servers := servers |} = (Ok (end_off off l), w1) /\
    run chandle (_ ← Consumer.Seek topic id (end_off off l); Consumer.Poll NewClient cc' pfuel maxWaitMs)
      {| cw_obj := C; cw_clock := cw_clock w1; cw_servers := cw_servers w1 |} =
      (Ok [{| Consumer.Topic := topic; Consumer.PartitionID := id; Consumer.Offset := end_off off l; Consumer.Key := key;
              Consumer.Value := value; Consumer.Headers := hs; Consumer.TimestampMs := now / 10 ^ 6 |}], w2) /\
    Consumer.fetchOffsets (cw_obj w2) !! TP topic id = Some (end_off off l + 1).
Proof.
  intros record HP HC Hcc Hb Hg Hw Hn1 Hn2 Hrange Hsel Hs Hi He Hlen Hts Hend.
  destruct (new_producer_ready pc pc' P now topic id a HP) as (HrdP & HcntP & Hrr & Hpc & HoP).
  destruct (Producer.selectPartition (default [] key) (Metadata.PartitionCount t) 0) as [r counter] eqn:Esel. cbn in Hsel. subst r.
  destruct (run_Send mgmt_addr data_addr unmarshal fuel prest NewClient range (Producer.pc_Config pc') boot addrs topic t id n a off l
    key value hs counter enc {| cw_obj := P; cw_clock := now; cw_servers := servers |}) as (w1 & E1 & Hs1 & Hck); try done.
  { by rewrite Hpc. }
  { cbn [cw_obj]. by rewrite Hrr. }
  cbn [cw_clock] in Hck. cbn [cw_obj] in Hs1.
  destruct (new_consumer_ready cc cc' C (cw_clock w1) topic id a HC) as (HrdC & Hsp & Hfo & Hg' & Hmf & Hcc' & HoC).
  assert (in_i64 (end_off off l)) as Hio.
  { destruct Hs as [_ _ (sv & shard & p & _ & _ & _ & [(st & _ & Hrep) _])].
    pose proof (Storage.represents_log _ _ _ _ Hrep) as (_ & _ & _ & H0 & _). pose proof (end_off_mono off l). unfold in_i64. lia. }
  set (w0 := {| cw_obj := Consumer.seek (TP topic id) (end_off off l) C; cw_clock := cw_clock w1; cw_servers := cw_servers w1 |}).
  assert (len enc <= BatchLog.maxBatchBytes) as Hlen' by (unfold ApiData.maxBatchBytes, BatchLog.maxBatchBytes in *; lia).
  destruct (run_Poll_one mgmt_addr data_addr unmarshal fuel crest NewClient cc' pfuel boot addrs topic t id n a off l
    [imap (storageRecord range) [record]] [Batch.withBaseOffset enc (end_off off l)] maxWaitMs w0)
    as (r1 & r2 & s1 & s2 & w2 & Er & Es & Hne & Hr2 & Ee & E2 & _ & _ & _ & _ & [_ Hpos] & _); try done.
  - left. by rewrite Hg'.
  - by rewrite Hcc', Hcc.
  - change (cp_opts (pool (cw_obj w0))) with (cp_opts (pool C)). rewrite HoC, Hcc, <- HoP. exact Hs1.
  - destruct HrdC as [H1 H2 H3]. by constructor.
  - split; cbn [w0 cw_obj Consumer.seek Consumer.set_positions Consumer.soughtPartitions Consumer.fetchOffsets].
    + by rewrite Hfo, Hsp, lookup_empty.
    + apply lookup_insert_eq.
  - split; [|done]. apply encode_stored; [done|done|]. by constructor.
  - destruct s1 as [|x [|y s1]]; [done| |done]. destruct s2; [|done]. destruct r2 as [|]; [|done]. rewrite app_nil_r in Er. subst r1.
    exists w1, w2. split; [exact E1|]. split.
    + unfold Consumer.Seek, Consumer.locked. rewrite run_bind, run_trigger. etrans; [exact E2|].
      cbn [numbered]. rewrite app_nil_r, delivered_all by (done || (unfold in_i64 in *; len_lia)). unfold delivered. cbn. by rewrite Z.add_0_r.
    + rewrite Hpos, Ee. done.
Qed.

(** C1: End to end for users. A new producer sends a record to a topic; the cluster that serves the
    partition its key selects answers with the offset at the end of the log; and a new consumer
    that seeks to that offset and polls gets exactly this record, with its key, value, headers
    and timestamp, and moves to the next offset. This goes through both client libraries, the
    authentication, the API servers, the coordinators, the replicated log and the storage. *)
Theorem send_then_poll pc pc' P cc cc' C boot addrs topic t id n a off l key value hs enc maxWaitMs now servers :
  let record := {| br_Key := key; br_Value := value; br_Headers := hs; br_TimestampMs := now / 10 ^ 6 |} in
  Producer.NewProducer pc = Ok (pc', P) -> Consumer.NewConsumer cc = Ok (cc', C) ->
  Consumer.cc_Config cc = Producer.pc_Config pc -> BootstrapServers (Producer.pc_Config pc) = boot :: addrs ->
  Consumer.GroupID cc = "" -> wait_ok maxWaitMs -> NewClient boot = None -> NewClient a = None ->
  (forall i m, range i m ≡ₚ map_to_list m) ->
  (Producer.selectPartition (default [] key) (Metadata.PartitionCount t) 0).1 = Ok id ->
  serving mgmt_addr data_addr servers boot (cp_opts (pool P)) topic t id n a off l ->
  (forall sv, servers !! n = Some sv -> in_u64 (DataRun.n_index (ClusterRun.c_node (sv_node sv)))) ->
  Encode range [record] = Ok enc -> len enc <= ApiData.maxBatchBytes -> in_i64 (now / 10 ^ 6) -> end_off off l + 1 < 2 ^ 63 ->
  exists w1 w2,
    run phandle (Producer.Send NewClient range (Producer.pc_Config pc') topic key value hs 0)
      {| cw_obj := P; cw_clock := now; cw_servers := servers |} = (Ok (end_off off l), w1) /\
    run chandle (_ ← Consumer.Seek topic id (end_off off l); Consumer.Poll NewClient cc' pfuel maxWaitMs)
      {| cw_obj := C; cw_clock := cw_clock w1; cw_servers := cw_servers w1 |} =
      (Ok [{| Consumer.Topic := topic; Consumer.PartitionID := id; Consumer.Offset := end_off off l; Consumer.Key := key;
              Consumer.Value := value; Consumer.Headers := hs; Consumer.TimestampMs := now / 10 ^ 6 |}], w2) /\
    Consumer.fetchOffsets (cw_obj w2) !! TP topic id = Some (end_off off l + 1).
Proof. intros record. apply send_poll. Qed.

End path.

End ClientServe.
