(* ===== verification/ClientGroup.v ===== *)
(** * Consumer groups, from the client to the metadata log

    The group requests of ClientNet.v answered by the brokers of ClientRun.v: the data API's
    handlers behind the authentication and [isMetadataLeader], over the group coordinator and the
    broker's metadata. With it a consumer's [Subscribe], [Commit] and [Close] are proved against
    the coordinator that the broker runs, not against assumed answers. *)

From S2P Require Import Prelude SegName Keys Metadata RangeAssign Prog GroupCoord GroupSem GroupRun DataCoord ClusterCoord ApiData DataRun ClusterRun ApiMgmt Config ClientNet ClientWorld Producer Consumer ConsumerRun Auth ClientRun.
Local Open Scope Z_scope.

Module ClientGroup.
Import Keys Metadata ClusterCoord ClientNet ClientWorld ClientRun.

(** [isMetadataLeader] of the broker's main function: whether this node leads the metadata
    shard, and otherwise the leader's address, if it is known. *)
Definition isMetadataLeader (nodeID : Z) (GetLeaderID : Z -> outcome (Z * Z * bool)) (s : MetadataState)
  : outcome (bool * string) :=
  match GetLeaderID 0 with
  | Ok (leaderID, _, true) =>
      if leaderID =? nodeID then Ok (true, "") else
      match Lookup s (QueryGetNode leaderID) with
      | Ok (ANode nodeInfo) => Ok (false, Address nodeInfo)
      | Ok _ => Panic GroupCoord.type_assertion
      | Err _ => Ok (false, "")
      | Panic p => Panic p
      | OutOfFuel => OutOfFuel
      end
  | Panic p => Panic p
  | OutOfFuel => OutOfFuel
  | _ => Ok (false, "")
  end.

(** The part of a broker its group coordinator works on. *)
Definition group_world (sv : server) (now : Z) : GroupSem.world :=
  {| GroupSem.w_fsm := sv_meta sv; GroupSem.w_table := sv_heartbeats sv; GroupSem.w_clock := now |}.
Definition set_group (sv : server) (gw : GroupSem.world) : server :=
  {| sv_config := sv_config sv; sv_leader := sv_leader sv;
     sv_node := ClusterRun.set_node (sv_node sv) (ClusterRun.set_meta (ClusterRun.c_node (sv_node sv)) (GroupSem.w_fsm gw));
     sv_heartbeats := GroupSem.w_table gw |}.

Lemma set_group_same sv now : set_group sv (group_world sv now) = sv.
Proof. destruct sv as [? ? [[]] ?]; done. Qed.

(** Whether a broker takes group requests itself. *)
Definition leads_groups (sv : server) : outcome (bool * string) :=
  isMetadataLeader (Config.NodeID (sv_config sv)) (sv_leader sv) (sv_meta sv).

Definition coordinator_config (sv : server) : GroupCoord.GroupCoordinatorConfig :=
  GroupCoord.NewGroupCoordinator (Config.groupConfig (sv_config sv)).

Section group_requests.
(** The uuids a broker draws, and the order of its map iterations. *)
Variable uuid : server -> string.
Variable ord : list string -> list string.

Definition ghandle (sv : server) : forall X, GroupCoord.groupE X -> GroupSem.world -> X * GroupSem.world :=
  GroupSem.handle (uuid sv) ord (match sv_leader sv 0 with Ok l => l | _ => (0, 0, false) end).

Definition group_call {A} (now : Z)
    (p : bool * string -> GroupCoord.GroupCoordinatorConfig -> prog GroupCoord.groupE (ApiData.reply A)) (sv : server)
  : (error + A) * server :=
  match leads_groups sv with
  | Ok lead =>
      let '(r, gw) := run (ghandle sv) (p lead (coordinator_config sv)) (group_world sv now) in
      (data_reply r, set_group sv gw)
  | _ => (inl unavailable, sv)
  end.

Context {S : Type}.
Variable data_addr : gmap string Z.

(** The handler of group requests; the other requests are answered before it is asked. *)
Definition group_rest X (e : netE S X) : world S -> X * world S :=
  match e in netE _ X return world S -> X * world S with
  | RJoinGroup c group member topics session heartbeat => fun w => at_server data_addr c
      (group_call (cw_clock w) (fun lead gc => @ApiData.JoinGroup _ (ApiData.GroupCoordinator gc) lead group member topics session heartbeat)) w
  | RHeartbeat c group member generation => fun w => at_server data_addr c
      (group_call (cw_clock w) (fun lead gc => @ApiData.Heartbeat _ (ApiData.GroupCoordinator gc) lead group member generation)) w
  | RLeaveGroup c group member => fun w => at_server data_addr c
      (group_call (cw_clock w) (fun lead gc => @ApiData.LeaveGroup _ (ApiData.GroupCoordinator gc) lead group member)) w
  | RCommitOffset c group member generation offsets => fun w => at_server data_addr c
      (group_call (cw_clock w) (fun lead gc => @ApiData.CommitOffset _ (ApiData.GroupCoordinator gc) lead group member generation offsets)) w
  | RFetchCommitted c group partitions => fun w => at_server data_addr c
      (group_call (cw_clock w) (fun lead gc => @ApiData.FetchCommittedOffsets _ (ApiData.GroupCoordinator gc) lead group partitions)) w
  | Mem f => fun w => ((f (cw_obj w)).1, set_obj w (f (cw_obj w)).2)
  | Now => fun w => (cw_clock w, w)
  | Sleep _ => fun w => (tt, w)
  | Done => fun w => (None, w)
  | Order entries => fun w => (entries, w)
  | CloseConn _ => fun w => (None, w)
  | RDescribeTopic _ _ | RDescribeCluster _ | RCreateTopic _ _ _ _ _ _ | RDeleteTopic _ _ | RListTopics _
  | RAlterPartitions _ _ _ | RAlterRetention _ _ _ _ | RListPartitions _ _ | RProduce _ _ _ _ _ | RFetch _ _ _ _ _ _
  | RGetOffsets _ _ _ _ => fun w => (inl unavailable, w)
  end.

End group_requests.

(** ** Consumers of a coordinated cluster *)

(** Where a group is in a partition, by the metadata: the committed offset, or -1. *)
Definition committed_in (s : MetadataState) (gid : string) (tp : TopicPartition) : Z :=
  default (-1) (GroupStates s !! gid ≫= fun g => Offsets g !! tp).

(** The partitions of topics, in the order in which one member gets them all. *)
Definition all_partitions (s : MetadataState) (topics : list string) : list TopicPartition :=
  RangeAssign.shares (GroupRun.counts_of s topics ∅) 1 0 (sort_strings topics).

(** Two states of a broker that differ in its groups. *)
Definition same_cluster (sv sv' : server) : Prop :=
  (exists gw, sv' = set_group sv gw) /\ Topics (sv_meta sv') = Topics (sv_meta sv) /\
  Partitions (sv_meta sv') = Partitions (sv_meta sv) /\ Nodes (sv_meta sv') = Nodes (sv_meta sv) /\
  NextShardID (sv_meta sv') = NextShardID (sv_meta sv).

#[export] Instance same_cluster_trans : Transitive same_cluster.
Proof.
  intros sv1 sv2 sv3 ((gw & ->) & H1 & H2 & H3 & H4) ((gw' & ->) & H1' & H2' & H3' & H4').
  split; [by exists gw'|]. split_and!; congruence.
Qed.

Section members.
Context `{Float64}.
Variables (mgmt_addr data_addr : gmap string Z).
Variable unmarshal : list byte -> option (Z * Z).
Variable fuel : nat.
Variable uuid : server -> string.
Hypothesis uuid_drawn : forall sv, uuid sv <> "".
Variable ord : list string -> list string.
Hypothesis ord_perm : forall l, ord l ≡ₚ l.
Variable NewClient : string -> option error.
Hypothesis NewClient_ok : forall addr, NewClient addr = None.
Abbreviation chandle := (handle mgmt_addr data_addr unmarshal fuel (group_rest (S := Consumer.Consumer) uuid ord data_addr)).
Abbreviation wof c now servers := {| cw_obj := c; cw_clock := now; cw_servers := servers |}.

(** The broker at the bootstrap address lists a first node; this is the leader of the metadata
    shard, or knows it. *)
Record coordinated (servers : gmap Z server) (boot : string) (opts : list DialOption) (n : Z) (a : string) (sv : server) : Prop := {
  cd_first : exists b svb ni l, reaches servers mgmt_addr boot opts b svb /\ listNodes (sv_meta svb) = ni :: l /\
    (Address ni = a \/ exists m svm, reaches servers data_addr (Address ni) opts m svm /\ leads_groups svm = Ok (false, a));
  cd_addr : a <> "";
  cd_reaches : reaches servers data_addr a opts n sv;
  cd_leads : leads_groups sv = Ok (true, "");
  cd_groups : GroupSem.groups_ok (sv_meta sv)
}.

Lemma reaches_insert servers addrs addr opts m svm n sv gw :
  servers !! n = Some sv -> reaches servers addrs addr opts m svm ->
  reaches (<[n := set_group sv gw]> servers) addrs addr opts m (if decide (m = n) then set_group svm gw else svm).
Proof.
  intros Hn [H1 H2 H3]. destruct (decide (m = n)) as [->|Hne].
  - assert (svm = sv) as -> by congruence. constructor; [done|apply lookup_insert_eq|done].
  - constructor; [done|by rewrite lookup_insert_ne|done].
Qed.

Lemma leads_groups_kept sv gw : Nodes (GroupSem.w_fsm gw) = Nodes (sv_meta sv) -> leads_groups (set_group sv gw) = leads_groups sv.
Proof.
  intros E. unfold leads_groups, isMetadataLeader. cbn [set_group sv_config sv_leader sv_node Lookup]. cbn -[found].
  by rewrite E.
Qed.

(** Group requests keep the cluster coordinated. *)
Lemma coordinated_step servers boot opts n a sv gw :
  coordinated servers boot opts n a sv -> Nodes (GroupSem.w_fsm gw) = Nodes (sv_meta sv) -> GroupSem.groups_ok (GroupSem.w_fsm gw) ->
  coordinated (<[n := set_group sv gw]> servers) boot opts n a (set_group sv gw).
Proof.
  intros [(b & svb & ni & l & Hb & Hl & Hf) Ha Hr Hld Hg] En Hg'. pose proof (rc_server _ _ _ _ _ _ Hr) as Hn. constructor.
  - exists b. eexists. exists ni, l. split; [by apply reaches_insert|]. split.
    + destruct (decide (b = n)) as [->|]; [|done]. pose proof (rc_server _ _ _ _ _ _ Hb) as Hn'.
      assert (svb = sv) as -> by congruence. unfold listNodes in *. cbn. by rewrite En.
    + destruct Hf as [Hf|(m & svm & Hm & Hlm)]; [by left|right]. exists m. eexists. split; [by apply reaches_insert|].
      destruct (decide (m = n)) as [->|]; [|done]. pose proof (rc_server _ _ _ _ _ _ Hm). congruence.
  - done.
  - pose proof (reaches_insert servers data_addr a opts n sv n sv gw Hn Hr) as H'. by rewrite decide_True in H'.
  - by rewrite leads_groups_kept.
  - exact Hg'.
Qed.

Lemma run_connect addr c now servers :
  pool_ok (Consumer.co_pool c) ->
  exists k p, pool_ok p /\ cp_opts p = cp_opts (Consumer.co_pool c) /\ cn_addr k = addr /\ cn_opts k = cp_opts (Consumer.co_pool c) /\
    run chandle (pool_Get NewClient addr) (wof c now servers) = (Ok k, wof (Consumer.set_pool c p) now servers).
Proof.
  intros Hp. destruct (run_pool_Get (h := chandle) NewClient addr (wof c now servers))
    as (k & s' & E & Hk & Ho & Hp' & Hm & Ho' & (p & m & ->)); [done|done|].
  exists k, p. split; [done|]. split; [exact Ho'|]. split; [done|]. split; [exact Ho|]. rewrite E. cbn in Hm. by rewrite Hm.
Qed.

(** A group request at the leader of the metadata shard. *)
Lemma group_at {A} servers k n sv lead now (c : Consumer.Consumer)
    (p : bool * string -> GroupCoord.GroupCoordinatorConfig -> prog GroupCoord.groupE (ApiData.reply A)) r gw :
  reaches servers data_addr (cn_addr k) (cn_opts k) n sv -> leads_groups sv = Ok lead ->
  run (ghandle uuid ord sv) (p lead (coordinator_config sv)) (group_world sv now) = (r, gw) ->
  at_server data_addr k (group_call uuid ord now p) (wof c now servers) =
    (data_reply r, wof c now (<[n := set_group sv gw]> servers)).
Proof.
  intros Hr Hl E. erewrite at_server_reaches by exact Hr. unfold group_call. rewrite Hl, E. done.
Qed.

Lemma group_ok {A B} servers k n sv now (c : Consumer.Consumer)
    (p : GroupCoord.GroupCoordinatorConfig -> prog GroupCoord.groupE (outcome A)) map_error (f : A -> B) x gw :
  reaches servers data_addr (cn_addr k) (cn_opts k) n sv -> leads_groups sv = Ok (true, "") ->
  run (ghandle uuid ord sv) (p (coordinator_config sv)) (group_world sv now) = (Ok x, gw) ->
  at_server data_addr k (group_call uuid ord now (fun lead gc => ApiData.on_leader lead (ApiData.rpc (p gc) map_error f))) (wof c now servers) =
    (inr (f x), wof c now (<[n := set_group sv gw]> servers)).
Proof.
  intros Hr Hl E. erewrite group_at; [|exact Hr|exact Hl|]; [|unfold ApiData.on_leader, ApiData.rpc; cbn [negb fst]; rewrite run_bind, E; reflexivity].
  reflexivity.
Qed.

Section member.
Variable config : Consumer.ConsumerConfig.
Variables (boot : string) (addrs : list string).
Hypothesis knows_boot : BootstrapServers (Consumer.cc_Config config) = boot :: addrs.
Hypothesis in_group : Consumer.GroupID config <> "".
Abbreviation gid := (Consumer.GroupID config).

(** The request the coordinator gets for a join. *)
Definition join_request (member : string) (topics : list string) : GroupCoord.JoinGroupRequest :=
  {| GroupCoord.jq_GroupID := gid; GroupCoord.jq_MemberID := member; GroupCoord.jq_Topics := topics;
     GroupCoord.jq_SessionTimeoutMs :=
       if Consumer.SessionTimeoutMs config =? 0 then ApiData.defaultSessionTimeoutMs else Consumer.SessionTimeoutMs config;
     GroupCoord.jq_HeartbeatIntervalMs :=
       if i32 (Consumer.HeartbeatIntervalMs config) =? 0 then ApiData.defaultHeartbeatIntervalMs
       else i32 (Consumer.HeartbeatIntervalMs config) |}.

Definition session_ok : Prop := Consumer.SessionTimeoutMs config = 0 \/ 1000 <= Consumer.SessionTimeoutMs config <= 300000.

Lemma coordinator_found c now servers n a sv :
  pool_ok (Consumer.co_pool c) -> coordinated servers boot (cp_opts (Consumer.co_pool c)) n a sv ->
  exists p a', pool_ok p /\ cp_opts p = cp_opts (Consumer.co_pool c) /\
    (a' = a \/ exists m svm, reaches servers data_addr a' (cp_opts p) m svm /\ leads_groups svm = Ok (false, a)) /\
    run chandle (Consumer.findCoordinator NewClient config) (wof c now servers) =
      (Ok tt, wof (Consumer.set_coord (Consumer.set_pool c p) a') now servers).
Proof.
  intros Hp [(b & svb & ni & l & Hb & Hl & Hf) _ _ _ _]. unfold Consumer.findCoordinator. rewrite knows_boot.
  cbn [Consumer.find_coordinator]. rewrite run_bind. destruct (run_connect boot c now servers Hp) as (k & p & Hp' & Ho & Hk & Hko & E).
  rewrite E. rewrite run_bind, run_trigger. cbn [handle].
  assert (reaches (cw_servers (wof (Consumer.set_pool c p) now servers)) mgmt_addr (cn_addr k) (cn_opts k) b svb) as Hb' by (by rewrite Hk, Hko).
  rewrite (at_server_reaches _ _ _ _ _ _ Hb'). unfold mgmt_call, ApiMgmt.DescribeCluster. rewrite ApiMgmt.run_rpc.
  cbn [ApiMgmt.cc_DescribeCluster ApiMgmt.ClusterCoordinator]. unfold DescribeCluster. rewrite run_call, run_trigger.
  cbn [ClusterRun.handle Lookup run fst snd mgmt_reply]. rewrite set_sv_same, set_server_same by exact (rc_server _ _ _ _ _ _ Hb').
  unfold Consumer.locked. change (ClusterRun.meta (sv_node svb)) with (sv_meta svb). rewrite Hl.
  rewrite run_bind, run_trigger. exists p, (Address ni). rewrite Ho. done.
Qed.

(** A join at the leader. *)
Lemma join_request_done topics c now servers n a sv :
  pool_ok (Consumer.co_pool c) -> reaches servers data_addr a (cp_opts (Consumer.co_pool c)) n sv -> Consumer.coordAddr c = a ->
  leads_groups sv = Ok (true, "") -> GroupSem.groups_ok (sv_meta sv) ->
  GroupRun.joinable (coordinator_config sv) (sv_meta sv) (join_request (Consumer.memberID c) topics) ->
  let req := join_request (Consumer.memberID c) topics in
  let g' := GroupRun.joined (uuid sv) ord (sv_meta sv) req now in
  exists p gw, pool_ok p /\ cp_opts p = cp_opts (Consumer.co_pool c) /\
    GroupSem.w_fsm gw = set_groupStates (sv_meta sv) (<[gid := g']> (GroupStates (sv_meta sv))) /\
    run chandle (Consumer.doJoinGroup NewClient config topics) (wof c now servers) =
    (Ok {| GroupCoord.jp_MemberID := GroupRun.member_id (uuid sv) req; GroupCoord.jp_GenerationID := GenerationID g';
           GroupCoord.jp_Assignments := default [] (Assignments g' !! GroupRun.member_id (uuid sv) req) |},
     wof (Consumer.set_pool c p) now (<[n := set_group sv gw]> servers)).
Proof.
  intros Hp Hr Hc Hl Hg Hj req g'. unfold Consumer.doJoinGroup, Consumer.snapshot. rewrite run_bind, run_trigger.
  cbn [handle fst snd cw_obj]. rewrite run_call. rewrite Hc. change (set_obj (wof c now servers) _) with (wof c now servers).
  destruct (run_connect a c now servers Hp) as (k & p & Hp' & Ho & Hk & Hko & E). rewrite E.
  unfold Consumer.remote. rewrite run_bind, run_trigger. cbn [handle group_rest cw_clock].
  pose proof (GroupRun.run_JoinGroup (uuid sv) ord (match sv_leader sv 0 with Ok l => l | _ => (0, 0, false) end) ord_perm
    (coordinator_config sv) req (group_world sv now) Hg Hj) as EJ.
  exists p. eexists. split; [done|]. split; [done|].
  split; [|unfold ApiData.JoinGroup; cbv zeta; erewrite (group_ok servers k n sv now); [|by rewrite Hk, Hko|exact Hl|exact EJ]; reflexivity].
  reflexivity.
Qed.

(** A join at a broker that is not the leader. *)
Lemma join_request_elsewhere topics c now servers m a svm :
  pool_ok (Consumer.co_pool c) -> reaches servers data_addr (Consumer.coordAddr c) (cp_opts (Consumer.co_pool c)) m svm ->
  leads_groups svm = Ok (false, a) ->
  exists p, pool_ok p /\ cp_opts p = cp_opts (Consumer.co_pool c) /\
    run chandle (Consumer.doJoinGroup NewClient config topics) (wof c now servers) =
      (Err (data_error (ApiData.notLeaderStatus a)), wof (Consumer.set_pool c p) now servers).
Proof.
  intros Hp Hr Hl. unfold Consumer.doJoinGroup, Consumer.snapshot. rewrite run_bind, run_trigger.
  cbn [handle fst snd cw_obj]. rewrite run_call. change (set_obj (wof c now servers) _) with (wof c now servers).
  destruct (run_connect (Consumer.coordAddr c) c now servers Hp) as (k & p & Hp' & Ho & Hk & Hko & E). rewrite E.
  exists p. split; [done|]. split; [done|].
  unfold Consumer.remote. rewrite run_bind, run_trigger. cbn [handle group_rest cw_clock].
  erewrite group_at; [|by rewrite Hk, Hko|exact Hl|reflexivity]. cbn [run data_reply ApiData.on_leader].
  by rewrite set_group_same, insert_id by exact (rc_server _ _ _ _ _ _ Hr).
Qed.

(** The group after a join at [sv], and the member with its part of it. *)
Definition joins (sv : server) (topics : list string) (now : Z) (member : string) : GroupState :=
  GroupRun.joined (uuid sv) ord (sv_meta sv) (join_request member topics) now.
Definition joined_as (sv : server) (topics : list string) (now : Z) (c : Consumer.Consumer) p a : Consumer.Consumer :=
  let id := GroupRun.member_id (uuid sv) (join_request (Consumer.memberID c) topics) in
  let g := joins sv topics now (Consumer.memberID c) in
  Consumer.set_member (Consumer.set_coord (Consumer.set_pool c p) a) id (GenerationID g) (default [] (Assignments g !! id)).

(** Joining, with at most one redirection: the coordinator is found and the member is in the group. *)
Lemma group_joined topics c now servers n a sv :
  pool_ok (Consumer.co_pool c) -> coordinated servers boot (cp_opts (Consumer.co_pool c)) n a sv ->
  GroupRun.joinable (coordinator_config sv) (sv_meta sv) (join_request (Consumer.memberID c) topics) ->
  exists p gw, pool_ok p /\ cp_opts p = cp_opts (Consumer.co_pool c) /\
    GroupSem.w_fsm gw = set_groupStates (sv_meta sv) (<[gid := joins sv topics now (Consumer.memberID c)]> (GroupStates (sv_meta sv))) /\
    run chandle (Consumer.joinGroup NewClient config topics) (wof c now servers) =
    run chandle (Consumer.initFetchOffsets NewClient config)
      (wof (joined_as sv topics now c p a) now (<[n := set_group sv gw]> servers)).
Proof.
  intros Hp Hc Hj. unfold Consumer.joinGroup. rewrite run_call.
  destruct (coordinator_found c now servers n a sv Hp Hc) as (p & a' & Hp' & Ho & Ha' & ->). rewrite run_bind.
  pose proof Hc as [_ Hne Hr Hl Hg].
  destruct (decide (a' = a)) as [->|Hna].
  - destruct (join_request_done topics (Consumer.set_coord (Consumer.set_pool c p) a) now servers n a sv)
      as (p2 & gw & Hp2 & Ho2 & Hgw & E); [done|cbn; by rewrite Ho|done|done|done|done|].
    rewrite E. exists p2, gw. split; [done|]. split; [by rewrite Ho2|]. split; [done|].
    unfold Consumer.joined, Consumer.locked. rewrite run_bind, run_trigger. done.
  - destruct Ha' as [?|(m & svm & Hm & Hlm)]; [done|].
    destruct (join_request_elsewhere topics (Consumer.set_coord (Consumer.set_pool c p) a') now servers m a svm)
      as (p1 & Hp1 & Ho1 & E1); [done|done|done|]. rewrite E1.
    cbn [data_error ApiData.notLeaderStatus ApiData.st_bunny ApiData.st_leader ApiData.st_code app].
    change (Producer.extractErr _) with (Some NOT_LEADER, Some (0, a)). cbv beta iota. rewrite bool_decide_eq_true_2 by done.
    cbn [negb]. rewrite (proj2 (String.eqb_neq a "")) by done. cbn [negb]. unfold Consumer.locked. rewrite run_bind, run_trigger.
    cbn [handle fst snd]. rewrite run_call.
    destruct (join_request_done topics (Consumer.set_coord (Consumer.set_pool (Consumer.set_coord (Consumer.set_pool c p) a') p1) a) now servers n a sv)
      as (p2 & gw & Hp2 & Ho2 & Hgw & E); [done|cbn; cbn in Ho1; by rewrite Ho1, Ho|done|done|done|done|].
    unfold set_obj. cbn [cw_obj cw_clock cw_servers]. rewrite E. exists p2, gw. split; [done|]. split; [cbn in *; congruence|]. split; [done|].
    unfold Consumer.joined, Consumer.locked. rewrite run_bind, run_trigger. done.
Qed.

(** ** Where a new member starts *)

Definition starts_at (s : MetadataState) (tp : TopicPartition) : Z :=
  let off := committed_in s gid tp in if off >? -1 then off else 0.

Lemma offsets_initialised c now servers n a sv :
  pool_ok (Consumer.co_pool c) -> reaches servers data_addr a (cp_opts (Consumer.co_pool c)) n sv -> Consumer.coordAddr c = a ->
  leads_groups sv = Ok (true, "") ->
  (forall tp, tp ∈ Consumer.assignedPartitions c ->
     Consumer.AutoOffsetReset config = Consumer.OffsetResetEarliest \/ -1 < committed_in (sv_meta sv) gid tp) ->
  NoDup (Consumer.assignedPartitions c) -> Consumer.soughtPartitions c = [] -> Consumer.fetchOffsets c = ∅ ->
  exists c', run chandle (Consumer.initFetchOffsets NewClient config) (wof c now servers) = (Ok tt, wof c' now servers) /\
    pool_ok (Consumer.co_pool c') /\ cp_opts (Consumer.co_pool c') = cp_opts (Consumer.co_pool c) /\
    ConsumerRun.membership c' = ConsumerRun.membership c /\ Consumer.coordAddr c' = a /\
    Consumer.co_meta c' = Consumer.co_meta c /\ Consumer.soughtPartitions c' = Consumer.assignedPartitions c /\
    forall tp, Consumer.fetchOffsets c' !! tp =
      if decide (tp ∈ Consumer.assignedPartitions c) then Some (starts_at (sv_meta sv) tp) else None.
Proof.
  intros Hp Hr Hc Hl Hs Hd Hsp Hfo. unfold Consumer.initFetchOffsets, Consumer.snapshot. rewrite run_bind, run_trigger.
  cbn [handle fst snd cw_obj]. rewrite Hc. change (set_obj (wof c now servers) c) with (wof c now servers).
  destruct (Z.eqb_spec (len (Consumer.assignedPartitions c)) 0) as [E0|E0].
  { exists c. split; [done|]. destruct (Consumer.assignedPartitions c); [|len_lia]. split_and!; try done.
    intros tp. by rewrite decide_False, Hfo, lookup_empty by (by intros ?%not_elem_of_nil). }
  rewrite run_call. destruct (run_connect a c now servers Hp) as (k & p & Hp' & Ho & Hk & Hko & E). rewrite E.
  unfold Consumer.remote. rewrite run_call, run_bind, run_trigger. cbn [handle group_rest cw_clock]. unfold ApiData.FetchCommittedOffsets.
  erewrite (group_ok servers k n sv now); [|by rewrite Hk, Hko|exact Hl|].
  2:{ cbn [ApiData.gc_FetchCommittedOffsets ApiData.GroupCoordinator]. unfold GroupCoord.FetchCommittedOffsets.
      rewrite run_call, run_trigger. cbn [run ghandle GroupSem.handle Lookup]. reflexivity. }
  rewrite set_group_same, insert_id by exact (rc_server _ _ _ _ _ _ Hr). cbn [run].
  change (fold_left _ _ _) with (ConsumerRun.committed_of (map_to_list (lookupGroupOffsets (sv_meta sv) gid (Consumer.assignedPartitions c)))).
  rewrite ConsumerRun.committed_of_map. set (m := lookupGroupOffsets _ _ _).
  assert (forall tp, tp ∈ Consumer.assignedPartitions c -> m !! tp = Some (committed_in (sv_meta sv) gid tp)) as Hm.
  { intros tp Htp. unfold m. by rewrite GroupRun.lookupGroupOffsets_spec, bool_decide_eq_true_2. }
  erewrite (ConsumerRun.run_seek_assigned (h := chandle)).
  2:{ intros tp Htp. destruct (Hs tp Htp) as [?|?]; [by left|right]. rewrite Hm by done. eauto. }
  destruct (ConsumerRun.seek_fresh (ConsumerRun.start m) (Consumer.assignedPartitions c) (Consumer.set_pool c p) Hd) as [H1 H2].
  { intros tp _. cbn. by rewrite Hfo, lookup_empty. }
  eexists. split; [reflexivity|]. cbn [obj cluster_world cw_obj].
  pose proof (ConsumerRun.seek_pool (fun tp => (tp, ConsumerRun.start m tp)) (Consumer.assignedPartitions c) (Consumer.set_pool c p)) as H3.
  pose proof (ConsumerRun.seek_membership (fun tp => (tp, ConsumerRun.start m tp)) (Consumer.assignedPartitions c) (Consumer.set_pool c p)) as H4.
  pose proof (ConsumerRun.seek_coord (fun tp => (tp, ConsumerRun.start m tp)) (Consumer.assignedPartitions c) (Consumer.set_pool c p)) as H5.
  pose proof (ConsumerRun.seek_meta (fun tp => (tp, ConsumerRun.start m tp)) (Consumer.assignedPartitions c) (Consumer.set_pool c p)) as H6.
  cbn [fst snd] in H3, H4, H5, H6. split; [by rewrite H3|]. split; [by rewrite H3|]. split; [exact H4|]. split; [by etrans|]. split; [exact H6|].
  split; [rewrite H1; cbn; by rewrite Hsp|]. intros tp. rewrite H2. destruct (decide (tp ∈ _)) as [Hin|]; [|cbn; by rewrite Hfo, lookup_empty].
  unfold ConsumerRun.start, starts_at. by rewrite Hm.
Qed.

(** ** The only member of a group *)

(** The consumer is in the group alone, at its current generation, and has a position in each
    partition it was given. *)
Record sole_member (sv : server) (c : Consumer.Consumer) (a : string) (opts : list DialOption) : Prop := {
  sm_pool : pool_ok (Consumer.co_pool c);
  sm_opts : cp_opts (Consumer.co_pool c) = opts;
  sm_coord : Consumer.coordAddr c = a;
  sm_id : Consumer.memberID c <> "";
  sm_heartbeat : is_Some (Consumer.stopHeartbeat c);
  sm_group : exists g ms, GroupStates (sv_meta sv) !! gid = Some g /\ Members g = {[ Consumer.memberID c := ms ]} /\
    GenerationID g = Consumer.generationID c /\ Assignments g !! Consumer.memberID c = Some (Consumer.soughtPartitions c)
}.

Lemma lone_assignment s topics id :
  GroupSem.groups_ok s ->
  RangeAssign.rangeAssign [id] topics (GroupRun.counts_of s topics ∅) !! id = Some (all_partitions s topics).
Proof.
  intros Hg. assert (RangeAssign.counts_ok (GroupRun.counts_of s topics ∅)) as Hc by (apply GroupRun.counts_of_ok; [done|apply GroupSem.counts_ok_empty]).
  destruct (RangeAssign.rangeAssign_lookup [id] topics _ (NoDup_singleton id) ltac:(done) Hc) as [_ H1]. by apply (H1 0%nat).
Qed.

Lemma all_partitions_NoDup s topics : GroupSem.groups_ok s -> NoDup topics -> NoDup (all_partitions s topics).
Proof.
  intros Hg Hd. apply RangeAssign.shares_NoDup; [|lia|lia|].
  - apply GroupRun.counts_of_ok; [done|apply GroupSem.counts_ok_empty].
  - unfold sort_strings. by rewrite merge_sort_Permutation.
Qed.

(** They are the partitions of these topics. *)
Lemma all_partitions_elem s topics tp :
  GroupSem.groups_ok s ->
  tp ∈ all_partitions s topics <->
  exists tm, tp_topic tp ∈ topics /\ Topics s !! tp_topic tp = Some tm /\ 0 <= tp_partition tp < Metadata.PartitionCount tm.
Proof.
  intros Hg. assert (RangeAssign.counts_ok (GroupRun.counts_of s topics ∅)) as Hc by (apply GroupRun.counts_of_ok; [done|apply GroupSem.counts_ok_empty]).
  unfold all_partitions. rewrite RangeAssign.shares_elem by (done || lia). rewrite RangeAssign.elem_of_sorted. cbv zeta.
  rewrite RangeAssign.start_0 by lia. rewrite (RangeAssign.start_n _ 1) by lia. split.
  - intros [Ht Hp]. rewrite GroupRun.count_of_topic in Hp by done. destruct (Topics s !! tp_topic tp) as [tm|] eqn:Et; [|lia]. by exists tm.
  - intros (tm & Ht & Etm & Hp). split; [done|]. by rewrite GroupRun.count_of_topic, Etm.
Qed.

Lemma joins_alone sv topics now :
  GroupSem.groups_ok (sv_meta sv) -> GroupSem.members_of (sv_meta sv) gid = ∅ ->
  let g := joins sv topics now "" in
  (exists ms, Members g = {[ uuid sv := ms ]}) /\ Assignments g !! uuid sv = Some (all_partitions (sv_meta sv) topics) /\
  Offsets g = Offsets (default (GroupRun.empty_group gid) (GroupStates (sv_meta sv) !! gid)) /\
  GroupSem.disjoint_assignment (Assignments g).
Proof.
  intros Hg Hm g. assert (GroupRun.others ord (sv_meta sv) gid (uuid sv) = []) as Ho.
  { apply Permutation_nil. unfold GroupRun.others. by rewrite ord_perm, Hm. }
  split_and!.
  - exists (GroupRun.new_member (uuid sv) (join_request "" topics) now). unfold g, joins, GroupRun.joined. cbn [Members].
    unfold GroupSem.members_of in Hm. change (GroupCoord.jq_GroupID (join_request "" topics)) with gid.
    destruct (GroupStates (sv_meta sv) !! gid) as [g0|]; [change (default _ (Some ?x)) with x; rewrite Hm|]; exact (insert_empty _ _).
  - unfold g, joins, GroupRun.joined. cbn [Assignments]. change (GroupRun.member_id (uuid sv) (join_request "" topics)) with (uuid sv).
    change (GroupCoord.jq_GroupID (join_request "" topics)) with gid. rewrite Ho. by apply lone_assignment.
  - done.
  - by apply (GroupRun.joined_cover (uuid sv) ord ord_perm (sv_meta sv) (join_request "" topics) now).
Qed.

Lemma committed_group s gid' g tp :
  committed_in (set_groupStates s (<[gid' := g]> (GroupStates s))) gid' tp = default (-1) (Offsets g !! tp).
Proof. unfold committed_in. cbn [set_groupStates GroupStates]. by rewrite lookup_insert_eq. Qed.

Lemma committed_default s g tp :
  Offsets g = Offsets (default (GroupRun.empty_group gid) (GroupStates s !! gid)) -> default (-1) (Offsets g !! tp) = committed_in s gid tp.
Proof. intros ->. unfold committed_in. by destruct (GroupStates s !! gid). Qed.

Lemma joinable_alone sv topics :
  session_ok -> (forall t, t ∈ topics -> is_Some (Topics (sv_meta sv) !! t)) -> GroupSem.members_of (sv_meta sv) gid = ∅ ->
  GroupRun.joinable (coordinator_config sv) (sv_meta sv) (join_request "" topics).
Proof.
  intros Hs Ht Hm. split; [|split; [exact Ht|]].
  - cbn. unfold session_ok, ApiData.defaultSessionTimeoutMs in *. destruct (Z.eqb_spec (Consumer.SessionTimeoutMs config) 0); lia.
  - intros id ms Hid. cbn in Hid. rewrite Hm in Hid. by rewrite lookup_empty in Hid.
Qed.

(** What the requests of a member leave: the cluster coordinated, and all but the groups as it was. *)
Definition kept (servers : gmap Z server) (opts : list DialOption) (n : Z) (a : string) (sv sv' : server) : Prop :=
  coordinated (<[n := sv']> servers) boot opts n a sv' /\ same_cluster sv sv'.

Lemma run_Subscribe topics c now servers n a sv :
  pool_ok (Consumer.co_pool c) -> coordinated servers boot (cp_opts (Consumer.co_pool c)) n a sv -> session_ok -> NoDup topics ->
  (forall t, t ∈ topics -> is_Some (Topics (sv_meta sv) !! t)) -> GroupSem.members_of (sv_meta sv) gid = ∅ ->
  Consumer.memberID c = "" -> Consumer.soughtPartitions c = [] -> Consumer.fetchOffsets c = ∅ ->
  (forall tp, tp ∈ all_partitions (sv_meta sv) topics ->
     Consumer.AutoOffsetReset config = Consumer.OffsetResetEarliest \/ -1 < committed_in (sv_meta sv) gid tp) ->
  exists c' sv', run chandle (Consumer.Subscribe NewClient config topics) (wof c now servers) =
      (Ok tt, wof c' now (<[n := sv']> servers)) /\
    kept servers (cp_opts (Consumer.co_pool c)) n a sv sv' /\ sole_member sv' c' a (cp_opts (Consumer.co_pool c)) /\
    Consumer.co_meta c' = Consumer.co_meta c /\ Consumer.rebalancing c' = Consumer.rebalancing c /\
    Consumer.soughtPartitions c' = all_partitions (sv_meta sv) topics /\
    forall tp, Consumer.fetchOffsets c' !! tp =
      if decide (tp ∈ all_partitions (sv_meta sv) topics) then Some (starts_at (sv_meta sv) tp) else None.
Proof.
  intros Hp Hc Hs Hd Ht Hm Hid Hsp Hfo Hst. pose proof Hc as [_ _ Hr Hl Hg]. unfold Consumer.Subscribe, Consumer.locked.
  rewrite run_bind, run_trigger. cbn [handle fst snd cw_obj]. rewrite (proj2 (String.eqb_neq gid "")) by done. rewrite run_call.
  set (c0 := Consumer.set_topics c topics). change (set_obj (wof c now servers) c0) with (wof c0 now servers).
  assert (Consumer.memberID c0 = "") as Hid0 by exact Hid.
  destruct (group_joined topics c0 now servers n a sv) as (p & gw & Hp' & Ho & Hgw & E); [done|done|by rewrite Hid0; apply joinable_alone|].
  rewrite E. clear E. destruct (joins_alone sv topics now Hg Hm) as ((ms & Hms) & Has & Hoff & Hdis).
  rewrite Hid0 in Hgw.
  assert (Consumer.assignedPartitions (joined_as sv topics now c0 p a) = all_partitions (sv_meta sv) topics) as Eas.
  { unfold joined_as. rewrite Hid0.
    change (default [] (Assignments (joins sv topics now "") !! uuid sv) = all_partitions (sv_meta sv) topics). by rewrite Has. }
  assert (coordinated (<[n := set_group sv gw]> servers) boot (cp_opts (Consumer.co_pool c)) n a (set_group sv gw)) as Hc'.
  { apply coordinated_step; [done|by rewrite Hgw|]. rewrite Hgw. by apply GroupSem.groups_ok_group. }
  assert (forall tp, committed_in (sv_meta (set_group sv gw)) gid tp = committed_in (sv_meta sv) gid tp) as Hcom.
  { intros tp. cbn [set_group sv_node]. cbn -[committed_in]. rewrite Hgw, committed_group. by apply committed_default. }
  destruct (offsets_initialised (joined_as sv topics now c0 p a) now (<[n := set_group sv gw]> servers) n a (set_group sv gw))
    as (c1 & E & Hp1 & Ho1 & Hm1 & Hco & Hme & Hs1 & Hf1).
  - done.
  - change (cp_opts _) with (cp_opts p). rewrite Ho. exact (cd_reaches _ _ _ _ _ _ Hc').
  - done.
  - exact (cd_leads _ _ _ _ _ _ Hc').
  - intros tp. rewrite Eas, Hcom. apply Hst.
  - rewrite Eas. by apply all_partitions_NoDup.
  - done.
  - done.
  - rewrite E. rewrite run_bind, run_trigger. cbn [handle fst snd cw_obj run]. do 2 eexists. split; [reflexivity|].
    rewrite Eas in *. unfold ConsumerRun.membership in Hm1. injection Hm1 as _ Hi1 Hg1 Hreb.
    split; [split; [exact Hc'|split; [by eexists|]; cbn; by rewrite Hgw]|]. split; [|split; [exact Hme|split; [exact Hreb|split; [exact Hs1|]]]].
    + rewrite Hid in Hi1.
      change (GroupRun.member_id _ _) with (uuid sv) in Hi1. constructor; cbn -[singletonM]; try done; [by rewrite Ho1|by rewrite Hi1|].
      rewrite Hgw. cbn -[singletonM]. rewrite lookup_insert_eq. exists (joins sv topics now ""), ms. by rewrite Hi1, Hg1, Hs1.
    + intros tp. cbn. rewrite Hf1. destruct (decide _); [|done]. unfold starts_at. by rewrite Hcom.
Qed.

(** ** Committing and leaving *)

(** The only member commits its positions. *)
Lemma run_Commit c now servers opts n a sv :
  coordinated servers boot opts n a sv -> sole_member sv c a opts ->
  exists c' sv', run chandle (Consumer.Commit NewClient config) (wof c now servers) = (Ok tt, wof c' now (<[n := sv']> servers)) /\
    kept servers opts n a sv sv' /\ sole_member sv' c' a opts /\
    forall tp, tp ∈ Consumer.soughtPartitions c -> committed_in (sv_meta sv') gid tp = default 0 (Consumer.fetchOffsets c !! tp).
Proof.
  intros Hc Hsm. pose proof Hc as [_ _ Hr Hl Hg]. pose proof Hsm as [Hp Ho Hco Hid Hhb (g & ms & Hgs & Hms & Hgen & Has)].
  unfold Consumer.Commit, Consumer.CommitOffsets, Consumer.snapshot. rewrite (proj2 (String.eqb_neq gid "")) by done.
  rewrite run_bind, run_trigger. cbn [handle fst snd cw_obj]. rewrite run_bind, run_trigger. cbn [handle].
  rewrite run_bind, run_trigger. cbn [handle fst snd set_obj cw_obj cw_clock cw_servers]. rewrite Hco. rewrite run_call.
  change (set_obj _ _) with (wof c now servers). destruct (run_connect a c now servers Hp) as (k & p & Hp' & Ho' & Hk & Hko & E). rewrite E.
  destruct (GroupRun.commit_update (sv_meta sv) gid (Consumer.positions c) g Hgs)
    as (s' & r & g' & Hu & Et & Ep & En & Ens & Hg' & Hm' & Hgen' & Has' & Hoff).
  unfold Consumer.remote. rewrite run_call, run_bind, run_trigger. cbn [handle group_rest cw_clock].
  unfold ApiData.CommitOffset. cbv zeta. erewrite (group_ok servers k n sv now); [|by rewrite Hk, Hko, Ho|exact Hl|].
  2:{ change (fold_left _ (map_to_list (Consumer.positions c)) _) with (ConsumerRun.committed_of (map_to_list (Consumer.positions c))).
      rewrite ConsumerRun.committed_of_map, <- Hgen. eapply GroupRun.run_CommitOffset; [exact Hgs| |exact Has| |exact Hu].
      - rewrite Hms. apply lookup_singleton_eq.
      - intros tp o. rewrite ConsumerRun.positions_lookup. by destruct (decide _). }
  cbn [run]. do 2 eexists. split; [reflexivity|]. split; [split|split].
  - apply coordinated_step; [done|exact En|]. eapply (GroupSem.update_groups_ok (sv_meta sv)); [done| |exact Hu]. done.
  - split; [by eexists|]. done.
  - constructor; try done; [cbn; by rewrite Ho'|]. exists g', ms. cbn -[singletonM]. by rewrite Hg', Hm', Hms, Hgen', Has'.
  - intros tp Htp. unfold committed_in. cbn. rewrite Hg'. cbn. rewrite Hoff, ConsumerRun.positions_lookup, decide_True by done. done.
Qed.

Lemma run_close_all conns (w : world Consumer.Consumer) : run chandle (close_all conns) w = ([], w).
Proof.
  revert w. induction conns as [|[x k] conns IH]; intros w; cbn [close_all]; [done|].
  rewrite run_bind, run_trigger. cbn [handle]. by rewrite run_bind, IH.
Qed.

(** Closing leaves the group, which keeps its offsets. *)
Lemma run_Close c now servers opts n a sv :
  coordinated servers boot opts n a sv -> sole_member sv c a opts ->
  exists c' sv', run chandle (Consumer.Close NewClient config) (wof c now servers) = ([], wof c' now (<[n := sv']> servers)) /\
    kept servers opts n a sv sv' /\ GroupSem.members_of (sv_meta sv') gid = ∅ /\
    forall tp, committed_in (sv_meta sv') gid tp = committed_in (sv_meta sv) gid tp.
Proof.
  intros Hc Hsm. pose proof Hc as [_ Hane Hr Hl Hg]. pose proof Hsm as [Hp Ho Hco Hid Hhb (g & ms & Hgs & Hms & Hgen & Has)].
  unfold Consumer.Close, Consumer.snapshot, Consumer.locked. rewrite run_bind, run_trigger. cbn [handle fst snd cw_obj].
  rewrite (proj2 (String.eqb_neq gid "")), bool_decide_eq_true_2 by done. cbn [negb andb].
  rewrite run_bind, run_bind, run_trigger. cbn [handle fst snd cw_obj]. rewrite run_bind, run_trigger. cbn [handle fst snd cw_obj set_obj].
  change (Consumer.coordAddr (Consumer.cancelHeartbeat c)) with (Consumer.coordAddr c).
  change (Consumer.memberID (Consumer.cancelHeartbeat c)) with (Consumer.memberID c).
  rewrite Hco, (proj2 (String.eqb_neq a "")), (proj2 (String.eqb_neq (Consumer.memberID c) "")) by done. cbn [negb andb].
  change (set_obj _ _) with (wof (Consumer.cancelHeartbeat c) now servers).
  rewrite run_bind. destruct (run_connect a (Consumer.cancelHeartbeat c) now servers Hp) as (k & p & Hp' & Ho' & Hk & Hko & E). rewrite E.
  rewrite run_bind, run_trigger. cbn [handle group_rest cw_clock]. unfold ApiData.LeaveGroup.
  erewrite (group_ok servers k n sv now); [|rewrite Hk, Hko; cbn; by rewrite Ho|exact Hl|].
  2:{ eapply GroupRun.run_LeaveGroup; [exact Hgs|]. rewrite Hms. apply lookup_singleton_eq. }
  unfold pool_Close. cbn [run]. rewrite run_bind, run_trigger. cbn [handle fst snd]. rewrite run_bind, run_trigger. cbn [handle].
  rewrite run_close_all. do 2 eexists. split; [reflexivity|]. set (g' := GroupRun.left_group _ _ _ _ _ _).
  assert (Members g' = ∅) as Hm' by (cbn -[singletonM]; rewrite Hms; apply delete_singleton_eq).
  assert (Assignments g' = ∅) as Has' by (cbn -[singletonM]; rewrite Hms, delete_singleton_eq; by rewrite bool_decide_eq_true_2).
  split; [split; [|split; [by eexists|done]]|split].
  - apply coordinated_step; [done|done|]. apply GroupSem.groups_ok_group; [done|]. rewrite Has'. apply GroupSem.disjoint_empty.
  - unfold GroupSem.members_of. cbn -[g']. by rewrite lookup_insert_eq.
  - intros tp. cbn -[committed_in g']. rewrite committed_group. unfold committed_in. by rewrite Hgs.
Qed.

End member.

Lemma all_partitions_topics s s' topics : Topics s' = Topics s -> all_partitions s' topics = all_partitions s topics.
Proof. intros E. unfold all_partitions, GroupRun.counts_of. by rewrite E. Qed.

Lemma new_member cc cc' C :
  Consumer.NewConsumer cc = Ok (cc', C) ->
  pool_ok (Consumer.co_pool C) /\ cp_opts (Consumer.co_pool C) = [KeepaliveParams 30000000000 10000000000] ++ Producer.dialOptions (Producer.defaultConfig (Consumer.cc_Config cc)) /\
  Consumer.memberID C = "" /\ Consumer.soughtPartitions C = [] /\ Consumer.fetchOffsets C = ∅ /\
  Consumer.GroupID cc' = Consumer.GroupID cc /\ Consumer.cc_Config cc' = Producer.defaultConfig (Consumer.cc_Config cc) /\
  Consumer.AutoOffsetReset cc' = Consumer.AutoOffsetReset cc /\ Consumer.SessionTimeoutMs cc' = Consumer.SessionTimeoutMs cc /\
  Consumer.co_meta C = NewMetaCache (60 * 10 ^ 9) /\ Consumer.rebalancing C = false.
Proof.
  unfold Consumer.NewConsumer. destruct (len _ =? 0); [done|]. intros [= <- <-]. split; [apply NewConnPool_ok|]. done.
Qed.

(** Commit and close, as an application ends. *)
Definition finish (config : Consumer.ConsumerConfig) : Consumer.cprog (outcome unit) :=
  r ← Consumer.Commit NewClient config; _ ← Consumer.Close NewClient config; Ret r.

Lemma run_finish config boot addrs c now servers opts n a sv :
  BootstrapServers (Consumer.cc_Config config) = boot :: addrs -> Consumer.GroupID config <> "" ->
  coordinated servers boot opts n a sv -> sole_member config sv c a opts ->
  exists c' sv', run chandle (finish config) (wof c now servers) = (Ok tt, wof c' now (<[n := sv']> servers)) /\
    kept boot servers opts n a sv sv' /\ GroupSem.members_of (sv_meta sv') (Consumer.GroupID config) = ∅ /\
    forall tp, tp ∈ Consumer.soughtPartitions c ->
      committed_in (sv_meta sv') (Consumer.GroupID config) tp = default 0 (Consumer.fetchOffsets c !! tp).
Proof.
  intros Hb Hg Hc Hsm. destruct (run_Commit config boot Hg c now servers opts n a sv Hc Hsm) as (c1 & sv1 & E1 & [Hc1 Et1] & Hsm1 & Hcom).
  destruct (run_Close config boot Hg c1 now (<[n := sv1]> servers) opts n a sv1 Hc1 Hsm1) as (c2 & sv2 & E2 & [Hc2 Et2] & Hm & Hcom2).
  exists c2, sv2. unfold finish. rewrite run_bind, E1, run_bind, E2. cbn [run]. rewrite !insert_insert_eq in *. split; [done|].
  split; [split; [done|by etrans]|]. split; [done|]. intros tp Htp. by rewrite Hcom2, Hcom.
Qed.

(** A new consumer subscribes in a group without members. *)
Lemma subscribe_new cc cc' C boot addrs topics now servers n a sv :
  Consumer.NewConsumer cc = Ok (cc', C) -> BootstrapServers (Consumer.cc_Config cc) = boot :: addrs -> Consumer.GroupID cc <> "" ->
  session_ok cc -> coordinated servers boot (cp_opts (Consumer.co_pool C)) n a sv ->
  NoDup topics -> (forall t, t ∈ topics -> is_Some (Topics (sv_meta sv) !! t)) ->
  GroupSem.members_of (sv_meta sv) (Consumer.GroupID cc) = ∅ ->
  (forall tp, tp ∈ all_partitions (sv_meta sv) topics ->
     Consumer.AutoOffsetReset cc = Consumer.OffsetResetEarliest \/ -1 < committed_in (sv_meta sv) (Consumer.GroupID cc) tp) ->
  exists c sv', run chandle (Consumer.Subscribe NewClient cc' topics) (wof C now servers) = (Ok tt, wof c now (<[n := sv']> servers)) /\
    kept boot servers (cp_opts (Consumer.co_pool C)) n a sv sv' /\ sole_member cc' sv' c a (cp_opts (Consumer.co_pool C)) /\
    Consumer.co_meta c = NewMetaCache (60 * 10 ^ 9) /\ Consumer.rebalancing c = false /\
    Consumer.soughtPartitions c = all_partitions (sv_meta sv) topics /\
    forall tp, tp ∈ all_partitions (sv_meta sv) topics -> Consumer.fetchOffsets c !! tp = Some (starts_at cc (sv_meta sv) tp).
Proof.
  intros HC Hb Hg Hs Hc Hd Ht Hm Hst. destruct (new_member _ _ _ HC) as (Hp & Ho & Hi & Hsp & Hf & Egid & Ec & Er & Es & Eme & Ereb).
  destruct (run_Subscribe cc' boot addrs ltac:(by rewrite Ec) ltac:(by rewrite Egid) topics C now servers n a sv)
    as (c & sv' & E & Hk & Hsm & Hme & Hreb & Hsp' & Hf'); try done.
  { unfold session_ok. by rewrite Es. }
  { by rewrite Egid. }
  { rewrite Er, Egid. exact Hst. }
  exists c, sv'. split; [exact E|]. split; [exact Hk|]. split; [exact Hsm|]. split; [congruence|]. split; [congruence|]. split; [done|].
  intros tp Htp. rewrite Hf', decide_True by done. unfold starts_at. by rewrite Egid.
Qed.

(** C13: A group hands over. On a cluster whose metadata leader the clients can find, directly or
    by one redirection, a new consumer that subscribes in a group without members is given every
    partition of the topics and starts each at the group's committed offset, or by the policy;
    wherever its polls have taken it, when it commits and closes, the next consumer that
    subscribes in the group is given every partition and starts exactly at these positions. The
    requests go through the API server, the group coordinator and the metadata state machine. *)
Theorem group_handover ccA ccA' A ccB ccB' B boot addrs topics now servers n a sv :
  Consumer.NewConsumer ccA = Ok (ccA', A) -> Consumer.NewConsumer ccB = Ok (ccB', B) ->
  Consumer.cc_Config ccB = Consumer.cc_Config ccA -> Consumer.GroupID ccB = Consumer.GroupID ccA -> Consumer.GroupID ccA <> "" ->
  BootstrapServers (Consumer.cc_Config ccA) = boot :: addrs -> session_ok ccA -> session_ok ccB ->
  coordinated servers boot (cp_opts (Consumer.co_pool A)) n a sv ->
  NoDup topics -> (forall t, t ∈ topics -> is_Some (Topics (sv_meta sv) !! t)) ->
  GroupSem.members_of (sv_meta sv) (Consumer.GroupID ccA) = ∅ ->
  (forall tp, tp ∈ all_partitions (sv_meta sv) topics ->
     Consumer.AutoOffsetReset ccA = Consumer.OffsetResetEarliest \/ -1 < committed_in (sv_meta sv) (Consumer.GroupID ccA) tp) ->
  let all := all_partitions (sv_meta sv) topics in
  exists cA servers1,
    run chandle (Consumer.Subscribe NewClient ccA' topics) (wof A now servers) = (Ok tt, wof cA now servers1) /\
    Consumer.soughtPartitions cA = all /\
    (forall tp, tp ∈ all -> Consumer.fetchOffsets cA !! tp = Some (starts_at ccA (sv_meta sv) tp)) /\
    forall pos now1 now2, (forall tp, tp ∈ all -> exists off, pos !! tp = Some off /\ 0 <= off) ->
    exists cA' servers2 cB servers3,
      run chandle (finish ccA') (wof (Consumer.set_positions cA pos all) now1 servers1) = (Ok tt, wof cA' now1 servers2) /\
      run chandle (Consumer.Subscribe NewClient ccB' topics) (wof B now2 servers2) = (Ok tt, wof cB now2 servers3) /\
      Consumer.soughtPartitions cB = all /\ forall tp, tp ∈ all -> Consumer.fetchOffsets cB !! tp = pos !! tp.
Proof.
  intros HA HB Hcc Hgid Hg Hb HsA HsB Hc Hd Ht Hm Hst all.
  destruct (subscribe_new ccA ccA' A boot addrs topics now servers n a sv)
    as (cA & sv1 & E1 & [Hc1 Hk1] & Hsm1 & _ & _ & Hsp1 & Hf1); try done.
  exists cA, (<[n := sv1]> servers). split; [exact E1|]. split; [exact Hsp1|]. split; [exact Hf1|]. intros pos now1 now2 Hpos.
  destruct (new_member _ _ _ HA) as (_ & HoA & _ & _ & _ & HgA & HcA & _). destruct (new_member _ _ _ HB) as (_ & HoB & _).
  destruct (run_finish ccA' boot addrs (Consumer.set_positions cA pos all) now1 (<[n := sv1]> servers) (cp_opts (Consumer.co_pool A)) n a sv1)
    as (cA' & sv2 & E2 & [Hc2 Hk2] & Hm2 & Hcom2); [by rewrite HcA|by rewrite HgA|done| |].
  { destruct Hsm1 as [H1 H2 H3 H4 H5 H6]. rewrite Hsp1 in H6. by constructor. }
  destruct (transitivity Hk1 Hk2) as (_ & Et2 & _). pose proof (all_partitions_topics _ _ topics Et2) as Eall. fold all in Eall.
  rewrite HgA in Hm2, Hcom2.
  assert (forall tp off, pos !! tp = Some off -> tp ∈ all -> committed_in (sv_meta sv2) (Consumer.GroupID ccA) tp = off) as Hcom.
  { intros tp off E Htp. rewrite Hcom2 by done. change (default 0 (pos !! tp) = off). by rewrite E. }
  destruct (subscribe_new ccB ccB' B boot addrs topics now2 (<[n := sv2]> (<[n := sv1]> servers)) n a sv2)
    as (cB & sv3 & E3 & _ & _ & _ & _ & Hsp3 & Hf3); try done.
  { by rewrite Hcc. }
  { by rewrite Hgid. }
  { by rewrite HoB, Hcc, <- HoA. }
  { intros t Htt. rewrite Et2. by apply Ht. }
  { by rewrite Hgid. }
  { intros tp Htp. rewrite Eall in Htp. right. destruct (Hpos tp Htp) as (off & E & Hoff). rewrite Hgid, (Hcom tp off) by done. lia. }
  rewrite Eall in Hsp3, Hf3. eexists cA', _, cB, _. split; [exact E2|]. split; [exact E3|]. split; [exact Hsp3|]. intros tp Htp.
  destruct (Hpos tp Htp) as (off & E & Hoff). rewrite Hf3, E by done. unfold starts_at.
  rewrite Hgid, (Hcom tp off) by done. by rewrite (proj2 (Z.gtb_lt _ _)) by lia.
Qed.

End members.

End ClientGroup.
