(* ===== verification/GroupServe.v ===== *)
(** * A group reads a partition once

    Consumer groups (ClientGroup.v) over partitions that are served (ClientServe.v): what one
    member has polled and committed is not polled again by the next, and nothing is left out. *)

From S2P Require Import Prelude SegName BatchLog Keys Metadata MetadataInv RangeAssign Prog Segment Storage Partition GroupCoord GroupSem GroupRun DataCoord ClusterCoord ApiData DataRun ClusterRun Config ClientCodec ClientNet ClientWorld Producer Consumer ConsumerRun Auth ClientRun ClientServe ClientGroup.
Local Open Scope Z_scope.

Module GroupServe.
Import Keys BatchLog Seg ClusterCoord ClientNet ClientWorld ClientCodec ClientRun ClientServe ClientGroup.

(** Group requests do not touch what a partition is served from. *)

Lemma describes_kept sv sv' topic id m a : same_cluster sv sv' -> describes sv topic id m a -> describes sv' topic id m a.
Proof.
  intros (_ & Et & Ep & En & Es) [Hok Hn Hl Ha]. constructor; rewrite ?Ep, ?En; try done.
  - destruct Hok. constructor; rewrite ?Et, ?Ep, ?Es; done.
  - unfold DataRun.nodes_ok in *. by rewrite En.
Qed.

Lemma reaches_kept servers addrs addr opts m svm n sv sv' :
  servers !! n = Some sv -> same_cluster sv sv' -> reaches servers addrs addr opts m svm ->
  exists svm', reaches (<[n := sv']> servers) addrs addr opts m svm' /\ (svm' = svm \/ m = n /\ svm = sv /\ svm' = sv').
Proof.
  intros Hn ((gw & ->) & _) Hr. eexists. split; [by apply reaches_insert|]. destruct (decide (m = n)) as [->|]; [right|by left].
  pose proof (rc_server _ _ _ _ _ _ Hr). assert (svm = sv) as -> by congruence. done.
Qed.

Lemma leads_kept sv sv' topic id shard p :
  same_cluster sv sv' -> DataRun.leads (Config.dataConfig (sv_config sv)) (ClusterRun.c_node (sv_node sv)) topic id shard p ->
  DataRun.leads (Config.dataConfig (sv_config sv')) (ClusterRun.c_node (sv_node sv')) topic id shard p.
Proof.
  intros ((gw & ->) & _ & Ep & _) [Hm Hr Hs]. constructor; [|exact Hr|exact Hs]. rewrite Ep. exact Hm.
Qed.

Lemma serving_kept mgmt_addr data_addr servers boot opts topic t id m a off l n sv sv' :
  servers !! n = Some sv -> same_cluster sv sv' ->
  serving mgmt_addr data_addr servers boot opts topic t id m a off l ->
  serving mgmt_addr data_addr (<[n := sv']> servers) boot opts topic t id m a off l.
Proof.
  intros Hn Hk [(b & svb & Hrb & Hd & Ht) Ha (svl & shard & p & Hrl & Hl & Hcfg & Hp)]. constructor; [|done|].
  - destruct (reaches_kept _ _ _ _ _ _ _ _ _ Hn Hk Hrb) as (svb' & Hrb' & [->|(_ & -> & ->)]); exists b; eexists; (split; [exact Hrb'|]); [done|].
    split; [by eapply describes_kept|]. destruct Hk as (_ & -> & _). done.
  - destruct (reaches_kept _ _ _ _ _ _ _ _ _ Hn Hk Hrl) as (svl' & Hrl' & [->|(_ & -> & ->)]); [by exists svl, shard, p|].
    exists sv', shard, p. split; [exact Hrl'|]. split; [by eapply leads_kept|]. destruct Hk as ((gw & ->) & _). done.
Qed.

(** The one partition of a topic. *)
Lemma all_partitions_one s topic t :
  Metadata.Topics s !! topic = Some t -> Metadata.PartitionCount t = 1 -> all_partitions s [topic] = [TP topic 0].
Proof.
  intros Ht H1. unfold all_partitions. change (sort_strings [topic]) with [topic]. unfold RangeAssign.shares. cbn [mbind list_bind].
  rewrite GroupRun.count_of_topic by (by left). by rewrite Ht, H1.
Qed.

Section handover.
Context `{Float64}.
Variables (mgmt_addr data_addr : gmap string Z).
Variable unmarshal : list byte -> option (Z * Z).
Variable fuel : nat.
Variable uuid : server -> string.
Hypothesis uuid_drawn : forall sv, uuid sv <> "".
Variable ord : list string -> list string.
Hypothesis ord_perm : forall l, ord l ≡ₚ l.
Variable NewClient : string -> option error.
Hypothesis NewClient_ok : forall addr, NewClient addr = None.
Abbreviation chandle := (handle mgmt_addr data_addr unmarshal (Datatypes.S fuel) (group_rest (S := Consumer.Consumer) uuid ord data_addr)).
Abbreviation wof c now servers := {| cw_obj := c; cw_clock := now; cw_servers := servers |}.

Lemma sole_member_moved config sv c c' a opts :
  sole_member config sv c a opts -> moved c c' -> pool_ok (Consumer.co_pool c') -> cp_opts (Consumer.co_pool c') = opts ->
  sole_member config sv c' a opts.
Proof. intros [H1 H2 H3 H4 H5 H6] (p & m & o & ->) Hp Ho. by constructor. Qed.

(** Subscribe, poll once, commit and close. *)
Definition one_round (config : Consumer.ConsumerConfig) (topics : list string) (maxWaitMs : Z)
  : Consumer.cprog (outcome (list Consumer.ConsumerRecord)) :=
  call (Consumer.Subscribe NewClient config topics) id (fun _ =>
  call (Consumer.Poll NewClient config 1 maxWaitMs) id (fun records =>
  call (finish NewClient config) id (fun _ => Ret (Ok records)))).

(** Subscribe and go on polling. *)
Definition drain (config : Consumer.ConsumerConfig) (topics : list string) (k : nat) (maxWaitMs : Z)
  : Consumer.cprog (outcome (list Consumer.ConsumerRecord)) :=
  call (Consumer.Subscribe NewClient config topics) id (fun _ => poll_times NewClient config k maxWaitMs).

Lemma run_one_round cc cc' C boot addrs topic t now servers n a sv m b off pre l rss maxWaitMs :
  Consumer.NewConsumer cc = Ok (cc', C) -> BootstrapServers (Consumer.cc_Config cc) = boot :: addrs -> Consumer.GroupID cc <> "" ->
  session_ok cc -> wait_ok maxWaitMs -> coordinated mgmt_addr data_addr servers boot (cp_opts (Consumer.co_pool C)) n a sv ->
  GroupSem.members_of (sv_meta sv) (Consumer.GroupID cc) = ∅ ->
  Metadata.Topics (sv_meta sv) !! topic = Some t -> Metadata.PartitionCount t = 1 ->
  serving mgmt_addr data_addr servers boot (cp_opts (Consumer.co_pool C)) topic t 0 m b off (pre ++ l) -> l <> [] -> stored_run (end_off off pre) rss l ->
  Consumer.AutoOffsetReset cc = Consumer.OffsetResetEarliest \/ -1 < committed_in (sv_meta sv) (Consumer.GroupID cc) (TP topic 0) ->
  starts_at cc (sv_meta sv) (TP topic 0) = end_off off pre ->
  exists r1 r2 s1 s2 c' sv', rss = r1 ++ r2 /\ l = s1 ++ s2 /\ s1 <> [] /\ stored_run (end_off off (pre ++ s1)) r2 s2 /\
    end_off off (pre ++ s1) = end_off off pre + len (concat r1) /\
    run chandle (one_round cc' [topic] maxWaitMs) (wof C now servers) =
      (Ok (Consumer.toRecord (TP topic 0) <$> numbered (end_off off pre) r1), wof c' now (<[n := sv']> servers)) /\
    kept mgmt_addr data_addr boot servers (cp_opts (Consumer.co_pool C)) n a sv sv' /\
    GroupSem.members_of (sv_meta sv') (Consumer.GroupID cc) = ∅ /\
    committed_in (sv_meta sv') (Consumer.GroupID cc) (TP topic 0) = end_off off (pre ++ s1).
Proof.
  intros HC Hb Hg Hss Hw Hc Hm Ht H1 Hs Hne Hrun Hst Hoff. pose proof (all_partitions_one _ _ _ Ht H1) as Eall.
  destruct (new_member _ _ _ HC) as (_ & _ & _ & _ & _ & Egid & Ecc & _). destruct (new_consumer_ready cc cc' C now topic 0 b HC) as (_ & _ & _ & _ & Hmf & _).
  destruct (subscribe_new mgmt_addr data_addr unmarshal (Datatypes.S fuel) uuid uuid_drawn ord ord_perm NewClient NewClient_ok
    cc cc' C boot addrs [topic] now servers n a sv) as (c1 & sv1 & E1 & [Hc1 Hk1] & Hsm1 & Hme & Hreb & Hsp1 & Hf1); try done.
  { apply NoDup_singleton. } { intros t' ->%list_elem_of_singleton. by eexists. } { rewrite Eall. by intros tp ->%list_elem_of_singleton. }
  rewrite Eall in Hsp1, Hf1. specialize (Hf1 (TP topic 0) ltac:(by left)). rewrite Hoff in Hf1.
  pose proof (rc_server _ _ _ _ _ _ (cd_reaches _ _ _ _ _ _ _ _ Hc)) as Hn. pose proof Hsm1 as [Hp1 Ho1 _ _ _ _].
  destruct (run_Poll_one mgmt_addr data_addr unmarshal fuel (group_rest uuid ord data_addr) NewClient cc' 1 boot addrs topic t 0 m b off pre rss l
    maxWaitMs (wof c1 now (<[n := sv1]> servers))) as (r1 & r2 & s1 & s2 & w2 & Er & El & Hne1 & Hrun2 & Ee & E2 & Hsv & Hck & Hop & Hrd & Hpos & Hmv); try done.
  { right. split; [lia|done]. } { by rewrite Ecc. }
  { change (cp_opts (pool _)) with (cp_opts (Consumer.co_pool c1)). rewrite Ho1. by eapply serving_kept. }
  { constructor; cbn; [right; rewrite Hme; apply lookup_empty|done|by rewrite Hme]. }
  destruct w2 as [c2 now2 servers2]. cbn [cw_obj cw_servers cw_clock] in *. subst now2 servers2.
  destruct (run_finish mgmt_addr data_addr unmarshal (Datatypes.S fuel) uuid ord NewClient NewClient_ok
    cc' boot addrs c2 now (<[n := sv1]> servers) (cp_opts (Consumer.co_pool C)) n a sv1) as (c3 & sv3 & E3 & [Hc3 Hk3] & Hm3 & Hcom); try done.
  { by rewrite Ecc. } { by rewrite Egid. }
  { eapply sole_member_moved; [done|done|exact (rd_pool _ _ _ _ _ Hrd)|]. by etrans. }
  rewrite Egid in Hm3, Hcom. rewrite insert_insert_eq in *. exists r1, r2, s1, s2, c3, sv3. do 5 (split; [done|]). split.
  - unfold one_round. by rewrite run_call, E1, run_call, E2, run_call, E3.
  - destruct Hpos as [Hsp2 Hf2]. split; [split; [done|by etrans]|]. split; [done|]. rewrite Hcom, Hf2 by (rewrite Hsp2; by left). done.
Qed.

(** C10: A group reads a partition once. On a cluster that coordinates groups and serves the one
    partition of a topic, whose log has dropped a beginning or not, the position of a group without
    members is the beginning of some batch of the log: what the group committed last, or offset 0
    under the policy EARLIEST if it has committed nothing. A consumer of the group subscribes,
    polls, commits and closes; a second one subscribes and polls. Together they are given every
    record from that position to the end of the log exactly once and in order: the second starts
    with the record after the first's last. *)
Theorem group_reads_once ccA ccA' A ccB ccB' B boot addrs topic t now now' servers n a sv m b off pre l rss maxWaitMs :
  Consumer.NewConsumer ccA = Ok (ccA', A) -> Consumer.NewConsumer ccB = Ok (ccB', B) ->
  Consumer.cc_Config ccB = Consumer.cc_Config ccA -> Consumer.GroupID ccB = Consumer.GroupID ccA -> Consumer.GroupID ccA <> "" ->
  BootstrapServers (Consumer.cc_Config ccA) = boot :: addrs -> session_ok ccA -> session_ok ccB -> wait_ok maxWaitMs ->
  coordinated mgmt_addr data_addr servers boot (cp_opts (Consumer.co_pool A)) n a sv ->
  GroupSem.members_of (sv_meta sv) (Consumer.GroupID ccA) = ∅ ->
  Metadata.Topics (sv_meta sv) !! topic = Some t -> Metadata.PartitionCount t = 1 ->
  serving mgmt_addr data_addr servers boot (cp_opts (Consumer.co_pool A)) topic t 0 m b off (pre ++ l) -> l <> [] -> stored_run (end_off off pre) rss l ->
  Consumer.AutoOffsetReset ccA = Consumer.OffsetResetEarliest \/ -1 < committed_in (sv_meta sv) (Consumer.GroupID ccA) (TP topic 0) ->
  starts_at ccA (sv_meta sv) (TP topic 0) = end_off off pre ->
  exists k recsA recsB cA servers' w',
    run chandle (one_round ccA' [topic] maxWaitMs) (wof A now servers) = (Ok recsA, wof cA now servers') /\
    run chandle (drain ccB' [topic] k maxWaitMs) (wof B now' servers') = (Ok recsB, w') /\
    recsA ++ recsB = Consumer.toRecord (TP topic 0) <$> numbered (end_off off pre) rss /\ recsA <> [].
Proof.
  intros HA HB Hcc Hgid Hg Hb HsA HsB Hw Hc Hm Ht H1 Hs Hne Hrun Hst Hoff.
  destruct (run_one_round ccA ccA' A boot addrs topic t now servers n a sv m b off pre l rss maxWaitMs)
    as (r1 & r2 & s1 & s2 & cA & sv1 & -> & -> & Hne1 & Hrun2 & Ee & E1 & [Hc1 Hk1] & Hm1 & Hcom1); try done.
  destruct (new_member _ _ _ HA) as (_ & HoA & _). destruct (new_member _ _ _ HB) as (_ & HoB & _ & _ & _ & HgB & HcB & _).
  destruct (new_consumer_ready ccB ccB' B now' topic 0 b HB) as (_ & _ & _ & _ & Hmf & _).
  assert (cp_opts (Consumer.co_pool B) = cp_opts (Consumer.co_pool A)) as Eo by (by rewrite HoB, Hcc, <- HoA).
  pose proof (rc_server _ _ _ _ _ _ (cd_reaches _ _ _ _ _ _ _ _ Hc)) as Hn. pose proof Hk1 as (_ & Et1 & _).
  assert (Metadata.Topics (sv_meta sv1) !! topic = Some t) as Ht1 by (by rewrite Et1). pose proof (all_partitions_one _ _ _ Ht1 H1) as Eall.
  assert (0 <= end_off off pre < end_off off (pre ++ s1)) as H0.
  { pose proof Hs as [_ _ (svl & shard & p & _ & _ & _ & [(st & _ & Hrep) _])].
    pose proof (Storage.represents_log _ _ _ _ Hrep) as (Hch & _ & _ & H0 & _). pose proof (end_off_mono off pre). split; [lia|].
    rewrite end_off_app. apply chain_app in Hch as [_ Hch]. apply chain_app in Hch as [Hch _]. by apply Storage.chain_nonempty. }
  destruct (subscribe_new mgmt_addr data_addr unmarshal (Datatypes.S fuel) uuid uuid_drawn ord ord_perm NewClient NewClient_ok
    ccB ccB' B boot addrs [topic] now' (<[n := sv1]> servers) n a sv1) as (c1 & sv2 & E2 & [Hc2 Hk2] & Hsm2 & Hme & Hreb & Hsp2 & Hf2); try done.
  { by rewrite Hcc. } { by rewrite Hgid. } { by rewrite Eo. } { apply NoDup_singleton. }
  { intros t' ->%list_elem_of_singleton. by eexists. } { by rewrite Hgid. }
  { rewrite Eall, Hgid. intros tp ->%list_elem_of_singleton. right. lia. }
  rewrite Eall in Hsp2, Hf2. specialize (Hf2 (TP topic 0) ltac:(by left)). pose proof Hsm2 as [Hp2 Ho2 _ _ _ _].
  assert (starts_at ccB (sv_meta sv1) (TP topic 0) = end_off off (pre ++ s1)) as Est.
  { unfold starts_at. by rewrite Hgid, Hcom1, (proj2 (Z.gtb_lt _ _)) by lia. }
  destruct (run_poll_times mgmt_addr data_addr unmarshal fuel (group_rest uuid ord data_addr) NewClient ccB' boot addrs topic t 0 m b off s2 r2 (pre ++ s1)
    maxWaitMs (wof c1 now' (<[n := sv2]> (<[n := sv1]> servers)))) as (k & w' & Hk & E3 & _); try done.
  { right. split; [lia|done]. } { by rewrite HcB, Hcc. }
  { change (cp_opts (pool _)) with (cp_opts (Consumer.co_pool c1)). rewrite Ho2, Eo, <- app_assoc. eapply serving_kept; [apply lookup_insert_eq|done|]. by eapply serving_kept. }
  { constructor; cbn; [right; rewrite Hme; apply lookup_empty|done|by rewrite Hme]. }
  { split; [done|]. cbn. by rewrite Hf2, Est. }
  eexists k, _, _, cA, _, w'. split; [exact E1|]. split; [unfold drain; rewrite run_call, E2; exact E3|].
  rewrite numbered_app, fmap_app, <- Ee. split; [done|].
  intros En. apply (f_equal len) in En. unfold len in En. rewrite length_fmap in En. fold (len (numbered (end_off off pre) r1)) in En. rewrite len_numbered in En. cbn in En. lia.
Qed.

End handover.
End GroupServe.
