(* ===== verification/AdminRun.v ===== *)
(** * The admin client and the brokers

    The calls of Admin.v on the cluster of ClientRun.v. [admin_errors_untyped]: no call returns the
    typed errors its documentation promises. [new_topic_usable] composes the whole system: a
    topic that an admin client creates is served once the broker's goroutines have run, and what
    a producer then sends to it a consumer polls. *)

From S2P Require Import Prelude Batch LogSegment BatchLog Keys Metadata MetadataInv Prog Segment Storage StorageExamples Partition GroupCoord DataCoord ClusterCoord ApiData DataRun ClusterRun ClusterServe ApiMgmt ClientCodec Config ClientNet ClientWorld Producer Consumer Auth Admin ClientRun ClientServe.
Local Open Scope Z_scope.

Module AdminRun.
Import Keys BatchLog Seg ClusterCoord ClientNet ClientWorld ClientCodec ClientRun ClientServe.

Section admin.
Context `{Float64}.
Variables (mgmt_addr data_addr : gmap string Z).
Variable unmarshal : list byte -> option (Z * Z).
Variable fuel : nat.
Variable rest : forall X, netE Admin.AdminClient X -> world Admin.AdminClient -> X * world Admin.AdminClient.
Variable NewClient : string -> option error.
Variable config : ClientNet.Config.
Abbreviation ahandle := (handle mgmt_addr data_addr unmarshal fuel rest).

(** The bootstrap server of the client [a] is broker [n]. *)
Record admin_reaches (a : Admin.AdminClient) (servers : gmap Z server) (n : Z) (sv : server) : Prop := {
  ar_pool : pool_ok (Admin.ac_pool a);
  ar_dial : NewClient (Admin.ac_addr a) = None;
  ar_broker : reaches servers mgmt_addr (Admin.ac_addr a) (cp_opts (Admin.ac_pool a)) n sv
}.

Lemma run_admin_conn (w : world Admin.AdminClient) :
  pool_ok (Admin.ac_pool (cw_obj w)) -> NewClient (Admin.ac_addr (cw_obj w)) = None ->
  exists c s', run ahandle (pool_Get NewClient (Admin.ac_addr (cw_obj w))) w = (Ok c, set_obj w s') /\
    cn_addr c = Admin.ac_addr (cw_obj w) /\ cn_opts c = cp_opts (Admin.ac_pool (cw_obj w)).
Proof.
  intros [[m Hm] Hc] Hn. unfold pool_Get. rewrite run_bind, run_trigger. cbn [handle fst snd].
  destruct (pool_find (pool (cw_obj w)) (Admin.ac_addr (cw_obj w))) as [c|] eqn:Ef.
  - destruct (Hc _ _ Ef). exists c, (cw_obj w). done.
  - rewrite run_trigger. cbn [handle]. change (cw_obj (set_obj w (cw_obj w))) with (cw_obj w).
    unfold pool_find in Ef. cbn [pool Admin.AdminClient_pool] in Ef. rewrite Hm in Ef.
    unfold dial. cbn [pool with_pool Admin.AdminClient_pool]. rewrite Hm, Ef, Hn. cbn [fst snd]. by eexists _, _.
Qed.

(** A request that is answered, and not to be tried again, is made once. *)
Lemma run_withRetry {A} (fn : conn -> netE Admin.AdminClient (rpc A)) w n sv r sv' :
  admin_reaches (cw_obj w) (cw_servers w) n sv ->
  (forall c w0, cn_addr c = Admin.ac_addr (cw_obj w) -> cn_opts c = cp_opts (Admin.ac_pool (cw_obj w)) ->
     cw_servers w0 = cw_servers w -> ahandle _ (fn c) w0 = (r, set_server w0 n sv')) ->
  (forall e, r = inl e -> is_Some (Admin.settled e)) ->
  exists a', run ahandle (Admin.withRetry NewClient config fn) w =
    (match r with inr a => Ok a | inl e => Err (default e (Admin.settled e)) end, set_server (set_obj w a') n sv').
Proof.
  intros [Hp Hd Hr] Hfn Hse. unfold Admin.withRetry. rewrite run_bind, run_trigger. cbn [handle fst snd].
  assert (set_obj w (cw_obj w) = w) as -> by (by destruct w). rewrite run_call.
  destruct (run_admin_conn w Hp Hd) as (c & a' & -> & Ha & Ho). exists a'. cbn [Admin.retry_loop].
  rewrite run_bind, run_trigger, Hfn by done. destruct r as [e|a]; [|done].
  destruct (Hse e eq_refl) as [e' ->]. done.
Qed.

(** A management call at broker [n]. *)
Lemma run_mgmt {A B} (p : CoordinatorConfig -> prog clusterE (ApiMgmt.reply A)) (k : A -> B) c (w0 : world Admin.AdminClient) n sv r nd :
  reaches (cw_servers w0) mgmt_addr (cn_addr c) (cn_opts c) n sv ->
  run (ClusterRun.handle (Config.Storage (sv_config sv)) unmarshal (Config.clusterConfig (sv_config sv)) (sv_leader sv))
    (p (Config.clusterConfig (sv_config sv))) (sv_node sv) = (r, nd) ->
  at_server mgmt_addr c (mgmt_call unmarshal p k) w0 =
    (match mgmt_reply r with inl e => inl e | inr a => inr (k a) end, set_server w0 n (set_sv_node sv nd)).
Proof. intros Hr E. rewrite (at_server_reaches _ _ _ _ _ _ Hr). unfold mgmt_call. by rewrite E. Qed.

(** The status every coordinator error comes back as. *)
Definition internal_error : error := mgmt_error {| ApiMgmt.st_code := ApiMgmt.Internal; ApiMgmt.st_bunny := ApiMgmt.UNKNOWN |}.

Lemma run_internal {A} (fn : conn -> netE Admin.AdminClient (rpc A)) w n sv :
  admin_reaches (cw_obj w) (cw_servers w) n sv ->
  (forall c w0, reaches (cw_servers w0) mgmt_addr (cn_addr c) (cn_opts c) n sv ->
     ahandle _ (fn c) w0 = (inl internal_error, set_server w0 n sv)) ->
  exists a', run ahandle (Admin.withRetry NewClient config fn) w = (Err internal_error, set_obj w a').
Proof.
  intros Har Hfn. pose proof Har as [_ _ Hr].
  destruct (run_withRetry fn w n sv (inl internal_error) sv Har) as [a' E].
  - intros c w0 Ha Ho Hs. apply Hfn. by rewrite Ha, Ho, Hs.
  - intros e [= <-]. by eexists.
  - exists a'. rewrite E. f_equal. apply set_server_same. apply (rc_server _ _ _ _ _ _ Hr).
Qed.

(** The result of a call is the plain internal error. *)
Abbreviation fails_plainly p w := (exists a', run ahandle p w = (Err internal_error, set_obj w a')).

Lemma run_reply_internal {A B} (p : CoordinatorConfig -> prog clusterE (ApiMgmt.reply A)) (k : A -> B) c (w0 : world Admin.AdminClient) n sv :
  run (ClusterRun.handle (Config.Storage (sv_config sv)) unmarshal (Config.clusterConfig (sv_config sv)) (sv_leader sv))
    (p (Config.clusterConfig (sv_config sv))) (sv_node sv) = (ApiMgmt.internal, sv_node sv) ->
  reaches (cw_servers w0) mgmt_addr (cn_addr c) (cn_opts c) n sv ->
  at_server mgmt_addr c (mgmt_call unmarshal p k) w0 = (inl internal_error, set_server w0 n sv).
Proof. intros E Hr. rewrite (run_mgmt p k c w0 n sv _ _ Hr E). cbn [mgmt_reply ApiMgmt.internal]. by rewrite set_sv_same. Qed.

(** Admin clients never see the typed errors their documentation promises. A call on a topic that
    does not exist does not return [ErrTopicNotFound], and creating a topic that exists does not
    return [ErrTopicAlreadyExists]: each returns the plain internal status of the server, which
    wraps neither. *)
Theorem admin_errors_untyped w n sv name :
  admin_reaches (cw_obj w) (cw_servers w) n sv ->
  (Metadata.Topics (sv_meta sv) !! name = None ->
     fails_plainly (Admin.DeleteTopic NewClient config name) w /\ fails_plainly (Admin.DescribeTopic NewClient config name) w /\
     (forall count, fails_plainly (Admin.AlterTopicPartitions NewClient config name count) w) /\
     (forall ms bytes, fails_plainly (Admin.AlterTopicRetention NewClient config name ms bytes) w)) /\
  (forall req, Admin.cr_Name req = name -> topicNameRe name = true -> 1 <= Admin.cr_PartitionCount req ->
     1 <= Admin.cr_ReplicationFactor req <= len (Metadata.listNodes (sv_meta sv)) ->
     NoDup (Metadata.NodeID <$> Metadata.listNodes (sv_meta sv)) -> is_Some (Metadata.Topics (sv_meta sv) !! name) ->
     fails_plainly (Admin.CreateTopic NewClient config req) w) /\
  errors_is internal_error Admin.sTopicNotFound = false /\ errors_is internal_error Admin.sTopicAlreadyExists = false.
Proof.
  intros Har. destruct (ApiMgmt.mgmt_errors_internal (Config.Storage (sv_config sv)) unmarshal (Config.clusterConfig (sv_config sv))
    (sv_leader sv) (sv_node sv) name) as (_ & Hex & Hno). split; [|split; [|done]].
  - intros Ht. destruct (Hno Ht) as (H1 & H2 & H3 & H4). split_and!.
    + apply (run_internal _ w n sv Har). intros c w0. by apply run_reply_internal.
    + unfold Admin.DescribeTopic. rewrite run_call.
      destruct (run_internal (fun mgmt => RDescribeTopic mgmt name) w n sv Har) as [a' E]; [|rewrite E; by exists a'].
      intros c w0. by apply run_reply_internal.
    + intros count. apply (run_internal _ w n sv Har). intros c w0. by apply run_reply_internal.
    + intros ms bytes. apply (run_internal _ w n sv Har). intros c w0. by apply run_reply_internal.
  - intros req Hname Hre Hpc Hrf Hd Hs. unfold Admin.CreateTopic. rewrite run_call, Hname.
    destruct (run_internal (fun mgmt => RCreateTopic mgmt name (Admin.cr_PartitionCount req) (Admin.cr_ReplicationFactor req)
      (Admin.cr_RetentionMs req) (Admin.cr_RetentionBytes req)) w n sv Har) as [a' E]; [|rewrite E; by exists a'].
    intros c w0. apply run_reply_internal. by apply Hex.
Qed.

(** ** A new topic *)

(** The broker whose goroutines for the new topic are started, by the call or by the next turn of
    the reconciliation loop. *)
Definition ticked (sv : server) : server :=
  set_sv_node sv (ClusterServe.reconciled (Config.Storage (sv_config sv)) unmarshal (Config.clusterConfig (sv_config sv)) (sv_leader sv)
    (sv_node sv)).

(** The broker after these goroutines have run in some order, and a leader sweep. *)
Definition background (order : list task) (sv : server) : server :=
  let cfg := Config.Storage (sv_config sv) in
  let cc := Config.clusterConfig (sv_config sv) in
  let w := ClusterRun.run_tasks cfg unmarshal cc (sv_leader sv) order (ClusterRun.set_tasks (sv_node (ticked sv)) []) in
  set_sv_node sv (run (ClusterRun.handle cfg unmarshal cc (sv_leader sv)) sweepLeaders w).2.

(** A broker ready for the topic of [req]: registered at [a], converged, with valid arguments, and
    elected for the shards to come. *)
Record broker_ready (sv : server) (req : Admin.CreateTopicRequest) (n : Z) (a : string) : Prop := {
  br_node : Config.NodeID (sv_config sv) = n;
  br_cfg : cfg_ok (Config.Storage (sv_config sv));
  br_create : ClusterServe.creatable (sv_node sv) (Admin.cr_Name req) (Admin.cr_PartitionCount req) (Admin.cr_ReplicationFactor req);
  br_converged : ClusterServe.converged (Config.clusterConfig (sv_config sv)) (sv_node sv);
  br_elected : forall sh, Metadata.NextShardID (sv_meta sv) <= sh -> exists t, sv_leader sv sh = Ok (n, t, true) /\ 0 < t < 2 ^ 63;
  br_address : exists ni, Metadata.Nodes (sv_meta sv) !! n = Some ni /\ Metadata.Address ni = a /\ a <> "";
  br_index : in_u64 (DataRun.n_index (ClusterRun.c_node (sv_node sv)))
}.

Definition created_info (req : Admin.CreateTopicRequest) (now : Z) : Metadata.TopicMeta :=
  ClusterServe.overridden {| ov_RetentionMs := ApiMgmt.nonzero (Admin.cr_RetentionMs req);
                             ov_RetentionBytes := ApiMgmt.nonzero (Admin.cr_RetentionBytes req) |}
    (Admin.cr_Name req) (Admin.cr_PartitionCount req) (Admin.cr_ReplicationFactor req) now.

(** Creating a topic makes the broker serve the partitions placed on it. *)
Lemma created_serving boot n a sv req w :
  let tm := created_info req (Z.quot (DataRun.n_clock (ClusterRun.c_node (sv_node sv))) (10 ^ 6)) in
  Admin.ac_addr (cw_obj w) = boot -> admin_reaches (cw_obj w) (cw_servers w) n sv -> broker_ready sv req n a ->
  reaches (cw_servers w) data_addr a (cp_opts (Admin.ac_pool (cw_obj w))) n sv ->
  exists a' sv1, run ahandle (Admin.CreateTopic NewClient config req) w =
      (Ok (topicInfoFromMeta tm), set_server (set_obj w a') n sv1) /\
    forall order, order ≡ₚ ClusterRun.c_tasks (sv_node (ticked sv1)) ->
    in_u64 (DataRun.n_index (ClusterRun.c_node (sv_node (background order sv1)))) /\
    forall i replicas, 0 <= i < Admin.cr_PartitionCount req ->
      assignReplicas (Metadata.listNodes (sv_meta sv)) (Admin.cr_Name req) i (Admin.cr_ReplicationFactor req) = Ok replicas -> n ∈ replicas ->
      serving mgmt_addr data_addr (<[n := background order sv1]> (cw_servers w)) boot (cp_opts (Admin.ac_pool (cw_obj w)))
        (Admin.cr_Name req) tm i n a 0 [].
Proof.
  intros tm Hboot Har [Hn Hcfg Hca Hcv Hel (ni & Hni & Ha & Hane) Hi] Hd. pose proof Har as [_ _ Hr].
  destruct (ClusterServe.new_topic_led (Config.Storage (sv_config sv)) unmarshal (Config.clusterConfig (sv_config sv)) (sv_leader sv)
    (sv_node sv) _ _ _ {| ov_RetentionMs := ApiMgmt.nonzero (Admin.cr_RetentionMs req);
      ov_RetentionBytes := ApiMgmt.nonzero (Admin.cr_RetentionBytes req) |} (Config.dataConfig (sv_config sv)) Hcfg Hca Hcv eq_refl)
    as (nd1 & E & Hbg).
  { cbn [Config.clusterConfig ccNodeID]. by rewrite Hn. }
  destruct (run_withRetry (fun mgmt => RCreateTopic mgmt (Admin.cr_Name req) (Admin.cr_PartitionCount req) (Admin.cr_ReplicationFactor req)
    (Admin.cr_RetentionMs req) (Admin.cr_RetentionBytes req)) w n sv
    (inr (Some (ApiMgmt.protoTopicInfo (topicInfoFromMeta tm)))) (set_sv_node sv nd1) Har) as [a' Ew].
  { intros c w0 Hca0 Ho Hs. cbn [handle].
    erewrite (run_mgmt _ _ c w0 n sv (ApiMgmt.Reply (ApiMgmt.protoTopicInfo (topicInfoFromMeta tm))) nd1); [done|by rewrite Hs, Hca0, Ho|].
    unfold ApiMgmt.CreateTopic. rewrite ApiMgmt.run_rpc. cbn [ApiMgmt.cc_CreateTopic ApiMgmt.ClusterCoordinator]. by rewrite E. }
  { done. }
  exists a', (set_sv_node sv nd1). split; [unfold Admin.CreateTopic; by rewrite run_call, Ew|].
  intros order Hp. destruct (Hbg order Hp) as (w3 & Es & Hok & Hnodes & Htop & Hidx & Hl).
  assert (background order (set_sv_node sv nd1) = set_sv_node sv w3) as Hb.
  { unfold background, ticked. cbn [sv_config set_sv_node sv_node sv_leader]. by rewrite Es. }
  rewrite Hb. split; [cbn [sv_node set_sv_node]; by rewrite Hidx|]. intros i replicas Hi' Hrep Hin.
  cbn [Config.clusterConfig ccNodeID] in Hl. rewrite Hn in Hl. destruct (Hl i replicas Hi' Hrep Hin) as (p & Hlead & Hlive).
  pose proof (DataRun.ld_meta _ _ _ _ _ _ Hlead) as (pm & Hpm & Hlpm). cbn [Config.dataConfig DataCoord.dcNodeID] in Hlpm. rewrite Hn in Hlpm.
  constructor; [|done|].
  - exists n, (set_sv_node sv w3). split; [|split; [|exact Htop]].
    + destruct Hr as [H1 H2 H3]. rewrite <- Hboot. constructor; [done|apply lookup_insert_eq|done].
    + constructor; cbn [sv_node set_sv_node]; [done| |by exists pm|].
      * intros k x Hk. change (Metadata.Nodes (ClusterRun.meta w3) !! k = Some x) in Hk. rewrite Hnodes in Hk.
        by apply (ClusterServe.ca_nodes _ _ _ _ Hca).
      * exists ni. split; [|done]. change (Metadata.Nodes (ClusterRun.meta w3) !! n = Some ni). by rewrite Hnodes.
  - exists (set_sv_node sv w3), (Metadata.NextShardID (sv_meta sv) + i), p. split; [|done].
    destruct Hd as [H1 H2 H3]. constructor; [done|apply lookup_insert_eq|done].
Qed.

End admin.

Section usable.
Context `{Float64}.
Variables (mgmt_addr data_addr : gmap string Z).
Variable unmarshal : list byte -> option (Z * Z).
Variables (fuel pfuel : nat).
Variable arest : forall X, netE Admin.AdminClient X -> world Admin.AdminClient -> X * world Admin.AdminClient.
Variable prest : forall X, netE Producer.Producer X -> world Producer.Producer -> X * world Producer.Producer.
Variable crest : forall X, netE Consumer.Consumer X -> world Consumer.Consumer -> X * world Consumer.Consumer.
Variable NewClient : string -> option error.
Variable range : nat -> headers -> list (list byte * list byte).
Abbreviation ahandle := (handle mgmt_addr data_addr unmarshal (Datatypes.S fuel) arest).
Abbreviation phandle := (handle mgmt_addr data_addr unmarshal (Datatypes.S fuel) prest).
Abbreviation chandle := (handle mgmt_addr data_addr unmarshal (Datatypes.S fuel) crest).

(** C9: From nothing to a delivered record. An admin client creates a topic; the broker's goroutines
    run, in any order, and a leader sweep sees the broker elected; then a new producer sends a
    record whose key selects a partition placed on the broker and gets offset 0, and a new
    consumer that seeks to 0 and polls gets exactly this record. The three clients share a
    configuration; everything between them, from the API servers to the storage, is the code of
    the broker. *)
Theorem new_topic_usable conf A_conf A servers boot addrs n a sv req now :
  Admin.NewAdminClient conf = Ok (A_conf, A) -> BootstrapServers conf = boot :: addrs ->
  NewClient boot = None -> NewClient a = None -> (forall i m, range i m ≡ₚ map_to_list m) ->
  reaches servers mgmt_addr boot (cp_opts (Admin.ac_pool A)) n sv -> reaches servers data_addr a (cp_opts (Admin.ac_pool A)) n sv ->
  broker_ready sv req n a ->
  exists info w1 sv1, run ahandle (Admin.CreateTopic NewClient A_conf req)
      {| cw_obj := A; cw_clock := now; cw_servers := servers |} = (Ok info, w1) /\ cw_servers w1 !! n = Some sv1 /\
    forall order, order ≡ₚ ClusterRun.c_tasks (sv_node (ticked unmarshal sv1)) ->
    forall pc pc' P cc cc' C key value hs enc i replicas maxWaitMs,
      let record := {| br_Key := key; br_Value := value; br_Headers := hs; br_TimestampMs := now / 10 ^ 6 |} in
      Producer.NewProducer pc = Ok (pc', P) -> Producer.pc_Config pc = conf ->
      Consumer.NewConsumer cc = Ok (cc', C) -> Consumer.cc_Config cc = conf -> Consumer.GroupID cc = "" -> wait_ok maxWaitMs ->
      (Producer.selectPartition (default [] key) (ti_PartitionCount info) 0).1 = Ok i -> 0 <= i < ti_PartitionCount info ->
      assignReplicas (Metadata.listNodes (sv_meta sv)) (Admin.cr_Name req) i (Admin.cr_ReplicationFactor req) = Ok replicas -> n ∈ replicas ->
      Encode range [record] = Ok enc -> len enc <= ApiData.maxBatchBytes -> in_i64 (now / 10 ^ 6) ->
      exists w2 w3,
        run phandle (Producer.Send NewClient range (Producer.pc_Config pc') (Admin.cr_Name req) key value hs 0)
          {| cw_obj := P; cw_clock := now; cw_servers := <[n := background unmarshal order sv1]> (cw_servers w1) |} = (Ok 0, w2) /\
        run chandle (_ ← Consumer.Seek (Admin.cr_Name req) i 0; Consumer.Poll NewClient cc' pfuel maxWaitMs)
          {| cw_obj := C; cw_clock := cw_clock w2; cw_servers := cw_servers w2 |} =
          (Ok [{| Consumer.Topic := Admin.cr_Name req; Consumer.PartitionID := i; Consumer.Offset := 0; Consumer.Key := key;
                  Consumer.Value := value; Consumer.Headers := hs; Consumer.TimestampMs := now / 10 ^ 6 |}], w3).
Proof.
  intros HA Hboot Hn1 Hn2 Hrange Hr1 Hr2 Hbr. unfold Admin.NewAdminClient in HA. rewrite Hboot in HA. injection HA as <- <-.
  cbn [Admin.ac_pool] in Hr1, Hr2.
  set (w := {| cw_obj := _; cw_clock := now; cw_servers := servers |}).
  destruct (created_serving mgmt_addr data_addr unmarshal (Datatypes.S fuel) arest NewClient (Producer.defaultConfig conf) boot n a sv req w)
    as (a' & sv1 & E & Hbg); try done.
  eexists _, _, sv1. split; [exact E|]. split; [apply lookup_insert_eq|].
  intros order Hp pc pc' P cc cc' C key value hs enc i replicas maxWaitMs record HP HPc HC HCc Hg Hw Hsel Hi Hrep Hin He Hlen Hts.
  destruct (Hbg order Hp) as [Hidx Hs]. specialize (Hs i replicas Hi Hrep Hin).
  destruct (new_producer_ready pc pc' P now (Admin.cr_Name req) i a HP) as (_ & _ & _ & _ & HoP). rewrite HPc in HoP.
  assert (<[n := background unmarshal order sv1]> (cw_servers (set_server (set_obj w a') n sv1)) =
    <[n := background unmarshal order sv1]> servers) as -> by apply insert_insert_eq.
  destruct (send_poll mgmt_addr data_addr unmarshal fuel pfuel prest crest NewClient range pc pc' P cc cc' C boot addrs (Admin.cr_Name req)
    (created_info req (Z.quot (DataRun.n_clock (ClusterRun.c_node (sv_node sv))) (10 ^ 6))) i n a 0 [] key value hs enc maxWaitMs now (<[n := background unmarshal order sv1]> servers) HP HC) as (w2 & w3 & H1 & H2 & _).
  all: try done; try congruence.
  - rewrite HoP. exact Hs.
  - intros sv2. rewrite lookup_insert_eq. by intros [= <-].
  - exists w2, w3. exact (conj H1 H2).
Qed.

End usable.
End AdminRun.
