(* ===== verification/Cli.v ===== *)
(** * The command line client

    cmd/bunnymq-cli: [produce], [consume], [topic ...] and [cluster describe], as programs that use
    the client library, the terminal and the signals of the process. Flags are parsed by cobra,
    which is not part of the repository: a command gets their values. What is written to a
    tabwriter is the text with its tabs, line by line; a printed record is its JSON value. *)

From Stdlib Require Import Ascii.
From S2P Require Import Prelude SegName Keys Json Base64 Prog ClusterCoord ApiMgmt Config ClientCodec ClientNet Producer Consumer Admin.
Local Open Scope Z_scope.

Module Cli.
Import Keys Json ClusterCoord ClientCodec ClientNet.

Definition tab : string := String (Ascii.ascii_of_N 9) "".
(** Cells of a line with tabs between them. *)
Fixpoint row (cells : list string) : string :=
  match cells with
  | [] => ""
  | [c] => c
  | c :: cells' => sprint [c; tab; row cells']
  end.

(** ** Requests *)

Inductive cliE (S : Type) : Type -> Type :=
| Lib {X} (e : netE S X) : cliE S X            (** of the client library *)
| Println (line : string) : cliE S unit        (** to standard output *)
| PrintJson (v : json) : cliE S unit
| Eprintln (e : error) : cliE S unit           (** to standard error *)
| Scan : cliE S (option (list byte))           (** the next line of standard input *)
| ScanErr : cliE S (option error)
| CtxErr : cliE S (option error).              (** [ctx.Err()], set by SIGINT and SIGTERM *)
Arguments Lib {S X}. Arguments Println {S}. Arguments PrintJson {S}. Arguments Eprintln {S}. Arguments Scan {S}. Arguments ScanErr {S}.
Arguments CtxErr {S}.

Section commands.
Context {S : Type}.
Abbreviation tprog := (prog (cliE S)).

Definition lib {A} (p : prog (netE S) A) : tprog A := interp (fun X e => trigger (Lib e)) p.
(** The object a constructor of the library returns. *)
Definition new (s : S) : tprog unit := trigger (Lib (Mem (fun _ => (tt, s)))).

(** [defer func() { _ = x.Close() }()] *)
Definition deferred {A} (close : prog (netE S) (list error)) (body : tprog A) : tprog A :=
  r ← body; _ ← lib close; Ret r.

Fixpoint print_lines (lines : list string) : tprog unit :=
  match lines with
  | [] => Ret tt
  | l :: lines' => _ ← trigger (Println l); print_lines lines'
  end.

End commands.

Section cli.
Context `{Float64}.
Variable NewClient : string -> option error.

(** ** flags.go *)

Record Globals := { flagBrokers : string; flagToken : string; flagTimeout : Z }.
Definition defaultGlobals : Globals := {| flagBrokers := "localhost:9091"; flagToken := ""; flagTimeout := 10 * 10 ^ 9 |}.

Definition buildClientConfig (g : Globals) : ClientNet.Config :=
  {| BootstrapServers := Config.TrimSpace <$> Config.Split (flagBrokers g) ","%char; AuthToken := flagToken g; TLS := false;
     RequestTimeout := flagTimeout g;
     Retry := {| MaxRetries := 0; InitialBackoff := 0; MaxBackoff := 0; BackoffFactor := f64_of_Z 0 |} |}.

(** ** Commands of the administrator *)

Abbreviation aprog := (prog (cliE Admin.AdminClient)).

(** All of them: connect, call, report an error on both ways, or print the answer. *)
Definition admin_command {A} (g : Globals) (fn : ClientNet.Config -> prog (netE Admin.AdminClient) (outcome A)) (show : A -> list string)
  : aprog (outcome unit) :=
  match Admin.NewAdminClient (buildClientConfig g) with
  | Ok (cfg, ac) =>
      _ ← new ac;
      deferred Admin.Close (
        r ← lib (fn cfg);
        match r with
        | Ok a => _ ← print_lines (show a); Ret (Ok tt)
        | Err e => _ ← trigger (Eprintln e); Ret (Err e)
        | Panic p => Ret (Panic p)
        | OutOfFuel => Ret OutOfFuel
        end)
  | Err e => Ret (Err e)
  | Panic p => Ret (Panic p)
  | OutOfFuel => Ret OutOfFuel
  end.

Definition printTopicInfo (t : TopicInfo) : list string :=
  [row ["Name:"; ti_Name t]; row ["Partitions:"; fmt_d (ti_PartitionCount t)]; row ["ReplicationFactor:"; fmt_d (ti_ReplicationFactor t)];
   row ["RetentionMs:"; fmt_d (ti_RetentionMs t)]; row ["RetentionBytes:"; fmt_d (ti_RetentionBytes t)];
   row ["CreatedAtMs:"; fmt_d (ti_CreatedAtMs t)]].

Definition printTopicTable (topics : list TopicInfo) : list string :=
  row ["NAME"; "PARTITIONS"; "RF"; "RETENTION-MS"; "RETENTION-BYTES"] ::
  ((fun t => row [ti_Name t; fmt_d (ti_PartitionCount t); fmt_d (ti_ReplicationFactor t); fmt_d (ti_RetentionMs t);
                  fmt_d (ti_RetentionBytes t)]) <$> topics).

Definition printTopicDescription (d : TopicInfo * list PartitionInfo) : list string :=
  [row ["Name:"; ti_Name d.1]; row ["Partitions:"; fmt_d (ti_PartitionCount d.1)];
   row ["ReplicationFactor:"; fmt_d (ti_ReplicationFactor d.1)]; row ["RetentionMs:"; fmt_d (ti_RetentionMs d.1)];
   row ["RetentionBytes:"; fmt_d (ti_RetentionBytes d.1)]] ++ [""] ++
  row ["PARTITION"; "SHARD"; "LEADER-NODE"; "EPOCH"] ::
  ((fun p => row [fmt_d (pi_PartitionID p); fmt_d (pi_ShardID p); fmt_d (pi_LeaderNodeID p); fmt_d (pi_LeaderEpoch p)]) <$> d.2).

Definition printPartitionTable (parts : list ApiMgmt.PartitionInfoWithOffsets) : list string :=
  row ["PARTITION"; "LEADER-NODE"; "SHARD"; "EARLIEST"; "LATEST"] ::
  ((fun p => row [fmt_d (pi_PartitionID (ApiMgmt.po_Info p)); fmt_d (pi_LeaderNodeID (ApiMgmt.po_Info p));
                  fmt_d (pi_ShardID (ApiMgmt.po_Info p)); fmt_d (ApiMgmt.po_EarliestOffset p); fmt_d (ApiMgmt.po_LatestOffset p)]) <$> parts).

Definition printClusterTable (nodes : list NodeDescriptor) : list string :=
  row ["NODE-ID"; "ADDRESS"] :: ((fun n => row [fmt_d (nd_NodeID n); nd_Address n]) <$> nodes).

Definition topicCreateCmd (g : Globals) (name : string) (partitions rf retMs retBytes : Z) : aprog (outcome unit) :=
  admin_command g (fun cfg => Admin.CreateTopic NewClient cfg
    {| Admin.cr_Name := name; Admin.cr_PartitionCount := partitions; Admin.cr_ReplicationFactor := rf; Admin.cr_RetentionMs := retMs;
       Admin.cr_RetentionBytes := retBytes |}) printTopicInfo.

Definition topicDeleteCmd (g : Globals) (name : string) : aprog (outcome unit) :=
  admin_command g (fun cfg => Admin.DeleteTopic NewClient cfg name) (fun _ => [sprint ["deleted: "; name]]).

Definition topicListCmd (g : Globals) : aprog (outcome unit) :=
  admin_command g (fun cfg => Admin.ListTopics NewClient cfg) printTopicTable.

Definition topicDescribeCmd (g : Globals) (name : string) : aprog (outcome unit) :=
  admin_command g (fun cfg => Admin.DescribeTopic NewClient cfg name) printTopicDescription.

Definition topicAlterPartitionsCmd (g : Globals) (name : string) (partitions : Z) : aprog (outcome unit) :=
  admin_command g (fun cfg => Admin.AlterTopicPartitions NewClient cfg name partitions) (fun _ => [sprint ["updated: "; name]]).

Definition topicAlterRetentionCmd (g : Globals) (name : string) (retMs retBytes : Z) : aprog (outcome unit) :=
  admin_command g (fun cfg => Admin.AlterTopicRetention NewClient cfg name retMs retBytes) (fun _ => [sprint ["updated: "; name]]).

Definition topicListPartitionsCmd (g : Globals) (name : string) : aprog (outcome unit) :=
  admin_command g (fun cfg => Admin.ListPartitions NewClient cfg name) printPartitionTable.

Definition clusterDescribeCmd (g : Globals) : aprog (outcome unit) :=
  admin_command g (fun cfg => Admin.DescribeCluster NewClient cfg) printClusterTable.

(** ** produce.go *)

Record ProduceFlags := { flagProduceTopic : string; flagProduceKey : string; flagProduceValue : string; flagProduceAcks : string }.

Definition parseAcks (s : string) : outcome Z :=
  if String.eqb s "all" then Ok 0 else if String.eqb s "zero" then Ok 1 else Err (ErrNew "unknown acks value").

Abbreviation pprog := (prog (cliE Producer.Producer)).

Section produce.
Variable range : nat -> headers -> list (list byte * list byte).
Variable f : ProduceFlags.

Definition sendAndPrint (cfg : ClientNet.Config) (acks : Z) (key : option (list byte)) (value : list byte) : pprog (outcome unit) :=
  call (lib (Producer.Send NewClient range cfg (flagProduceTopic f) key value ∅ acks)) id (fun offset =>
  _ ← trigger (Println (if offset =? -1 then "sent (acks=0)" else sprint ["offset: "; fmt_d offset]));
  Ret (Ok tt)).

(** The lines of standard input; [fuel] bounds their number. *)
Fixpoint send_lines (fuel : nat) (cfg : ClientNet.Config) (acks : Z) (key : option (list byte)) : pprog (outcome unit) :=
  match fuel with
  | O => Ret OutOfFuel
  | Datatypes.S fuel' =>
      l ← trigger Scan;
      match l with
      | None => e ← trigger ScanErr; Ret (match e with Some e => Err e | None => Ok tt end)
      | Some [] => send_lines fuel' cfg acks key
      | Some line => call (sendAndPrint cfg acks key line) id (fun _ => send_lines fuel' cfg acks key)
      end
  end.

Definition runProduce (fuel : nat) (g : Globals) : pprog (outcome unit) :=
  match parseAcks (flagProduceAcks f) with
  | Ok acks =>
      match Producer.NewProducer {| Producer.pc_Config := buildClientConfig g; Producer.DefaultAcks := 0; Producer.MetadataCacheTTL := 0 |} with
      | Ok (cfg, p) =>
          _ ← new p;
          deferred Producer.Close (
            let key := if String.eqb (flagProduceKey f) "" then None else Some (String.list_byte_of_string (flagProduceKey f)) in
            if negb (String.eqb (flagProduceValue f) "")
            then sendAndPrint (Producer.pc_Config cfg) acks key (String.list_byte_of_string (flagProduceValue f))
            else send_lines fuel (Producer.pc_Config cfg) acks key)
      | Err e => Ret (Err e)
      | Panic p => Ret (Panic p)
      | OutOfFuel => Ret OutOfFuel
      end
  | Err e => Ret (Err (ErrWrap "flag --acks" e))
  | Panic p => Ret (Panic p)
  | OutOfFuel => Ret OutOfFuel
  end.

End produce.

(** ** consume.go *)

Record ConsumeFlags := {
  flagConsumeTopic : string;
  flagConsumePartition : Z;
  flagConsumeOffset : Z;
  flagConsumeGroup : string;
  flagOffsetReset : string;
  flagConsumeCount : Z;
  flagMaxWaitMs : Z
}.

Definition parseOffsetReset (s : string) : Consumer.OffsetResetPolicy :=
  if String.eqb s "earliest" then Consumer.OffsetResetEarliest else Consumer.OffsetResetLatest.

(** Header names are strings: bytes that are not UTF-8 are replaced. *)
Definition k_name : key_codec (list byte).
Proof.
  refine {| kenc := fun k => coerceUTF8 (String.string_of_list_byte k); kdec := fun s => Some (String.list_byte_of_string s);
    kfits := fun k => utf8 (String.string_of_list_byte k) |}.
  intros k Hk. by rewrite Hk, String.list_byte_of_string_of_list_byte.
Defined.

(** A record without headers has a nil map. *)
Definition c_headers : codec headers.
Proof.
  refine {| enc := fun m => if decide (m = ∅) then JNull else enc (c_map k_name Base64.c_bytes) m; zero := ∅;
    fits := fits (c_map k_name Base64.c_bytes); norm := id; dec := dec (c_map k_name Base64.c_bytes) |}.
  intros m Hm. destruct (decide (m = ∅)) as [->|]; [done|]. rewrite dec_enc by done. f_equal. apply plain_map, Base64.plain_bytes.
Defined.

Definition recordJSON : codec Consumer.ConsumerRecord :=
  c_struct (fun r => (Consumer.Topic r, (Consumer.PartitionID r, (Consumer.Offset r, (Consumer.Key r, (Consumer.Value r,
      (Consumer.Headers r, (Consumer.TimestampMs r, tt))))))))
    (fun '(a, (b, (c, (d, (e, (f, (g, _))))))) => {| Consumer.Topic := a; Consumer.PartitionID := b; Consumer.Offset := c;
       Consumer.Key := d; Consumer.Value := e; Consumer.Headers := f; Consumer.TimestampMs := g |})
    (field "topic" c_string (field "partition" c_i32 (field "offset" c_i64 (field "key" Base64.c_nil_bytes (field "value" Base64.c_bytes
      (field "headers" c_headers (field "timestamp_ms" c_i64 no_fields eq_refl) eq_refl) eq_refl) eq_refl) eq_refl) eq_refl) eq_refl).

(** It does not fail: every value of the type has a JSON form. *)
Definition formatRecord (r : Consumer.ConsumerRecord) : json := enc recordJSON r.

Definition isTransientCommitErr (e : error) : bool :=
  if errors_is e Consumer.sStaleGeneration then true else
  match status_FromError e with Some (code, _) => code =? codes_Unavailable | None => false end.

(** What the command asks of the consumer, the terminal and the signals. *)
Inductive consumeE : Type -> Type :=
| KNew (cfg : Consumer.ConsumerConfig) : consumeE (outcome unit)
| KSubscribe (topics : list string) : consumeE (outcome unit)
| KSeek (topic : string) (partition offset : Z) : consumeE unit
| KPoll (maxWaitMs : Z) : consumeE (outcome (list Consumer.ConsumerRecord))
| KCommit : consumeE (outcome unit)
| KClose : consumeE (list error)
| KCtxErr : consumeE (option error)
| KPrint (v : json) : consumeE unit.
Abbreviation kprog := (prog consumeE).

Section consume.
Variable f : ConsumeFlags.
Abbreviation group_mode := (negb (String.eqb (flagConsumeGroup f) "")).

Definition consumerConfig (g : Globals) : Consumer.ConsumerConfig :=
  {| Consumer.cc_Config := buildClientConfig g; Consumer.GroupID := flagConsumeGroup f; Consumer.MaxFetchBytes := 0;
     Consumer.MaxFetchWaitMs := flagMaxWaitMs f; Consumer.AutoOffsetReset := parseOffsetReset (flagOffsetReset f);
     Consumer.HeartbeatIntervalMs := 0; Consumer.SessionTimeoutMs := 0 |}.

(** The loop over the records of a poll: whether the outer loop ends, and the new count. *)
Fixpoint print_records (records : list Consumer.ConsumerRecord) (count : Z) : kprog (bool * Z) :=
  match records with
  | [] => Ret (false, count)
  | r :: records' =>
      _ ← trigger (KPrint (formatRecord r));
      let count := count + 1 in
      if (0 <? flagConsumeCount f) && (flagConsumeCount f <=? count) then Ret (true, count) else print_records records' count
  end.

(** After the loop. *)
Definition last_commit : kprog (outcome unit) :=
  if group_mode then
    r ← trigger KCommit;
    match r with
    | Err e => c ← trigger KCtxErr; Ret (match c with None => Err e | Some _ => Ok tt end)
    | r => Ret r
    end
  else Ret (Ok tt).

(** [fuel] bounds the polls. *)
Fixpoint poll_records (fuel : nat) (count : Z) : kprog (outcome unit) :=
  match fuel with
  | O => Ret OutOfFuel
  | Datatypes.S fuel' =>
      r ← trigger (KPoll (flagMaxWaitMs f));
      match r with
      | Err e => c ← trigger KCtxErr; match c with Some _ => last_commit | None => Ret (Err e) end
      | Ok records =>
          st ← print_records records count;
          let '(stop, count') := (st : bool * Z) in
          match stop with
          | true => last_commit
          | false =>
              if group_mode && (0 <? len records) then
                r ← trigger KCommit;
                match r with
                | Ok _ => poll_records fuel' count'
                | Err e =>
                    c ← trigger KCtxErr;
                    match c with
                    | Some _ => poll_records fuel' count'
                    | None => if isTransientCommitErr e then poll_records fuel' count' else Ret (Err e)
                    end
                | Panic p => Ret (Panic p)
                | OutOfFuel => Ret OutOfFuel
                end
              else poll_records fuel' count'
          end
      | Panic p => Ret (Panic p)
      | OutOfFuel => Ret OutOfFuel
      end
  end.

Definition runConsume (fuel : nat) (g : Globals) : kprog (outcome unit) :=
  if String.eqb (flagConsumeGroup f) "" && (flagConsumePartition f =? -1) then
    Ret (Err (ErrNew "--partition is required in manual mode")) else
  call (trigger (KNew (consumerConfig g))) id (fun _ =>
  r ← (if group_mode then call (trigger (KSubscribe [flagConsumeTopic f])) id (fun _ => poll_records fuel 0)
       else _ ← trigger (KSeek (flagConsumeTopic f) (flagConsumePartition f) (flagConsumeOffset f)); poll_records fuel 0);
  _ ← trigger KClose;
  Ret r).

(** The requests as calls of the library; [pfuel] is that of [Poll]. *)
Definition consume_request (pfuel : nat) (cfg : Consumer.ConsumerConfig) X (e : consumeE X) : prog (cliE Consumer.Consumer) X :=
  match e in consumeE X return prog (cliE Consumer.Consumer) X with
  | KNew cfg0 =>
      match Consumer.NewConsumer cfg0 with
      | Ok (_, c) => _ ← new c; Ret (Ok tt)
      | Err e => Ret (Err e)
      | Panic p => Ret (Panic p)
      | OutOfFuel => Ret OutOfFuel
      end
  | KSubscribe topics => lib (Consumer.Subscribe NewClient cfg topics)
  | KSeek topic partition offset => lib (Consumer.Seek topic partition offset)
  | KPoll maxWaitMs => lib (Consumer.Poll NewClient cfg pfuel maxWaitMs)
  | KCommit => lib (Consumer.Commit NewClient cfg)
  | KClose => lib (Consumer.Close NewClient cfg)
  | KCtxErr => trigger CtxErr
  | KPrint v => trigger (PrintJson v)
  end.

(** The command, with the configuration [NewConsumer] has completed. *)
Definition consumeCmd (fuel pfuel : nat) (g : Globals) : prog (cliE Consumer.Consumer) (outcome unit) :=
  interp (consume_request pfuel (match Consumer.NewConsumer (consumerConfig g) with Ok (cfg, _) => cfg | _ => consumerConfig g end))
    (runConsume fuel g).

End consume.
End cli.
End Cli.
