(* ===== verification/CliTrace.v ===== *)
(** * What the consume command prints and commits

    On every path of [runConsume], whatever the cluster, the terminal and the signals do: the
    records are printed in the order in which they were polled, none twice and none left out up
    to the limit of --count, and a commit comes only after they have been printed. *)

From S2P Require Import Prelude Json Prog ClientNet Consumer Cli.
Local Open Scope Z_scope.

Module CliTrace.
Import Json ClientNet Cli.

Section trace.
Context `{Float64}.
Abbreviation kobs := (obs consumeE).
Abbreviation kpath := (path (E := consumeE) (fun _ _ _ => True)).

(** The records an observation polls, and the lines it prints. *)
Definition polled_by (o : kobs) : list Consumer.ConsumerRecord :=
  match ob_request o in consumeE X return X -> list Consumer.ConsumerRecord with
  | KPoll _ => fun r => match r with Ok l => l | _ => [] end
  | _ => fun _ => []
  end (ob_reply o).
Definition printed_by (o : kobs) : list json := match ob_request o with KPrint v => [v] | _ => [] end.
Definition commits (o : kobs) : bool := match ob_request o with KCommit => true | _ => false end.

Fixpoint polled (t : list kobs) : list Consumer.ConsumerRecord := match t with [] => [] | o :: t' => polled_by o ++ polled t' end.
Fixpoint printed (t : list kobs) : list json := match t with [] => [] | o :: t' => printed_by o ++ printed t' end.

Lemma polled_app t1 t2 : polled (t1 ++ t2) = polled t1 ++ polled t2.
Proof. induction t1 as [|o t1 IH]; [done|]. cbn. by rewrite IH, app_assoc. Qed.
Lemma printed_app t1 t2 : printed (t1 ++ t2) = printed t1 ++ printed t2.
Proof. induction t1 as [|o t1 IH]; [done|]. cbn. by rewrite IH, app_assoc. Qed.

(** The limit of --count, where it is set. *)
Definition upto {A} (count : Z) (l : list A) : list A := if 0 <? count then take (Z.to_nat count) l else l.

Lemma upto_all {A} count (l : list A) : count <= 0 \/ len l <= count -> upto count l = l.
Proof. intros H1. unfold upto. destruct (Z.ltb_spec 0 count); [|done]. apply take_ge. unfold len in H1. lia. Qed.

Variable f : ConsumeFlags.
Abbreviation count := (flagConsumeCount f).

(** Everything that may be printed has been. *)
Definition up_to_date (pol : list Consumer.ConsumerRecord) (out : list json) : Prop := out = formatRecord <$> upto count pol.

(** Up to date at every commit, after [pol] has been polled and [out] printed. *)
Fixpoint checked (pol : list Consumer.ConsumerRecord) (out : list json) (t : list kobs) : Prop :=
  match t with
  | [] => True
  | o :: t' => (commits o = true -> up_to_date pol out) /\ checked (pol ++ polled_by o) (out ++ printed_by o) t'
  end.

Lemma checked_app pol out t1 t2 :
  checked pol out t1 -> checked (pol ++ polled t1) (out ++ printed t1) t2 -> checked pol out (t1 ++ t2).
Proof.
  revert pol out. induction t1 as [|o t1 IH]; cbn [app checked polled printed]; intros pol out; [by rewrite !app_nil_r|].
  intros [Ho H1] H2. split; [done|]. apply IH; [done|]. by rewrite <- !app_assoc.
Qed.

Lemma checked_split pol out t1 o t2 :
  checked pol out (t1 ++ o :: t2) -> commits o = true -> up_to_date (pol ++ polled t1) (out ++ printed t1).
Proof.
  revert pol out. induction t1 as [|o1 t1 IH]; cbn [app checked polled printed]; intros pol out.
  - rewrite !app_nil_r. intros [Ho _]. exact Ho.
  - intros [_ Hc] Ho. rewrite !app_assoc. by apply IH.
Qed.

(** A trace without polls, prints and commits. *)
Definition quiet (t : list kobs) : Prop := Forall (fun o => polled_by o = [] /\ printed_by o = [] /\ commits o = false) t.

Lemma quiet_checked t pol out : quiet t -> checked pol out t /\ polled t = [] /\ printed t = [].
Proof.
  intros Ht. revert pol out. induction Ht as [|o t (H1 & H2 & H3) _ IH]; intros pol out; [done|]. cbn [checked polled printed].
  rewrite H1, H2, H3. destruct (IH (pol ++ []) (out ++ [])) as (Hc & -> & ->). by split_and!.
Qed.

(** The goal about a part of a run that starts up to date. *)
Definition reports (pol : list Consumer.ConsumerRecord) (out : list json) (t : list kobs) : Prop :=
  checked pol out t /\ up_to_date (pol ++ polled t) (out ++ printed t).

Lemma quiet_reports pol out t : up_to_date pol out -> quiet t -> reports pol out t.
Proof. intros Hu Ht. destruct (quiet_checked t pol out Ht) as (Hc & Ep & Eo). unfold reports. by rewrite Ep, Eo, !app_nil_r. Qed.

Lemma reports_nil pol out : up_to_date pol out -> reports pol out [].
Proof. intros Hu. apply quiet_reports; [done|constructor]. Qed.

Lemma reports_app pol out t1 t2 :
  checked pol out t1 -> reports (pol ++ polled t1) (out ++ printed t1) t2 -> reports pol out (t1 ++ t2).
Proof.
  intros H1 [H2 H3]. split; [by apply checked_app|]. by rewrite polled_app, printed_app, !app_assoc.
Qed.

(** The loop over the records of one poll. *)
Lemma print_records_path records n t b n' :
  count <= 0 \/ n < count -> kpath (print_records f records n) t (b, n') ->
  polled t = [] /\ Forall (fun o => commits o = false) t /\
  exists k, printed t = formatRecord <$> take k records /\ n' = n + Z.of_nat k /\
    if b then 0 < count /\ n' = count /\ (k <= length records)%nat else k = length records /\ (count <= 0 \/ n' < count).
Proof.
  revert n t. induction records as [|r records IH]; intros n t Hn; cbn [print_records].
  - intros [-> [= -> ->]]. split; [done|]. split; [done|]. exists 0%nat. split_and!; [done|lia|done|done].
  - rewrite path_bind. intros (t1 & t2 & u & -> & [-> _]%path_trigger & Ht2).
    destruct ((0 <? count) && (count <=? n + 1)) eqn:Ec.
    + destruct Ht2 as [-> [= -> ->]]. apply andb_true_iff in Ec as [E1%Z.ltb_lt E2%Z.leb_le]. split; [done|]. split; [by repeat constructor|].
      exists 1%nat. cbn. split_and!; try done; lia.
    + assert (count <= 0 \/ n + 1 < count) as Hn1.
      { apply andb_false_iff in Ec as [E%Z.ltb_ge|E%Z.leb_gt]; lia. }
      destruct (IH (n + 1) t2 Hn1 Ht2) as (Hp & Hc & k & Hpr & -> & Hb). split; [done|]. split; [by constructor|].
      exists (Datatypes.S k). cbn [app printed printed_by ob_request take fmap list_fmap length]. rewrite Hpr. split; [done|]. split; [lia|].
      destruct b; intuition lia.
Qed.

Lemma unchecked t pol out : Forall (fun o => commits o = false) t -> checked pol out t.
Proof. intros Ht. revert pol out. induction Ht as [|o t Ho _ IH]; intros pol out; [done|]. cbn [checked]. by rewrite Ho. Qed.

Lemma last_commit_path pol out t r : up_to_date pol out -> kpath (last_commit f) t r -> reports pol out t.
Proof.
  intros Hu. unfold last_commit. destruct (negb _).
  - rewrite path_bind. intros (t1 & t2 & x & -> & [-> _]%path_trigger & Ht2).
    assert (quiet t2) as Hq.
    { destruct x as [|e| |]; [destruct Ht2 as [-> _]; constructor| |destruct Ht2 as [-> _]; constructor..]. rewrite path_bind in Ht2.
      destruct Ht2 as (t3 & t4 & c & -> & [-> _]%path_trigger & [-> _]). by repeat constructor. }
    apply (quiet_reports pol out) in Hq as [Hc He]; [|done]. split; cbn [app checked polled printed]; [|done].
    rewrite !app_nil_r. split; [done|exact Hc].
  - intros [-> _]. by apply reports_nil.
Qed.

Lemma print_reports pol out records n t b n' :
  out = formatRecord <$> pol -> n = len pol -> count <= 0 \/ n < count -> kpath (print_records f records n) t (b, n') ->
  checked (pol ++ records) out t /\ up_to_date (pol ++ records) (out ++ printed t) /\ polled t = [] /\
  (b = false -> out ++ printed t = formatRecord <$> (pol ++ records) /\ n' = len (pol ++ records) /\ (count <= 0 \/ n' < count)).
Proof.
  intros -> -> Hn Ht. destruct (print_records_path _ _ _ _ _ Hn Ht) as (Hp & Hc & k & -> & -> & Hb).
  split; [by apply unchecked|]. unfold up_to_date. rewrite <- fmap_app. destruct b.
  - destruct Hb as (H1 & H2 & H3). split_and!; [|done..]. f_equal. unfold upto. rewrite (proj2 (Z.ltb_lt _ _)) by done.
    rewrite take_app. unfold len in *. rewrite (take_ge pol) by lia. f_equal. f_equal. lia.
  - destruct Hb as [-> Hb]. rewrite take_ge by lia. split_and!; [|done|].
    + rewrite upto_all; [done|]. rewrite len_app. unfold len in *. lia.
    + intros _. split; [done|]. rewrite len_app. unfold len in *. split; [lia|done].
Qed.

Lemma quiet_step pol out (o : kobs) t :
  polled_by o = [] -> printed_by o = [] -> up_to_date pol out -> reports pol out t -> reports pol out (o :: t).
Proof.
  intros H1 H2 Hu Ht. change (o :: t) with ([o] ++ t). apply reports_app; [by split|].
  cbn [polled printed]. by rewrite H1, H2, !app_nil_r.
Qed.

Lemma poll_records_path fuel pol out n t r :
  out = formatRecord <$> pol -> n = len pol -> count <= 0 \/ n < count -> kpath (poll_records f fuel n) t r -> reports pol out t.
Proof.
  revert pol out n t. induction fuel as [|fuel IH]; intros pol out n t Ho Hn Hc; cbn [poll_records].
  all: assert (up_to_date pol out) as Hu by (unfold up_to_date; rewrite upto_all; [done|]; subst n; destruct Hc; [by left|right; lia]).
  { intros [-> _]. by apply reports_nil. }
  rewrite path_bind. intros (t1 & t2 & x & -> & [-> _]%path_trigger & Ht2). cbn [app]. destruct x as [records|e| |].
  - rewrite path_bind in Ht2. destruct Ht2 as (t3 & t4 & [b n'] & -> & Ht3 & Ht4).
    destruct (print_reports pol out records n t3 b n' Ho Hn Hc Ht3) as (Hck & Hup & Hpol & Hcont).
    change (?o :: t3 ++ t4) with ([o] ++ (t3 ++ t4)). apply reports_app; [by split|].
    cbn [polled polled_by printed printed_by ob_request ob_reply]. rewrite !app_nil_r.
    apply reports_app; [done|]. rewrite Hpol, app_nil_r. destruct b; [by eapply last_commit_path|].
    destruct (Hcont eq_refl) as (Ho' & Hn' & Hc'). destruct (negb _ && _); [|by eapply IH].
    rewrite path_bind in Ht4. destruct Ht4 as (t5 & t6 & y & -> & [-> _]%path_trigger & Ht6). apply quiet_step; [done..|].
    destruct y as [u|e| |]; [by eapply IH| |by destruct Ht6 as [-> _]; apply reports_nil..].
    rewrite path_bind in Ht6. destruct Ht6 as (t7 & t8 & c & -> & [-> _]%path_trigger & Ht8). apply quiet_step; [done..|].
    destruct c; [by eapply IH|]. destruct (isTransientCommitErr e); [by eapply IH|]. destruct Ht8 as [-> _]. by apply reports_nil.
  - rewrite path_bind in Ht2. destruct Ht2 as (t3 & t4 & c & -> & [-> _]%path_trigger & Ht4). do 2 (apply quiet_step; [done..|]).
    destruct c; [by eapply last_commit_path|]. destruct Ht4 as [-> _]. by apply reports_nil.
  - destruct Ht2 as [-> _]. apply quiet_step; [done..|]. by apply reports_nil.
  - destruct Ht2 as [-> _]. apply quiet_step; [done..|]. by apply reports_nil.
Qed.

(** A call either fails, or goes on. *)
Lemma path_call {B C} (m : prog consumeE (outcome B)) wrap (k : B -> prog consumeE (outcome C)) t r :
  kpath (call m wrap k) t r -> exists t1 t2 x, t = t1 ++ t2 /\ kpath m t1 x /\ ((exists b, x = Ok b /\ kpath (k b) t2 r) \/ t2 = []).
Proof.
  unfold call. rewrite path_bind. intros (t1 & t2 & x & -> & H1 & H2). exists t1, t2, x. split; [done|]. split; [done|].
  destruct x as [b|e|p|]; [left; eauto|right; apply H2..].
Qed.

Lemma up_to_date_start : up_to_date [] [].
Proof. unfold up_to_date, upto. destruct (0 <? count); by rewrite ?take_nil. Qed.

(** The part between the construction of the consumer and its closing. *)
Lemma consume_body_path fuel t r :
  kpath (if negb (String.eqb (flagConsumeGroup f) "") then call (trigger (KSubscribe [flagConsumeTopic f])) id (fun _ => poll_records f fuel 0)
         else _ ← trigger (KSeek (flagConsumeTopic f) (flagConsumePartition f) (flagConsumeOffset f)); poll_records f fuel 0) t r ->
  reports [] [] t.
Proof.
  pose proof up_to_date_start as Hu. assert (count <= 0 \/ 0 < count) as Hc by lia. destruct (negb _).
  - intros (t1 & t2 & x & -> & [-> _]%path_trigger & Hx)%path_call. apply quiet_step; [done..|].
    destruct Hx as [(b & -> & Ht2)| ->]; [by eapply poll_records_path|by apply reports_nil].
  - rewrite path_bind. intros (t1 & t2 & x & -> & [-> _]%path_trigger & Ht2). apply quiet_step; [done..|]. by eapply poll_records_path.
Qed.

(** C16: The consume command, whatever the cluster, the terminal and the signals do: what it has
    printed when it returns, and whenever it commits, is exactly what it has polled, record by
    record in the same order, up to the first --count records where a count is given. So
    without a count every commit covers printed records only. *)
Theorem consume_prints fuel g t r :
  kpath (runConsume f fuel g) t r ->
  printed t = formatRecord <$> upto count (polled t) /\
  forall t1 o t2, t = t1 ++ o :: t2 -> commits o = true -> printed t1 = formatRecord <$> upto count (polled t1).
Proof.
  pose proof up_to_date_start as Hu. intros Ht.
  assert (reports [] [] t) as [Hc He]; [|split; [exact He|intros t1 o t2 -> Ho; exact (checked_split _ _ _ _ _ Hc Ho)]].
  revert Ht. unfold runConsume. destruct (_ && _); [intros [-> _]; by apply reports_nil|].
  intros (t1 & t2 & x & -> & [-> _]%path_trigger & Hx)%path_call. apply quiet_step; [done..|].
  destruct Hx as [(b & -> & Ht2)| ->]; [|by apply reports_nil].
  rewrite path_bind in Ht2. destruct Ht2 as (t3 & t4 & y & -> & [Hc3 He3]%consume_body_path & Ht4). apply reports_app; [done|].
  rewrite path_bind in Ht4. destruct Ht4 as (t5 & t6 & z & -> & [-> _]%path_trigger & [-> _]).
  apply quiet_reports; [done|]. by repeat constructor.
Qed.

End trace.
End CliTrace.
