(* ===== verification/CliRun.v ===== *)
(** * The command line client against a cluster

    The commands of Cli.v in a terminal, over the clusters of ClientServe.v and ClientGroup.v. A
    record that [produce] sends is the one [consume] prints ([produce_then_consume]); with a
    group, [consume --count] can commit records it never prints ([count_skips]). *)

From S2P Require Import Prelude SegName Json BatchLog Keys Metadata MetadataInv RangeAssign Prog Segment Storage Partition GroupCoord GroupSem GroupRun DataCoord ClusterCoord ApiData DataRun ClusterRun Config ClientCodec ClientNet ClientWorld Producer Consumer ConsumerRun Auth ClientRun ClientServe ClientGroup GroupServe Cli CliTrace.
Local Open Scope Z_scope.

Module CliRun.
Import Keys Json BatchLog Seg ClusterCoord ClientNet ClientWorld ClientCodec ClientRun ClientServe ClientGroup GroupServe Cli CliTrace.

(** ** A terminal *)

(** What has been written to standard output and error, what is left of standard input, and the
    world of the library; no signal comes. *)
Record term (W : Type) := Term { t_world : W; t_out : list (string + json); t_err : list error; t_in : list (list byte) }.
Arguments Term {W}. Arguments t_world {W}. Arguments t_out {W}. Arguments t_err {W}. Arguments t_in {W}.

Section terminal.
Context {S W : Type} (h : forall X, netE S X -> W -> X * W).

Definition thandle X (e : cliE S X) (w : term W) : X * term W :=
  match e in cliE _ X return X * term W with
  | Lib e => let '(x, w') := h _ e (t_world w) in (x, Term w' (t_out w) (t_err w) (t_in w))
  | Println l => (tt, Term (t_world w) (t_out w ++ [inl l]) (t_err w) (t_in w))
  | PrintJson v => (tt, Term (t_world w) (t_out w ++ [inr v]) (t_err w) (t_in w))
  | Eprintln e => (tt, Term (t_world w) (t_out w) (t_err w ++ [e]) (t_in w))
  | Scan => match t_in w with [] => (None, w) | l :: ls => (Some l, Term (t_world w) (t_out w) (t_err w) ls) end
  | ScanErr => (None, w)
  | CtxErr => (None, w)
  end.

(** The library does in the terminal what it does without. *)
Lemma run_lib {A} (p : prog (netE S) A) w out err inp :
  run thandle (lib p) (Term w out err inp) = let '(a, w') := run h p w in (a, Term w' out err inp).
Proof.
  revert w. induction p as [a|X e k IH]; intros w; [done|]. unfold lib. cbn [interp].
  rewrite run_bind, run_trigger. cbn [thandle t_world t_out t_err t_in run]. destruct (h X e w) as [x w']. apply IH.
Qed.

End terminal.

(** The requests of a program as the runs of what they stand for. *)
Lemma run_interp_as {E F W A} (f : forall X, E X -> prog F X) (g : forall X, F X -> W -> X * W) (p : prog E A) w :
  run g (interp f p) w = run (fun X e w => run g (f X e) w) p w.
Proof.
  revert w. induction p as [a|X e k IH]; intros w; [done|]. cbn [interp run]. rewrite run_bind.
  destruct (run g (f X e) w) as [x w']. apply IH.
Qed.

(** ** Printing *)

Section consume.
Context `{Float64} (NewClient : string -> option error).
Context (h : forall X, netE Consumer.Consumer X -> world Consumer.Consumer -> X * world Consumer.Consumer).
Variables (f : ConsumeFlags) (pfuel : nat) (cfg : Consumer.ConsumerConfig).

Definition khandle X (e : consumeE X) (w : term (world Consumer.Consumer)) : X * term (world Consumer.Consumer) :=
  run (thandle h) (consume_request NewClient pfuel cfg X e) w.

Lemma run_requests {A} (p : prog consumeE A) w : run (thandle h) (interp (consume_request NewClient pfuel cfg) p) w = run khandle p w.
Proof. apply run_interp_as. Qed.

(** The first records of a poll, up to the count, and then the end of the loop. *)
Lemma run_print_records records n w out err inp :
  0 < flagConsumeCount f -> n < flagConsumeCount f ->
  run khandle (print_records f records n) (Term w out err inp) =
    if flagConsumeCount f <=? n + len records
    then ((true, flagConsumeCount f), Term w (out ++ (inr ∘ formatRecord <$> take (Z.to_nat (flagConsumeCount f - n)) records)) err inp)
    else ((false, n + len records), Term w (out ++ (inr ∘ formatRecord <$> records)) err inp).
Proof.
  intros Hc. revert n out. induction records as [|r records IH]; intros n out Hn; cbn [print_records].
  - rewrite (proj2 (Z.leb_gt _ _)) by len_lia. cbn. by rewrite app_nil_r, Z.add_0_r.
  - rewrite run_bind, run_trigger. cbn [khandle consume_request]. unfold khandle. cbn [consume_request]. rewrite run_trigger.
    cbn [thandle t_world t_out t_err t_in]. rewrite (proj2 (Z.ltb_lt _ _)) by done. cbn [andb]. rewrite len_cons.
    destruct (Z.leb_spec (flagConsumeCount f) (n + 1)) as [Hle|Hgt].
    + rewrite (proj2 (Z.leb_le _ _)) by (pose proof (len_nonneg records); lia). cbn [run].
      replace (flagConsumeCount f) with (n + 1) by lia. replace (Z.to_nat (n + 1 - n)) with 1%nat by lia. done.
    + fold khandle. rewrite IH by lia. replace (n + 1 + len records) with (n + (1 + len records)) by lia.
      replace (Z.to_nat (flagConsumeCount f - n)) with (Datatypes.S (Z.to_nat (flagConsumeCount f - (n + 1)))) by lia.
      by destruct (_ <=? _); rewrite <- app_assoc.
Qed.

End consume.

(** ** Closing *)

Section closing.
Context {S : Type} `{HasPool S} (mgmt_addr data_addr : gmap string Z) (unmarshal : list byte -> option (Z * Z)) (fuel : nat).
Context (rest : forall X, netE S X -> world S -> X * world S).
Abbreviation shandle := (handle mgmt_addr data_addr unmarshal fuel rest).

Lemma run_close_conns conns (w : world S) : run shandle (close_all conns) w = ([], w).
Proof.
  revert w. induction conns as [|[x k] conns IH]; intros w; cbn [close_all]; [done|].
  rewrite run_bind, run_trigger. cbn [handle]. by rewrite run_bind, IH.
Qed.

Lemma run_pool_Close (w : world S) : exists s, run shandle pool_Close w = ([], set_obj w s).
Proof.
  unfold pool_Close. rewrite run_bind, run_trigger. cbn [handle fst snd]. rewrite run_bind, run_trigger. cbn [handle].
  rewrite run_close_conns. by eexists.
Qed.

End closing.

(** ** From the one terminal to the other *)

Section records.
Context `{Float64}.
Variables (mgmt_addr data_addr : gmap string Z).
Variable unmarshal : list byte -> option (Z * Z).
Variables (fuel pfuel : nat).
Variable prest : forall X, netE Producer.Producer X -> world Producer.Producer -> X * world Producer.Producer.
Variable crest : forall X, netE Consumer.Consumer X -> world Consumer.Consumer -> X * world Consumer.Consumer.
Variable NewClient : string -> option error.
Variable range : nat -> headers -> list (list byte * list byte).
Abbreviation phandle := (handle mgmt_addr data_addr unmarshal (Datatypes.S fuel) prest).
Abbreviation chandle := (handle mgmt_addr data_addr unmarshal (Datatypes.S fuel) crest).
Abbreviation at_shell w := (Term w [] [] []).

Lemma selected_range key count n id : (Producer.selectPartition key count n).1 = Ok id -> in_i32 id.
Proof.
  unfold Producer.selectPartition. destruct (len key =? 0); cbn [fst]; destruct (Producer.rem _ _); try discriminate; intros [= <-]; apply i32_range.
Qed.

(** The key as the flag gives it. *)
Definition flag_key (s : string) : option (list byte) := if String.eqb s "" then None else Some (String.list_byte_of_string s).

(** What a terminal shows of [produce]. *)
Lemma run_produce g f pc' P offset w w1 :
  let pc := {| Producer.pc_Config := buildClientConfig g; Producer.DefaultAcks := 0; Producer.MetadataCacheTTL := 0 |} in
  Producer.NewProducer pc = Ok (pc', P) -> flagProduceAcks f = "all" -> flagProduceValue f <> "" -> 0 <= offset ->
  run phandle (Producer.Send NewClient range (Producer.pc_Config pc') (flagProduceTopic f) (flag_key (flagProduceKey f))
    (String.list_byte_of_string (flagProduceValue f)) ∅ 0) (set_obj w P) = (Ok offset, w1) ->
  exists P', run (thandle phandle) (runProduce NewClient range f fuel g) (at_shell w) =
    (Ok tt, Term (set_obj w1 P') [inl (sprint ["offset: "; fmt_d offset])] [] []).
Proof.
  intros pc HP Hacks Hv Ho E. unfold runProduce. rewrite Hacks. change (parseAcks "all") with (Ok (A := Z) 0). cbn iota.
  change (Producer.NewProducer _) with (Producer.NewProducer pc). rewrite HP. unfold new.
  rewrite run_bind, run_trigger. cbn [thandle t_world t_out t_err t_in handle fst snd]. unfold deferred.
  rewrite (proj2 (String.eqb_neq _ _) Hv). cbn [negb]. fold (flag_key (flagProduceKey f)). unfold sendAndPrint.
  rewrite run_bind, run_call, run_lib, E, run_bind, run_trigger. cbn [thandle t_world t_out t_err t_in].
  rewrite (proj2 (Z.eqb_neq offset (-1))) by lia. cbn [run app]. rewrite run_bind, run_lib.
  destruct (run_pool_Close mgmt_addr data_addr unmarshal (Datatypes.S fuel) prest w1) as [P' EP]. unfold Producer.Close. rewrite EP.
  by exists P'.
Qed.

Lemma new_consumer f g boot addrs :
  BootstrapServers (buildClientConfig g) = boot :: addrs -> exists cc' C, Consumer.NewConsumer (consumerConfig f g) = Ok (cc', C).
Proof.
  intros Hb. unfold Consumer.NewConsumer. change (Consumer.cc_Config (consumerConfig f g)) with (buildClientConfig g). rewrite Hb. eauto.
Qed.

(** What a terminal shows of [consume --partition ... --count 1]. *)
Lemma run_consume g f cc' C record w w2 :
  Consumer.NewConsumer (consumerConfig f g) = Ok (cc', C) -> flagConsumeGroup f = "" -> flagConsumeCount f = 1 ->
  flagConsumePartition f <> -1 ->
  run chandle (_ ← Consumer.Seek (flagConsumeTopic f) (flagConsumePartition f) (flagConsumeOffset f);
    Consumer.Poll NewClient cc' pfuel (flagMaxWaitMs f)) (set_obj w C) = (Ok [record], w2) ->
  exists C', run (thandle chandle) (consumeCmd NewClient f 1 pfuel g) (at_shell w) =
    (Ok tt, Term (set_obj w2 C') [inr (formatRecord record)] [] []).
Proof.
  intros HC Hg Hcount Hpart E. assert (Consumer.GroupID cc' = "") as Hg'.
  { destruct (new_member _ _ _ HC) as (_ & _ & _ & _ & _ & -> & _). done. }
  unfold consumeCmd. rewrite HC, run_requests.
  unfold runConsume. rewrite Hg, (proj2 (Z.eqb_neq _ _) Hpart). cbn [String.eqb andb negb].
  rewrite run_call, run_trigger. unfold khandle at 1. cbn [consume_request]. rewrite HC. unfold new.
  rewrite run_bind, run_trigger. cbn [thandle t_world t_out t_err t_in handle fst snd run].
  rewrite run_bind, run_bind, run_trigger. unfold khandle at 1. cbn [consume_request].
  rewrite run_bind in E. rewrite run_lib. destruct (run chandle (Consumer.Seek _ _ _) _) as [[] w1]. cbn [poll_records].
  rewrite run_bind, run_trigger. unfold khandle at 1. cbn [consume_request]. rewrite run_lib, E.
  rewrite run_bind, run_print_records, Hcount by lia. change (1 <=? 0 + len [record]) with true. cbn iota beta.
  unfold last_commit. rewrite Hg. cbn [String.eqb negb run]. rewrite run_bind, run_trigger. unfold khandle at 1. cbn [consume_request].
  rewrite run_lib. unfold Consumer.Close, Consumer.snapshot. rewrite run_bind, run_trigger. cbn [handle fst snd].
  rewrite Hg'. cbn [String.eqb negb andb]. rewrite run_bind. cbn [run].
  destruct (run_pool_Close mgmt_addr data_addr unmarshal (Datatypes.S fuel) crest (set_obj w2 (cw_obj w2))) as [C' EC]. rewrite EC.
  exists C'. done.
Qed.

(** C15: From terminal to terminal. On a cluster that serves the partition the key selects, [produce]
    with a value prints the offset at the end of the log, and [consume] of this partition from
    this offset with a count of one then prints one line: JSON that reads back as the record,
    with topic, partition, offset, key, value and timestamp. Both commands succeed. *)
Theorem produce_then_consume g f kf boot addrs t id n a off l enc now servers P0 C0 :
  let topic := flagProduceTopic f in
  let key := flag_key (flagProduceKey f) in
  let value := String.list_byte_of_string (flagProduceValue f) in
  let record := {| br_Key := key; br_Value := value; br_Headers := ∅; br_TimestampMs := now / 10 ^ 6 |} in
  let opts := [KeepaliveParams 30000000000 10000000000] ++ Producer.dialOptions (Producer.defaultConfig (buildClientConfig g)) in
  BootstrapServers (buildClientConfig g) = boot :: addrs -> flagProduceAcks f = "all" -> flagProduceValue f <> "" ->
  flagConsumeTopic kf = topic -> flagConsumePartition kf = id -> flagConsumeOffset kf = end_off off l -> flagConsumeGroup kf = "" ->
  flagConsumeCount kf = 1 -> wait_ok (flagMaxWaitMs kf) -> utf8 topic ->
  NewClient boot = None -> NewClient a = None -> (forall i m, range i m ≡ₚ map_to_list m) ->
  (Producer.selectPartition (default [] key) (Metadata.PartitionCount t) 0).1 = Ok id -> 0 <= id ->
  serving mgmt_addr data_addr servers boot opts topic t id n a off l ->
  (forall sv, servers !! n = Some sv -> in_u64 (DataRun.n_index (ClusterRun.c_node (sv_node sv)))) ->
  Encode range [record] = Ok enc -> len enc <= ApiData.maxBatchBytes -> in_i64 (now / 10 ^ 6) -> end_off off l + 1 < 2 ^ 63 ->
  exists w1 w2 v,
    run (thandle phandle) (runProduce NewClient range f fuel g) (at_shell {| cw_obj := P0; cw_clock := now; cw_servers := servers |}) =
      (Ok tt, Term w1 [inl (sprint ["offset: "; fmt_d (end_off off l)])] [] []) /\
    run (thandle chandle) (consumeCmd NewClient kf 1 pfuel g) (at_shell {| cw_obj := C0; cw_clock := cw_clock w1; cw_servers := cw_servers w1 |}) =
      (Ok tt, Term w2 [inr v] [] []) /\
    dec recordJSON v = Some {| Consumer.Topic := topic; Consumer.PartitionID := id; Consumer.Offset := end_off off l; Consumer.Key := key;
      Consumer.Value := value; Consumer.Headers := ∅; Consumer.TimestampMs := now / 10 ^ 6 |}.
Proof.
  intros topic key value record opts Hb Hacks Hv Ht Hpart Hoff Hg Hcount Hw Hutf Hn1 Hn2 Hrange Hsel Hid Hs Hi He Hlen Hts Hend.
  set (pc := {| Producer.pc_Config := buildClientConfig g; Producer.DefaultAcks := 0; Producer.MetadataCacheTTL := 0 |}).
  assert (exists pc' P, Producer.NewProducer pc = Ok (pc', P)) as (pc' & P & HP).
  { unfold Producer.NewProducer. change (Producer.pc_Config pc) with (buildClientConfig g). rewrite Hb. eauto. }
  destruct (new_consumer kf g boot addrs Hb) as (cc' & C & HC).
  destruct (new_producer_ready pc pc' P now topic id a HP) as (_ & _ & _ & _ & HoP).
  destruct (send_poll mgmt_addr data_addr unmarshal fuel pfuel prest crest NewClient range pc pc' P (consumerConfig kf g) cc' C boot addrs
    topic t id n a off l key value ∅ enc (flagMaxWaitMs kf) now servers) as (w1 & w2 & E1 & E2 & _); try done.
  { by rewrite HoP. }
  assert (0 <= end_off off l) as H0.
  { destruct Hs as [_ _ (sv & shard & p & _ & _ & _ & [(st & _ & Hrep) _])].
    pose proof (Storage.represents_log _ _ _ _ Hrep) as (_ & _ & _ & H0 & _). pose proof (end_off_mono off l). lia. }
  destruct (run_produce g f pc' P (end_off off l) {| cw_obj := P0; cw_clock := now; cw_servers := servers |} w1 HP Hacks Hv H0 E1) as [P' EP].
  rewrite <- Ht, <- Hpart, <- Hoff in E2.
  destruct (run_consume g kf cc' C _ {| cw_obj := C0; cw_clock := cw_clock w1; cw_servers := cw_servers w1 |} w2 HC Hg Hcount ltac:(lia) E2) as [C' EC].
  eexists _, _, _. split; [exact EP|]. split; [exact EC|]. rewrite Ht, Hpart, Hoff.
  unfold formatRecord. rewrite dec_enc; [done|]. pose proof (selected_range _ _ _ _ Hsel) as Hr. cbn -[Z.pow].
  unfold in_i32, in_i64 in *. split_and!; try done; try lia.
Qed.

End records.

(** ** In a group *)

Section group.
Context `{Float64}.
Variables (mgmt_addr data_addr : gmap string Z).
Variable unmarshal : list byte -> option (Z * Z).
Variable fuel : nat.
Variable uuid : server -> string.
Hypothesis uuid_drawn : forall sv, uuid sv <> "".
Variable ord : list string -> list string.
Hypothesis ord_perm : forall l, ord l ≡ₚ l.
Variable NewClient : string -> option error.
Hypothesis NewClient_ok : forall addr, NewClient addr = None.
Abbreviation chandle := (handle mgmt_addr data_addr unmarshal (Datatypes.S fuel) (group_rest (S := Consumer.Consumer) uuid ord data_addr)).
Abbreviation wof c now servers := {| cw_obj := c; cw_clock := now; cw_servers := servers |}.

(** When the first poll reaches the count, the command is one round of the library with the
    first records printed. *)
Lemma run_consume_group g f cc' C records w w' :
  Consumer.NewConsumer (consumerConfig f g) = Ok (cc', C) -> flagConsumeGroup f <> "" ->
  0 < flagConsumeCount f <= len records ->
  run chandle (one_round NewClient cc' [flagConsumeTopic f] (flagMaxWaitMs f)) (set_obj w C) = (Ok records, w') ->
  run (thandle chandle) (consumeCmd NewClient f 1 1 g) (Term w [] [] []) =
    (Ok tt, Term w' (inr ∘ formatRecord <$> take (Z.to_nat (flagConsumeCount f)) records) [] []).
Proof.
  intros HC Hg Hcount E. unfold one_round in E. rewrite run_call in E.
  destruct (run chandle (Consumer.Subscribe _ _ _) _) as [[[]| | |] w1] eqn:E1; try discriminate.
  rewrite run_call in E. destruct (run chandle (Consumer.Poll _ _ _ _) _) as [[rs| | |] w2] eqn:E2; try discriminate.
  rewrite run_call in E. unfold finish in E. rewrite run_bind in E.
  destruct (run chandle (Consumer.Commit _ _) _) as [r w3] eqn:E3. rewrite run_bind in E.
  destruct (run chandle (Consumer.Close _ _) _) as [errs w4] eqn:E4. destruct r as [[]| | |]; try discriminate. injection E as -> ->.
  unfold consumeCmd. rewrite HC, run_requests. unfold runConsume. rewrite (proj2 (String.eqb_neq _ _) Hg). cbn [andb negb].
  rewrite run_call, run_trigger. unfold khandle at 1. cbn [consume_request]. rewrite HC. unfold new.
  rewrite run_bind, run_trigger. cbn [thandle t_world t_out t_err t_in handle fst snd run].
  rewrite run_bind, run_call, run_trigger. unfold khandle at 1. cbn [consume_request]. rewrite run_lib, E1. cbn [poll_records].
  rewrite run_bind, run_trigger. unfold khandle at 1. cbn [consume_request]. rewrite run_lib, E2.
  rewrite run_bind, run_print_records by lia. rewrite (proj2 (Z.leb_le _ _)) by lia. cbn iota beta. rewrite Z.sub_0_r.
  unfold last_commit. rewrite (proj2 (String.eqb_neq _ _) Hg). cbn [negb].
  rewrite run_bind, run_trigger. unfold khandle at 1. cbn [consume_request]. rewrite run_lib, E3. cbn [run].
  rewrite run_bind, run_trigger. unfold khandle at 1. cbn [consume_request]. by rewrite run_lib, E4.
Qed.

(** [consume --group --count] loses records. On a cluster that coordinates groups and serves
    the one partition of a topic, where the next batch for the group holds more records than
    the count: the command prints the first [count] records and succeeds, but commits the
    position behind all records it has polled. The next consumer of the group starts there,
    more than [count] records later: those in between are given to no one. *)
Theorem count_skips f fB g C0 boot addrs t now servers n a sv m b off l rs rss now' :
  let topic := flagConsumeTopic f in
  let count := flagConsumeCount f in
  let opts := [KeepaliveParams 30000000000 10000000000] ++ Producer.dialOptions (Producer.defaultConfig (buildClientConfig g)) in
  BootstrapServers (buildClientConfig g) = boot :: addrs -> flagConsumeGroup f <> "" -> flagConsumeGroup fB = flagConsumeGroup f ->
  wait_ok (flagMaxWaitMs f) -> coordinated mgmt_addr data_addr servers boot opts n a sv ->
  GroupSem.members_of (sv_meta sv) (flagConsumeGroup f) = ∅ ->
  Metadata.Topics (sv_meta sv) !! topic = Some t -> Metadata.PartitionCount t = 1 ->
  serving mgmt_addr data_addr servers boot opts topic t 0 m b off l -> l <> [] -> stored_run off (rs :: rss) l ->
  flagOffsetReset f = "earliest" -> starts_at (consumerConfig f g) (sv_meta sv) (TP topic 0) = off ->
  0 < count < len rs ->
  exists w1 skipped ccB' B cB w2, count < skipped /\
    run (thandle chandle) (consumeCmd NewClient f 1 1 g) (Term (wof C0 now servers) [] [] []) =
      (Ok tt, Term w1 (inr ∘ formatRecord <$> take (Z.to_nat count) (Consumer.toRecord (TP topic 0) <$> numbered off (rs :: rss))) [] []) /\
    Consumer.NewConsumer (consumerConfig fB g) = Ok (ccB', B) /\
    run chandle (Consumer.Subscribe NewClient ccB' [topic]) (wof B now' (cw_servers w1)) = (Ok tt, w2) /\ cw_obj w2 = cB /\
    Consumer.fetchOffsets cB !! TP topic 0 = Some (off + skipped).
Proof.
  intros topic count opts Hb Hg HgB Hw Hc Hm Ht H1 Hs Hne Hrun Hreset Hoff Hcount.
  destruct (new_consumer f g boot addrs Hb) as (cc' & C & HC). destruct (new_consumer fB g boot addrs Hb) as (ccB' & B & HB).
  destruct (new_member _ _ _ HC) as (_ & HoC & _). destruct (new_member _ _ _ HB) as (_ & HoB & _).
  destruct (run_one_round mgmt_addr data_addr unmarshal fuel uuid uuid_drawn ord ord_perm NewClient NewClient_ok (consumerConfig f g) cc' C boot addrs
    topic t now servers n a sv m b off [] l (rs :: rss) (flagMaxWaitMs f))
    as (r1 & r2 & s1 & s2 & c' & sv' & Er & El & Hne1 & _ & Ee & E1 & [Hc1 Hk1] & Hm1 & Hcom1); try done; cbn [app end_off] in *.
  { by left. } { by rewrite HoC. } { by rewrite HoC. } { left. cbn. unfold parseOffsetReset. by rewrite Hreset. }
  assert (0 <= off < end_off off s1) as H0.
  { pose proof Hs as [_ _ (svl & shard & p & _ & _ & _ & [(st & _ & Hrep) _])]. subst l.
    pose proof (Storage.represents_log _ _ _ _ Hrep) as (Hch & _ & _ & H0 & _). split; [done|].
    apply chain_app in Hch as [Hch _]. by apply Storage.chain_nonempty. }
  destruct r1 as [|r r1']; [exfalso; rewrite Ee in H0; change (len (concat _)) with 0 in H0; lia|]. cbn [app] in Er. injection Er as <- Erss.
  assert (len rs <= len (concat (rs :: r1'))) as Hlen by (cbn [concat]; rewrite len_app; pose proof (len_nonneg (concat r1')); lia).
  pose proof (all_partitions_one _ _ _ Ht H1) as Eall. pose proof Hk1 as (_ & Et1 & _).
  pose proof (all_partitions_topics _ _ [topic] Et1) as Eall1. rewrite Eall in Eall1.
  destruct (subscribe_new mgmt_addr data_addr unmarshal (Datatypes.S fuel) uuid uuid_drawn ord ord_perm NewClient NewClient_ok
    (consumerConfig fB g) ccB' B boot addrs [topic] now' (<[n := sv']> servers) n a sv') as (cB & sv2 & E2 & _ & _ & _ & _ & _ & Hf2); try done.
  { cbn. by rewrite HgB. } { by left. } { rewrite HoB. rewrite HoC in Hc1. exact Hc1. } { apply NoDup_singleton. }
  { intros t' ->%list_elem_of_singleton. rewrite Et1. by eexists. } { cbn. by rewrite HgB. }
  { rewrite Eall1. intros tp ->%list_elem_of_singleton. right. cbn. rewrite HgB. cbn in Hcom1. rewrite Hcom1. lia. }
  assert (len (Consumer.toRecord (TP topic 0) <$> numbered off (rs :: r1')) = len (concat (rs :: r1'))) as Hl.
  { unfold len. rewrite length_fmap. apply len_numbered. }
  eexists _, (len (concat (rs :: r1'))), ccB', B, cB, _. split; [lia|]. split.
  - erewrite (run_consume_group g f cc' C _ (wof C0 now servers)); [|exact HC|done|rewrite Hl; fold count; lia|exact E1].
    rewrite Erss. change (rs :: r1' ++ r2) with ((rs :: r1') ++ r2). rewrite numbered_app, fmap_app, take_app_le; [done|].
    unfold len in *. fold count. lia.
  - split; [done|]. split; [exact E2|]. split; [done|]. rewrite Hf2 by (rewrite Eall1; by left). f_equal.
    unfold starts_at. cbn. rewrite HgB. cbn in Hcom1. rewrite Hcom1, (proj2 (Z.gtb_lt _ _)) by lia. done.
Qed.

End group.

End CliRun.
