(* ===== verification/ClientExamples.v ===== *)
(** * The client theorems at concrete states

    One broker that leads partition 0 of the topics "t" and "u": "t" holds one batch of two
    records, "u" is empty and starts at offset 5, as retention can leave it. Producers and
    consumers of this cluster satisfy the hypotheses of the theorems of the client files. *)

From S2P Require Import Prelude Batch LogSegment BatchLog Keys Metadata MetadataInv Prog Segment Storage StorageExamples Partition GroupCoord GroupSem GroupRun DataCoord ClusterCoord ClusterPlace ApiData DataRun ClusterRun ClusterServe ApiMgmt ClientCodec Config ClientNet ClientWorld Producer Consumer Auth Admin ProducerRun ClientRun ClientServe ClientGroup GroupServe AdminRun.
Local Open Scope Z_scope.

Module ClientExamples.
Import Keys BatchLog Seg ClusterCoord ClientNet ClientWorld ClientCodec ClientRun ClientServe.

(** Whole numbers in place of floats. *)
#[global] Instance Z_float : Float64 :=
  {| f64 := Z; f64_of_Z := id; f64_mul := Z.mul; f64_pow := Z.pow; f64_ltb := Z.ltb; f64_eqb := Z.eqb; f64_trunc := id |}.

(** ** The broker *)

Definition topic_cmd (name : string) : Metadata.MetadataCommand :=
  Metadata.CmdCreateTopic (Some {| Metadata.ct_Name := name; Metadata.ct_PartitionCount := 1; Metadata.ct_ReplicationFactor := 1;
    Metadata.ct_RetentionMs := 0; Metadata.ct_RetentionBytes := -1; Metadata.ct_CreatedAtMs := 0;
    Metadata.ct_ReplicaNodeIDs := [[1]] |}).
Definition leader_cmd (name : string) : Metadata.MetadataCommand :=
  Metadata.CmdAssignPartitionLeader (Some {| Metadata.al_Topic := name; Metadata.al_PartitionID := 0; Metadata.al_LeaderNodeID := 1;
    Metadata.al_LeaderEpoch := 1 |}).
Definition meta_log : list (option Metadata.MetadataCommand) :=
  [Some (Metadata.CmdRegisterNode (Some {| Metadata.NodeID := 1; Metadata.Address := "b:9092" |}));
   Some (topic_cmd "t"); Some (topic_cmd "u"); Some (leader_cmd "t"); Some (leader_cmd "u")].
Definition meta_tu : Metadata.MetadataState := ClusterPlace.after meta_log.

Lemma meta_tu_ok : MetadataInv.meta_ok meta_tu.
Proof.
  apply (ClusterServe.replay_ok meta_log); [vm_compute; reflexivity| |vm_compute; reflexivity].
  repeat constructor; vm_compute; congruence.
Qed.

Definition conf : Config.Config :=
  {| Config.NodeID := 1; Config.RaftAddress := "b:7000"; Config.ManagementAddr := "b:9090"; Config.DataAddr := "b:9092";
     Config.AdvertiseDataAddr := ""; Config.DataDir := "/data"; Config.RaftRTTMs := 200; Config.Peers := {[ 1 := "b:7000" ]};
     Config.AuthTokens := []; Config.Storage := StorageExamples.cfg0;
     Config.Coordinator := {| Config.cf_ReconcileIntervalMs := 5000; Config.cf_LeaderCheckIntervalMs := 1000;
       Config.cf_BootstrapTimeoutMs := 30000; Config.cf_EagerReconcileOnCreate := false; Config.cf_GroupSweepIntervalMs := 1000 |}; Config.MetricsAddr := ""; Config.PprofAddr := "" |}.

Definition entry_of (name : string) (shard : Z) : DataCoord.shardEntry :=
  {| DataCoord.se_ShardID := shard; DataCoord.se_Topic := name; DataCoord.se_PartitionID := 0 |}.
Definition broker (u : Storage.storageImpl) : server :=
  {| sv_config := conf; sv_leader := ClusterServe.elected;
     sv_node := {| ClusterRun.c_node :=
         {| DataRun.n_meta := meta_tu; DataRun.n_shards := {[ 1 := Partition.p_at StorageExamples.st1; 2 := Partition.p_at u ]};
            DataRun.n_registry := {[ PKey "t" 0 := entry_of "t" 1; PKey "u" 0 := entry_of "u" 2 ]};
            DataRun.n_cache := ∅; DataRun.n_clock := 0; DataRun.n_index := 8 |};
       ClusterRun.c_disks := ∅; ClusterRun.c_running := ∅; ClusterRun.c_leaders := ∅; ClusterRun.c_tasks := [] |};
     sv_heartbeats := ∅ |}.
Definition servers (u : Storage.storageImpl) : gmap Z server := {[ 1 := broker u ]}.
Definition maddr : gmap string Z := {[ "b:9090" := 1 ]}.
Definition daddr : gmap string Z := {[ "b:9092" := 1 ]}.
Definition dials (addr : string) : option error := None.

(** Group requests are refused. *)
Definition refuse {S} X (e : netE S X) : world S -> X * world S :=
  match e in netE _ X return world S -> X * world S with
  | Mem f => fun w => ((f (cw_obj w)).1, set_obj w (f (cw_obj w)).2)
  | Now => fun w => (cw_clock w, w)
  | Sleep _ => fun w => (tt, w)
  | Done => fun w => (None, w)
  | Order entries => fun w => (entries, w)
  | CloseConn _ => fun w => (None, w)
  | RDescribeTopic _ _ | RDescribeCluster _ | RCreateTopic _ _ _ _ _ _ | RDeleteTopic _ _ | RListTopics _
  | RAlterPartitions _ _ _ | RAlterRetention _ _ _ _ | RListPartitions _ _ | RProduce _ _ _ _ _ | RFetch _ _ _ _ _ _
  | RGetOffsets _ _ _ _ | RJoinGroup _ _ _ _ _ _ | RHeartbeat _ _ _ _ | RLeaveGroup _ _ _ | RCommitOffset _ _ _ _ _
  | RFetchCommitted _ _ _ => fun w => (inl unavailable, w)
  end.

Definition topic_of (name : string) : Metadata.TopicMeta :=
  default {| Metadata.Name := ""; Metadata.PartitionCount := 0; Metadata.ReplicationFactor := 0; Metadata.RetentionMs := 0;
             Metadata.RetentionBytes := 0; Metadata.CreatedAtMs := 0 |} (Metadata.Topics meta_tu !! name).

Lemma reaches_broker addrs addr opts u :
  addrs !! addr = Some 1 -> reaches (servers u) addrs addr opts 1 (broker u).
Proof. intros H. constructor; [done|done|reflexivity]. Qed.

Lemma describes_broker name shard u :
  Metadata.Partitions meta_tu !! PKey name 0 = Some (Metadata.set_leader (Metadata.new_partition name 0 shard [1]) 1 1) ->
  describes (broker u) name 0 1 "b:9092".
Proof.
  intros Hp. constructor.
  - exact meta_tu_ok.
  - intros k ni Hk. assert (Metadata.Nodes meta_tu = {[ 1 := {| Metadata.NodeID := 1; Metadata.Address := "b:9092" |} ]}) as E
      by (vm_compute; reflexivity).
    change (Metadata.Nodes meta_tu !! k = Some ni) in Hk. rewrite E in Hk. by apply lookup_singleton_Some in Hk as [<- <-].
  - eexists. split; [exact Hp|done].
  - eexists. split; [vm_compute; reflexivity|done].
Qed.

(** The broker serves a topic whose shard is live. *)
Lemma serving_broker name shard opts u p off l :
  Metadata.Topics meta_tu !! name = Some (topic_of name) ->
  Metadata.Partitions meta_tu !! PKey name 0 = Some (Metadata.set_leader (Metadata.new_partition name 0 shard [1]) 1 1) ->
  DataRun.n_registry (ClusterRun.c_node (sv_node (broker u))) !! PKey name 0 = Some (entry_of name shard) ->
  DataRun.n_shards (ClusterRun.c_node (sv_node (broker u))) !! shard = Some p ->
  Partition.fsm_live StorageExamples.cfg0 p off l ->
  serving maddr daddr (servers u) "b:9090" opts name (topic_of name) 0 1 "b:9092" off l.
Proof.
  intros Ht Hp Hreg Hsh Hl. constructor.
  - exists 1, (broker u). split; [by apply reaches_broker|]. split; [by eapply describes_broker|exact Ht].
  - done.
  - exists (broker u), shard, p. split; [by apply reaches_broker|]. split; [|split; [exact StorageExamples.cfg0_ok|exact Hl]].
    constructor; [eexists; split; [exact Hp|done]|eexists; split; [exact Hreg|done]|exact Hsh].
Qed.

Lemma serving_t opts u : serving maddr daddr (servers u) "b:9090" opts "t" (topic_of "t") 0 1 "b:9092" 0 [StorageExamples.b0_at 0].
Proof.
  apply (serving_broker "t" 1 opts u (Partition.p_at StorageExamples.st1)); [vm_compute; reflexivity|vm_compute; reflexivity|done|done|].
  apply (Partition.fsm_ok_live _ _ _ _ 7), Partition.p_at_ok, StorageExamples.st1_ok.
Qed.

Lemma serving_u opts u :
  Storage.represents StorageExamples.cfg0 u 5 [] ->
  serving maddr daddr (servers u) "b:9090" opts "u" (topic_of "u") 0 1 "b:9092" 5 [].
Proof.
  intros Hu. apply (serving_broker "u" 2 opts u (Partition.p_at u)); [vm_compute; reflexivity|vm_compute; reflexivity|done|done|].
  constructor; [by exists u|done].
Qed.

Lemma b0_stored : stored_run 0 [Batch.sample_records] [StorageExamples.b0_at 0].
Proof.
  split; [|done]. exists Batch.sample_encoded. split; [vm_compute; reflexivity|]. split; [vm_compute; congruence|].
  split; [reflexivity|]. repeat constructor; vm_compute; congruence.
Qed.

(** ** Clients *)

Definition cl_conf : ClientNet.Config :=
  {| BootstrapServers := ["b:9090"]; AuthToken := ""; TLS := false; RequestTimeout := 0;
     Retry := {| MaxRetries := 3; InitialBackoff := 100; MaxBackoff := 1000; BackoffFactor := 2 |} |}.
Definition no_consumer : Consumer.Consumer :=
  {| Consumer.co_pool := NewConnPool []; Consumer.co_meta := NewMetaCache 0; Consumer.stopHeartbeat := None; Consumer.fetchOffsets := ∅;
     Consumer.soughtPartitions := []; Consumer.subscribedTopics := []; Consumer.memberID := ""; Consumer.generationID := 0;
     Consumer.coordAddr := ""; Consumer.assignedPartitions := []; Consumer.rebalancing := false |}.
Definition cc0 : Consumer.ConsumerConfig :=
  {| Consumer.cc_Config := cl_conf; Consumer.GroupID := ""; Consumer.MaxFetchBytes := 0; Consumer.MaxFetchWaitMs := 0;
     Consumer.AutoOffsetReset := Consumer.OffsetResetEarliest; Consumer.HeartbeatIntervalMs := 0; Consumer.SessionTimeoutMs := 0 |}.
Definition cc1 : Consumer.ConsumerConfig := match Consumer.NewConsumer cc0 with Ok (cc, _) => cc | _ => cc0 end.
Definition co1 : Consumer.Consumer := match Consumer.NewConsumer cc0 with Ok (_, c) => c | _ => no_consumer end.
Definition pc0 : Producer.ProducerConfig := {| Producer.pc_Config := cl_conf; Producer.DefaultAcks := 0; Producer.MetadataCacheTTL := 0 |}.
Definition any_order (i : nat) (m : headers) : list (list byte * list byte) := map_to_list m.

Lemma no_wait : wait_ok 100.
Proof. split; lia. Qed.

Lemma consumer_drains_witness :
  exists k w', (k <= 1)%nat /\
    run (handle maddr daddr Partition.no_json 1 refuse) (_ ← Consumer.Seek "t" 0 0; poll_times dials cc1 k 100)
      {| cw_obj := co1; cw_clock := 0; cw_servers := servers StorageExamples.st0 |} =
      (Ok (Consumer.toRecord (TP "t" 0) <$> numbered 0 [Batch.sample_records]), w') /\
    Consumer.fetchOffsets (cw_obj w') !! TP "t" 0 = Some 2.
Proof.
  destruct (consumer_drains maddr daddr Partition.no_json 0 refuse dials cc1 "b:9090" [] "t" (topic_of "t") 0 1 "b:9092" 0 []
    [StorageExamples.b0_at 0] [Batch.sample_records] 100 {| cw_obj := co1; cw_clock := 0; cw_servers := servers StorageExamples.st0 |})
    as (k & w' & H).
  - reflexivity.
  - vm_compute. congruence.
  - exact no_wait.
  - reflexivity.
  - apply serving_t.
  - apply (new_consumer_ready cc0 cc1 co1). reflexivity.
  - reflexivity.
  - reflexivity.
  - reflexivity.
  - reflexivity.
  - exact b0_stored.
  - exists k, w'. exact H.
Defined.

(** ** Groups *)

Definition gcc0 : Consumer.ConsumerConfig :=
  {| Consumer.cc_Config := cl_conf; Consumer.GroupID := "g"; Consumer.MaxFetchBytes := 0; Consumer.MaxFetchWaitMs := 0;
     Consumer.AutoOffsetReset := Consumer.OffsetResetEarliest; Consumer.HeartbeatIntervalMs := 0; Consumer.SessionTimeoutMs := 0 |}.
Definition gcc1 : Consumer.ConsumerConfig := match Consumer.NewConsumer gcc0 with Ok (cc, _) => cc | _ => gcc0 end.
Definition gco1 : Consumer.Consumer := match Consumer.NewConsumer gcc0 with Ok (_, c) => c | _ => no_consumer end.
Definition drawn (sv : server) : string := "uuid".

Lemma meta_tu_groups : GroupSem.groups_ok meta_tu.
Proof.
  constructor.
  - intros t m Ht. pose proof (MetadataInv.mo_topics _ meta_tu_ok t m Ht). lia.
  - assert (Metadata.GroupStates meta_tu = ∅) as -> by (vm_compute; reflexivity). intros g gs Hg. by rewrite lookup_empty in Hg.
Qed.

Lemma coordinated_broker opts u : ClientGroup.coordinated maddr daddr (servers u) "b:9090" opts 1 "b:9092" (broker u).
Proof.
  constructor; [|done|by apply reaches_broker|reflexivity|exact meta_tu_groups].
  exists 1, (broker u). do 2 eexists. split; [by apply reaches_broker|]. split; [vm_compute; reflexivity|by left].
Qed.

Lemma no_members_tu g : GroupSem.members_of meta_tu g = ∅.
Proof. unfold GroupSem.members_of. assert (Metadata.GroupStates meta_tu = ∅) as -> by (vm_compute; reflexivity). by rewrite lookup_empty. Qed.

(** The first consumer gets both records, the second nothing more. *)
Lemma group_reads_once_witness :
  exists k recsA recsB cA servers' w',
    run (handle maddr daddr Partition.no_json 1 (ClientGroup.group_rest drawn id daddr)) (GroupServe.one_round dials gcc1 ["t"] 100)
      {| cw_obj := gco1; cw_clock := 0; cw_servers := servers StorageExamples.st0 |} =
      (Ok recsA, {| cw_obj := cA; cw_clock := 0; cw_servers := servers' |}) /\
    run (handle maddr daddr Partition.no_json 1 (ClientGroup.group_rest drawn id daddr)) (GroupServe.drain dials gcc1 ["t"] k 100)
      {| cw_obj := gco1; cw_clock := 9; cw_servers := servers' |} = (Ok recsB, w') /\
    recsA ++ recsB = Consumer.toRecord (TP "t" 0) <$> numbered 0 [Batch.sample_records] /\ recsA <> [].
Proof.
  apply (GroupServe.group_reads_once maddr daddr Partition.no_json 0 drawn (fun _ => ltac:(discriminate)) id (fun _ => reflexivity _) dials
    (fun _ => eq_refl) gcc0 gcc1 gco1 gcc0 gcc1 gco1 "b:9090" [] "t" (topic_of "t") 0 9 (servers StorageExamples.st0) 1 "b:9092"
    (broker StorageExamples.st0) 1 "b:9092" 0 [] [StorageExamples.b0_at 0] [Batch.sample_records] 100); try reflexivity; try discriminate.
  - left. reflexivity.
  - left. reflexivity.
  - exact no_wait.
  - apply coordinated_broker.
  - apply serving_t.
  - exact b0_stored.
  - left. reflexivity.
Defined.

(** The group moves on from offset 2 of "t" and 7 of "u". *)
Lemma group_handover_witness :
  exists cA servers1,
    run (handle maddr daddr Partition.no_json 1 (ClientGroup.group_rest drawn id daddr)) (Consumer.Subscribe dials gcc1 ["u"; "t"])
      {| cw_obj := gco1; cw_clock := 0; cw_servers := servers StorageExamples.st0 |} =
      (Ok tt, {| cw_obj := cA; cw_clock := 0; cw_servers := servers1 |}) /\
    Consumer.soughtPartitions cA = [TP "t" 0; TP "u" 0] /\
    exists cA' servers2 cB servers3,
      run (handle maddr daddr Partition.no_json 1 (ClientGroup.group_rest drawn id daddr)) (ClientGroup.finish dials gcc1)
        {| cw_obj := Consumer.set_positions cA {[ TP "t" 0 := 2; TP "u" 0 := 7 ]} [TP "t" 0; TP "u" 0]; cw_clock := 5; cw_servers := servers1 |} =
        (Ok tt, {| cw_obj := cA'; cw_clock := 5; cw_servers := servers2 |}) /\
      run (handle maddr daddr Partition.no_json 1 (ClientGroup.group_rest drawn id daddr)) (Consumer.Subscribe dials gcc1 ["u"; "t"])
        {| cw_obj := gco1; cw_clock := 6; cw_servers := servers2 |} = (Ok tt, {| cw_obj := cB; cw_clock := 6; cw_servers := servers3 |}) /\
      Consumer.soughtPartitions cB = [TP "t" 0; TP "u" 0] /\ Consumer.fetchOffsets cB !! TP "u" 0 = Some 7.
Proof.
  assert (ClientGroup.all_partitions meta_tu ["u"; "t"] = [TP "t" 0; TP "u" 0]) as Eall by (vm_compute; reflexivity).
  destruct (ClientGroup.group_handover maddr daddr Partition.no_json 1 drawn (fun _ => ltac:(discriminate)) id (fun _ => reflexivity _) dials
    (fun _ => eq_refl) gcc0 gcc1 gco1 gcc0 gcc1 gco1 "b:9090" [] ["u"; "t"] 0 (servers StorageExamples.st0) 1 "b:9092"
    (broker StorageExamples.st0)) as (cA & servers1 & E1 & Hsp & _ & H).
  - reflexivity.
  - reflexivity.
  - reflexivity.
  - reflexivity.
  - discriminate.
  - reflexivity.
  - left. reflexivity.
  - left. reflexivity.
  - apply coordinated_broker.
  - apply (bool_decide_unpack _). vm_compute. exact I.
  - intros t Ht. apply elem_of_cons in Ht as [-> | ->%list_elem_of_singleton]; (eexists; vm_compute; reflexivity).
  - apply no_members_tu.
  - intros tp _. left. reflexivity.
  - change (sv_meta (broker StorageExamples.st0)) with meta_tu in *. rewrite Eall in *.
    destruct (H {[ TP "t" 0 := 2; TP "u" 0 := 7 ]} 5 6) as (cA' & servers2 & cB & servers3 & E2 & E3 & HspB & HfB).
    { intros tp [-> | ->%list_elem_of_singleton]%elem_of_cons; eexists; (split; [vm_compute; reflexivity|lia]). }
    exists cA, servers1. split; [exact E1|]. split; [exact Hsp|]. exists cA', servers2, cB, servers3. split; [exact E2|]. split; [exact E3|].
    split; [exact HspB|]. rewrite HfB by (right; by left). vm_compute. reflexivity.
Defined.

(** ** Producers *)

Definition pr1 : Producer.ProducerConfig * Producer.Producer :=
  match Producer.NewProducer pc0 with
  | Ok r => r
  | _ => (pc0, {| Producer.pr_pool := NewConnPool []; Producer.pr_meta := NewMetaCache 0; Producer.roundRobinCounter := 0 |})
  end.
Definition record1 : BatchRecord :=
  {| br_Key := None; br_Value := byte.of_Z <$> [1; 2; 3]; br_Headers := {[ [byte.of_Z 104] := [byte.of_Z 7] ]}; br_TimestampMs := 5 |}.
Definition enc1 : list byte := Eval vm_compute in match Encode any_order [record1] with Ok b => b | _ => [] end.

Lemma send_then_poll_witness :
  exists w1 w2,
    run (handle maddr daddr Partition.no_json 1 refuse)
      (Producer.Send dials any_order (Producer.pc_Config pr1.1) "t" None (br_Value record1) (br_Headers record1) 0)
      {| cw_obj := pr1.2; cw_clock := 5000000; cw_servers := servers StorageExamples.st0 |} = (Ok 2, w1) /\
    run (handle maddr daddr Partition.no_json 1 refuse) (_ ← Consumer.Seek "t" 0 2; Consumer.Poll dials cc1 0 100)
      {| cw_obj := co1; cw_clock := cw_clock w1; cw_servers := cw_servers w1 |} =
      (Ok [{| Consumer.Topic := "t"; Consumer.PartitionID := 0; Consumer.Offset := 2; Consumer.Key := None;
              Consumer.Value := br_Value record1; Consumer.Headers := br_Headers record1; Consumer.TimestampMs := 5 |}], w2) /\
    Consumer.fetchOffsets (cw_obj w2) !! TP "t" 0 = Some 3.
Proof.
  apply (send_then_poll maddr daddr Partition.no_json 0 0 refuse refuse dials any_order pc0 pr1.1 pr1.2 cc0 cc1 co1 "b:9090" []
    "t" (topic_of "t") 0 1 "b:9092" 0 [StorageExamples.b0_at 0] None (br_Value record1) (br_Headers record1) enc1 100 5000000
    (servers StorageExamples.st0)).
  - reflexivity.
  - reflexivity.
  - reflexivity.
  - reflexivity.
  - reflexivity.
  - exact no_wait.
  - reflexivity.
  - reflexivity.
  - done.
  - vm_compute. reflexivity.
  - apply serving_t.
  - intros sv Hsv. unfold servers in Hsv. apply lookup_singleton_Some in Hsv as [_ <-]. vm_compute. split; congruence.
  - vm_compute. reflexivity.
  - vm_compute. congruence.
  - vm_compute. split; congruence.
  - vm_compute. reflexivity.
Defined.

(** A consumer of both partitions that starts at 0. *)
Definition co2 : Consumer.Consumer := Consumer.seek (TP "u" 0) 0 (Consumer.seek (TP "t" 0) 0 co1).

Lemma failed_poll_loses_witness :
  exists u w' next,
    run (handle maddr daddr Partition.no_json 1 refuse) (Consumer.Poll dials cc1 0 100)
      {| cw_obj := co2; cw_clock := 0; cw_servers := servers u |} = (Err out_of_range, w') /\
    0 < next /\ Consumer.fetchOffsets (cw_obj w') !! TP "t" 0 = Some next.
Proof.
  destruct DataRun.log_at_5 as [u Hu].
  destruct (failed_poll_loses maddr daddr Partition.no_json 0 refuse dials cc1 0 "b:9090" [] (TP "t" 0) (topic_of "t") 1 "b:9092" 0 []
    [Batch.sample_records] [StorageExamples.b0_at 0] (TP "u" 0) (topic_of "u") 1 "b:9092" 5 [] 0 100
    {| cw_obj := co2; cw_clock := 0; cw_servers := servers u |}) as (w' & next & H1 & H2 & H3 & _).
  - reflexivity.
  - vm_compute. congruence.
  - exact no_wait.
  - reflexivity.
  - apply serving_t.
  - by apply serving_u.
  - discriminate.
  - reflexivity.
  - apply NewConnPool_ok.
  - vm_compute. congruence.
  - reflexivity.
  - reflexivity.
  - reflexivity.
  - reflexivity.
  - reflexivity.
  - reflexivity.
  - lia.
  - exact b0_stored.
  - discriminate.
  - exists u, w', next. exact (conj H1 (conj H2 H3)).
Defined.

Lemma Decode_Encode_witness : Decode (Batch.withBaseOffset enc1 7) = Ok (imap (delivered 7) [record1], None).
Proof.
  apply (Decode_Encode any_order [record1] enc1 7).
  - done.
  - vm_compute. reflexivity.
  - vm_compute. congruence.
  - repeat constructor; vm_compute; congruence.
  - vm_compute. split; congruence.
  - vm_compute. reflexivity.
Defined.

Lemma selectPartition_spreads_witness :
  Producer.select_run 3 3 5 ≡ₚ [Ok 0; Ok 1; Ok 2].
Proof. apply (Producer.selectPartition_spreads 3); lia. Defined.

(** ** A broker that has been deposed *)

Definition refusal : error := ErrStatus 9 [BunnyErrorDetail NOT_LEADER; NotLeaderDetail 0 ""].
Definition stale : Producer.Producer :=
  {| Producer.pr_pool := NewConnPool []; Producer.roundRobinCounter := 0;
     Producer.pr_meta := {| mc_objects := [{| PartitionCount := 1; Leaders := {[ 0 := "old:9092" ]}; FetchedAt := 0 |}];
                            mc_cache := {[ "t" := 0%nat ]}; mc_ttl := 1000 |} |}.
Definition pw0 : ProducerRun.pworld := {| ProducerRun.pw_obj := stale; ProducerRun.pw_clock := 10; ProducerRun.pw_asked := [] |}.

Lemma not_leader_stuck_witness :
  exists w', run (ProducerRun.handle [] [] refusal) (Producer.sendToPartition dials cl_conf "t" 0 enc1 0) pw0 = (Err refusal, w') /\
    ProducerRun.pw_asked w' = replicate 4 "old:9092".
Proof.
  destruct (ProducerRun.not_leader_stuck [] [] refusal dials cl_conf "t" 0 enc1 0 "old:9092" pw0) as (w' & H1 & H2 & _).
  - reflexivity.
  - reflexivity.
  - exists 0%nat. eexists. repeat split. cbn. lia.
  - discriminate.
  - apply NewConnPool_ok.
  - reflexivity.
  - exists w'. exact (conj H1 H2).
Defined.

Lemma sendToPartition_reported_witness :
  exists t, let r := (run (ProducerRun.handle [] [] refusal) (Producer.sendToPartition dials cl_conf "t" 0 enc1 0) pw0).1 in
    Producer.sends dials cl_conf "t" 0 0 enc1 3 t r /\ Producer.reported ("t", 0, 0, enc1) 4 (Producer.sent t) r.
Proof.
  destruct (run_path answers (ProducerRun.handle [] [] refusal) (Producer.sendToPartition dials cl_conf "t" 0 enc1 0) pw0
    (ProducerRun.handle_answers [] [] refusal)) as [t Ht].
  exists t. exact (Producer.sendToPartition_reported dials cl_conf "t" 0 enc1 0 t _ Ht).
Defined.

(** ** Administration *)

Definition ad1 : ClientNet.Config * Admin.AdminClient :=
  match Admin.NewAdminClient cl_conf with
  | Ok r => r
  | _ => (cl_conf, {| Admin.ac_pool := NewConnPool []; Admin.ac_addr := "" |})
  end.
Definition aw0 (u : Storage.storageImpl) : world Admin.AdminClient := {| cw_obj := ad1.2; cw_clock := 0; cw_servers := servers u |}.

Lemma admin_reaches_broker u : AdminRun.admin_reaches maddr dials ad1.2 (servers u) 1 (broker u).
Proof. constructor; [apply NewConnPool_ok|done|by apply reaches_broker]. Qed.

Lemma admin_errors_untyped_witness :
  exists a', run (handle maddr daddr Partition.no_json 1 refuse) (Admin.DeleteTopic dials ad1.1 "gone") (aw0 StorageExamples.st0) =
    (Err AdminRun.internal_error, set_obj (aw0 StorageExamples.st0) a').
Proof.
  destruct (AdminRun.admin_errors_untyped maddr daddr Partition.no_json 1 refuse dials ad1.1 (aw0 StorageExamples.st0) 1
    (broker StorageExamples.st0) "gone" (admin_reaches_broker _)) as (Hno & _).
  assert (Metadata.Topics meta_tu !! "gone" = None) as Hn by (vm_compute; reflexivity).
  exact (proj1 (Hno Hn)).
Defined.

Lemma refuse_answers X (e : netE Admin.AdminClient X) w : answers X e (refuse X e w).1.
Proof. destruct e; cbn; eauto. Qed.


(** A broker without topics. *)
Definition log_new : list (option Metadata.MetadataCommand) :=
  [Some (Metadata.CmdRegisterNode (Some {| Metadata.NodeID := 1; Metadata.Address := "b:9092" |}))].
Definition meta_new : Metadata.MetadataState := ClusterPlace.after log_new.
Definition new_broker : server := {| sv_config := conf; sv_leader := ClusterServe.elected; sv_node := ClusterServe.node_with meta_new;
  sv_heartbeats := ∅ |}.
Definition req1 : Admin.CreateTopicRequest :=
  {| Admin.cr_Name := "orders"; Admin.cr_PartitionCount := 1; Admin.cr_ReplicationFactor := 1; Admin.cr_RetentionMs := 0;
     Admin.cr_RetentionBytes := 0 |}.

Lemma new_broker_ready : AdminRun.broker_ready new_broker req1 1 "b:9092".
Proof.
  constructor.
  - reflexivity.
  - exact StorageExamples.cfg0_ok.
  - constructor; [by vm_compute|by vm_compute|cbn; lia|vm_compute; split; congruence| | |by vm_compute].
    + intros id ni. change (Metadata.Nodes meta_new !! id = Some ni -> Metadata.NodeID ni = id).
      assert (Metadata.Nodes meta_new = {[ 1 := {| Metadata.NodeID := 1; Metadata.Address := "b:9092" |} ]}) as -> by (vm_compute; reflexivity).
      by intros [<- <-]%lookup_singleton_Some.
    + apply (ClusterServe.replay_ok log_new); [vm_compute; reflexivity|repeat constructor|vm_compute; reflexivity].
  - constructor; [|done|done]. intros sh info. split; [done|]. intros (k & p & Hk & _).
    change (Metadata.Partitions meta_new !! k = Some p) in Hk.
    assert (Metadata.Partitions meta_new = ∅) as E by (vm_compute; reflexivity). by rewrite E, lookup_empty in Hk.
  - intros sh _. exists 3. split; [reflexivity|lia].
  - eexists. split; [vm_compute; reflexivity|]. split; [reflexivity|discriminate].
  - vm_compute. split; congruence.
Qed.

Lemma new_topic_usable_witness :
  exists info w1 w2 w3 order sv1,
    run (handle maddr daddr Partition.no_json 1 refuse) (Admin.CreateTopic dials ad1.1 req1)
      {| cw_obj := ad1.2; cw_clock := 5000000; cw_servers := {[ 1 := new_broker ]} |} = (Ok info, w1) /\
    run (handle maddr daddr Partition.no_json 1 refuse)
      (Producer.Send dials any_order (Producer.pc_Config pr1.1) "orders" None (br_Value record1) (br_Headers record1) 0)
      {| cw_obj := pr1.2; cw_clock := 5000000; cw_servers := <[1 := AdminRun.background Partition.no_json order sv1]> (cw_servers w1) |} =
      (Ok 0, w2) /\
    run (handle maddr daddr Partition.no_json 1 refuse) (_ ← Consumer.Seek "orders" 0 0; Consumer.Poll dials cc1 0 100)
      {| cw_obj := co1; cw_clock := cw_clock w2; cw_servers := cw_servers w2 |} =
      (Ok [{| Consumer.Topic := "orders"; Consumer.PartitionID := 0; Consumer.Offset := 0; Consumer.Key := None;
              Consumer.Value := br_Value record1; Consumer.Headers := br_Headers record1; Consumer.TimestampMs := 5 |}], w3).
Proof.
  destruct (AdminRun.new_topic_usable maddr daddr Partition.no_json 0 0 refuse refuse refuse dials any_order cl_conf ad1.1 ad1.2
    {[ 1 := new_broker ]} "b:9090" [] 1 "b:9092" new_broker req1 5000000) as (info & w1 & sv1 & E & _ & Hall).
  - reflexivity.
  - reflexivity.
  - reflexivity.
  - reflexivity.
  - done.
  - constructor; [reflexivity|reflexivity|reflexivity].
  - constructor; [reflexivity|reflexivity|reflexivity].
  - exact new_broker_ready.
  - assert (ti_PartitionCount info = 1) as Hc.
    { assert (ti_PartitionCount <$> (match (run (handle maddr daddr Partition.no_json 1 refuse) (Admin.CreateTopic dials ad1.1 req1)
        {| cw_obj := ad1.2; cw_clock := 5000000; cw_servers := {[ 1 := new_broker ]} |}).1 with Ok i => Some i | _ => None end) = Some 1) as H
        by (vm_compute; reflexivity).
      rewrite E in H. by injection H. }
    destruct (Hall _ (Permutation_refl _) pc0 pr1.1 pr1.2 cc0 cc1 co1 None (br_Value record1) (br_Headers record1) enc1 0 [1] 100)
      as (w2 & w3 & H2 & H3); [reflexivity|reflexivity|reflexivity|reflexivity|reflexivity|exact no_wait| | |vm_compute; reflexivity| | | | |].
    + rewrite Hc. vm_compute. reflexivity.
    + rewrite Hc. lia.
    + by apply list_elem_of_singleton.
    + vm_compute. reflexivity.
    + vm_compute. congruence.
    + vm_compute. split; congruence.
    + do 6 eexists. split; [exact E|]. split; [exact H2|exact H3].
Defined.

End ClientExamples.
