(* ===== verification/CliExamples.v ===== *)
(** * The command line client on a concrete cluster

    The theorems of CliTrace.v and CliRun.v on the broker of ClientExamples.v. *)

From S2P Require Import Prelude Json BatchLog Keys Prog Segment Storage StorageExamples Batch Partition ClusterCoord ClusterRun DataRun ClientCodec ClientNet ClientWorld Producer Consumer ConsumerRun ClientRun ClientServe ClientGroup GroupServe ClientExamples Cli CliTrace CliRun.
Local Open Scope Z_scope.

Module CliExamples.
Import Keys Json ClientNet ClientCodec ClientRun ClientServe ClientExamples Cli CliTrace CliRun.

Definition shell : Globals := {| flagBrokers := "b:9090"; flagToken := ""; flagTimeout := 0 |}.
Definition produce_hi : ProduceFlags :=
  {| flagProduceTopic := "t"; flagProduceKey := ""; flagProduceValue := "hi"; flagProduceAcks := "all" |}.
Definition consume_one (group : string) (offset : Z) : ConsumeFlags :=
  {| flagConsumeTopic := "t"; flagConsumePartition := 0; flagConsumeOffset := offset; flagConsumeGroup := group;
     flagOffsetReset := "earliest"; flagConsumeCount := 1; flagMaxWaitMs := 100 |}.

Definition record_at (offset : Z) : Consumer.ConsumerRecord :=
  {| Consumer.Topic := "t"; Consumer.PartitionID := 0; Consumer.Offset := offset; Consumer.Key := None; Consumer.Value := []; Consumer.Headers := ∅;
     Consumer.TimestampMs := 5 |}.

(** Two records are polled, one is printed. *)
Definition trace_one : list (obs consumeE) :=
  [Obs (KNew (consumerConfig (consume_one "" 2) shell)) (Ok tt); Obs (KSeek "t" 0 2) tt; Obs (KPoll 100) (Ok [record_at 2; record_at 3]);
   Obs (KPrint (formatRecord (record_at 2))) tt; Obs KClose []].

Lemma consume_prints_witness :
  printed trace_one = formatRecord <$> upto 1 (polled trace_one) /\
  forall t1 o t2, trace_one = t1 ++ o :: t2 -> commits o = true -> printed t1 = formatRecord <$> upto 1 (polled t1).
Proof.
  apply (consume_prints (consume_one "" 2) 1 shell trace_one (Ok tt)).
  repeat (eexists _, _; split; [exact I|split; [reflexivity|]]). split; reflexivity.
Defined.

Definition no_producer : Producer.Producer := pr1.2.
Definition record_hi : BatchRecord :=
  {| br_Key := None; br_Value := String.list_byte_of_string "hi"; br_Headers := ∅; br_TimestampMs := 5 |}.
Definition enc_hi : list byte := Eval vm_compute in match Encode any_order [record_hi] with Ok b => b | _ => [] end.

Lemma produce_then_consume_witness :
  exists w1 w2 v,
    run (thandle (handle maddr daddr Partition.no_json 1 refuse)) (runProduce dials any_order produce_hi 0 shell)
      (Term {| cw_obj := no_producer; cw_clock := 5000000; cw_servers := servers StorageExamples.st0 |} [] [] []) =
      (Ok tt, Term w1 [inl "offset: 2"%string] [] []) /\
    run (thandle (handle maddr daddr Partition.no_json 1 refuse)) (consumeCmd dials (consume_one "" 2) 1 0 shell)
      (Term {| cw_obj := no_consumer; cw_clock := cw_clock w1; cw_servers := cw_servers w1 |} [] [] []) = (Ok tt, Term w2 [inr v] [] []) /\
    dec recordJSON v = Some {| Consumer.Topic := "t"; Consumer.PartitionID := 0; Consumer.Offset := 2; Consumer.Key := None;
      Consumer.Value := String.list_byte_of_string "hi"; Consumer.Headers := ∅; Consumer.TimestampMs := 5 |}.
Proof.
  apply (produce_then_consume maddr daddr Partition.no_json 0 0 refuse refuse dials any_order shell produce_hi (consume_one "" 2) "b:9090" []
    (topic_of "t") 0 1 "b:9092" 0 [StorageExamples.b0_at 0] enc_hi 5000000 (servers StorageExamples.st0) no_producer no_consumer).
  - vm_compute. reflexivity.
  - reflexivity.
  - discriminate.
  - reflexivity.
  - reflexivity.
  - vm_compute. reflexivity.
  - reflexivity.
  - reflexivity.
  - exact no_wait.
  - reflexivity.
  - reflexivity.
  - reflexivity.
  - done.
  - vm_compute. reflexivity.
  - lia.
  - apply serving_t.
  - intros sv Hsv. unfold servers in Hsv. apply lookup_singleton_Some in Hsv as [_ <-]. vm_compute. split; congruence.
  - vm_compute. reflexivity.
  - vm_compute. congruence.
  - vm_compute. split; congruence.
  - vm_compute. reflexivity.
Defined.

(** The batch of "t" has two records; a count of one loses the second. *)
Lemma count_skips_witness :
  exists w1 skipped ccB' B cB w2, 1 < skipped /\
    run (thandle (handle maddr daddr Partition.no_json 1 (ClientGroup.group_rest drawn id daddr))) (consumeCmd dials (consume_one "g" 0) 1 1 shell)
      (Term {| cw_obj := no_consumer; cw_clock := 0; cw_servers := servers StorageExamples.st0 |} [] [] []) =
      (Ok tt, Term w1 (inr ∘ formatRecord <$> take (Z.to_nat 1) (Consumer.toRecord (TP "t" 0) <$> numbered 0 [Batch.sample_records])) [] []) /\
    Consumer.NewConsumer (consumerConfig (consume_one "g" 0) shell) = Ok (ccB', B) /\
    run (handle maddr daddr Partition.no_json 1 (ClientGroup.group_rest drawn id daddr)) (Consumer.Subscribe dials ccB' ["t"])
      {| cw_obj := B; cw_clock := 9; cw_servers := cw_servers w1 |} = (Ok tt, w2) /\ cw_obj w2 = cB /\
    Consumer.fetchOffsets cB !! TP "t" 0 = Some (0 + skipped).
Proof.
  apply (count_skips maddr daddr Partition.no_json 0 drawn (fun _ => ltac:(discriminate)) id (fun _ => reflexivity _) dials (fun _ => eq_refl)
    (consume_one "g" 0) (consume_one "g" 0) shell no_consumer "b:9090" [] (topic_of "t") 0 (servers StorageExamples.st0) 1 "b:9092"
    (broker StorageExamples.st0) 1 "b:9092" 0 [StorageExamples.b0_at 0] Batch.sample_records [] 9).
  - vm_compute. reflexivity.
  - discriminate.
  - reflexivity.
  - exact no_wait.
  - apply coordinated_broker.
  - apply no_members_tu.
  - reflexivity.
  - reflexivity.
  - apply serving_t.
  - discriminate.
  - exact b0_stored.
  - reflexivity.
  - vm_compute. reflexivity.
  - vm_compute. split; reflexivity.
Defined.

End CliExamples.
