(* ===== verification/ConsumerRace.v ===== *)
(** * A poll and a rebalance at the same time

    [poll_rebalance_race]: the heartbeat goroutine of a member rebalances while a poll waits for a
    fetch. The flag [rebalancing] stops polls that begin later, not this one, and its update of
    the position defeats the rebalance. The file also applies the theorems of ConsumerRun.v to
    this member. *)

From S2P Require Import Prelude Batch Keys Prog GroupCoord ClusterCoord ClientCodec ClientNet ClientWorld Producer Consumer ConsumerRun ClientExamples.
Local Open Scope Z_scope.

Module ConsumerRace.
Import Keys ClusterCoord ClientNet ClientWorld Consumer ConsumerRun ClientExamples.

(** A member of group "g" that owns and polls partition 0 of "t". *)
Definition gconf : ConsumerConfig :=
  {| cc_Config := cl_conf; GroupID := "g"; MaxFetchBytes := 1000; MaxFetchWaitMs := 500;
     AutoOffsetReset := OffsetResetEarliest; HeartbeatIntervalMs := 3000; SessionTimeoutMs := 10000 |}.
Definition tp0 : TopicPartition := TP "t" 0.
Definition member : Consumer :=
  {| co_pool := NewConnPool []; stopHeartbeat := Some true;
     co_meta := {| mc_objects := [{| PartitionCount := 1; Leaders := {[ 0 := "b:9092" ]}; FetchedAt := 0 |}];
                   mc_cache := {[ "t" := 0%nat ]}; mc_ttl := 1000 |};
     fetchOffsets := {[ tp0 := 0 ]}; soughtPartitions := [tp0]; subscribedTopics := ["t"]; memberID := "m"; generationID := 1;
     coordAddr := "b:9092"; assignedPartitions := [tp0]; rebalancing := false |}.
Definition gw0 : gworld := {| gw_obj := member; gw_clock := 0 |}.

(** A coordinator that assigns it the same partition again, and a leader with one record. *)
Definition joined_again : GroupCoord.JoinGroupResponse :=
  {| GroupCoord.jp_MemberID := "m"; GroupCoord.jp_GenerationID := 2; GroupCoord.jp_Assignments := [tp0] |}.
Definition cluster (committed : rpc (list (TopicPartition * Z))) : answers_of :=
  {| an_nodes := [{| nd_NodeID := 1; nd_Address := "b:9092" |}]; an_parts := []; an_join := inr joined_again;
     an_committed := committed; an_commit := inr tt; an_heartbeat := inr false;
     an_fetch := inr (Batch.withBaseOffset enc1 0, 1); an_latest := inr 1 |}.
Definition healthy : answers_of := cluster (inr [(tp0, 0)]).

(** The poll makes [k] steps, the rebalance starts and clears the positions, the poll ends, and the
    rebalance goes on to its end. *)
Definition schedule (k : nat) : list bool := replicate k true ++ [false; false] ++ replicate 40 true ++ replicate 60 false.

(** The outcome of both threads. *)
Definition outcome_of (k : nat) : option (list Z) * bool * Consumer :=
  let '(p, q, w) := interleave (handle healthy) (schedule k) (Poll dials gconf 1 100) (startRebalance dials gconf) gw0 in
  (match p with Ret (Ok rs) => Some (Offset <$> rs) | _ => None end, match q with Ret _ => true | _ => false end, gw_obj w).

(** The member holds its partition and polls [tps]. *)
Definition polling (tps : list TopicPartition) (c : Consumer) : bool :=
  bool_decide (soughtPartitions c = tps) && bool_decide (membership c = ([tp0], "m", 2, false)).

(** Both threads ended, the poll with the record at 0, and the member passes [test]. *)
Definition ended (test : Consumer -> bool) (r : option (list Z) * bool * Consumer) : bool :=
  let '(rs, fin, c) := r in bool_decide (rs = Some [0]) && fin && test c.

Lemma ended_true test r : ended test r = true -> exists c, r = (Some [0], true, c) /\ test c = true.
Proof.
  destruct r as [[rs fin] c]. cbn [ended]. intros [[Hrs Hfin]%andb_prop Ht]%andb_prop. apply bool_decide_eq_true in Hrs as ->.
  destruct fin; [|done]. by exists c.
Qed.

Lemma has_positions c tps :
  polling tps c = true -> soughtPartitions c = tps /\ membership c = ([tp0], "m", 2, false).
Proof. unfold polling. intros [Hs Hm]%andb_prop. apply bool_decide_eq_true in Hs, Hm. done. Qed.

Lemma race_window : forallb (fun k => ended (polling []) (outcome_of k)) (seq 2 9) = true.
Proof. vm_compute. reflexivity. Qed.
Lemma race_after : ended (polling [tp0]) (outcome_of 11) = true.
Proof. vm_compute. reflexivity. Qed.

Lemma all_in_window (f : nat -> bool) k : forallb f (seq 2 9) = true -> (2 <= k <= 10)%nat -> f k = true.
Proof. rewrite forallb_forall. intros H Hk. apply H, in_seq. lia. Qed.

(** A rebalance that clears the positions while a poll is between reading its work list and
    recording its new position starves the member. The poll returns its record and puts the
    position back; the rebalance, which keeps the same partition, finds a position and so does
    not add the partition to the polled ones; both end, the member owns the partition with the
    new generation, and from then on every poll returns nothing, whatever the heartbeats do that
    need no rebalance. When the rebalance starts after the poll has recorded its position, the
    member goes on polling. *)
Theorem poll_rebalance_race :
  (forall k, (2 <= k <= 10)%nat -> exists c, outcome_of k = (Some [0], true, c) /\
     soughtPartitions c = [] /\ membership c = ([tp0], "m", 2, false) /\
     forall maxWaitMs clk, run (handle healthy) (Poll dials gconf 1 maxWaitMs) {| gw_obj := c; gw_clock := clk |} =
       (Ok [], {| gw_obj := c; gw_clock := clk |})) /\
  exists c, outcome_of 11 = (Some [0], true, c) /\ soughtPartitions c = [tp0] /\ membership c = ([tp0], "m", 2, false).
Proof.
  split.
  - intros k Hk. destruct (ended_true _ _ (all_in_window _ k race_window Hk)) as (c & E & [Hs Hm]%has_positions). exists c.
    split; [exact E|]. split; [done|]. split; [done|]. intros maxWaitMs clk.
    apply run_Poll_idle; [done|done|]. unfold membership in Hm. by injection Hm.
  - destruct (ended_true _ _ race_after) as (c & E & H%has_positions). exists c. split; [exact E|exact H].
Qed.

(** ** Witnesses *)

Lemma tp0_once : NoDup [tp0].
Proof. apply NoDup_singleton. Qed.

Lemma rebalance_resumes_witness :
  exists w', run (handle healthy) (startRebalance dials gconf) gw0 = (tt, w') /\ soughtPartitions (gw_obj w') = [tp0] /\
    fetchOffsets (gw_obj w') !! tp0 = Some 0.
Proof.
  destruct (rebalance_resumes dials (fun _ => eq_refl) gconf "b:9090" [] eq_refl ltac:(discriminate) healthy gw0 joined_again)
    as (w' & E & _ & Hs & Hf).
  - apply NewConnPool_ok.
  - reflexivity.
  - exact tp0_once.
  - discriminate.
  - intros offs _ tp _. left. reflexivity.
  - exists w'. split; [exact E|]. split; [exact Hs|]. rewrite Hf. reflexivity.
Defined.

Lemma rebalance_starves_witness :
  exists w1 w2, run (handle (cluster (inl (ErrNew "timeout")))) (startRebalance dials gconf) gw0 = (tt, w1) /\
    run (handle healthy) (heartbeatLoop dials gconf 7) w1 = (tt, w2) /\
    membership (gw_obj w2) = ([tp0], "m", 2, false) /\ run (handle healthy) (Poll dials gconf 1 100) w2 = (Ok [], w2).
Proof.
  apply (rebalance_starves dials gconf "b:9090" [] (cluster (inl (ErrNew "timeout"))) healthy gw0 joined_again (ErrNew "timeout") 0 100 7).
  - reflexivity.
  - reflexivity.
  - discriminate.
  - apply NewConnPool_ok.
  - reflexivity.
  - reflexivity.
  - discriminate.
  - reflexivity.
Defined.

End ConsumerRace.
